(* ===== verification/_CoqProject ===== *)
-Q . S2P
Prelude.v
GoStrings.v
GoText.v
LicenseDoc.v
LicenseStore.v
LicState.v
Modules.v
Pg.v
StayTables.v
StayEngine.v
StayProofs.v
Throttle.v
Assignment.v
AssignmentProofs.v
Grace.v
Checkout.v
CheckoutProofs.v
CheckoutSample.v
CheckoutWf.v
ShapePlan.v
ShapeClass.v
GoAny.v
CommerceRules.v
CommerceRulesProofs.v
CommerceTables.v
CommerceFlow.v
CommerceProofs.v
CommercePaid.v
CommerceHistory.v
CommerceOffers.v
CommerceSample.v
PostingWire.v
PostingGate.v
PostingTables.v
PostingEngine.v
PostingLedger.v
PostingProofs.v
PostingMoney.v
PostingLive.v
PostingPark.v
ErasureLedger.v
ErasureProofs.v
ErasureStore.v
ErasureStoreProofs.v
ErasureCommit.v
ErasureNote.v
ErasureSample.v
ErasureDb.v
ErasureDbProofs.v
ErasureService.v
ErasureServiceProofs.v
ErasureServiceSample.v
ErasureRecover.v
ErasureRecoverProofs.v
ErasureRecoverSample.v
GoNet.v
NetCfg.v
NetValidate.v
NetProofs.v
NetNames.v
NetNft.v
NetFirewall.v
NetFirewallProofs.v
NetText.v
NetGarden.v
NetGardenPlan.v
NetConverge.v
NetRender.v
NetRenderProofs.v
NetSample.v
