(* ===== verification/Prelude.v ===== *)
(** * StayConnect Enterprise: the decisions of the guest-access appliance

    StayConnect runs guest Internet access for hotels.  A central service
    (control-plane) sells and signs; an appliance at the property (data-plane) runs
    the daemons: scd (guest sessions and the agents that talk to Central), edged (the
    administration API), portald (the captive portal), netd (kernel shaping and
    firewall), acctd (accounting) and pmsd (the property-management feed).  This
    library models the parts of the appliance that decide: what is licensed, who the
    appliance belongs to, who is in house, who may sign in, what is charged to a room,
    what a guest may buy and is given for it, what the kernel is told to shape, which
    packets of a client network pass and which data was erased.  The daemons' handlers are
    clients of these parts.

    How the parts interact.  The vendor signs a licence; its store keeps it on disk
    and never goes back; the manager evaluates it against the identity and the
    assignment of the appliance; the resolver turns the licence, the build and the
    site's settings into the modules in force.  The assignment gives every daemon its
    tenant and site.  The PMS feed becomes durable inbox events which the stay engine
    applies to the stay mirror; stays, grace policies and the throttle decide a
    sign-in; a guest who signed in is shown the packages the operator's rules allow, takes a
    quote and confirms it once; the posting engine charges a room and settles it; the shaping producer
    hands netd a hashed, versioned plan.  The networks an operator configures are checked
    as a set and rendered to the files of netplan, Kea, Unbound and nftables; the firewall
    is replaced without losing who is signed in.  An erasure of a guest's data is recorded in a
    ledger kept in two places, from which a restored backup is purged again.

    ** Files, and the code they model

    - [Prelude]: result and state-error monads, guards, hints, list and map lemmas.
    - [GoStrings], [GoText]: the Go string, UTF-8, strconv, strings and unicode
      functions the sources use, on byte strings.
    - [LicenseDoc] (license/doc.go, modules.go, binding.go, verify.go): the document,
      validation, module dependencies, hardware binding and the
      active/grace/expired timeline.
    - [LicenseStore] (license/sign.go, verify.go, store.go): signing and verification,
      and the on-disk store with a list of faults that says how each coming write
      ends.  The interfaces [Crypto] and [Codec] stand for Ed25519, SHA-256, base64
      and encoding/json.
    - [LicState] (data-plane/internal/licstate): the manager: load, install, fetch,
      revocation, limits pushed to the database.
    - [Modules] (internal/deployment, internal/modules): the deployment ceiling, the
      capability flags and the module resolver.
    - [Pg]: the PostgreSQL types and functions used by the stay tables.
    - [StayTables], [StayEngine], [StayProofs] (internal/stayengine, internal/namenorm
      and the tables, checks and triggers of the SQL baseline): one durable event to
      the stay mirror, in one transaction.
    - [Throttle] (internal/throttle and its SQL functions): buckets, dampers and blocks.
    - [Assignment], [AssignmentProofs] (internal/assignment, cmd/scd/assignment.go):
      the signed tenant/site document, the signed key registry, both stores, the
      resolution and the agent's poll.
    - [Grace] (internal/grace): access after checkout.
    - [Checkout] (internal/checkout and the entitlement, session and usage functions,
      triggers and indexes of the SQL baseline): the conversion of a stay at its
      checkout, in one transaction; [CheckoutProofs] and [CheckoutWf] its theorems,
      [CheckoutSample] a hotel they are applied to.
    - [ShapePlan] (internal/shapeplan and netd's submit), [ShapeClass]
      (internal/shape/minor.go): the plan, its hash, admission and class identifiers.
    - [PostingWire], [PostingGate] (internal/posting/fias.go, gate.go,
      internal/postinghandoff): the PS and PA messages and the evidence gate.
    - [PostingTables], [PostingEngine] (internal/posting/engine.go, repo.go,
      transport.go and the ledger functions, triggers and indexes of the SQL baseline):
      the ledger and the worker.  The ledger shares the shop's tables of purchases,
      settlements and entitlements ([CommerceTables]), so a settled charge runs the shop's
      own grant; a reviewer's decision is recorded and applied in one transaction, as the
      console does (cmd/edged/resources_phase4_review.go).  [PostingLedger] its invariant,
      [PostingProofs], [PostingMoney], [PostingLive] and [PostingPark] the theorems over
      histories.
    - [ErasureLedger] (internal/ledger/entry.go, mac.go, assess.go, cmd/scd
      ledger_restore.go, ledger_auth.go): the chained and authenticated ledger of
      erasures, the verdict on its copies and the decision of a restore; [ErasureProofs]
      their theorems.  [ErasureStore] (internal/ledger/store.go, cmd/edged
      ledger_commit.go): the file, the secondary storage and the erasing transaction
      under failures; [ErasureStoreProofs] the lemmas, [ErasureCommit] and [ErasureNote]
      the theorems, [ErasureSample] concrete ledgers and runs.  The interface
      [LedgerLib] stands for SHA-256, HMAC and encoding/json.
    - [ErasureDb] (the ledger's tables and functions in the SQL baseline), the interface
      [LedgerSql] standing for the casts of PostgreSQL and the replay of an entry;
      [ErasureDbProofs] its theorems.  [ErasureService] (cmd/scd/ledger_service.go,
      ledger_auth.go): the reconciliation of the database, the file and the storage, the
      receipts and scd's own entries; [ErasureServiceProofs] its theorems,
      [ErasureServiceSample] a database and runs of the service.  [ErasureRecover]
      (ledger_service.go): the recovery from the storage and the change to another one;
      [ErasureRecoverProofs] and [ErasureRecoverSample] its theorems and runs.
    - [GoNet]: the addresses, masks, networks and JSON values of Go's net, net/netip and
      encoding/json that the network code uses, on byte strings.
    - [NetCfg] (internal/netcfg model.go, fields.go, portal.go, private_reach.go and the
      subnet identifiers of render_kea.go): networks, names, the portal address.
      [NetValidate] (validate.go): every check; [NetProofs] what a set without an issue
      guarantees; [NetNames] that subnet identifiers are stable.
    - [NetNft] (render_nft.go): the firewall as rules and as the exact text that is loaded,
      its fingerprint and the marker set; the interfaces [UnicodeTables] and [Sha256] stand
      for Go's Unicode categories and the digest.  [NetFirewall] gives the rules a meaning:
      the interface [Nft] says when a condition holds of a packet, and the first rule that
      matches with a verdict decides.  [NetFirewallProofs] what the rules let pass;
      [NetText] that the text with the MAC binding is that of the right rules.
    - [NetGarden] (internal/nft/garden.go): the walled garden; [NetGardenPlan]
      (cmd/edged/resources_site.go, planGarden of cmd/scd/edge.go): the check of a rule and
      the plan made of the rules, with the resolver's answers as an argument.  [NetConverge]
      (internal/nftconverge/converge.go, internal/nft/parse.go): the replacement of the
      live firewall; the interface [GoFormat] stands for the %q format and IPv6 texts.
    - [NetRender], [NetRenderProofs] (render_netplan.go, render_unbound.go, render_kea.go,
      factory.go): the other generated files.  [NetSample]: concrete networks, packets and
      instances of the interfaces the theorems are applied to.
    - [GoAny]: decoded JSON as Go's [any], RFC 3339 times, rounding of float64.
    - [CommerceRules] (internal/iamv2 commerce_domain.go, commerce_validate.go,
      commerce_grant.go, commerce_currency.go, commerce_duration.go, acquisition.go,
      phase6_acquisition.go, commerce_config.go): the rules of the package shop, checked
      when a package is published and evaluated for every guest; [CommerceRulesProofs] what
      publication promises to the sale.
    - [CommerceTables] (commerce_repo_pg.go and the grant functions, triggers and
      constraints of the SQL baseline), [CommerceFlow] (commerce_list.go, commerce_flow.go,
      commerce_engine.go, acquisition.go): list, quote and confirmation, one transaction
      each; the interface [PgTime] stands for the cast of a text to a timestamp.
      [CommerceProofs] what one confirmation does, [CommercePaid] that a grant runs when
      nothing refuses it, [CommerceHistory] the shop over time, the grant of a paid purchase
      among its steps: its relation [outside] says what the rest of the program may do to the
      tables between two calls (rows that a purchase of the shop refers to stay, a paid
      settlement stays paid, a spent card stays spent, new entitlements belong to purchases
      made elsewhere: those of room guests, which carry a stay, and those without a quote,
      such as a staff reset).  [CommerceOffers] quotes against the list
      and the rules; [CommerceSample] a shop they are applied to.

    Each definition carries the name of the Go or SQL symbol it translates.  A record
    field that clashes with another carries a short prefix of its type.  Integers are
    [Z]; where Go arithmetic can leave 64 bits the wrap ([wrap64]) is written out, and
    durations saturate where time.Time does.  Errors are values of a sum type.

    ** What the theorems show

    - Room charges: in any history of workers, crashes, lost answers, recovery, review
      and requeue a charge reaches the PMS at most once per authorised attempt; access
      is granted only for a charge the PMS or a reviewer confirmed; every PS carries
      its posting; the dark switch silences the wire; a charge that meets no refusal
      goes through to an active entitlement, and one that is refused every time is parked
      by the worker's own rounds.
    - Licences: an installed licence is never rolled back, a revocation is final, a
      clock set back is bounded by the high-water mark, damage falls back to the copy,
      the authorised modules are the greatest dependency-closed set.
    - Assignment: a granted scope is signed, bound and current; neither the document
      nor the key registry goes back; rotation strands nobody.
    - Stays: an event changes the mirror only when it is applied, in order, within its
      guards; a repeated record is a no-op; a checkout needs its departure evidence.
    - Checkout: no access bought before it survives one that is decided without manual
      review (there the sessions stay: [manual_review_leaves_sessions]), grace goes once to the devices
      that had access and from the boundary on, the boundary is never invented, the
      tables stay well formed, and the conversion meets the contract ([CheckoutConverter])
      under which the stay engine was verified.
    - Sign-in: attempts in a window are bounded, a block holds, and the one-round-trip
      form agrees with the reference form when no call fails.
    - Shaping: an admitted plan is never replaced by an older one, its hash pins the
      desired state, and classes never share an identifier.
    - Erasures: a restore redoes every erasure that anything records, and only this
      appliance's own; an erasure is reported only when both copies hold it; a failed
      commit leaves the file as it was; an interrupted write parses to a beginning of
      the ledger; without force the secondary copy is never set back; the verdict on
      two copies that were begun is exactly its contract.  The ledger in the database only grows and its
      own check agrees with the one in Go; the reconciliation admits erasures only when
      the database, the file and the storage hold the same ledger; the database accepts
      scd's receipts, and scd's own entries are durable before they are kept.  A recovery
      from the storage loses nothing, and a storage is taken into use only when it holds
      the ledger.
    - Client networks: a set of plain IPv4 subnets that passes the checks has disjoint blocks with usable
      gateways, pools and reservations, and its names cannot add a line to a generated
      file; a packet of a client network is forwarded only to a resolver, the garden or, for
      a signed-in client, an unblocked destination, and such a client is forwarded; the
      appliance answers a client network on few ports; the captive redirection is a stated
      function; the fingerprint can be read back from what is loaded; the replacement of a
      live firewall keeps what is left of every lease nft lists as an address or a
      concatenation, or does nothing; the garden opens what its sources ask for, and its ip
      and cidr rules open no private address.
    - Package shop: a rule or tier accepted at publication works for every guest and every
      plan; a quote records what was on offer; a listed package can be had; a confirmation
      happens whole or not at all; over any history a sign-in, a quote and a card are spent
      once at the shop, and access bought there comes only from a free quote, a payment or a
      card.

    ** Bounds, fuel and atomicity

    Loops that Go repeats "until nothing changes" ([prune_loop], [dep_loop]) take the
    size of the set they shrink, plus one, as fuel: each round but the last removes an
    element.  [strip_all] takes the length of its string.  No theorem is conditional on
    fuel.  A database transaction is one step: it commits whole or not at all; row
    locks and advisory locks order the steps, and histories interleave them freely.
    File writes end in success, in failure before the rename or in failure after it.
    Every operation of the erasure store takes its fate from a list: done, refused, done
    although an error is reported, half done, or replaced by something else.

    ** Not modelled

    HTTP handlers, sockets, goroutines and timers, logging and metrics; SQL that only
    reports; the kernel programs netd drives (nft and its packet filter, tc, conntrack):
    the meaning of a firewall rule is a parameter with the documented laws of nftables;
    the leases of single elements (internal/nft nft.go, mac.go, batch.go), the foundation
    that netd builds before the first configuration, netd's apply and the JSON encoding of
    Kea's configuration; the room sign-in path of the shop, staff resets and transfers of
    packages, allowances per night and the administration of packages; the posting blocks of
    a stay, which are inputs of the posting gate; third-party libraries and cryptographic
    primitives, which are parameters with their documented laws; the front-ends and tools.  Queries that read tables outside a component are
    inputs of its operations.  The remaining packages are listed, with the reason, as
    components that are not modelled; the next ones in the plan are the packages that
    decide: stay grants and post-stay access, sign-in attempts, payments and the PMS
    link. *)
From Stdlib Require Export ZArith Lia.
From stdpp Require Export base option list gmap strings sorting relations.

#[export] Set Default Goal Selector "!".
Open Scope string_scope.
Open Scope Z_scope.

Create HintDb onegate discriminated.

(** ** Case analysis on guards

    Code is modelled with [if decide _] and boolean comparisons.  [guards]
    splits every guard of the goal and turns it into a proposition. *)
Ltac zify_guards :=
  repeat match goal with
  | H : _ && _ = true |- _ => apply andb_true_iff in H as [? ?]
  | H : _ || _ = false |- _ => apply orb_false_iff in H as [? ?]
  | H : negb _ = true |- _ => apply negb_true_iff in H
  | H : negb _ = false |- _ => apply negb_false_iff in H
  | H : (_ <? _) = true |- _ => apply Z.ltb_lt in H
  | H : (_ <? _) = false |- _ => apply Z.ltb_ge in H
  | H : (_ <=? _) = true |- _ => apply Z.leb_le in H
  | H : (_ <=? _) = false |- _ => apply Z.leb_gt in H
  | H : (_ =? _)%Z = true |- _ => apply Z.eqb_eq in H
  | H : (_ =? _)%Z = false |- _ => apply Z.eqb_neq in H
  | H : bool_decide _ = true |- _ => apply bool_decide_eq_true_1 in H
  | H : bool_decide _ = false |- _ => apply bool_decide_eq_false_1 in H
  end.

Ltac guards :=
  repeat (case_match; zify_guards; simplify_eq/=; try done).

(** [passed H]: [H] says that a chain of early returns did not return; every
    guard of the chain is recorded as having passed. *)
Ltac passed H :=
  repeat match type of H with
  | (if decide ?c then _ else _) = _ => destruct (decide c); try discriminate H
  | (if ?c then _ else _) = _ => destruct c eqn:?; try discriminate H
  | (match ?x with _ => _ end) = _ => destruct x eqn:?; try discriminate H
  end; zify_guards.

(** Split the conjunctions of guards that failed. *)
Ltac split_failed :=
  zify_guards;
  repeat (match goal with
  | H : _ && _ = false |- _ => apply andb_false_iff in H as [H|H]
  | H : _ || _ = true |- _ => apply orb_true_iff in H as [H|H]
  end; zify_guards).

(** ** Signed 64-bit integers *)

Definition two63 : Z := 9223372036854775808.
Definition two64 : Z := 18446744073709551616.

Definition in_int64 (z : Z) : Prop := - two63 <= z < two63.

(** Two's-complement wrap-around of Go's [int], [int64] and [time.Duration]. *)
Definition wrap64 (z : Z) : Z := (z + two63) mod two64 - two63.

Lemma wrap64_id z : in_int64 z → wrap64 z = z.
Proof. unfold in_int64, wrap64, two63, two64. intros H. rewrite Z.mod_small; lia. Qed.

Lemma wrap64_range z : in_int64 (wrap64 z).
Proof.
  unfold in_int64, wrap64, two63, two64.
  pose proof (Z.mod_pos_bound (z + 9223372036854775808) 18446744073709551616). lia.
Qed.

#[export] Hint Resolve wrap64_range : onegate.

(** ** Time

    A [time.Time] is an instant: nanoseconds since Go's zero time (year 1,
    January 1, UTC).  A [time.Duration] is an [int64] of nanoseconds. *)
Abbreviation Time := Z (only parsing).
Abbreviation Duration := Z (only parsing).

Definition Nanosecond : Duration := 1.
Definition Microsecond : Duration := 1000 * Nanosecond.
Definition Millisecond : Duration := 1000 * Microsecond.
Definition Second : Duration := 1000 * Millisecond.
Definition Minute : Duration := 60 * Second.
Definition Hour : Duration := 60 * Minute.
Definition Day : Duration := 24 * Hour.

Definition zeroTime : Time := 0.
Definition IsZero (t : Time) : bool := (t =? zeroTime)%Z.
Definition After (t u : Time) : bool := u <? t.
Definition Before (t u : Time) : bool := t <? u.
Definition time_Add (t : Time) (d : Duration) : Time := t + d.

(** [t.Sub(u)] saturates at the ends of the [Duration] range. *)
Definition time_Sub (t u : Time) : Duration :=
  Z.max (- two63) (Z.min (two63 - 1) (t - u)).

Lemma time_Sub_gt t u d : - two63 <= d < two63 - 1 → (d < time_Sub t u ↔ d < t - u).
Proof. unfold time_Sub, two63. lia. Qed.

Lemma time_Sub_lt t u d : - two63 < d <= two63 - 1 → (time_Sub t u < d ↔ t - u < d).
Proof. unfold time_Sub, two63. lia. Qed.

(** ** Results and the state-and-error monad

    [res] is Go's [(value, error)] return where the value is only meaningful
    without an error; [ST S E A] threads a mutable state [S] (kept on errors,
    as Go keeps the side effects done before the failing call). *)
Inductive res (E A : Type) : Type :=
| Ok (a : A)
| Err (e : E).
Arguments Ok {E A} a.
Arguments Err {E A} e.

#[export] Instance res_bind {E} : MBind (res E) :=
  λ A B f m, match m with Ok a => f a | Err e => Err e end.
#[export] Instance res_ret {E} : MRet (res E) := λ A a, Ok a.
#[export] Instance res_eq_dec {E A} `{EqDecision E, EqDecision A} : EqDecision (res E A).
Proof. solve_decision. Defined.

Definition is_Ok {E A} (r : res E A) : bool :=
  match r with Ok _ => true | Err _ => false end.

Definition ok_of {E A} (r : res E A) : option A :=
  match r with Ok a => Some a | Err _ => None end.

Lemma res_bind_Ok {E A B} (m : res E A) (f : A → res E B) b :
  (m ≫= f) = Ok b ↔ ∃ a, m = Ok a ∧ f a = Ok b.
Proof. destruct m; unfold mbind, res_bind; naive_solver. Qed.

Definition ST (S E A : Type) : Type := S → S * res E A.

#[export] Instance ST_bind {S E} : MBind (ST S E) :=
  λ A B f m s,
    match m s with
    | (s', Ok a) => f a s'
    | (s', Err e) => (s', Err e)
    end.
#[export] Instance ST_ret {S E} : MRet (ST S E) := λ A a s, (s, Ok a).

Definition fail {S E A} (e : E) : ST S E A := λ s, (s, Err e).
Definition lift {S E A} (r : res E A) : ST S E A := λ s, (s, r).
Definition gets {S E A} (f : S → A) : ST S E A := λ s, (s, Ok (f s)).
Definition reads {S E A} (f : S → res E A) : ST S E A := λ s, (s, f s).

Lemma ST_bind_Ok {S E A B} (m : ST S E A) (f : A → ST S E B) s s' b :
  (m ≫= f) s = (s', Ok b) ↔ ∃ s1 a, m s = (s1, Ok a) ∧ f a s1 = (s', Ok b).
Proof.
  unfold mbind, ST_bind. destruct (m s) as [s1 [a|e]]; naive_solver.
Qed.

(** A relation between the states before and after a computation that every
    primitive respects is respected by the composition. *)
Definition preserves {S E A} (R : S → S → Prop) (m : ST S E A) : Prop :=
  ∀ s s' r, m s = (s', r) → R s s'.

Lemma preserves_ret {S E A} (R : S → S → Prop) `{!Reflexive R} (a : A) :
  preserves R (mret a : ST S E A).
Proof. intros s s' r [= <- <-]. reflexivity. Qed.

Lemma preserves_fail {S E A} (R : S → S → Prop) `{!Reflexive R} (e : E) :
  preserves R (fail e : ST S E A).
Proof. intros s s' r [= <- <-]. reflexivity. Qed.

Lemma preserves_lift {S E A} (R : S → S → Prop) `{!Reflexive R} (x : res E A) :
  preserves R (lift x : ST S E A).
Proof. intros s s' r [= <- <-]. reflexivity. Qed.

Lemma preserves_reads {S E A} (R : S → S → Prop) `{!Reflexive R} (f : S → res E A) :
  preserves R (reads f).
Proof. intros s s' r [= <- <-]. reflexivity. Qed.

Lemma preserves_bind {S E A B} (R : S → S → Prop) `{!Transitive R}
    (m : ST S E A) (f : A → ST S E B) :
  preserves R m → (∀ a, preserves R (f a)) → preserves R (m ≫= f).
Proof.
  intros Hm Hf s s' r. unfold mbind, ST_bind.
  destruct (m s) as [s1 [a|e]] eqn:E1; intros H.
  - etransitivity; [exact (Hm _ _ _ E1)|exact (Hf _ _ _ _ H)].
  - injection H as <- <-. exact (Hm _ _ _ E1).
Qed.

#[export] Hint Resolve preserves_ret preserves_fail preserves_lift preserves_reads
  preserves_bind : onegate.

(** [if guard then return err]: the guard's failure is the error. *)
Definition check {E} (b : bool) (e : E) : res E () := if b then Ok () else Err e.

Lemma check_Ok {E} b (e : E) u : check b e = Ok u ↔ b = true.
Proof. destruct b, u; simpl; naive_solver. Qed.

(** ** Iteration over Go maps

    [for k := range m] visits the keys in an unspecified order that may differ
    from one loop to the next.  [range n s] is the order of the [n]-th loop;
    theorems quantify over every such order. *)
Class MapRange : Type := {
  range : nat → gset string → list string;
  range_perm n s : range n s ≡ₚ elements s
}.

Program Definition elements_range : MapRange := {| range _ s := elements s |}.
Next Obligation. done. Qed.

Lemma elem_of_range `{MapRange} n s k : k ∈ range n s ↔ k ∈ s.
Proof. rewrite (range_perm n s). apply elem_of_elements. Qed.

(** [sort.Strings]: byte-wise lexicographic order. *)
Definition string_le (a b : string) : Prop := String.leb a b = true.
#[export] Instance string_le_dec : RelDecision string_le.
Proof. intros a b. unfold string_le. apply _. Defined.
Definition sort_Strings (l : list string) : list string := merge_sort string_le l.

Lemma sort_Strings_perm l : sort_Strings l ≡ₚ l.
Proof. apply merge_sort_Permutation. Qed.

(** ** Lists whose elements are told apart by a key *)

Lemma NoDup_fmap_inj_on {A B} (f : A → B) l x y :
  NoDup (f <$> l) → x ∈ l → y ∈ l → f x = f y → x = y.
Proof.
  intros Hn [i Hi]%list_elem_of_lookup [j Hj]%list_elem_of_lookup E.
  assert (i = j) as ->; [|congruence].
  eapply (NoDup_lookup _ i j (f x) Hn); rewrite list_lookup_fmap; [by rewrite Hi|by rewrite Hj, E].
Qed.

Lemma length_le_one {A} (l : list A) : NoDup l → (∀ x y, x ∈ l → y ∈ l → x = y) → (length l ≤ 1)%nat.
Proof.
  destruct l as [|x [|y l]]; cbn; [lia|lia|]. intros [Hx _]%NoDup_cons HE. destruct Hx.
  rewrite (HE x y); [left|left|right; left].
Qed.

Lemma length_le_two {A} (f : A → bool) (l : list A) :
  NoDup l → (∀ x y, x ∈ l → y ∈ l → f x = f y → x = y) → (length l ≤ 2)%nat.
Proof.
  destruct l as [|x [|y [|z l]]]; cbn; [lia..|]. intros (Hx & [Hy _]%NoDup_cons)%NoDup_cons HE. exfalso.
  assert (x ≠ y ∧ x ≠ z ∧ y ≠ z) as (Hxy & Hxz & Hyz) by (split_and!; intros ->; [apply Hx|apply Hx|apply Hy]; set_solver).
  pose proof (HE x y) as E1. pose proof (HE x z) as E2. pose proof (HE y z) as E3.
  destruct (f x), (f y), (f z); (apply Hxy; apply E1; [set_solver..|done]) || (apply Hxz; apply E2; [set_solver..|done])
    || (apply Hyz; apply E3; [set_solver..|done]).
Qed.
