(* ===== verification/GoStrings.v ===== *)
(** Go strings: byte strings with the operations of the packages [strings]
    and [unicode/utf8] that the modelled code calls.

    A Go string is a sequence of bytes; [string] of the Standard Library (a
    sequence of 8-bit [ascii]) is used for it.  Trimming is modelled in full,
    multi-byte Unicode white space included.  Case mapping is exact on ASCII;
    outside ASCII it reads the Unicode tables, which are a parameter (the class
    [Unicode]) whose laws only fix the ASCII range and what the packages
    document. *)
From S2P Require Import Prelude.

(** ** Bytes *)

Definition byte_of (c : Ascii.ascii) : Z := Z.of_nat (Ascii.nat_of_ascii c).

Fixpoint bytes_of (s : string) : list Z :=
  match s with
  | EmptyString => []
  | String c s' => byte_of c :: bytes_of s'
  end.

Fixpoint of_bytes (l : list nat) : string :=
  match l with
  | [] => EmptyString
  | n :: l' => String (Ascii.ascii_of_nat n) (of_bytes l')
  end.

Definition len (s : string) : Z := Z.of_nat (String.length s).

Lemma length_append s t : String.length (s +:+ t) = (String.length s + String.length t)%nat.
Proof. induction s; simpl; auto. Qed.

(** Every byte satisfies a predicate. *)
Fixpoint all_bytes (p : Z → bool) (s : string) : bool :=
  match s with
  | EmptyString => true
  | String c s' => p (byte_of c) && all_bytes p s'
  end.

Definition is_ascii (s : string) : bool := all_bytes (λ b, b <? 128) s.

Fixpoint map_bytes (f : Z → Z) (s : string) : string :=
  match s with
  | EmptyString => EmptyString
  | String c s' => String (Ascii.ascii_of_nat (Z.to_nat (f (byte_of c)))) (map_bytes f s')
  end.

Definition in_range (lo hi b : Z) : bool := (lo <=? b) && (b <=? hi).

Definition lower_byte (b : Z) : Z := if in_range 65 90 b then b + 32 else b.
Definition upper_byte (b : Z) : Z := if in_range 97 122 b then b - 32 else b.

Definition ascii_lower : string → string := map_bytes lower_byte.
Definition ascii_upper : string → string := map_bytes upper_byte.

(** ** [utf8.ValidString] *)

Definition cont (b : Z) : bool := in_range 128 191 b.

Fixpoint valid_utf8_bytes (l : list Z) : bool :=
  match l with
  | [] => true
  | b0 :: l0 =>
      if b0 <? 128 then valid_utf8_bytes l0
      else match l0 with
      | [] => false
      | b1 :: l1 =>
          if in_range 194 223 b0 then cont b1 && valid_utf8_bytes l1
          else match l1 with
          | [] => false
          | b2 :: l2 =>
              if in_range 224 239 b0 then
                (if (b0 =? 224)%Z then in_range 160 191 b1
                 else if (b0 =? 237)%Z then in_range 128 159 b1 else cont b1)
                && cont b2 && valid_utf8_bytes l2
              else match l2 with
              | [] => false
              | b3 :: l3 =>
                  in_range 240 244 b0
                  && (if (b0 =? 240)%Z then in_range 144 191 b1
                      else if (b0 =? 244)%Z then in_range 128 143 b1 else cont b1)
                  && cont b2 && cont b3 && valid_utf8_bytes l3
              end
          end
      end
  end.

Definition ValidString (s : string) : bool := valid_utf8_bytes (bytes_of s).

Lemma ascii_valid s : is_ascii s = true → ValidString s = true.
Proof.
  unfold ValidString, is_ascii.
  induction s as [|c s IH]; simpl; [done|]. intros H.
  apply andb_true_iff in H as [-> ?]. auto.
Qed.

(** ** [strings.TrimSpace]

    [unicode.IsSpace]: the ASCII white space, U+0085, U+00A0 and the runes of
    category Z/White_Space, each as its UTF-8 encoding.  A white-space rune can
    start (end) a string only as its full encoding, so removing encodings from
    both ends is Go's rune-wise trim. *)
Definition space_encodings : list (list nat) :=
  [[9]; [10]; [11]; [12]; [13]; [32]; [194; 133]; [194; 160]; [225; 154; 128];
   [226; 128; 128]; [226; 128; 129]; [226; 128; 130]; [226; 128; 131];
   [226; 128; 132]; [226; 128; 133]; [226; 128; 134]; [226; 128; 135];
   [226; 128; 136]; [226; 128; 137]; [226; 128; 138]; [226; 128; 168];
   [226; 128; 169]; [226; 128; 175]; [226; 129; 159]; [227; 128; 128]]%nat.

Fixpoint strip_prefix (p s : string) : option string :=
  match p, s with
  | EmptyString, _ => Some s
  | String a p', String b s' => if decide (a = b) then strip_prefix p' s' else None
  | String _ _, EmptyString => None
  end.

Fixpoint strip_one (ps : list string) (s : string) : option string :=
  match ps with
  | [] => None
  | p :: ps' => match strip_prefix p s with Some s' => Some s' | None => strip_one ps' s end
  end.

Fixpoint strip_all (ps : list string) (fuel : nat) (s : string) : string :=
  match fuel with
  | O => s
  | S n => match strip_one ps s with Some s' => strip_all ps n s' | None => s end
  end.

Fixpoint rev_app (s acc : string) : string :=
  match s with
  | EmptyString => acc
  | String c s' => rev_app s' (String c acc)
  end.
Definition rev_string (s : string) : string := rev_app s EmptyString.

Definition TrimLeftSpace (s : string) : string :=
  strip_all (of_bytes <$> space_encodings) (String.length s) s.
Definition TrimRightSpace (s : string) : string :=
  rev_string (strip_all ((λ e, rev_string (of_bytes e)) <$> space_encodings)
                (String.length s) (rev_string s)).
Definition TrimSpace (s : string) : string := TrimRightSpace (TrimLeftSpace s).

Example TrimSpace_sample : TrimSpace (of_bytes [32; 194; 160; 65; 32; 66; 226; 128; 137; 10]%nat) = "A B".
Proof. reflexivity. Qed.

(** ** [strings.ReplaceAll] of one byte by another *)
Fixpoint replace_byte (a b : Ascii.ascii) (s : string) : string :=
  match s with
  | EmptyString => EmptyString
  | String c s' => String (if decide (c = a) then b else c) (replace_byte a b s')
  end.

(** ** Unicode tables *)

(** [ToLower], [ToUpper] and [EqualFold] of package [strings] and the NFC
    normal form of [golang.org/x/text/unicode/norm]. *)
Class Unicode : Type := {
  ToLower : string → string;
  ToUpper : string → string;
  EqualFold : string → string → bool;
  NFC : string → string;
  ToLower_ascii s : is_ascii s = true → ToLower s = ascii_lower s;
  ToUpper_ascii s : is_ascii s = true → ToUpper s = ascii_upper s;
  EqualFold_ascii s t : is_ascii s = true → is_ascii t = true →
    EqualFold s t = bool_decide (ascii_lower s = ascii_lower t);
  EqualFold_refl s : EqualFold s s = true;
  EqualFold_sym s t : EqualFold s t = EqualFold t s;
  NFC_ascii s : is_ascii s = true → NFC s = s;
  NFC_idemp s : NFC (NFC s) = NFC s
}.

(** The ASCII tables: case mapping leaves every other byte alone. *)
Program Definition ascii_unicode : Unicode := {|
  ToLower := ascii_lower;
  ToUpper := ascii_upper;
  EqualFold s t := bool_decide (ascii_lower s = ascii_lower t);
  NFC s := s
|}.
Next Obligation. done. Qed.
Next Obligation. done. Qed.
Next Obligation. done. Qed.
Next Obligation. intros. by apply bool_decide_eq_true_2. Qed.
Next Obligation. intros. by apply bool_decide_ext. Qed.
Next Obligation. done. Qed.
Next Obligation. done. Qed.

(** [x == ""] as a boolean. *)
Definition empty (s : string) : bool := bool_decide (s = "").

Lemma empty_true s : empty s = true ↔ s = "".
Proof. apply bool_decide_eq_true. Qed.
Lemma empty_false s : empty s = false ↔ s ≠ "".
Proof. apply bool_decide_eq_false. Qed.

(** [strings.TrimSpace(s) == ""]. *)
Definition blank (s : string) : bool := empty (TrimSpace s).
