(* ===== verification/GoText.v ===== *)
(** Text the components build and take apart: joining and splitting at a
    separator byte, decimal integers ([strconv.FormatInt] is [pretty], and
    [ParseInt]), the first occurrence of a tag. *)
From stdpp Require Import pretty.
From S2P Require Import Prelude GoStrings.

Lemma append_nil_r s : s +:+ "" = s.
Proof. induction s as [|c s IH]; [done|]. change (String c (s +:+ "") = String c s). by rewrite IH. Qed.

(** ** [strings.Join] and [strings.Split] with a one-byte separator *)

(** [strings.Join]. *)
Definition Join (sep : Ascii.ascii) (l : list string) : string :=
  match l with
  | [] => ""
  | x :: l' => x +:+ foldr (λ y acc, String sep (y +:+ acc)) "" l'
  end.


(** The string does not contain the byte [c]. *)
Fixpoint lacks (c : Ascii.ascii) (s : string) : bool :=
  match s with
  | EmptyString => true
  | String x s' => bool_decide (x ≠ c) && lacks c s'
  end.

Lemma lacks_app c s t : lacks c (s +:+ t) = lacks c s && lacks c t.
Proof.
  induction s as [|x s IH]; [done|].
  change (bool_decide (x ≠ c) && lacks c (s +:+ t) = bool_decide (x ≠ c) && lacks c s && lacks c t).
  by rewrite IH, andb_assoc.
Qed.

(** [strings.Split], the inverse of [Join] on a non-empty list. *)
Fixpoint split_on (sep : Ascii.ascii) (s : string) : list string :=
  match s with
  | EmptyString => [""]
  | String c s' =>
      if decide (c = sep) then "" :: split_on sep s'
      else match split_on sep s' with
           | x :: l => String c x :: l
           | [] => [String c ""]
           end
  end.

Definition joined_tail (sep : Ascii.ascii) (l : list string) : string :=
  foldr (λ y acc, String sep (y +:+ acc)) "" l.

Lemma split_on_field sep x l :
  lacks sep x = true →
  split_on sep (joined_tail sep l) = "" :: l →
  split_on sep (x +:+ joined_tail sep l) = x :: l.
Proof.
  intros Hx Hl. induction x as [|c x IH]; [done|].
  cbn [lacks] in Hx. zify_guards. specialize (IH ltac:(done)).
  change (split_on sep (String c (x +:+ joined_tail sep l)) = String c x :: l).
  cbn [split_on]. rewrite IH. by destruct (decide (c = sep)).
Qed.

Lemma split_on_tail sep l :
  Forall (λ y, lacks sep y = true) l → split_on sep (joined_tail sep l) = "" :: l.
Proof.
  induction 1 as [|y l Hy _ IH]; [done|].
  change (split_on sep (String sep (y +:+ joined_tail sep l)) = "" :: y :: l).
  cbn [split_on]. destruct (decide (sep = sep)); [|done]. f_equal. by apply split_on_field.
Qed.

Lemma split_on_Join sep x l :
  Forall (λ y, lacks sep y = true) (x :: l) → split_on sep (Join sep (x :: l)) = x :: l.
Proof.
  intros [Hx Hl]%Forall_cons. apply split_on_field; [done|]. by apply split_on_tail.
Qed.

Lemma Join_inj sep l l' :
  l ≠ [] → l' ≠ [] →
  Forall (λ y, lacks sep y = true) l → Forall (λ y, lacks sep y = true) l' →
  Join sep l = Join sep l' → l = l'.
Proof.
  intros Hl Hl' Fl Fl' E. destruct l as [|x l]; [done|]. destruct l' as [|y l']; [done|].
  rewrite <- (split_on_Join sep x l), <- (split_on_Join sep y l') by done. by rewrite E.
Qed.

Lemma Join_lacks c sep l :
  c ≠ sep → Forall (λ y, lacks c y = true) l → lacks c (Join sep l) = true.
Proof.
  intros Hne. destruct 1 as [|x l Hx Hl]; [done|]. unfold Join. rewrite lacks_app, Hx. cbn.
  induction Hl as [|y l Hy _ IH]; [done|]. cbn [foldr lacks].
  rewrite lacks_app, Hy, IH, bool_decide_true by done. done.
Qed.

(** Rows that determine what they print determine it as a multiset. *)
Lemma Permutation_fmap_weaken {A B C} (g : A → B) (f : A → C) (xs ys : list A) :
  (∀ x y, x ∈ xs → y ∈ ys → g x = g y → f x = f y) →
  g <$> xs ≡ₚ g <$> ys → f <$> xs ≡ₚ f <$> ys.
Proof.
  revert ys. induction xs as [|x xs IH]; intros ys Hgf P.
  - by apply Permutation_nil, fmap_nil_inv in P as ->.
  - assert (Hin : g x ∈ g <$> ys) by (rewrite <- P; left).
    apply list_elem_of_fmap in Hin as (y & E & Hy).
    apply list_elem_of_split in Hy as (l1 & l2 & ->).
    rewrite fmap_app, !fmap_cons, <- Permutation_middle, E in P.
    apply Permutation_cons_inv in P.
    rewrite fmap_app, !fmap_cons, <- Permutation_middle, <- fmap_app.
    rewrite (Hgf x y); [|left|set_solver|done]. constructor.
    apply IH; [|by rewrite fmap_app]. intros u v Hu Hv. apply Hgf; set_solver.
Qed.

Lemma lacks_pretty_N_go c n s :
  (∀ d, pretty_N_char d ≠ c) → lacks c s = true → lacks c (pretty_N_go n s) = true.
Proof.
  intros Hc. revert s. induction (N.lt_wf_0 n) as [n _ IH]; intros s Hs.
  destruct (decide (n = 0)%N) as [->|]; [done|].
  rewrite pretty_N_go_step by lia. apply IH; [apply N.div_lt; lia|].
  cbn [lacks]. by rewrite Hs, bool_decide_true.
Qed.

Lemma lacks_pretty_Z c (z : Z) :
  c ≠ Ascii.ascii_of_nat 45 → (∀ d, pretty_N_char d ≠ c) → lacks c (pretty z) = true.
Proof.
  intros Hm Hc.
  assert (HN : ∀ n : N, lacks c (pretty n) = true).
  { intros n. unfold pretty, pretty_N. case_decide.
    - cbn [lacks]. rewrite bool_decide_true; [done|]. exact (Hc 0%N).
    - by apply lacks_pretty_N_go. }
  destruct z as [|p|p].
  - exact (HN 0%N).
  - exact (HN (N.pos p)).
  - change (lacks c (String (Ascii.ascii_of_nat 45) (pretty (N.pos p))) = true). cbn [lacks].
    by rewrite HN, bool_decide_true.
Qed.


(** ** Decimal integers *)

Definition digit_val (c : Ascii.ascii) : option Z :=
  if in_range 48 57 (byte_of c) then Some (byte_of c - 48) else None.

(** The value of the leading digits, from an accumulator, in Go's 64-bit
    arithmetic. *)
Fixpoint read_digits (acc : Z) (s : string) : Z :=
  match s with
  | EmptyString => acc
  | String c s' =>
      match digit_val c with
      | Some d => read_digits (wrap64 (wrap64 (acc * 10) + d)) s'
      | None => acc
      end
  end.

Definition all_digits (s : string) : bool := all_bytes (in_range 48 57) s.

Lemma digit_val_char (d : N) : (d < 10)%N → digit_val (pretty_N_char d) = Some (Z.of_N d).
Proof.
  intros Hd. assert (d = 0 ∨ d = 1 ∨ d = 2 ∨ d = 3 ∨ d = 4 ∨ d = 5 ∨ d = 6 ∨ d = 7 ∨ d = 8 ∨ d = 9)%N as Hc by lia.
  repeat destruct Hc as [->|Hc]; try reflexivity. subst. reflexivity.
Qed.

Lemma read_digits_pretty_go (n : N) s :
  Z.of_N n < two63 → read_digits 0 (pretty_N_go n s) = read_digits (Z.of_N n) s.
Proof.
  revert s. induction (N.lt_wf_0 n) as [n _ IH]; intros s Hn.
  destruct (decide (n = 0)%N) as [->|]; [done|].
  rewrite pretty_N_go_step by lia.
  pose proof (N.Div0.div_mod n 10) as E. pose proof (N.mod_lt n 10 ltac:(done)) as Hr.
  pose proof (N.div_lt n 10 ltac:(lia) ltac:(done)) as Hq.
  set (q := (n / 10)%N) in *. set (r := (n mod 10)%N) in *. clearbody q r.
  rewrite IH by lia. cbn [read_digits]. rewrite digit_val_char by lia.
  rewrite (wrap64_id (Z.of_N q * 10)) by (unfold in_int64, two63 in *; lia).
  rewrite wrap64_id by (unfold in_int64, two63 in *; lia). f_equal. lia.
Qed.

Lemma pretty_pos z : 0 < z → pretty z = pretty_N_go (Z.to_N z) "".
Proof.
  intros Hz. destruct z as [|p|p]; [lia| |lia].
  change (pretty (N.pos p) = pretty_N_go (N.pos p) ""). unfold pretty, pretty_N. by case_decide.
Qed.

Lemma pretty_N_go_app n s t : pretty_N_go n s +:+ t = pretty_N_go n (s +:+ t).
Proof.
  revert s. induction (N.lt_wf_0 n) as [n _ IH]; intros s.
  destruct (decide (n = 0)%N) as [->|]; [done|].
  rewrite (pretty_N_go_step n s), (pretty_N_go_step n (s +:+ t)) by lia.
  rewrite IH by (apply N.div_lt; lia). done.
Qed.

(** The digits of a printed positive integer, whatever follows, read back. *)
Lemma read_digits_pretty z s :
  0 < z < two63 → read_digits 0 (pretty z +:+ s) = read_digits z s.
Proof.
  intros Hz. rewrite pretty_pos, pretty_N_go_app, read_digits_pretty_go by lia. f_equal. lia.
Qed.

Lemma all_bytes_app p s t : all_bytes p (s +:+ t) = all_bytes p s && all_bytes p t.
Proof.
  induction s as [|c s IH]; [done|].
  change (p (byte_of c) && all_bytes p (s +:+ t) = p (byte_of c) && all_bytes p s && all_bytes p t).
  by rewrite IH, andb_assoc.
Qed.

Lemma all_digits_pretty_go n s : all_digits s = true → all_digits (pretty_N_go n s) = true.
Proof.
  revert s. induction (N.lt_wf_0 n) as [n _ IH]; intros s Hs.
  destruct (decide (n = 0)%N) as [->|]; [done|].
  rewrite pretty_N_go_step by lia. apply IH; [apply N.div_lt; lia|].
  unfold all_digits in *. cbn [all_bytes]. rewrite Hs, andb_true_r.
  pose proof (digit_val_char (n mod 10)). pose proof (N.mod_lt n 10 ltac:(done)). unfold digit_val in H.
  destruct (in_range 48 57 _); [done|]. specialize (H ltac:(lia)). done.
Qed.

Lemma all_digits_pretty z : 0 < z → all_digits (pretty z) = true.
Proof. intros. rewrite pretty_pos by done. by apply all_digits_pretty_go. Qed.

(** The value of a run of digits, without a width. *)
Definition digits_value (s : string) : Z := foldl (λ acc b, 10 * acc + (b - 48)) 0 (bytes_of s).

Lemma digits_value_go (n : N) s :
  foldl (λ acc b, 10 * acc + (b - 48)) 0 (bytes_of (pretty_N_go n s))
  = foldl (λ acc b, 10 * acc + (b - 48)) (Z.of_N n) (bytes_of s).
Proof.
  revert s. induction (N.lt_wf_0 n) as [n _ IH]; intros s.
  destruct (decide (n = 0)%N) as [->|]; [done|].
  rewrite pretty_N_go_step by lia.
  pose proof (N.Div0.div_mod n 10) as E. pose proof (N.mod_lt n 10 ltac:(done)) as Hr.
  pose proof (N.div_lt n 10 ltac:(lia) ltac:(done)) as Hq.
  set (q := (n / 10)%N) in *. set (r := (n mod 10)%N) in *. clearbody q r.
  rewrite IH by lia. cbn [bytes_of foldl]. f_equal.
  pose proof (digit_val_char r Hr) as Hd. unfold digit_val in Hd.
  destruct (in_range 48 57 _); [|done]. injection Hd as Hd. lia.
Qed.

Lemma digits_value_pretty z : 0 < z → digits_value (pretty z) = z.
Proof. intros. unfold digits_value. rewrite pretty_pos, digits_value_go by done. cbn. lia. Qed.

Lemma length_pretty_go (k : nat) : ∀ (n : N) s,
  (n < 10 ^ N.of_nat k)%N → (String.length (pretty_N_go n s) ≤ k + String.length s)%nat.
Proof.
  induction k as [|k IH]; intros n s Hn.
  - assert (n = 0)%N as -> by (cbn in Hn; lia). done.
  - destruct (decide (n = 0)%N) as [->|]; [rewrite pretty_N_go_0; lia|].
    rewrite pretty_N_go_step by lia.
    etransitivity; [apply IH|cbn; lia].
    apply N.Div0.div_lt_upper_bound. rewrite Nat2N.inj_succ, N.pow_succ_r' in Hn. lia.
Qed.

Lemma len_pretty (k : nat) z : 0 < z < 10 ^ Z.of_nat k → len (pretty z) ≤ Z.of_nat k.
Proof.
  intros Hz. unfold len. rewrite pretty_pos by lia.
  pose proof (length_pretty_go k (Z.to_N z) "") as H. cbn [String.length] in H.
  apply inj_le. rewrite <- (Nat.add_0_r k) at 1. apply H.
  apply N2Z.inj_lt. rewrite N2Z.inj_pow, nat_N_Z, Z2N.id by lia. exact (proj2 Hz).
Qed.

Lemma pretty_ne z : 0 < z → pretty z ≠ "".
Proof.
  intros Hz E. pose proof (digits_value_pretty z Hz) as H. rewrite E in H. cbn in H. lia.
Qed.

(** ** Prefixes, suffixes and tags *)

Lemma append_assoc s t u : (s +:+ t) +:+ u = s +:+ (t +:+ u).
Proof. induction s as [|c s IH]; [done|]. change (String c ((s +:+ t) +:+ u) = String c (s +:+ (t +:+ u))). by rewrite IH. Qed.

Lemma strip_prefix_app p s : strip_prefix p (p +:+ s) = Some s.
Proof.
  induction p as [|c p IH]; [done|].
  change ((if decide (c = c) then strip_prefix p (p +:+ s) else None) = Some s).
  by destruct (decide (c = c)).
Qed.

Lemma rev_app_rev s acc : rev_app s acc = rev_string s +:+ acc.
Proof.
  unfold rev_string. revert acc. induction s as [|c s IH]; intros acc; [done|].
  cbn [rev_app]. rewrite IH, (IH (String c "")), append_assoc. done.
Qed.

Lemma rev_string_app s t : rev_string (s +:+ t) = rev_string t +:+ rev_string s.
Proof.
  assert (H : ∀ acc, rev_app (s +:+ t) acc = rev_app t (rev_app s acc)).
  { induction s as [|c s IH]; intros acc; [done|]. exact (IH (String c acc)). }
  unfold rev_string at 1. rewrite H. apply rev_app_rev.
Qed.

Definition HasPrefix (s p : string) : bool := match strip_prefix p s with Some _ => true | None => false end.
Definition HasSuffix (s p : string) : bool := HasPrefix (rev_string s) (rev_string p).

Lemma HasSuffix_app s t : HasSuffix (s +:+ t) t = true.
Proof. unfold HasSuffix, HasPrefix. by rewrite rev_string_app, strip_prefix_app. Qed.

Lemma all_bytes_impl (p q : Z → bool) s :
  (∀ b, p b = true → q b = true) → all_bytes p s = true → all_bytes q s = true.
Proof. intros H. induction s as [|c s IH]; [done|]. cbn. intros ?. zify_guards. rewrite H, IH; done. Qed.

(** A byte a predicate rejects is absent. *)
Lemma all_bytes_lacks (p : Z → bool) c s :
  p (byte_of c) = false → all_bytes p s = true → lacks c s = true.
Proof.
  intros Hc. induction s as [|x s IH]; [done|]. cbn [all_bytes lacks]. intros H. zify_guards.
  rewrite IH, bool_decide_true by (done || congruence). done.
Qed.

(** The text after the first occurrence of [tag]. *)
Fixpoint after_tag (tag s : string) : option string :=
  match strip_prefix tag s with
  | Some rest => Some rest
  | None => match s with EmptyString => None | String _ s' => after_tag tag s' end
  end.

(** Text without the tag's first byte is skipped. *)
Lemma after_tag_skip c tag x s :
  lacks c x = true → after_tag (String c tag) (x +:+ s) = after_tag (String c tag) s.
Proof.
  induction x as [|y x IH]; [done|]. cbn [lacks]. intros H. zify_guards.
  change (match strip_prefix (String c tag) (String y (x +:+ s)) with
          | Some rest => Some rest
          | None => after_tag (String c tag) (x +:+ s)
          end = after_tag (String c tag) s).
  cbn [strip_prefix]. destruct (decide (c = y)); [congruence|]. by apply IH.
Qed.

(** ** Counting a separator *)

Fixpoint occurrences (c : Ascii.ascii) (s : string) : nat :=
  match s with
  | EmptyString => 0
  | String x s' => ((if decide (x = c) then 1 else 0) + occurrences c s')%nat
  end.

Lemma occurrences_app c s t : occurrences c (s +:+ t) = (occurrences c s + occurrences c t)%nat.
Proof.
  induction s as [|x s IH]; [done|].
  change (((if decide (x = c) then 1 else 0) + occurrences c (s +:+ t))%nat = ((if decide (x = c) then 1 else 0) + occurrences c s + occurrences c t)%nat).
  rewrite IH. lia.
Qed.

Lemma lacks_occurrences c s : lacks c s = true ↔ occurrences c s = 0%nat.
Proof.
  induction s as [|x s IH]; [done|]. cbn [lacks occurrences]. rewrite andb_true_iff, bool_decide_eq_true, IH.
  destruct (decide (x = c)); naive_solver lia.
Qed.

Lemma occurrences_Join sep l :
  occurrences sep (Join sep l) = (sum_list (occurrences sep <$> l) + pred (length l))%nat.
Proof.
  destruct l as [|x l]; [done|]. unfold Join. rewrite occurrences_app. cbn. rewrite <- Nat.add_assoc. f_equal.
  induction l as [|y l IH]; [done|]. cbn [foldr occurrences]. rewrite decide_True by done. rewrite occurrences_app, IH. cbn. lia.
Qed.

(** The separators of the other side are counted, so only one side must lack them. *)
Lemma Join_inj_length sep l l' :
  l ≠ [] → length l' = length l → Forall (λ y, lacks sep y = true) l → Join sep l = Join sep l' → l = l'.
Proof.
  intros Hl HL HF HE. assert (HF' : Forall (λ y, lacks sep y = true) l').
  { assert (HS : sum_list (occurrences sep <$> l') = 0%nat).
    { assert (sum_list (occurrences sep <$> l) = 0%nat).
      { clear -HF. induction HF as [|y l Hy _ IH]; [done|]. apply lacks_occurrences in Hy. cbn. lia. }
      pose proof (f_equal (occurrences sep) HE) as HO. rewrite !occurrences_Join in HO. lia. }
    clear -HS. induction l' as [|y l' IH]; [done|]. cbn in HS. constructor; [apply lacks_occurrences; lia|]. apply IH. lia. }
  apply (Join_inj sep); try done. intros ->. by destruct l.
Qed.

Lemma len_app s t : len (s +:+ t) = len s + len t.
Proof. unfold len. rewrite length_append. lia. Qed.

(** ** [strconv.ParseInt] *)

(** [strconv.ParseInt(s, 10, 64)] on an optionally signed run of digits. *)
Definition ParseInt (s : string) : option Z :=
  let '(neg, ds) := match s with
                    | String c s' => if (byte_of c =? 45)%Z then (true, s')
                                     else if (byte_of c =? 43)%Z then (false, s') else (false, s)
                    | EmptyString => (false, s)
                    end in
  if empty ds || negb (all_digits ds) then None
  else let v := if (neg : bool) then - digits_value ds else digits_value ds in
       if (- two63 <=? v) && (v <? two63) then Some v else None.

Lemma ParseInt_pretty z : 0 < z < two63 → ParseInt (pretty z) = Some z.
Proof.
  intros Hz. unfold ParseInt. pose proof (all_digits_pretty z ltac:(lia)) as Hd.
  assert (Hds : (match pretty z with
                 | String c s' => if (byte_of c =? 45)%Z then (true, s')
                                  else if (byte_of c =? 43)%Z then (false, s') else (false, pretty z)
                 | EmptyString => (false, pretty z)
                 end) = (false, pretty z)).
  { destruct (pretty z) as [|c s]; [done|]. unfold all_digits, in_range in Hd. cbn in Hd. zify_guards.
    destruct (Z.eqb_spec (byte_of c) 45); [lia|]. by destruct (Z.eqb_spec (byte_of c) 43); [lia|]. }
  rewrite Hds, Hd, digits_value_pretty, (proj2 (empty_false _)) by (lia || (apply pretty_ne; lia)).
  cbn [orb negb]. unfold two63 in *. rewrite (proj2 (Z.leb_le _ _)), (proj2 (Z.ltb_lt _ _)) by lia. done.
Qed.
