(* ===== verification/LicenseDoc.v ===== *)
(** The licence document of [license/]: [doc.go], [modules.go], [binding.go]
    and the evaluation of [verify.go].

    Data: the signed document, its module grants and features, the local
    identity of an appliance, the evaluated state.  Operations: validation,
    the module registry with the dependency closure of the authorised modules,
    the evaluation-time and install-time device bindings and the licence
    timeline. *)
From S2P Require Import Prelude GoStrings.

(** ** Module registry (modules.go) *)

Definition ModuleHospitality : string := "hospitality".
Definition ModulePaidAccess : string := "paid_access".
Definition ModuleCardPayment : string := "card_payment".
Definition ModuleRoomCharge : string := "room_charge".
Definition ModuleSMSOTP : string := "sms_otp".
Definition ModuleWhatsAppOTP : string := "whatsapp_otp".
Definition ModuleEmailOTP : string := "email_otp".
Definition ModuleSocialLogin : string := "social_login".
Definition ModuleWhiteLabel : string := "white_label".
Definition ModuleHA : string := "ha".

Record ModuleSpec := mkModuleSpec {
  ms_ID : string;
  ms_Label : string;
  ms_Requires : list string
}.

Definition registry : list ModuleSpec :=
  [ mkModuleSpec ModuleHospitality "Hotel (PMS, Room sign-in, stays)" [];
    mkModuleSpec ModulePaidAccess "Paid access (priced Internet Packages)" [];
    mkModuleSpec ModuleCardPayment "Card payment" [ModulePaidAccess];
    mkModuleSpec ModuleRoomCharge "Room charge (PMS posting)" [ModuleHospitality; ModulePaidAccess];
    mkModuleSpec ModuleSMSOTP "SMS one-time code" [];
    mkModuleSpec ModuleWhatsAppOTP "WhatsApp one-time code" [];
    mkModuleSpec ModuleEmailOTP "Email accounts" [];
    mkModuleSpec ModuleSocialLogin "Social sign-in" [];
    mkModuleSpec ModuleWhiteLabel "White label" [];
    mkModuleSpec ModuleHA "High availability" [] ].

(** [Registry()] returns a copy of the slice; values are immutable here. *)
Definition Registry : list ModuleSpec := registry.

Fixpoint find_module (l : list ModuleSpec) (id : string) : option ModuleSpec :=
  match l with
  | [] => None
  | m :: l' => if decide (ms_ID m = id) then Some m else find_module l' id
  end.
Definition LookupModule (id : string) : option ModuleSpec := find_module registry id.

(** [spec, _ := LookupModule(id)]: the zero spec requires nothing. *)
Definition Requires (id : string) : list string :=
  match LookupModule id with Some m => ms_Requires m | None => [] end.

(** The grant's limits; a nil and an empty map are never told apart. *)
Record ModuleGrant := mkModuleGrant { mg_Limits : gmap string Z }.
Definition emptyGrant : ModuleGrant := mkModuleGrant ∅.
#[export] Instance ModuleGrant_eq_dec : EqDecision ModuleGrant.
Proof. solve_decision. Defined.

(** A Go map value; [None] is the nil map. *)
Abbreviation Modules := (option (gmap string ModuleGrant)).

Definition grants (m : Modules) : gmap string ModuleGrant := default ∅ m.

Definition sortedKeys (s : gset string) : list string := sort_Strings (elements s).

Inductive module_error :=
| UnknownModule (id : string)
| MissingDependency (id dep : string).

Fixpoint first_missing (hv : gset string) (id : string) (deps : list string)
    : option module_error :=
  match deps with
  | [] => None
  | dep :: deps' => if decide (dep ∈ hv) then first_missing hv id deps'
                    else Some (MissingDependency id dep)
  end.

Fixpoint check_deps (hv : gset string) (ids : list string) : res module_error () :=
  match ids with
  | [] => Ok ()
  | id :: ids' =>
      match LookupModule id with
      | None => check_deps hv ids'
      | Some spec =>
          match first_missing hv id (ms_Requires spec) with
          | Some e => Err e
          | None => check_deps hv ids'
          end
      end
  end.

Definition CheckDependencies (ids : list string) : res module_error () :=
  let hv : gset string := list_to_set ids in
  check_deps hv (sortedKeys hv).

Fixpoint collect_ids (m : gmap string ModuleGrant) (ids : list string)
    : res module_error (gmap string ModuleGrant) :=
  match ids with
  | [] => Ok m
  | id :: ids' =>
      match LookupModule id with
      | None => Err (UnknownModule id)
      | Some _ => collect_ids (<[id := emptyGrant]> m) ids'
      end
  end.

Definition ModulesFromIDs (ids : list string) : res module_error (gmap string ModuleGrant) :=
  m ← collect_ids ∅ ids;
  _ ← CheckDependencies ids;
  mret m.

Definition ModuleIDs (m : Modules) : list string := sortedKeys (dom (grants m)).

(** ** Features (doc.go) and their projection (modules.go) *)

Record Features := mkFeatures {
  PMS : bool;
  PaidWiFi : bool;
  SMSOTP : bool;
  EmailOTP : bool;
  SocialLogin : bool;
  HA : bool;
  WhiteLabel : bool
}.
#[export] Instance Features_eq_dec : EqDecision Features.
Proof. solve_decision. Defined.

Definition has_grant (m : Modules) (id : string) : bool := bool_decide (id ∈ dom (grants m)).

Definition ProjectFeatures (m : Modules) : Features := {|
  PMS := has_grant m ModuleHospitality;
  PaidWiFi := has_grant m ModulePaidAccess;
  SMSOTP := has_grant m ModuleSMSOTP;
  EmailOTP := has_grant m ModuleEmailOTP;
  SocialLogin := has_grant m ModuleSocialLogin;
  HA := has_grant m ModuleHA;
  WhiteLabel := has_grant m ModuleWhiteLabel
|}.

Definition grant_if (b : bool) (id : string) (m : gmap string ModuleGrant)
    : gmap string ModuleGrant := if b then <[id := emptyGrant]> m else m.

Definition legacyModules (f : Features) : Modules :=
  Some (grant_if (WhiteLabel f) ModuleWhiteLabel
       (grant_if (HA f) ModuleHA
       (grant_if (SocialLogin f) ModuleSocialLogin
       (grant_if (EmailOTP f) ModuleEmailOTP
       (grant_if (SMSOTP f) ModuleSMSOTP
       (grant_if (PMS f) ModuleHospitality ∅)))))).

(** ** The document (doc.go) *)

Record Limits := mkLimits {
  MaxAppliancesForSite : Z;
  MaxConcurrentGuestSessions : Z;
  MaxLocalOperators : Z;
  MaxGuestAccessPlans : Z;
  AccountingRetentionDays : Z;
  AuditRetentionDays : Z
}.
#[export] Instance Limits_eq_dec : EqDecision Limits.
Proof. solve_decision. Defined.

Definition DocActive : string := "active".
Definition DocSuspended : string := "suspended".

Record Document := mkDocument {
  LicenseID : string;
  TenantID : string;
  SiteID : string;
  ApplianceIDs : list string;
  CommercialPlanCode : string;
  Status : string;
  IssuedAt : Time;
  ValidUntil : Time;
  OfflineGraceDays : Z;
  doc_Features : Features;
  doc_Limits : Limits;
  ApplianceID : string;
  ApplianceSerial : string;
  HardwareFingerprint : string;
  IdentityKeyFingerprint : string;
  WANMAC : string;
  ValidFrom : Time;
  SignerKeyID : string;
  MaxConcurrentOnlineGuests : Z;
  GracePeriodDays : Z;
  LicenseVersion : Z;
  SupersedesLicenseID : string;
  doc_Modules : Modules;
  SchemaVersion : Z
}.
#[export] Instance Document_eq_dec : EqDecision Document.
Proof. solve_decision. Defined.

Definition CurrentSchemaVersion : Z := 4.
Definition MinSchemaVersion : Z := 1.

Definition EffectiveGraceDays (d : Document) : Z :=
  if 3 <=? SchemaVersion d then
    (if GracePeriodDays d <? 0 then 0 else GracePeriodDays d)
  else if 0 <? GracePeriodDays d then GracePeriodDays d
  else OfflineGraceDays d.

Definition EffectiveMaxConcurrentOnlineGuests (d : Document) : Z :=
  if 0 <? MaxConcurrentOnlineGuests d then MaxConcurrentOnlineGuests d
  else MaxConcurrentGuestSessions (doc_Limits d).

Inductive State :=
| StateActive | StateGracePeriod | StateRestricted | StateExpired
| StateSuspended | StateRevoked | StateUnlicensed.
#[export] Instance State_eq_dec : EqDecision State.
Proof. solve_decision. Defined.

Definition AllowsNewSessions (s : State) : bool :=
  match s with
  | StateActive | StateGracePeriod | StateRestricted => true
  | _ => false
  end.

Definition AllowsProvisioning (s : State) : bool :=
  match s with StateActive | StateGracePeriod => true | _ => false end.

Definition FeatureEnabled (st : State) (entitled : bool) : bool :=
  if negb entitled then false
  else match st with StateActive | StateGracePeriod => true | _ => false end.

Inductive validate_error :=
| VUnsupportedSchema | VMissingIdentity | VBadPeriod | VOfflineGrace | VGracePeriod
| VValidFrom | VUnknownStatus | VNoModules | VFeaturesDisagree.

Definition Validate (d : Document) : res validate_error () :=
  if (SchemaVersion d <? MinSchemaVersion) || (CurrentSchemaVersion <? SchemaVersion d)
  then Err VUnsupportedSchema
  else if empty (LicenseID d) || empty (TenantID d) || empty (SiteID d)
  then Err VMissingIdentity
  else if negb (After (ValidUntil d) (IssuedAt d)) then Err VBadPeriod
  else if (OfflineGraceDays d <? 0) || (365 <? OfflineGraceDays d) then Err VOfflineGrace
  else if 365 <? GracePeriodDays d then Err VGracePeriod
  else if negb (IsZero (ValidFrom d)) && After (ValidFrom d) (ValidUntil d) then Err VValidFrom
  else if bool_decide (Status d ≠ DocActive) && bool_decide (Status d ≠ DocSuspended)
  then Err VUnknownStatus
  else if 4 <=? SchemaVersion d then
    match doc_Modules d with
    | None => Err VNoModules
    | Some _ =>
        if decide (doc_Features d = ProjectFeatures (doc_Modules d)) then Ok ()
        else Err VFeaturesDisagree
    end
  else Ok ().

(** ** Authorised modules (modules.go)

    [closure_of] is the dependency-closure loop: repeat passes over the set
    until one changes nothing.  A pass visits the keys in map order and deletes the
    key it is at, so the set shrinks while it is visited. *)
Section authorized.
Context {MR : MapRange}.

Definition prune_dep (id : string) (acc : gset string * bool) (dep : string)
    : gset string * bool :=
  let '(out, changed) := acc in
  if decide (dep ∈ out) then (out, changed) else (out ∖ {[id]}, true).

Definition prune_id (acc : gset string * bool) (id : string) : gset string * bool :=
  foldl (prune_dep id) acc (Requires id).

Definition prune_pass (keys : list string) (out : gset string) : gset string * bool :=
  foldl prune_id (out, false) keys.

Fixpoint prune_loop (fuel n : nat) (out : gset string) : gset string :=
  match fuel with
  | O => out
  | S fuel' =>
      let '(out', changed) := prune_pass (range n out) out in
      if changed then prune_loop fuel' (S n) out' else out'
  end.

(** Every pass that changes the set removes a key: one pass per key and a
    last one that changes nothing are enough. *)
Definition closure_of (out : gset string) : gset string := prune_loop (S (size out)) 0 out.

Definition known_ids (m : Modules) : gset string :=
  filter (λ id, is_Some (LookupModule id)) (dom (grants m)).

Definition AuthorizedModules (d : Document) : gset string :=
  let src := if 4 <=? SchemaVersion d then doc_Modules d
             else legacyModules (doc_Features d) in
  closure_of (known_ids src).
End authorized.

(** ** Device binding (binding.go) *)

Definition dash : Ascii.ascii := Ascii.ascii_of_nat 45.
Definition colon : Ascii.ascii := Ascii.ascii_of_nat 58.

Record LocalIdentity := mkLocalIdentity {
  li_ApplianceID : string;
  li_IdentityKeyFingerprint : string;
  li_Serial : string;
  li_HardwareFingerprint : string;
  li_WANMAC : string
}.

Inductive BindingResult := BindingOK | BindingWrongDevice | BindingWANMismatch.
#[export] Instance BindingResult_eq_dec : EqDecision BindingResult.
Proof. solve_decision. Defined.

Section binding.
Context {UC : Unicode}.

Definition normMAC (s : string) : string :=
  replace_byte dash colon (ToLower (TrimSpace s)).

Definition IsUnbound (d : Document) : bool :=
  empty (IdentityKeyFingerprint d) && empty (ApplianceID d)
  && empty (ApplianceSerial d) && empty (HardwareFingerprint d).

(** [x != "" && y != "" && !eq(x, y)]. *)
Definition differs (eq : string → string → bool) (x y : string) : bool :=
  negb (empty x) && negb (empty y) && negb (eq x y).

Definition str_eq (x y : string) : bool := bool_decide (x = y).
Definition mac_eq (x y : string) : bool := bool_decide (normMAC x = normMAC y).

Definition CheckBinding (d : Document) (local : LocalIdentity) : BindingResult * string :=
  if IsUnbound d then (BindingOK, "")
  else if differs EqualFold (IdentityKeyFingerprint d) (li_IdentityKeyFingerprint local)
  then (BindingWrongDevice, "identity key fingerprint mismatch")
  else if differs str_eq (ApplianceID d) (li_ApplianceID local)
  then (BindingWrongDevice, "appliance id mismatch")
  else if differs EqualFold (ApplianceSerial d) (li_Serial local)
  then (BindingWrongDevice, "serial mismatch")
  else if differs EqualFold (HardwareFingerprint d) (li_HardwareFingerprint local)
  then (BindingWrongDevice, "hardware fingerprint mismatch")
  else if differs mac_eq (WANMAC d) (li_WANMAC local)
  then (BindingWANMismatch, "WAN MAC mismatch")
  else (BindingOK, "").

(** [need]: a field the licence names must be known locally. *)
Definition unknown_locally (docValue localValue : string) : bool :=
  negb (empty docValue) && blank localValue.

Definition need_reason (what : string) : string :=
  "this appliance's own " +:+ what +:+
  " is not known, so the licence cannot be checked against it".

Definition CheckInstallBinding (d : Document) (local : LocalIdentity) : BindingResult * string :=
  if IsUnbound d && (4 <=? SchemaVersion d)
  then (BindingWrongDevice, "the licence is not bound to any appliance")
  else if unknown_locally (IdentityKeyFingerprint d) (li_IdentityKeyFingerprint local)
  then (BindingWrongDevice, need_reason "identity key")
  else if unknown_locally (ApplianceID d) (li_ApplianceID local)
  then (BindingWrongDevice, need_reason "appliance id")
  else if unknown_locally (ApplianceSerial d) (li_Serial local)
  then (BindingWrongDevice, need_reason "serial number")
  else if unknown_locally (HardwareFingerprint d) (li_HardwareFingerprint local)
  then (BindingWrongDevice, need_reason "hardware fingerprint")
  else if negb (empty (li_ApplianceID local))
          && (0 <? Z.of_nat (length (ApplianceIDs d)))
          && negb (bool_decide (li_ApplianceID local ∈ ApplianceIDs d))
  then (BindingWrongDevice, "this appliance is not listed in the licence")
  else CheckBinding d local.
End binding.

(** ** The licence timeline (verify.go) *)

Record Evaluation := mkEvaluation {
  ev_State : State;
  ev_Doc : option Document;
  ev_GraceUntil : Time;
  ev_RestrictedUntil : Time;
  ev_ClockRollback : bool;
  ev_LastCloudValidation : Time;
  ev_CloudStale : bool
}.
#[export] Instance Evaluation_eq_dec : EqDecision Evaluation.
Proof. solve_decision. Defined.

(** [time.Duration(days) * 24 * time.Hour] in 64-bit arithmetic. *)
Definition days_duration (days : Z) : Duration := wrap64 (wrap64 (days * 24) * Hour).

Definition Evaluate (d : Document) (now lastCloudValidation : Time) (revoked : bool) : Evaluation :=
  let grace := days_duration (EffectiveGraceDays d) in
  let graceUntil := time_Add (ValidUntil d) grace in
  let restrictedUntil :=
    if 3 <=? SchemaVersion d then graceUntil
    else time_Add (ValidUntil d) (wrap64 (2 * grace)) in
  let offline := days_duration (OfflineGraceDays d) in
  let stale := negb (IsZero lastCloudValidation) && (0 <? offline)
               && (offline <? time_Sub now lastCloudValidation) in
  let st :=
    if revoked then StateRevoked
    else if decide (Status d = DocSuspended) then StateSuspended
    else if negb (IsZero (ValidFrom d)) && Before now (ValidFrom d) then StateExpired
    else if negb (After now (ValidUntil d)) then StateActive
    else if negb (After now graceUntil) then StateGracePeriod
    else if negb (After now restrictedUntil) then StateRestricted
    else StateExpired in
  {| ev_State := st; ev_Doc := Some d; ev_GraceUntil := graceUntil;
     ev_RestrictedUntil := restrictedUntil; ev_ClockRollback := false;
     ev_LastCloudValidation := lastCloudValidation; ev_CloudStale := stale |}.

(** ** Theorems: authorised modules *)

(** A set of modules that contains what each of its members requires. *)
Definition dep_closed (s : gset string) : Prop :=
  ∀ id dep, id ∈ s → dep ∈ Requires id → dep ∈ s.

Section authorized_theorems.
Context {MR : MapRange}.
Implicit Types out s : gset string.

Lemma prune_deps_spec id deps out ch out' ch' :
  foldl (prune_dep id) (out, ch) deps = (out', ch') →
  out' ⊆ out ∧
  (ch' = false → ch = false ∧ out' = out ∧ ∀ dep, dep ∈ deps → dep ∈ out) ∧
  (ch' = true → ch = true ∨ id ∉ out') ∧
  (∀ s, s ⊆ out → (id ∈ s → ∀ dep, dep ∈ deps → dep ∈ s) → s ⊆ out').
Proof.
  revert out ch. induction deps as [|dep deps IH]; intros out ch; simpl.
  - intros [= <- <-]. set_solver.
  - case_decide as Hd; intros E; destruct (IH _ _ E) as (Hsub & Hf & Ht & Hs).
    + split_and!; [done| |done|].
      * intros ->. destruct (Hf eq_refl) as (-> & -> & Hall).
        split_and!; [done|done|]. intros x [->|Hx]%elem_of_cons; auto.
      * intros s Hsout Hdeps. apply Hs; [done|]. intros ? x ?. apply Hdeps; [done|].
        by right.
    + split_and!; [set_solver| | |].
      * intros ->. by destruct (Hf eq_refl).
      * intros _. right. intros Hid. apply Hsub in Hid. set_solver.
      * intros s Hsout Hdeps.
        assert (id ∉ s) by (intros Hid; apply Hd, Hsout, Hdeps; [done|by left]).
        apply Hs; [set_solver|done].
Qed.

Lemma prune_pass_spec keys out ch out' ch' :
  foldl prune_id (out, ch) keys = (out', ch') →
  out' ⊆ out ∧
  (ch' = false → ch = false ∧ out' = out ∧
     ∀ id dep, id ∈ keys → dep ∈ Requires id → dep ∈ out) ∧
  (ch' = true → ch = true ∨ ∃ id, id ∈ keys ∧ id ∉ out') ∧
  (∀ s, s ⊆ out → dep_closed s → s ⊆ out').
Proof.
  revert out ch. induction keys as [|id keys IH]; intros out ch; simpl.
  - intros [= <- <-]. set_solver.
  - destruct (prune_id (out, ch) id) as [o1 c1] eqn:E1. intros E.
    destruct (prune_deps_spec _ _ _ _ _ _ E1) as (Hsub1 & Hf1 & Ht1 & Hs1).
    destruct (IH _ _ E) as (Hsub & Hf & Ht & Hs).
    split_and!.
    + set_solver.
    + intros ->. destruct (Hf eq_refl) as (-> & -> & Hk).
      destruct (Hf1 eq_refl) as (-> & -> & Hd). set_solver.
    + intros ->. destruct (Ht eq_refl) as [->|(i & ? & ?)]; [|right; set_solver].
      destruct (Ht1 eq_refl) as [->|?]; [by left|right]. exists id. set_solver.
    + intros s Hsout Hcl. apply Hs; [|done]. apply Hs1; [done|].
      intros ? dep ?. by apply (Hcl id).
Qed.

Lemma prune_loop_spec fuel n out :
  (size out < fuel)%nat →
  prune_loop fuel n out ⊆ out ∧ dep_closed (prune_loop fuel n out) ∧
  ∀ s, s ⊆ out → dep_closed s → s ⊆ prune_loop fuel n out.
Proof.
  revert n out. induction fuel as [|fuel IH]; intros n out Hsz; [lia|]. simpl.
  destruct (prune_pass (range n out) out) as [out' ch] eqn:E.
  destruct (prune_pass_spec _ _ _ _ _ E) as (Hsub & Hf & Ht & Hs).
  destruct ch.
  - destruct (Ht eq_refl) as [|(id & Hid & Hni)]; [done|].
    rewrite elem_of_range in Hid.
    assert (size out' < size out)%nat by (apply subset_size; set_solver).
    destruct (IH (S n) out') as (H1 & H2 & H3); [lia|].
    split_and!; [set_solver|done|]. intros s ??. auto.
  - destruct (Hf eq_refl) as (_ & -> & Hd). split_and!; [done| |done].
    intros id dep Hid. apply Hd. by rewrite elem_of_range.
Qed.

Lemma closure_of_spec out :
  closure_of out ⊆ out ∧ dep_closed (closure_of out) ∧
  ∀ s, s ⊆ out → dep_closed s → s ⊆ closure_of out.
Proof. apply prune_loop_spec. lia. Qed.
End authorized_theorems.

(** The grants a document is read with: the signed module map from schema 4 on,
    the projection of the legacy features before. *)
Definition granted_ids (d : Document) : gset string :=
  known_ids (if 4 <=? SchemaVersion d then doc_Modules d else legacyModules (doc_Features d)).

(** C24. [AuthorizedModules] terminates with the largest set of known granted
    modules that contains the dependencies of its members: whatever the map
    iteration order of each pass, a module is authorised exactly when it lies in some
    dependency-closed set of known granted modules. *)
Theorem authorized_modules_greatest {MR : MapRange} (d : Document) :
  AuthorizedModules d ⊆ granted_ids d ∧
  dep_closed (AuthorizedModules d) ∧
  ∀ s, s ⊆ granted_ids d → dep_closed s → s ⊆ AuthorizedModules d.
Proof. apply closure_of_spec. Qed.

Lemma authorized_order_irrelevant (r1 r2 : MapRange) d :
  @AuthorizedModules r1 d = @AuthorizedModules r2 d.
Proof.
  unfold AuthorizedModules. set (g := known_ids _).
  destruct (@closure_of_spec r1 g) as (A1 & B1 & C1).
  destruct (@closure_of_spec r2 g) as (A2 & B2 & C2).
  apply set_eq. intros x. split; intros Hx; [by apply C2 in B1; [apply B1|]|].
  by apply C1 in B2; [apply B2|].
Qed.

(** *** What Central issues is what the appliance authorises *)

Lemma first_missing_None hv id deps :
  first_missing hv id deps = None ↔ ∀ dep, dep ∈ deps → dep ∈ hv.
Proof.
  induction deps as [|dep deps IH]; simpl; [set_solver|].
  case_decide; [rewrite IH|]; set_solver.
Qed.

Lemma check_deps_Ok hv ids u :
  check_deps hv ids = Ok u → ∀ id dep, id ∈ ids → dep ∈ Requires id → dep ∈ hv.
Proof.
  induction ids as [|i ids IH]; simpl; [set_solver|].
  intros E id dep [->|Hid]%elem_of_cons Hdep; unfold Requires in Hdep |- *.
  - destruct (LookupModule i); [|by apply not_elem_of_nil in Hdep].
    destruct (first_missing hv i _) eqn:Ef; [done|].
    by apply (proj1 (first_missing_None hv i _) Ef).
  - apply (IH) with id; [|done|done].
    destruct (LookupModule i) as [sp|]; [|done]. by destruct (first_missing hv i _).
Qed.

Lemma CheckDependencies_closed ids u :
  CheckDependencies ids = Ok u → dep_closed (list_to_set ids).
Proof.
  intros E id dep Hid Hdep. apply (check_deps_Ok _ _ _ E id dep); [|done].
  unfold sortedKeys. rewrite sort_Strings_perm. by apply elem_of_elements.
Qed.

Lemma collect_ids_dom m ids m' :
  collect_ids m ids = Ok m' →
  dom m' = dom m ∪ list_to_set ids ∧ ∀ id, id ∈ ids → is_Some (LookupModule id).
Proof.
  revert m. induction ids as [|id ids IH]; simpl; intros m.
  - intros [= <-]. set_solver.
  - destruct (LookupModule id) eqn:El; [|done]. intros E. destruct (IH _ E) as [Hd Hk].
    split; [rewrite Hd, dom_insert_L; set_solver|].
    intros i [->|?]%elem_of_cons; eauto.
Qed.

(** Licence issue and licence reading agree: when [ModulesFromIDs] accepts the ids
    an operator selects, a schema-4 document carrying the resulting module map
    authorises exactly those ids; the reader's dependency closure drops none of
    them and adds none. *)
Theorem issued_modules_authorized {MR : MapRange} (ids : list string) m d :
  ModulesFromIDs ids = Ok m →
  doc_Modules d = Some m →
  4 <= SchemaVersion d →
  AuthorizedModules d = list_to_set ids.
Proof.
  unfold ModulesFromIDs. intros HE Hm Hs.
  apply res_bind_Ok in HE as (m1 & E1 & E2). apply res_bind_Ok in E2 as ([] & E2 & E3).
  injection E3 as ->. apply CheckDependencies_closed in E2.
  apply collect_ids_dom in E1 as [Hdom Hk].
  unfold AuthorizedModules. rewrite (proj2 (Z.leb_le _ _) Hs), Hm.
  assert (known_ids (Some m) = list_to_set ids) as ->.
  { unfold known_ids, grants. simpl. rewrite Hdom. apply set_eq. intros x.
    rewrite elem_of_filter. set_solver. }
  destruct (closure_of_spec (list_to_set ids)) as (Hsub & _ & Hg).
  apply (anti_symm (⊆)); [done|]. by apply Hg.
Qed.

(** ** Theorems: the timeline *)

Lemma Validate_Ok d u :
  Validate d = Ok u →
  (1 <= SchemaVersion d <= 4) ∧ LicenseID d ≠ "" ∧ TenantID d ≠ "" ∧ SiteID d ≠ "" ∧
  IssuedAt d < ValidUntil d ∧ 0 <= OfflineGraceDays d <= 365 ∧ GracePeriodDays d <= 365 ∧
  (ValidFrom d = 0 ∨ ValidFrom d <= ValidUntil d) ∧
  (Status d = DocActive ∨ Status d = DocSuspended) ∧
  (4 <= SchemaVersion d →
   is_Some (doc_Modules d) ∧ doc_Features d = ProjectFeatures (doc_Modules d)).
Proof.
  unfold Validate, MinSchemaVersion, CurrentSchemaVersion, After, IsZero, zeroTime, empty.
  intros HE. passed HE; split_failed; split_and!; try done; try lia; try tauto; eauto;
    try (destruct (decide (Status d = DocActive)), (decide (Status d = DocSuspended)); tauto).
Qed.

Lemma EffectiveGraceDays_bounds d u :
  Validate d = Ok u → 0 <= EffectiveGraceDays d <= 365.
Proof.
  intros (? & _ & _ & _ & _ & ? & ? & _)%Validate_Ok.
  unfold EffectiveGraceDays. guards; lia.
Qed.

Lemma days_duration_small n : 0 <= n <= 365 → days_duration n = n * Day.
Proof.
  intros Hn. unfold days_duration, Day, Hour, Minute, Second, Millisecond, Microsecond, Nanosecond.
  rewrite (wrap64_id (n * 24)); [rewrite wrap64_id|]; unfold in_int64, two63; lia.
Qed.

(** When the licence starts to apply. *)
Definition started (d : Document) (now : Time) : Prop := ValidFrom d = 0 ∨ ValidFrom d <= now.

Lemma Evaluate_bounds d now lcv rev u :
  Validate d = Ok u →
  ev_GraceUntil (Evaluate d now lcv rev) = ValidUntil d + EffectiveGraceDays d * Day ∧
  ev_RestrictedUntil (Evaluate d now lcv rev) =
    ValidUntil d + (if 3 <=? SchemaVersion d then 1 else 2) * (EffectiveGraceDays d * Day).
Proof.
  intros Hv. pose proof (EffectiveGraceDays_bounds _ _ Hv) as Hg.
  unfold Evaluate. simpl. rewrite (days_duration_small _ Hg). split; [done|].
  destruct (3 <=? SchemaVersion d); unfold time_Add; [lia|].
  rewrite wrap64_id; [done|].
  unfold in_int64, two63, Day, Hour, Minute, Second, Millisecond, Microsecond, Nanosecond. lia.
Qed.

Lemma Evaluate_windows d now lcv revoked :
  Validate d = Ok () →
  let ev := Evaluate d now lcv revoked in
  (AllowsNewSessions (ev_State ev) = true ↔
     revoked = false ∧ Status d = DocActive ∧ started d now ∧ now <= ev_RestrictedUntil ev) ∧
  (AllowsProvisioning (ev_State ev) = true ↔
     revoked = false ∧ Status d = DocActive ∧ started d now ∧ now <= ev_GraceUntil ev).
Proof.
  intros Hv ev. set (g := EffectiveGraceDays d * Day). destruct (Evaluate_bounds d now lcv revoked () Hv) as [HG HR].
  pose proof (EffectiveGraceDays_bounds _ _ Hv) as Hb.
  destruct (Validate_Ok _ _ Hv) as (_ & _ & _ & _ & _ & _ & _ & Hvf & Hst & _).
  assert (0 <= g) by (unfold g, Day, Hour, Minute, Second, Millisecond, Microsecond, Nanosecond; lia).
  assert (ValidUntil d <= ev_GraceUntil ev <= ev_RestrictedUntil ev) as Hle
    by (unfold ev; rewrite HG, HR; fold g; destruct (3 <=? SchemaVersion d); lia).
  revert Hle. unfold ev, Evaluate. simpl. unfold After, Before, IsZero, zeroTime, started.
  set (gu := time_Add _ _). set (ru := if 3 <=? _ then _ else _). clearbody gu ru.
  intros Hle.
  destruct revoked; [simpl; naive_solver|].
  destruct (decide (Status d = DocSuspended)) as [Hs|Hs];
    [simpl; rewrite Hs; unfold DocSuspended, DocActive; naive_solver|].
  destruct Hst as [Hst|Hst]; [|done].
  repeat case_match; zify_guards; split_failed; simpl; split; split; intros;
    try discriminate; destruct_and?; try (split_and!; try done); lia.
Qed.

(** The timeline of a valid document.  The grace arithmetic of [Evaluate]
    never overflows (the boundaries are the exact sums); new guest sessions are
    allowed exactly while the licence is not revoked, is active and started, and the
    clock is not past the end of the restricted window; provisioning exactly until
    the end of the grace window. *)
Theorem evaluate_timeline (d : Document) (now lcv : Time) (revoked : bool) :
  Validate d = Ok () →
  let ev := Evaluate d now lcv revoked in
  let g := EffectiveGraceDays d * Day in
  ev_GraceUntil ev = ValidUntil d + g ∧
  ev_RestrictedUntil ev = ValidUntil d + (if 3 <=? SchemaVersion d then 1 else 2) * g ∧
  (AllowsNewSessions (ev_State ev) = true ↔
     revoked = false ∧ Status d = DocActive ∧ started d now ∧ now <= ev_RestrictedUntil ev) ∧
  (AllowsProvisioning (ev_State ev) = true ↔
     revoked = false ∧ Status d = DocActive ∧ started d now ∧ now <= ev_GraceUntil ev).
Proof.
  intros Hv ev g. destruct (Evaluate_bounds d now lcv revoked () Hv) as [HG HR].
  split; [exact HG|]. split; [exact HR|]. exact (Evaluate_windows d now lcv revoked Hv).
Qed.

Definition sample_doc : Document := {|
  LicenseID := "lic-1"; TenantID := "t-1"; SiteID := "s-1"; ApplianceIDs := ["app-1"];
  CommercialPlanCode := "pro"; Status := DocActive;
  IssuedAt := 1000 * Day; ValidUntil := 1365 * Day; OfflineGraceDays := 30;
  doc_Features := {| PMS := true; PaidWiFi := true; SMSOTP := false; EmailOTP := false;
                     SocialLogin := false; HA := false; WhiteLabel := false |};
  doc_Limits := mkLimits 1 200 5 10 365 365;
  ApplianceID := "app-1"; ApplianceSerial := "SN-9"; HardwareFingerprint := "";
  IdentityKeyFingerprint := "AB12"; WANMAC := "02-00-00-00-00-01"; ValidFrom := 1000 * Day;
  SignerKeyID := "k"; MaxConcurrentOnlineGuests := 150; GracePeriodDays := 14;
  LicenseVersion := 7; SupersedesLicenseID := "";
  doc_Modules := Some (<[ModuleHospitality := emptyGrant]> (<[ModulePaidAccess := emptyGrant]>
                   {[ModuleRoomCharge := emptyGrant]}));
  SchemaVersion := 4
|}.

Lemma evaluate_timeline_witness :
  Validate sample_doc = Ok () ∧
  ev_GraceUntil (Evaluate sample_doc (1370 * Day) 0 false) = 1379 * Day ∧
  AllowsNewSessions (ev_State (Evaluate sample_doc (1370 * Day) 0 false)) = true.
Proof.
  assert (Hv : Validate sample_doc = Ok ()) by (vm_compute; reflexivity).
  destruct (evaluate_timeline sample_doc (1370 * Day) 0 false Hv) as (H1 & _ & H3 & _).
  split; [exact Hv|]. split; [exact H1|]. apply H3.
  split_and!; [done|done|right|]; vm_compute; discriminate.
Defined.

Lemma issued_modules_authorized_witness :
  @AuthorizedModules elements_range sample_doc
  = list_to_set [ModuleHospitality; ModulePaidAccess; ModuleRoomCharge].
Proof.
  apply (@issued_modules_authorized elements_range
           [ModuleHospitality; ModulePaidAccess; ModuleRoomCharge]
           (<[ModuleHospitality := emptyGrant]> (<[ModulePaidAccess := emptyGrant]>
              {[ModuleRoomCharge := emptyGrant]}))).
  - vm_compute. reflexivity.
  - reflexivity.
  - vm_compute. discriminate.
Defined.

(** ** Theorems: device binding *)

(** A licence field that names a device value agrees with the local one. *)
Definition names_this (eq : string → string → bool) (docValue localValue : string) : Prop :=
  docValue ≠ "" → blank localValue = false ∧ (localValue ≠ "" → eq docValue localValue = true).

Section binding_theorems.
Context {UC : Unicode}.

Lemma differs_false eq x y : differs eq x y = false → x ≠ "" → y ≠ "" → eq x y = true.
Proof.
  unfold differs, empty. intros Hd Hx Hy.
  rewrite !bool_decide_eq_false_2 in Hd by done. simpl in Hd.
  by apply negb_false_iff in Hd.
Qed.

Lemma names_this_intro eq x y :
  unknown_locally x y = false → differs eq x y = false → names_this eq x y.
Proof.
  intros Hu Hd Hx. unfold unknown_locally, empty in Hu.
  rewrite bool_decide_eq_false_2 in Hu by done.
  split; [by destruct (blank y)|]. by apply (differs_false _ _ _ Hd).
Qed.
End binding_theorems.

(** Installing a licence binds it to this appliance.  When the install check
    does not refuse a schema-4 licence, the licence names at least one of the
    four device fields, every field it names is known locally and equal to the local
    value (identity key, serial and hardware up to letter case), and a non-empty appliance
    list contains this appliance's id if the id is known. *)
Theorem install_binding_sound {UC : Unicode} (d : Document) (local : LocalIdentity) :
  4 <= SchemaVersion d →
  (CheckInstallBinding d local).1 ≠ BindingWrongDevice →
  IsUnbound d = false ∧
  names_this EqualFold (IdentityKeyFingerprint d) (li_IdentityKeyFingerprint local) ∧
  names_this str_eq (ApplianceID d) (li_ApplianceID local) ∧
  names_this EqualFold (ApplianceSerial d) (li_Serial local) ∧
  names_this EqualFold (HardwareFingerprint d) (li_HardwareFingerprint local) ∧
  (ApplianceIDs d ≠ [] → li_ApplianceID local ≠ "" → li_ApplianceID local ∈ ApplianceIDs d).
Proof.
  intros Hs. unfold CheckInstallBinding. rewrite (proj2 (Z.leb_le _ _) Hs), andb_true_r.
  destruct (IsUnbound d) eqn:Hub; [done|].
  destruct (unknown_locally (IdentityKeyFingerprint d) _) eqn:U1; [done|].
  destruct (unknown_locally (ApplianceID d) _) eqn:U2; [done|].
  destruct (unknown_locally (ApplianceSerial d) _) eqn:U3; [done|].
  destruct (unknown_locally (HardwareFingerprint d) _) eqn:U4; [done|].
  destruct (negb (empty (li_ApplianceID local)) && _ && _) eqn:Hl; [done|].
  unfold CheckBinding. rewrite Hub.
  destruct (differs EqualFold (IdentityKeyFingerprint d) _) eqn:D1; [done|].
  destruct (differs str_eq (ApplianceID d) _) eqn:D2; [done|].
  destruct (differs EqualFold (ApplianceSerial d) _) eqn:D3; [done|].
  destruct (differs EqualFold (HardwareFingerprint d) _) eqn:D4; [done|].
  intros _. split; [done|]. split_and!; try by apply names_this_intro.
  intros Hne Hid. unfold empty in Hl. rewrite bool_decide_eq_false_2 in Hl by done.
  destruct (ApplianceIDs d) as [|a l] eqn:El; [done|]. simpl in Hl.
  by apply negb_false_iff, bool_decide_eq_true_1 in Hl.
Qed.

Definition sample_identity : LocalIdentity :=
  mkLocalIdentity "app-1" "ab12" "sn-9" "hw" "02:00:00:00:00:02".

(** The NIC differs, everything else matches in another letter case. *)
Lemma install_binding_sound_witness :
  (@CheckInstallBinding ascii_unicode sample_doc sample_identity).1 = BindingWANMismatch ∧
  names_this (@EqualFold ascii_unicode) "AB12" "ab12".
Proof.
  assert (Hr : (@CheckInstallBinding ascii_unicode sample_doc sample_identity).1 = BindingWANMismatch)
    by (vm_compute; reflexivity).
  split; [exact Hr|].
  apply (@install_binding_sound ascii_unicode sample_doc sample_identity).
  - vm_compute. discriminate.
  - rewrite Hr. discriminate.
Defined.

(** Room charge without paid access: the closure drops it. *)
Lemma authorized_modules_greatest_witness :
  let d := {| LicenseID := "x"; TenantID := "t"; SiteID := "s"; ApplianceIDs := [];
    CommercialPlanCode := ""; Status := DocActive; IssuedAt := 1; ValidUntil := 2;
    OfflineGraceDays := 0; doc_Features := ProjectFeatures None;
    doc_Limits := mkLimits 0 0 0 0 0 0; ApplianceID := ""; ApplianceSerial := "";
    HardwareFingerprint := ""; IdentityKeyFingerprint := ""; WANMAC := ""; ValidFrom := 0;
    SignerKeyID := ""; MaxConcurrentOnlineGuests := 0; GracePeriodDays := 0;
    LicenseVersion := 0; SupersedesLicenseID := "";
    doc_Modules := Some (<[ModuleHospitality := emptyGrant]> {[ModuleRoomCharge := emptyGrant]});
    SchemaVersion := 4 |} in
  @AuthorizedModules elements_range d = {[ModuleHospitality]} ∧
  dep_closed (@AuthorizedModules elements_range d).
Proof.
  intros d. split; [vm_compute; reflexivity|].
  apply (@authorized_modules_greatest elements_range d).
Defined.
