(* ===== verification/LicenseStore.v ===== *)
(** Signing, verification and the on-disk licence store of [license/]:
    [sign.go], the [Verifier] of [verify.go] and [store.go].

    The store keeps three files (current licence, state, revocations), each with
    a [.prev] copy.  The directory is a finite map from names to entries; every
    write may fail before or after its rename, chosen by an injected list of
    faults, so that the theorems hold for every failure and for a crash at any point. *)
From S2P Require Import Prelude GoStrings LicenseDoc.

(** ** Interfaces: JSON and signatures

    [encoding/json] applied to the store's types.  [marshal] may refuse a value
    (a time outside the years 0..9999).  Decoding what was encoded gives the value
    back when its text is valid UTF-8, which is what [encoding/json] documents;
    decoded text is always valid UTF-8. *)
Class Json : Type := { json_Valid : string → bool }.

Class Codec `{Json} (A : Type) : Type := {
  marshal : A → option string;
  unmarshal : string → option A;
  texts : A → list string;
  marshal_valid a raw : marshal a = Some raw → json_Valid raw = true;
  unmarshal_valid raw a : unmarshal raw = Some a → json_Valid raw = true;
  unmarshal_texts raw a : unmarshal raw = Some a → Forall (λ s, ValidString s = true) (texts a);
  unmarshal_marshal a raw :
    marshal a = Some raw → Forall (λ s, ValidString s = true) (texts a) → unmarshal raw = Some a
}.

(** Ed25519, SHA-256 (as lower-case hex) and [base64.StdEncoding]. *)
Class Crypto : Type := {
  ed_public : string → string;
  ed_sign : string → string → string;
  ed_verify : string → string → string → bool;
  sha256_hex : string → string;
  b64_encode : string → string;
  b64_decode : string → option string;
  ed_verify_sign k m : ed_verify (ed_public k) m (ed_sign k m) = true;
  ed_public_size k : len k = 64 → len (ed_public k) = 32;
  sha256_hex_ascii m : is_ascii (sha256_hex m) = true;
  b64_decode_encode m : b64_decode (b64_encode m) = Some m
}.

(** ** Signing (sign.go) *)

Record Envelope := mkEnvelope {
  PayloadB64 : string;
  SigB64 : string;
  KeyID : string
}.
#[export] Instance Envelope_eq_dec : EqDecision Envelope.
Proof. solve_decision. Defined.

Inductive error :=
| ErrBadSignature | ErrUnknownKey | ErrMalformed | ErrBadKey
| ErrEnvelope
| ErrInvalidDocument (e : validate_error) | ErrMarshal
| ErrRollback | ErrStateDamaged (file : string) | ErrNotExist | ErrNoLicense
| ErrNoCentralTime | ErrClockDiffers
| ErrIO.
#[export] Instance validate_error_eq_dec : EqDecision validate_error.
Proof. solve_decision. Defined.
#[export] Instance error_eq_dec : EqDecision error.
Proof. solve_decision. Defined.

Record storeState := mkStoreState {
  InstalledIssuedAt : Time;
  HighestVersion : Z;
  AcceptedLicenseID : string;
  AcceptedFingerprint : string;
  HighWater : Time;
  LastCloudValidation : Time
}.
#[export] Instance storeState_eq_dec : EqDecision storeState.
Proof. solve_decision. Defined.

Definition zeroState : storeState := mkStoreState 0 0 "" "" 0 0.

(** The text of a document that JSON carries. *)
Definition grant_texts (m : gmap string ModuleGrant) : list string :=
  '(id, g) ← map_to_list m; id :: elements (dom (mg_Limits g)).

Definition doc_texts (d : Document) : list string :=
  [LicenseID d; TenantID d; SiteID d; CommercialPlanCode d; Status d; ApplianceID d;
   ApplianceSerial d; HardwareFingerprint d; IdentityKeyFingerprint d; WANMAC d;
   SignerKeyID d; SupersedesLicenseID d] ++ ApplianceIDs d ++ grant_texts (grants (doc_Modules d)).

(** The codecs the store uses. *)
Class LicenseCodecs : Type := {
  lc_json :: Json;
  lc_doc :: Codec Document;
  lc_env :: Codec Envelope;
  lc_state :: Codec storeState;
  lc_ids :: Codec (list string);
  lc_doc_texts (d : Document) : texts d = doc_texts d;
  lc_state_texts st : texts st = [AcceptedLicenseID st; AcceptedFingerprint st];
  lc_ids_texts (ids : list string) : texts ids = ids
}.

Section sign.
Context {CR : Crypto} {LC : LicenseCodecs}.

(** The first eight bytes of the digest, in hex. *)
Definition KeyIDFor (pub : string) : string := String.substring 0 16 (sha256_hex pub).

Record Signer := mkSigner { priv : string; keyID : string }.
Definition NewSigner (k : string) : Signer := mkSigner k (KeyIDFor (ed_public k)).
Definition PublicKey (s : Signer) : string := ed_public (priv s).

Definition Sign (s : Signer) (d : Document) : res error Envelope :=
  match Validate d with
  | Err e => Err (ErrInvalidDocument e)
  | Ok _ =>
      match marshal d with
      | None => Err ErrMarshal
      | Some payload =>
          Ok {| PayloadB64 := b64_encode payload;
                SigB64 := b64_encode (ed_sign (priv s) payload);
                KeyID := keyID s |}
      end
  end.

Definition DecodeEnvelope (raw : string) : res error Envelope :=
  match unmarshal raw with Some e => Ok e | None => Err ErrEnvelope end.

(** ** The verifier (verify.go) *)

Abbreviation Verifier := (gmap string string).

Definition AddKey (v : Verifier) (pub : string) : Verifier * res error () :=
  if decide (len pub ≠ 32) then (v, Err ErrBadKey)
  else (<[KeyIDFor pub := pub]> v, Ok ()).

Definition NewVerifier (pubs : list string) : Verifier :=
  foldl (λ v p, (AddKey v p).1) ∅ pubs.

Definition Verify (v : Verifier) (e : Envelope) : res error Document :=
  match v !! KeyID e with
  | None => Err ErrUnknownKey
  | Some pub =>
      match b64_decode (PayloadB64 e) with
      | None => Err ErrMalformed
      | Some payload =>
          match b64_decode (SigB64 e) with
          | None => Err ErrMalformed
          | Some sig =>
              if negb (ed_verify pub payload sig) then Err ErrBadSignature
              else match unmarshal payload with
              | None => Err ErrMalformed
              | Some d => match Validate d with Err _ => Err ErrMalformed | Ok _ => Ok d end
              end
          end
      end
  end.
End sign.

(** ** The directory

    An entry that exists may be unreadable.  [writeSynced] writes a synced
    temporary file and renames it over the destination: the rename is atomic, so a
    failure (or a crash) leaves the destination either untouched or replaced. *)
Inductive entry := Readable (raw : string) | Unreadable.
Inductive fault := NoFault | FailBeforeRename | FailAfterRename.

Record world := mkWorld { files : gmap string entry; faults : list fault }.

(** The outcome of the next write; no injected fault means success. *)
Definition next_fault (w : world) : fault := default NoFault (head (faults w)).
Definition pop_fault (w : world) : world := mkWorld (files w) (tail (faults w)).
Definition put_file (name : string) (raw : string) (w : world) : world :=
  mkWorld (<[name := Readable raw]> (files w)) (faults w).

Abbreviation IO := (ST world error).

Definition writeSynced (dst raw : string) : IO () := λ w,
  match next_fault w with
  | NoFault => (put_file dst raw (pop_fault w), Ok ())
  | FailBeforeRename => (pop_fault w, Err ErrIO)
  | FailAfterRename => (put_file dst raw (pop_fault w), Err ErrIO)
  end.

(** [os.MkdirAll] of the store's directory. *)
Definition mkdirAll : IO () := λ w,
  match next_fault w with
  | NoFault => (pop_fault w, Ok ())
  | _ => (pop_fault w, Err ErrIO)
  end.

Definition stateFile : string := "state.json".
Definition currentFile : string := "current.json".
Definition revokedFile : string := "revoked.json".
Definition prevSuffix : string := ".prev".
Definition prev (name : string) : string := name +:+ prevSuffix.

Definition ReadFile (w : world) (name : string) : option string :=
  match files w !! name with Some (Readable raw) => Some raw | _ => None end.

Definition exists_file (w : world) (name : string) : bool :=
  bool_decide (is_Some (files w !! name)).

Section store.
Context {CR : Crypto} {LC : LicenseCodecs} {MR : MapRange}.

(** [parse] is the closure that decodes the bytes. *)
Definition readFileOrPrev {A} (name : string) (parse : string → option A) (w : world)
    : res error A :=
  match ReadFile w name ≫= parse with
  | Some a => Ok a
  | None =>
      if negb (exists_file w name) && negb (exists_file w (prev name)) then Err ErrNotExist
      else match ReadFile w (prev name) ≫= parse with
           | Some a => Ok a
           | None => Err (ErrStateDamaged name)
           end
  end.

Definition readState (w : world) : res error storeState :=
  match readFileOrPrev stateFile unmarshal w with
  | Err ErrNotExist => Ok zeroState
  | r => r
  end.

Definition readRevoked (w : world) : res error (gset string) :=
  match readFileOrPrev revokedFile unmarshal w with
  | Ok ids => Ok (list_to_set (C := gset string) (ids : list string))
  | Err ErrNotExist => Ok ∅
  | Err e => Err e
  end.

Definition writeDurable (name raw : string) : IO () :=
  _ ← mkdirAll;
  cur ← gets (λ w, ReadFile w name);
  _ ← match cur with
      | Some c => if json_Valid c then writeSynced (prev name) c else mret ()
      | None => mret ()
      end;
  writeSynced name raw.

Definition writeState (st : storeState) : IO () :=
  match marshal st with
  | None => fail ErrMarshal
  | Some raw => writeDurable stateFile raw
  end.

Definition advanceHighWater (st : storeState) (now : Time) : storeState * bool :=
  if negb (After now (HighWater st)) then (st, false)
  else ({| InstalledIssuedAt := InstalledIssuedAt st; HighestVersion := HighestVersion st;
           AcceptedLicenseID := AcceptedLicenseID st;
           AcceptedFingerprint := AcceptedFingerprint st;
           HighWater := now; LastCloudValidation := LastCloudValidation st |}, true).

Definition Store_Verify (v : gmap string string) (raw : string) : res error Document :=
  env ← DecodeEnvelope raw; Verify v env.

(** The rollback guards of [Install], in order. *)
Definition install_refused (st : storeState) (revoked : gset string) (doc : Document)
    (fpr : string) : bool :=
  bool_decide (LicenseID doc ∈ revoked)
  || ((0 <? HighestVersion st)
      && ((LicenseVersion doc <? HighestVersion st)
          || ((LicenseVersion doc =? HighestVersion st)%Z
              && (bool_decide (LicenseID doc ≠ AcceptedLicenseID st)
                  || (negb (empty (AcceptedFingerprint st))
                      && bool_decide (fpr ≠ AcceptedFingerprint st))))))
  || (negb ((0 <? LicenseVersion doc) && (HighestVersion st <? LicenseVersion doc))
      && negb (IsZero (InstalledIssuedAt st))
      && Before (IssuedAt doc) (InstalledIssuedAt st)).

(** The state recorded after the licence is on disk. *)
Definition accept_state (st : storeState) (doc : Document) (fpr : string) : storeState :=
  if HighestVersion st <=? LicenseVersion doc then
    {| InstalledIssuedAt := IssuedAt doc; HighestVersion := LicenseVersion doc;
       AcceptedLicenseID := LicenseID doc; AcceptedFingerprint := fpr;
       HighWater := HighWater st; LastCloudValidation := LastCloudValidation st |}
  else
    {| InstalledIssuedAt := IssuedAt doc; HighestVersion := HighestVersion st;
       AcceptedLicenseID := AcceptedLicenseID st;
       AcceptedFingerprint := AcceptedFingerprint st;
       HighWater := HighWater st; LastCloudValidation := LastCloudValidation st |}.

Definition Install (v : gmap string string) (raw : string) (now : Time) : IO Document :=
  env ← lift (DecodeEnvelope raw);
  doc ← lift (Verify v env);
  st ← reads readState;
  revoked ← reads readRevoked;
  let fpr := sha256_hex (PayloadB64 env) in
  if install_refused st revoked doc fpr then fail ErrRollback
  else
    _ ← writeDurable currentFile raw;
    _ ← writeState (advanceHighWater (accept_state st doc fpr) now).1;
    mret doc.

Definition ResetHighWater (centralTime localNow : Time) (skew : Duration) : IO Time :=
  if IsZero centralTime then fail ErrNoCentralTime
  else
    let d := time_Sub localNow centralTime in
    if (skew <? d) || (d <? wrap64 (- skew)) then fail ErrClockDiffers
    else
      st ← reads readState;
      _ ← writeState {| InstalledIssuedAt := InstalledIssuedAt st;
                        HighestVersion := HighestVersion st;
                        AcceptedLicenseID := AcceptedLicenseID st;
                        AcceptedFingerprint := AcceptedFingerprint st;
                        HighWater := centralTime;
                        LastCloudValidation := LastCloudValidation st |};
      mret (HighWater st).

Definition MarkCloudValidated (now : Time) : IO () :=
  st ← reads readState;
  writeState (advanceHighWater
    {| InstalledIssuedAt := InstalledIssuedAt st; HighestVersion := HighestVersion st;
       AcceptedLicenseID := AcceptedLicenseID st;
       AcceptedFingerprint := AcceptedFingerprint st;
       HighWater := HighWater st; LastCloudValidation := now |} now).1.

Definition AddRevocation (licenseID : string) : IO () :=
  rev ← reads readRevoked;
  if decide (licenseID ∈ rev) then mret ()
  else
    match marshal (range 0 ({[licenseID]} ∪ rev)) with
    | None => fail ErrMarshal
    | Some raw => writeDurable revokedFile raw
    end.

(** Why [doc] is older than the licence the store last accepted, if it is. *)
Definition supersededByState (doc : Document) (st : storeState) : bool :=
  if 0 <? HighestVersion st then
    if LicenseVersion doc <? HighestVersion st then true
    else (LicenseVersion doc =? HighestVersion st)%Z
         && negb (empty (AcceptedLicenseID st))
         && bool_decide (LicenseID doc ≠ AcceptedLicenseID st)
  else negb (IsZero (InstalledIssuedAt st)) && Before (IssuedAt doc) (InstalledIssuedAt st).

Definition Load (v : gmap string string) (w : world) : res error Document :=
  match readFileOrPrev currentFile (λ raw, ok_of (Store_Verify v raw)) w with
  | Err ErrNotExist => Err ErrNoLicense
  | Err e => Err e
  | Ok doc =>
      st ← readState w;
      if supersededByState doc st then Err (ErrStateDamaged currentFile) else Ok doc
  end.

Definition clockRollbackTolerance : Duration := 48 * Hour.

Definition expiredEvaluation : Evaluation :=
  mkEvaluation StateExpired None 0 0 false 0 false.

(** Go returns the evaluation and the error together. *)
Definition Store_Evaluate (v : gmap string string) (now : Time) (w : world)
    : world * (Evaluation * option error) :=
  match Load v w with
  | Err e => (w, (expiredEvaluation, Some e))
  | Ok doc =>
      match readState w with
      | Err e => (w, (expiredEvaluation, Some e))
      | Ok st =>
          match readRevoked w with
          | Err e => (w, (expiredEvaluation, Some e))
          | Ok revoked =>
              let rollback := clockRollbackTolerance <? time_Sub (HighWater st) now in
              let effective := if rollback then HighWater st else now in
              let '(st', advanced) := advanceHighWater st now in
              let w' := if advanced then (writeState st' w).1 else w in
              let ev := Evaluate doc effective (LastCloudValidation st')
                          (bool_decide (LicenseID doc ∈ revoked)) in
              (w', (mkEvaluation (ev_State ev) (ev_Doc ev) (ev_GraceUntil ev)
                      (ev_RestrictedUntil ev) rollback (ev_LastCloudValidation ev)
                      (ev_CloudStale ev), None))
          end
      end
  end.
End store.

(** ** Theorems: signatures *)

Section sign_theorems.
Context {CR : Crypto} {LC : LicenseCodecs}.

Lemma Verify_Ok v e d :
  Verify v e = Ok d →
  ∃ pub payload sig, v !! KeyID e = Some pub ∧ b64_decode (PayloadB64 e) = Some payload ∧
    b64_decode (SigB64 e) = Some sig ∧ ed_verify pub payload sig = true ∧
    unmarshal payload = Some d ∧ Validate d = Ok ().
Proof.
  unfold Verify. intros HE. passed HE. injection HE as <-.
  repeat match goal with u : () |- _ => destruct u end. naive_solver.
Qed.

Lemma Verify_texts v e d : Verify v e = Ok d → ValidString (LicenseID d) = true.
Proof.
  intros (? & ? & ? & _ & _ & _ & _ & Hu & _)%Verify_Ok.
  apply unmarshal_texts in Hu. rewrite lc_doc_texts in Hu.
  by apply Forall_cons_1 in Hu as [? _].
Qed.

Lemma Store_Verify_Ok v raw d :
  Store_Verify v raw = Ok d ↔ ∃ env, DecodeEnvelope raw = Ok env ∧ Verify v env = Ok d.
Proof. apply res_bind_Ok. Qed.
End sign_theorems.

(** A licence signed by Central verifies on an appliance that holds the
    signer's public key: [Verify] returns the very document that was signed.  The
    only conditions are a 64-byte private key and text in valid UTF-8 (which JSON
    can carry). *)
Theorem sign_verify_roundtrip {CR : Crypto} {LC : LicenseCodecs}
    (k : string) (v : gmap string string) (d : Document) (e : Envelope) :
  len k = 64 →
  Forall (λ s, ValidString s = true) (doc_texts d) →
  Sign (NewSigner k) d = Ok e →
  Verify (AddKey v (PublicKey (NewSigner k))).1 e = Ok d.
Proof.
  intros Hk Ht. unfold Sign, AddKey, PublicKey, NewSigner. simpl.
  intros HE. passed HE. injection HE as <-. unfold Verify. simpl.
  rewrite (ed_public_size k Hk), decide_False by (intros []; done). simpl.
  rewrite lookup_insert_eq, !b64_decode_encode, ed_verify_sign. simpl.
  erewrite unmarshal_marshal; [|done|by rewrite lc_doc_texts].
  by match goal with HV : Validate d = _ |- _ => rewrite HV end.
Qed.

(** ** Theorems: durable writes *)

Section durable.
Context {CR : Crypto} {LC : LicenseCodecs} {MR : MapRange}.

Definition same_at (name : string) (w w' : world) : Prop :=
  files w' !! name = files w !! name ∧ files w' !! prev name = files w !! prev name.

Lemma readFileOrPrev_ext {A} name (parse : string → option A) w w' :
  same_at name w w' → readFileOrPrev name parse w' = readFileOrPrev name parse w.
Proof. intros [H1 H2]. unfold readFileOrPrev, ReadFile, exists_file. by rewrite H1, H2. Qed.

Lemma prev_ne name : prev name ≠ name.
Proof.
  unfold prev, prevSuffix. intros Heq. apply (f_equal String.length) in Heq.
  rewrite length_append in Heq. simpl in Heq. lia.
Qed.

(** The file is absent with no copy, or holds decodable bytes. *)
Definition clean {A} (name : string) (parse : string → option A) (w : world) : Prop :=
  (files w !! name = None ∧ files w !! prev name = None) ∨
  ∃ raw a, files w !! name = Some (Readable raw) ∧ parse raw = Some a.

Lemma clean_ext {A} name (parse : string → option A) w w' :
  same_at name w w' → clean name parse w → clean name parse w'.
Proof. intros [H1 H2]. unfold clean. by rewrite H1, H2. Qed.

Lemma readFileOrPrev_current {A} name (parse : string → option A) w raw a :
  files w !! name = Some (Readable raw) → parse raw = Some a →
  readFileOrPrev name parse w = Ok a.
Proof. intros Hf Hp. unfold readFileOrPrev, ReadFile. rewrite Hf. simpl. by rewrite Hp. Qed.

Lemma writeSynced_cases dst raw w w' r :
  writeSynced dst raw w = (w', r) →
  (files w' = files w ∧ ∃ e, r = Err e) ∨ files w' = <[dst := Readable raw]> (files w).
Proof. unfold writeSynced. destruct (next_fault w); intros [= <- <-]; naive_solver. Qed.

(** The three states a write can leave behind. *)
Lemma writeDurable_cases name raw w w' r :
  writeDurable name raw w = (w', r) →
  (files w' = files w ∧ ∃ e, r = Err e) ∨
  (∃ c, ReadFile w name = Some c ∧ json_Valid c = true ∧
    files w' = <[prev name := Readable c]> (files w) ∧ ∃ e, r = Err e) ∨
  files w' = <[name := Readable raw]> (files w) ∨
  (∃ c, ReadFile w name = Some c ∧ json_Valid c = true ∧
    files w' = <[name := Readable raw]> (<[prev name := Readable c]> (files w))).
Proof.
  unfold writeDurable, mbind, ST_bind, gets, mret, ST_ret.
  destruct (mkdirAll w) as [w0 [[]|e]] eqn:E0; unfold mkdirAll in E0;
    destruct (next_fault w); injection E0 as <-; try done;
    try (intros [= <- <-]; left; eauto; done).
  replace (ReadFile (pop_fault w) name) with (ReadFile w name) by done.
  destruct (ReadFile w name) as [c|] eqn:Ec; [destruct (json_Valid c) eqn:Ev|].
  1: destruct (writeSynced (prev name) c (pop_fault w)) as [w1 [[]|e]] eqn:E1;
     apply writeSynced_cases in E1; simpl in E1.
  2: intros [= <- <-]; naive_solver.
  - destruct E1 as [[_ [? ?]]|E1]; [done|]. intros E2. apply writeSynced_cases in E2.
    rewrite E1 in E2. naive_solver.
  - intros E2. apply writeSynced_cases in E2. simpl in E2. naive_solver.
  - intros E2. apply writeSynced_cases in E2. simpl in E2. naive_solver.
Qed.

Lemma writeDurable_ok name raw w w' :
  writeDurable name raw w = (w', Ok ()) → files w' !! name = Some (Readable raw).
Proof.
  unfold writeDurable. intros (w1 & [] & _ & E)%ST_bind_Ok.
  apply ST_bind_Ok in E as (w2 & c & _ & E). apply ST_bind_Ok in E as (w3 & [] & _ & E).
  apply writeSynced_cases in E as [[_ [? ?]]|Hw]; [done|]. rewrite Hw. apply lookup_insert_eq.
Qed.

Lemma writeDurable_other name raw w w' r n :
  writeDurable name raw w = (w', r) → n ≠ name → n ≠ prev name → files w' !! n = files w !! n.
Proof.
  intros HE ??. destruct (writeDurable_cases _ _ _ _ _ HE)
    as [[Hw _]|[(c & _ & _ & Hw & _)|[Hw|(c & _ & _ & Hw)]]];
    rewrite Hw, ?lookup_insert_ne; done.
Qed.

(** A successful write keeps a well-formed current file as the copy. *)
Lemma writeDurable_prev name raw w w' c :
  files w !! name = Some (Readable c) → json_Valid c = true →
  writeDurable name raw w = (w', Ok ()) → files w' !! prev name = Some (Readable c).
Proof.
  intros Hf Hv. unfold writeDurable. intros (w1 & [] & E0 & E)%ST_bind_Ok.
  assert (files w1 = files w) as Hfw.
  { unfold mkdirAll in E0. by destruct (next_fault w); simplify_eq/=. }
  apply ST_bind_Ok in E as (w2 & c' & E1 & E).
  unfold gets in E1. injection E1 as <- <-.
  replace (ReadFile w1 name) with (Some c) in E by (unfold ReadFile; by rewrite Hfw, Hf).
  rewrite Hv in E. apply ST_bind_Ok in E as (w3 & [] & E2 & E).
  apply writeSynced_cases in E2 as [[_ [? ?]]|Hw3]; [done|].
  apply writeSynced_cases in E as [[_ [? ?]]|Hw']; [done|].
  rewrite Hw', lookup_insert_ne, Hw3 by (apply not_eq_sym, prev_ne). apply lookup_insert_eq.
Qed.
End durable.

Lemma writeDurable_reads {CR : Crypto} {LC : LicenseCodecs} {A}
    (name raw : string) (parse : string → option A) w w' r b :
  clean name parse w →
  parse raw = Some b →
  writeDurable name raw w = (w', r) →
  clean name parse w' ∧
  (readFileOrPrev name parse w' = readFileOrPrev name parse w ∨
   readFileOrPrev name parse w' = Ok b) ∧
  (r = Ok () → readFileOrPrev name parse w' = Ok b).
Proof.
  intros Hcl Hraw HE.
  pose proof (prev_ne name) as Hne.
  assert (Hnew : ∀ m f, readFileOrPrev name parse (mkWorld (<[name := Readable raw]> m) f) = Ok b).
  { intros m f. apply (readFileOrPrev_current _ _ _ raw); [apply lookup_insert_eq|done]. }
  assert (Hcn : files w' !! name = Some (Readable raw) → clean name parse w').
  { intros Hf. right. eauto. }
  destruct w' as [m' f']. split_and!.
  - destruct (writeDurable_cases _ _ _ _ _ HE) as [[Hw _]|[(c & Hc & _ & Hw & _)|[Hw|(c & _ & _ & Hw)]]];
      simpl in Hw, Hcn; subst m'.
    + exact Hcl.
    + destruct Hcl as [[Hn _]|(rw & a & Hf & Hp)]; [unfold ReadFile in Hc; by rewrite Hn in Hc|].
      right. exists rw, a. simpl. by rewrite lookup_insert_ne.
    + apply Hcn, lookup_insert_eq.
    + apply Hcn, lookup_insert_eq.
  - destruct (writeDurable_cases _ _ _ _ _ HE) as [[Hw _]|[(c & Hc & _ & Hw & _)|[Hw|(c & _ & _ & Hw)]]];
      simpl in Hw; subst m'; [left|left|by right|by right].
    + by apply readFileOrPrev_ext.
    + destruct Hcl as [[Hn _]|(rw & a & Hf & Hp)]; [unfold ReadFile in Hc; by rewrite Hn in Hc|].
      rewrite !(readFileOrPrev_current name parse _ rw a); try done. simpl. by rewrite lookup_insert_ne.
  - intros ->. apply writeDurable_ok in HE. by apply (readFileOrPrev_current _ _ _ raw).
Qed.

(** Durable writes are atomic under failures.  From a directory whose file
    is clean, whatever write fails (or wherever the process stops), reading the file back gives
    the old content or the new one, never damage or absence of an existing file; a write
    that reports success reads back as the new content; and when the current file is later
    lost or destroyed, the previous content is still read from the copy. *)
Theorem writeDurable_atomic {CR : Crypto} {LC : LicenseCodecs} {A}
    (name raw : string) (parse : string → option A) (w w' : world) (r : res error ()) (b : A) :
  (∀ c a, parse c = Some a → json_Valid c = true) →
  clean name parse w →
  parse raw = Some b →
  writeDurable name raw w = (w', r) →
  clean name parse w' ∧
  (readFileOrPrev name parse w' = readFileOrPrev name parse w ∨
   readFileOrPrev name parse w' = Ok b) ∧
  (r = Ok () → readFileOrPrev name parse w' = Ok b) ∧
  (∀ a e, r = Ok () → readFileOrPrev name parse w = Ok a →
     (∀ c, e = Some (Readable c) → parse c = None) →
     readFileOrPrev name parse
       (mkWorld (partial_alter (λ _, e) name (files w')) (faults w')) = Ok a).
Proof.
  intros Hval Hcl Hraw HE.
  destruct (writeDurable_reads name raw parse w w' r b Hcl Hraw HE) as (H1 & H2 & H3).
  split_and!; [done..|]. pose proof (prev_ne name) as Hne. destruct w' as [m' f'].
  intros a e -> Hold Hbad.
  assert (Hrd : (ReadFile (mkWorld (partial_alter (λ _, e) name m') f') name ≫= parse) = None).
  { unfold ReadFile. simpl. rewrite lookup_partial_alter_eq.
    destruct e as [[c|]|]; simpl; eauto. }
  destruct Hcl as [[Hn1 Hn2]|(rw & a' & Hf & Hp)].
  { unfold readFileOrPrev, ReadFile, exists_file in Hold. by rewrite Hn1, Hn2 in Hold. }
  rewrite (readFileOrPrev_current name parse w rw a' Hf Hp) in Hold. injection Hold as <-.
  pose proof (writeDurable_prev _ _ _ _ _ Hf (Hval _ _ Hp) HE) as Hpv. simpl in Hpv.
  unfold readFileOrPrev. cbn [files faults]. rewrite Hrd. unfold exists_file, ReadFile. simpl.
  rewrite (lookup_partial_alter_ne _ m' name (prev name)), Hpv by (by apply not_eq_sym). simpl. by rewrite andb_false_r, Hp.
Qed.

(** ** The store as a state machine *)

Section machine.
Context {CR : Crypto} {LC : LicenseCodecs} {MR : MapRange}.

Definition store_ok (w : world) : Prop :=
  clean stateFile (unmarshal : string → option storeState) w ∧
  clean revokedFile (unmarshal : string → option (list string)) w.

Definition stateOf (w : world) : storeState :=
  match readState w with Ok st => st | Err _ => zeroState end.
Definition revokedOf (w : world) : gset string :=
  match readRevoked w with Ok s => s | Err _ => ∅ end.

Definition texts_ok {A} {C : Codec A} (a : A) : Prop :=
  Forall (λ s, ValidString s = true) (texts a).

Lemma readState_Ok w :
  store_ok w → readState w = Ok (stateOf w) ∧ texts_ok (stateOf w).
Proof.
  intros [Hc _]. unfold stateOf, readState, texts_ok.
  destruct Hc as [[Hn1 Hn2]|(raw & st & Hf & Hu)].
  - unfold readFileOrPrev, ReadFile, exists_file. rewrite Hn1, Hn2. simpl.
    split; [done|]. rewrite lc_state_texts. by repeat constructor.
  - rewrite (readFileOrPrev_current _ _ _ _ _ Hf Hu). split; [done|].
    by apply unmarshal_texts in Hu.
Qed.

Lemma readRevoked_Ok w :
  store_ok w → readRevoked w = Ok (revokedOf w) ∧
  ∀ id, id ∈ revokedOf w → ValidString id = true.
Proof.
  intros [_ Hc]. unfold revokedOf, readRevoked.
  destruct Hc as [[Hn1 Hn2]|(raw & ids & Hf & Hu)].
  - unfold readFileOrPrev, ReadFile, exists_file. rewrite Hn1, Hn2. simpl. set_solver.
  - rewrite (readFileOrPrev_current _ _ _ _ _ Hf Hu). split; [done|].
    intros id Hid%elem_of_list_to_set. apply unmarshal_texts in Hu.
    rewrite lc_ids_texts in Hu. by eapply Forall_forall in Hu.
Qed.

(** The accepted licence is the same or has a higher version. *)
Definition newer (st st' : storeState) : Prop :=
  HighestVersion st <= HighestVersion st' ∧
  (0 < HighestVersion st → HighestVersion st = HighestVersion st' →
   AcceptedLicenseID st = AcceptedLicenseID st').

Lemma newer_refl st : newer st st.
Proof. by split. Qed.

Lemma newer_trans st1 st2 st3 : newer st1 st2 → newer st2 st3 → newer st1 st3.
Proof.
  intros [Hv1 Hi1] [Hv2 Hi2]. split; [lia|]. intros ??. rewrite Hi1 by lia. apply Hi2; lia.
Qed.

Lemma newer_same st st' :
  HighestVersion st' = HighestVersion st → AcceptedLicenseID st' = AcceptedLicenseID st →
  newer st st'.
Proof. intros Hv Hi. unfold newer. rewrite Hv, Hi. split; [lia|done]. Qed.

(** What no operation loses: clean files, revocations, the accepted version
    and, unless [clock] is false, the clock high-water mark. *)
Definition advances (clock : bool) (w w' : world) : Prop :=
  store_ok w →
  store_ok w' ∧ revokedOf w ⊆ revokedOf w' ∧
  newer (stateOf w) (stateOf w') ∧
  (clock = true → HighWater (stateOf w) <= HighWater (stateOf w')).

#[local] Instance advances_refl c : Reflexive (advances c).
Proof. intros w Hok. split_and!; [done|done|apply newer_refl|lia]. Qed.

#[local] Instance advances_trans c : Transitive (advances c).
Proof.
  intros w1 w2 w3 H12 H23 Hok. destruct (H12 Hok) as (Hok2 & Hr & Hv & Hh).
  destruct (H23 Hok2) as (Hok3 & Hr' & Hv' & Hh').
  split_and!; [done|set_solver|by eapply newer_trans|]. intros Hc. specialize (Hh Hc). specialize (Hh' Hc). lia.
Qed.

Lemma same_stateOf w w' : same_at stateFile w w' → stateOf w' = stateOf w.
Proof. intros Hs. unfold stateOf, readState. by rewrite (readFileOrPrev_ext _ _ _ _ Hs). Qed.
Lemma same_revokedOf w w' : same_at revokedFile w w' → revokedOf w' = revokedOf w.
Proof. intros Hs. unfold revokedOf, readRevoked. by rewrite (readFileOrPrev_ext _ _ _ _ Hs). Qed.

Lemma write_same_at name n raw w w' r :
  writeDurable name raw w = (w', r) →
  n ≠ name → n ≠ prev name → prev n ≠ name → prev n ≠ prev name → same_at n w w'.
Proof. intros HE ????. split; by eapply writeDurable_other. Qed.

(** A write of the licence file touches neither state nor revocations. *)
Lemma write_current_same raw w w' r :
  writeDurable currentFile raw w = (w', r) →
  same_at stateFile w w' ∧ same_at revokedFile w w'.
Proof. intros HE. split; eapply write_same_at; eauto; vm_compute; discriminate. Qed.

Lemma write_current_advances c raw : preserves (advances c) (writeDurable currentFile raw).
Proof.
  intros w w' r HE [Hs Hr]. apply write_current_same in HE as [H1 H2].
  rewrite (same_stateOf _ _ H1), (same_revokedOf _ _ H2).
  split_and!; [|done|apply newer_refl|lia].
  split; [exact (clean_ext _ _ _ _ H1 Hs)|exact (clean_ext _ _ _ _ H2 Hr)].
Qed.

Lemma writeState_spec c st w w' r :
  store_ok w → texts_ok st →
  newer (stateOf w) st →
  (c = true → HighWater (stateOf w) <= HighWater st) →
  writeState st w = (w', r) →
  advances c w w' ∧ (stateOf w' = stateOf w ∨ stateOf w' = st) ∧ (r = Ok () → stateOf w' = st).
Proof.
  intros Hok Ht Hv Hc. unfold writeState.
  destruct (marshal st) as [raw|] eqn:Em; [|intros [= <- <-]; split; [reflexivity|by split; [left|]]].
  intros HE. pose proof (unmarshal_marshal _ _ Em Ht) as Hu.
  assert (same_at revokedFile w w') as Hsr
    by (eapply write_same_at; eauto; vm_compute; discriminate).
  destruct (writeDurable_reads stateFile raw unmarshal w w' r st) as (Hcl & Hor & Hok');
    [apply Hok|done|done|].
  assert (stateOf w' = stateOf w ∨ stateOf w' = st) as Hso.
  { unfold stateOf, readState. destruct Hor as [->| ->]; [by left|by right]. }
  split_and!; [|done|].
  - intros _. split; [split; [done|exact (clean_ext _ _ _ _ Hsr (proj2 Hok))]|].
    rewrite (same_revokedOf _ _ Hsr).
    destruct Hso as [->| ->]; split_and!; try done; try apply newer_refl; lia.
  - intros ->. unfold stateOf, readState. by rewrite Hok'.
Qed.

Lemma texts_ok_state st :
  texts_ok st ↔ ValidString (AcceptedLicenseID st) = true ∧ ValidString (AcceptedFingerprint st) = true.
Proof.
  unfold texts_ok. rewrite lc_state_texts, !Forall_cons, Forall_nil. tauto.
Qed.

Lemma advanceHighWater_spec st now :
  let st' := (advanceHighWater st now).1 in
  HighestVersion st' = HighestVersion st ∧ AcceptedLicenseID st' = AcceptedLicenseID st ∧
  AcceptedFingerprint st' = AcceptedFingerprint st ∧
  LastCloudValidation st' = LastCloudValidation st ∧
  InstalledIssuedAt st' = InstalledIssuedAt st ∧ HighWater st' = Z.max (HighWater st) now.
Proof. unfold advanceHighWater, After. guards; split_and!; try done; simpl; lia. Qed.

Lemma accept_state_spec st rev d fpr :
  install_refused st rev d fpr = false →
  newer st (accept_state st d fpr) ∧ HighWater (accept_state st d fpr) = HighWater st.
Proof.
  unfold install_refused. intros Hr. zify_guards. unfold accept_state.
  destruct (Z.leb_spec (HighestVersion st) (LicenseVersion d)); split; try done.
  split; [done|]. simpl. intros Hpos Heq. split_failed; try lia;
  by match goal with Hd : ¬ (LicenseID d ≠ _) |- _ => apply dec_stable in Hd; rewrite Hd end.
Qed.

Lemma accept_state_texts st d fpr :
  texts_ok st → ValidString (LicenseID d) = true → ValidString fpr = true →
  texts_ok (accept_state st d fpr).
Proof. rewrite !texts_ok_state. unfold accept_state. guards; tauto. Qed.

(** [Install] in one step: it refuses without touching the disk, or writes
    the licence and then the state it accepted. *)
Lemma Install_spec v raw now w w' r :
  store_ok w → Install v raw now w = (w', r) →
  advances true w w' ∧
  ∀ d, r = Ok d → ∃ env, DecodeEnvelope raw = Ok env ∧ Verify v env = Ok d ∧
    install_refused (stateOf w) (revokedOf w) d (sha256_hex (PayloadB64 env)) = false ∧
    stateOf w' = (advanceHighWater (accept_state (stateOf w) d (sha256_hex (PayloadB64 env))) now).1.
Proof.
  intros Hok. destruct (readState_Ok w Hok) as [Hst Htx].
  destruct (readRevoked_Ok w Hok) as [Hrv _].
  unfold Install, mbind, ST_bind, lift, reads.
  destruct (DecodeEnvelope raw) as [env|e]; [|intros [= <- <-]; split; [reflexivity|done]].
  destruct (Verify v env) as [d|e] eqn:Ev; [|intros [= <- <-]; split; [reflexivity|done]].
  rewrite Hst, Hrv. set (fpr := sha256_hex (PayloadB64 env)).
  destruct (install_refused _ _ _ _) eqn:Hir; [intros [= <- <-]; split; [reflexivity|done]|].
  destruct (writeDurable currentFile raw w) as [w1 [[]|e]] eqn:E1;
    pose proof (write_current_advances true _ _ _ _ E1) as Ha1;
    [|intros [= <- <-]; split; [done|done]].
  apply write_current_same in E1 as [Hs1 _]. apply same_stateOf in Hs1.
  set (st' := (advanceHighWater _ now).1).
  destruct (writeState st' w1) as [w2 r2] eqn:E2. intros HE.
  destruct (advanceHighWater_spec (accept_state (stateOf w) d fpr) now)
    as (Hhv & Hid & Hfp & _ & _ & Hhw).
  destruct (accept_state_spec _ _ _ _ Hir) as [Hv Hh].
  destruct (writeState_spec true st' w1 w2 r2) as (Ha2 & _ & Hk); [by apply Ha1| | | |done|].
  { apply texts_ok_state. unfold st'. rewrite Hid, Hfp. apply texts_ok_state.
    apply accept_state_texts; [done|by eapply Verify_texts|apply ascii_valid, sha256_hex_ascii]. }
  { rewrite Hs1. eapply newer_trans; [exact Hv|]. by apply newer_same. }
  { intros _. rewrite Hs1. unfold st'. lia. }
  assert (advances true w w2) as Ha by (by etransitivity).
  destruct r2 as [[]|e]; injection HE as <- <-; split; try done.
  intros d' [= <-]. exists env. rewrite (Hk eq_refl). by split_and!.
Qed.

Lemma MarkCloudValidated_advances now w w' r :
  MarkCloudValidated now w = (w', r) → advances true w w'.
Proof.
  intros HE Hok. revert HE. destruct (readState_Ok w Hok) as [Hst Htx].
  unfold MarkCloudValidated, mbind, ST_bind, reads. rewrite Hst. intros HE.
  match type of HE with writeState (advanceHighWater ?s now).1 _ = _ =>
    destruct (advanceHighWater_spec s now) as (Hhv & Hid & Hfp & _ & _ & Hhw) end.
  simpl in *. apply (writeState_spec true) in HE as (Ha & _); [by apply Ha|done| |by apply newer_same|lia].
  apply texts_ok_state. rewrite Hid, Hfp. by apply texts_ok_state.
Qed.

Lemma ResetHighWater_spec ct ln sk w w' r :
  store_ok w → ResetHighWater ct ln sk w = (w', r) →
  advances false w w' ∧
  (HighWater (stateOf w') = HighWater (stateOf w) ∨ HighWater (stateOf w') = ct) ∧
  ∀ old, r = Ok old → old = HighWater (stateOf w) ∧ HighWater (stateOf w') = ct.
Proof.
  intros Hok. destruct (readState_Ok w Hok) as [Hst Htx].
  unfold ResetHighWater, mbind, ST_bind, reads, fail.
  destruct (IsZero ct); [intros [= <- <-]; split_and!; [reflexivity|by left|done]|].
  destruct (_ || _); [intros [= <- <-]; split_and!; [reflexivity|by left|done]|].
  rewrite Hst. set (st' := mkStoreState _ _ _ _ _ _).
  destruct (writeState st' w) as [w2 r2] eqn:E2. intros HE.
  destruct (writeState_spec false st' w w2 r2) as (Ha & Hor & Hk); [done| |by apply newer_same|done|done|].
  { apply texts_ok_state. by apply texts_ok_state in Htx. }
  assert (HighWater (stateOf w2) = HighWater (stateOf w) ∨ HighWater (stateOf w2) = ct) as Hw
    by (destruct Hor as [->| ->]; [by left|by right]).
  destruct r2 as [[]|e]; injection HE as <- <-; split_and!; try done.
  intros old [= <-]. by rewrite (Hk eq_refl).
Qed.

Lemma AddRevocation_spec id w w' r :
  store_ok w → ValidString id = true → AddRevocation id w = (w', r) →
  advances true w w' ∧ (r = Ok () → id ∈ revokedOf w').
Proof.
  intros Hok Hid. destruct (readRevoked_Ok w Hok) as [Hrv Htx].
  unfold AddRevocation, mbind, ST_bind, reads. rewrite Hrv.
  destruct (decide (id ∈ revokedOf w)); [by intros [= <- <-]|].
  set (ids := range 0 ({[id]} ∪ revokedOf w)).
  destruct (marshal ids) as [raw|] eqn:Em; [|intros [= <- <-]; split; [reflexivity|done]].
  intros HE.
  assert (unmarshal raw = Some ids) as Hu.
  { apply unmarshal_marshal; [done|]. rewrite lc_ids_texts. apply Forall_forall.
    intros x. unfold ids. rewrite elem_of_range. set_solver. }
  assert (same_at stateFile w w') as Hss
    by (eapply write_same_at; eauto; vm_compute; discriminate).
  destruct (writeDurable_reads revokedFile raw unmarshal w w' r ids) as (Hcl & Hor & Hk);
    [apply Hok|done|done|].
  assert (list_to_set ids = {[id]} ∪ revokedOf w) as Hset.
  { apply set_eq. intros x. rewrite elem_of_list_to_set. unfold ids. apply elem_of_range. }
  split.
  - intros _. split; [split; [exact (clean_ext _ _ _ _ Hss (proj1 Hok))|done]|].
    rewrite (same_stateOf _ _ Hss). split; [|split; [apply newer_refl|lia]].
    unfold revokedOf, readRevoked in *. destruct Hor as [->| ->]; [done|]. rewrite Hset. set_solver.
  - intros ->. unfold revokedOf, readRevoked in *. rewrite (Hk eq_refl), Hset. set_solver.
Qed.

Lemma Store_Evaluate_advances v now w :
  advances true w (Store_Evaluate v now w).1.
Proof.
  intros Hok. destruct (readState_Ok w Hok) as [Hst Htx].
  destruct (readRevoked_Ok w Hok) as [Hrv _].
  unfold Store_Evaluate. rewrite Hst, Hrv. destruct (Load v w); [|by apply advances_refl].
  destruct (advanceHighWater_spec (stateOf w) now) as (Hhv & Hid & Hfp & _ & _ & Hhw).
  destruct (advanceHighWater (stateOf w) now) as [st' adv]. simpl in *.
  destruct adv; [|by apply advances_refl].
  destruct (writeState st' w) as [w' r] eqn:E.
  apply (writeState_spec true) in E as (Ha & _); [by apply Ha|done| |by apply newer_same|lia].
  apply texts_ok_state. rewrite Hid, Hfp. by apply texts_ok_state.
Qed.
End machine.

(** *** Operations, steps and histories *)

Inductive store_op :=
| OpInstall (raw : string) (now : Time)
| OpMarkCloudValidated (now : Time)
| OpAddRevocation (id : string)
| OpEvaluate (now : Time)
| OpResetHighWater (central localNow : Time) (skew : Duration).

Definition is_reset (op : store_op) : bool :=
  match op with OpResetHighWater _ _ _ => true | _ => false end.

Section history.
Context {CR : Crypto} {LC : LicenseCodecs} {MR : MapRange}.

Definition run_op (v : gmap string string) (op : store_op) (w : world) : world :=
  match op with
  | OpInstall raw now => (Install v raw now w).1
  | OpMarkCloudValidated now => (MarkCloudValidated now w).1
  | OpAddRevocation id => (AddRevocation id w).1
  | OpEvaluate now => (Store_Evaluate v now w).1
  | OpResetHighWater c l s => (ResetHighWater c l s w).1
  end.

(** Licence ids reach [AddRevocation] from decoded JSON. *)
Definition op_ok (op : store_op) : Prop :=
  match op with OpAddRevocation id => ValidString id = true | _ => True end.

(** One operation under any combination of write failures. *)
Definition store_step (v : gmap string string) (reset : bool) (w w' : world) : Prop :=
  ∃ op fl, op_ok op ∧ (is_reset op = true → reset = true) ∧
    w' = run_op v op (mkWorld (files w) fl).

Lemma advances_faults c w w' fl : advances c (mkWorld (files w) fl) w' → advances c w w'.
Proof. done. Qed.

Lemma store_step_advances v reset w w' : store_step v reset w w' → advances (negb reset) w w'.
Proof.
  intros (op & fl & Hop & Hr & ->). apply (advances_faults _ _ _ fl).
  assert (∀ a b, advances true a b → advances (negb reset) a b) as Hweak.
  { intros a b Ha Hok. destruct (Ha Hok) as (?&?&?&?). split_and!; auto. }
  intros Hok. set (w1 := mkWorld (files w) fl) in *. destruct op; simpl.
  - destruct (Install v raw now w1) eqn:E. by apply Hweak; [eapply (Install_spec v raw now w1)|].
  - destruct (MarkCloudValidated now w1) eqn:E.
    by apply Hweak; [eapply MarkCloudValidated_advances|].
  - destruct (AddRevocation id w1) eqn:E. by apply Hweak; [eapply (AddRevocation_spec id w1)|].
  - apply Hweak; [apply Store_Evaluate_advances|done].
  - rewrite (Hr eq_refl). destruct (ResetHighWater central localNow skew w1) eqn:E.
    by eapply (ResetHighWater_spec central localNow skew w1).
Qed.

Lemma history_advances v reset w w' :
  rtc (store_step v reset) w w' → advances (negb reset) w w'.
Proof.
  induction 1 as [|w1 w2 w3 Hs _ IH]; [apply advances_refl|].
  by eapply advances_trans; [eapply store_step_advances|].
Qed.

Lemma Load_Ok v w d :
  Load v w = Ok d →
  (∃ st, readState w = Ok st ∧ stateOf w = st ∧ supersededByState d st = false) ∧ Validate d = Ok () ∧
  ∃ raw env, DecodeEnvelope raw = Ok env ∧ Verify v env = Ok d ∧
    (ReadFile w currentFile = Some raw ∨ ReadFile w (prev currentFile) = Some raw).
Proof.
  unfold Load, stateOf. destruct (readState w) as [st|e];
    [|intros HE; by repeat case_match]. unfold readFileOrPrev.
  assert (∀ name, (ReadFile w name ≫= λ raw, ok_of (Store_Verify v raw)) = Some d →
    ∃ raw env, DecodeEnvelope raw = Ok env ∧ Verify v env = Ok d ∧ ReadFile w name = Some raw) as Hrd.
  { intros name (raw & Hraw & Hv)%bind_Some. exists raw.
    destruct (Store_Verify v raw) eqn:E; [|done]. injection Hv as ->.
    apply Store_Verify_Ok in E as (env & ? & ?). eauto. }
  assert (∀ e, Verify v e = Ok d → Validate d = Ok ()) as Hval.
  { intros e (? & ? & ? & _ & _ & _ & _ & _ & ?)%Verify_Ok. done. }
  intros HE. repeat case_match; simplify_eq/=; case_match; simplify_eq/=;
    match goal with E : _ ≫= _ = Some _ |- _ => apply Hrd in E as (raw & env & ? & ? & ?) end;
    split_and!; eauto 10.
Qed.
End history.

(** C6. The accepted licence never rolls back.  After a successful [Install]
    of a versioned licence, whatever operations follow and whichever of their
    writes fail, every licence the store later loads has a higher version, or is
    the same licence at the same version. *)
Theorem installed_never_rolls_back {CR : Crypto} {LC : LicenseCodecs} {MR : MapRange}
    (v : gmap string string) (raw : string) (now : Time) (w0 w1 w : world) (d0 d : Document) :
  store_ok w0 →
  Install v raw now w0 = (w1, Ok d0) →
  0 < LicenseVersion d0 →
  rtc (store_step v true) w1 w →
  Load v w = Ok d →
  LicenseVersion d0 < LicenseVersion d ∨
  (LicenseVersion d = LicenseVersion d0 ∧ LicenseID d = LicenseID d0).
Proof.
  intros Hok HI Hpos Hst HL.
  destruct (Install_spec _ _ _ _ _ _ Hok HI) as [Ha1 Hs].
  destruct (Hs d0 eq_refl) as (env & _ & Hv & Hir & Hst1).
  destruct (Ha1 Hok) as (Hok1 & _).
  destruct (history_advances _ _ _ _ Hst Hok1) as (Hokw & _ & [Hnv Hni] & _).
  destruct (Load_Ok _ _ _ HL) as ((st & _ & <- & Hsup) & _).
  assert (HighestVersion (stateOf w1) = LicenseVersion d0 ∧
          AcceptedLicenseID (stateOf w1) = LicenseID d0) as [Hv1 Hi1].
  { rewrite Hst1. destruct (advanceHighWater_spec (accept_state (stateOf w0) d0
      (sha256_hex (PayloadB64 env))) now) as (-> & -> & _).
    unfold install_refused in Hir. unfold accept_state.
    destruct (Z.leb_spec (HighestVersion (stateOf w0)) (LicenseVersion d0)); [done|].
    split_failed; lia. }
  rewrite Hv1, Hi1 in *. specialize (Hni Hpos).
  assert (LicenseID d0 ≠ "") as Hne.
  { apply Verify_Ok in Hv as (? & ? & ? & _ & _ & _ & _ & _ & Hval). by destruct (Validate_Ok _ _ Hval) as (_ & ? & _). }
  unfold supersededByState in Hsup. rewrite (proj2 (Z.ltb_lt 0 _)) in Hsup by lia.
  destruct (Z.ltb_spec (LicenseVersion d) (HighestVersion (stateOf w))); [done|].
  destruct (Z.eq_dec (LicenseVersion d) (LicenseVersion d0)) as [Heq|]; [right|left; lia].
  split; [done|]. assert (LicenseVersion d0 = HighestVersion (stateOf w)) as Hvw by lia.
  rewrite <- (Hni Hvw) in Hsup. apply empty_false in Hne. rewrite Hne in Hsup.
  split_failed; [lia|done|]. by apply dec_stable.
Qed.

(** C8. A revocation is final.  Once [AddRevocation] has returned without an
    error, whatever operations follow and whichever of their writes fail, the licence
    is evaluated as revoked (no new sessions, no features) at every time, and
    installing it again is refused without touching the disk. *)
Theorem revocation_is_final {CR : Crypto} {LC : LicenseCodecs} {MR : MapRange}
    (v : gmap string string) (id : string) (w0 w1 w : world) (d : Document) (now : Time) :
  store_ok w0 →
  ValidString id = true →
  AddRevocation id w0 = (w1, Ok ()) →
  rtc (store_step v true) w1 w →
  LicenseID d = id →
  (Load v w = Ok d → ev_State (Store_Evaluate v now w).2.1 = StateRevoked) ∧
  (∀ raw, Store_Verify v raw = Ok d → Install v raw now w = (w, Err ErrRollback)).
Proof.
  intros Hok Hid HR Hst Hd.
  destruct (AddRevocation_spec _ _ _ _ Hok Hid HR) as [Ha1 Hin]. specialize (Hin eq_refl).
  destruct (Ha1 Hok) as (Hok1 & _).
  destruct (history_advances _ _ _ _ Hst Hok1) as (Hokw & Hsub & _).
  apply Hsub in Hin. destruct (readState_Ok w Hokw) as [HS _].
  destruct (readRevoked_Ok w Hokw) as [HRv _].
  assert (bool_decide (LicenseID d ∈ revokedOf w) = true) as Hb
    by (apply bool_decide_eq_true_2; by rewrite Hd).
  split.
  - intros HL. unfold Store_Evaluate. rewrite HL, HS, HRv.
    destruct (advanceHighWater (stateOf w) now). by rewrite Hb.
  - intros raw (env & He & Hv)%Store_Verify_Ok.
    unfold Install, mbind, ST_bind, lift, reads. rewrite He, Hv, HS, HRv.
    unfold install_refused. by rewrite Hb.
Qed.

(** Turning the clock back buys at most the tolerance.  Along any history
    without an authenticated clock reset, a licence whose restricted window ended more
    than 48 hours before the highest clock reading the store had recorded allows no new
    session, whatever the clock reads when it is evaluated. *)
Theorem clock_rollback_bounded {CR : Crypto} {LC : LicenseCodecs} {MR : MapRange}
    (v : gmap string string) (w0 w w' : world) (now : Time) (ev : Evaluation) :
  store_ok w0 →
  rtc (store_step v false) w0 w →
  Store_Evaluate v now w = (w', (ev, None)) →
  ev_RestrictedUntil ev + 48 * Hour < HighWater (stateOf w0) →
  AllowsNewSessions (ev_State ev) = false.
Proof.
  intros Hok Hst HE Hend. destruct (history_advances _ _ _ _ Hst Hok) as (Hokw & _ & _ & Hhw).
  specialize (Hhw eq_refl). revert HE. unfold Store_Evaluate.
  destruct (Load v w) as [d|e] eqn:HL; [|done].
  destruct (readState_Ok w Hokw) as [-> _]. destruct (readRevoked_Ok w Hokw) as [-> _].
  destruct (Load_Ok _ _ _ HL) as (_ & Hval & _).
  destruct (advanceHighWater (stateOf w) now) as [st' adv]. intros HE.
  apply (f_equal (λ x, x.2.1)) in HE. cbn [fst snd] in HE. subst ev.
  match goal with |- context [Evaluate d ?e _ ?r] => set (eff := e) in *; set (rv := r) in * end.
  cbn [ev_RestrictedUntil ev_State] in *.
  destruct (Evaluate_windows d eff (LastCloudValidation st') rv Hval) as (Hiff & _).
  apply not_true_is_false. intros (_ & _ & _ & Hle)%Hiff.
  assert (HighWater (stateOf w) - 48 * Hour <= eff) as Heff.
  { unfold eff, clockRollbackTolerance.
    destruct (Z.ltb_spec (48 * Hour) (time_Sub (HighWater (stateOf w)) now)) as [|Hs].
    - unfold Hour, Minute, Second, Millisecond, Microsecond, Nanosecond. lia.
    - apply Z.le_ngt in Hs. rewrite time_Sub_gt in Hs; [lia|].
      unfold two63, Hour, Minute, Second, Millisecond, Microsecond, Nanosecond. lia. }
  lia.
Qed.

(** Only signed licences load.  Whatever bytes are in the directory, a
    document the store loads was decoded from the current file or its copy, carries a
    signature that verifies under a key the appliance holds, passed validation, and
    is not older than what the recorded state accepted. *)
Theorem loaded_is_signed {CR : Crypto} {LC : LicenseCodecs} {MR : MapRange}
    (v : gmap string string) (w : world) (d : Document) :
  Load v w = Ok d →
  (∃ st, readState w = Ok st ∧ supersededByState d st = false) ∧
  Validate d = Ok () ∧
  ∃ raw env pub payload sig,
    (ReadFile w currentFile = Some raw ∨ ReadFile w (prev currentFile) = Some raw) ∧
    unmarshal raw = Some env ∧ v !! KeyID env = Some pub ∧
    b64_decode (PayloadB64 env) = Some payload ∧ b64_decode (SigB64 env) = Some sig ∧
    ed_verify pub payload sig = true ∧ unmarshal payload = Some d.
Proof.
  intros (Hst & Hval & raw & env & Hd & Hv & Hr)%Load_Ok.
  apply Verify_Ok in Hv as (pub & payload & sig & ? & ? & ? & ? & ? & _).
  unfold DecodeEnvelope in Hd. case_match; simplify_eq.
  split; [naive_solver|]. split; [done|]. by exists raw, env, pub, payload, sig.
Qed.

(** A current file that is damaged but still well-formed JSON (a flipped
    character inside the base64 payload) does replace the good copy: from a
    directory that reads as [a] through the copy, a write whose second rename fails
    leaves nothing readable. *)
Theorem wellformed_damage_replaces_copy {CR : Crypto} {LC : LicenseCodecs} {A}
    (name raw c p : string) (parse : string → option A) (a : A) (m : gmap string entry) :
  m !! name = Some (Readable c) → json_Valid c = true → parse c = None →
  m !! prev name = Some (Readable p) → parse p = Some a →
  let w := mkWorld m [NoFault; NoFault; FailBeforeRename] in
  readFileOrPrev name parse w = Ok a ∧
  readFileOrPrev name parse (writeDurable name raw w).1 = Err (ErrStateDamaged name).
Proof.
  intros Hc Hv Hpc Hp Hpp w. pose proof (prev_ne name) as Hne. split.
  - unfold readFileOrPrev, ReadFile, exists_file. simpl. rewrite Hc. simpl. rewrite Hpc. simpl.
    rewrite Hp. simpl. by rewrite Hpp.
  - unfold writeDurable, mbind, ST_bind, gets, mkdirAll, ReadFile. simpl. rewrite Hc, Hv. simpl.
    unfold readFileOrPrev, ReadFile, exists_file. simpl.
    rewrite (lookup_insert_ne _ (prev name) name), lookup_insert_eq, Hc by done. simpl.
    by rewrite Hpc.
Qed.

(** ** A concrete environment

    Small instances of the interfaces on which the theorems are applied:
    JSON as finite tables from bytes to values, and an Ed25519 whose
    signature is the public key followed by the message. *)
Module Sample.

Definition json : Json := {| json_Valid raw := negb (empty raw) |}.

Definition texts_valid (l : list string) : bool := forallb ValidString l.

Definition table_unmarshal {A} (tx : A → list string) (t : list (string * A)) (raw : string)
    : option A :=
  if empty raw then None
  else '(_, a) ← list_find (λ p, p.1 = raw) t ≫= λ q, Some q.2;
       if texts_valid (tx a) then Some a else None.

Definition table_marshal {A} `{EqDecision A} (tx : A → list string) (t : list (string * A)) (a : A)
    : option string :=
  '(_, (raw, _)) ← list_find (λ p, p.2 = a ∧ empty p.1 = false ∧
      (texts_valid (tx a) = true → table_unmarshal tx t p.1 = Some a)) t;
  Some raw.

Program Definition table_codec {A} `{EqDecision A} (tx : A → list string) (t : list (string * A))
    : @Codec json A := {|
  marshal := table_marshal tx t;
  unmarshal := table_unmarshal tx t;
  texts := tx
|}.
Next Obligation.
  intros A ? tx t a raw. unfold table_marshal. simpl.
  intros ([i [k b]] & (? & (_ & ? & _) & _)%list_find_Some & [= <-])%bind_Some. by apply negb_true_iff.
Qed.
Next Obligation.
  intros A ? tx t raw a. unfold table_unmarshal. simpl. by destruct (empty raw).
Qed.
Next Obligation.
  intros A ? tx t raw a. unfold table_unmarshal. destruct (empty raw); [done|].
  intros ([k b] & _ & HE)%bind_Some. destruct (texts_valid (tx b)) eqn:Et; [|done].
  injection HE as ->. apply Forall_forall. intros s Hs.
  unfold texts_valid in Et. rewrite forallb_forall in Et. by apply Et, list_elem_of_In.
Qed.
Next Obligation.
  intros A ? tx t a raw. unfold table_marshal.
  intros ([i [k b]] & (_ & (_ & _ & Hu) & _)%list_find_Some & [= <-])%bind_Some Ht.
  apply Hu. unfold texts_valid. apply forallb_forall. intros s Hs.
  rewrite Forall_forall in Ht. by apply Ht, list_elem_of_In.
Qed.

Definition pub_of (k : string) : string := String.substring 0 32 k.

Lemma substring_length n s :
  (n <= String.length s)%nat → String.length (String.substring 0 n s) = n.
Proof.
  revert n. induction s as [|c s IH]; intros [|n] Hn; simpl in *; try lia.
  rewrite IH; lia.
Qed.

Program Definition crypto : Crypto := {|
  ed_public := pub_of;
  ed_sign k m := pub_of k +:+ m;
  ed_verify p m s := bool_decide (s = p +:+ m);
  sha256_hex m := if is_ascii m then m else "0";
  b64_encode m := m;
  b64_decode m := Some m
|}.
Next Obligation. intros. by apply bool_decide_eq_true_2. Qed.
Next Obligation.
  intros k. unfold len, pub_of. intros Hk. rewrite substring_length; lia.
Qed.
Next Obligation. intros m. simpl. by destruct (is_ascii m) eqn:E. Qed.
Next Obligation. done. Qed.

Definition next_doc : Document :=
  let d := sample_doc in
  mkDocument "lic-2" (TenantID d) (SiteID d) (ApplianceIDs d) (CommercialPlanCode d) (Status d)
    (IssuedAt d) (1730 * Day) (OfflineGraceDays d) (doc_Features d) (doc_Limits d)
    (ApplianceID d) (ApplianceSerial d) (HardwareFingerprint d) (IdentityKeyFingerprint d)
    (WANMAC d) (ValidFrom d) (SignerKeyID d) (MaxConcurrentOnlineGuests d) (GracePeriodDays d)
    8 "lic-1" (doc_Modules d) (SchemaVersion d).

Definition vendor_key : string :=
  "0123456789abcdef0123456789abcdef0123456789abcdef0123456789abcdef".
Definition envelope_of (payload : string) : Envelope :=
  mkEnvelope payload (pub_of vendor_key +:+ payload) "0123456789abcdef".

Definition state_after (d : Document) (fpr : string) (hw lcv : Time) : storeState :=
  mkStoreState (IssuedAt d) (LicenseVersion d) (LicenseID d) fpr hw lcv.

Definition codecs : LicenseCodecs.
Proof.
  refine {| lc_json := json;
    lc_doc := table_codec doc_texts [("{7}", sample_doc); ("{8}", next_doc)];
    lc_env := table_codec (λ e, [PayloadB64 e; SigB64 e; KeyID e])
                [("{e7}", envelope_of "{7}"); ("{e8}", envelope_of "{8}")];
    lc_state := table_codec (λ st, [AcceptedLicenseID st; AcceptedFingerprint st])
                [("{s7}", state_after sample_doc "{7}" (1100 * Day) 0);
                 ("{s8}", state_after next_doc "{8}" (1200 * Day) 0);
                 ("{s8'}", state_after next_doc "{8}" (1900 * Day) 0)];
    lc_ids := table_codec (λ l, l) [("[lic-1]", ["lic-1"])] |}; done.
Defined.

Definition verifier : gmap string string := {["0123456789abcdef" := pub_of vendor_key]}.
Definition empty_dir (fl : list fault) : world := mkWorld ∅ fl.

End Sample.

#[local] Existing Instances Sample.crypto Sample.codecs elements_range.

Lemma sign_verify_roundtrip_witness :
  Verify (AddKey ∅ (PublicKey (NewSigner Sample.vendor_key))).1
    (Sample.envelope_of "{7}") = Ok sample_doc.
Proof.
  apply (sign_verify_roundtrip Sample.vendor_key ∅ sample_doc).
  - vm_compute. reflexivity.
  - vm_compute. repeat constructor.
  - vm_compute. reflexivity.
Defined.

Module StoreWitness.
Import Sample.

Definition w0 : world := empty_dir [].
(** The licence file is written, the write of its state succeeds. *)
Definition w1 : world := (Install verifier "{e7}" (1100 * Day) w0).1.
(** An upgrade whose state write fails after the rename. *)
Definition op8 : store_op := OpInstall "{e8}" (1200 * Day).
Definition faults8 : list fault := [NoFault; NoFault; NoFault; NoFault; NoFault; FailAfterRename].
Definition w2 : world := run_op verifier op8 (mkWorld (files w1) faults8).

Lemma store_ok_w0 : store_ok w0.
Proof. split; left; split; reflexivity. Qed.

Lemma step_w1_w2 : rtc (store_step verifier true) w1 w2.
Proof. apply rtc_once. exists op8, faults8. split_and!; done. Qed.

Lemma no_reset_w1_w2 : rtc (store_step verifier false) w1 w2.
Proof. apply rtc_once. exists op8, faults8. split_and!; done. Qed.

Lemma store_ok_w1 : store_ok w1.
Proof.
  destruct (Install verifier "{e7}" (1100 * Day) w0) as [w r] eqn:E.
  destruct (Install_spec _ _ _ _ _ _ store_ok_w0 E) as [Ha _].
  unfold w1. rewrite E. by apply Ha, store_ok_w0.
Qed.
End StoreWitness.

Lemma installed_never_rolls_back_witness :
  LicenseVersion sample_doc < LicenseVersion Sample.next_doc ∨
  (LicenseVersion Sample.next_doc = LicenseVersion sample_doc ∧
   LicenseID Sample.next_doc = LicenseID sample_doc).
Proof.
  apply (installed_never_rolls_back Sample.verifier "{e7}" (1100 * Day) StoreWitness.w0 StoreWitness.w1 StoreWitness.w2).
  - exact StoreWitness.store_ok_w0.
  - vm_compute. reflexivity.
  - vm_compute. reflexivity.
  - exact StoreWitness.step_w1_w2.
  - vm_compute. reflexivity.
Defined.

(** The revocation is stored although the copy of the old list failed to be made
    durable; the licence still on disk then evaluates as revoked. *)
Lemma revocation_is_final_witness :
  let w := (AddRevocation "lic-1" StoreWitness.w1).1 in
  ev_State (Store_Evaluate Sample.verifier (1100 * Day) w).2.1 = StateRevoked.
Proof.
  intros w.
  apply (revocation_is_final Sample.verifier
           "lic-1" StoreWitness.w1 w w sample_doc (1100 * Day)).
  - exact StoreWitness.store_ok_w1.
  - vm_compute. reflexivity.
  - vm_compute. reflexivity.
  - apply rtc_refl.
  - reflexivity.
  - vm_compute. reflexivity.
Defined.

Lemma writeDurable_atomic_witness :
  let w := mkWorld (files StoreWitness.w1) [NoFault; NoFault; FailBeforeRename] in
  let w' := (writeDurable currentFile "{e8}" w).1 in
  let parse : string → option Envelope := unmarshal in
  readFileOrPrev currentFile parse w' = readFileOrPrev currentFile parse w ∨
  readFileOrPrev currentFile parse w' = Ok (Sample.envelope_of "{8}").
Proof.
  intros w w' parse.
  destruct (writeDurable_atomic currentFile "{e8}" parse w w'
              (Err ErrIO) (Sample.envelope_of "{8}")) as (_ & Hor & _); [| | | |exact Hor].
  - intros c a. apply unmarshal_valid.
  - right. exists "{e7}", (Sample.envelope_of "{7}"). split; vm_compute; reflexivity.
  - vm_compute. reflexivity.
  - vm_compute. reflexivity.
Defined.

(** The clock had reached day 1900; turned back to day 1740, when the licence was
    still in its grace period, it allows nothing. *)
Lemma clock_rollback_bounded_witness :
  let w3 := (Store_Evaluate Sample.verifier (1900 * Day) StoreWitness.w2).1 in
  AllowsNewSessions (ev_State (Store_Evaluate Sample.verifier (1740 * Day) w3).2.1) = false.
Proof.
  intros w3.
  apply (clock_rollback_bounded Sample.verifier w3 w3
           (Store_Evaluate Sample.verifier (1740 * Day) w3).1 (1740 * Day)).
  - apply Store_Evaluate_advances, (history_advances _ _ _ _ StoreWitness.no_reset_w1_w2),
      StoreWitness.store_ok_w1.
  - apply rtc_refl.
  - vm_compute. reflexivity.
  - vm_compute. reflexivity.
Defined.

Lemma loaded_is_signed_witness :
  ∃ st, readState StoreWitness.w2 = Ok st ∧ supersededByState Sample.next_doc st = false.
Proof.
  apply (loaded_is_signed Sample.verifier StoreWitness.w2 Sample.next_doc).
  vm_compute. reflexivity.
Defined.

(** The current file is well-formed and carries a bad envelope, the copy is good. *)
Lemma wellformed_damage_replaces_copy_witness :
  let m := <[currentFile := Readable "{tampered}"]> {[prev currentFile := Readable "{e7}"]} in
  let parse : string → option Envelope := unmarshal in
  readFileOrPrev currentFile parse
    (writeDurable currentFile "{e8}" (mkWorld m [NoFault; NoFault; FailBeforeRename])).1
  = Err (ErrStateDamaged currentFile).
Proof.
  intros m parse.
  apply (wellformed_damage_replaces_copy currentFile "{e8}" "{tampered}" "{e7}" parse
           (Sample.envelope_of "{7}") m); vm_compute; reflexivity.
Defined.
