(* ===== verification/LicState.v ===== *)
(** The appliance's licence manager, [data-plane/internal/licstate/licstate.go].

    The manager caches the evaluation of the on-disk licence, checks the device
    binding on every evaluation, bridges the licence's limits into the site
    database and installs what Central delivers.  Its state is the Go struct; the
    system around it is the store's directory and the rows of
    [tenant_effective_limits].  Clock readings and HTTP answers are arguments. *)
From S2P Require Import Prelude GoStrings LicenseDoc LicenseStore.

(** ** State *)

(** The signed assignment's answer: customer and site, or nothing granted yet. *)
Abbreviation assignment := (option (string * string)).

Record Manager := mkManager {
  m_store : option (gmap string string);   (* the verifier of the store; None: no vendor key *)
  m_db : bool;                             (* a database pool is configured *)
  m_applianceID : string;
  m_local : LocalIdentity;
  m_assignmentLookup : option assignment;  (* None: nil callback *)
  m_hwMismatch : string;
  m_wrongDevice : string;
  m_required : bool;
  m_current : Evaluation;
  m_loaded : bool;
  m_lastSynced : string;
  m_lastLogged : string;
  m_mtls : bool;                           (* mTLS client and base are set *)
  m_fastEvery : Duration
}.

(** A row of [tenant_effective_limits]; the key is (tenant, key). *)
Record limit_row := mkLimitRow {
  lr_type : string;
  lr_int : option Z;
  lr_bool : option bool;
  lr_source : string
}.
#[export] Instance limit_row_eq_dec : EqDecision limit_row.
Proof. solve_decision. Defined.

Record system := mkSystem {
  mgr : Manager;
  disk : world;
  limits : gmap string limit_row;
  dbFails : list bool                      (* the outcome of the next transactions *)
}.

Definition set_load (m : Manager) (hw wrong : string) (cur : Evaluation) (ld : bool)
    (synced logged : string) : Manager :=
  mkManager (m_store m) (m_db m) (m_applianceID m) (m_local m) (m_assignmentLookup m)
    hw wrong (m_required m) cur ld synced logged (m_mtls m) (m_fastEvery m).

Definition set_mgr (s : system) (m : Manager) : system := mkSystem m (disk s) (limits s) (dbFails s).
Definition set_disk (s : system) (w : world) : system := mkSystem (mgr s) w (limits s) (dbFails s).

Definition SetAssignmentLookup (fn : option assignment) (m : Manager) : Manager :=
  mkManager (m_store m) (m_db m) (m_applianceID m) (m_local m) fn (m_hwMismatch m)
    (m_wrongDevice m) (m_required m) (m_current m) (m_loaded m) (m_lastSynced m)
    (m_lastLogged m) (m_mtls m) (m_fastEvery m).

Definition SetLocalIdentity (local : LocalIdentity) (m : Manager) : Manager :=
  mkManager (m_store m) (m_db m) (m_applianceID m) local (m_assignmentLookup m)
    (m_hwMismatch m) (m_wrongDevice m) (m_required m) (m_current m) (m_loaded m)
    (m_lastSynced m) (m_lastLogged m) (m_mtls m) (m_fastEvery m).

Definition set_applianceID (id : string) (m : Manager) : Manager :=
  mkManager (m_store m) (m_db m) id (m_local m) (m_assignmentLookup m)
    (m_hwMismatch m) (m_wrongDevice m) (m_required m) (m_current m) (m_loaded m)
    (m_lastSynced m) (m_lastLogged m) (m_mtls m) (m_fastEvery m).

Inductive mgr_error :=
| NoVendorKey
| StoreError (e : error)
| BoundElsewhere (reason : string)
| SyncFailed
| SignFailed | TransportFailed | NoLicenseYet | HTTPError (code : Z) | BadReply.

(** ** The limits bridge *)

Section limits.
Context {MR : MapRange}.

(** Licence 0 (or less) is unlimited: the view's -1. *)
Definition unlim (v : Z) : Z := if v <=? 0 then -1 else v.

Definition int_limits (d : Document) : list (string * Z) :=
  [("max_concurrent_devices", unlim (EffectiveMaxConcurrentOnlineGuests d));
   ("max_operators", unlim (MaxLocalOperators (doc_Limits d)));
   ("max_guest_access_plans", unlim (MaxGuestAccessPlans (doc_Limits d)));
   ("max_appliances", unlim (MaxAppliancesForSite (doc_Limits d)));
   ("retention_days_accounting", unlim (AccountingRetentionDays (doc_Limits d)));
   ("retention_days_audit", unlim (AuditRetentionDays (doc_Limits d)))].

Definition bool_limits (d : Document) : list (string * bool) :=
  let am := AuthorizedModules d in
  [("feature.pms_integration", bool_decide (ModuleHospitality ∈ am));
   ("feature.paid_wifi", bool_decide (ModulePaidAccess ∈ am));
   ("feature.auth.sms_otp", bool_decide (ModuleSMSOTP ∈ am));
   ("feature.auth.whatsapp_otp", bool_decide (ModuleWhatsAppOTP ∈ am));
   ("feature.auth.email_otp", bool_decide (ModuleEmailOTP ∈ am));
   ("feature.auth.social", bool_decide (ModuleSocialLogin ∈ am));
   ("feature.ha_pair", bool_decide (ModuleHA ∈ am));
   ("feature.white_label", bool_decide (ModuleWhiteLabel ∈ am))].

(** [INSERT ... ON CONFLICT (tenant_id, key) DO UPDATE]. *)
Definition upsert_int (k : string) (v : Z) (t : gmap string limit_row) : gmap string limit_row :=
  match t !! k with
  | Some r => <[k := mkLimitRow "int" (Some v) (lr_bool r) "license"]> t
  | None => <[k := mkLimitRow "int" (Some v) None "license"]> t
  end.
Definition upsert_bool (k : string) (v : bool) (t : gmap string limit_row) : gmap string limit_row :=
  match t !! k with
  | Some r => <[k := mkLimitRow "bool" (lr_int r) (Some v) "license"]> t
  | None => <[k := mkLimitRow "bool" None (Some v) "license"]> t
  end.

Definition bridge (d : Document) (t : gmap string limit_row) : gmap string limit_row :=
  foldl (λ t '(k, v), upsert_bool k v t)
    (foldl (λ t '(k, v), upsert_int k v t) t (int_limits d)) (bool_limits d).

(** One transaction: every row or none. *)
Definition syncLimits (d : Document) (s : system) : system * res mgr_error () :=
  if negb (m_db (mgr s)) then (s, Ok ())
  else match dbFails s with
  | true :: rest => (mkSystem (mgr s) (disk s) (limits s) rest, Err SyncFailed)
  | l => (mkSystem (mgr s) (disk s) (bridge d (limits s)) (tail l), Ok ())
  end.
End limits.

(** ** Evaluation *)

Section manager.
Context {CR : Crypto} {LC : LicenseCodecs} {MR : MapRange} {UC : Unicode}.

Definition documentKey (d : Document) : string :=
  match marshal d with None => "" | Some raw => sha256_hex raw end.

Definition state_string (s : State) : string :=
  match s with
  | StateActive => "Active" | StateGracePeriod => "GracePeriod"
  | StateRestricted => "Restricted" | StateExpired => "Expired"
  | StateSuspended => "Suspended" | StateRevoked => "Revoked" | StateUnlicensed => "unlicensed"
  end.
Definition bool_string (b : bool) : string := if b then "true" else "false".

Definition evaluation_key (docKey : string) (ev : Evaluation) : string :=
  docKey +:+ "|" +:+ state_string (ev_State ev) +:+ "|" +:+ bool_string (ev_CloudStale ev)
  +:+ "|" +:+ bool_string (ev_ClockRollback ev).

(** [m.Load] with the clock reading [now]. *)
Definition Manager_Load (now : Time) (s : system) : system :=
  match m_store (mgr s) with
  | None => s
  | Some v =>
      let m := mgr s in
      match Store_Evaluate v now (disk s) with
      | (w, (_, Some _)) =>
          set_mgr (set_disk s w) (set_load m "" "" (m_current m) false "" "")
      | (w, (ev, None)) =>
          let '(r, reason) :=
            match ev_Doc ev with
            | Some d => CheckBinding d (m_local m)
            | None => (BindingOK, "")
            end in
          let wrong := if decide (r = BindingWrongDevice) then reason else "" in
          let hw := if decide (r = BindingWANMismatch) then reason else "" in
          let s1 := set_mgr (set_disk s w)
                      (set_load m hw wrong ev true (m_lastSynced m) (m_lastLogged m)) in
          if negb (empty wrong) then s1
          else match ev_Doc ev with
          | None => s1
          | Some d =>
              let docKey := documentKey d in
              let m1 := mgr s1 in
              let s2 := set_mgr s1 (set_load m1 (m_hwMismatch m1) (m_wrongDevice m1)
                          (m_current m1) (m_loaded m1) (m_lastSynced m1)
                          (evaluation_key docKey ev)) in
              if decide (docKey = m_lastSynced m) then s2
              else match syncLimits d s2 with
              | (s3, Err _) => s3
              | (s3, Ok _) =>
                  let m3 := mgr s3 in
                  set_mgr s3 (set_load m3 (m_hwMismatch m3) (m_wrongDevice m3) (m_current m3)
                                (m_loaded m3) docKey (m_lastLogged m3))
              end
          end
      end
  end.

(** ** What the appliance acts on *)

Definition Manager_State (m : Manager) : State :=
  if m_loaded m && negb (empty (m_wrongDevice m)) then StateUnlicensed
  else if negb (m_loaded m) then (if m_required m then StateUnlicensed else StateActive)
  else ev_State (m_current m).

Definition Manager_AllowsNewSessions (m : Manager) : bool := AllowsNewSessions (Manager_State m).

Definition Manager_MaxConcurrentOnlineGuests (m : Manager) : Z :=
  if m_loaded m && negb (empty (m_wrongDevice m)) then 0
  else match (if m_loaded m then ev_Doc (m_current m) else None) with
  | None => if m_required m then 0 else -1
  | Some d => let v := EffectiveMaxConcurrentOnlineGuests d in if 0 <? v then v else -1
  end.

Definition ModuleEnabled (m : Manager) (id : string) : bool :=
  if negb (m_loaded m) then negb (m_required m)
  else match ev_Doc (m_current m) with
  | None => false
  | Some d =>
      if negb (empty (m_wrongDevice m)) then false
      else FeatureEnabled (ev_State (m_current m)) (bool_decide (id ∈ AuthorizedModules d))
  end.

Definition FeatPMS : string := "pms".
Definition FeatPaidWiFi : string := "paid_wifi".
Definition passthrough_features : list string :=
  ["email_otp"; "sms_otp"; "whatsapp_otp"; "social_login"; "ha"; "white_label"].

Definition Manager_FeatureEnabled (m : Manager) (name : string) : bool :=
  if decide (name = FeatPMS) then ModuleEnabled m ModuleHospitality
  else if decide (name = FeatPaidWiFi) then ModuleEnabled m ModulePaidAccess
  else if decide (name ∈ passthrough_features) then ModuleEnabled m name
  else false.

(** The nil map of the source reads as the empty one. *)
Definition Manager_AuthorizedModules (m : Manager) : gset string :=
  if negb (m_loaded m) || negb (empty (m_wrongDevice m)) then ∅
  else match ev_Doc (m_current m) with None => ∅ | Some d => AuthorizedModules d end.

Definition WrongHardware (m : Manager) : string :=
  if negb (m_loaded m) then "" else m_wrongDevice m.

Definition HasUsableLicense (m : Manager) : bool :=
  m_loaded m && empty (m_wrongDevice m) && bool_decide (is_Some (ev_Doc (m_current m))).

Definition nextFetchInterval (m : Manager) (slow : Duration) : Duration :=
  if negb (HasUsableLicense m) && (0 <? m_fastEvery m) && (m_fastEvery m <? slow)
  then m_fastEvery m else slow.

(** ** Installation and renewal *)

Definition other_customer : string :=
  "the licence is for a different customer or site than this appliance's signed assignment".

Definition install_binding (m : Manager) (pre : Document) : BindingResult * string :=
  let '(r, reason) := CheckInstallBinding pre (m_local m) in
  match r, m_assignmentLookup m with
  | BindingOK, Some (Some (tenant, site)) =>
      if bool_decide (TenantID pre ≠ tenant) || bool_decide (SiteID pre ≠ site)
      then (BindingWrongDevice, other_customer) else (r, reason)
  | _, _ => (r, reason)
  end.

(** [now] is the clock at the store write, [now'] at the re-evaluation. *)
Definition Manager_Install (raw : string) (now now' : Time) (s : system)
    : system * res mgr_error Document :=
  match m_store (mgr s) with
  | None => (s, Err NoVendorKey)
  | Some v =>
      match Store_Verify v raw with
      | Err e => (s, Err (StoreError e))
      | Ok pre =>
          let '(r, reason) := install_binding (mgr s) pre in
          if decide (r = BindingWrongDevice) then (s, Err (BoundElsewhere reason))
          else match Install v raw now (disk s) with
          | (w, Err e) => (set_disk s w, Err (StoreError e))
          | (w, Ok doc) => (Manager_Load now' (set_disk s w), Ok doc)
          end
      end
  end.

Definition ClockResetSkew : Duration := 10 * Minute.

Definition ResetClock (centralTime now now' : Time) (s : system) : system * res mgr_error Time :=
  match m_store (mgr s) with
  | None => (s, Err NoVendorKey)
  | Some _ =>
      match ResetHighWater centralTime now ClockResetSkew (disk s) with
      | (w, Err e) => (set_disk s w, Err (StoreError e))
      | (w, Ok old) => (Manager_Load now' (set_disk s w), Ok old)
      end
  end.

(** Central's answer to [GET /v1/appliance/license]. *)
Record cloud_reply := mkCloudReply {
  cr_Envelope : string;
  cr_Revoked : list string
}.
Inductive http_outcome :=
| HttpFailed
| HttpReply (code : Z) (body : option cloud_reply).

Fixpoint add_revocations (ids : list string) : IO () :=
  match ids with
  | [] => mret ()
  | id :: ids' => _ ← AddRevocation id; add_revocations ids'
  end.

Definition no_envelope (c : cloud_reply) : bool :=
  empty (cr_Envelope c) || bool_decide (cr_Envelope c = "null").

(** [signed]: the request could be signed.  [t1]..[t4]: the clock readings of the
    store write, its re-evaluation, the validation mark and the last re-evaluation. *)
Definition FetchFromCloud (applianceID : string) (signed : bool) (answer : http_outcome)
    (t1 t2 t3 t4 : Time) (s : system) : system * res mgr_error () :=
  match m_store (mgr s) with
  | None => (s, Err NoVendorKey)
  | Some v =>
      let s := set_mgr s (set_applianceID applianceID (mgr s)) in
      if negb signed then (s, Err SignFailed)
      else
        let viaMTLS := m_mtls (mgr s) in
        match answer with
        | HttpFailed => (s, Err TransportFailed)
        | HttpReply code body =>
            if (code =? 404)%Z || (code =? 204)%Z then (s, Err NoLicenseYet)
            else if negb (code =? 200)%Z then (s, Err (HTTPError code))
            else match body with
            | None => (s, Err BadReply)
            | Some c =>
                match (if viaMTLS then add_revocations (cr_Revoked c) (disk s)
                       else (disk s, Ok ())) with
                | (w, Err e) => (set_disk s w, Err (StoreError e))
                | (w, Ok _) =>
                    let s1 := set_disk s w in
                    if no_envelope c then
                      let s2 := if viaMTLS then set_disk s1 (MarkCloudValidated t3 (disk s1)).1
                                else s1 in
                      (Manager_Load t4 s2, Ok ())
                    else match Manager_Install (cr_Envelope c) t1 t2 s1 with
                    | (s2, Err e) => (s2, Err e)
                    | (s2, Ok _) =>
                        let s3 := set_disk s2 (MarkCloudValidated t3 (disk s2)).1 in
                        (Manager_Load t4 s3, Ok ())
                    end
                end
            end
        end
  end.
End manager.

(** ** Theorems: evaluation *)

Section manager_theorems.
Context {CR : Crypto} {LC : LicenseCodecs} {MR : MapRange} {UC : Unicode}.

Lemma CheckBinding_reason d local :
  (CheckBinding d local).1 = BindingWrongDevice → (CheckBinding d local).2 ≠ "".
Proof. unfold CheckBinding. intros Hr. repeat case_match; simplify_eq/=; done. Qed.

Lemma Store_Evaluate_None v now w w' ev :
  Store_Evaluate v now w = (w', (ev, None)) →
  ∃ d, Load v w = Ok d ∧ ev_Doc ev = Some d.
Proof.
  unfold Store_Evaluate. intros HE. repeat case_match; simplify_eq/=; eauto.
Qed.

Lemma syncLimits_mgr d s s' r : syncLimits d s = (s', r) → mgr s' = mgr s ∧ disk s' = disk s.
Proof. unfold syncLimits. intros HE. repeat case_match; by simplify_eq/=. Qed.

(** What a re-evaluation leaves behind, on each of its branches. *)
Lemma Manager_Load_spec v now s :
  m_store (mgr s) = Some v →
  let s' := Manager_Load now s in
  disk s' = (Store_Evaluate v now (disk s)).1 ∧
  m_store (mgr s') = Some v ∧ m_required (mgr s') = m_required (mgr s) ∧
  m_local (mgr s') = m_local (mgr s) ∧ m_mtls (mgr s') = m_mtls (mgr s) ∧
  ((m_loaded (mgr s') = false ∧ limits s' = limits s ∧
    ∃ e, (Store_Evaluate v now (disk s)).2.2 = Some e) ∨
   ∃ d, Load v (disk s) = Ok d ∧ m_loaded (mgr s') = true ∧
     m_current (mgr s') = (Store_Evaluate v now (disk s)).2.1 ∧
     ev_Doc (m_current (mgr s')) = Some d ∧
     let '(r, reason) := CheckBinding d (m_local (mgr s)) in
     m_wrongDevice (mgr s') = (if decide (r = BindingWrongDevice) then reason else "") ∧
     (r = BindingWrongDevice → limits s' = limits s)).
Proof.
  intros Hs. unfold Manager_Load. rewrite Hs.
  destruct (Store_Evaluate v now (disk s)) as [w [ev [e|]]] eqn:E; cbn zeta.
  { simpl. rewrite Hs. split_and!; try done. left. split_and!; eauto. }
  apply Store_Evaluate_None in E as (d & HL & Hd). rewrite Hd.
  pose proof (CheckBinding_reason d (m_local (mgr s))) as Hreason.
  destruct (CheckBinding d (m_local (mgr s))) as [r reason] eqn:Eb. simpl in Hreason.
  set (wrong := if decide (r = BindingWrongDevice) then reason else "").
  assert (r = BindingWrongDevice → empty wrong = false) as Hw.
  { intros Hr. unfold wrong. rewrite decide_True by done. apply empty_false; auto. }
  destruct (negb (empty wrong)) eqn:Ew.
  { simpl. rewrite Hs. split_and!; try done. right. exists d. rewrite Eb. by split_and!. }
  apply negb_false_iff in Ew.
  assert (r ≠ BindingWrongDevice) as Hnw by (intros Hr; rewrite Hw in Ew; done).
  destruct (decide (documentKey d = m_lastSynced (mgr s))).
  { simpl. rewrite Hs. split_and!; try done. right. exists d. rewrite Eb. by split_and!. }
  match goal with |- context [syncLimits d ?x] => destruct (syncLimits d x) as [s3 r3] eqn:Esy end.
  apply syncLimits_mgr in Esy as [Hm Hdk].
  destruct r3 as [[]|e]; simpl; rewrite ?Hm, ?Hdk; simpl; rewrite Hs;
    (split_and!; try done; right; exists d; rewrite Eb; by split_and!).
Qed.

Lemma not_loaded_denies m id :
  m_loaded m = false → m_required m = true →
  Manager_AllowsNewSessions m = false ∧ ModuleEnabled m id = false ∧
  Manager_MaxConcurrentOnlineGuests m = 0.
Proof.
  intros Hl Hr. unfold Manager_AllowsNewSessions, Manager_State, ModuleEnabled,
    Manager_MaxConcurrentOnlineGuests. by rewrite Hl, Hr.
Qed.

Lemma wrong_device_denies m id :
  m_loaded m = true → m_wrongDevice m ≠ "" →
  Manager_AllowsNewSessions m = false ∧ ModuleEnabled m id = false ∧
  Manager_MaxConcurrentOnlineGuests m = 0 ∧ Manager_AuthorizedModules m = ∅.
Proof.
  intros Hl Hw%empty_false. unfold Manager_AllowsNewSessions, Manager_State, ModuleEnabled,
    Manager_MaxConcurrentOnlineGuests, Manager_AuthorizedModules. rewrite Hl, Hw. simpl.
  by destruct (ev_Doc (m_current m)).
Qed.
End manager_theorems.

(** A production appliance fails closed.  After a re-evaluation, if the
    manager allows a new session, enables a module or grants any concurrent guest, then
    the store really loaded a licence from disk, that licence is not bound to another
    appliance, and the cached evaluation is the evaluation of that licence. *)
Theorem load_fails_closed {CR : Crypto} {LC : LicenseCodecs} {MR : MapRange} {UC : Unicode}
    (v : gmap string string) (now : Time) (s : system) (id : string) :
  m_store (mgr s) = Some v →
  m_required (mgr s) = true →
  let m := mgr (Manager_Load now s) in
  Manager_AllowsNewSessions m = true ∨ ModuleEnabled m id = true ∨
    Manager_MaxConcurrentOnlineGuests m ≠ 0 →
  ∃ d, Load v (disk s) = Ok d ∧ ev_Doc (m_current m) = Some d ∧
    m_current m = (Store_Evaluate v now (disk s)).2.1 ∧
    (CheckBinding d (m_local (mgr s))).1 ≠ BindingWrongDevice.
Proof.
  intros Hs Hreq m Hacts.
  destruct (Manager_Load_spec v now s Hs) as (_ & _ & Hr & _ & _ & [(Hl & _)|(d & HL & Hl & Hc & Hd & Hb)]).
  - destruct (not_loaded_denies m id Hl) as (H1 & H2 & H3); [by unfold m; rewrite Hr|].
    rewrite H1, H2, H3 in Hacts. naive_solver.
  - exists d. split_and!; try done. intros Hw.
    pose proof (CheckBinding_reason d _ Hw) as Hne.
    destruct (CheckBinding d (m_local (mgr s))) as [r reason]. simpl in Hw, Hne. subst r.
    destruct Hb as [Hb _]. rewrite decide_True in Hb by done.
    destruct (wrong_device_denies m id Hl) as (H1 & H2 & H3 & _); [by unfold m; rewrite Hb|].
    rewrite H1, H2, H3 in Hacts. naive_solver.
Qed.

(** A copied licence is inert.  In every build profile, when the licence on
    disk is bound to another appliance, a re-evaluation allows no session, no module and
    no guest, reports the reason and leaves the limits in the site database
    untouched. *)
Theorem foreign_licence_inert {CR : Crypto} {LC : LicenseCodecs} {MR : MapRange} {UC : Unicode}
    (v : gmap string string) (now : Time) (s : system) (w' : world) (ev : Evaluation)
    (d : Document) (id : string) :
  m_store (mgr s) = Some v →
  Store_Evaluate v now (disk s) = (w', (ev, None)) →
  ev_Doc ev = Some d →
  (CheckBinding d (m_local (mgr s))).1 = BindingWrongDevice →
  let s' := Manager_Load now s in
  Manager_AllowsNewSessions (mgr s') = false ∧ ModuleEnabled (mgr s') id = false ∧
  Manager_MaxConcurrentOnlineGuests (mgr s') = 0 ∧ Manager_AuthorizedModules (mgr s') = ∅ ∧
  WrongHardware (mgr s') = (CheckBinding d (m_local (mgr s))).2 ∧ limits s' = limits s.
Proof.
  intros Hs HE Hd Hw s'.
  destruct (Manager_Load_spec v now s Hs) as (_ & _ & _ & _ & _ & Hcases). rewrite HE in Hcases.
  destruct Hcases as [(_ & _ & e & [=])|(d' & _ & Hl & Hc & Hd' & Hb)].
  assert (d' = d) as -> by (simpl in Hc; rewrite Hc, Hd in Hd'; congruence).
  pose proof (CheckBinding_reason d _ Hw) as Hne.
  destruct (CheckBinding d (m_local (mgr s))) as [r reason]. simpl in Hw, Hne. subst r.
  destruct Hb as [Hb Hlim]. rewrite decide_True in Hb by done.
  destruct (wrong_device_denies (mgr s') id Hl) as (H1 & H2 & H3 & H4); [by unfold s'; rewrite Hb|].
  split_and!; try done; [|by apply Hlim].
  unfold WrongHardware, s'. by rewrite Hl, Hb.
Qed.

(** ** Theorems: what an unauthenticated channel cannot do *)

Section revocations_kept.
Context {CR : Crypto} {LC : LicenseCodecs} {MR : MapRange} {UC : Unicode}.

Definition keeps_revoked : world → world → Prop := same_at revokedFile.

#[export] Instance keeps_revoked_refl : Reflexive keeps_revoked.
Proof. by split. Qed.
#[export] Instance keeps_revoked_trans : Transitive keeps_revoked.
Proof. intros w1 w2 w3 [Ha Hb] [Hc Hd]. by split; etransitivity. Qed.

Lemma keeps_write name raw :
  revokedFile ≠ name → revokedFile ≠ prev name → prev revokedFile ≠ name →
  prev revokedFile ≠ prev name → preserves keeps_revoked (writeDurable name raw).
Proof. intros ???? w w' r HE. by eapply write_same_at. Qed.

Lemma keeps_writeState st : preserves keeps_revoked (writeState st).
Proof.
  unfold writeState. destruct (marshal st); [|auto with onegate typeclass_instances].
  apply keeps_write; vm_compute; discriminate.
Qed.

Lemma keeps_Install v raw now : preserves keeps_revoked (Install v raw now).
Proof.
  unfold Install.
  apply preserves_bind; [apply _|apply preserves_lift, _|intros env].
  apply preserves_bind; [apply _|apply preserves_lift, _|intros doc].
  apply preserves_bind; [apply _|apply preserves_reads, _|intros st].
  apply preserves_bind; [apply _|apply preserves_reads, _|intros rev]. cbn zeta.
  destruct (install_refused _ _ _ _); [apply preserves_fail, _|].
  apply preserves_bind; [apply _|apply keeps_write; vm_compute; discriminate|intros _].
  apply preserves_bind; [apply _|apply keeps_writeState|intros _]. apply preserves_ret, _.
Qed.

Lemma keeps_Mark now : preserves keeps_revoked (MarkCloudValidated now).
Proof.
  unfold MarkCloudValidated.
  apply preserves_bind; [apply _|apply preserves_reads, _|intros st]. apply keeps_writeState.
Qed.

Lemma keeps_Evaluate v now w : keeps_revoked w (Store_Evaluate v now w).1.
Proof.
  unfold Store_Evaluate. repeat case_match; simpl; try reflexivity;
  match goal with |- context [writeState ?x ?y] => destruct (writeState x y) as [w1 r1] eqn:Ew end;
  by apply keeps_writeState in Ew.
Qed.

Lemma keeps_Load now s : keeps_revoked (disk s) (disk (Manager_Load now s)).
Proof.
  destruct (m_store (mgr s)) as [v|] eqn:Hs; [|unfold Manager_Load; by rewrite Hs].
  destruct (Manager_Load_spec v now s Hs) as (-> & _). apply keeps_Evaluate.
Qed.

Lemma keeps_Manager_Install raw t t' s :
  keeps_revoked (disk s) (disk (Manager_Install raw t t' s).1).
Proof.
  unfold Manager_Install. destruct (m_store (mgr s)) as [v|]; [|done].
  destruct (Store_Verify v raw) as [pre|]; [|done].
  destruct (install_binding (mgr s) pre) as [r reason].
  destruct (decide (r = BindingWrongDevice)); [done|].
  destruct (Install v raw t (disk s)) as [w [doc|e]] eqn:E; apply keeps_Install in E; [|done].
  etransitivity; [exact E|]. apply (keeps_Load t' (set_disk s w)).
Qed.
End revocations_kept.

(** Revocations are only honoured over mutual TLS.  Without the client
    certificate, no answer of the remote side, however it is made up, changes the
    stored revocation list; a revocation-only answer does not even count as a
    validation by Central. *)
Theorem fetch_without_mtls_never_revokes
    {CR : Crypto} {LC : LicenseCodecs} {MR : MapRange} {UC : Unicode}
    (applianceID : string) (signed : bool) (answer : http_outcome) (t1 t2 t3 t4 : Time)
    (s : system) :
  m_mtls (mgr s) = false →
  let s' := (FetchFromCloud applianceID signed answer t1 t2 t3 t4 s).1 in
  readRevoked (disk s') = readRevoked (disk s) ∧
  (∀ c, answer = HttpReply 200 (Some c) → no_envelope c = true → signed = true →
     is_Some (m_store (mgr s)) →
     s' = Manager_Load t4 (set_mgr s (set_applianceID applianceID (mgr s)))).
Proof.
  intros Hm s'. split.
  - enough (keeps_revoked (disk s) (disk s')) as Hk
      by (unfold readRevoked; by rewrite (readFileOrPrev_ext _ _ _ _ Hk)).
    unfold s', FetchFromCloud. destruct (m_store (mgr s)); [|reflexivity].
    destruct signed; [|reflexivity]. destruct answer as [|code body]; [reflexivity|]. simpl.
    rewrite Hm. destruct (_ || _); [reflexivity|]. destruct (negb _); [reflexivity|].
    destruct body as [c|]; [|reflexivity]. destruct (no_envelope c).
    { apply (keeps_Load t4 (set_disk _ _)). }
    set (s1 := set_disk _ _).
    pose proof (keeps_Manager_Install (cr_Envelope c) t1 t2 s1) as Hi.
    destruct (Manager_Install (cr_Envelope c) t1 t2 s1) as [s2 [d|e]]; [|exact Hi].
    destruct (MarkCloudValidated t3 (disk s2)) as [w3 r3] eqn:E3. apply keeps_Mark in E3.
    etransitivity; [exact Hi|]. etransitivity; [exact E3|]. apply (keeps_Load t4 (set_disk s2 w3)).
  - intros c -> Hn -> [v Hv]. unfold s', FetchFromCloud. rewrite Hv. simpl. rewrite Hm, Hn.
    by destruct s as [m w l f].
Qed.

(** A licence for another appliance, customer or site is never written.
    When the strict install check or the signed assignment refuses the
    document, [Install] reports it and changes nothing: neither the disk, nor the
    manager, nor the limits. *)
Theorem install_refusal_changes_nothing
    {CR : Crypto} {LC : LicenseCodecs} {MR : MapRange} {UC : Unicode}
    (v : gmap string string) (raw : string) (t t' : Time) (s : system) (pre : Document) :
  m_store (mgr s) = Some v →
  Store_Verify v raw = Ok pre →
  (CheckInstallBinding pre (m_local (mgr s))).1 = BindingWrongDevice ∨
  ((CheckInstallBinding pre (m_local (mgr s))).1 = BindingOK ∧
   ∃ tenant site, m_assignmentLookup (mgr s) = Some (Some (tenant, site)) ∧
     (TenantID pre ≠ tenant ∨ SiteID pre ≠ site)) →
  ∃ reason, Manager_Install raw t t' s = (s, Err (BoundElsewhere reason)).
Proof.
  intros Hs Hv Hcase. unfold Manager_Install. rewrite Hs, Hv. unfold install_binding.
  destruct (CheckInstallBinding pre (m_local (mgr s))) as [r reason]. simpl in Hcase.
  destruct Hcase as [->|[-> (tenant & site & -> & Hne)]]; [by eexists|].
  assert (bool_decide (TenantID pre ≠ tenant) || bool_decide (SiteID pre ≠ site) = true) as ->.
  { apply orb_true_iff. destruct Hne; [left|right]; by apply bool_decide_eq_true_2. }
  by eexists.
Qed.

(** ** Theorems: the limits bridge *)

Section bridge.
Context {MR : MapRange}.

Lemma upsert_int_lookup k v t k' :
  upsert_int k v t !! k' =
  if decide (k = k') then Some (mkLimitRow "int" (Some v) (t !! k ≫= lr_bool) "license") else t !! k'.
Proof.
  unfold upsert_int. destruct (t !! k) eqn:E; rewrite lookup_insert; by case_decide.
Qed.

Lemma upsert_bool_lookup k v t k' :
  upsert_bool k v t !! k' =
  if decide (k = k') then Some (mkLimitRow "bool" (t !! k ≫= lr_int) (Some v) "license") else t !! k'.
Proof.
  unfold upsert_bool. destruct (t !! k) eqn:E; rewrite lookup_insert; by case_decide.
Qed.

(** Folding an upsert over distinct keys sets each of them and nothing else. *)
Lemma fold_upsert_other {V} (f : string → V → gmap string limit_row → gmap string limit_row)
    (l : list (string * V)) t k :
  (∀ k v t k', k ≠ k' → f k v t !! k' = t !! k') →
  k ∉ l.*1 → foldl (λ t '(k, v), f k v t) t l !! k = t !! k.
Proof.
  intros Hf. revert t. induction l as [|[k1 v1] l IH]; intros t Hk; simpl; [done|].
  simpl in Hk. apply not_elem_of_cons in Hk as [? ?]. rewrite IH by done. by apply Hf.
Qed.

Lemma fold_upsert_key {V} (f : string → V → gmap string limit_row → gmap string limit_row)
    (P : V → limit_row → Prop) (l : list (string * V)) t k v :
  (∀ k v t k', k ≠ k' → f k v t !! k' = t !! k') →
  (∀ k v t, ∃ r, f k v t !! k = Some r ∧ P v r) →
  NoDup l.*1 → (k, v) ∈ l →
  ∃ r, foldl (λ t '(k, v), f k v t) t l !! k = Some r ∧ P v r.
Proof.
  intros Hf HP. revert t. induction l as [|[k1 v1] l IH]; intros t Hnd Hin; simpl.
  - by apply not_elem_of_nil in Hin.
  - simpl in Hnd. apply NoDup_cons in Hnd as [Hni Hnd].
    apply elem_of_cons in Hin as [[= -> ->]|Hin]; [|by apply IH].
    rewrite fold_upsert_other by done. apply HP.
Qed.

Lemma upsert_int_other k v t k' : k ≠ k' → upsert_int k v t !! k' = t !! k'.
Proof. intros. by rewrite upsert_int_lookup, decide_False. Qed.
Lemma upsert_bool_other k v t k' : k ≠ k' → upsert_bool k v t !! k' = t !! k'.
Proof. intros. by rewrite upsert_bool_lookup, decide_False. Qed.

Lemma int_keys_nodup d : NoDup (int_limits d).*1.
Proof. refine (bool_decide_eq_true_1 _ _). simpl. vm_compute. reflexivity. Qed.
Lemma bool_keys_nodup d : NoDup (bool_limits d).*1.
Proof. refine (bool_decide_eq_true_1 _ _). simpl. vm_compute. reflexivity. Qed.

Lemma bridge_spec d t :
  (∀ k v, (k, v) ∈ int_limits d → ∃ r, bridge d t !! k = Some r ∧ lr_type r = "int" ∧
     lr_int r = Some v ∧ lr_source r = "license") ∧
  (∀ k v, (k, v) ∈ bool_limits d → ∃ r, bridge d t !! k = Some r ∧ lr_type r = "bool" ∧
     lr_bool r = Some v ∧ lr_source r = "license") ∧
  (∀ k, k ∉ (int_limits d).*1 → k ∉ (bool_limits d).*1 → bridge d t !! k = t !! k).
Proof.
  unfold bridge. split_and!.
  - intros k v Hin. rewrite (fold_upsert_other upsert_bool); [|apply upsert_bool_other|].
    + apply (fold_upsert_key upsert_int (λ v r, lr_type r = "int" ∧ lr_int r = Some v ∧
        lr_source r = "license")); [apply upsert_int_other| |apply int_keys_nodup|done].
      intros. eexists. rewrite upsert_int_lookup, decide_True by done. by split_and!.
    + intros Hk. pose proof (list_elem_of_fmap_2 fst _ _ Hin) as Hi. simpl in Hi, Hk. set_solver.
  - intros k v Hin.
    apply (fold_upsert_key upsert_bool (λ v r, lr_type r = "bool" ∧ lr_bool r = Some v ∧
        lr_source r = "license")); [apply upsert_bool_other| |apply bool_keys_nodup|done].
    intros. eexists. rewrite upsert_bool_lookup, decide_True by done. by split_and!.
  - intros k Hi Hb. rewrite (fold_upsert_other upsert_bool); [|apply upsert_bool_other|done].
    apply fold_upsert_other; [apply upsert_int_other|done].
Qed.
End bridge.

(** The limits bridge.  When a re-evaluation finds a licence of this
    appliance it has not bridged yet, one transaction sets exactly the six limit rows and
    the eight feature rows to the licence's values (0 or less becomes -1, a
    feature is on exactly when its module is authorised) and leaves every other row alone;
    when the transaction fails nothing changes and the licence stays due for the next
    re-evaluation. *)
Theorem load_bridges_limits {CR : Crypto} {LC : LicenseCodecs} {MR : MapRange} {UC : Unicode}
    (v : gmap string string) (now : Time) (s : system) (w' : world) (ev : Evaluation)
    (d : Document) :
  m_store (mgr s) = Some v →
  m_db (mgr s) = true →
  Store_Evaluate v now (disk s) = (w', (ev, None)) →
  ev_Doc ev = Some d →
  (CheckBinding d (m_local (mgr s))).1 ≠ BindingWrongDevice →
  documentKey d ≠ m_lastSynced (mgr s) →
  let s' := Manager_Load now s in
  if decide (head (dbFails s) = Some true) then
    limits s' = limits s ∧ m_lastSynced (mgr s') = m_lastSynced (mgr s)
  else
    m_lastSynced (mgr s') = documentKey d ∧
    (∀ k n, (k, n) ∈ int_limits d → ∃ r, limits s' !! k = Some r ∧ lr_int r = Some n) ∧
    (∀ k b, (k, b) ∈ bool_limits d → ∃ r, limits s' !! k = Some r ∧ lr_bool r = Some b) ∧
    (∀ k, k ∉ (int_limits d).*1 → k ∉ (bool_limits d).*1 → limits s' !! k = limits s !! k).
Proof.
  intros Hs Hdb HE Hd Hb Hk s'. unfold s', Manager_Load. rewrite Hs, HE, Hd. cbn zeta.
  destruct (CheckBinding d (m_local (mgr s))) as [r reason]. simpl in Hb.
  rewrite (decide_False (P := r = BindingWrongDevice)) by done. simpl.
  rewrite (decide_False (P := documentKey d = _)) by done.
  unfold syncLimits. simpl. rewrite Hdb. simpl.
  destruct (bridge_spec d (limits s)) as (Hi & Hbo & Ho).
  assert ((∀ k n, (k, n) ∈ int_limits d → ∃ r, bridge d (limits s) !! k = Some r ∧ lr_int r = Some n) ∧
    (∀ k b, (k, b) ∈ bool_limits d → ∃ r, bridge d (limits s) !! k = Some r ∧ lr_bool r = Some b))
    as [Hi' Hb'].
  { split; intros k x Hin; [destruct (Hi k x Hin) as (r' & ? & ? & ? & ?)
                           |destruct (Hbo k x Hin) as (r' & ? & ? & ? & ?)]; eauto. }
  destruct (dbFails s) as [|[] l]; simpl; [|done|]; by split_and!.
Qed.

(** ** Witnesses *)

#[local] Existing Instances Sample.crypto Sample.codecs elements_range ascii_unicode.

Module LicStateSample.
Definition blank_eval : Evaluation := mkEvaluation StateExpired None 0 0 false 0 false.
Definition manager (local : LocalIdentity) (mtls : bool) : Manager :=
  mkManager (Some Sample.verifier) true "app-1" local (Some (Some ("t-1", "s-1"))) "" "" true
    blank_eval false "" "" mtls Minute.
Definition sys (local : LocalIdentity) (mtls : bool) : system :=
  mkSystem (manager local mtls) StoreWitness.w1 ∅ [].
Definition stranger : LocalIdentity := mkLocalIdentity "app-2" "ff00" "sn-1" "hw" "".
End LicStateSample.

Lemma load_fails_closed_witness :
  ∃ d, Load Sample.verifier StoreWitness.w1 = Ok d ∧
    (CheckBinding d sample_identity).1 ≠ BindingWrongDevice.
Proof.
  destruct (load_fails_closed Sample.verifier (1100 * Day)
              (LicStateSample.sys sample_identity false) ModuleRoomCharge)
    as (d & HL & _ & _ & Hb).
  - reflexivity.
  - reflexivity.
  - left. vm_compute. reflexivity.
  - exists d. split; [exact HL|exact Hb].
Defined.

Lemma foreign_licence_inert_witness :
  Manager_AllowsNewSessions (mgr (Manager_Load (1100 * Day)
    (LicStateSample.sys LicStateSample.stranger false))) = false.
Proof.
  destruct (foreign_licence_inert Sample.verifier (1100 * Day)
           (LicStateSample.sys LicStateSample.stranger false)
           (Store_Evaluate Sample.verifier (1100 * Day) StoreWitness.w1).1
           (Store_Evaluate Sample.verifier (1100 * Day) StoreWitness.w1).2.1 sample_doc "ha")
    as (Hr & _); [| | | |exact Hr].
  - reflexivity.
  - vm_compute. reflexivity.
  - vm_compute. reflexivity.
  - vm_compute. reflexivity.
Defined.

(** A forged answer over plain TLS tries to revoke the installed licence. *)
Lemma fetch_without_mtls_never_revokes_witness :
  let s := LicStateSample.sys sample_identity false in
  readRevoked (disk (FetchFromCloud "app-1" true
    (HttpReply 200 (Some (mkCloudReply "null" ["lic-1"]))) 0 0 0 (1100 * Day) s).1)
  = readRevoked (disk s).
Proof.
  intros s. destruct (fetch_without_mtls_never_revokes "app-1" true
    (HttpReply 200 (Some (mkCloudReply "null" ["lic-1"]))) 0 0 0 (1100 * Day) s) as [Hr _];
    [reflexivity|exact Hr].
Defined.

Lemma install_refusal_changes_nothing_witness :
  ∃ reason, Manager_Install "{e8}" (1200 * Day) (1200 * Day)
    (LicStateSample.sys LicStateSample.stranger false)
  = (LicStateSample.sys LicStateSample.stranger false, Err (BoundElsewhere reason)).
Proof.
  apply (install_refusal_changes_nothing Sample.verifier "{e8}" (1200 * Day) (1200 * Day)
           (LicStateSample.sys LicStateSample.stranger false) Sample.next_doc).
  - reflexivity.
  - vm_compute. reflexivity.
  - left. vm_compute. reflexivity.
Defined.

Lemma load_bridges_limits_witness :
  m_lastSynced (mgr (Manager_Load (1100 * Day) (LicStateSample.sys sample_identity false)))
  = documentKey sample_doc.
Proof.
  destruct (load_bridges_limits Sample.verifier (1100 * Day) (LicStateSample.sys sample_identity false)
           (Store_Evaluate Sample.verifier (1100 * Day) StoreWitness.w1).1
           (Store_Evaluate Sample.verifier (1100 * Day) StoreWitness.w1).2.1 sample_doc)
    as (Hr & _); [| | | | | |exact Hr].
  - reflexivity.
  - reflexivity.
  - vm_compute. reflexivity.
  - vm_compute. reflexivity.
  - vm_compute. discriminate.
  - vm_compute. discriminate.
Defined.
