(* ===== verification/Modules.v ===== *)
(** The deployment ceiling and the module resolver:
    [data-plane/internal/deployment] and [data-plane/internal/modules].

    A module may execute only when it is deployed, licensed, enabled and ready,
    and when every module it requires may execute.  The licence is seen through
    the interface [Licence] of resolver.go, which the licence manager implements. *)
From S2P Require Import Prelude GoStrings LicenseDoc LicenseStore LicState.

(** ** Deployment flags *)

(** internal/iamv2/commerce_config.go *)
Record CommerceConfig := mkCommerceConfig {
  cc_MasterEnabled : bool;
  cc_PortalEnabled : bool;
  cc_AdminEnabled : bool
}.
Definition cc_PortalOn (c : CommerceConfig) : bool := cc_MasterEnabled c && cc_PortalEnabled c.
Definition cc_AdminOn (c : CommerceConfig) : bool := cc_MasterEnabled c && cc_AdminEnabled c.

(** internal/payment/payment.go *)
Record PaymentConfig := mkPaymentConfig {
  pc_MasterEnabled : bool;
  pc_PaymentEnabled : bool;
  pc_ProviderEnabled : bool;
  pc_RecheckEnabled : bool
}.
Definition pc_DomainOn (c : PaymentConfig) : bool := pc_MasterEnabled c && pc_PaymentEnabled c.
Definition pc_ProviderOn (c : PaymentConfig) : bool :=
  pc_MasterEnabled c && pc_PaymentEnabled c && pc_ProviderEnabled c.
Definition pc_RecheckOn (c : PaymentConfig) : bool := pc_ProviderOn c && pc_RecheckEnabled c.

(** internal/posting/config.go *)
Record PostingConfig := mkPostingConfig {
  po_MasterEnabled : bool;
  po_PostingEnabled : bool;
  po_OutboxEnabled : bool;
  po_TransmitEnabled : bool;
  po_ReviewEnabled : bool
}.
Definition PostingOn (c : PostingConfig) : bool := po_MasterEnabled c && po_PostingEnabled c.
Definition OutboxOn (c : PostingConfig) : bool := po_MasterEnabled c && po_OutboxEnabled c.
Definition ReviewOn (c : PostingConfig) : bool := po_MasterEnabled c && po_ReviewEnabled c.
Definition TransmitOn (c : PostingConfig) : bool :=
  po_MasterEnabled c && po_OutboxEnabled c && po_TransmitEnabled c.
Definition Dark (c : PostingConfig) : bool := negb (TransmitOn c).

Definition anyChildSet (c : PostingConfig) : bool :=
  po_PostingEnabled c || po_OutboxEnabled c || po_TransmitEnabled c || po_ReviewEnabled c.

Inductive config_error := NotABoolean (name : string) | ChildWithoutMaster | TransmitWithoutOutbox.

Definition PostingConfig_Validate (c : PostingConfig) : res config_error () :=
  if negb (po_MasterEnabled c) && anyChildSet c then Err ChildWithoutMaster
  else if po_TransmitEnabled c && negb (po_OutboxEnabled c) then Err TransmitWithoutOutbox
  else Ok ().

(** [strconv.ParseBool]. *)
Definition ParseBool (s : string) : option bool :=
  if decide (s ∈ ["1"; "t"; "T"; "TRUE"; "true"; "True"]) then Some true
  else if decide (s ∈ ["0"; "f"; "F"; "FALSE"; "false"; "False"]) then Some false
  else None.

Definition parseBoolStrict (name raw : string) : res config_error bool :=
  let s := TrimSpace raw in
  if empty s then Ok false
  else match ParseBool s with Some v => Ok v | None => Err (NotABoolean name) end.

Definition EnvPhase4Master : string := "STAYCONNECT_PHASE4_MASTER".
Definition EnvPhase4Posting : string := "STAYCONNECT_PHASE4_POSTING".
Definition EnvPhase4Outbox : string := "STAYCONNECT_PHASE4_OUTBOX_WORKER".
Definition EnvPhase4Transmit : string := "STAYCONNECT_PHASE4_PMS_TRANSMIT".
Definition EnvPhase4Review : string := "STAYCONNECT_PHASE4_FINANCIAL_REVIEW".

Definition PostingConfig_Load (get : string → string) : res config_error PostingConfig :=
  m ← parseBoolStrict EnvPhase4Master (get EnvPhase4Master);
  p ← parseBoolStrict EnvPhase4Posting (get EnvPhase4Posting);
  o ← parseBoolStrict EnvPhase4Outbox (get EnvPhase4Outbox);
  t ← parseBoolStrict EnvPhase4Transmit (get EnvPhase4Transmit);
  r ← parseBoolStrict EnvPhase4Review (get EnvPhase4Review);
  let c := mkPostingConfig m p o t r in
  _ ← PostingConfig_Validate c;
  mret c.

(** ** The ceiling (ceiling.go) *)

Inductive Capability :=
| CapClientPackages | CapPackageAdmin | CapHospitality | CapPaidAccess
| CapCardPayment | CapCardProviderCalls | CapCardLive | CapCardLateRecheck
| CapRoomChargeConfig | CapRoomChargeReview | CapRoomChargeTransmit
| CapOTPSignIn | CapSocialSignIn | CapEmailAccounts.

Record Ceiling := mkCeiling {
  ce_commerce : CommerceConfig;
  ce_pmsMaster : bool;              (* PMSConfig.MasterEnabled *)
  ce_pay : PaymentConfig;
  ce_post : PostingConfig;
  ce_liveAllowed : bool;
  ce_otp : bool;
  ce_social : bool;
  ce_account : bool
}.

Definition Ceiling_New (commerce : CommerceConfig) (pmsMaster : bool) (pay : PaymentConfig)
    (post : PostingConfig) (liveAllowed : bool) : Ceiling :=
  mkCeiling commerce pmsMaster pay post (liveAllowed && pc_ProviderOn pay) false false false.

Definition WithIdentity (c : Ceiling) (otp social : bool) : Ceiling :=
  mkCeiling (ce_commerce c) (ce_pmsMaster c) (ce_pay c) (ce_post c) (ce_liveAllowed c)
    otp social (ce_account c).

Definition WithAccounts (c : Ceiling) (account : bool) : Ceiling :=
  mkCeiling (ce_commerce c) (ce_pmsMaster c) (ce_pay c) (ce_post c) (ce_liveAllowed c)
    (ce_otp c) (ce_social c) account.

Definition Available (c : Ceiling) (cp : Capability) : bool :=
  match cp with
  | CapClientPackages => cc_PortalOn (ce_commerce c)
  | CapPackageAdmin => cc_AdminOn (ce_commerce c)
  | CapHospitality => ce_pmsMaster c
  | CapPaidAccess => cc_MasterEnabled (ce_commerce c)
  | CapCardPayment => pc_DomainOn (ce_pay c) && cc_PortalOn (ce_commerce c)
  | CapCardProviderCalls => pc_ProviderOn (ce_pay c) && cc_PortalOn (ce_commerce c)
  | CapCardLive => ce_liveAllowed c && pc_ProviderOn (ce_pay c)
  | CapCardLateRecheck => pc_RecheckOn (ce_pay c) && cc_PortalOn (ce_commerce c)
  | CapRoomChargeConfig => PostingOn (ce_post c) && ce_pmsMaster c
  | CapRoomChargeReview => ReviewOn (ce_post c)
  | CapRoomChargeTransmit => TransmitOn (ce_post c) && PostingOn (ce_post c)
  | CapOTPSignIn => ce_otp c
  | CapSocialSignIn => ce_social c
  | CapEmailAccounts => ce_account c
  end.

Definition ModuleDeployed (c : Ceiling) (id : string) : bool :=
  if decide (id = ModuleHospitality) then Available c CapHospitality
  else if decide (id = ModulePaidAccess) then Available c CapPaidAccess
  else if decide (id = ModuleCardPayment) then Available c CapCardPayment
  else if decide (id = ModuleRoomCharge) then Available c CapRoomChargeConfig
  else if decide (id = ModuleEmailOTP) then Available c CapEmailAccounts
  else if decide (id ∈ [ModuleSMSOTP; ModuleWhatsAppOTP]) then Available c CapOTPSignIn
  else if decide (id = ModuleSocialLogin) then Available c CapSocialSignIn
  else if decide (id ∈ [ModuleHA; ModuleWhiteLabel]) then false
  else bool_decide (is_Some (LookupModule id)).

(** ** The resolver (resolver.go) *)

(** What the resolver asks of a licence. *)
Record Licence := mkLicence {
  l_ModuleEnabled : string → bool;
  l_AuthorizedModules : gset string
}.

(** What a licence promises: an enabled module is authorised, and what is
    authorised is closed under dependencies. *)
Class LicenceOk (l : Licence) : Prop := {
  enabled_authorized id : l_ModuleEnabled l id = true → id ∈ l_AuthorizedModules l;
  authorized_closed : dep_closed (l_AuthorizedModules l)
}.

Definition ReasonNotDeployed : string := "NOT_DEPLOYED".
Definition ReasonNotLicensed : string := "NOT_LICENSED".
Definition ReasonLicenceInactive : string := "LICENCE_NOT_ACTIVE".
Definition ReasonDependency : string := "DEPENDENCY_NOT_EFFECTIVE".
Definition ReasonDisabledBySite : string := "DISABLED_BY_SITE".
Definition ReasonLocalUnknown : string := "LOCAL_STATE_UNAVAILABLE".
Definition ReasonNotReady : string := "NOT_READY".

Definition switchable (id : string) : bool :=
  bool_decide (id ∈ [ModuleHospitality; ModulePaidAccess; ModuleCardPayment; ModuleRoomCharge]).
Definition identity (id : string) : bool :=
  bool_decide (id ∈ [ModuleSMSOTP; ModuleWhatsAppOTP; ModuleEmailOTP; ModuleSocialLogin]).

(** Probes and switch sources answer for one tenant and site; [None] is an
    error of the source, a missing source is [None] in the record. *)
Record Resolver := mkResolver {
  r_Ceiling : Ceiling;
  r_Licence : option Licence;
  r_Local : option (string → string → option (gmap string bool));
  r_Identity : option (string → option (gmap string bool));
  r_probes : gmap string (string → string → bool * list string);
  r_records : gmap string (string → string → bool)
}.

Record ModState := mkModState {
  st_ID : string;
  st_Label : string;
  st_Requires : list string;
  st_Deployed : bool;
  st_Authorized : bool;
  st_Licensed : bool;
  st_Switchable : bool;
  st_Enabled : bool;
  st_Ready : bool;
  st_Effective : bool;
  st_Manageable : bool;
  st_Reasons : list string;
  st_Readiness : list string
}.

(** [m[k]] of a [map[string]bool]. *)
Definition lookup_bool (m : gmap string bool) (k : string) : bool := default false (m !! k).

Definition site_switches (r : Resolver) (tenant site : string) : option (gmap string bool) :=
  match r_Local r with
  | Some f => if negb (empty tenant) && negb (empty site) then f tenant site else None
  | None => None
  end.
Definition identity_switches (r : Resolver) (tenant : string) : option (gmap string bool) :=
  match r_Identity r with
  | Some f => if negb (empty tenant) then f tenant else None
  | None => None
  end.

Definition when (b : bool) (reason : string) : list string := if b then [reason] else [].

(** The first loop's body: the four gates of one registered module. *)
Definition resolve_one (r : Resolver) (tenant site : string)
    (lcl ids : option (gmap string bool)) (spec : ModuleSpec) : ModState :=
  let id := ms_ID spec in
  let deployed := ModuleDeployed (r_Ceiling r) id in
  let authorized := match r_Licence r with
                    | Some l => bool_decide (id ∈ l_AuthorizedModules l) | None => false end in
  let licensed := match r_Licence r with Some l => l_ModuleEnabled l id | None => false end in
  let enabled :=
    if switchable id then match lcl with Some m => lookup_bool m id | None => false end
    else if identity id then match ids with Some m => lookup_bool m id | None => false end
    else licensed in
  let unknown :=
    if switchable id then bool_decide (lcl = None)
    else if identity id then bool_decide (ids = None) else false in
  let '(ready, details) :=
    match r_probes r !! id with
    | Some p => if deployed && licensed then p tenant site else (false, [])
    | None => (true, [])
    end in
  let probed := match r_probes r !! id with Some _ => deployed && licensed | None => false end in
  let hasRecords :=
    match r_records r !! id with
    | Some rp => if deployed && negb licensed then rp tenant site else false
    | None => false
    end in
  {| st_ID := id; st_Label := ms_Label spec; st_Requires := ms_Requires spec;
     st_Deployed := deployed; st_Authorized := authorized; st_Licensed := licensed;
     st_Switchable := switchable id; st_Enabled := enabled; st_Ready := ready;
     st_Effective := deployed && licensed && enabled && ready;
     st_Manageable := deployed && (licensed || hasRecords);
     st_Reasons :=
       when (negb deployed) ReasonNotDeployed
       ++ when (negb authorized && negb licensed) ReasonNotLicensed
       ++ when (authorized && negb licensed) ReasonLicenceInactive
       ++ when unknown ReasonLocalUnknown
       ++ when (negb enabled && (switchable id || identity id)
                && bool_decide (is_Some lcl) && bool_decide (is_Some ids)) ReasonDisabledBySite
       ++ when (probed && negb ready && enabled) ReasonNotReady;
     st_Readiness := details |}.

Abbreviation Snapshot := (gmap string ModState).

Definition Snapshot_Effective (s : Snapshot) (id : string) : bool :=
  match s !! id with Some st => st_Effective st | None => false end.
Definition Snapshot_Manageable (s : Snapshot) (id : string) : bool :=
  match s !! id with Some st => st_Manageable st | None => false end.

Definition disable (st : ModState) (dep : string) : ModState :=
  mkModState (st_ID st) (st_Label st) (st_Requires st) (st_Deployed st) (st_Authorized st)
    (st_Licensed st) (st_Switchable st) (st_Enabled st) (st_Ready st) false (st_Manageable st)
    (st_Reasons st ++ [ReasonDependency +:+ ":" +:+ dep]) (st_Readiness st).

Fixpoint first_ineffective (s : Snapshot) (deps : list string) : option string :=
  match deps with
  | [] => None
  | dep :: deps' => if Snapshot_Effective s dep then first_ineffective s deps' else Some dep
  end.

Definition dep_step (acc : Snapshot * bool) (id : string) : Snapshot * bool :=
  let '(out, changed) := acc in
  match out !! id with
  | Some st =>
      if negb (st_Effective st) then (out, changed)
      else match first_ineffective out (st_Requires st) with
      | Some dep => (<[id := disable st dep]> out, true)
      | None => (out, changed)
      end
  | None => (out, changed)
  end.

Section resolve.
Context {MR : MapRange}.

Fixpoint dep_loop (fuel n : nat) (out : Snapshot) : Snapshot :=
  match fuel with
  | O => out
  | S fuel' =>
      let '(out', changed) := foldl dep_step (out, false) (range n (dom out)) in
      if changed then dep_loop fuel' (S n) out' else out'
  end.

Definition sort_reasons (st : ModState) : ModState :=
  mkModState (st_ID st) (st_Label st) (st_Requires st) (st_Deployed st) (st_Authorized st)
    (st_Licensed st) (st_Switchable st) (st_Enabled st) (st_Ready st) (st_Effective st)
    (st_Manageable st) (sort_Strings (st_Reasons st)) (st_Readiness st).

Definition base_snapshot (r : Resolver) (tenant site : string) : Snapshot :=
  foldl (λ out spec, <[ms_ID spec := resolve_one r tenant site (site_switches r tenant site)
                                       (identity_switches r tenant) spec]> out) ∅ Registry.

(** Every pass that changes the snapshot switches a module off. *)
Definition Resolve (r : Resolver) (tenant site : string) : Snapshot :=
  let base := base_snapshot r tenant site in
  sort_reasons <$> dep_loop (S (size base)) 0 base.
End resolve.

(** ** Theorems: the dependency loop *)

(** Two states of a module that differ at most in [Effective] and [Reasons]. *)
Definition same_gates (a b : ModState) : Prop :=
  st_Requires a = st_Requires b ∧ st_Deployed a = st_Deployed b ∧ st_Licensed a = st_Licensed b ∧
  st_Enabled a = st_Enabled b ∧ st_Ready a = st_Ready b ∧ st_Manageable a = st_Manageable b.

#[export] Instance same_gates_refl : Reflexive same_gates.
Proof. intros a. by unfold same_gates. Qed.
#[export] Instance same_gates_trans : Transitive same_gates.
Proof. intros a b c. unfold same_gates. intros; destruct_and!; split_and!; congruence. Qed.

(** Module-wise, for snapshots. *)
Definition same_modules (s s' : Snapshot) : Prop :=
  ∀ id, option_Forall2 same_gates (s !! id) (s' !! id).

#[export] Instance same_modules_refl : Reflexive same_modules.
Proof. intros s id. reflexivity. Qed.
#[export] Instance same_modules_trans : Transitive same_modules.
Proof.
  intros s1 s2 s3 H1 H2 id. specialize (H1 id). specialize (H2 id).
  destruct H1; inversion H2; subst; constructor. by etransitivity.
Qed.

(** A snapshot whose entries carry the registry's dependencies. *)
Definition registered (s : Snapshot) : Prop :=
  ∀ id st, s !! id = Some st → st_Requires st = Requires id.

Lemma registered_same s s' : same_modules s s' → registered s → registered s'.
Proof.
  intros Hs Hr id st' Hl. specialize (Hs id). rewrite Hl in Hs. inversion Hs as [st ? Hg Hst|]; subst.
  rewrite <- (Hr id st); [|done]. symmetry. apply Hg.
Qed.

Definition effs (s : Snapshot) : gset string := filter (λ id, Snapshot_Effective s id = true) (dom s).

Lemma elem_of_effs s id : id ∈ effs s ↔ Snapshot_Effective s id = true.
Proof.
  unfold effs, Snapshot_Effective. rewrite elem_of_filter, elem_of_dom.
  destruct (s !! id); naive_solver.
Qed.

Lemma first_ineffective_None s deps :
  first_ineffective s deps = None ↔ ∀ dep, dep ∈ deps → dep ∈ effs s.
Proof.
  induction deps as [|d deps IH]; simpl; [set_solver|].
  destruct (Snapshot_Effective s d) eqn:E.
  - rewrite IH. apply elem_of_effs in E. set_solver.
  - split; [done|]. intros Hall. specialize (Hall d). rewrite elem_of_effs, E in Hall. set_solver.
Qed.

Lemma first_ineffective_Some s deps d :
  first_ineffective s deps = Some d → d ∈ deps ∧ d ∉ effs s.
Proof.
  induction deps as [|x deps IH]; simpl; [done|].
  destruct (Snapshot_Effective s x) eqn:E; intros Hd.
  - destruct (IH Hd). set_solver.
  - injection Hd as ->. rewrite elem_of_effs, E. set_solver.
Qed.

(** One module of one pass. *)
Lemma dep_step_spec out ch id out' ch' :
  registered out → dep_step (out, ch) id = (out', ch') →
  same_modules out out' ∧ effs out' ⊆ effs out ∧
  (ch' = false → ch = false ∧ out' = out ∧
     (id ∈ effs out → ∀ dep, dep ∈ Requires id → dep ∈ effs out)) ∧
  (ch' = true → ch = true ∨ (id ∈ effs out ∧ id ∉ effs out')) ∧
  (∀ s, s ⊆ effs out → dep_closed s → s ⊆ effs out').
Proof.
  intros Hr. unfold dep_step.
  assert (Hnop : id ∉ effs out ∨ (∀ dep, dep ∈ Requires id → dep ∈ effs out) →
    (out, ch) = (out', ch') → same_modules out out' ∧ effs out' ⊆ effs out ∧
    (ch' = false → ch = false ∧ out' = out ∧
       (id ∈ effs out → ∀ dep, dep ∈ Requires id → dep ∈ effs out)) ∧
    (ch' = true → ch = true ∨ (id ∈ effs out ∧ id ∉ effs out')) ∧
    (∀ s, s ⊆ effs out → dep_closed s → s ⊆ effs out')).
  { intros Hor [= <- <-]. split_and!; [reflexivity|done| |by left|done].
    intros ->. split_and!; [done|done|]. by destruct Hor. }
  destruct (out !! id) as [st|] eqn:El.
  2: { apply Hnop. left. rewrite elem_of_effs. unfold Snapshot_Effective. by rewrite El. }
  destruct (st_Effective st) eqn:Ee; simpl.
  2: { apply Hnop. left. rewrite elem_of_effs. unfold Snapshot_Effective. by rewrite El, Ee. }
  destruct (first_ineffective out (st_Requires st)) as [d|] eqn:Ef.
  2: { apply Hnop. right. rewrite <- (Hr _ _ El). by apply first_ineffective_None. }
  apply first_ineffective_Some in Ef as [Hd Hne]. rewrite (Hr _ _ El) in Hd.
  intros [= <- <-].
  assert (effs (<[id := disable st d]> out) = effs out ∖ {[id]}) as Heff.
  { apply set_eq. intros x. rewrite elem_of_difference, !elem_of_effs. unfold Snapshot_Effective.
    rewrite lookup_insert. case_decide; subst; simpl; set_solver. }
  rewrite Heff. split_and!; [|set_solver|done| |].
  - intros x. rewrite lookup_insert. case_decide as Hx; [subst|reflexivity]. rewrite El.
    constructor. by unfold same_gates.
  - intros _. right. split; [|set_solver]. rewrite elem_of_effs. unfold Snapshot_Effective. by rewrite El.
  - intros s Hs Hcl. assert (id ∉ s) by (intros Hid; apply Hne, Hs, (Hcl id); done). set_solver.
Qed.

Lemma dep_pass_spec keys out ch out' ch' :
  registered out → foldl dep_step (out, ch) keys = (out', ch') →
  same_modules out out' ∧ effs out' ⊆ effs out ∧
  (ch' = false → ch = false ∧ out' = out ∧
     ∀ id, id ∈ keys → id ∈ effs out → ∀ dep, dep ∈ Requires id → dep ∈ effs out) ∧
  (ch' = true → ch = true ∨ ∃ id, id ∈ effs out ∧ id ∉ effs out') ∧
  (∀ s, s ⊆ effs out → dep_closed s → s ⊆ effs out').
Proof.
  revert out ch. induction keys as [|k keys IH]; intros out ch Hr; cbn [foldl].
  - intros [= <- <-]. split_and!; [reflexivity|done| |by left|done]. intros ->. set_solver.
  - destruct (dep_step (out, ch) k) as [o1 c1] eqn:E1. intros E.
    destruct (dep_step_spec _ _ _ _ _ Hr E1) as (Hm1 & Hs1 & Hf1 & Ht1 & Hg1).
    destruct (IH o1 c1 (registered_same _ _ Hm1 Hr) E) as (Hm & Hs & Hf & Ht & Hg).
    split_and!.
    + by etransitivity.
    + by etransitivity.
    + intros ->. destruct (Hf eq_refl) as (-> & -> & Hk). destruct (Hf1 eq_refl) as (-> & -> & Hk1).
      split_and!; [done|done|]. intros id [->|Hid]%elem_of_cons; [exact Hk1|exact (Hk id Hid)].
    + intros ->. destruct (Ht eq_refl) as [->|(i & ? & ?)].
      * destruct (Ht1 eq_refl) as [->|[??]]; [by left|right]. exists k. split; [done|]. intros Hk. by apply Hs in Hk.
      * right. exists i. split; [by apply Hs1|done].
    + intros s Hss Hcl. apply Hg; [|done]. by apply Hg1.
Qed.

Lemma dep_loop_spec {MR : MapRange} fuel n out :
  registered out → (size (effs out) < fuel)%nat →
  let out' := dep_loop fuel n out in
  same_modules out out' ∧ effs out' ⊆ effs out ∧ dep_closed (effs out') ∧
  ∀ s, s ⊆ effs out → dep_closed s → s ⊆ effs out'.
Proof.
  revert n out. induction fuel as [|fuel IH]; intros n out Hr Hsz; [lia|]. simpl.
  destruct (foldl dep_step (out, false) (range n (dom out))) as [o1 c1] eqn:E.
  destruct (dep_pass_spec _ _ _ _ _ Hr E) as (Hm & Hs & Hf & Ht & Hg). destruct c1.
  - destruct (Ht eq_refl) as [|(id & Hid & Hni)]; [done|].
    assert (size (effs o1) < size (effs out))%nat by (apply subset_size; set_solver).
    destruct (IH (S n) o1 (registered_same _ _ Hm Hr)) as (Hm' & Hs' & Hc' & Hg'); [lia|].
    split_and!; [by etransitivity|by etransitivity|done|]. intros s ??. auto.
  - destruct (Hf eq_refl) as (_ & -> & Hk). split_and!; [reflexivity|done| |done].
    intros id dep Hid. apply Hk; [|done]. rewrite elem_of_range.
    unfold effs in Hid. by apply elem_of_filter in Hid as [_ ?].
Qed.

(** ** Theorems: the resolver *)

Lemma find_module_Some l id m : find_module l id = Some m → ms_ID m = id ∧ m ∈ l.
Proof.
  induction l as [|x l IH]; simpl; [done|]. case_decide; [intros [= <-]; set_solver|].
  intros Hm. destruct (IH Hm). set_solver.
Qed.

Lemma fold_insert_lookup (g : ModuleSpec → ModState) l (s : Snapshot) id :
  NoDup (ms_ID <$> l) →
  foldl (λ out spec, <[ms_ID spec := g spec]> out) s l !! id =
  match find_module l id with Some m => Some (g m) | None => s !! id end.
Proof.
  revert s. induction l as [|m l IH]; intros s; simpl; [done|].
  intros [Hni Hnd]%NoDup_cons. rewrite IH by done. case_decide as Hd.
  - subst. destruct (find_module l (ms_ID m)) as [m'|] eqn:Ef; [|by rewrite lookup_insert_eq].
    apply find_module_Some in Ef as [Hid Hin]. destruct Hni. rewrite <- Hid.
    by apply list_elem_of_fmap_2.
  - destruct (find_module l id); [done|]. by rewrite lookup_insert_ne.
Qed.

Lemma registry_nodup : NoDup (ms_ID <$> registry).
Proof. refine (bool_decide_eq_true_1 _ _). vm_compute. reflexivity. Qed.

Lemma base_lookup r tenant site id :
  base_snapshot r tenant site !! id =
  resolve_one r tenant site (site_switches r tenant site) (identity_switches r tenant)
    <$> LookupModule id.
Proof.
  unfold base_snapshot, Registry, LookupModule. rewrite fold_insert_lookup by apply registry_nodup.
  by destruct (find_module registry id).
Qed.

(** Open [resolve_one]: only the probe's answer has to be split. *)
Ltac open_resolve :=
  unfold resolve_one;
  match goal with |- context [let '(_, _) := ?x in _] => destruct x end; simpl.

Lemma base_registered r tenant site : registered (base_snapshot r tenant site).
Proof.
  intros id st. rewrite base_lookup. unfold Requires.
  intros (m & Hm & ->)%fmap_Some. rewrite Hm. by open_resolve.
Qed.

(** The four gates of one module, before its dependencies are considered. *)
Definition gates (st : ModState) : bool :=
  st_Deployed st && st_Licensed st && st_Enabled st && st_Ready st.

Lemma resolve_one_effective r tenant site lcl ids spec :
  st_Effective (resolve_one r tenant site lcl ids spec) =
  gates (resolve_one r tenant site lcl ids spec).
Proof. unfold gates. by open_resolve. Qed.

Section resolve_theorems.
Context {MR : MapRange}.

Lemma sort_reasons_effective (s : Snapshot) id :
  Snapshot_Effective (sort_reasons <$> s) id = Snapshot_Effective s id ∧
  Snapshot_Manageable (sort_reasons <$> s) id = Snapshot_Manageable s id.
Proof.
  unfold Snapshot_Effective, Snapshot_Manageable. rewrite lookup_fmap. by destruct (s !! id).
Qed.

Lemma Resolve_spec r tenant site :
  let base := base_snapshot r tenant site in
  let out := Resolve r tenant site in
  (∀ id, Snapshot_Effective out id = true → Snapshot_Effective base id = true) ∧
  (∀ id dep, Snapshot_Effective out id = true → dep ∈ Requires id →
     Snapshot_Effective out dep = true) ∧
  (∀ s, (∀ x, x ∈ s → Snapshot_Effective base x = true) → dep_closed s →
     ∀ x, x ∈ s → Snapshot_Effective out x = true) ∧
  (∀ id, Snapshot_Manageable out id = Snapshot_Manageable base id).
Proof.
  intros base out.
  destruct (dep_loop_spec (S (size base)) 0 base) as (Hm & Hs & Hc & Hg).
  { apply base_registered. }
  { rewrite Nat.lt_succ_r, <- size_dom. apply subseteq_size. unfold effs. set_solver. }
  assert (∀ id, Snapshot_Effective out id = true ↔ id ∈ effs (dep_loop (S (size base)) 0 base)) as Hout.
  { intros id. rewrite elem_of_effs. unfold out, Resolve. by rewrite (proj1 (sort_reasons_effective _ _)). }
  split_and!.
  - intros id Hid%Hout. apply elem_of_effs. by apply Hs.
  - intros id dep Hid%Hout Hdep. apply Hout. by apply (Hc id).
  - intros s Hsub Hcl x Hx. apply Hout. apply (Hg s); [|done|done].
    intros y Hy. apply elem_of_effs. auto.
  - intros id. unfold out, Resolve. rewrite (proj2 (sort_reasons_effective _ _)).
    unfold Snapshot_Manageable. specialize (Hm id). fold base.
    destruct Hm as [a b Hg'|]; [|done]. symmetry. apply Hg'.
Qed.
End resolve_theorems.

(** A module and everything it requires, however far, has a readiness probe. *)
Definition needs (id dep : string) : Prop := dep ∈ Requires id.
Definition probed (r : Resolver) (id : string) : Prop := ∀ dep, rtc needs id dep → is_Some (r_probes r !! dep).

Lemma probed_ready r tenant site lcl ids spec p : r_probes r !! ms_ID spec = Some p →
  let st := resolve_one r tenant site lcl ids spec in gates st = st_Deployed st && st_Licensed st && st_Enabled st && (p tenant site).1.
Proof.
  intros Hp. cbv zeta. unfold gates, resolve_one. rewrite Hp. destruct (p tenant site) as [ready details].
  destruct (ModuleDeployed _ _), (match r_Licence r with Some l => l_ModuleEnabled l _ | None => _ end); done.
Qed.


(** *** The licence manager implements the interface *)

Section licence_instance.
Context {CR : Crypto} {LC : LicenseCodecs} {MR : MapRange} {UC : Unicode}.

Definition manager_licence (m : Manager) : Licence :=
  mkLicence (ModuleEnabled m) (Manager_AuthorizedModules m).

#[export] Instance manager_licence_ok m :
  m_required m = true → LicenceOk (manager_licence m).
Proof.
  intros Hreq. split; simpl.
  - intros id. unfold ModuleEnabled, Manager_AuthorizedModules, FeatureEnabled. rewrite Hreq.
    destruct (m_loaded m); [|done]. simpl. destruct (ev_Doc (m_current m)) as [d|]; [|done].
    destruct (negb (empty (m_wrongDevice m))); [done|].
    case_bool_decide; [done|]. done.
  - unfold Manager_AuthorizedModules. assert (dep_closed ∅) by (intros ?? []%not_elem_of_empty).
    destruct (_ || _); [done|]. destruct (ev_Doc (m_current m)) as [d|]; [|done]. apply closure_of_spec.
Qed.
End licence_instance.

(** A client of the interface: nothing unlicensed executes. *)
Lemma effective_authorized {MR : MapRange} r l tenant site id :
  r_Licence r = Some l → LicenceOk l →
  Snapshot_Effective (Resolve r tenant site) id = true →
  id ∈ l_AuthorizedModules l ∧ l_ModuleEnabled l id = true.
Proof.
  intros Hl Hok He. destruct (Resolve_spec r tenant site) as (Hb & _). apply Hb in He.
  unfold Snapshot_Effective in He. rewrite base_lookup in He.
  destruct (LookupModule id) as [spec|] eqn:Em; [|done]. simpl in He.
  rewrite resolve_one_effective in He. apply find_module_Some in Em as [<- _].
  unfold gates in He. zify_guards.
  assert (l_ModuleEnabled l (ms_ID spec) = true) as Hen.
  { match goal with H : st_Licensed _ = true |- _ => revert H end.
    open_resolve. by rewrite Hl. }
  split; [|done]. by apply (@enabled_authorized l Hok).
Qed.

(** The resolver over the licence manager.  On a production appliance a
    module may execute only if a licence document is loaded for this appliance, its
    state is active or in grace, and the document authorises the module. *)
Theorem resolved_module_is_licensed
    {CR : Crypto} {LC : LicenseCodecs} {MR : MapRange} {UC : Unicode}
    (m : Manager) (r : Resolver) (tenant site id : string) :
  m_required m = true →
  r_Licence r = Some (manager_licence m) →
  Snapshot_Effective (Resolve r tenant site) id = true →
  HasUsableLicense m = true ∧ AllowsProvisioning (Manager_State m) = true ∧
  ∃ d, ev_Doc (m_current m) = Some d ∧ id ∈ AuthorizedModules d.
Proof.
  intros Hreq Hl He.
  destruct (effective_authorized r (manager_licence m) tenant site id Hl
              (manager_licence_ok m Hreq) He) as [_ Hen].
  simpl in Hen. revert Hen. unfold ModuleEnabled, HasUsableLicense, Manager_State, FeatureEnabled.
  rewrite Hreq. destruct (m_loaded m); [|done]. simpl.
  destruct (ev_Doc (m_current m)) as [d|]; [|done]. destruct (empty (m_wrongDevice m)); [|done]. simpl.
  case_bool_decide as Hin; [|done]. simpl. intros Hst.
  split_and!; [done| |by exists d]. by destruct (ev_State (m_current m)).
Qed.

(** A module that has no readiness probe counts as ready: it executes as
    soon as it is deployed, licensed and enabled with its dependencies. *)
Theorem missing_probe_is_ready {MR : MapRange}
    (r : Resolver) (tenant site id : string) (spec : ModuleSpec) :
  LookupModule id = Some spec →
  r_probes r !! id = None →
  st_Ready (resolve_one r tenant site (site_switches r tenant site)
              (identity_switches r tenant) spec) = true.
Proof.
  intros [Hid _]%find_module_Some Hp. unfold resolve_one. by rewrite Hid, Hp.
Qed.

(** ** Witnesses *)

#[local] Existing Instances Sample.crypto Sample.codecs elements_range ascii_unicode.

Module ModulesSample.
Definition all_on : Ceiling :=
  mkCeiling (mkCommerceConfig true true true) true (mkPaymentConfig true true true false)
    (mkPostingConfig true true true false true) false true true true.
Definition loaded_manager : Manager :=
  mgr (Manager_Load (1100 * Day) (LicStateSample.sys sample_identity false)).
Definition resolver : Resolver :=
  mkResolver all_on (Some (manager_licence loaded_manager))
    (Some (λ _ _, Some (<[ModuleHospitality := true]> (<[ModulePaidAccess := true]>
                   {[ModuleRoomCharge := true]}))))
    None {[ModuleRoomCharge := λ _ _, (true, [])]} ∅.
End ModulesSample.

(** The same site with a probe for each of the three modules. *)
Definition probed_resolver : Resolver :=
  mkResolver (r_Ceiling ModulesSample.resolver) (r_Licence ModulesSample.resolver)
    (Some (λ _ _, Some (<[ModuleHospitality := true]> (<[ModulePaidAccess := true]> {[ModuleRoomCharge := true]}))))
    None (<[ModuleHospitality := λ _ _, (true, [])]> (<[ModulePaidAccess := λ _ _, (true, [])]> {[ModuleRoomCharge := λ _ _, (true, [])]})) ∅.


Lemma resolved_module_is_licensed_witness :
  HasUsableLicense ModulesSample.loaded_manager = true.
Proof.
  destruct (resolved_module_is_licensed ModulesSample.loaded_manager ModulesSample.resolver
              "t-1" "s-1" ModuleRoomCharge) as [Hr _]; [| | |exact Hr].
  - vm_compute. reflexivity.
  - reflexivity.
  - vm_compute. reflexivity.
Defined.

Lemma missing_probe_is_ready_witness :
  st_Ready (resolve_one ModulesSample.resolver "t-1" "s-1"
    (site_switches ModulesSample.resolver "t-1" "s-1")
    (identity_switches ModulesSample.resolver "t-1")
    (mkModuleSpec ModuleHospitality "Hotel (PMS, Room sign-in, stays)" [])) = true.
Proof.
  apply (missing_probe_is_ready ModulesSample.resolver "t-1" "s-1" ModuleHospitality).
  - reflexivity.
  - reflexivity.
Defined.
