(* ===== verification/Pg.v ===== *)
(** Database transactions as the services use them (pgx over PostgreSQL): one
    statement at a time, any of which can fail; a failed statement leaves the
    transaction aborted, and an aborted transaction refuses every statement
    until it is rolled back, to a savepoint or whole.

    A transaction is a computation of the state-and-error monad over [tx D],
    where [D] is the content of the modelled tables.  [triple] is the Hoare
    triple the components' proofs use: it says what the tables hold when the
    computation returns normally, and which errors it can return.  What an
    erring computation left in the tables never matters, because the caller
    rolls back. *)
From S2P Require Import Prelude.

Inductive sql_error :=
| ConnectionLost
| InFailedTransaction
| DuplicateKey (constraint : string)
| CheckFailed (constraint : string)
| ForeignKeyFailed (constraint : string)
| Raised (rule : string).

(** A Go [error]: a database error, or one of the program's own. *)
Inductive error :=
| Sql (e : sql_error)
| Error (what : string).

Record tx (D : Type) := mkTx {
  tx_db : D;
  tx_aborted : bool;
  tx_faults : list bool;     (* whether each coming statement loses the connection *)
  tx_uuids : nat → positive; (* the numbers gen_random_uuid() draws *)
  tx_next : nat
}.
Arguments mkTx {D}. Arguments tx_db {D}. Arguments tx_aborted {D}. Arguments tx_faults {D}.
Arguments tx_uuids {D}. Arguments tx_next {D}.

(** The text of a drawn identifier: the bits of its number, so that different
    numbers have different, non-empty texts. *)
Fixpoint uuid_text (p : positive) : string :=
  match p with
  | xH => "1"
  | xO p' => String (Ascii.ascii_of_nat 48) (uuid_text p')
  | xI p' => String (Ascii.ascii_of_nat 49) (uuid_text p')
  end.

Lemma uuid_text_ne p : uuid_text p ≠ "".
Proof. by destruct p. Qed.

Section statements.
Context {D : Type}.
Abbreviation TX := (ST (tx D) error).

Definition next_statement_fails (t : tx D) : bool :=
  match tx_faults t with [] => false | f :: _ => f end.

Definition set_tx (t : tx D) (db : D) (aborted : bool) : tx D :=
  mkTx db aborted (tail (tx_faults t)) (tx_uuids t) (tx_next t).

(** One statement.  [f] is its effect: new tables and a result, or an error a
    constraint or a trigger raises. *)
Definition statement {A} (f : D → res sql_error (D * A)) : TX A := λ t,
  if tx_aborted t then (set_tx t (tx_db t) true, Err (Sql InFailedTransaction))
  else if next_statement_fails t then (set_tx t (tx_db t) true, Err (Sql ConnectionLost))
  else match f (tx_db t) with
       | Err e => (set_tx t (tx_db t) true, Err (Sql e))
       | Ok (db, a) => (set_tx t db false, Ok a)
       end.

Definition exec (f : D → res sql_error D) : TX () :=
  statement (λ db, match f db with Ok db' => Ok (db', ()) | Err e => Err e end).

Definition query {A} (f : D → A) : TX A := statement (λ db, Ok (db, f db)).

Definition gen_random_uuid : TX string := λ t,
  (mkTx (tx_db t) (tx_aborted t) (tx_faults t) (tx_uuids t) (S (tx_next t)),
   Ok (uuid_text (tx_uuids t (tx_next t)))).

(** What the connection does with COMMIT. *)
Inductive commit_fate := Committed | CommitLost | CommitUnacknowledged.

Definition commit (fate : commit_fate) (before : D) (t : tx D) : D * res error () :=
  if tx_aborted t then (before, Err (Sql InFailedTransaction))
  else match fate with
       | Committed => (tx_db t, Ok ())
       | CommitLost => (before, Err (Sql ConnectionLost))
       | CommitUnacknowledged => (tx_db t, Err (Sql ConnectionLost))
       end.

(** ** Hoare triples *)

Definition triple {A} (P : D → Prop) (m : TX A) (Q : A → D → Prop) (X : error → Prop) : Prop :=
  ∀ t t' r, P (tx_db t) → m t = (t', r) →
    match r with Ok a => Q a (tx_db t') | Err e => X e end.

Lemma triple_ret {A} (P : D → Prop) (a : A) (Q : A → D → Prop) X :
  (∀ db, P db → Q a db) → triple P (mret a) Q X.
Proof. intros H t t' r HP [= <- <-]. auto. Qed.

Lemma triple_fail {A} (P : D → Prop) e (Q : A → D → Prop) (X : error → Prop) :
  X e → triple P (fail e) Q X.
Proof. intros H t t' r HP [= <- <-]. done. Qed.

Lemma triple_bind {A B} (P : D → Prop) (m : TX A) (f : A → TX B) R Q X :
  triple P m R X → (∀ a, triple (R a) (f a) Q X) → triple P (m ≫= f) Q X.
Proof.
  intros Hm Hf t t' r HP. unfold mbind, ST_bind.
  destruct (m t) as [t1 [a|e]] eqn:E.
  - intros HE. exact (Hf a _ _ _ (Hm _ _ _ HP E) HE).
  - intros [= <- <-]. exact (Hm _ _ _ HP E).
Qed.

Lemma triple_conseq {A} (P P' : D → Prop) (m : TX A) (Q Q' : A → D → Prop) X :
  triple P' m Q' X → (∀ db, P db → P' db) → (∀ a db, Q' a db → Q a db) → triple P m Q X.
Proof.
  intros H HP HQ t t' r Ht HE. specialize (H t t' r (HP _ Ht) HE). destruct r; auto.
Qed.

Lemma triple_errors {A} (P : D → Prop) (m : TX A) Q (X X' : error → Prop) :
  triple P m Q X' → (∀ e, X' e → X e) → triple P m Q X.
Proof. intros H HX t t' r HP HE. specialize (H t t' r HP HE). destruct r; auto. Qed.

Lemma triple_pre {A} (P : D → Prop) (m : TX A) Q X :
  (∀ db, P db → triple (λ d, d = db) m Q X) → triple P m Q X.
Proof. intros H t t' r HP HE. exact (H _ HP t t' r eq_refl HE). Qed.

Lemma triple_pure {A} (P : D → Prop) (φ : Prop) (m : TX A) Q X :
  (φ → triple P m Q X) → triple (λ d, P d ∧ φ) m Q X.
Proof. intros H t t' r [HP Hφ] HE. exact (H Hφ t t' r HP HE). Qed.

(** The errors the connection itself can raise. *)
Definition connection_error (e : error) : Prop :=
  e = Sql ConnectionLost ∨ e = Sql InFailedTransaction.

Lemma triple_statement {A} (db : D) (f : D → res sql_error (D * A)) Q (X : error → Prop) :
  (∀ e, connection_error e → X e) →
  match f db with Ok (db', a) => Q a db' | Err e => X (Sql e) end →
  triple (λ d, d = db) (statement f) Q X.
Proof.
  intros HX Hf t t' r <-. unfold statement.
  destruct (tx_aborted t); [intros [= <- <-]; apply HX; by right|].
  destruct (next_statement_fails t); [intros [= <- <-]; apply HX; by left|].
  destruct (f (tx_db t)) as [[db' a]|e]; by intros [= <- <-].
Qed.

Lemma triple_exec (db : D) (f : D → res sql_error D) Q (X : error → Prop) :
  (∀ e, connection_error e → X e) →
  match f db with Ok db' => Q () db' | Err e => X (Sql e) end →
  triple (λ d, d = db) (exec f) Q X.
Proof. intros HX Hf. apply triple_statement; [done|]. by destruct (f db). Qed.

Lemma triple_query {A} (db : D) (f : D → A) (Q : A → D → Prop) (X : error → Prop) :
  (∀ e, connection_error e → X e) → Q (f db) db → triple (λ d, d = db) (query f) Q X.
Proof. intros HX Hf. by apply triple_statement. Qed.

(** A query whose answer is remembered. *)
Lemma triple_read {A B} (db : D) (f : D → A) (k : A → TX B) Q (X : error → Prop) :
  (∀ e, connection_error e → X e) →
  (∀ a, a = f db → triple (λ d, d = db) (k a) Q X) →
  triple (λ d, d = db) (query f ≫= k) Q X.
Proof.
  intros HX Hk. apply (triple_bind _ _ _ (λ a d, d = db ∧ a = f db)).
  - by apply triple_query.
  - intros a. apply triple_pure. auto.
Qed.

Lemma triple_uuid (P : D → Prop) Q X :
  (∀ u db, u ≠ "" → P db → Q u db) → triple P gen_random_uuid Q X.
Proof. intros H t t' r HP [= <- <-]. apply H; [apply uuid_text_ne|done]. Qed.

End statements.
Abbreviation TX D := (ST (tx D) error).
