(* ===== verification/StayTables.v ===== *)
(** The tables of the stay mirror (schema [iam_v2] of
    migrations/baseline/0000_production_baseline.sql) with the constraints and
    triggers that guard them, and the statements the stay engine sends.

    A stay is one reservation at one PMS interface; its guests are the occupants
    the PMS named; an event is one durable inbox row.  The posting columns of a
    stay are maintained by a trigger of their own, no statement of the engine
    writes them, and they are left out.  A date is a day number and a time a
    [Time] of the prelude (day 0 and instant 0 are January 1 of year 1). *)
From S2P Require Import Prelude GoStrings Pg.

Abbreviation scope := (string * string * string)%type (only parsing).

Inductive StayStatus :=
| RESERVED | IN_HOUSE | CHECKED_OUT | POST_STAY_ACTIVE | CANCELLED | NO_SHOW.
#[export] Instance StayStatus_eq_dec : EqDecision StayStatus.
Proof. solve_decision. Defined.

Record Occupancy := mkOccupancy {
  occupancy_evidence_at : option Time;
  occupancy_ingested_at : option Time;
  occupancy_revision_id : option string;
  occupancy_normalization_version : option Z;
  occupancy_clock_suspect : option bool;
  occupancy_evidence_version : Z
}.

Record Stay := mkStay {
  stay_scope : scope;
  external_reservation_id : string;
  external_stay_identity : string;
  normalized_room_number : option string;
  status : StayStatus;
  lifecycle_version : Z;
  last_applied_event_version : Z;
  last_applied_event_id : option string;
  vip : option bool;
  travel_agent : option string;
  arrival : option Z;
  departure : option Z;
  effective_checkout_at : option Time;
  occupancy : Occupancy
}.

Record StayGuest := mkStayGuest {
  guest_scope : scope;
  guest_stay : string;
  external_guest_id : option string;
  first_name_norm : option string;
  last_name_norm : option string;
  display_name : option string;
  is_primary : bool
}.

Inductive ProcessingStatus := PENDING | APPLIED | SKIPPED_DUPLICATE | MANUAL_REVIEW | FAILED.
#[export] Instance ProcessingStatus_eq_dec : EqDecision ProcessingStatus.
Proof. solve_decision. Defined.

(** [admission_kind] with the generation the check constraint ties to it. *)
Inductive Admission := LIVE | RESYNC (generation : Z).

(** The payload column: a JSON value as stored (jsonb). *)
Inductive json :=
| JNull | JBool (b : bool) | JNumber (text : string) | JString (s : string)
| JArray (items : list json) | JObject (members : list (string * json)).

Record StayEvent := mkStayEvent {
  event_scope : scope;
  external_event_identity : string;
  event_type : string;
  pms_timestamp_utc : option Time;
  received_at : Time;
  clock_suspect : bool;
  payload_column : json;
  admission : Admission;
  processing_status : ProcessingStatus;
  event_stay_id : option string;
  processed_at : option Time;
  review_code : option string
}.

Record Runtime := mkRuntime {
  pinned_revision_id : option string;
  published_resync_generation : Z
}.

(** [restored] logs the calls of [restore_room_move_access] that took effect:
    what that function writes is outside these tables. *)
Record DB := mkDB {
  stays : gmap string Stay;
  guests : gmap string StayGuest;
  events : gmap string StayEvent;
  runtimes : gmap scope Runtime;
  revisions : gmap string (scope * Z);   (* scope and normalization_version *)
  restored : list (string * Z * string)
}.

Definition set_stays (db : DB) (m : gmap string Stay) : DB :=
  mkDB m (guests db) (events db) (runtimes db) (revisions db) (restored db).
Definition set_guests (db : DB) (m : gmap string StayGuest) : DB :=
  mkDB (stays db) m (events db) (runtimes db) (revisions db) (restored db).
Definition set_events (db : DB) (m : gmap string StayEvent) : DB :=
  mkDB (stays db) (guests db) m (runtimes db) (revisions db) (restored db).

(** NULLIF(x, '') and COALESCE(x, ''). *)
Definition NULLIF (s : string) : option string := if empty s then None else Some s.
Definition COALESCE (o : option string) : string := default "" o.

(** ** Constraints and triggers of [stays] *)

Definition all_or_none (o : Occupancy) : bool :=
  match occupancy_evidence_at o, occupancy_ingested_at o, occupancy_revision_id o,
        occupancy_normalization_version o, occupancy_clock_suspect o with
  | None, None, None, None, None => true
  | Some _, Some _, Some _, Some _, Some _ => true
  | _, _, _, _, _ => false
  end.

Definition version_coherent (o : Occupancy) : bool :=
  match occupancy_evidence_at o with
  | None => (occupancy_evidence_version o =? 0)%Z
  | Some _ => 0 <? occupancy_evidence_version o
  end.

Definition norm_pos (o : Occupancy) : bool :=
  match occupancy_normalization_version o with None => true | Some n => 0 <? n end.

Definition effco_only_after_checkout (s : Stay) : bool :=
  match effective_checkout_at s with
  | None => true
  | Some _ => bool_decide (status s = CHECKED_OUT ∨ status s = POST_STAY_ACTIVE)
  end.

Definition checkedout_needs_boundary (s : Stay) : bool :=
  bool_decide (status s ≠ CHECKED_OUT) || bool_decide (is_Some (effective_checkout_at s)).

Definition stay_checks (s : Stay) : res sql_error () :=
  check (effco_only_after_checkout s) (CheckFailed "stays_effco_only_after_checkout") ≫= λ _,
  check (version_coherent (occupancy s)) (CheckFailed "stays_evidence_version_coherent") ≫= λ _,
  check (all_or_none (occupancy s)) (CheckFailed "stays_occupancy_all_or_none") ≫= λ _,
  check (norm_pos (occupancy s)) (CheckFailed "stays_occupancy_norm_pos") ≫= λ _,
  check (checkedout_needs_boundary s) (CheckFailed "stays_checkedout_needs_boundary").

Definition evidence_changed (old new : Occupancy) : bool :=
  bool_decide (occupancy_evidence_at new ≠ occupancy_evidence_at old)
  || bool_decide (occupancy_revision_id new ≠ occupancy_revision_id old)
  || bool_decide (occupancy_normalization_version new ≠ occupancy_normalization_version old)
  || bool_decide (occupancy_clock_suspect new ≠ occupancy_clock_suspect old).

Definition is_reinstate (old new : Stay) : bool :=
  bool_decide (status old = CHECKED_OUT) && bool_decide (status new = IN_HOUSE).

Definition allowed_transition (old new : StayStatus) : bool :=
  match old, new with
  | RESERVED, (IN_HOUSE | CANCELLED | NO_SHOW) => true
  | IN_HOUSE, CHECKED_OUT => true
  | CHECKED_OUT, (IN_HOUSE | POST_STAY_ACTIVE) => true
  | _, _ => false
  end.

Definition effco_rule (old new : Stay) : bool :=
  bool_decide (effective_checkout_at new = effective_checkout_at old)
  || (if is_reinstate old new then bool_decide (effective_checkout_at new = None)
      else bool_decide (status old = IN_HOUSE) && bool_decide (status new = CHECKED_OUT)
           && bool_decide (is_Some (effective_checkout_at new))).

(** The trigger on UPDATE, outside a retention run. *)
Definition p3_stay_lifecycle_guard (old new : Stay) : res sql_error () :=
  let o := occupancy old in let n := occupancy new in
  check (last_applied_event_version old <=? last_applied_event_version new)
    (Raised "last_applied_event_version cannot decrease") ≫= λ _,
  check (occupancy_evidence_version o <=? occupancy_evidence_version n)
    (Raised "occupancy_evidence_version cannot decrease") ≫= λ _,
  (if evidence_changed o n then
     check (occupancy_evidence_version n =? occupancy_evidence_version o + 1)%Z
       (Raised "a material occupancy-evidence change must increment the version by exactly 1")
   else
     check (occupancy_evidence_version n =? occupancy_evidence_version o)%Z
       (Raised "the version may not change without a material occupancy-evidence change")) ≫= λ _,
  check (effco_rule old new) (Raised "effective_checkout_at") ≫= λ _,
  check ((lifecycle_version new =? lifecycle_version old)%Z
         || ((lifecycle_version new =? lifecycle_version old + 1)%Z && is_reinstate old new))
    (Raised "lifecycle_version may increment by exactly 1 only during a reinstatement") ≫= λ _,
  check (bool_decide (status new = status old) || allowed_transition (status old) (status new))
    (Raised "illegal stays.status transition") ≫= λ _,
  check (negb (is_reinstate old new) || (lifecycle_version new =? lifecycle_version old + 1)%Z)
    (Raised "reinstatement must increment lifecycle_version exactly once").

(** The foreign keys of [stays] that the engine's statements can touch. *)
Definition event_fk (db : DB) (s : Stay) : bool :=
  match last_applied_event_id s with
  | None => true
  | Some e => match events db !! e with
              | Some ev => bool_decide (event_scope ev = stay_scope s)
              | None => false
              end
  end.
Definition revision_fk (db : DB) (s : Stay) : bool :=
  match occupancy_revision_id (occupancy s) with
  | None => true
  | Some r => match revisions db !! r with
              | Some (sc, _) => bool_decide (sc = stay_scope s)
              | None => false
              end
  end.
Definition stay_fks (db : DB) (s : Stay) : res sql_error () :=
  check (event_fk db s) (ForeignKeyFailed "stays_last_applied_event_scoped") ≫= λ _,
  check (revision_fk db s) (ForeignKeyFailed "stays_occupancy_revision_fk").

(** UPDATE iam_v2.stays SET ... WHERE id = $1. *)
Definition update_stay (id : string) (f : Stay → Stay) (db : DB) : res sql_error DB :=
  match stays db !! id with
  | None => Ok db
  | Some old =>
      p3_stay_lifecycle_guard old (f old) ≫= λ _,
      stay_checks (f old) ≫= λ _,
      stay_fks db (f old) ≫= λ _,
      Ok (set_stays db (<[id := f old]> (stays db)))
  end.

Definition same_stay_key (a b : Stay) : bool :=
  bool_decide (stay_scope a = stay_scope b)
  && bool_decide (external_reservation_id a = external_reservation_id b)
  && bool_decide (external_stay_identity a = external_stay_identity b).

(** Does a row of a table satisfy a condition? *)
Definition exists_row {A} (p : string → A → bool) (m : gmap string A) : bool :=
  existsb (λ '(k, a), p k a) (map_to_list m).

(** INSERT INTO iam_v2.stays. *)
Definition insert_stay (id : string) (s : Stay) (db : DB) : res sql_error DB :=
  check (bool_decide (stays db !! id = None)) (DuplicateKey "stays_pkey") ≫= λ _,
  check (negb (exists_row (λ _ s', same_stay_key s s') (stays db)))
    (DuplicateKey "stays_tenant_id_site_id_pms_interface_id_external_reservati_key") ≫= λ _,
  stay_checks s ≫= λ _,
  stay_fks db s ≫= λ _,
  Ok (set_stays db (<[id := s]> (stays db))).

(** ** Constraints of [stay_guests] *)

Definition other_primary (db : DB) (id : string) (g : StayGuest) : bool :=
  exists_row (λ k g', bool_decide (k ≠ id) && bool_decide (guest_stay g' = guest_stay g)
                      && is_primary g') (guests db).

Definition guest_constraints (db : DB) (id : string) (g : StayGuest) : res sql_error () :=
  check (negb (is_primary g && other_primary db id g)) (DuplicateKey "one_primary_guest_per_stay").

Definition guest_fk (db : DB) (g : StayGuest) : bool :=
  match stays db !! guest_stay g with
  | Some s => bool_decide (stay_scope s = guest_scope g)
  | None => false
  end.

Definition insert_guest (id : string) (g : StayGuest) (db : DB) : res sql_error DB :=
  check (bool_decide (guests db !! id = None)) (DuplicateKey "stay_guests_pkey") ≫= λ _,
  guest_constraints db id g ≫= λ _,
  check (guest_fk db g) (ForeignKeyFailed "stay_guests_stay") ≫= λ _,
  Ok (set_guests db (<[id := g]> (guests db))).

(** UPDATE ... WHERE id = $1. *)
Definition update_guest (id : string) (f : StayGuest → StayGuest) (db : DB) : res sql_error DB :=
  match guests db !! id with
  | None => Ok db
  | Some g =>
      guest_constraints db id (f g) ≫= λ _,
      Ok (set_guests db (<[id := f g]> (guests db)))
  end.

(** ** The trigger of [stay_events] *)

Definition upper_letter (b : Z) : bool := in_range 65 90 b.
(** [review_code ~ '^[A-Z][A-Z0-9_]{0,63}$']. *)
Definition bounded_code (s : string) : bool :=
  match s with
  | EmptyString => false
  | String c rest =>
      upper_letter (byte_of c) && (len rest <=? 63)
      && all_bytes (λ b, upper_letter b || in_range 48 57 b || (b =? 95)%Z) rest
  end.

(** UPDATE of the result columns outside a retention run. *)
Definition p3_stay_event_appendonly (db : DB) (old new : StayEvent) : res sql_error () :=
  if decide (processing_status old ≠ PENDING) then
    check (bool_decide (processing_status new = processing_status old)
           && bool_decide (event_stay_id new = event_stay_id old)
           && bool_decide (processed_at new = processed_at old)
           && bool_decide (review_code new = review_code old))
      (Raised "terminal stay_events row is immutable")
  else if decide (processing_status new = PENDING) then
    check (bool_decide (event_stay_id new = None) && bool_decide (processed_at new = None)
           && bool_decide (review_code new = None))
      (Raised "result fields may only be set on PENDING->terminal")
  else
    check (bool_decide (is_Some (processed_at new))) (Raised "processed_at is required") ≫= λ _,
    (match event_stay_id new with
     | None => Ok ()
     | Some sid =>
         check (bool_decide (event_stay_id old = None))
           (Raised "stay_id may only go from NULL to a resolved Stay") ≫= λ _,
         check (match stays db !! sid with
                | Some s => bool_decide (stay_scope s = event_scope new)
                | None => false
                end) (Raised "stay_id must reference a Stay in the same scope")
     end) ≫= λ _,
    (match review_code new with
     | None => Ok ()
     | Some c => check (bounded_code c) (Raised "review_code must be a bounded machine code")
     end) ≫= λ _,
    match processing_status new with
    | APPLIED =>
        check (bool_decide (is_Some (event_stay_id new))) (Raised "APPLIED requires a stay_id") ≫= λ _,
        check (bool_decide (review_code new = None)) (Raised "APPLIED must not carry a review_code")
    | MANUAL_REVIEW | FAILED =>
        check (bool_decide (is_Some (review_code new))) (Raised "a review_code is required")
    | _ => Ok ()
    end.
