(* ===== verification/StayEngine.v ===== *)
(** The stay engine (data-plane/internal/stayengine with internal/namenorm):
    durable inbox events applied to the stay mirror, one event and one
    transaction at a time.

    [Resolve] is the pure decision; [ProcessNext] is the whole transaction:
    claim the oldest consumable event, decode it, find the stay, decide, write,
    make the event terminal, convert a checkout, commit.  The checkout converter
    (internal/checkout) is called through the interface the source declares,
    [Converter], whose promise to this component is the class
    [CheckoutConverter].  Queries without ORDER BY return rows in an arbitrary
    order ([MapRange]). *)
From S2P Require Import Prelude GoStrings Pg StayTables.

(** ** Normalisation (namenorm.go) *)
Section namenorm.
Context {UC : Unicode}.
Definition canon (s : string) : string := NFC (ToUpper (TrimSpace (NFC s))).
Definition Name (s : string) : string := canon s.
Definition Room (s : string) : string := canon s.
End namenorm.

(** ** Dates (parseYYMMDD)

    [time.Parse("060102", s)]: the year may carry a sign (the package's [atoi]
    accepts one), years from 69 on are 19xx, month and day are two digits and
    the day must exist. *)
Definition digit (c : Ascii.ascii) : option Z :=
  let b := byte_of c in if in_range 48 57 b then Some (b - 48) else None.

Definition two_digits (a b : Ascii.ascii) : option Z :=
  x ← digit a; y ← digit b; Some (10 * x + y).

Definition two_digit_year (a b : Ascii.ascii) : option Z :=
  let signed := match byte_of a with 43 => Some 1 | 45 => Some (-1) | _ => None end in
  yy ← match signed with
       | Some s => y ← digit b; Some (s * y)
       | None => two_digits a b
       end;
  Some (if 69 <=? yy then 1900 + yy else 2000 + yy).

Definition leap (y : Z) : bool :=
  ((y mod 4 =? 0) && (negb (y mod 100 =? 0) || (y mod 400 =? 0)))%Z.

Definition days_in (m y : Z) : Z :=
  match m with
  | 1 | 3 | 5 | 7 | 8 | 10 | 12 => 31
  | 4 | 6 | 9 | 11 => 30
  | _ => if leap y then 29 else 28
  end.

Fixpoint days_before_month (n : nat) (y : Z) : Z :=
  match n with
  | O => 0
  | S k => days_before_month k y + days_in (Z.of_nat (S k)) y
  end.

(** Days from January 1 of year 1. *)
Definition day_number (y m d : Z) : Z :=
  let p := y - 1 in
  365 * p + p / 4 - p / 100 + p / 400 + days_before_month (Z.to_nat (m - 1)) y + (d - 1).

Definition parseYYMMDD (s : string) : option Z :=
  match s with
  | String y1 (String y2 (String m1 (String m2 (String d1 (String d2 EmptyString))))) =>
      y ← two_digit_year y1 y2;
      m ← two_digits m1 m2;
      d ← two_digits d1 d2;
      if (1 <=? m) && (m <=? 12) && (1 <=? d) && (d <=? days_in m y)
      then Some (day_number y m d) else None
  | _ => None
  end.

Example parse_leap_day : parseYYMMDD "240229" = Some 738944.
Proof. reflexivity. Qed.
Example parse_no_leap_day : parseYYMMDD "230229" = None.
Proof. reflexivity. Qed.

(** ** Events (resolve.go, payload of pg.go) *)

Definition EvGuestIn : string := "GI".
Definition EvGuestChange : string := "GC".
Definition EvGuestOut : string := "GO".

Record Sharer := mkSharer {
  ExternalGuestID : string;
  sh_FirstName : string;
  sh_LastName : string;
  IsPrimary : bool
}.

Record InboxEvent := mkInboxEvent {
  EventIdentity : string;
  EventType : string;
  Reservation : string;
  ev_Room : string;
  LastName : string;
  FirstName : string;
  Folio : string;
  ArrivalRaw : string;
  DepartureRaw : string;
  Sharers : list Sharer;
  TravelAgent : option string;
  VIP : option bool
}.

Section decode.
Context {UC : Unicode}.

(** The values of an object's members that [encoding/json] stores into the
    field [name], in order (keys match fields up to case). *)
Definition field (name : string) (ms : list (string * json)) : list json :=
  snd <$> filter (λ m, EqualFold m.1 name = true) ms.

(** Each value overwrites the field, null leaves a value field alone and clears
    a pointer field, and a value of another type is an error. *)
Definition text_field (name : string) (ms : list (string * json)) : option string :=
  foldl (λ acc v, s ← acc; match v with JString s' => Some s' | JNull => Some s | _ => None end)
    (Some "") (field name ms).

Definition bool_field (name : string) (ms : list (string * json)) : option bool :=
  foldl (λ acc v, s ← acc; match v with JBool b => Some b | JNull => Some s | _ => None end)
    (Some false) (field name ms).

Definition text_pointer (name : string) (ms : list (string * json)) : option (option string) :=
  foldl (λ acc v, _ ← acc; match v with JString s => Some (Some s) | JNull => Some None | _ => None end)
    (Some None) (field name ms).

Definition bool_pointer (name : string) (ms : list (string * json)) : option (option bool) :=
  foldl (λ acc v, _ ← acc; match v with JBool b => Some (Some b) | JNull => Some None | _ => None end)
    (Some None) (field name ms).

Definition decode_sharer (v : json) : option Sharer :=
  match v with
  | JNull => Some (mkSharer "" "" "" false)
  | JObject ms =>
      e ← text_field "external_guest_id" ms;
      f ← text_field "first_name" ms;
      l ← text_field "last_name" ms;
      p ← bool_field "is_primary" ms;
      Some (mkSharer e f l p)
  | _ => None
  end.

Definition sharers_field (name : string) (ms : list (string * json)) : option (list Sharer) :=
  foldl (λ acc v, _ ← acc; match v with
                           | JArray l => mapM decode_sharer l
                           | JNull => Some []
                           | _ => None
                           end) (Some []) (field name ms).

(** [json.Unmarshal] into [payload], as the event it becomes. *)
Definition decode_payload (identity type : string) (v : json) : option InboxEvent :=
  match v with
  | JNull => Some (mkInboxEvent identity type "" "" "" "" "" "" "" [] None None)
  | JObject ms =>
      reservation ← text_field "reservation" ms;
      room ← text_field "room" ms;
      last ← text_field "last_name" ms;
      first ← text_field "first_name" ms;
      folio ← text_field "folio" ms;
      arr ← text_field "arrival_raw" ms;
      dep ← text_field "departure_raw" ms;
      sharers ← sharers_field "sharers" ms;
      agent ← text_pointer "travel_agent" ms;
      v ← bool_pointer "vip" ms;
      Some (mkInboxEvent identity type reservation room last first folio arr dep sharers agent v)
  | _ => None
  end.
End decode.

(** ** Deciding (resolve.go) *)

Record StayView := mkStayView {
  sv_ID : string;
  sv_Status : StayStatus;
  sv_LifecycleVersion : Z;
  sv_Room : string;
  sv_AppliedIdentity : option (string → bool)
}.

Inductive Op :=
| OpCreateStay | OpUpdateStay | OpRoomMove | OpCheckout | OpReinstate
| OpVacateOldRoom | OpSkipDuplicate | OpManualReview.
#[export] Instance Op_eq_dec : EqDecision Op.
Proof. solve_decision. Defined.

Record StayDecision := mkDecision {
  d_Op : Op;
  d_NewStatus : option StayStatus;
  d_Reinstate : bool;
  d_RoomMove : bool;
  d_ReviewCode : string
}.

Definition plain (op : Op) : StayDecision := mkDecision op None false false "".
Definition review (code : string) : StayDecision := mkDecision OpManualReview None false false code.

Section resolve.
Context {UC : Unicode}.

Definition normRoom (s : string) : string := Room s.

Definition already_applied (ev : InboxEvent) (cur : option StayView) : bool :=
  match cur with
  | Some c => match sv_AppliedIdentity c with Some f => f (EventIdentity ev) | None => false end
  | None => false
  end.

Definition room_changed (ev : InboxEvent) (c : StayView) : bool :=
  bool_decide (normRoom (sv_Room c) ≠ normRoom (ev_Room ev))
  && bool_decide (normRoom (ev_Room ev) ≠ "").

Definition moved_room (ev : InboxEvent) (c : StayView) : bool :=
  room_changed ev c && bool_decide (normRoom (sv_Room c) ≠ "")
  && bool_decide (Reservation ev ≠ "").

Definition Resolve (ev : InboxEvent) (cur : option StayView) : StayDecision :=
  if already_applied ev cur then plain OpSkipDuplicate
  else if decide (EventType ev = EvGuestIn) then
    match cur with
    | None => mkDecision OpCreateStay (Some IN_HOUSE) false false ""
    | Some c =>
        match sv_Status c with
        | CHECKED_OUT => mkDecision OpReinstate (Some IN_HOUSE) true (moved_room ev c) ""
        | IN_HOUSE => if room_changed ev c then mkDecision OpRoomMove None false true ""
                      else plain OpUpdateStay
        | RESERVED => mkDecision OpUpdateStay (Some IN_HOUSE) false false ""
        | _ => review "GI_ON_TERMINAL_STAY"
        end
    end
  else if decide (EventType ev = EvGuestChange) then
    match cur with
    | None => review "GC_UNKNOWN_STAY"
    | Some c =>
        match sv_Status c with
        | IN_HOUSE => if room_changed ev c then mkDecision OpRoomMove None false true ""
                      else plain OpUpdateStay
        | RESERVED => plain OpUpdateStay
        | _ => review "GC_ON_TERMINAL_STAY"
        end
    end
  else if decide (EventType ev = EvGuestOut) then
    match cur with
    | None => review "GO_UNKNOWN_STAY"
    | Some c =>
        match sv_Status c with
        | IN_HOUSE => if moved_room ev c then plain OpVacateOldRoom
                      else mkDecision OpCheckout (Some CHECKED_OUT) false false ""
        | CHECKED_OUT => plain OpSkipDuplicate
        | _ => review "GO_ON_NON_INHOUSE_STAY"
        end
    end
  else review "UNKNOWN_EVENT_TYPE".
End resolve.

(** ** Chronology of room-keyed departures (chronology.go) *)

Definition eventAtFor (pmsAt : option Time) (receivedAt : Time) (clockSuspect : bool) : Time :=
  match pmsAt with
  | Some t => if clockSuspect || IsZero t then receivedAt else t
  | None => receivedAt
  end.

(** The last nanosecond of the day, UTC. *)
Definition endOfDay (t : Time) : Time := t / Day * Day + (Day - 1).

Definition roomDepartureIsStale (eventAt : Time) (arr : option Time) : bool :=
  match arr with
  | None => false
  | Some a => negb (IsZero eventAt) && After a (endOfDay eventAt)
  end.

(** ** Sharers (sharers.go) *)

Definition CodeSharerDuplicate : string := "SHARER_DUPLICATE_IDENTITY".
Definition CodeSharerTwoPrimary : string := "SHARER_MULTIPLE_PRIMARY".

Fixpoint scan_sharers (l : list Sharer) (seen : gset string) (primaries : nat) : string :=
  match l with
  | [] => if decide (1 < primaries)%nat then CodeSharerTwoPrimary else ""
  | s :: l' =>
      let id := TrimSpace (ExternalGuestID s) in
      let primaries' := if IsPrimary s then S primaries else primaries in
      if empty id then scan_sharers l' seen primaries'
      else if decide (id ∈ seen) then CodeSharerDuplicate
      else scan_sharers l' ({[id]} ∪ seen) primaries'
  end.
Definition validateSharers (l : list Sharer) : string := scan_sharers l ∅ 0.

Definition displayName (first last : string) : string :=
  if negb (empty first) && negb (empty last) then last +:+ ", " +:+ first
  else if negb (empty last) then last else first.

(** ** Statements *)

(** What a transaction reads besides the tables: the clock, the session's time
    zone (the instant a date begins) and whether [restore_room_move_access]
    accepts a restoration. *)
Record Env := mkEnv {
  now : Time;
  midnight : Z → Time;
  restore_accepts : string → Z → string → bool
}.

Section statements.
Context {UC : Unicode} {MR : MapRange}.

(** The rows that satisfy a condition, in the order a scan visits them. *)
Definition rows {A} (p : A → bool) (m : gmap string A) : list (string * A) :=
  omap (λ k, match m !! k with Some a => if p a then Some (k, a) else None | None => None end)
    (range 0 (dom m)).

Definition first_row {A} (p : A → bool) (m : gmap string A) : option (string * A) := head (rows p m).

(** *** Occupants *)

Definition demoted (g : StayGuest) : StayGuest :=
  mkStayGuest (guest_scope g) (guest_stay g) (external_guest_id g) (first_name_norm g)
    (last_name_norm g) (display_name g) false.

(** UPDATE ... SET is_primary=false WHERE stay_id=$1 AND is_primary AND
    COALESCE(external_guest_id,'') <> $2. *)
Definition demote_others (sid ext : string) (db : DB) : DB :=
  set_guests db ((λ g, if bool_decide (guest_stay g = sid) && is_primary g
                          && bool_decide (COALESCE (external_guest_id g) ≠ ext)
                       then demoted g else g) <$> guests db).

Definition matches_sharer (sid : string) (s : Sharer) (g : StayGuest) : bool :=
  bool_decide (guest_stay g = sid)
  && if empty (ExternalGuestID s)
     then bool_decide (COALESCE (first_name_norm g) = Name (sh_FirstName s))
          && bool_decide (COALESCE (last_name_norm g) = Name (sh_LastName s))
     else bool_decide (external_guest_id g = Some (ExternalGuestID s)).

(** COALESCE(NULLIF($1,''), column). *)
Definition fill (new : string) (old : option string) : option string :=
  match NULLIF new with Some v => Some v | None => old end.

Definition refreshed (s : Sharer) (g : StayGuest) : StayGuest :=
  mkStayGuest (guest_scope g) (guest_stay g) (external_guest_id g)
    (fill (Name (sh_FirstName s)) (first_name_norm g))
    (fill (Name (sh_LastName s)) (last_name_norm g))
    (fill (displayName (sh_FirstName s) (sh_LastName s)) (display_name g))
    (IsPrimary s || is_primary g).

Definition applySharer (sc : scope) (sid : string) (s : Sharer) : TX DB () :=
  (if IsPrimary s then exec (λ db, Ok (demote_others sid (ExternalGuestID s) db)) else mret ()) ≫= λ _,
  query (λ db, first_row (matches_sharer sid s) (guests db)) ≫= λ row,
  match row with
  | None =>
      gen_random_uuid ≫= λ id,
      exec (insert_guest id (mkStayGuest sc sid (NULLIF (ExternalGuestID s))
              (NULLIF (Name (sh_FirstName s))) (NULLIF (Name (sh_LastName s)))
              (NULLIF (displayName (sh_FirstName s) (sh_LastName s))) (IsPrimary s)))
  | Some (id, _) => exec (update_guest id (refreshed s))
  end.

Fixpoint applySharers (sc : scope) (sid : string) (l : list Sharer) : TX DB () :=
  match l with
  | [] => mret ()
  | s :: l' => applySharer sc sid s ≫= λ _, applySharers sc sid l'
  end.

Definition renamed (first last display : string) (g : StayGuest) : StayGuest :=
  mkStayGuest (guest_scope g) (guest_stay g) (external_guest_id g) (NULLIF (Name first))
    (NULLIF (Name last)) (NULLIF display) (is_primary g).

(** The display name as [upsertPrimaryGuest] spells it. *)
Definition primaryDisplay (first last : string) : string :=
  if negb (empty first) && negb (empty last) then last +:+ ", " +:+ first
  else if empty last then first else last.

(** INSERT ... ON CONFLICT (stay_id) WHERE is_primary DO UPDATE. *)
Definition upsert_primary (id : string) (sc : scope) (sid first last : string) (db : DB)
    : res sql_error DB :=
  let display := primaryDisplay first last in
  match first_row (λ g, bool_decide (guest_stay g = sid) && is_primary g) (guests db) with
  | Some (gid, _) => update_guest gid (renamed first last display) db
  | None => insert_guest id (mkStayGuest sc sid None (NULLIF (Name first)) (NULLIF (Name last))
                               (NULLIF display) true) db
  end.

Definition upsertPrimaryGuest (sc : scope) (sid : string) (ev : InboxEvent) : TX DB () :=
  gen_random_uuid ≫= λ id, exec (upsert_primary id sc sid (FirstName ev) (LastName ev)).

Definition applyOccupancyFacts (sc : scope) (sid : string) (ev : InboxEvent) : TX DB () :=
  match Sharers ev with
  | [] => if negb (empty (FirstName ev)) || negb (empty (LastName ev))
          then upsertPrimaryGuest sc sid ev else mret ()
  | l => applySharers sc sid l
  end.

(** *** Stays *)

Definition with_attributes (agent : option string) (v : option bool) (s : Stay) : Stay :=
  mkStay (stay_scope s) (external_reservation_id s) (external_stay_identity s)
    (normalized_room_number s) (status s) (lifecycle_version s) (last_applied_event_version s)
    (last_applied_event_id s)
    (match v with Some b => Some b | None => vip s end)
    (match agent with None => travel_agent s | Some a => NULLIF a end)
    (arrival s) (departure s) (effective_checkout_at s) (occupancy s).

Definition applyGuestAttributes (sid : string) (ev : InboxEvent) : TX DB () :=
  match TravelAgent ev, VIP ev with
  | None, None => mret ()
  | agent, v => exec (update_stay sid (with_attributes agent v))
  end.

Definition no_evidence : Occupancy := mkOccupancy None None None None None 0.

Definition createStay (sc : scope) (ev : InboxEvent) : TX DB string :=
  gen_random_uuid ≫= λ id,
  exec (insert_stay id (mkStay sc (Reservation ev) (Reservation ev) (NULLIF (Room (ev_Room ev)))
          IN_HOUSE 1 0 None None None (parseYYMMDD (ArrivalRaw ev)) (parseYYMMDD (DepartureRaw ev))
          None no_evidence)) ≫= λ _,
  mret id.

Definition with_dates (new : option StayStatus) (arr dep : option Z) (s : Stay) : Stay :=
  mkStay (stay_scope s) (external_reservation_id s) (external_stay_identity s)
    (normalized_room_number s) (default (status s) new) (lifecycle_version s)
    (last_applied_event_version s) (last_applied_event_id s) (vip s) (travel_agent s)
    (match arr with Some a => Some a | None => arrival s end)
    (match dep with Some d => Some d | None => departure s end)
    (effective_checkout_at s) (occupancy s).

Definition with_room (room : string) (s : Stay) : Stay :=
  mkStay (stay_scope s) (external_reservation_id s) (external_stay_identity s)
    (NULLIF room) (status s) (lifecycle_version s) (last_applied_event_version s)
    (last_applied_event_id s) (vip s) (travel_agent s) (arrival s) (departure s)
    (effective_checkout_at s) (occupancy s).

Definition reinstated (s : Stay) : Stay :=
  mkStay (stay_scope s) (external_reservation_id s) (external_stay_identity s)
    (normalized_room_number s) IN_HOUSE (lifecycle_version s + 1) (last_applied_event_version s)
    (last_applied_event_id s) (vip s) (travel_agent s) (arrival s) (departure s) None (occupancy s).

Definition with_event (eid : string) (s : Stay) : Stay :=
  mkStay (stay_scope s) (external_reservation_id s) (external_stay_identity s)
    (normalized_room_number s) (status s) (lifecycle_version s)
    (last_applied_event_version s + 1) (Some eid) (vip s) (travel_agent s) (arrival s)
    (departure s) (effective_checkout_at s) (occupancy s).

Definition with_occupancy (o : Occupancy) (s : Stay) : Stay :=
  mkStay (stay_scope s) (external_reservation_id s) (external_stay_identity s)
    (normalized_room_number s) (status s) (lifecycle_version s) (last_applied_event_version s)
    (last_applied_event_id s) (vip s) (travel_agent s) (arrival s) (departure s)
    (effective_checkout_at s) o.

Record occupancyEvidence := mkOccupancyEvidence {
  occ_At : Time;
  occ_RevisionID : string;
  occ_NormalizationVersion : Z;
  occ_ClockSuspect : bool
}.

Definition stamped (now : Time) (occ : occupancyEvidence) (o : Occupancy) : Occupancy :=
  let n := mkOccupancy (Some (occ_At occ)) (Some now) (Some (occ_RevisionID occ))
             (Some (occ_NormalizationVersion occ)) (Some (occ_ClockSuspect occ))
             (occupancy_evidence_version o) in
  mkOccupancy (Some (occ_At occ)) (Some now) (Some (occ_RevisionID occ))
    (Some (occ_NormalizationVersion occ)) (Some (occ_ClockSuspect occ))
    (occupancy_evidence_version o + if evidence_changed o n then 1 else 0).

Definition stampOccupancyEvidence (env : Env) (sid : string) (occ : occupancyEvidence) : TX DB () :=
  if empty sid || IsZero (occ_At occ) || empty (occ_RevisionID occ)
     || (occ_NormalizationVersion occ <=? 0)
  then mret ()
  else exec (update_stay sid (λ s, with_occupancy (stamped (now env) occ (occupancy s)) s)).

(** *** The cheap path (unchanged.go) *)

(** SQL's three-valued AND; [None] is NULL. *)
Definition sql_and (a b : option bool) : option bool :=
  match a, b with
  | Some false, _ | _, Some false => Some false
  | Some true, x | x, Some true => x
  | None, None => None
  end.

(** $1::date IS NULL OR column = $1::date. *)
Definition date_same (stated column : option Z) : option bool :=
  match stated, column with
  | None, _ => Some true
  | Some _, None => None
  | Some d, Some c => Some (bool_decide (c = d))
  end.

Definition stated_same (ev : InboxEvent) (s : Stay) : option bool :=
  sql_and (date_same (parseYYMMDD (ArrivalRaw ev)) (arrival s))
  (sql_and (date_same (parseYYMMDD (DepartureRaw ev)) (departure s))
  (sql_and (Some match TravelAgent ev with
                 | None => true
                 | Some a => bool_decide (COALESCE (travel_agent s) = a)
                 end)
           (Some match VIP ev with None => true | v => bool_decide (vip s = v) end))).

Definition sharer_unchanged (have : list StayGuest) (s : Sharer) : bool :=
  let first := Name (sh_FirstName s) in
  let last := Name (sh_LastName s) in
  let display := displayName (sh_FirstName s) (sh_LastName s) in
  let ext := TrimSpace (ExternalGuestID s) in
  bool_decide (ext = ExternalGuestID s)
  && match List.find (λ g, if empty ext
                           then bool_decide (COALESCE (first_name_norm g) = first)
                                && bool_decide (COALESCE (last_name_norm g) = last)
                           else bool_decide (COALESCE (external_guest_id g) = ext)) have with
     | None => false
     | Some row =>
         (empty first || bool_decide (COALESCE (first_name_norm row) = first))
         && (empty last || bool_decide (COALESCE (last_name_norm row) = last))
         && (empty display || bool_decide (COALESCE (display_name row) = display))
         && (negb (IsPrimary s)
             || (is_primary row
                 && forallb (λ g, negb (is_primary g)
                      || bool_decide (COALESCE (external_guest_id g) = ExternalGuestID s)) have))
     end.

Definition primary_unchanged (have : list StayGuest) (ev : InboxEvent) : bool :=
  match List.find is_primary have with
  | None => false
  | Some g => bool_decide (COALESCE (first_name_norm g) = Name (FirstName ev))
              && bool_decide (COALESCE (last_name_norm g) = Name (LastName ev))
              && bool_decide (COALESCE (display_name g) = displayName (FirstName ev) (LastName ev))
  end.

Definition occupants_unchanged (have : list StayGuest) (ev : InboxEvent) : bool :=
  match Sharers ev with
  | [] => (empty (FirstName ev) && empty (LastName ev)) || primary_unchanged have ev
  | l => forallb (sharer_unchanged have) l
  end.

Definition same_site (sc sc' : scope) : bool := bool_decide (sc.1 = sc'.1).

Definition recordUnchanged (sc : scope) (sid : string) (ev : InboxEvent) : TX DB bool :=
  query (λ db, s ← stays db !! sid; if same_site sc (stay_scope s) then Some s else None) ≫= λ row,
  match row with
  | None => fail (Error "no rows in result set")
  | Some s =>
      match stated_same ev s with
      | None => fail (Error "cannot scan NULL into *bool")
      | Some false => mret false
      | Some true =>
           query (λ db, snd <$> rows (λ g, bool_decide (guest_stay g = sid)
                                           && same_site sc (guest_scope g)) (guests db)) ≫= λ have,
           mret (occupants_unchanged have ev)
      end
  end.
End statements.

(** ** Applying a decision (applyDecision of pg.go) *)

Definition ErrCheckoutConverterRequired : error := Error "checkout requires a wired Checkout Converter".

Section apply.
Context {UC : Unicode} {MR : MapRange}.

(** The writes of an update that is not the cheap path. *)
Definition full_update (sc : scope) (sid : string) (ev : InboxEvent)
    (new : option StayStatus) : TX DB () :=
  exec (update_stay sid (with_dates new (parseYYMMDD (ArrivalRaw ev)) (parseYYMMDD (DepartureRaw ev)))) ≫= λ _,
  applyGuestAttributes sid ev ≫= λ _,
  applyOccupancyFacts sc sid ev.

Definition applyDecision (env : Env) (sc : scope) (ev : InboxEvent) (cur : option StayView)
    (d : StayDecision) (delegateCheckout : bool) (occ : occupancyEvidence)
    : TX DB (string * ProcessingStatus * string) :=
  let id := match cur with Some c => sv_ID c | None => "" end in
  match d_Op d with
  | OpCreateStay =>
      createStay sc ev ≫= λ sid,
      applyGuestAttributes sid ev ≫= λ _,
      applyOccupancyFacts sc sid ev ≫= λ _,
      stampOccupancyEvidence env sid occ ≫= λ _,
      mret (sid, APPLIED, "")
  | OpUpdateStay =>
      (if decide (d_NewStatus d = None) then recordUnchanged sc id ev else mret false) ≫= λ same,
      (if (same : bool) then mret () else full_update sc id ev (d_NewStatus d)) ≫= λ _,
      stampOccupancyEvidence env id occ ≫= λ _,
      mret (id, APPLIED, "")
  | OpRoomMove =>
      exec (update_stay id (with_room (Room (ev_Room ev)))) ≫= λ _,
      applyGuestAttributes id ev ≫= λ _,
      stampOccupancyEvidence env id occ ≫= λ _,
      mret (id, APPLIED, "")
  | OpCheckout =>
      if delegateCheckout then mret (id, APPLIED, "") else fail ErrCheckoutConverterRequired
  | OpReinstate =>
      exec (update_stay id reinstated) ≫= λ _,
      (if d_RoomMove d then exec (update_stay id (with_room (Room (ev_Room ev)))) else mret ()) ≫= λ _,
      applyGuestAttributes id ev ≫= λ _,
      stampOccupancyEvidence env id occ ≫= λ _,
      mret (id, APPLIED, "")
  | OpVacateOldRoom => mret (id, APPLIED, "")
  | OpSkipDuplicate => mret (id, SKIPPED_DUPLICATE, "")
  | OpManualReview => mret ("", MANUAL_REVIEW, d_ReviewCode d)
  end.

(** ** Finishing an event *)

Definition with_result (terminal : ProcessingStatus) (sid code : string) (at_ : Time)
    (e : StayEvent) : StayEvent :=
  mkStayEvent (event_scope e) (external_event_identity e) (event_type e) (pms_timestamp_utc e)
    (received_at e) (clock_suspect e) (payload_column e) (admission e) terminal
    (NULLIF sid) (Some at_) (NULLIF code).

(** UPDATE iam_v2.stay_events ... WHERE id=$1 AND processing_status='PENDING';
    the result is whether a row was affected. *)
Definition update_event (eid : string) (terminal : ProcessingStatus) (sid code : string)
    (at_ : Time) (db : DB) : res sql_error (DB * bool) :=
  match events db !! eid with
  | Some e =>
      if decide (processing_status e = PENDING) then
        let e' := with_result terminal sid code at_ e in
        p3_stay_event_appendonly db e e' ≫= λ _,
        Ok (set_events db (<[eid := e']> (events db)), true)
      else Ok (db, false)
  | None => Ok (db, false)
  end.

Definition finishEvent (env : Env) (eid : string) (terminal : ProcessingStatus) (sid code : string)
    : TX DB () :=
  statement (update_event eid terminal sid code (now env)) ≫= λ affected,
  if (affected : bool) then
    if bool_decide (terminal = APPLIED) && negb (empty sid)
    then exec (update_stay sid (with_event eid)) else mret ()
  else fail (Error "event no longer PENDING (raced)").

Definition failEvent (env : Env) (eid : string) (terminal : ProcessingStatus) (code : string)
    : TX DB () :=
  finishEvent env eid terminal "" code.

(** ** The room-move restoration *)

Definition log_restore (env : Env) (sid : string) (episode : Z) (eid : string) (db : DB)
    : res sql_error DB :=
  if restore_accepts env sid episode eid
  then Ok (mkDB (stays db) (guests db) (events db) (runtimes db) (revisions db)
             ((sid, episode, eid) :: restored db))
  else Err (Raised "restore_room_move_access").

(** ROLLBACK TO SAVEPOINT: works in an aborted transaction. *)
Definition rollback_to (savepoint : DB) : TX DB () := λ t,
  if next_statement_fails t then (set_tx t (tx_db t) true, Err (Sql ConnectionLost))
  else (set_tx t savepoint false, Ok ()).

Definition restoreRoomMove (env : Env) (sid : string) (episode : Z) (eid : string) : TX DB () := λ t,
  match exec Ok t with
  | (t1, Err _) => (t1, Ok ())
  | (t1, Ok _) =>
      match exec (log_restore env sid episode eid) t1 with
      | (t2, Err _) => ((rollback_to (tx_db t1) t2).1, Ok ())
      | (t2, Ok _) => ((exec Ok t2).1, Ok ())
      end
  end.

(** ** ProcessNext *)

(** [ConvertTx]: runs inside the event's transaction. *)
Definition Converter : Type := scope → string → string → TX DB ().

(** The boundary the converter sets on an in-house stay. *)
Definition checked_out (boundary : Time) (s : Stay) : Stay :=
  mkStay (stay_scope s) (external_reservation_id s) (external_stay_identity s)
    (normalized_room_number s) CHECKED_OUT (lifecycle_version s) (last_applied_event_version s)
    (last_applied_event_id s) (vip s) (travel_agent s) (arrival s) (departure s)
    (Some boundary) (occupancy s).

(** What a converter promises the engine: on an in-house stay of the scope it
    either fails with one of its own errors or sets the stay's boundary and, of
    these tables, changes nothing else. *)
Class CheckoutConverter (convert : Converter) (errors : error → Prop) : Prop := {
  convert_checks_out sc sid eid db s :
    stays db !! sid = Some s → stay_scope s = sc → status s = IN_HOUSE →
    triple (λ d, d = db) (convert sc sid eid)
      (λ _ d, ∃ b, d = set_stays db (<[sid := checked_out b s]> (stays db))) errors
}.

Definition consumable (r : Runtime) (e : StayEvent) : bool :=
  bool_decide (processing_status e = PENDING)
  && match admission e with
     | LIVE => true
     | RESYNC g => g <=? published_resync_generation r
     end.

Definition event_before (a b : string * StayEvent) : bool :=
  (received_at a.2 <? received_at b.2)
  || ((received_at a.2 =? received_at b.2)%Z && String.ltb a.1 b.1).

Definition earlier (best : option (string * StayEvent)) (x : string * StayEvent)
    : option (string * StayEvent) :=
  match best with
  | None => Some x
  | Some b => Some (if event_before x b then x else b)
  end.

(** The claim: the oldest consumable event of the interface. *)
Definition claim (sc : scope) (db : DB) : option (string * StayEvent) :=
  r ← runtimes db !! sc;
  foldl earlier None
    (rows (λ e, bool_decide (event_scope e = sc) && consumable r e) (events db)).

Definition pinned_revision (sc : scope) (db : DB) : string :=
  COALESCE (runtimes db !! sc ≫= pinned_revision_id).
Definition pinned_norm_version (sc : scope) (db : DB) : Z :=
  default 0 (snd <$> (runtimes db !! sc ≫= pinned_revision_id) ≫= λ r, revisions db !! r).

Definition view (id : string) (s : Stay) : StayView :=
  mkStayView id (status s) (lifecycle_version s) (COALESCE (normalized_room_number s)) None.

Definition in_room (sc : scope) (room : string) (s : Stay) : bool :=
  bool_decide (stay_scope s = sc) && bool_decide (status s = IN_HOUSE)
  && bool_decide (normalized_room_number s = Some room).

Definition of_reservation (sc : scope) (reservation : string) (s : Stay) : bool :=
  bool_decide (stay_scope s = sc) && bool_decide (external_reservation_id s = reservation).

(** The stay an event is about, or the review code it is refused with. *)
Definition find_stay (env : Env) (sc : scope) (e : StayEvent) (ev : InboxEvent)
    : TX DB (string + option StayView) :=
  if blank (Reservation ev) then
    if decide (EventType ev ≠ EvGuestOut) then mret (inl "EVENT_WITHOUT_RESERVATION")
    else
      query (λ db, length (rows (in_room sc (normRoom (ev_Room ev))) (stays db))) ≫= λ n,
      if decide (1 < n)%nat then mret (inl "GO_AMBIGUOUS_ROOM")
      else
        query (λ db, first_row (in_room sc (normRoom (ev_Room ev))) (stays db)) ≫= λ row,
        match row with
        | None => mret (inr None)
        | Some (id, s) =>
            if roomDepartureIsStale
                 (eventAtFor (pms_timestamp_utc e) (received_at e) (clock_suspect e))
                 (midnight env <$> arrival s)
            then mret (inl "GO_STALE_ROOM_DEPARTURE")
            else mret (inr (Some (view id s)))
        end
  else
    query (λ db, first_row (of_reservation sc (Reservation ev)) (stays db)) ≫= λ row,
    mret (inr ((λ r, view r.1 r.2) <$> row)).

(** An event whose stay is known: decide, write, finish, convert. *)
Definition apply_event (conv : option Converter) (env : Env) (sc : scope) (eid : string)
    (ev : InboxEvent) (cur : option StayView) (occ : occupancyEvidence) : TX DB () :=
  let d := Resolve ev cur in
  applyDecision env sc ev cur d (bool_decide (is_Some conv)) occ ≫= λ '(sid, terminal, code),
  finishEvent env eid terminal sid code ≫= λ _,
  (match conv with
   | Some convert =>
       if bool_decide (d_Op d = OpCheckout) && negb (empty sid) && bool_decide (terminal = APPLIED)
       then convert sc sid eid else mret ()
   | None => mret ()
   end) ≫= λ _,
  match cur with
  | Some c =>
      if bool_decide (d_Op d = OpReinstate) && d_RoomMove d && negb (empty sid)
         && bool_decide (terminal = APPLIED)
      then restoreRoomMove env sid (sv_LifecycleVersion c) eid else mret ()
  | None => mret ()
  end.

(** The result is what the call returns beside an error of COMMIT: the paths
    that only send the event to review return [true, tx.Commit(ctx)]. *)
Definition process_event (conv : option Converter) (env : Env) (sc : scope) (eid : string)
    (e : StayEvent) (occ : occupancyEvidence) : TX DB bool :=
  match decode_payload (external_event_identity e) (event_type e) (payload_column e) with
  | None => failEvent env eid MANUAL_REVIEW "PAYLOAD_UNPARSEABLE" ≫= λ _, mret true
  | Some ev =>
      let code := validateSharers (Sharers ev) in
      if negb (empty code) then failEvent env eid MANUAL_REVIEW code ≫= λ _, mret true
      else
        find_stay env sc e ev ≫= λ found,
        match found with
        | inl code => failEvent env eid MANUAL_REVIEW code ≫= λ _, mret true
        | inr cur => apply_event conv env sc eid ev cur occ ≫= λ _, mret false
        end
  end.

(** The transaction's statements up to COMMIT; [None] when nothing is pending. *)
Definition process_body (conv : option Converter) (env : Env) (sc : scope) : TX DB (option bool) :=
  exec Ok ≫= λ _,                      (* writerguard.Open *)
  exec Ok ≫= λ _,                      (* pg_advisory_xact_lock *)
  query (λ db, (claim sc db, pinned_revision sc db, pinned_norm_version sc db)) ≫= λ '(row, rev, norm),
  match row with
  | None => mret None
  | Some (eid, e) =>
      process_event conv env sc eid e
        (mkOccupancyEvidence (received_at e) rev norm (clock_suspect e)) ≫= λ reviewed,
      mret (Some reviewed)
  end.

(** What the connection does during one call. *)
Record Connection := mkConnection {
  begin_fails : bool;
  faults : list bool;
  uuids : nat → positive;
  fate : commit_fate
}.

(** The tables after the call, whether an event was processed, and the error. *)
Definition ProcessNext (conv : option Converter) (env : Env) (c : Connection) (sc : scope) (db : DB)
    : DB * (bool * option error) :=
  if begin_fails c then (db, (false, Some (Sql ConnectionLost)))
  else match process_body conv env sc (mkTx db false (faults c) (uuids c) 0) with
       | (_, Err e) => (db, (false, Some e))
       | (_, Ok None) => (db, (false, None))
       | (t, Ok (Some reviewed)) =>
           match commit (fate c) db t with
           | (db', Ok _) => (db', (true, None))
           | (db', Err e) => (db', (reviewed, Some e))
           end
       end.
End apply.
