(* ===== verification/StayProofs.v ===== *)
(** What the stay engine guarantees: its writes respect every constraint and
    trigger of the tables, a call is atomic and makes exactly one event terminal,
    a stay leaves the house only through its own departure, and the cheap path
    for unchanged records is equivalent to the full one. *)
From S2P Require Import Prelude GoStrings Pg StayTables StayEngine.

(** ** The invariant of the tables *)

Definition stay_ok (db : DB) (s : Stay) : Prop :=
  stay_checks s = Ok () ∧ stay_fks db s = Ok () ∧
  normalized_room_number s ≠ Some "" ∧ travel_agent s ≠ Some "".

Definition guest_ok (db : DB) (g : StayGuest) : Prop :=
  guest_fk db g = true ∧ external_guest_id g ≠ Some "" ∧
  first_name_norm g ≠ Some "" ∧ last_name_norm g ≠ Some "" ∧ display_name g ≠ Some "".

Record db_ok (db : DB) : Prop := {
  ok_stays : map_Forall (λ id s, id ≠ "" ∧ stay_ok db s) (stays db);
  ok_guests : map_Forall (λ _ g, guest_ok db g) (guests db);
  ok_one_primary k1 k2 g1 g2 :
    guests db !! k1 = Some g1 → guests db !! k2 = Some g2 →
    guest_stay g1 = guest_stay g2 → is_primary g1 = true → is_primary g2 = true → k1 = k2;
  ok_pending : map_Forall (λ _ e, processing_status e = PENDING → event_stay_id e = None) (events db);
  ok_pinned sc r rev :
    runtimes db !! sc = Some r → pinned_revision_id r = Some rev →
    ∃ n, revisions db !! rev = Some (sc, n)
}.

(** What the writes of one event may change besides the inbox: one stay, whose identity stays and which never leaves the
    house, and its guests. *)
Record touches (sid : string) (db db' : DB) : Prop := {
  t_others id : id ≠ sid → stays db' !! id = stays db !! id;
  t_stay s : stays db !! sid = Some s →
    ∃ s', stays db' !! sid = Some s' ∧ stay_scope s' = stay_scope s ∧
      external_reservation_id s' = external_reservation_id s ∧
      (status s = IN_HOUSE → status s' = IN_HOUSE) ∧
      lifecycle_version s <= lifecycle_version s';
  t_guests gid g : guests db !! gid = Some g → guest_stay g ≠ sid → guests db' !! gid = Some g;
  t_runtimes : runtimes db' = runtimes db;
  t_revisions : revisions db' = revisions db
}.

Lemma touches_refl sid db : touches sid db db.
Proof. split; try done. intros s Hs. exists s. split_and!; done || lia. Qed.

Lemma touches_trans sid db1 db2 db3 :
  touches sid db1 db2 → touches sid db2 db3 → touches sid db1 db3.
Proof.
  intros [O1 S1 G1 R1 V1] [O2 S2 G2 R2 V2]. split; try congruence.
  - intros id Hid. by rewrite O2, O1.
  - intros s (s2 & Hs2 & ? & ? & ? & ?)%S1. destruct (S2 _ Hs2) as (s3 & Hs3 & ? & ? & ? & ?).
    exists s3. split_and!; try congruence; auto; lia.
  - intros gid g Hg Hne. auto.
Qed.

(** The tables in the course of an event that began on [db0], the inbox being [evs]. *)
Definition inv (sid : string) (db0 : DB) (evs : gmap string StayEvent) (db : DB) : Prop :=
  db_ok db ∧ touches sid db0 db ∧ events db = evs.

(** ** Updates of a stay *)

Record good_update (db : DB) (old new : Stay) : Prop := {
  gu_guard : p3_stay_lifecycle_guard old new = Ok ();
  gu_ok : stay_ok db new;
  gu_scope : stay_scope new = stay_scope old;
  gu_reservation : external_reservation_id new = external_reservation_id old;
  gu_in_house : status old = IN_HOUSE → status new = IN_HOUSE;
  gu_lifecycle : lifecycle_version old <= lifecycle_version new
}.

Lemma stay_fks_ext db db' s :
  events db' = events db → revisions db' = revisions db → stay_fks db' s = stay_fks db s.
Proof. intros He Hr. unfold stay_fks, event_fk, revision_fk. by rewrite He, Hr. Qed.

Lemma guest_fk_ext db db' g :
  (∀ s, stays db !! guest_stay g = Some s →
        ∃ s', stays db' !! guest_stay g = Some s' ∧ stay_scope s' = stay_scope s) →
  guest_fk db g = true → guest_fk db' g = true.
Proof.
  unfold guest_fk. destruct (stays db !! guest_stay g) as [s|]; [|done].
  intros H. destruct (H s eq_refl) as (s' & -> & ->). done.
Qed.

Lemma update_stay_inv sid f db0 evs db :
  inv sid db0 evs db →
  (∀ s, stays db !! sid = Some s → stay_ok db s → good_update db s (f s)) →
  match update_stay sid f db with
  | Ok db' => inv sid db0 evs db' ∧
      ∀ s, stays db !! sid = Some s → db' = set_stays db (<[sid := f s]> (stays db))
  | Err _ => False
  end.
Proof.
  intros (Hok & Ht & Hev) Hf. unfold update_stay. destruct (stays db !! sid) as [s|] eqn:Hs.
  2:{ by split; [split_and!|]. }
  pose proof (ok_stays _ Hok _ _ Hs) as [Hne Hsok].
  destruct (Hf _ eq_refl Hsok) as [Hg (Hc & Hk & Hr & Ha) Hsc Hre Hin Hlv].
  rewrite Hg, Hc, Hk. simpl. split; [|by intros ? [= <-]]. split_and!; [| |done].
  - destruct Hok as [H1 H2 H3 H4 H5]. split; try done.
    + apply map_Forall_insert_2; [by split_and!|].
      intros id s' Hs'. exact (H1 _ _ Hs').
    + intros gid g Hgg. destruct (H2 _ _ Hgg) as (? & ?). split; [|done].
      eapply guest_fk_ext; [|done]. simpl. intros s' Hs'.
      destruct (decide (guest_stay g = sid)) as [Hn|Hn].
      * rewrite Hn in Hs' |- *. rewrite Hs in Hs'. injection Hs' as <-.
        exists (f s). by rewrite lookup_insert_eq.
      * exists s'. by rewrite lookup_insert_ne.
  - eapply touches_trans; [exact Ht|]. split; try done.
    + intros id Hid. simpl. by rewrite lookup_insert_ne.
    + simpl. intros s' Hs'. rewrite Hs in Hs'. injection Hs' as <-.
      exists (f s). rewrite lookup_insert_eq. split_and!; done.
Qed.

Lemma evidence_unchanged o : evidence_changed o o = false.
Proof.
  unfold evidence_changed. rewrite !bool_decide_eq_false_2 by (by intros []). done.
Qed.

(** The constraints read only the status, the boundary and the evidence. *)
Lemma stay_checks_ext s s' :
  status s' = status s → effective_checkout_at s' = effective_checkout_at s →
  occupancy s' = occupancy s → stay_checks s' = stay_checks s.
Proof.
  intros H1 H2 H3. unfold stay_checks, effco_only_after_checkout, checkedout_needs_boundary.
  by rewrite H1, H2, H3.
Qed.

(** An update that leaves the lifecycle columns alone. *)
Lemma good_update_quiet db old new :
  stay_ok db old →
  stay_scope new = stay_scope old → external_reservation_id new = external_reservation_id old →
  status new = status old → lifecycle_version new = lifecycle_version old →
  effective_checkout_at new = effective_checkout_at old → occupancy new = occupancy old →
  last_applied_event_version old <= last_applied_event_version new →
  event_fk db new = true →
  normalized_room_number new ≠ Some "" → travel_agent new ≠ Some "" →
  good_update db old new.
Proof.
  intros (Hc & Hk & Hr & Ha) Hsc Hre Hst Hlv Hef Hoc Hev Hfk Hr' Ha'.
  split; try done; [| |congruence|lia].
  - unfold p3_stay_lifecycle_guard, effco_rule, is_reinstate.
    rewrite Hoc, Hst, Hlv, Hef, evidence_unchanged, !Z.eqb_refl, Z.leb_refl.
    rewrite (proj2 (Z.leb_le _ _) Hev), (bool_decide_eq_true_2 (status old = status old)),
      (bool_decide_eq_true_2 (effective_checkout_at old = effective_checkout_at old)) by done. simpl.
    by destruct (status old).
  - split_and!; try done.
    + by rewrite (stay_checks_ext old new).
    + unfold stay_fks in *. rewrite Hfk. simpl. unfold revision_fk in *. rewrite Hoc, Hsc.
      revert Hk. by destruct (event_fk db old).
Qed.

Lemma event_fk_of db s : stay_fks db s = Ok () → event_fk db s = true.
Proof. unfold stay_fks. by destruct (event_fk db s). Qed.

Lemma event_fk_same db s s' :
  last_applied_event_id s' = last_applied_event_id s → stay_scope s' = stay_scope s →
  stay_fks db s = Ok () → event_fk db s' = true.
Proof. intros H1 H2 H%event_fk_of. unfold event_fk in *. by rewrite H1, H2. Qed.

Lemma NULLIF_ne s : NULLIF s ≠ Some "".
Proof. unfold NULLIF. destruct (empty s) eqn:E; [done|]. apply empty_false in E. congruence. Qed.
#[export] Hint Resolve NULLIF_ne : onegate.

Lemma with_attributes_good db agent v s :
  stay_ok db s → good_update db s (with_attributes agent v s).
Proof.
  intros Hok. pose proof Hok as (_ & Hk & Hr & Ha).
  apply good_update_quiet; simpl; try done; [by eapply event_fk_same|].
  destruct agent; [apply NULLIF_ne|done].
Qed.

Lemma with_room_good db room s : stay_ok db s → good_update db s (with_room room s).
Proof.
  intros Hok. pose proof Hok as (_ & Hk & Hr & Ha).
  apply good_update_quiet; simpl; try done; [by eapply event_fk_same|apply NULLIF_ne].
Qed.

Lemma with_event_good db eid e s :
  stay_ok db s → events db !! eid = Some e → event_scope e = stay_scope s →
  good_update db s (with_event eid s).
Proof.
  intros Hok He Hsc. pose proof Hok as (_ & _ & Hr & Ha).
  apply good_update_quiet; simpl; try done; [lia|].
  unfold event_fk. simpl. rewrite He. by apply bool_decide_eq_true_2.
Qed.

Lemma with_dates_quiet_good db arr dep s :
  stay_ok db s → good_update db s (with_dates None arr dep s).
Proof.
  intros Hok. pose proof Hok as (_ & Hk & Hr & Ha).
  apply good_update_quiet; simpl; try done; [by eapply event_fk_same].
Qed.

Lemma checks_parts s :
  stay_checks s = Ok () ↔
  effco_only_after_checkout s = true ∧ version_coherent (occupancy s) = true ∧
  all_or_none (occupancy s) = true ∧ norm_pos (occupancy s) = true ∧
  checkedout_needs_boundary s = true.
Proof.
  unfold stay_checks.
  destruct (effco_only_after_checkout s), (version_coherent (occupancy s)),
    (all_or_none (occupancy s)), (norm_pos (occupancy s)), (checkedout_needs_boundary s);
    simpl; split; try done; intros H; destruct_and?; done.
Qed.

(** A reserved stay has no boundary, so arriving breaks no rule. *)
Lemma arrive_good db arr dep s :
  stay_ok db s → status s = RESERVED → good_update db s (with_dates (Some IN_HOUSE) arr dep s).
Proof.
  intros (Hc & Hk & Hr & Ha) Hst.
  apply checks_parts in Hc as (He & Hv & Hall & Hn & Hb).
  assert (effective_checkout_at s = None) as Hnone.
  { revert He. unfold effco_only_after_checkout. destruct (effective_checkout_at s); [|done].
    rewrite Hst. by vm_compute. }
  split; simpl; try done; try lia.
  - unfold p3_stay_lifecycle_guard, effco_rule, is_reinstate. simpl.
    rewrite evidence_unchanged, !Z.eqb_refl, !Z.leb_refl, Hst, Hnone. reflexivity.
  - split_and!; try done.
    + apply checks_parts. simpl. split_and!; try done.
      unfold effco_only_after_checkout. simpl. by rewrite Hnone.
Qed.

Lemma reinstate_good db s :
  stay_ok db s → status s = CHECKED_OUT → good_update db s (reinstated s).
Proof.
  intros (Hc & Hk & Hr & Ha) Hst.
  apply checks_parts in Hc as (He & Hv & Hall & Hn & Hb).
  split; simpl; try done; try lia.
  - unfold p3_stay_lifecycle_guard, effco_rule, is_reinstate. simpl.
    rewrite evidence_unchanged, !Z.eqb_refl, !Z.leb_refl, Hst, !orb_true_r. reflexivity.
  - split_and!; try done. by apply checks_parts.
Qed.

Lemma stamp_good db env occ s :
  stay_ok db s → 0 < occ_NormalizationVersion occ →
  (∃ n, revisions db !! occ_RevisionID occ = Some (stay_scope s, n)) →
  good_update db s (with_occupancy (stamped (now env) occ (occupancy s)) s).
Proof.
  intros (Hc & Hk & Hr & Ha) Hn [n Hrev].
  pose proof (event_fk_of _ _ Hk) as Hfk. apply checks_parts in Hc as (He & Hv & Hall & Hnp & Hb).
  split; simpl; try done; [|].
  - unfold p3_stay_lifecycle_guard, effco_rule, is_reinstate. simpl.
    rewrite !Z.eqb_refl, !Z.leb_refl, (bool_decide_eq_true_2 (status s = status s)),
      (bool_decide_eq_true_2 (effective_checkout_at s = effective_checkout_at s)) by done. simpl.
    unfold stamped. set (nw := mkOccupancy _ _ _ _ _ (occupancy_evidence_version _)).
    assert (∀ v, evidence_changed (occupancy s) (mkOccupancy (Some (occ_At occ)) (Some (now env))
      (Some (occ_RevisionID occ)) (Some (occ_NormalizationVersion occ))
      (Some (occ_ClockSuspect occ)) v) = evidence_changed (occupancy s) nw) as Hch by done.
    rewrite Hch. simpl.
    destruct (evidence_changed (occupancy s) nw); simpl;
      rewrite (proj2 (Z.leb_le _ _)), ?Z.add_0_r, Z.eqb_refl by lia; simpl; by destruct (status s).
  - split_and!; try done.
    + apply checks_parts. simpl. split_and!; try done; [|by apply Z.ltb_lt].
      unfold version_coherent, stamped in *. simpl. apply Z.ltb_lt.
      set (nw := mkOccupancy _ _ _ _ _ (occupancy_evidence_version _)).
      destruct (occupancy_evidence_at (occupancy s)) eqn:Hat.
      * apply Z.ltb_lt in Hv. destruct (evidence_changed _ _); lia.
      * apply Z.eqb_eq in Hv. unfold evidence_changed. rewrite Hat. simpl. lia.
    + unfold stay_fks, revision_fk. simpl. rewrite Hrev.
      unfold event_fk in *. simpl. rewrite Hfk. by rewrite bool_decide_eq_true_2.
Qed.

(** ** Updates of guests *)

Lemma exists_row_false {A} (p : string → A → bool) (m : gmap string A) :
  exists_row p m = false ↔ ∀ k a, m !! k = Some a → p k a = false.
Proof.
  unfold exists_row. split.
  - intros H k a Hk. apply not_true_is_false. intros Hp.
    assert (existsb (λ '(k, a), p k a) (map_to_list m) = true); [|congruence].
    apply existsb_exists. exists (k, a). split; [|done].
    apply list_elem_of_In, elem_of_map_to_list. done.
  - intros H. apply not_true_is_false. intros ([k a] & Hin & Hp)%existsb_exists.
    apply list_elem_of_In, elem_of_map_to_list in Hin. rewrite H in Hp; done.
Qed.

(** One guest of the stay is written: the rest of the tables stays. *)
Lemma set_guest_inv sid db0 evs db gid g :
  inv sid db0 evs db → guest_ok db g → guest_stay g = sid →
  (∀ old, guests db !! gid = Some old → guest_stay old = sid) →
  guest_constraints db gid g = Ok () →
  inv sid db0 evs (set_guests db (<[gid := g]> (guests db))).
Proof.
  intros ([H1 H2 H3 H4 H5] & Ht & Hev) Hg Hsid Hold Hcon. split_and!; [| |done].
  - split; try done.
    + apply map_Forall_insert_2; [done|]. intros k g' Hk. exact (H2 _ _ Hk).
    + assert (is_primary g = true → ∀ k g', guests db !! k = Some g' → k ≠ gid →
              guest_stay g' = guest_stay g → is_primary g' = false) as Hno.
      { intros Hp k g' Hk Hne Hs. revert Hcon. unfold guest_constraints.
        destruct (is_primary g && other_primary db gid g) eqn:E; [done|]. intros _.
        rewrite Hp in E. apply (proj1 (exists_row_false _ _) E) in Hk.
        rewrite !bool_decide_eq_true_2 in Hk by done. done. }
      intros k1 k2 g1 g2. simpl.
      destruct (decide (k1 = gid)) as [->|Hn1], (decide (k2 = gid)) as [->|Hn2];
        rewrite ?lookup_insert_eq, ?lookup_insert_ne by done; [done| | |apply H3].
      * intros [= <-] Hk2 Hs Hp1 Hp2. rewrite (Hno Hp1 _ _ Hk2) in Hp2; done.
      * intros Hk1 [= <-] Hs Hp1 Hp2. rewrite (Hno Hp2 _ _ Hk1) in Hp1; done.
  - eapply touches_trans; [exact Ht|]. split; simpl; try done.
    + intros s Hs. exists s. split_and!; done || lia.
    + intros k g' Hk Hne. destruct (decide (k = gid)) as [->|]; [|by rewrite lookup_insert_ne].
      by apply Hold in Hk.
Qed.

Lemma demote_inv sid ext db0 evs db :
  inv sid db0 evs db → inv sid db0 evs (demote_others sid ext db).
Proof.
  intros ([H1 H2 H3 H4 H5] & Ht & Hev). unfold demote_others.
  set (f := λ g : StayGuest, if bool_decide (guest_stay g = sid) && is_primary g
              && bool_decide (COALESCE (external_guest_id g) ≠ ext) then demoted g else g).
  assert (∀ g, guest_stay (f g) = guest_stay g ∧ (is_primary (f g) = true → is_primary g = true)
               ∧ (guest_ok db g → guest_ok db (f g)) ∧ (guest_stay g ≠ sid → f g = g)) as Hf.
  { intros g. unfold f. destruct (bool_decide (guest_stay g = sid)) eqn:E; simpl; [|done].
    destruct (_ && _); simpl; [|done]. apply bool_decide_eq_true_1 in E. done. }
  split_and!; [| |done].
  - split; try done.
    + simpl. intros k g' (g & <- & Hg)%lookup_fmap_Some. apply (Hf g). exact (H2 _ _ Hg).
    + simpl. intros k1 k2 g1 g2 (a1 & <- & Ha1)%lookup_fmap_Some (a2 & <- & Ha2)%lookup_fmap_Some.
      destruct (Hf a1) as (-> & P1 & _), (Hf a2) as (-> & P2 & _). intros. eapply H3; eauto.
  - eapply touches_trans; [exact Ht|]. split; simpl; try done.
    + intros s Hs. exists s. split_and!; done || lia.
    + intros k g Hk Hne. rewrite lookup_fmap, Hk. simpl. f_equal. by apply Hf.
Qed.

Section rows.
Context {MR : MapRange}.

Lemma elem_of_rows {A} (p : A → bool) (m : gmap string A) k a :
  (k, a) ∈ rows p m ↔ m !! k = Some a ∧ p a = true.
Proof.
  unfold rows. rewrite list_elem_of_omap. split.
  - intros (k' & _ & H). destruct (m !! k') as [a'|] eqn:E; [|done].
    destruct (p a') eqn:Hp; naive_solver.
  - intros [Hm Hp]. exists k. rewrite elem_of_range. split; [by apply elem_of_dom_2 in Hm|].
    by rewrite Hm, Hp.
Qed.

Lemma first_row_Some {A} (p : A → bool) (m : gmap string A) k a :
  first_row p m = Some (k, a) → m !! k = Some a ∧ p a = true.
Proof.
  unfold first_row. intros H%head_Some_elem_of. by apply elem_of_rows.
Qed.

Lemma first_row_None {A} (p : A → bool) (m : gmap string A) k a :
  first_row p m = None → m !! k = Some a → p a = false.
Proof.
  unfold first_row. intros H Hm. apply not_true_is_false. intros Hp.
  assert ((k, a) ∈ rows p m) as Hin by (by apply elem_of_rows).
  destruct (rows p m); [by apply elem_of_nil in Hin|done].
Qed.
End rows.

(** ** The statements of one event *)

(** The errors a call may return whatever the tables hold. *)
Definition tolerated (e : error) : Prop :=
  connection_error e ∨ e = Sql (DuplicateKey "stays_pkey") ∨
  e = Sql (DuplicateKey "stay_guests_pkey") ∨ e = Sql (DuplicateKey "one_primary_guest_per_stay") ∨
  e = Error "cannot scan NULL into *bool".

Lemma tolerated_connection e : connection_error e → tolerated e.
Proof. by left. Qed.
#[export] Hint Resolve tolerated_connection : onegate.

Section event.
Context {UC : Unicode} {MR : MapRange}.
Context (X : error → Prop) (HX : ∀ e, tolerated e → X e).

Lemma X_connection e : connection_error e → X e.
Proof. intros H. by apply HX, tolerated_connection. Qed.

(** A statement that keeps the invariant, whatever it finds. *)
Lemma exec_inv sid db0 evs (f : DB → res sql_error DB) :
  (∀ db, inv sid db0 evs db →
     match f db with Ok db' => inv sid db0 evs db' | Err e => tolerated (Sql e) end) →
  triple (inv sid db0 evs) (exec f) (λ _, inv sid db0 evs) X.
Proof.
  intros H. apply triple_pre. intros db Hdb. apply triple_exec; [apply X_connection|].
  specialize (H db Hdb). destruct (f db); auto.
Qed.

Lemma skip_inv sid db0 evs : triple (inv sid db0 evs) (mret () : TX DB ()) (λ _, inv sid db0 evs) X.
Proof. by apply triple_ret. Qed.

Lemma update_inv sid db0 evs f :
  (∀ db s, inv sid db0 evs db → stays db !! sid = Some s → stay_ok db s → good_update db s (f s)) →
  triple (inv sid db0 evs) (exec (update_stay sid f)) (λ _, inv sid db0 evs) X.
Proof.
  intros H. apply exec_inv. intros db Hdb.
  pose proof (update_stay_inv sid f db0 evs db Hdb (λ s Hs Ho, H db s Hdb Hs Ho)) as Hu.
  destruct (update_stay sid f db); [by destruct Hu|done].
Qed.

Lemma fill_ne new old : old ≠ Some "" → fill new old ≠ Some "".
Proof.
  intros H. unfold fill. pose proof (NULLIF_ne new). by destruct (NULLIF new).
Qed.

Lemma guest_constraints_tolerated db gid g e :
  guest_constraints db gid g = Err e → tolerated (Sql e).
Proof.
  unfold guest_constraints. destruct (negb _); [done|]. intros [= <-]. do 3 right. by left.
Qed.

Lemma update_guest_inv sid db0 evs db gid g f :
  inv sid db0 evs db → guests db !! gid = Some g → guest_stay g = sid →
  guest_stay (f g) = guest_stay g → (guest_ok db g → guest_ok db (f g)) →
  match update_guest gid f db with Ok db' => inv sid db0 evs db' | Err e => tolerated (Sql e) end.
Proof.
  intros Hi Hg Hs Hst Hok. unfold update_guest. rewrite Hg.
  destruct (guest_constraints db gid (f g)) as [[]|e] eqn:E; simpl;
    [|by eapply guest_constraints_tolerated].
  apply set_guest_inv; try done; [|congruence|congruence].
  apply Hok. exact (ok_guests _ (proj1 Hi) _ _ Hg).
Qed.

Lemma insert_guest_inv sid db0 evs db gid g :
  inv sid db0 evs db → guest_ok db g → guest_stay g = sid →
  match insert_guest gid g db with Ok db' => inv sid db0 evs db' | Err e => tolerated (Sql e) end.
Proof.
  intros Hi Hg Hs. unfold insert_guest.
  destruct (decide (guests db !! gid = None)) as [Hn|Hn].
  2:{ rewrite bool_decide_eq_false_2 by done. simpl. right. right. by left. }
  rewrite bool_decide_eq_true_2 by done. simpl.
  destruct (guest_constraints db gid g) as [[]|e] eqn:E; simpl;
    [|by eapply guest_constraints_tolerated].
  destruct Hg as [Hfk Hg]. rewrite Hfk. simpl. apply set_guest_inv; try done; congruence.
Qed.

(** The stay the event writes to, known from the start. *)
Section stay.
Context (sid : string) (db0 : DB) (s0 : Stay) (evs : gmap string StayEvent).
Hypothesis (Hs0 : stays db0 !! sid = Some s0).

Lemma inv_stay db : inv sid db0 evs db →
  ∃ s, stays db !! sid = Some s ∧ stay_scope s = stay_scope s0 ∧
       (status s0 = IN_HOUSE → status s = IN_HOUSE).
Proof.
  intros (_ & Ht & _). destruct (t_stay _ _ _ Ht _ Hs0) as (s & ? & ? & _ & ? & _). eauto.
Qed.

Lemma new_guest_ok db ext first last display prim :
  inv sid db0 evs db →
  guest_ok db (mkStayGuest (stay_scope s0) sid (NULLIF ext) (NULLIF first) (NULLIF last)
                 (NULLIF display) prim).
Proof.
  intros Hi. destruct (inv_stay _ Hi) as (s & Hs & Hsc & _).
  split_and!; simpl; try apply NULLIF_ne. unfold guest_fk. simpl. rewrite Hs, Hsc.
  by apply bool_decide_eq_true_2.
Qed.

Lemma applySharer_inv s :
  triple (inv sid db0 evs) (applySharer (stay_scope s0) sid s) (λ _, inv sid db0 evs) X.
Proof.
  unfold applySharer. apply (triple_bind _ _ _ (λ _, inv sid db0 evs)).
  { destruct (IsPrimary s); [|apply skip_inv].
    apply exec_inv. intros db Hdb. by apply demote_inv. }
  intros []. apply triple_pre. intros db Hdb. apply triple_read; [apply X_connection|].
  intros row Hrow. destruct row as [[gid g]|].
  - symmetry in Hrow. apply first_row_Some in Hrow as [Hg Hm].
    apply triple_exec; [apply X_connection|].
    unfold matches_sharer in Hm. zify_guards.
    assert (match update_guest gid (refreshed s) db with
            | Ok db' => inv sid db0 evs db' | Err e => tolerated (Sql e) end) as Hu.
    { eapply update_guest_inv; try done. intros (? & ? & ? & ? & ?).
      split_and!; simpl; try done; by apply fill_ne. }
    destruct (update_guest gid (refreshed s) db); auto.
  - eapply triple_bind; [apply (triple_uuid _ (λ _ d, d = db)); by intros|].
    intros gid. apply triple_exec; [apply X_connection|].
    pose proof (insert_guest_inv sid db0 evs db gid _ Hdb
      (new_guest_ok db (ExternalGuestID s) (Name (sh_FirstName s)) (Name (sh_LastName s))
         (displayName (sh_FirstName s) (sh_LastName s)) (IsPrimary s) Hdb) eq_refl) as Hu.
    destruct (insert_guest _ _ _); auto.
Qed.

Lemma applySharers_inv l :
  triple (inv sid db0 evs) (applySharers (stay_scope s0) sid l) (λ _, inv sid db0 evs) X.
Proof.
  induction l as [|s l IH]; [apply skip_inv|].
  eapply triple_bind; [apply applySharer_inv|intros []; exact IH].
Qed.

Lemma upsertPrimaryGuest_inv ev :
  triple (inv sid db0 evs) (upsertPrimaryGuest (stay_scope s0) sid ev) (λ _, inv sid db0 evs) X.
Proof.
  unfold upsertPrimaryGuest. eapply triple_bind; [apply (triple_uuid _ (λ _, inv sid db0 evs)); by intros|].
  intros gid. apply exec_inv. intros db Hdb. unfold upsert_primary.
  destruct (first_row _ (guests db)) as [[k g]|] eqn:Hrow.
  - apply first_row_Some in Hrow as [Hg Hm]. zify_guards.
    eapply update_guest_inv; try done. intros (? & ? & ? & ? & ?).
    split_and!; simpl; try done; apply NULLIF_ne.
  - apply insert_guest_inv; try done.
    exact (new_guest_ok db "" _ _ _ true Hdb).
Qed.

Lemma applyOccupancyFacts_inv ev :
  triple (inv sid db0 evs) (applyOccupancyFacts (stay_scope s0) sid ev) (λ _, inv sid db0 evs) X.
Proof.
  unfold applyOccupancyFacts. destruct (Sharers ev) as [|s l].
  - destruct (_ || _); [apply upsertPrimaryGuest_inv|apply skip_inv].
  - apply applySharers_inv.
Qed.

Lemma applyGuestAttributes_inv ev :
  triple (inv sid db0 evs) (applyGuestAttributes sid ev) (λ _, inv sid db0 evs) X.
Proof.
  unfold applyGuestAttributes.
  destruct (TravelAgent ev), (VIP ev); try apply skip_inv;
    apply update_inv; intros; by apply with_attributes_good.
Qed.

(** The evidence an event carries names the interface's pinned revision. *)
Definition evidence_ok (occ : occupancyEvidence) : Prop :=
  occ_RevisionID occ ≠ "" → 0 < occ_NormalizationVersion occ →
  ∃ n, revisions db0 !! occ_RevisionID occ = Some (stay_scope s0, n).

Lemma stamp_inv env occ :
  evidence_ok occ →
  triple (inv sid db0 evs) (stampOccupancyEvidence env sid occ) (λ _, inv sid db0 evs) X.
Proof.
  intros Hocc. unfold stampOccupancyEvidence.
  destruct (_ || _) eqn:E; [apply skip_inv|].
  rewrite !orb_false_iff in E. destruct E as [[[_ _] Hr%empty_false] Hn%Z.leb_gt].
  apply update_inv. intros db s Hi Hs Hok. apply stamp_good; [done|lia|].
  destruct (inv_stay _ Hi) as (s' & Hs' & Hsc & _). destruct Hi as (_ & Ht & _).
  rewrite (t_revisions _ _ _ Ht). replace (stay_scope s) with (stay_scope s0) by congruence.
  apply Hocc; [done|lia].
Qed.
End stay.

(** ** Applying a decision *)

Definition fresh_stay (sc : scope) (ev : InboxEvent) : Stay :=
  mkStay sc (Reservation ev) (Reservation ev) (NULLIF (Room (ev_Room ev)))
    IN_HOUSE 1 0 None None None (parseYYMMDD (ArrivalRaw ev)) (parseYYMMDD (DepartureRaw ev))
    None no_evidence.

Lemma insert_stay_inv sc ev id db :
  db_ok db → id ≠ "" →
  (∀ k s, stays db !! k = Some s → of_reservation sc (Reservation ev) s = false) →
  match insert_stay id (fresh_stay sc ev) db with
  | Ok db' => inv id db (events db) db' ∧ stays db' !! id = Some (fresh_stay sc ev)
              ∧ revisions db' = revisions db
  | Err e => tolerated (Sql e)
  end.
Proof.
  intros [H1 H2 H3 H4 H5] Hid Hnone. unfold insert_stay.
  destruct (decide (stays db !! id = None)) as [Hn|Hn].
  2:{ rewrite bool_decide_eq_false_2 by done. simpl. right. by left. }
  rewrite bool_decide_eq_true_2 by done. simpl.
  rewrite (proj2 (exists_row_false _ _)).
  2:{ intros k s Hs. specialize (Hnone _ _ Hs). unfold of_reservation, same_stay_key in *. simpl.
      apply andb_false_iff in Hnone as [Hb|Hb]; apply bool_decide_eq_false_1 in Hb.
      - by rewrite bool_decide_eq_false_2 by congruence.
      - rewrite (bool_decide_eq_false_2 (Reservation ev = _)) by congruence. by rewrite andb_false_r. }
  simpl. split_and!; [|apply lookup_insert_eq|done]. split_and!; [| |done].
  - split; simpl; try done.
    + apply map_Forall_insert_2; [|exact H1]. split; [done|].
      split_and!; try done. apply NULLIF_ne.
    + intros gid g Hg. destruct (H2 _ _ Hg) as [Hfk ?]. split; [|done].
      eapply guest_fk_ext; [|exact Hfk]. simpl. intros s Hs. exists s.
      rewrite lookup_insert_ne; [done|]. congruence.
  - split; simpl; try done; [intros k Hk; by rewrite lookup_insert_ne|congruence].
Qed.

(** The stay an event found, if any. *)
Definition found (sc : scope) (db : DB) (cur : option StayView) : Prop :=
  match cur with
  | None => True
  | Some c => ∃ s, stays db !! sv_ID c = Some s ∧ stay_scope s = sc ∧ c = view (sv_ID c) s
  end.

Definition result_ok (sc : scope) (r : string * ProcessingStatus * string) (db : DB) : Prop :=
  let '(sid, terminal, code) := r in
  let resolved := sid ≠ "" ∧ ∃ s, stays db !! sid = Some s ∧ stay_scope s = sc in
  match terminal with
  | APPLIED => code = "" ∧ resolved
  | SKIPPED_DUPLICATE => code = "" ∧ (sid = "" ∨ resolved)
  | MANUAL_REVIEW => sid = "" ∧ bounded_code code = true
  | _ => False
  end.

Definition applied (sc : scope) (db0 : DB) (r : string * ProcessingStatus * string) (db : DB) : Prop :=
  inv r.1.1 db0 (events db0) db ∧ result_ok sc r db.

(** Work on the found stay, ending in an applied event. *)
Lemma applied_of {A} sc db0 id s (m : TX DB A) (k : A → TX DB (string * ProcessingStatus * string)) :
  db_ok db0 → stays db0 !! id = Some s → stay_scope s = sc →
  triple (λ d, d = db0) m (λ _, inv id db0 (events db0)) X →
  (∀ a, triple (inv id db0 (events db0)) (k a)
          (λ r d, r = (id, APPLIED, "") ∧ inv id db0 (events db0) d) X) →
  triple (λ d, d = db0) (m ≫= k) (λ r d, r = (id, APPLIED, "") ∧ applied sc db0 r d) X.
Proof.
  intros Hok Hs Hsc Hm Hk. eapply triple_bind; [exact Hm|]. intros a.
  eapply triple_conseq; [apply Hk|done|].
  intros r d [-> Hi]. split; [done|]. split; [done|]. simpl. split; [done|].
  split; [exact (proj1 (ok_stays _ Hok _ _ Hs))|].
  destruct (inv_stay _ _ _ _ Hs _ Hi) as (s' & ? & ? & _). exists s'. by rewrite <- Hsc.
Qed.

Lemma inv_start id db0 : db_ok db0 → inv id db0 (events db0) db0.
Proof. intros H. split_and!; [done|apply touches_refl|done]. Qed.

Lemma recordUnchanged_reads sc id ev db s :
  stays db !! id = Some s → stay_scope s = sc →
  triple (λ d, d = db) (recordUnchanged sc id ev)
    (λ b d, d = db ∧ (b = true → stated_same ev s = Some true ∧
       occupants_unchanged (snd <$> rows (λ g, bool_decide (guest_stay g = id)
          && same_site sc (guest_scope g)) (guests db)) ev = true)) X.
Proof.
  intros Hs Hsc. unfold recordUnchanged. apply triple_read; [apply X_connection|].
  intros a ->. rewrite Hs. simpl. unfold same_site at 1. rewrite bool_decide_eq_true_2 by congruence.
  destruct (stated_same ev s) as [[]|].
  - apply triple_read; [apply X_connection|]. intros have ->. apply triple_ret. auto.
  - apply triple_ret. by intros d ->.
  - apply triple_fail. apply HX. by do 4 right.
Qed.

(** What each decision presupposes of the event and the stay. *)
Definition decision_shape (ev : InboxEvent) (cur : option StayView) (d : StayDecision) : Prop :=
  match d_Op d with
  | OpCreateStay => cur = None ∧ EventType ev = EvGuestIn
  | OpUpdateStay => ∃ c, cur = Some c ∧
      (d_NewStatus d = None ∨ d_NewStatus d = Some IN_HOUSE ∧ sv_Status c = RESERVED)
  | OpRoomMove => ∃ c, cur = Some c ∧ sv_Status c = IN_HOUSE
  | OpCheckout => ∃ c, cur = Some c ∧ sv_Status c = IN_HOUSE ∧ EventType ev = EvGuestOut ∧
      moved_room ev c = false
  | OpReinstate => ∃ c, cur = Some c ∧ sv_Status c = CHECKED_OUT
  | OpVacateOldRoom => ∃ c, cur = Some c ∧ EventType ev = EvGuestOut ∧ moved_room ev c = true
  | OpSkipDuplicate => True
  | OpManualReview => bounded_code (d_ReviewCode d) = true
  end.

Lemma Resolve_shape ev cur : decision_shape ev cur (Resolve ev cur).
Proof.
  unfold Resolve, decision_shape. destruct (already_applied ev cur); [done|].
  repeat (case_decide; [destruct cur as [c|]; [destruct (sv_Status c) eqn:?|]|]); simpl; try done;
    try (destruct (room_changed ev c); simpl); try (destruct (moved_room ev c) eqn:?; simpl);
    eauto 8.
Qed.

Lemma finish_applied id db0 env occ sc s :
  stays db0 !! id = Some s → stay_scope s = sc → evidence_ok db0 s occ →
  triple (inv id db0 (events db0))
    (stampOccupancyEvidence env id occ ≫= λ _, mret (id, APPLIED, ""))
    (λ r d, r = (id, APPLIED, "") ∧ inv id db0 (events db0) d) X.
Proof.
  intros Hs Hsc Hev. eapply triple_bind; [by eapply stamp_inv|]. intros []. by apply triple_ret.
Qed.

Lemma create_applied env sc ev occ db0 :
  db_ok db0 →
  (∀ k s, stays db0 !! k = Some s → of_reservation sc (Reservation ev) s = false) →
  (occ_RevisionID occ ≠ "" → 0 < occ_NormalizationVersion occ →
     ∃ n, revisions db0 !! occ_RevisionID occ = Some (sc, n)) →
  triple (λ d, d = db0)
    (createStay sc ev ≫= λ sid, applyGuestAttributes sid ev ≫= λ _,
     applyOccupancyFacts sc sid ev ≫= λ _, stampOccupancyEvidence env sid occ ≫= λ _,
     mret (sid, APPLIED, "")) (applied sc db0) X.
Proof.
  intros Hok Hnone Hocc.
  apply (triple_bind _ _ _ (λ sid d, inv sid db0 (events db0) d ∧ sid ≠ "" ∧
           stays d !! sid = Some (fresh_stay sc ev) ∧ revisions d = revisions db0)).
  { unfold createStay.
    eapply triple_bind; [apply (triple_uuid _ (λ u d, u ≠ "" ∧ d = db0)); by intros|].
    intros id. apply triple_pre. intros db [Hid ->].
    apply (triple_bind _ _ _ (λ _ d, inv id db0 (events db0) d ∧
           stays d !! id = Some (fresh_stay sc ev) ∧ revisions d = revisions db0)).
    - apply triple_exec; [apply X_connection|].
      pose proof (insert_stay_inv sc ev id db0 Hok Hid Hnone) as Hi.
      unfold fresh_stay in *. destruct (insert_stay _ _ db0); [done|auto].
    - intros []. apply triple_ret. naive_solver. }
  intros sid. apply triple_pre. intros db1 (Hi & Hid & Hs & Hrev).
  assert (db_ok db1) as Hok1 by apply Hi.
  eapply (triple_conseq _ (λ d, d = db1)); [|done|].
  - apply (applied_of sc db1 sid _ _ _ Hok1 Hs eq_refl).
    + eapply triple_conseq; [by eapply applyGuestAttributes_inv|intros ? ->; by apply inv_start|done].
    + intros []. eapply triple_bind; [exact (applyOccupancyFacts_inv sid db1 _ _ Hs ev)|].
      intros []. eapply finish_applied; [exact Hs|done|].
      intros ? ?. simpl. rewrite Hrev. auto.
  - intros r d (-> & (Hokd & Ht & He) & Hr). split; [|done]. simpl in *.
    destruct Hi as (_ & Ht0 & He0). split_and!; [done| |congruence].
    by eapply touches_trans.
Qed.

(** The first write to a stay that was just read. *)
Lemma first_update id db0 s f :
  db_ok db0 → stays db0 !! id = Some s → good_update db0 s (f s) →
  triple (λ d, d = db0) (exec (update_stay id f)) (λ _, inv id db0 (events db0)) X.
Proof.
  intros Hok Hs Hg. apply triple_exec; [apply X_connection|].
  pose proof (update_stay_inv id f db0 (events db0) db0 (inv_start _ _ Hok)) as Hu.
  destruct (update_stay id f db0); [apply Hu|apply HX; exfalso; apply Hu];
    intros s' Hs' _; rewrite Hs in Hs'; by injection Hs' as <-.
Qed.

Lemma full_update_inv sc id ev new db0 s :
  db_ok db0 → stays db0 !! id = Some s → stay_scope s = sc →
  (new = None ∨ new = Some IN_HOUSE ∧ status s = RESERVED) →
  triple (λ d, d = db0) (full_update sc id ev new) (λ _, inv id db0 (events db0)) X.
Proof.
  intros Hok Hs <- Hnew. pose proof (ok_stays _ Hok _ _ Hs) as [_ Hsok]. unfold full_update.
  eapply triple_bind; [eapply first_update; try done|].
  { destruct Hnew as [->|[-> Hst]]; [by apply with_dates_quiet_good|by apply arrive_good]. }
  intros []. eapply triple_bind; [apply applyGuestAttributes_inv|].
  intros []. by apply applyOccupancyFacts_inv.
Qed.

Lemma applyDecision_applied env sc ev cur delegate occ db0 :
  db_ok db0 → found sc db0 cur →
  (EventType ev = EvGuestIn → cur = None →
     ∀ k s, stays db0 !! k = Some s → of_reservation sc (Reservation ev) s = false) →
  (occ_RevisionID occ ≠ "" → 0 < occ_NormalizationVersion occ →
     ∃ n, revisions db0 !! occ_RevisionID occ = Some (sc, n)) →
  (delegate = false → X ErrCheckoutConverterRequired) →
  triple (λ d, d = db0) (applyDecision env sc ev cur (Resolve ev cur) delegate occ)
    (λ r d, applied sc db0 r d ∧
       (d_Op (Resolve ev cur) = OpCheckout → d = db0 ∧ ∃ c, cur = Some c ∧ r = (sv_ID c, APPLIED, ""))) X.
Proof.
  intros Hok Hf Hnone Hocc Hdel. pose proof (Resolve_shape ev cur) as Hshape.
  unfold applyDecision, decision_shape in *. set (d := Resolve ev cur) in *.
  assert (∀ c, cur = Some c → applied sc db0 (sv_ID c, APPLIED, "") db0) as Hsame.
  { intros c ->. destruct Hf as (s & Hs & Hsc & _).
    split; [by apply inv_start|]. split; [done|]. split; [exact (proj1 (ok_stays _ Hok _ _ Hs))|eauto]. }
  assert (∀ {A} c s (m : TX DB A) k, cur = Some c →
    stays db0 !! sv_ID c = Some s → stay_scope s = sc → d_Op d ≠ OpCheckout →
    triple (λ d, d = db0) m (λ _, inv (sv_ID c) db0 (events db0)) X →
    (∀ a, triple (inv (sv_ID c) db0 (events db0)) (k a)
       (λ r d, r = (sv_ID c, APPLIED, "") ∧ inv (sv_ID c) db0 (events db0) d) X) →
    triple (λ d, d = db0) (m ≫= k) (λ r d', applied sc db0 r d' ∧
       (d_Op d = OpCheckout → d' = db0 ∧ ∃ c, cur = Some c ∧ r = (sv_ID c, APPLIED, ""))) X) as Hwork.
  { intros A c s m k _ Hs Hsc Hne Hm Hk. eapply triple_conseq; [by eapply (applied_of sc db0)|done|].
    intros r d' [_ ?]. by split. }
  destruct (d_Op d) eqn:Hop.
  - destruct Hshape as [-> ?]. eapply triple_conseq; [apply create_applied; eauto|done|done].
  - destruct Hshape as (c & -> & Hnew). destruct Hf as (s & Hs & Hsc & Hc).
    apply (triple_bind _ _ _ (λ _ d, d = db0)).
    { destruct (decide (d_NewStatus d = None)); [|by apply triple_ret].
      eapply triple_conseq; [by apply (recordUnchanged_reads sc _ ev db0 s)|done|by intros ? ? []]. }
    intros same. apply (Hwork _ c s); try done.
    + destruct same; [apply triple_ret; intros ? ->; by apply inv_start|].
      eapply full_update_inv; eauto. by rewrite Hc in Hnew.
    + intros []. eapply finish_applied; eauto. intros ? ?. rewrite Hsc. auto.
  - destruct Hshape as (c & -> & Hst). destruct Hf as (s & Hs & Hsc & Hc).
    pose proof (ok_stays _ Hok _ _ Hs) as [_ Hsok].
    apply (Hwork _ c s); try done; [by eapply first_update, with_room_good|].
    intros []. eapply triple_bind; [apply applyGuestAttributes_inv|]. intros [].
    eapply finish_applied; eauto. intros ? ?. rewrite Hsc. auto.
  - destruct Hshape as (c & -> & _). destruct delegate; [|apply triple_fail; auto].
    apply triple_ret. intros ? ->. split; [by apply Hsame|eauto].
  - destruct Hshape as (c & -> & Hst). destruct Hf as (s & Hs & Hsc & Hc).
    pose proof (ok_stays _ Hok _ _ Hs) as [_ Hsok]. rewrite Hc in Hst.
    apply (Hwork _ c s); try done; [by eapply first_update, reinstate_good|].
    intros []. apply (triple_bind _ _ _ (λ _, inv (sv_ID c) db0 (events db0))).
    { destruct (d_RoomMove d); [|apply skip_inv]. apply update_inv. intros. by apply with_room_good. }
    intros []. eapply triple_bind; [apply applyGuestAttributes_inv|]. intros [].
    eapply finish_applied; eauto. intros ? ?. rewrite Hsc. auto.
  - destruct Hshape as (c & -> & _). apply triple_ret. intros ? ->. split; [by apply Hsame|done].
  - apply triple_ret. intros ? ->. split; [|done]. destruct cur as [c|].
    + destruct (Hsame c eq_refl) as [? [_ ?]]. split; [done|]. simpl. eauto.
    + split; [by apply inv_start|]. simpl. eauto.
  - apply triple_ret. intros ? ->. split; [|done]. split; [by apply inv_start|]. by simpl.
Qed.

(** ** Finishing *)

Lemma event_guard_ok sc db e sid terminal code at_ :
  result_ok sc (sid, terminal, code) db → processing_status e = PENDING →
  event_stay_id e = None → event_scope e = sc →
  p3_stay_event_appendonly db e (with_result terminal sid code at_ e) = Ok ().
Proof.
  intros Hr Hp Hn Hsc. unfold p3_stay_event_appendonly.
  rewrite decide_False by (by intros []). simpl.
  assert (∀ s, sid ≠ "" → stays db !! sid = Some s → stay_scope s = sc →
          NULLIF sid = Some sid ∧ (match stays db !! sid with
            | Some s => bool_decide (stay_scope s = event_scope e) | None => false end) = true) as Hres.
  { intros s Hne -> ->. unfold NULLIF. rewrite (proj2 (empty_false sid)) by done.
    split; [done|]. by apply bool_decide_eq_true_2. }
  destruct terminal; try done; simpl in Hr; rewrite decide_False by done; simpl.
  - destruct Hr as (-> & Hne & s & Hs & Hss). destruct (Hres s Hne Hs Hss) as [-> Hb]. simpl.
    rewrite Hn, Hb. reflexivity.
  - destruct Hr as (-> & [->|(Hne & s & Hs & Hss)]); [done|].
    destruct (Hres s Hne Hs Hss) as [-> Hb]. simpl.
    rewrite Hn, Hb. reflexivity.
  - destruct Hr as [-> Hb]. simpl. unfold NULLIF.
    destruct (empty code) eqn:E; [apply empty_true in E; by subst|]. simpl. by rewrite Hb.
Qed.

(** The event is terminal and the stay carries its lineage. *)
Definition finished (env : Env) (db0 : DB) (eid : string) (e : StayEvent)
    (r : string * ProcessingStatus * string) (db : DB) : Prop :=
  let '(sid, terminal, code) := r in
  inv sid db0 (<[eid := with_result terminal sid code (now env) e]> (events db0)) db.

Lemma set_event_inv sid db0 db eid e e' :
  inv sid db0 (events db0) db → events db0 !! eid = Some e → event_scope e' = event_scope e →
  processing_status e' ≠ PENDING →
  inv sid db0 (<[eid := e']> (events db0)) (set_events db (<[eid := e']> (events db))).
Proof.
  intros ([H1 H2 H3 H4 H5] & Ht & He) Hev Hsc Hp. rewrite <- He in Hev |- *. split_and!; [| |done].
  - split; simpl; try done.
    + intros k s Hs. destruct (H1 _ _ Hs) as (? & ? & Hk & ? & ?). unfold stay_ok. split_and!; try done.
      revert Hk. unfold stay_fks, event_fk, revision_fk. simpl.
      destruct (last_applied_event_id s) as [x|]; [|done].
      destruct (decide (x = eid)) as [->|]; [|by rewrite lookup_insert_ne].
      by rewrite lookup_insert_eq, Hev, Hsc.
    + apply map_Forall_insert_2; [done|exact H4].
  - eapply touches_trans; [exact Ht|]. split; try done. simpl.
    intros s Hs. exists s. split_and!; done || lia.
Qed.

Lemma finishEvent_finished env db0 sc eid e r db :
  applied sc db0 r db → events db0 !! eid = Some e → event_scope e = sc →
  processing_status e = PENDING →
  triple (λ d, d = db) (finishEvent env eid r.1.2 r.1.1 r.2)
    (λ _ d, finished env db0 eid e r d ∧
       (r.1.2 = APPLIED → ∀ s, stays db !! r.1.1 = Some s →
          stays d = <[r.1.1 := with_event eid s]> (stays db) ∧ guests d = guests db)) X.
Proof.
  intros [Hi Hr] He Hsc Hp. destruct r as [[sid terminal] code]. simpl in *.
  pose proof Hi as (Hok & _ & Hevs). unfold finishEvent.
  assert (terminal ≠ PENDING) as Ht by (by intros ->).
  pose proof (set_event_inv sid db0 db eid e (with_result terminal sid code (now env) e)
                Hi He eq_refl Ht) as Hfin.
  set (db1 := set_events db _) in Hfin.
  apply (triple_bind _ _ _ (λ b d, b = true ∧ d = db1)).
  { apply triple_statement; [apply X_connection|]. unfold update_event. rewrite Hevs, He.
    rewrite decide_True by done. rewrite (event_guard_ok sc); try done.
    - rewrite <- Hevs. done.
    - rewrite <- Hevs in He. exact (ok_pending _ Hok _ _ He Hp). }
  intros affected. apply triple_pre. intros ? [-> ->].
  destruct (decide (terminal = APPLIED)) as [->|Hna].
  2:{ rewrite bool_decide_eq_false_2 by done. apply triple_ret. by intros ? ->. }
  rewrite bool_decide_eq_true_2 by done. destruct Hr as (-> & Hne & s & Hs & Hss).
  rewrite (proj2 (empty_false sid)) by done. simpl.
  apply triple_exec; [apply X_connection|].
  pose proof (update_stay_inv sid (with_event eid) db0 _ db1 Hfin) as Hu.
  destruct (update_stay sid (with_event eid) db1) as [db2|].
  - destruct Hu as [Hi2 Heq].
    { intros s' Hs' Hok'. change (stays db !! sid = Some s') in Hs'.
      eapply with_event_good; [done|apply lookup_insert_eq|]. simpl. congruence. }
    split; [done|]. intros _ s' Hs'. by rewrite (Heq s' Hs').
  - exfalso. apply Hu. intros s' Hs' Hok'. change (stays db !! sid = Some s') in Hs'.
    eapply with_event_good; [done|apply lookup_insert_eq|]. simpl. congruence.
Qed.
End event.

(** ** One call *)

Section call.
Context {UC : Unicode} {MR : MapRange}.
Context (conv : option Converter) (errors : error → Prop).
Context {HC : ∀ convert, conv = Some convert → CheckoutConverter convert errors}.

(** Every error a call can return. *)
Definition allowed (e : error) : Prop :=
  tolerated e ∨ (conv = None ∧ e = ErrCheckoutConverterRequired) ∨ errors e.

Lemma tolerated_allowed e : tolerated e → allowed e.
Proof. by left. Qed.
Lemma allowed_connection e : connection_error e → allowed e.
Proof. intros H. by left; left. Qed.

Lemma checked_out_ok db sid s b :
  db_ok db → stays db !! sid = Some s → status s = IN_HOUSE →
  db_ok (set_stays db (<[sid := checked_out b s]> (stays db))).
Proof.
  intros [H1 H2 H3 H4 H5] Hs Hst. split; simpl; try done.
  - destruct (H1 _ _ Hs) as (? & Hc & Hk & ? & ?). apply map_Forall_insert_2; [|exact H1].
    apply checks_parts in Hc as (? & ? & ? & ? & ?).
    split; [done|]. split_and!; try done. by apply checks_parts.
  - intros gid g Hg. destruct (H2 _ _ Hg) as [Hfk ?]. split; [|done].
    eapply guest_fk_ext; [|exact Hfk]. simpl. intros s' Hs'.
    destruct (decide (sid = guest_stay g)) as [Heq|]; [|exists s'; by rewrite lookup_insert_ne].
    exists (checked_out b s). rewrite Heq, lookup_insert_eq. rewrite Heq in Hs.
    split; [done|]. simpl. congruence.
Qed.

Definition set_restored (db : DB) (l : list (string * Z * string)) : DB :=
  mkDB (stays db) (guests db) (events db) (runtimes db) (revisions db) l.

(** A restoration never fails the event and writes none of these tables. *)
Lemma restoreRoomMove_quiet env sid episode eid db :
  triple (λ d, d = db) (restoreRoomMove env sid episode eid)
    (λ _ d, ∃ l, d = set_restored db l) (λ _, False).
Proof.
  intros t t' r <-. unfold restoreRoomMove.
  assert (∀ d : DB, d = set_restored d (restored d)) as Hid by (by intros []).
  destruct (exec Ok t) as [t1 [[]|e1]] eqn:E1.
  2:{ intros [= <- <-]. exists (restored (tx_db t)). revert E1. unfold exec, statement.
      destruct (tx_aborted t), (next_statement_fails t); intros [= <- <-]; apply Hid. }
  assert (tx_db t1 = tx_db t) as Hdb1.
  { revert E1. unfold exec, statement. by destruct (tx_aborted t), (next_statement_fails t);
      intros [= <-]. }
  rewrite <- Hdb1. destruct (exec (log_restore env sid episode eid) t1) as [t2 [[]|e2]] eqn:E2.
  - assert (∃ l, tx_db t2 = set_restored (tx_db t1) l) as [l Hl].
    { revert E2. unfold exec, statement, log_restore.
      destruct (tx_aborted t1), (next_statement_fails t1), (restore_accepts env sid episode eid);
        intros [= <-]; eexists; reflexivity. }
    intros [= <- <-]. exists l. rewrite <- Hl. unfold exec, statement.
    by destruct (tx_aborted t2), (next_statement_fails t2).
  - assert (tx_db t2 = tx_db t1) as Hdb2.
    { revert E2. unfold exec, statement, log_restore.
      by destruct (tx_aborted t1), (next_statement_fails t1), (restore_accepts env sid episode eid);
        intros [= <- <-]. }
    intros [= <- <-]. exists (restored (tx_db t1)). unfold rollback_to.
    destruct (next_statement_fails t2); simpl; rewrite ?Hdb2; apply Hid.
Qed.

Lemma set_restored_ok db l : db_ok db → db_ok (set_restored db l).
Proof. intros [H1 H2 H3 H4 H5]. by split. Qed.

Lemma set_restored_touches sid db0 db l : touches sid db0 db → touches sid db0 (set_restored db l).
Proof. intros [H1 H2 H3 H4 H5]. by split. Qed.

(** How an event names the stay it checks out. *)
Definition departure_of (env : Env) (sc : scope) (db : DB) (e : StayEvent) (ev : InboxEvent)
    (sid : string) (s : Stay) : Prop :=
  EventType ev = EvGuestOut ∧ stays db !! sid = Some s ∧ stay_scope s = sc ∧ status s = IN_HOUSE ∧
  ((blank (Reservation ev) = false ∧ external_reservation_id s = Reservation ev ∧
    moved_room ev (view sid s) = false)
   ∨ (blank (Reservation ev) = true ∧ normalized_room_number s = Some (normRoom (ev_Room ev)) ∧
      (∀ k s', stays db !! k = Some s' → in_room sc (normRoom (ev_Room ev)) s' = true → k = sid) ∧
      roomDepartureIsStale (eventAtFor (pms_timestamp_utc e) (received_at e) (clock_suspect e))
        (midnight env <$> arrival s) = false)).

(** The tables after an event was processed. *)
Definition outcome (env : Env) (sc : scope) (db0 : DB) (eid : string) (e : StayEvent) (db : DB) : Prop :=
  ∃ terminal sid code,
    db_ok db ∧ terminal ≠ PENDING ∧
    events db = <[eid := with_result terminal sid code (now env) e]> (events db0) ∧
    (touches sid db0 db ∨
     ∃ ev s b, decode_payload (external_event_identity e) (event_type e) (payload_column e) = Some ev ∧
       departure_of env sc db0 e ev sid s ∧ terminal = APPLIED ∧
       stays db = <[sid := checked_out b (with_event eid s)]> (stays db0) ∧
       guests db = guests db0).

(** What the lookup of the stay establishes. *)
Definition identified (env : Env) (sc : scope) (db : DB) (e : StayEvent) (ev : InboxEvent)
    (cur : option StayView) : Prop :=
  found sc db cur ∧
  (EventType ev = EvGuestIn → cur = None →
     ∀ k s, stays db !! k = Some s → of_reservation sc (Reservation ev) s = false) ∧
  (∀ c s, cur = Some c → stays db !! sv_ID c = Some s → sv_Status c = IN_HOUSE →
     EventType ev = EvGuestOut → moved_room ev c = false → departure_of env sc db e ev (sv_ID c) s).

Lemma rows_unique {A} (p : A → bool) (m : gmap string A) k k' a a' :
  (length (rows p m) <= 1)%nat → m !! k = Some a → p a = true → m !! k' = Some a' → p a' = true → k = k'.
Proof.
  intros Hlen Hk Hp Hk' Hp'.
  assert ((k, a) ∈ rows p m) as H1 by (by apply elem_of_rows).
  assert ((k', a') ∈ rows p m) as H2 by (by apply elem_of_rows).
  destruct (rows p m) as [|x [|y l]]; simpl in Hlen; [by apply elem_of_nil in H1| |lia].
  apply list_elem_of_singleton in H1, H2. congruence.
Qed.

Lemma in_room_parts sc room s :
  in_room sc room s = true → stay_scope s = sc ∧ status s = IN_HOUSE ∧ normalized_room_number s = Some room.
Proof. unfold in_room. intros H. by zify_guards. Qed.

Lemma find_stay_identified env sc e ev db :
  triple (λ d, d = db) (find_stay env sc e ev)
    (λ r d, d = db ∧ match r with
                     | inl code => bounded_code code = true
                     | inr cur => identified env sc db e ev cur
                     end) allowed.
Proof.
  unfold find_stay. destruct (blank (Reservation ev)) eqn:Hb.
  - case_decide as Hgo; [apply triple_ret; by intros ? ->|].
    apply triple_read; [apply allowed_connection|]. intros n Hn.
    case_decide as Hlt; [apply triple_ret; by intros ? ->|].
    apply triple_read; [apply allowed_connection|]. intros [[id s]|] Hrow.
    2:{ apply triple_ret. intros ? ->. split; [done|]. split_and!; [done|by rewrite Hgo|done]. }
    symmetry in Hrow. apply first_row_Some in Hrow as [Hs Hin].
    destruct (roomDepartureIsStale _ _) eqn:Hst; apply triple_ret; intros ? ->; [done|].
    split; [done|]. pose proof (in_room_parts _ _ _ Hin) as (Hsc & Hst' & Hroom).
    split_and!; [by exists s|by rewrite Hgo|].
    intros c s' [= <-] Hs' _ _ _. simpl in Hs'. rewrite Hs in Hs'. injection Hs' as <-.
    split_and!; try done. right. split_and!; try done.
    intros k s' Hk Hin'. eapply (rows_unique (in_room sc (normRoom (ev_Room ev)))); eauto. lia.
  - apply triple_read; [apply allowed_connection|]. intros row Hrow. apply triple_ret. intros ? ->.
    split; [done|]. destruct row as [[id s]|]; simpl.
    + symmetry in Hrow. apply first_row_Some in Hrow as [Hs Hof].
      unfold of_reservation in Hof. zify_guards.
      split_and!; [by exists s|done|].
      intros c s' [= <-] Hs' Hin Hgo Hm. simpl in *. rewrite Hs in Hs'. injection Hs' as <-.
      split_and!; try done. by left.
    + split_and!; [done| |done]. intros _ _ k s Hk. by eapply first_row_None.
Qed.

Lemma review_outcome env sc db eid e code :
  db_ok db → events db !! eid = Some e → event_scope e = sc → processing_status e = PENDING →
  bounded_code code = true →
  triple (λ d, d = db) (failEvent env eid MANUAL_REVIEW code) (λ _ d, outcome env sc db eid e d) allowed.
Proof.
  intros Hok He Hsc Hp Hcode.
  eapply triple_conseq; [eapply (finishEvent_finished allowed tolerated_allowed env db sc eid e
                                   ("", MANUAL_REVIEW, code) db); try done|done|].
  - split; [by apply inv_start|]. by split.
  - intros [] d [(Hokd & Ht & Hev) _]. exists MANUAL_REVIEW, "", code. split_and!; try done. by left.
Qed.

Lemma outcome_restored env sc db0 eid e db l :
  outcome env sc db0 eid e db → outcome env sc db0 eid e (set_restored db l).
Proof.
  intros (tm & sid & code & Hok & Hp & Hev & Hor). exists tm, sid, code. split_and!; try done.
  - by apply set_restored_ok.
  - destruct Hor as [Ht|Hd]; [left; by apply set_restored_touches|by right].
Qed.

Lemma apply_event_outcome env sc db eid e ev cur occ :
  db_ok db → events db !! eid = Some e → event_scope e = sc → processing_status e = PENDING →
  decode_payload (external_event_identity e) (event_type e) (payload_column e) = Some ev →
  identified env sc db e ev cur →
  (occ_RevisionID occ ≠ "" → 0 < occ_NormalizationVersion occ →
     ∃ n, revisions db !! occ_RevisionID occ = Some (sc, n)) →
  triple (λ d, d = db) (apply_event conv env sc eid ev cur occ)
    (λ _ d, outcome env sc db eid e d) allowed.
Proof.
  intros Hok He Hsc Hp Hdec (Hf & Hnone & Hdep) Hocc. unfold apply_event.
  pose proof (Resolve_shape ev cur) as Hshape.
  eapply triple_bind.
  { apply (applyDecision_applied allowed tolerated_allowed env sc ev cur
             (bool_decide (is_Some conv)) occ db); try done.
    intros Hb%bool_decide_eq_false_1. right. left. destruct conv; [by destruct Hb|done]. }
  intros r. apply triple_pre. intros db1 [Happ Hco].
  destruct r as [[sid terminal] code].
  eapply triple_bind.
  { exact (finishEvent_finished allowed tolerated_allowed env db sc eid e
             (sid, terminal, code) db1 Happ He Hsc Hp). }
  intros []. apply triple_pre. intros db2 [Hfin Hline]. simpl in Hfin, Hline.
  assert (terminal ≠ PENDING) as Hterm by (destruct Happ as [_ Hr]; by intros ->).
  assert (outcome env sc db eid e db2) as Hout2.
  { destruct Hfin as (Hok2 & Ht2 & Hev2). exists terminal, sid, code. split_and!; try done. by left. }
  apply (triple_bind _ _ _ (λ _ d, outcome env sc db eid e d)).
  - destruct conv as [convert|] eqn:Hconv; [|apply triple_ret; by intros ? ->].
    destruct (_ && _) eqn:Hcall; [|apply triple_ret; by intros ? ->].
    zify_guards. unfold decision_shape in Hshape. rewrite H in Hshape.
    destruct (Hco H) as [-> (c & -> & Heq)]. injection Heq as -> -> ->.
    destruct Hshape as (c' & [= <-] & Hst & Hgo & Hmv). destruct Hf as (s & Hs & Hss & Hc).
    assert (status s = IN_HOUSE) as Hin by (rewrite Hc in Hst; done).
    destruct (Hline eq_refl s Hs) as [Hst2 Hgs2].
    assert (stays db2 !! sv_ID c = Some (with_event eid s)) as Hs2
      by (rewrite Hst2; apply lookup_insert_eq).
    pose proof (HC convert eq_refl) as [Hcv].
    eapply (triple_conseq _ (λ d, d = db2)); [|done|].
    { eapply triple_errors; [exact (Hcv sc _ eid db2 _ Hs2 Hss Hin)|by right; right]. }
    intros [] d [b ->]. destruct Hfin as (Hok2 & _ & Hev2).
    exists APPLIED, (sv_ID c), "". split_and!; try done; [by apply checked_out_ok|].
    right. exists ev, s, b. split_and!; try done; [by apply Hdep|].
    simpl. rewrite Hst2. apply insert_insert_eq.
  - intros []. destruct cur as [c|]; [|by apply triple_ret].
    destruct (_ && _); [|by apply triple_ret].
    apply triple_pre. intros db3 Hout3.
    apply (triple_errors _ _ _ _ (λ _, False)); [|done].
    eapply triple_conseq; [apply (restoreRoomMove_quiet _ _ _ _ db3)|done|].
    intros [] d [l ->]. by apply outcome_restored.
Qed.

Lemma scan_sharers_codes l seen n :
  scan_sharers l seen n = "" ∨ bounded_code (scan_sharers l seen n) = true.
Proof.
  revert seen n. induction l as [|s l IH]; intros seen n; simpl.
  - case_decide; [by right|by left].
  - destruct (empty _); [apply IH|]. case_decide; [by right|apply IH].
Qed.

Lemma process_event_outcome env sc db eid e occ :
  db_ok db → events db !! eid = Some e → event_scope e = sc → processing_status e = PENDING →
  (occ_RevisionID occ ≠ "" → 0 < occ_NormalizationVersion occ →
     ∃ n, revisions db !! occ_RevisionID occ = Some (sc, n)) →
  triple (λ d, d = db) (process_event conv env sc eid e occ)
    (λ _ d, outcome env sc db eid e d) allowed.
Proof.
  intros Hok He Hsc Hp Hocc. unfold process_event.
  assert (∀ code, bounded_code code = true →
    triple (λ d, d = db) (failEvent env eid MANUAL_REVIEW code ≫= λ _, mret true)
      (λ _ d, outcome env sc db eid e d) allowed) as Hreview.
  { intros code Hcode. eapply triple_bind; [by apply review_outcome|]. intros []. by apply triple_ret. }
  destruct (decode_payload _ _ _) as [ev|] eqn:Hdec; [|by apply Hreview].
  destruct (scan_sharers_codes (Sharers ev) ∅ 0) as [Hv|Hv]; fold (validateSharers (Sharers ev)) in Hv.
  2:{ destruct (negb _) eqn:E; [by apply Hreview|]. apply negb_false_iff, empty_true in E. by rewrite E in Hv. }
  rewrite Hv. simpl. eapply triple_bind; [apply find_stay_identified|].
  intros found0. apply triple_pre. intros ? [-> Hfound]. destruct found0 as [code|cur]; [by apply Hreview|].
  eapply triple_bind; [by apply apply_event_outcome|]. intros []. by apply triple_ret.
Qed.

Lemma claim_Some sc db eid e :
  claim sc db = Some (eid, e) →
  events db !! eid = Some e ∧ event_scope e = sc ∧ processing_status e = PENDING.
Proof.
  unfold claim. destruct (runtimes db !! sc) as [r|]; [|done]. simpl.
  set (l := rows _ _). intros H.
  assert ((eid, e) ∈ l) as Hin.
  { assert (∀ l acc, foldl earlier acc l = Some (eid, e) → acc = Some (eid, e) ∨ (eid, e) ∈ l) as Hl.
    { intros l'. induction l' as [|x l' IH]; intros acc; simpl; [by left|].
      intros [Ha|Ha]%IH; [|by right; right]. destruct acc as [b|]; simpl in Ha.
      - destruct (event_before x b); simplify_eq; [right; left|by left].
      - simplify_eq. right. left. }
    by destruct (Hl _ _ H). }
  apply elem_of_rows in Hin as [He Hc]. unfold consumable in Hc. by zify_guards.
Qed.

Lemma process_body_outcome env sc db :
  db_ok db →
  triple (λ d, d = db) (process_body conv env sc)
    (λ r d, match r with
            | None => claim sc db = None
            | Some _ => ∃ eid e, claim sc db = Some (eid, e) ∧ outcome env sc db eid e d
            end) allowed.
Proof.
  intros Hok. unfold process_body.
  do 2 (apply (triple_bind _ _ _ (λ _ d, d = db));
        [apply triple_exec; [apply allowed_connection|done]|intros []]).
  apply triple_read; [apply allowed_connection|]. intros [[row rev] norm] [= -> -> ->].
  destruct (claim sc db) as [[eid e]|] eqn:Hc; [|apply triple_ret; by intros ? ->].
  destruct (claim_Some _ _ _ _ Hc) as (He & Hsc & Hp).
  eapply triple_bind; [apply (process_event_outcome env sc db eid e); try done|].
  - simpl. intros _. unfold pinned_revision, pinned_norm_version.
    destruct (runtimes db !! sc) as [r|] eqn:Hr; simpl; [|lia].
    destruct (pinned_revision_id r) as [rv|] eqn:Hrv; simpl; [|lia].
    intros _. exact (ok_pinned _ Hok _ _ _ Hr Hrv).
  - intros b. apply triple_ret. eauto.
Qed.
End call.

(** ** The oldest event *)

Lemma string_compare_trans a b c :
  String.compare a b = Lt → String.compare b c = Lt → String.compare a c = Lt.
Proof.
  revert b c. induction a as [|x a IH]; intros [|y b] [|z c]; simpl; try done.
  unfold Ascii.compare.
  destruct (N.compare_spec (Ascii.N_of_ascii x) (Ascii.N_of_ascii y)) as [Hxy|Hxy|Hxy]; try done;
  destruct (N.compare_spec (Ascii.N_of_ascii y) (Ascii.N_of_ascii z)) as [Hyz|Hyz|Hyz]; try done;
  destruct (N.compare_spec (Ascii.N_of_ascii x) (Ascii.N_of_ascii z)) as [Hxz|Hxz|Hxz];
    intros; try done; try lia. eauto.
Qed.

Lemma event_before_trans x y z :
  event_before x y = true → event_before y z = true → event_before x z = true.
Proof.
  unfold event_before. intros H1 H2. apply orb_true_iff.
  apply orb_true_iff in H1, H2.
  destruct H1 as [H1|[H1 L1]%andb_true_iff], H2 as [H2|[H2 L2]%andb_true_iff]; zify_guards;
    [left; apply Z.ltb_lt; lia..|].
  right. apply andb_true_iff. split; [apply Z.eqb_eq; lia|].
  unfold String.ltb in *.
  destruct (String.compare x.1 y.1) eqn:C1, (String.compare y.1 z.1) eqn:C2; try done.
  by rewrite (string_compare_trans _ _ _ C1 C2).
Qed.

Lemma event_before_irrefl x : event_before x x = false.
Proof.
  unfold event_before. rewrite Z.ltb_irrefl, Z.eqb_refl. simpl. unfold String.ltb.
  destruct (String.compare x.1 x.1) eqn:C; try done.
  pose proof (String.compare_antisym x.1 x.1) as C'. by rewrite C in C'.
Qed.

Lemma event_before_total x y :
  event_before x y = true ∨ event_before y x = true ∨ (received_at x.2 = received_at y.2 ∧ x.1 = y.1).
Proof.
  unfold event_before, String.ltb. rewrite (String.compare_antisym y.1 x.1), Z.eqb_sym.
  destruct (Z.ltb_spec (received_at x.2) (received_at y.2)); [by left|].
  destruct (Z.ltb_spec (received_at y.2) (received_at x.2)); [by right; left|].
  assert (received_at y.2 = received_at x.2) as -> by lia. rewrite Z.eqb_refl. simpl.
  destruct (String.compare x.1 y.1) eqn:C; simpl; auto.
  apply String.compare_eq_iff in C. auto.
Qed.

Lemma event_before_neg_trans x y z :
  event_before x y = false → event_before y z = false → event_before x z = false.
Proof.
  intros H1 H2. apply not_true_is_false. intros H3.
  destruct (event_before_total x y) as [?|[Hyx|[Hr Hi]]]; [congruence| |].
  - rewrite (event_before_trans _ _ _ Hyx H3) in H2. done.
  - unfold event_before in *. by rewrite Hr, Hi, H2 in H3.
Qed.

Lemma earliest_spec l acc best :
  foldl earlier acc l = Some best → ∀ x, acc = Some x ∨ x ∈ l → event_before x best = false.
Proof.
  revert acc. induction l as [|y l IH]; intros acc; simpl.
  - intros -> x [[= ->]|Hx]; [apply event_before_irrefl|by apply elem_of_nil in Hx].
  - intros HI. pose proof (IH _ HI) as Hall. intros x Hx.
    destruct acc as [a|]; simpl in Hall.
    + assert (event_before a best = false ∧ event_before y best = false) as [Ha Hy].
      { destruct (event_before y a) eqn:E; pose proof (Hall _ (or_introl eq_refl)) as Hb; split; try done.
        - eapply event_before_neg_trans; [|exact Hb]. apply not_true_is_false. intros E'.
          pose proof (event_before_trans _ _ _ E E') as E2. by rewrite event_before_irrefl in E2.
        - by eapply event_before_neg_trans. }
      destruct Hx as [[= ->]|[->|Hx]%elem_of_cons]; auto.
    + destruct Hx as [?|[->|Hx]%elem_of_cons]; auto. done.
Qed.

Lemma claim_oldest {MR : MapRange} sc db eid e r eid' e' :
  claim sc db = Some (eid, e) → runtimes db !! sc = Some r →
  events db !! eid' = Some e' → event_scope e' = sc → consumable r e' = true →
  event_before (eid', e') (eid, e) = false.
Proof.
  unfold claim. intros Hc Hr He Hsc Hcon. rewrite Hr in Hc. simpl in Hc.
  eapply earliest_spec; [exact Hc|]. right. apply elem_of_rows. split; [done|].
  rewrite Hcon, bool_decide_eq_true_2; done.
Qed.

(** ** The theorems *)

Lemma ProcessNext_cases {UC : Unicode} {MR : MapRange} conv errors
    (HC : ∀ convert, conv = Some convert → CheckoutConverter convert errors)
    env c sc db db' b err :
  db_ok db → ProcessNext conv env c sc db = (db', (b, err)) →
  (db' = db ∧ (err = None → b = false ∧ claim sc db = None) ∨
   ∃ eid e, claim sc db = Some (eid, e) ∧ outcome env sc db eid e db' ∧ (err = None → b = true)) ∧
  (∀ x, err = Some x → allowed conv errors x).
Proof.
  intros Hok. unfold ProcessNext.
  destruct (begin_fails c).
  { intros [= <- <- <-]. split; [by left|]. intros x [= <-]. apply allowed_connection. by left. }
  destruct (process_body conv env sc _) as [t [r|e]] eqn:HE;
    pose proof (process_body_outcome conv errors (HC := HC) env sc db Hok
                  (mkTx db false (faults c) (uuids c) 0) _ _ eq_refl HE) as Hb; simpl in Hb.
  2:{ intros [= <- <- <-]. split; [by left|]. by intros x [= <-]. }
  destruct r as [reviewed|].
  2:{ intros [= <- <- <-]. split; [by left|done]. }
  destruct Hb as (eid & e & Hc & Ho). unfold commit.
  destruct (tx_aborted t).
  { intros [= <- <- <-]. split; [by left|]. intros x [= <-]. apply allowed_connection. by right. }
  destruct (fate c); intros [= <- <- <-].
  - split; [right; eauto 6|done].
  - split; [by left|]. intros x [= <-]. apply allowed_connection. by left.
  - split; [right; exists eid, e; by split_and!|]. intros x [= <-]. apply allowed_connection. by left.
Qed.


(** C13. One call is one event, whole or not at all.  Whatever fails and
    whenever the connection is lost, the tables after a call are either exactly the
    tables before it, or the oldest consumable event of the interface has become
    terminal, its recorded content unchanged, and every other event is untouched; a call
    that reports success processed an event, a call that reports none found none. *)
Theorem process_next_atomic {UC : Unicode} {MR : MapRange}
    (conv : option Converter) (errors : error → Prop)
    (HC : ∀ convert, conv = Some convert → CheckoutConverter convert errors)
    (env : Env) (c : Connection) (sc : scope) (db db' : DB) (b : bool) (err : option error) :
  db_ok db → ProcessNext conv env c sc db = (db', (b, err)) →
  (db' = db ∧ (err = None → b = false ∧ claim sc db = None)) ∨
  (∃ eid e terminal sid code,
     claim sc db = Some (eid, e) ∧ terminal ≠ PENDING ∧
     events db' = <[eid := with_result terminal sid code (now env) e]> (events db) ∧
     (err = None → b = true) ∧
     ∀ r eid' e', runtimes db !! sc = Some r → events db !! eid' = Some e' →
       event_scope e' = sc → consumable r e' = true → event_before (eid', e') (eid, e) = false).
Proof.
  intros Hok HE. destruct (ProcessNext_cases conv errors HC _ _ _ _ _ _ _ Hok HE) as [Hcase _].
  destruct Hcase as [?|(eid & e & Hc & (tm & sid & code & _ & Hp & Hev & _) & Hb)]; [by left|right].
  exists eid, e, tm, sid, code. split_and!; try done.
  intros r eid' e' Hr He' Hsc Hcon. by eapply claim_oldest.
Qed.

(** A stay leaves the house only through its own departure.  If a call
    takes a stay out of the house, the oldest event is a departure (GO) that either
    names the stay's reservation and not another room, or names no reservation and the
    room of which this stay is the only in-house occupant, having arrived no later than
    the event's day. *)
Theorem checkout_needs_departure {UC : Unicode} {MR : MapRange}
    (conv : option Converter) (errors : error → Prop)
    (HC : ∀ convert, conv = Some convert → CheckoutConverter convert errors)
    (env : Env) (c : Connection) (sc : scope) (db db' : DB) (b : bool) (err : option error)
    (sid : string) (s s' : Stay) :
  db_ok db → ProcessNext conv env c sc db = (db', (b, err)) →
  stays db !! sid = Some s → status s = IN_HOUSE →
  stays db' !! sid = Some s' → status s' ≠ IN_HOUSE →
  ∃ eid e ev, claim sc db = Some (eid, e) ∧
    decode_payload (external_event_identity e) (event_type e) (payload_column e) = Some ev ∧
    departure_of env sc db e ev sid s ∧ status s' = CHECKED_OUT.
Proof.
  intros Hok HE Hs Hin Hs' Hout.
  destruct (ProcessNext_cases conv errors HC _ _ _ _ _ _ _ Hok HE) as [Hcase _].
  destruct Hcase as [[-> _]|(eid & e & Hc & (tm & x & code & _ & _ & _ & Hor) & _)]; [congruence|].
  destruct Hor as [Ht|(ev & s1 & bd & Hdec & Hdep & _ & Hst & _)].
  - exfalso. destruct (decide (sid = x)) as [->|Hne].
    + destruct (t_stay _ _ _ Ht _ Hs) as (s2 & Hs2 & _ & _ & Hkeep & _).
      rewrite Hs' in Hs2. injection Hs2 as <-. auto.
    + rewrite (t_others _ _ _ Ht _ Hne) in Hs'. congruence.
  - rewrite Hst in Hs'. destruct (decide (x = sid)) as [->|Hne].
    + rewrite lookup_insert_eq in Hs'. injection Hs' as <-.
      assert (s1 = s) as -> by (destruct Hdep as (_ & Hs1 & _); congruence).
      exists eid, e, ev. by split_and!.
    + rewrite lookup_insert_ne in Hs' by done. congruence.
Qed.

(** ** The cheap path *)

Section unchanged.
Context {UC : Unicode} {MR : MapRange}.
Context (db : DB) (Hok : db_ok db) (id : string) (s : Stay).
Hypothesis (Hs : stays db !! id = Some s).

Abbreviation any_error := (λ _ : error, True).
Abbreviation noop m := (triple (λ d, d = db) m (λ _ d, d = db) any_error).

Lemma noop_bind (m k : TX DB ()) : noop m → noop k → noop (m ≫= λ _, k).
Proof. intros Hm Hk. eapply triple_bind; [exact Hm|]. by intros []. Qed.

Lemma noop_exec f : match f db with Ok db' => db' = db | Err _ => True end → noop (exec f).
Proof. intros H. apply triple_exec; [done|]. by destruct (f db). Qed.

Lemma set_stays_id : set_stays db (stays db) = db.
Proof. by destruct db. Qed.
Lemma set_guests_id : set_guests db (guests db) = db.
Proof. by destruct db. Qed.

Lemma update_stay_noop f : f s = s → noop (exec (update_stay id f)).
Proof.
  intros Hf. apply noop_exec. unfold update_stay. rewrite Hs, Hf.
  destruct (p3_stay_lifecycle_guard s s) as [[]|]; simpl; [|done].
  destruct (stay_checks s) as [[]|]; simpl; [|done].
  destruct (stay_fks db s) as [[]|]; simpl; [|done].
  rewrite insert_id by done. apply set_stays_id.
Qed.

Lemma update_guest_noop gid g f : guests db !! gid = Some g → f g = g →
  match update_guest gid f db with Ok db' => db' = db | Err _ => True end.
Proof.
  intros Hg Hf. unfold update_guest. rewrite Hg, Hf.
  destruct (guest_constraints db gid g) as [[]|]; simpl; [|done].
  rewrite insert_id by done. apply set_guests_id.
Qed.

Lemma NULLIF_COALESCE o : o ≠ Some "" → NULLIF (COALESCE o) = o.
Proof.
  intros Ho. unfold NULLIF, COALESCE. destruct o as [x|]; simpl; [|done].
  by rewrite (proj2 (empty_false x)) by congruence.
Qed.

Lemma date_same_fill stated column :
  date_same stated column = Some true → match stated with Some a => Some a | None => column end = column.
Proof.
  unfold date_same. destruct stated, column; try done. intros [= H]. zify_guards. congruence.
Qed.

Lemma sql_and_true a b : sql_and a b = Some true → a = Some true ∧ b = Some true.
Proof. by destruct a as [[]|], b as [[]|]. Qed.

Lemma attributes_noop ev : stated_same ev s = Some true →
  with_dates None (parseYYMMDD (ArrivalRaw ev)) (parseYYMMDD (DepartureRaw ev)) s = s ∧
  with_attributes (TravelAgent ev) (VIP ev) s = s.
Proof.
  intros (Ha & (Hd & (Ht & Hv)%sql_and_true)%sql_and_true)%sql_and_true.
  pose proof (ok_stays _ Hok _ _ Hs) as (_ & _ & _ & _ & Hta).
  unfold with_dates, with_attributes. simpl.
  rewrite (date_same_fill _ _ Ha), (date_same_fill _ _ Hd). split; [by destruct s|].
  assert (match VIP ev with Some b => Some b | None => vip s end = vip s) as ->.
  { destruct (VIP ev); [|done]. injection Hv as Hv. zify_guards. done. }
  assert (match TravelAgent ev with None => travel_agent s | Some a => NULLIF a end = travel_agent s) as ->.
  { destruct (TravelAgent ev); [|done]. injection Ht as Ht. zify_guards. subst. by apply NULLIF_COALESCE. }
  by destruct s.
Qed.

(** The occupants the cheap path reads are the guests of the stay. *)
Abbreviation occupants :=
  (snd <$> rows (λ g, bool_decide (guest_stay g = id) && same_site (stay_scope s) (guest_scope g)) (guests db)).

Lemma elem_of_occupants g :
  g ∈ occupants ↔ ∃ gid, guests db !! gid = Some g ∧ guest_stay g = id.
Proof.
  rewrite list_elem_of_fmap. split.
  - intros ([gid g'] & -> & [Hg Hp]%elem_of_rows). zify_guards. eauto.
  - intros (gid & Hg & Hst). exists (gid, g). split; [done|]. apply elem_of_rows. split; [done|].
    destruct (ok_guests _ Hok _ _ Hg) as [Hfk _]. unfold guest_fk in Hfk. rewrite Hst, Hs in Hfk.
    zify_guards. unfold same_site. by rewrite !bool_decide_eq_true_2 by congruence.
Qed.

Lemma find_occupant p g :
  List.find p occupants = Some g → p g = true ∧ ∃ gid, guests db !! gid = Some g ∧ guest_stay g = id.
Proof.
  intros [Hin Hp]%List.find_some. split; [done|]. by apply elem_of_occupants, list_elem_of_In.
Qed.

Lemma primary_noop sc ev : primary_unchanged occupants ev = true → noop (upsertPrimaryGuest sc id ev).
Proof.
  unfold primary_unchanged. destruct (List.find is_primary occupants) as [g|] eqn:Hf; [|done].
  apply find_occupant in Hf as (Hp & gid & Hg & Hst). intros Hsame. zify_guards.
  destruct (ok_guests _ Hok _ _ Hg) as (_ & _ & Hf1 & Hl1 & Hd1).
  unfold upsertPrimaryGuest. eapply triple_bind; [apply (triple_uuid _ (λ _ d, d = db)); by intros|].
  intros u. apply noop_exec. unfold upsert_primary.
  destruct (first_row _ (guests db)) as [[k g']|] eqn:Hrow.
  2:{ eapply first_row_None in Hrow; [|exact Hg]. rewrite bool_decide_eq_true_2, Hp in Hrow; done. }
  apply first_row_Some in Hrow as [Hk Hm]. zify_guards.
  assert (k = gid) as -> by (eapply (ok_one_primary _ Hok); eauto; congruence).
  assert (g' = g) as -> by congruence.
  assert (renamed (FirstName ev) (LastName ev) (primaryDisplay (FirstName ev) (LastName ev)) g = g) as Hr.
  { unfold renamed. replace (primaryDisplay (FirstName ev) (LastName ev))
      with (displayName (FirstName ev) (LastName ev)).
    - rewrite <- H, <- H0, <- H1, !NULLIF_COALESCE by done. by destruct g.
    - unfold primaryDisplay, displayName. by destruct (empty (FirstName ev)), (empty (LastName ev)). }
  by apply (update_guest_noop gid g).
Qed.

Lemma fill_same new old : empty new || bool_decide (COALESCE old = new) = true → fill new old = old.
Proof.
  unfold fill, NULLIF. destruct (empty new) eqn:E; [done|]. simpl. intros H. zify_guards.
  apply empty_false in E. destruct old; simpl in H; congruence.
Qed.

(** At most one occupant of the stay answers to a sharer. *)
Definition unambiguous (sh : Sharer) : Prop :=
  ∀ k k' g g', guests db !! k = Some g → guests db !! k' = Some g' →
    matches_sharer id sh g = true → matches_sharer id sh g' = true → k = k'.

Lemma demote_noop ext :
  forallb (λ g, negb (is_primary g) || bool_decide (COALESCE (external_guest_id g) = ext)) occupants = true →
  demote_others id ext db = db.
Proof.
  intros Hall. unfold demote_others. rewrite <- set_guests_id at 3. f_equal.
  apply map_eq. intros k. rewrite lookup_fmap. destruct (guests db !! k) as [g|] eqn:Hg; [|done].
  simpl. f_equal. destruct (bool_decide (guest_stay g = id)) eqn:Hst; [|done]. zify_guards.
  destruct (is_primary g) eqn:Hp; [|done]. simpl.
  assert (List.In g occupants) as Hin by (apply list_elem_of_In, elem_of_occupants; eauto).
  pose proof (proj1 (List.forallb_forall _ _) Hall g Hin) as Hb. simpl in Hb. rewrite Hp in Hb.
  simpl in Hb. zify_guards. by rewrite bool_decide_eq_false_2 by (by intros []).
Qed.

Lemma sharer_noop sc sh :
  unambiguous sh → sharer_unchanged occupants sh = true → noop (applySharer sc id sh).
Proof.
  intros Hone Hsame. unfold sharer_unchanged in Hsame. apply andb_true_iff in Hsame as [Htrim Hrow].
  apply bool_decide_eq_true_1 in Htrim. rewrite Htrim in Hrow.
  destruct (List.find _ occupants) as [g|] eqn:Hf; [|done].
  apply find_occupant in Hf as (Hm & gid & Hg & Hst).
  repeat (apply andb_true_iff in Hrow as [Hrow ?]).
  assert (matches_sharer id sh g = true) as Hmatch.
  { unfold matches_sharer. rewrite bool_decide_eq_true_2 by done. simpl.
    destruct (empty (ExternalGuestID sh)) eqn:E; [done|]. zify_guards. apply empty_false in E.
    apply bool_decide_eq_true_2. destruct (external_guest_id g); simpl in *; congruence. }
  unfold applySharer. eapply (triple_bind _ _ _ (λ _ d, d = db)).
  { destruct (IsPrimary sh); [|by apply triple_ret]. apply noop_exec.
    apply andb_true_iff in H as [_ Hall]. by apply demote_noop. }
  intros []. apply triple_read; [done|]. intros row Hr. symmetry in Hr. destruct row as [[k g']|].
  - apply first_row_Some in Hr as [Hk Hm']. assert (k = gid) as -> by eauto.
    apply noop_exec, (update_guest_noop gid g); [done|].
    unfold refreshed. rewrite !fill_same by done.
    destruct (IsPrimary sh); simpl in *; [|by destruct g].
    apply andb_true_iff in H as [Hp _]. rewrite <- Hp. by destruct g.
  - eapply first_row_None in Hr; [|exact Hg]. congruence.
Qed.

Lemma sharers_noop sc l :
  Forall unambiguous l → forallb (sharer_unchanged occupants) l = true → noop (applySharers sc id l).
Proof.
  induction 1 as [|sh l Hu _ IH]; simpl; [intros _; by apply triple_ret|].
  intros [H1 H2]%andb_true_iff. apply noop_bind; [by apply sharer_noop|auto].
Qed.

Lemma full_update_noop sc ev :
  Forall unambiguous (Sharers ev) → stated_same ev s = Some true → occupants_unchanged occupants ev = true →
  noop (full_update sc id ev None).
Proof.
  intros Hu Hst Hocc. destruct (attributes_noop ev Hst) as [Hd Ha]. unfold full_update.
  apply noop_bind; [by apply update_stay_noop|]. apply noop_bind.
  - unfold applyGuestAttributes. pose proof (update_stay_noop _ Ha) as Hn.
    destruct (TravelAgent ev), (VIP ev); try done. by apply triple_ret.
  - unfold applyOccupancyFacts, occupants_unchanged in *. destruct (Sharers ev) as [|sh l].
    + destruct (empty (FirstName ev)) eqn:E1, (empty (LastName ev)) eqn:E2; simpl in *;
        try (by apply primary_noop). by apply triple_ret.
    + by apply sharers_noop.
Qed.
End unchanged.

(** The cheap path is the full path.  When [recordUnchanged] answers yes
    for a stay, the full apply it replaces, run from the same tables, would leave every
    table exactly as it is (provided no two occupants of the stay answer to the same
    sharer of the record). *)
Theorem unchanged_record_is_noop {UC : Unicode} {MR : MapRange}
    (sc : scope) (id : string) (ev : InboxEvent) (s : Stay) (t t1 t2 : tx DB) :
  db_ok (tx_db t) → stays (tx_db t) !! id = Some s → stay_scope s = sc →
  Forall (unambiguous (tx_db t) id) (Sharers ev) →
  recordUnchanged sc id ev t = (t1, Ok true) →
  full_update sc id ev None t1 = (t2, Ok ()) →
  tx_db t2 = tx_db t.
Proof.
  intros Hok Hs <- Hu Hr Hf.
  pose proof (recordUnchanged_reads (λ _, True) (λ _ _, I) (stay_scope s) id ev _ _ Hs eq_refl
                _ _ _ eq_refl Hr) as [Hdb Hsame].
  destruct (Hsame eq_refl) as [Hst Hocc].
  exact (full_update_noop _ Hok id s Hs (stay_scope s) ev Hu Hst Hocc _ _ _ Hdb Hf).
Qed.

(** A date the stay never had stops the feed.  When the stay was stored
    without an arrival date and a later change of the same in-house stay states one,
    contradicting nothing else, the comparison of the cheap path is NULL and cannot be
    read into a boolean: every call fails, whatever the connection does, and leaves the
    event first in line, so no later event of the interface is ever processed. *)
Theorem missing_date_stops_the_feed {UC : Unicode} {MR : MapRange}
    (conv : option Converter) (env : Env) (c : Connection) (sc : scope) (db : DB)
    (eid id : string) (e : StayEvent) (ev : InboxEvent) (s : Stay) (d : Z) :
  claim sc db = Some (eid, e) →
  decode_payload (external_event_identity e) (event_type e) (payload_column e) = Some ev →
  EventType ev = EvGuestChange → validateSharers (Sharers ev) = "" → blank (Reservation ev) = false →
  first_row (of_reservation sc (Reservation ev)) (stays db) = Some (id, s) →
  status s = IN_HOUSE → room_changed ev (view id s) = false →
  arrival s = None → parseYYMMDD (ArrivalRaw ev) = Some d →
  DepartureRaw ev = "" → TravelAgent ev = None → VIP ev = None →
  ∃ err, ProcessNext conv env c sc db = (db, (false, Some err)).
Proof.
  intros Hc Hdec Hty Hv Hb Hrow Hst Hrc Harr Hd Hdep Hta Hvip.
  destruct (ProcessNext conv env c sc db) as [db' [b err]] eqn:HE. revert HE. unfold ProcessNext.
  destruct (begin_fails c); [intros [= <- <- <-]; eauto|].
  set (t0 := mkTx db false (faults c) (uuids c) 0).
  assert (triple (λ d, d = db) (process_body conv env sc) (λ _ _, False) (λ _, True)) as Hbody.
  { unfold process_body.
    do 2 (apply (triple_bind _ _ _ (λ _ d, d = db)); [by apply triple_exec|intros []]).
    apply triple_read; [done|]. intros [[row rev] norm] [= -> -> ->]. rewrite Hc.
    eapply (triple_bind _ _ _ (λ _ _, False)); [|intros r; by apply triple_ret].
    unfold process_event. rewrite Hdec, Hv. simpl.
    apply (triple_bind _ _ _ (λ r d, d = db ∧ r = inr (Some (view id s)))).
    { unfold find_stay. rewrite Hb. apply triple_read; [done|]. intros row ->. rewrite Hrow.
      apply triple_ret. by intros ? ->. }
    intros found0. apply triple_pre. intros ? [-> ->]. simpl.
    eapply (triple_bind _ _ _ (λ _ _, False)); [|intros r; by apply triple_ret].
    unfold apply_event. assert (Resolve ev (Some (view id s)) = plain OpUpdateStay) as ->.
    { unfold Resolve, already_applied. simpl. rewrite Hty, Hst, Hrc. reflexivity. }
    eapply (triple_bind _ _ _ (λ _ _, False)); [|intros [[? ?] ?]; by intros ? ? ? []].
    unfold applyDecision. simpl.
    eapply (triple_bind _ _ _ (λ _ _, False)); [|intros ?; by intros ? ? ? []].
    unfold recordUnchanged. apply triple_read; [done|]. intros row ->.
    apply first_row_Some in Hrow as [Hs Hof]. unfold of_reservation in Hof. zify_guards.
    rewrite Hs. simpl. unfold same_site. rewrite bool_decide_eq_true_2 by congruence.
    unfold stated_same. rewrite Hd, Harr, Hdep, Hta, Hvip. simpl. by apply triple_fail. }
  destruct (process_body conv env sc t0) as [t r] eqn:Er.
  specialize (Hbody t0 _ _ eq_refl Er). destruct r; [done|]. intros [= <- <- <-]. eauto.
Qed.

(** ** Sample tables *)

#[local] Existing Instances elements_range ascii_unicode.

Module StaySample.
Definition sc : scope := ("t", "s", "i").
Definition occ : Occupancy := mkOccupancy (Some 5) (Some 6) (Some "rev") (Some 1) (Some false) 1.
Definition stay (arr : option Z) : Stay :=
  mkStay sc "R1" "R1" (Some "101") IN_HOUSE 1 0 None None None arr None None occ.
Definition guest : StayGuest :=
  mkStayGuest sc "s1" None (Some "ANNA") (Some "BERG") (Some "Berg, Anna") true.
Definition event (type : string) (payload : json) : StayEvent :=
  mkStayEvent sc "x" type None (700000 * Day) false payload LIVE PENDING None None None.
Definition departure : StayEvent :=
  event "GO" (JObject [("room", JString "101")]).
Definition change : StayEvent :=
  event "GC" (JObject [("reservation", JString "R1"); ("room", JString "101");
                       ("arrival_raw", JString "240229")]).
Definition db (arr : option Z) (e : StayEvent) : DB :=
  mkDB {["s1" := stay arr]} {["g1" := guest]} {["e1" := e]}
    {[sc := mkRuntime (Some "rev") 0]} {["rev" := (sc, 1)]} [].
Definition env : Env := mkEnv (700001 * Day) (λ d, d * Day) (λ _ _ _, true).
Definition connection : Connection := mkConnection false [] (λ _, 1%positive) Committed.
Definition convert : Converter := λ _ sid _, exec (update_stay sid (checked_out (700000 * Day))).
Definition sql (e : error) : Prop := ∃ x, e = Sql x.

Lemma convert_ok : CheckoutConverter convert sql.
Proof.
  split. intros sc' sid eid d s Hs _ _. apply triple_exec.
  - intros e [->| ->]; by eexists.
  - unfold update_stay. rewrite Hs.
    destruct (p3_stay_lifecycle_guard _ _) as [[]|]; simpl; [|by eexists].
    destruct (stay_checks _) as [[]|]; simpl; [|by eexists].
    destruct (stay_fks _ _) as [[]|]; simpl; [|by eexists]. by eexists.
Qed.

Lemma converters : ∀ c, Some convert = Some c → CheckoutConverter c sql.
Proof. intros c [= <-]. exact convert_ok. Qed.

Lemma db_is_ok arr e : processing_status e = PENDING → event_stay_id e = None → db_ok (db arr e).
Proof.
  intros Hp Hn. split.
  - apply map_Forall_singleton. split; [done|]. split_and!; by vm_compute.
  - apply map_Forall_singleton. split_and!; by vm_compute.
  - unfold db. cbn [guests].
    intros k1 k2 g1 g2 [<- _]%lookup_singleton_Some [<- _]%lookup_singleton_Some. done.
  - by apply map_Forall_singleton.
  - unfold db. cbn [runtimes revisions]. intros sc' r rev [<- <-]%lookup_singleton_Some [= <-]. by exists 1.
Qed.
End StaySample.


Lemma process_next_atomic_witness :
  ∃ eid e, claim StaySample.sc (StaySample.db None StaySample.departure) = Some (eid, e) ∧
    events (ProcessNext (Some StaySample.convert) StaySample.env StaySample.connection StaySample.sc
              (StaySample.db None StaySample.departure)).1 !! eid
    ≠ Some StaySample.departure.
Proof.
  destruct (process_next_atomic (Some StaySample.convert) StaySample.sql
    StaySample.converters StaySample.env StaySample.connection StaySample.sc
    (StaySample.db None StaySample.departure)
    (ProcessNext (Some StaySample.convert) StaySample.env StaySample.connection StaySample.sc
           (StaySample.db None StaySample.departure)).1 true None)
    as [[_ H]|(eid & e & tm & sid & code & Hc & Ht & He & _)].
  - by apply StaySample.db_is_ok.
  - vm_compute. reflexivity.
  - by destruct (H eq_refl).
  - exists eid, e. split; [exact Hc|]. rewrite He, lookup_insert_eq. unfold with_result.
    by intros [=].
Defined.

Lemma checkout_needs_departure_witness :
  ∃ eid e, claim StaySample.sc (StaySample.db None StaySample.departure) = Some (eid, e).
Proof.
  destruct (checkout_needs_departure (Some StaySample.convert) StaySample.sql
    StaySample.converters StaySample.env StaySample.connection StaySample.sc
    (StaySample.db None StaySample.departure)
    (ProcessNext (Some StaySample.convert) StaySample.env StaySample.connection StaySample.sc
           (StaySample.db None StaySample.departure)).1 true None "s1" (StaySample.stay None)
    (checked_out (700000 * Day) (with_event "e1" (StaySample.stay None))))
    as (eid & e & _ & Hc & _).
  - by apply StaySample.db_is_ok.
  - vm_compute. reflexivity.
  - reflexivity.
  - reflexivity.
  - vm_compute. reflexivity.
  - discriminate.
  - eauto.
Defined.

Lemma unchanged_record_is_noop_witness :
  tx_db (full_update StaySample.sc "s1"
    (mkInboxEvent "x" "GC" "R1" "101" "Berg" "Anna" "" "" "" [] None None) None
    (mkTx (StaySample.db None StaySample.departure) false [] (λ _, 1%positive) 0)).1
  = StaySample.db None StaySample.departure.
Proof.
  pose (t := mkTx (StaySample.db None StaySample.departure) false [] (λ _, 1%positive) 0).
  apply (unchanged_record_is_noop StaySample.sc "s1"
    (mkInboxEvent "x" "GC" "R1" "101" "Berg" "Anna" "" "" "" [] None None)
    (StaySample.stay None) t t).
  - by apply StaySample.db_is_ok.
  - reflexivity.
  - reflexivity.
  - constructor.
  - vm_compute. reflexivity.
  - vm_compute. reflexivity.
Defined.

Lemma missing_date_stops_the_feed_witness :
  ∃ err, ProcessNext (Some StaySample.convert) StaySample.env StaySample.connection StaySample.sc
           (StaySample.db None StaySample.change)
  = (StaySample.db None StaySample.change, (false, Some err)).
Proof.
  apply (missing_date_stops_the_feed _ _ _ _ _ "e1" "s1" StaySample.change
    (mkInboxEvent "x" "GC" "R1" "101" "" "" "" "240229" "" [] None None)
    (StaySample.stay None) 738944); reflexivity.
Defined.
