(* ===== verification/Throttle.v ===== *)
(** The durable authentication throttle (data-plane/internal/throttle).

    [normalizeRules] turns the rules of one attempt into charges, [charge_loop]
    charges them one statement at a time in one transaction, [auth_throttle_charge]
    is the database function that does the same in one round trip
    (migrations/baseline/0000_production_baseline.sql), and [Allow] tries the
    second and falls back to the first.  Times sent to the database are truncated
    to microseconds, as the driver does. *)
From Stdlib Require Import Sorting.Sorted.
From S2P Require Import Prelude GoStrings Pg.

(** ** Rules *)

Definition ScopeEndpoint : string := "endpoint".
Definition ScopeIdentity : string := "identity".
Definition ScopeIP : string := "ip".
Definition ScopeDevice : string := "device".
Definition ScopeMethod : string := "method".

Definition valid (kind : string) : bool :=
  bool_decide (kind ∈ [ScopeEndpoint; ScopeIdentity; ScopeIP; ScopeDevice; ScopeMethod]).

Definition MethodAny : string := "*".

Definition validMethod (m : string) : bool :=
  bool_decide (m ∈ ["account"; "otp"; "voucher"; "social"; "pms"; "post_stay_pin"; MethodAny]).

Record Rule := mkRule {
  r_Kind : string;
  r_Value : string;
  r_Method : string;
  r_Limit : Z;
  r_Block : Duration;
  r_Global : bool
}.

Record ThrottleDecision := mkThrottleDecision {
  Allowed : bool;
  RetryAfter : Duration;
  Reason : string
}.

(** scope kind, scope key, method. *)
Abbreviation bucket_id := (string * string * string)%type (only parsing).

Record chargeable := mkChargeable {
  c_id : bucket_id;
  c_limit : Z;
  c_block : Duration;
  c_global : bool
}.

Inductive rule_error := InvalidScope (k : string) | MissingMethod | InvalidMethod (m : string) | NoPositiveLimit.

Section normalize.
Context {UC : Unicode}.

(** The keyed digest of a scope value, in hex (HMAC-SHA256 under the store's key). *)
Context (hmac_hex : string → string).

Definition scopeKey (kind value : string) : string :=
  hmac_hex (kind +:+ String (Ascii.ascii_of_nat 0) (ToLower (TrimSpace value))).

Definition merge (r : Rule) (e : chargeable) : chargeable :=
  mkChargeable (c_id e) (if r_Limit r <? c_limit e then r_Limit r else c_limit e)
    (if c_block e <? r_Block r then r_Block r else c_block e) (c_global e && r_Global r).

Definition add_rule (merged : gmap bucket_id chargeable) (r : Rule)
    : res rule_error (gmap bucket_id chargeable) :=
  let method := ToLower (TrimSpace (r_Method r)) in
  if negb (valid (r_Kind r)) then Err (InvalidScope (r_Kind r))
  else if empty method then Err MissingMethod
  else if negb (validMethod method) then Err (InvalidMethod method)
  else if r_Limit r <=? 0 then Err NoPositiveLimit
  else if empty (r_Value r) && bool_decide (r_Kind r ≠ ScopeEndpoint) then Ok merged
  else
    let id := (r_Kind r, scopeKey (r_Kind r) (r_Value r), method) in
    Ok (<[id := match merged !! id with
                | Some e => merge r e
                | None => mkChargeable id (r_Limit r) (r_Block r) (r_Global r)
                end]> merged).

Fixpoint merge_rules (merged : gmap bucket_id chargeable) (rules : list Rule)
    : res rule_error (gmap bucket_id chargeable) :=
  match rules with
  | [] => Ok merged
  | r :: rs => add_rule merged r ≫= λ m, merge_rules m rs
  end.

(** The sort of the charges: global rules last, then by kind, key and method. *)
Definition id_le (a b : bucket_id) : Prop :=
  let '(k1, s1, m1) := a in let '(k2, s2, m2) := b in
  if decide (k1 = k2) then if decide (s1 = s2) then string_le m1 m2 else string_le s1 s2
  else string_le k1 k2.

Definition charge_le (a b : chargeable) : Prop :=
  if decide (c_global a = c_global b) then id_le (c_id a) (c_id b) else c_global a = false.

#[export] Instance charge_le_dec : RelDecision charge_le.
Proof.
  intros a b. unfold charge_le, id_le. destruct (c_id a) as [[? ?] ?], (c_id b) as [[? ?] ?].
  repeat case_decide; apply _.
Defined.

Definition normalizeRules (rules : list Rule) : res rule_error (list chargeable) :=
  merge_rules ∅ rules ≫= λ merged,
  Ok (merge_sort charge_le (snd <$> map_to_list merged)).
End normalize.

(** ** Buckets *)

Record Bucket := mkBucket { attempt_count : Z; blocked_until : option Time }.

(** Keyed by id and window start. *)
Abbreviation Buckets := (gmap (bucket_id * Z) Bucket).

(** What the driver sends for a [time.Time]. *)
Definition pg_time (t : Time) : Time := t / Microsecond * Microsecond.

Definition int_max : Z := 2147483647.

(** max(blocked_until) over every window of the id, of the blocks still in force. *)
Definition max_block (id : bucket_id) (now : Time) (db : Buckets) : option Time :=
  foldr (λ '(k, b) acc,
           match blocked_until b with
           | Some u => if bool_decide (k.1 = id) && (now <? u)
                       then Some match acc with Some a => Z.max a u | None => u end else acc
           | None => acc
           end) None (map_to_list db).

Definition count_of (id : bucket_id) (ws : Time) (db : Buckets) : Z :=
  match db !! (id, ws) with Some b => attempt_count b | None => 0 end.

(** INSERT ... ON CONFLICT DO UPDATE SET attempt_count = attempt_count + 1
    RETURNING attempt_count. *)
Definition increment (id : bucket_id) (ws : Time) (db : Buckets) : res sql_error (Buckets * Z) :=
  match db !! (id, ws) with
  | None => Ok (<[(id, ws) := mkBucket 1 None]> db, 1)
  | Some b =>
      check (attempt_count b <? int_max) (Raised "integer out of range") ≫= λ _,
      Ok (<[(id, ws) := mkBucket (attempt_count b + 1) (blocked_until b)]> db, attempt_count b + 1)
  end.

Definition set_block (id : bucket_id) (ws until : Time) (db : Buckets) : Buckets :=
  alter (λ b, mkBucket (attempt_count b) (Some until)) (id, ws) db.

(** ** Charging statement by statement *)

Record verdict := mkVerdict { v_allowed : bool; v_reason : string; v_worst : Duration }.
Definition no_verdict : verdict := mkVerdict true "" 0.

(** The longest wait is the one reported. *)
Definition refuse (v : verdict) (retry : Duration) (kind : string) : verdict :=
  if (v_worst v <? retry) || empty (v_reason v)
  then mkVerdict false kind (Z.max retry (v_worst v))
  else mkVerdict false (v_reason v) (v_worst v).

Section charge.
Context (window : Duration).

Definition windowStart (now : Time) : Time := now - now mod window.

(** One more attempt in the current window, and the block it may cause. *)
Definition charge_open (now : Time) (v : verdict) (r : chargeable) : TX Buckets verdict :=
  let ws := pg_time (windowStart now) in
  statement (increment (c_id r) ws) ≫= λ count,
  if c_limit r <? count then
    if 0 <? c_block r then
      exec (λ db, Ok (set_block (c_id r) ws (pg_time (time_Add now (c_block r))) db)) ≫= λ _,
      mret (refuse v (c_block r) (c_id r).1.1)
    else mret (refuse v (time_Sub (time_Add (windowStart now) window) now) (c_id r).1.1)
  else mret v.

Definition charge_entry (now : Time) (v : verdict) (r : chargeable) : TX Buckets verdict :=
  if c_global r && negb (v_allowed v) then mret v
  else
    query (max_block (c_id r) (pg_time now)) ≫= λ blocked,
    match blocked with
    | Some u => if After u now then mret (refuse v (time_Sub u now) (c_id r).1.1)
                else charge_open now v r
    | None => charge_open now v r
    end.

(** A failed statement is reported with the scope of the rule it was for. *)
Definition blame {A} (kind : string) (m : TX Buckets A) : TX Buckets A := λ t,
  match m t with
  | (t', Ok a) => (t', Ok a)
  | (t', Err _) => (t', Err (Error kind))
  end.

Definition blamed (e : error) : string := match e with Error kind => kind | Sql _ => ScopeEndpoint end.

Fixpoint charge_loop (now : Time) (v : verdict) (l : list chargeable) : TX Buckets verdict :=
  match l with
  | [] => mret v
  | r :: l' => blame (c_id r).1.1 (charge_entry now v r) ≫= λ v', charge_loop now v' l'
  end.

(** ** Charging in one round trip (public.auth_throttle_charge) *)

Record sql_verdict := mkSqlVerdict { q_allowed : bool; q_reason : option string; q_worst_ms : Z }.

(** EXTRACT(EPOCH FROM d) * 1000 rounded to an integer, half up. *)
Definition to_ms (d : Duration) : Z := (d + Millisecond / 2) / Millisecond.

Definition refuse_ms (v : sql_verdict) (retry : Z) (kind : string) : sql_verdict :=
  if (q_worst_ms v <? retry) || bool_decide (q_reason v = None)
  then mkSqlVerdict false (Some kind) (Z.max retry (q_worst_ms v))
  else mkSqlVerdict false (q_reason v) (q_worst_ms v).

(** One iteration of the function's loop. *)
Definition charge_row (now ws : Time) (window_seconds : Z) (id : bucket_id) (limit block_seconds : Z)
    (global : bool) (v : sql_verdict) (db : Buckets) : res sql_error (Buckets * sql_verdict) :=
  if global && negb (q_allowed v) then Ok (db, v)
  else match max_block id now db with
  | Some u => Ok (db, refuse_ms v (to_ms (u - now)) id.1.1)
  | None =>
      increment id ws db ≫= λ '(db1, count),
      if limit <? count then
        if 0 <? block_seconds then
          Ok (set_block id ws (now + block_seconds * Second) db1,
              refuse_ms v (block_seconds * 1000) id.1.1)
        else Ok (db1, refuse_ms v (to_ms (ws + window_seconds * Second - now)) id.1.1)
      else Ok (db1, v)
  end.

(** [int32(x)]. *)
Definition wrap32 (z : Z) : Z := (z + 2147483648) mod 4294967296 - 2147483648.

Fixpoint charge_rows (now ws : Time) (window_seconds : Z) (v : sql_verdict) (l : list chargeable)
    (db : Buckets) : res sql_error (Buckets * sql_verdict) :=
  match l with
  | [] => Ok (db, v)
  | e :: l' =>
      charge_row now ws window_seconds (c_id e) (wrap32 (c_limit e))
        (wrap32 (Z.quot (c_block e) Second)) (c_global e) v db ≫= λ '(db', v'),
      charge_rows now ws window_seconds v' l' db'
  end.

Definition auth_throttle_charge (now : Time) (l : list chargeable) : TX Buckets sql_verdict :=
  statement (charge_rows (pg_time now) (pg_time (windowStart now)) (Z.quot window Second)
               (mkSqlVerdict true None 0) l).

(** ** Allow *)

(** What happens to the calls of one attempt: whether the database lacks the
    function (a database that predates it), and the connection. *)
Record attempt_env := mkAttemptEnv {
  function_missing : bool;
  a_begin_fails : bool;
  a_faults : list bool;
  a_fate : commit_fate
}.

(** The call of the function loses the connection; the statements after it. *)
Definition charge_lost (env : attempt_env) : bool :=
  match a_faults env with [] => false | f :: _ => f end.

Definition after_charge (env : attempt_env) : attempt_env :=
  mkAttemptEnv (function_missing env) (a_begin_fails env) (tail (a_faults env)) (a_fate env).

Definition refused_error : ThrottleDecision := mkThrottleDecision false 0 ScopeEndpoint.

(** The multi-statement path; [no_charge] is the store's flag. *)
Definition allow_slow (env : attempt_env) (now : Time) (l : list chargeable) (db : Buckets)
    : Buckets * (ThrottleDecision * bool) :=
  if a_begin_fails env then (db, (refused_error, true))
  else match charge_loop now no_verdict l (mkTx db false (a_faults env) (λ _, xH) 0) with
       | (_, Err e) => (db, (mkThrottleDecision false 0 (blamed e), true))
       | (t, Ok v) =>
           match commit (a_fate env) db t with
           | (db', Ok _) => (db', (mkThrottleDecision (v_allowed v) (v_worst v) (v_reason v), false))
           | (db', Err _) => (db', (refused_error, true))
           end
       end.

(** The one-trip path: a single statement is its own transaction. *)
Definition allow_fast (env : attempt_env) (now : Time) (l : list chargeable) (db : Buckets)
    : Buckets * (ThrottleDecision * bool) :=
  match auth_throttle_charge now l (mkTx db false (a_faults env) (λ _, xH) 0) with
  | (_, Err _) => (db, (refused_error, true))
  | (t, Ok v) =>
      match commit (a_fate env) db t with
      | (db', Ok _) =>
          (db', (mkThrottleDecision (q_allowed v) (q_worst_ms v * Millisecond) (default "" (q_reason v)), false))
      | (db', Err _) => (db', (refused_error, true))
      end
  end.

(** The tables, the store's flag, the decision and whether an error is returned
    with it.  A rule error denies before anything is charged. *)
Definition Allow {UC : Unicode} (hmac_hex : string → string) (env : attempt_env) (no_charge : bool)
    (now : Time) (rules : list Rule) (db : Buckets) : Buckets * bool * (ThrottleDecision * bool) :=
  match normalizeRules hmac_hex rules with
  | Err _ => (db, no_charge, (mkThrottleDecision false 0 "", true))
  | Ok l =>
      if no_charge then let '(db', d) := allow_slow env now l db in (db', true, d)
      else if function_missing env && negb (charge_lost env) then
        let '(db', d) := allow_slow (after_charge env) now l db in (db', true, d)
      else let '(db', d) := allow_fast env now l db in (db', false, d)
  end.

(** DELETE of the expired buckets, never one with a block still in force. *)
Definition Cleanup (grace : Duration) (now : Time) (db : Buckets) : Buckets :=
  let g := if grace <? 0 then 0 else grace in
  let cutoff := pg_time (time_Add now (- window - g)) in
  filter (λ kb, (kb.1.2 <? cutoff)
                && match blocked_until kb.2 with None => true | Some u => u <=? pg_time now end
                = false) db.
End charge.

(** ** What one charge does, on either path *)

(** The stored blocks are times the database holds. *)
Definition aligned (db : Buckets) : Prop :=
  ∀ k b u, db !! k = Some b → blocked_until b = Some u → pg_time u = u.

Definition in_force (now : Time) (id : bucket_id) (u : Time) (db : Buckets) : Prop :=
  now < u ∧ ∃ ws b, db !! (id, ws) = Some b ∧ blocked_until b = Some u.

Lemma pg_time_le t : pg_time t <= t.
Proof.
  unfold pg_time, Microsecond, Nanosecond. pose proof (Z.mul_div_le t (1000 * 1)). lia.
Qed.

Lemma pg_time_mono t u : t <= u → pg_time t <= pg_time u.
Proof.
  unfold pg_time, Microsecond, Nanosecond. intros H.
  pose proof (Z.div_le_mono t u (1000 * 1)). lia.
Qed.

Lemma pg_time_idemp t : pg_time (pg_time t) = pg_time t.
Proof. unfold pg_time, Microsecond, Nanosecond. rewrite Z.div_mul; lia. Qed.

(** A stored time is after the truncated clock exactly when it is after the clock. *)
Lemma pg_time_lt t u : pg_time u = u → (pg_time t < u ↔ t < u).
Proof.
  intros Hu. split; intros H; [|pose proof (pg_time_le t); lia].
  destruct (Z.le_gt_cases u t) as [Hle|]; [|lia].
  pose proof (pg_time_mono _ _ Hle). lia.
Qed.

(** The block a row of the scan contributes. *)
Definition block_of (id : bucket_id) (now : Time) (kb : (bucket_id * Z) * Bucket) : option Time :=
  match blocked_until kb.2 with
  | Some u => if bool_decide (kb.1.1 = id) && (now <? u) then Some u else None
  | None => None
  end.

Definition wider (acc : option Time) (u : Time) : option Time :=
  Some match acc with Some a => Z.max a u | None => u end.

Lemma max_block_fold (id : bucket_id) (now : Time) (db : Buckets) :
  max_block id now db = foldr (λ u acc, wider acc u) None (omap (block_of id now) (map_to_list db)).
Proof.
  unfold max_block. induction (map_to_list db) as [|[k b] l IH]; simpl; [done|].
  rewrite IH. unfold block_of. simpl. destruct (blocked_until b); [|done]. by destruct (_ && _).
Qed.

Lemma wider_spec (l : list Time) :
  match foldr (λ u acc, wider acc u) None l with
  | None => l = []
  | Some m => m ∈ l ∧ ∀ u, u ∈ l → u <= m
  end.
Proof.
  induction l as [|u l IH]; simpl; [done|]. destruct (foldr _ None l) as [m|]; simpl.
  - destruct IH as [Hin Hall]. split.
    + destruct (Z.max_spec m u) as [[_ ->]|[_ ->]]; [left|by right].
    + intros x [->|Hx%Hall]%elem_of_cons; lia.
  - subst. split; [left|]. intros x [->|Hx]%elem_of_cons; [lia|by apply elem_of_nil in Hx].
Qed.

Lemma block_of_in_force (id : bucket_id) (now u : Time) (db : Buckets) :
  u ∈ omap (block_of id now) (map_to_list db) ↔ in_force now id u db.
Proof.
  rewrite list_elem_of_omap. unfold block_of, in_force. split.
  - intros ([[i ws] b] & Hin & Hb). apply elem_of_map_to_list in Hin. simpl in Hb.
    destruct (blocked_until b) eqn:Hu; [|done]. destruct (_ && _) eqn:E; [|done].
    injection Hb as ->. zify_guards. subst. eauto.
  - intros (Hlt & ws & b & Hb & Hu). exists ((id, ws), b). split; [by apply elem_of_map_to_list|].
    simpl. rewrite Hu, bool_decide_eq_true_2, (proj2 (Z.ltb_lt _ _) Hlt); done.
Qed.

Lemma max_block_spec (id : bucket_id) (now : Time) (db : Buckets) :
  match max_block id now db with
  | None => ∀ u, ¬ in_force now id u db
  | Some m => in_force now id m db ∧ ∀ u, in_force now id u db → u <= m
  end.
Proof.
  rewrite max_block_fold. pose proof (wider_spec (omap (block_of id now) (map_to_list db))) as H.
  pose proof (λ u, block_of_in_force id now u db) as Hf.
  destruct (foldr _ _ _) as [m|].
  - destruct H as [Hin Hall]. split; [by apply Hf|]. intros u Hu%Hf. auto.
  - intros u Hu%Hf. rewrite H in Hu. by apply elem_of_nil in Hu.
Qed.

(** The effect of one charge at [now] on the verdict and the buckets. *)
Section posts.
Context (window : Duration) (now : Time).
Abbreviation W := (pg_time (windowStart window now)).

Record entry_post (r : chargeable) (a : bool) (db : Buckets) (a' : bool) (db' : Buckets) : Prop := {
  ep_count id ws : count_of id ws db <= count_of id ws db';
  ep_blocks id u : in_force (pg_time now) id u db → in_force (pg_time now) id u db';
  ep_allowed : a' = true → a = true ∧ count_of (c_id r) W db + 1 <= c_limit r ∧
    count_of (c_id r) W db + 1 <= count_of (c_id r) W db';
  ep_blocked u : in_force (pg_time now) (c_id r) u db → a' = false;
  ep_global : c_global r = true → a = false → db' = db;
  ep_other id ws : id ≠ c_id r → db' !! (id, ws) = db !! (id, ws);
  ep_aligned : aligned db → aligned db'
}.

(** A sequence of charges. *)
Inductive charges : list chargeable → bool → Buckets → bool → Buckets → Prop :=
| charges_nil a db : charges [] a db a db
| charges_cons r l a a1 a2 db db1 db2 :
    entry_post r a db a1 db1 → charges l a1 db1 a2 db2 → charges (r :: l) a db a2 db2.

Lemma charges_count l a db a' db' id ws :
  charges l a db a' db' → count_of id ws db <= count_of id ws db'.
Proof. induction 1 as [|? ? ? ? ? ? ? ? H _ IH]; [lia|]. pose proof (ep_count _ _ _ _ _ H id ws). lia. Qed.

Lemma charges_denied l a db a' db' : charges l a db a' db' → a = false → a' = false.
Proof.
  induction 1 as [|? ? ? a1 ? ? ? ? H _ IH]; [done|]. intros ->.
  apply IH. destruct a1; [|done]. by destruct (ep_allowed _ _ _ _ _ H eq_refl).
Qed.

Lemma charges_allowed l a db db' r :
  charges l a db true db' → r ∈ l →
  count_of (c_id r) W db + 1 <= c_limit r ∧ count_of (c_id r) W db + 1 <= count_of (c_id r) W db'.
Proof.
  remember true as a' eqn:Ha. intros Hc. revert Ha.
  induction Hc as [|x l a a1 a2 db db1 db2 H Hc IH]; intros Ha; [by intros ?%elem_of_nil|].
  subst a2. pose proof (charges_count _ _ _ _ _ (c_id r) W Hc).
  pose proof (ep_count _ _ _ _ _ H (c_id r) W).
  intros [->|Hin]%elem_of_cons; [|destruct (IH eq_refl Hin); lia].
  destruct a1; [|by apply charges_denied in Hc; [|done]]. destruct (ep_allowed _ _ _ _ _ H eq_refl). lia.
Qed.

Lemma charges_in_force l a db a' db' id u :
  charges l a db a' db' → in_force (pg_time now) id u db → in_force (pg_time now) id u db'.
Proof. induction 1 as [|? ? ? ? ? ? ? ? H _ IH]; [done|]. intros Hf. by apply IH, (ep_blocks _ _ _ _ _ H). Qed.

Lemma charges_blocked l a db a' db' r u :
  charges l a db a' db' → r ∈ l → in_force (pg_time now) (c_id r) u db → a' = false.
Proof.
  induction 1 as [|x l a a1 a2 db db1 db2 H Hc IH]; [by intros ?%elem_of_nil|].
  intros [->|Hin]%elem_of_cons Hf.
  - rewrite (ep_blocked _ _ _ _ _ H u Hf) in Hc. by eapply charges_denied.
  - apply IH; [done|]. by apply (ep_blocks _ _ _ _ _ H).
Qed.

Lemma charges_aligned l a db a' db' : charges l a db a' db' → aligned db → aligned db'.
Proof. induction 1 as [|? ? ? ? ? ? ? ? H _ IH]; [done|]. intros Ha. by apply IH, (ep_aligned _ _ _ _ _ H). Qed.

(** Once refused, the global dampers are not charged. *)
Lemma charges_globals l db a' db' :
  Forall (λ r, c_global r = true) l → charges l false db a' db' → db' = db.
Proof.
  intros Hg Hc. remember false as a eqn:Ha. revert Ha Hg.
  induction Hc as [|x l a a1 a2 db db1 db2 H Hc IH]; [done|]. intros -> [Hx Hl]%Forall_cons_1.
  destruct a1; [by destruct (ep_allowed _ _ _ _ _ H eq_refl)|].
  rewrite (IH eq_refl Hl). by apply (ep_global _ _ _ _ _ H).
Qed.

Lemma charges_other l a db a' db' id ws :
  charges l a db a' db' → (∀ r, r ∈ l → id ≠ c_id r) → db' !! (id, ws) = db !! (id, ws).
Proof.
  induction 1 as [|x l a a1 a2 db db1 db2 H Hc IH]; [done|]. intros Hne.
  rewrite IH by (intros r Hr; apply Hne; by right).
  apply (ep_other _ _ _ _ _ H). apply Hne. left.
Qed.

Lemma charges_app l1 l2 a db a' db' :
  charges (l1 ++ l2) a db a' db' → ∃ a1 db1, charges l1 a db a1 db1 ∧ charges l2 a1 db1 a' db'.
Proof.
  revert a db. induction l1 as [|r l1 IH]; intros a db; simpl; [eauto using charges|].
  inversion 1 as [|? ? ? ? ? ? ? ? He Hc]; subst. destruct (IH _ _ Hc) as (a3 & db3 & ? & ?).
  eauto using charges.
Qed.

(** *** Both paths are sequences of charges *)

Lemma increment_count id ws db db' n id' ws' :
  increment id ws db = Ok (db', n) →
  n = count_of id ws db + 1 ∧
  count_of id' ws' db' = count_of id' ws' db + if decide ((id', ws') = (id, ws)) then 1 else 0.
Proof.
  unfold increment, count_of. destruct (db !! (id, ws)) as [b|] eqn:Hb.
  - destruct (attempt_count b <? int_max); [|done]. intros [= <- <-]. split; [done|].
    case_decide as E; [rewrite E, lookup_insert_eq, Hb; done|].
    rewrite lookup_insert_ne by congruence. lia.
  - intros [= <- <-]. split; [done|].
    case_decide as E; [rewrite E, lookup_insert_eq, Hb; done|].
    rewrite lookup_insert_ne by congruence. lia.
Qed.

Lemma increment_blocked id ws db db' n k b' :
  increment id ws db = Ok (db', n) → db' !! k = Some b' →
  blocked_until b' = None ∨ ∃ b, db !! k = Some b ∧ blocked_until b = blocked_until b'.
Proof.
  unfold increment. destruct (db !! (id, ws)) as [b|] eqn:Hb;
    [destruct (attempt_count b <? int_max); [|done]|]; intros [= <- <-];
    (destruct (decide (k = (id, ws))) as [->|]; [rewrite lookup_insert_eq|rewrite lookup_insert_ne by done]);
    intros ?; simplify_eq/=; eauto.
Qed.

Lemma increment_keeps id ws db db' n k b :
  increment id ws db = Ok (db', n) → db !! k = Some b →
  ∃ b', db' !! k = Some b' ∧ blocked_until b' = blocked_until b.
Proof.
  unfold increment. destruct (db !! (id, ws)) as [b0|] eqn:Hb0;
    [destruct (attempt_count b0 <? int_max); [|done]|]; intros [= <- <-] Hk;
    (destruct (decide (k = (id, ws))) as [->|]; [rewrite lookup_insert_eq|rewrite lookup_insert_ne by done]);
    simplify_eq/=; eauto.
Qed.

Lemma set_block_count (id : bucket_id) (ws u : Time) (id' : bucket_id) (ws' : Time) (db : Buckets) :
  count_of id' ws' (set_block id ws u db) = count_of id' ws' db.
Proof.
  unfold count_of, set_block. destruct (decide ((id, ws) = (id', ws'))) as [<-|Hne].
  - rewrite lookup_alter_eq. by destruct (db !! (id, ws)).
  - by rewrite lookup_alter_ne.
Qed.

(** The charge of an id with no block in force, blocked afterwards or not. *)
Lemma open_post r a db db1 n block :
  (∀ u, ¬ in_force (pg_time now) (c_id r) u db) →
  increment (c_id r) W db = Ok (db1, n) →
  (c_global r = true → a = false → False) →
  (∀ u, block = Some u → pg_time u = u) →
  entry_post r a db (a && (n <=? c_limit r))
    (match block with Some u => set_block (c_id r) W u db1 | None => db1 end).
Proof.
  intros Hno Hinc Hg Hal. pose proof (increment_count _ _ _ _ _ (c_id r) W Hinc) as [Hn Hc].
  rewrite decide_True in Hc by done. split.
  - intros id ws. destruct (increment_count _ _ _ _ _ id ws Hinc) as [_ Hcw].
    destruct block; rewrite ?set_block_count; case_decide; lia.
  - intros id u (Hu & ws & b & Hb & Hbu). split; [done|].
    destruct (increment_keeps _ _ _ _ _ _ _ Hinc Hb) as (b' & Hb' & Hbu').
    destruct block as [x|]; [|exists ws, b'; split; [done|congruence]].
    destruct (decide (id = c_id r)) as [->|Hne]; [exfalso; apply (Hno u); split; eauto|].
    exists ws, b'. unfold set_block. rewrite lookup_alter_ne by congruence. split; [done|congruence].
  - intros [-> Hle]%andb_true_iff. zify_guards. split; [done|].
    destruct block; rewrite ?set_block_count; lia.
  - intros u Hf. by apply Hno in Hf.
  - intros H1 H2. by destruct (Hg H1 H2).
  - intros id ws Hne. transitivity (db1 !! (id, ws)).
    + destruct block; [|done]. unfold set_block. by rewrite lookup_alter_ne by congruence.
    + revert Hinc. unfold increment. destruct (db !! (c_id r, W)) as [b|];
        [destruct (attempt_count b <? int_max); [|done]|]; intros [= <- _];
        by rewrite lookup_insert_ne by congruence.
  - intros Hd k b u Hb Hbu.
    assert (∀ b', db1 !! k = Some b' → blocked_until b' = Some u → pg_time u = u) as H1.
    { intros b' Hb' Hbu'. destruct (increment_blocked _ _ _ _ _ _ _ Hinc Hb') as [?|(b0 & Hb0 & ?)]; [congruence|].
      apply (Hd k b0); congruence. }
    destruct block as [x|]; [|eauto]. unfold set_block in Hb.
    destruct (decide (k = (c_id r, W))) as [->|]; [|rewrite lookup_alter_ne in Hb by done; eauto].
    rewrite lookup_alter_eq in Hb. destruct (db1 !! (c_id r, W)); simplify_eq/=. auto.
Qed.

Lemma skip_post r db : c_global r = true → entry_post r false db false db.
Proof. intros Hg. by split. Qed.

Lemma refused_post r a db : entry_post r a db false db.
Proof. by split. Qed.
End posts.

Lemma refuse_denies v retry kind : v_allowed (refuse v retry kind) = false.
Proof. unfold refuse. by destruct (_ || _). Qed.

Lemma charge_entry_post (window : Duration) (now : Time) (v : verdict) (r : chargeable) (db : Buckets) :
  aligned db →
  triple (λ d, d = db) (charge_entry window now v r)
    (λ v' d, entry_post window now r (v_allowed v) db (v_allowed v') d) (λ _, True).
Proof.
  intros Hal. unfold charge_entry.
  destruct (c_global r && negb (v_allowed v)) eqn:Hsk.
  { apply triple_ret. intros ? ->. zify_guards. rewrite H0. by apply skip_post. }
  assert (c_global r = true → v_allowed v = false → False) as Hg.
  { intros H1 H2. by rewrite H1, H2 in Hsk. }
  apply triple_read; [done|]. intros blocked Hbl.
  pose proof (max_block_spec (c_id r) (pg_time now) db) as Hm. rewrite <- Hbl in Hm.
  assert ((∀ u, ¬ in_force (pg_time now) (c_id r) u db) →
    triple (λ d, d = db) (charge_open window now v r)
      (λ v' d, entry_post window now r (v_allowed v) db (v_allowed v') d) (λ _, True)) as Hopen.
  { intros Hno. unfold charge_open.
    eapply (triple_bind _ _ _ (λ n d, increment (c_id r) (pg_time (windowStart window now)) db = Ok (d, n))).
    { apply triple_statement; [done|]. by destruct (increment _ _ db) as [[? ?]|]. }
    intros n. apply triple_pre. intros db1 Hinc.
    pose proof (open_post window now r (v_allowed v) db db1 n) as Hpost.
    destruct (c_limit r <? n) eqn:Hlim.
    - assert ((n <=? c_limit r) = false) as Hle by (apply Z.leb_gt; by apply Z.ltb_lt).
      rewrite Hle, andb_false_r in Hpost. destruct (0 <? c_block r).
      + eapply (triple_bind _ _ _ (λ _ d, d = set_block (c_id r) (pg_time (windowStart window now))
          (pg_time (time_Add now (c_block r))) db1)); [by apply triple_exec|].
        intros []. apply triple_ret. intros ? ->. rewrite refuse_denies.
        apply (Hpost (Some _) Hno Hinc Hg). intros u [= <-]. apply pg_time_idemp.
      + apply triple_ret. intros ? ->. rewrite refuse_denies. by apply (Hpost None Hno Hinc Hg).
    - assert ((n <=? c_limit r) = true) as Hle by (apply Z.leb_le; by apply Z.ltb_ge).
      rewrite Hle, andb_true_r in Hpost. apply triple_ret. intros ? ->. by apply (Hpost None Hno Hinc Hg). }
  destruct blocked as [u|]; [|by apply Hopen].
  destruct Hm as [(Hu & ws & b & Hb & Hbu) _].
  assert (After u now = true) as ->.
  { unfold After. apply Z.ltb_lt. apply (pg_time_lt now u); [by eapply Hal|done]. }
  apply triple_ret. intros ? ->. rewrite refuse_denies. apply refused_post.
Qed.

Lemma triple_blame {A : Type} (kind : string) (P : Buckets → Prop) (m : TX Buckets A) Q X :
  triple P m Q X → triple P (blame kind m) Q (λ _, True).
Proof.
  intros H t t' r HP. unfold blame. specialize (H t). destruct (m t) as [t1 [a|e]]; intros [= <- <-]; [|done].
  exact (H _ _ HP eq_refl).
Qed.

Lemma charge_loop_charges (window : Duration) (now : Time) (l : list chargeable) (v : verdict) (db : Buckets) :
  aligned db →
  triple (λ d, d = db) (charge_loop window now v l)
    (λ v' d, charges window now l (v_allowed v) db (v_allowed v') d) (λ _, True).
Proof.
  revert v db. induction l as [|r l IH]; intros v db Hal; simpl.
  - apply triple_ret. intros ? ->. constructor.
  - eapply triple_bind; [by eapply triple_blame, charge_entry_post|]. intros v1. apply triple_pre. intros db1 Hp.
    eapply triple_conseq; [apply IH, (ep_aligned _ _ _ _ _ _ _ Hp Hal)|done|].
    intros v2 d Hc. econstructor; eauto.
Qed.

Lemma refuse_ms_denies v retry kind : q_allowed (refuse_ms v retry kind) = false.
Proof. unfold refuse_ms. by destruct (_ || _). Qed.

Lemma wrap32_le z : 0 < z → wrap32 z <= z.
Proof.
  intros Hz. unfold wrap32.
  pose proof (Z.mod_le (z + 2147483648) 4294967296). lia.
Qed.

Lemma pg_time_add t n : pg_time (pg_time t + n * Second) = pg_time t + n * Second.
Proof.
  unfold pg_time, Second, Millisecond, Microsecond, Nanosecond.
  replace (t / (1000 * 1) * (1000 * 1) + n * (1000 * (1000 * (1000 * 1))))
    with ((t / (1000 * 1) + n * 1000000) * (1000 * 1)) by lia.
  rewrite Z.div_mul; lia.
Qed.

Lemma charge_row_post (window : Duration) (now : Time) (wl : Z) (r : chargeable) (v v' : sql_verdict)
    (db db' : Buckets) :
  0 < c_limit r →
  charge_row (pg_time now) (pg_time (windowStart window now)) wl (c_id r) (wrap32 (c_limit r))
    (wrap32 (Z.quot (c_block r) Second)) (c_global r) v db = Ok (db', v') →
  entry_post window now r (q_allowed v) db (q_allowed v') db'.
Proof.
  intros Hlim. unfold charge_row.
  destruct (c_global r && negb (q_allowed v)) eqn:Hsk.
  { intros [= <- <-]. zify_guards. rewrite H0. by apply skip_post. }
  assert (c_global r = true → q_allowed v = false → False) as Hg.
  { intros H1 H2. by rewrite H1, H2 in Hsk. }
  pose proof (max_block_spec (c_id r) (pg_time now) db) as Hm.
  destruct (max_block _ _ db) as [u|].
  { intros [= <- <-]. rewrite refuse_ms_denies. apply refused_post. }
  destruct (increment _ _ db) as [[db1 n]|] eqn:Hinc; [|done]. simpl.
  pose proof (open_post window now r (q_allowed v) db db1 n) as Hpost.
  pose proof (wrap32_le _ Hlim) as Hw.
  destruct (wrap32 (c_limit r) <? n) eqn:Hn.
  - destruct (0 <? _); intros [= <- <-]; rewrite refuse_ms_denies.
    + destruct (Hpost (Some (pg_time now + wrap32 (Z.quot (c_block r) Second) * Second)) Hm Hinc Hg)
        as [P1 P2 P3 P4 P5 P6 P7].
      { intros u [= <-]. apply pg_time_add. }
      by split.
    + destruct (Hpost None Hm Hinc Hg) as [P1 P2 P3 P4 P5 P6 P7]; [done|]. by split.
  - intros [= <- <-]. specialize (Hpost None Hm Hinc Hg).
    zify_guards. replace (n <=? c_limit r) with true in Hpost by (symmetry; apply Z.leb_le; lia).
    rewrite andb_true_r in Hpost. by apply Hpost.
Qed.

Lemma charge_rows_charges (window : Duration) (now : Time) (wl : Z) (l : list chargeable)
    (v v' : sql_verdict) (db db' : Buckets) :
  Forall (λ r, 0 < c_limit r) l →
  charge_rows (pg_time now) (pg_time (windowStart window now)) wl v l db = Ok (db', v') →
  charges window now l (q_allowed v) db (q_allowed v') db'.
Proof.
  intros Hl. revert v db. induction Hl as [|r l Hr _ IH]; intros v db; simpl.
  - intros [= <- <-]. constructor.
  - intros ([db1 v1] & H1 & H2)%res_bind_Ok. econstructor; [by eapply charge_row_post|by apply IH].
Qed.

(** *** The charges of an attempt *)

Section attempt.
Context {UC : Unicode} (hmac_hex : string → string) (window : Duration).

Definition well_formed (merged : gmap bucket_id chargeable) : Prop :=
  map_Forall (λ id e, c_id e = id ∧ 0 < c_limit e) merged.

Lemma add_rule_well_formed merged r merged' :
  add_rule hmac_hex merged r = Ok merged' → well_formed merged → well_formed merged'.
Proof.
  unfold add_rule. intros H Hw. passed H; injection H as <-; try done.
  apply map_Forall_insert_2; [|done]. destruct (merged !! _) as [e|] eqn:He; [|done].
  destruct (Hw _ _ He) as [? ?]. split; [done|]. unfold merge. simpl.
  destruct (r_Limit r <? c_limit e); lia.
Qed.

Lemma merge_rules_well_formed rules merged merged' :
  merge_rules hmac_hex merged rules = Ok merged' → well_formed merged → well_formed merged'.
Proof.
  revert merged. induction rules as [|r rs IH]; intros merged; simpl; [by intros [= <-]|].
  intros (m1 & H1 & H2)%res_bind_Ok Hw. eapply IH; [done|]. by eapply add_rule_well_formed.
Qed.

Lemma normalizeRules_limits rules l :
  normalizeRules hmac_hex rules = Ok l → Forall (λ r, 0 < c_limit r) l.
Proof.
  unfold normalizeRules. intros (m & Hm & [= <-])%res_bind_Ok.
  apply merge_rules_well_formed in Hm; [|apply map_Forall_empty].
  apply Forall_forall. intros r. rewrite (merge_sort_Permutation charge_le).
  intros ([id e] & -> & He%elem_of_map_to_list)%list_elem_of_fmap. apply (Hm _ _ He).
Qed.

(** An attempt leaves the buckets alone or charges them, and is allowed only
    when the charges allowed it. *)
Lemma allow_slow_charges (env : attempt_env) (now : Time) (l : list chargeable) (db db' : Buckets) d e :
  aligned db → allow_slow window env now l db = (db', (d, e)) →
  (db' = db ∧ Allowed d = false) ∨
  ∃ a, charges window now l true db a db' ∧ (Allowed d = true → a = true).
Proof.
  intros Hal. unfold allow_slow. destruct (a_begin_fails env); [intros [= <- <- <-]; by left|].
  destruct (charge_loop window now no_verdict l _) as [t [v|x]] eqn:HE; [|intros [= <- <- <-]; by left].
  pose proof (charge_loop_charges window now l no_verdict db Hal (mkTx db false (a_faults env) (λ _, xH) 0)
                _ _ eq_refl HE) as Hc. simpl in Hc.
  unfold commit. destruct (tx_aborted t); [intros [= <- <- <-]; by left|].
  destruct (a_fate env); intros [= <- <- <-]; [right|by left|right]; exists (v_allowed v); by split_and!.
Qed.

Lemma allow_fast_charges (env : attempt_env) (now : Time) (l : list chargeable) (db db' : Buckets) d e :
  Forall (λ r, 0 < c_limit r) l → allow_fast window env now l db = (db', (d, e)) →
  (db' = db ∧ Allowed d = false) ∨
  ∃ a, charges window now l true db a db' ∧ (Allowed d = true → a = true).
Proof.
  intros Hlim. unfold allow_fast, auth_throttle_charge, statement. simpl.
  destruct (next_statement_fails _); [intros [= <- <- <-]; by left|].
  destruct (charge_rows _ _ _ _ l db) as [[db1 v]|x] eqn:HE; [|intros [= <- <- <-]; by left].
  pose proof (charge_rows_charges _ _ _ _ _ _ _ _ Hlim HE) as Hc. simpl in Hc.
  unfold commit. simpl.
  destruct (a_fate env); intros [= <- <- <-]; [right|by left|right]; exists (q_allowed v); by split_and!.
Qed.

Lemma Allow_charges env flag now rules db db' flag' d e :
  aligned db → Allow window hmac_hex env flag now rules db = (db', flag', (d, e)) →
  (db' = db ∧ Allowed d = false) ∨
  ∃ l a, normalizeRules hmac_hex rules = Ok l ∧ charges window now l true db a db' ∧
         (Allowed d = true → a = true).
Proof.
  intros Hal. unfold Allow. destruct (normalizeRules hmac_hex rules) as [l|] eqn:Hn;
    [|intros [= <- <- <- <-]; by left].
  pose proof (normalizeRules_limits _ _ Hn) as Hlim. intros HA.
  assert ((db' = db ∧ Allowed d = false) ∨
    ∃ a, charges window now l true db a db' ∧ (Allowed d = true → a = true)) as [?|(a & ? & ?)]; [|by left|].
  { destruct flag; [|destruct (function_missing env && negb (charge_lost env))];
      match type of HA with context [let '(_, _) := ?m in _] => destruct m as [db1 [d1 e1]] eqn:HE end;
      injection HA as <- <- <- <-; eauto using allow_slow_charges, allow_fast_charges. }
  right. by exists l, a.
Qed.

(** ** Histories *)

Inductive op := Attempt (env : attempt_env) (now : Time) (rules : list Rule) | Clean (grace : Duration) (now : Time).
Definition op_now (o : op) : Time := match o with Attempt _ now _ => now | Clean _ now => now end.

(** The buckets, the store's flag and the verdicts of the attempts. *)
Fixpoint run (ops : list op) (db : Buckets) (flag : bool) : Buckets * list bool :=
  match ops with
  | [] => (db, [])
  | Clean grace now :: ops' => run ops' (Cleanup window grace now db) flag
  | Attempt env now rules :: ops' =>
      let '(db1, flag1, (d, _)) := Allow window hmac_hex env flag now rules db in
      let '(db2, vs) := run ops' db1 flag1 in
      (db2, Allowed d :: vs)
  end.

Definition allowed_attempts (vs : list bool) : Z := Z.of_nat (length (filter (λ v, v = true) vs)).

(** The attempt charges [id], with a limit of at most [limit]. *)
Definition governed (id : bucket_id) (limit : Z) (o : op) : Prop :=
  match o with
  | Clean _ _ => True
  | Attempt _ _ rules => ∀ l, normalizeRules hmac_hex rules = Ok l →
      ∃ r, r ∈ l ∧ c_id r = id ∧ c_limit r <= limit
  end.
End attempt.

(** *** Cleaning up *)

Lemma Cleanup_lookup (window grace : Duration) (now : Time) (db : Buckets) k :
  Cleanup window grace now db !! k =
  match db !! k with
  | Some b => if (k.2 <? pg_time (now + (- window - (if grace <? 0 then 0 else grace))))
                 && match blocked_until b with None => true | Some u => u <=? pg_time now end
              then None else Some b
  | None => None
  end.
Proof.
  unfold Cleanup. rewrite map_lookup_filter. destruct (db !! k) as [b|]; simpl; [|done].
  unfold time_Add. case_guard as E; simpl in E; [by rewrite E|]. by apply not_false_is_true in E; rewrite E.
Qed.

Lemma Cleanup_aligned (window grace : Duration) (now : Time) (db : Buckets) :
  aligned db → aligned (Cleanup window grace now db).
Proof.
  intros Hal k b u. rewrite Cleanup_lookup. destruct (db !! k) eqn:Hk; [|done].
  destruct (_ && _); [done|]. intros [= <-]. by eapply Hal.
Qed.

(** The bucket of the current window survives. *)
Lemma Cleanup_count (window grace : Duration) (now : Time) (db : Buckets) (id : bucket_id) :
  0 < window →
  count_of id (pg_time (windowStart window now)) (Cleanup window grace now db)
  = count_of id (pg_time (windowStart window now)) db.
Proof.
  intros Hw. unfold count_of. rewrite Cleanup_lookup. simpl.
  destruct (db !! _) as [b|]; [|done].
  replace (_ <? _) with false; [done|]. symmetry. apply Z.ltb_ge, pg_time_mono.
  unfold windowStart. pose proof (Z.mod_pos_bound now window Hw). destruct (grace <? 0) eqn:Hg; zify_guards; lia.
Qed.

Lemma Cleanup_in_force (window grace : Duration) (now : Time) (id : bucket_id) (u t : Time) (db : Buckets) :
  in_force t id u db → now < u → in_force t id u (Cleanup window grace now db).
Proof.
  intros (Ht & ws & b & Hb & Hu) Hn. split; [done|]. exists ws, b. split; [|done].
  rewrite Cleanup_lookup, Hb, Hu. pose proof (pg_time_le now).
  rewrite (proj2 (Z.leb_gt u (pg_time now))) by lia. by rewrite andb_false_r.
Qed.

(** ** The theorems *)

(** C27. No scope gets more attempts than its limit.  Over any sequence of
    attempts and cleanups within one window, on either path and whatever the database
    does in between, the attempts allowed for an id every rule set charges are at most
    its limit. *)
Theorem attempts_bounded {UC : Unicode} (hmac_hex : string → string) (window w limit : Z)
    (id : bucket_id) (ops : list op) (db : Buckets) (flag : bool) :
  0 < window → aligned db → 0 <= limit → 0 <= count_of id (pg_time w) db →
  Forall (λ o, windowStart window (op_now o) = w) ops →
  Forall (governed hmac_hex id limit) ops →
  allowed_attempts (run hmac_hex window ops db flag).2 <= limit.
Proof.
  intros Hw Hal Hlim Hc Hwin Hgov.
  cut (allowed_attempts (run hmac_hex window ops db flag).2 <= Z.max 0 (limit - count_of id (pg_time w) db)); [lia|].
  revert db flag Hal Hc. induction ops as [|o ops IH]; intros db flag Hal Hc; [unfold allowed_attempts; simpl; lia|].
  apply Forall_cons_1 in Hwin as [Ho Hwin], Hgov as [Hg Hgov]. specialize (IH Hwin Hgov).
  destruct o as [env now rules|grace now]; simpl in *.
  - destruct (Allow window hmac_hex env flag now rules db) as [[db1 flag1] [d e]] eqn:HA.
    destruct (Allow_charges _ _ _ _ _ _ _ _ _ _ _ Hal HA) as [[-> Hd]|(l & a & Hn & Hch & Ha)].
    + specialize (IH db flag1 Hal Hc). destruct (run _ _ ops db flag1) as [db2 vs]. simpl in *.
      rewrite Hd. unfold allowed_attempts in *. by rewrite filter_cons_False.
    + specialize (IH db1 flag1 (charges_aligned _ _ _ _ _ _ _ Hch Hal)).
      pose proof (charges_count _ _ _ _ _ _ _ id (pg_time w) Hch) as Hmono.
      destruct (Hg l Hn) as (r & Hr & <- & Hl).
      destruct (run _ _ ops db1 flag1) as [db2 vs]. simpl in *. unfold allowed_attempts in *.
      destruct (Allowed d).
      * rewrite (Ha eq_refl) in Hch. destruct (charges_allowed _ _ _ _ _ _ r Hch Hr) as [H1 H2].
        rewrite Ho in H1, H2. rewrite filter_cons_True by done. simpl. lia.
      * rewrite filter_cons_False by done. lia.
  - specialize (IH (Cleanup window grace now db) flag (Cleanup_aligned _ _ _ _ Hal)).
    rewrite <- Ho, (Cleanup_count _ _ _ _ _ Hw), Ho in IH. auto.
Qed.

(** A hard block holds.  Once a block until [u] is stored for an id, every
    attempt charged to that id before [u] is refused, across window boundaries, on either
    path, and whatever other attempts and cleanups happen in between. *)
Theorem block_holds {UC : Unicode} (hmac_hex : string → string) (window limit : Z)
    (id : bucket_id) (ws u : Time) (b : Bucket) (ops : list op) (db : Buckets) (flag : bool) :
  aligned db → db !! (id, ws) = Some b → blocked_until b = Some u →
  Forall (λ o, op_now o < u) ops → Forall (governed hmac_hex id limit) ops →
  Forall (λ v, v = false) (run hmac_hex window ops db flag).2.
Proof.
  intros Hal Hb Hu Hnow Hgov.
  assert (∀ t, t < u → in_force t id u db) as Hf by (intros t Ht; split; eauto). clear Hb.
  revert db flag Hal Hf. induction ops as [|o ops IH]; intros db flag Hal Hf; [constructor|].
  apply Forall_cons_1 in Hnow as [Ho Hnow], Hgov as [Hg Hgov]. specialize (IH Hnow Hgov).
  destruct o as [env now rules|grace now]; simpl in *.
  - pose proof (pg_time_le now) as Hle.
    destruct (Allow window hmac_hex env flag now rules db) as [[db1 flag1] [d e]] eqn:HA.
    destruct (Allow_charges _ _ _ _ _ _ _ _ _ _ _ Hal HA) as [[-> Hd]|(l & a & Hn & Hch & Ha)].
    + specialize (IH db flag1 Hal Hf). destruct (run _ _ ops db flag1) as [db2 vs]. by constructor.
    + assert (∀ t, t < u → in_force t id u db1) as Hf1.
      { intros t Ht. destruct (charges_in_force _ _ _ _ _ _ _ id u Hch (Hf (pg_time now) ltac:(lia))) as [_ ?].
        by split. }
      specialize (IH db1 flag1 (charges_aligned _ _ _ _ _ _ _ Hch Hal) Hf1).
      destruct (run _ _ ops db1 flag1) as [db2 vs]. constructor; [|done].
      destruct (Hg l Hn) as (r & Hr & <- & _). destruct (Allowed d); [|done].
      rewrite <- (Ha eq_refl). eapply charges_blocked; [exact Hch|exact Hr|]. apply Hf. lia.
  - apply IH; [by apply Cleanup_aligned|]. intros t Ht. apply Cleanup_in_force; auto.
Qed.

(** *** The order of the charges *)

#[export] Instance string_le_total : Total string_le.
Proof. intros a b. unfold string_le. destruct (String.leb_total a b); auto. Qed.

#[export] Instance charge_le_total : Total charge_le.
Proof.
  intros a b. unfold charge_le, id_le.
  destruct (c_id a) as [[k1 s1] m1], (c_id b) as [[k2 s2] m2].
  destruct (decide (c_global a = c_global b)) as [E|E].
  - rewrite (decide_True _ _ (eq_sym E)).
    repeat case_decide; try congruence; apply string_le_total.
  - rewrite (decide_False _ _ (not_eq_sym E)). destruct (c_global a), (c_global b); try congruence; auto.
Qed.

(** Sorted charges are client-scoped ones, then global ones. *)
Lemma globals_last l : Sorted charge_le l →
  ∃ l1 l2, l = (l1 ++ l2)%list ∧ Forall (λ r, c_global r = false) l1 ∧ Forall (λ r, c_global r = true) l2.
Proof.
  induction 1 as [|r l Hs IH Hr]; [by exists [], []|].
  destruct IH as (l1 & l2 & -> & H1 & H2). destruct (c_global r) eqn:Hg.
  - exists [], (r :: (l1 ++ l2)%list). split_and!; [done|constructor|]. constructor; [done|].
    destruct l1 as [|x l1]; [done|]. exfalso. apply Forall_cons_1 in H1 as [Hx _].
    inversion Hr as [|? ? Hle]; subst. unfold charge_le in Hle. rewrite decide_False in Hle by congruence.
    congruence.
  - exists (r :: l1), l2. split_and!; try done. by constructor.
Qed.

Section order.
Context {UC : Unicode} (hmac_hex : string → string).

Lemma normalizeRules_order rules l :
  normalizeRules hmac_hex rules = Ok l →
  Sorted charge_le l ∧ (∀ r r', r ∈ l → r' ∈ l → c_id r = c_id r' → r = r').
Proof.
  unfold normalizeRules. intros (m & Hm & [= <-])%res_bind_Ok.
  apply merge_rules_well_formed in Hm; [|apply map_Forall_empty].
  split; [apply (Sorted_merge_sort _)|].
  assert (∀ r, r ∈ merge_sort charge_le (snd <$> map_to_list m) → m !! c_id r = Some r) as Hin.
  { intros r. rewrite (merge_sort_Permutation charge_le).
    intros ([id e] & -> & He%elem_of_map_to_list)%list_elem_of_fmap. simpl.
    by rewrite (proj1 (Hm _ _ He)). }
  intros r r' H1%Hin H2%Hin Hid. rewrite Hid in H1. congruence.
Qed.
End order.

(** One refused client cannot spend the shared budget.  When a
    client-scoped rule of an attempt is blocked or already at its limit, the attempt
    leaves every bucket of its global dampers exactly as it was. *)
Theorem refused_client_spares_dampers {UC : Unicode} (hmac_hex : string → string) (window : Duration)
    (env : attempt_env) (flag flag' e : bool) (now : Time) (rules : list Rule) (db db' : Buckets)
    (d : ThrottleDecision) (l : list chargeable) (r g : chargeable) (ws : Time) :
  aligned db → Allow window hmac_hex env flag now rules db = (db', flag', (d, e)) →
  normalizeRules hmac_hex rules = Ok l → r ∈ l → g ∈ l → c_global r = false → c_global g = true →
  (∃ u, in_force (pg_time now) (c_id r) u db) ∨
    c_limit r <= count_of (c_id r) (pg_time (windowStart window now)) db →
  Allowed d = false ∧ db' !! (c_id g, ws) = db !! (c_id g, ws).
Proof.
  intros Hal HA Hn Hr Hg Hrg Hgg Hwhy.
  destruct (Allow_charges _ _ _ _ _ _ _ _ _ _ _ Hal HA) as [[-> Hd]|(l' & a & Hn' & Hch & Ha)]; [done|].
  rewrite Hn in Hn'. injection Hn' as <-.
  destruct (normalizeRules_order _ _ _ Hn) as [Hsort Huniq].
  destruct (globals_last _ Hsort) as (l1 & l2 & -> & H1 & H2).
  rewrite Forall_forall in H1. pose proof (proj1 (Forall_forall _ _) H2) as H2'.
  destruct (charges_app _ _ _ _ _ _ _ _ Hch) as (a1 & db1 & Hc1 & Hc2).
  assert (r ∈ l1) as Hr1 by (apply elem_of_app in Hr as [?|?%H2']; congruence).
  assert (a1 = false) as ->.
  { destruct Hwhy as [[u Hu]|Hle]; [by eapply charges_blocked|]. destruct a1; [|done].
    destruct (charges_allowed _ _ _ _ _ _ r Hc1 Hr1). lia. }
  pose proof (charges_denied _ _ _ _ _ _ _ Hc2 eq_refl) as ->.
  split; [by destruct (Allowed d); [rewrite (Ha eq_refl)|]|].
  rewrite (charges_globals _ _ _ _ _ _ H2 Hc2).
  eapply charges_other; [exact Hc1|]. intros x Hx Heq.
  assert (g = x) as -> by (apply Huniq; [done|apply elem_of_app; by left|done]).
  rewrite (H1 _ Hx) in Hgg. done.
Qed.

(** *** The two paths agree *)

(** A charge both paths represent exactly: a 32-bit limit and a block of whole
    seconds. *)
Definition representable (r : chargeable) : Prop :=
  0 < c_limit r <= int_max ∧ ∃ s, c_block r = s * Second ∧ 0 <= s <= int_max.

Lemma wrap32_id z : -2147483648 <= z <= int_max → wrap32 z = z.
Proof. unfold wrap32, int_max. intros H. rewrite Z.mod_small; lia. Qed.

Lemma pg_time_add_seconds t s : pg_time (t + s * Second) = pg_time t + s * Second.
Proof.
  unfold pg_time, Second, Millisecond, Microsecond, Nanosecond.
  replace (t + s * (1000 * (1000 * (1000 * 1)))) with (t + (s * 1000000) * (1000 * 1)) by lia.
  rewrite Z.div_add; lia.
Qed.

(** Two waits, one in milliseconds, that differ by at most one. *)
Definition near (d : Duration) (ms : Z) : Prop := Z.abs (ms * Millisecond - d) ≤ Millisecond.

Lemma refuse_worst v retry kind : v_worst (refuse v retry kind) = Z.max retry (v_worst v).
Proof. unfold refuse. destruct (Z.ltb_spec (v_worst v) retry), (empty (v_reason v)); cbn; lia. Qed.

Lemma refuse_ms_worst q retry kind : q_worst_ms (refuse_ms q retry kind) = Z.max retry (q_worst_ms q).
Proof. unfold refuse_ms. destruct (Z.ltb_spec (q_worst_ms q) retry), (bool_decide _); cbn; lia. Qed.

Lemma near_refuse v q d ms kind kind' : near (v_worst v) (q_worst_ms q) → near d ms →
  near (v_worst (refuse v d kind)) (q_worst_ms (refuse_ms q ms kind')).
Proof. rewrite refuse_worst, refuse_ms_worst. unfold near, Millisecond, Microsecond, Nanosecond. lia. Qed.

Lemma pg_time_near t : pg_time t ≤ t < pg_time t + Microsecond.
Proof. unfold pg_time. pose proof (Z.div_mod t Microsecond ltac:(done)). pose proof (Z.mod_pos_bound t Microsecond eq_refl). lia. Qed.

Lemma near_to_ms d d' : d ≤ d' ≤ d + Microsecond → near d (to_ms d').
Proof.
  intros Hd. unfold near, to_ms. pose proof (Z.div_mod (d' + Millisecond / 2) Millisecond ltac:(done)).
  pose proof (Z.mod_pos_bound (d' + Millisecond / 2) Millisecond eq_refl). change (Millisecond / 2) with 500000 in *.
  unfold Millisecond, Microsecond, Nanosecond in *. lia.
Qed.

(** A window of whole seconds, and no block that ends later than a [Duration] reaches. *)
Definition whole_seconds (window : Duration) : Prop := ∃ w, 0 < w ∧ window = w * Second ∧ window < two63.
Definition within_reach (now : Time) (db : Buckets) : Prop := ∀ k b u, db !! k = Some b → blocked_until b = Some u → u - now < two63.

Lemma near_window window now : whole_seconds window →
  near (time_Sub (time_Add (windowStart window now) window) now)
       (to_ms (pg_time (windowStart window now) + Z.quot window Second * Second - pg_time now)).
Proof.
  intros (w & Hw & -> & Hlt). rewrite Z.quot_mul by done. apply near_to_ms. pose proof (pg_time_near now).
  assert (Hpos : 0 < w * Second) by (unfold Second, Millisecond, Microsecond, Nanosecond; lia).
  assert (HW : pg_time (windowStart (w * Second) now) = windowStart (w * Second) now).
  { unfold windowStart. rewrite (Z.mod_eq now (w * Second)) by lia.
    unfold pg_time. change Second with (1000000 * Microsecond). set (k := now / _).
    replace (now - (now - w * (1000000 * Microsecond) * k)) with (w * 1000000 * k * Microsecond) by lia. by rewrite Z.div_mul. }
  rewrite HW. unfold time_Sub, time_Add, windowStart, two63 in *. pose proof (Z.mod_pos_bound now (w * Second) Hpos). lia.
Qed.

Lemma near_block now db k b u : within_reach now db → db !! k = Some b → blocked_until b = Some u → now < u → near (time_Sub u now) (to_ms (u - pg_time now)).
Proof.
  intros HR Hb Hu Hlt. pose proof (HR k b u Hb Hu). pose proof (pg_time_near now). apply near_to_ms. unfold time_Sub, two63 in *. lia.
Qed.

Lemma within_reach_increment now id ws db db1 c : increment id ws db = Ok (db1, c) → within_reach now db → within_reach now db1.
Proof.
  intros HI HR k b u Hb Hu. destruct (increment_blocked _ _ _ _ _ _ _ HI Hb) as [?|(b0 & ? & ?)]; [congruence|]. eapply HR; [done|congruence].
Qed.

Lemma within_reach_block now id ws db s : 0 ≤ s ≤ int_max → within_reach now db → within_reach now (set_block id ws (pg_time now + s * Second) db).
Proof.
  intros Hs HR k b u Hb Hu. unfold set_block in Hb. destruct (decide (k = (id, ws))) as [->|]; [|rewrite lookup_alter_ne in Hb by done; by eapply HR].
  rewrite lookup_alter_eq in Hb. destruct (db !! _); simplify_eq/=. pose proof (pg_time_near now).
  unfold int_max, Second, Millisecond, Microsecond, Nanosecond, two63 in *. lia.
Qed.

(** The waits of two verdicts stay close from one step to the last. *)
Definition kept_near (window : Duration) (now : Time) (db : Buckets) (v : verdict) (q : sql_verdict) (v' : verdict) (q' : sql_verdict) : Prop :=
  whole_seconds window → within_reach now db → near (v_worst v) (q_worst_ms q) → near (v_worst v') (q_worst_ms q').

Lemma kept_after window now db db1 v q v1 q1 v' q' : (whole_seconds window → within_reach now db → within_reach now db1) →
  kept_near window now db v q v1 q1 → kept_near window now db1 v1 q1 v' q' → kept_near window now db v q v' q'.
Proof. unfold kept_near. auto. Qed.

Lemma kept_refuse window now db v q d ms kind : (whole_seconds window → within_reach now db → near d ms) →
  kept_near window now db v q (refuse v d kind) (refuse_ms q ms kind).
Proof. intros HN HW HR HV. apply near_refuse; auto. Qed.

Lemma loop_is_rows (window : Duration) (now : Time) (l : list chargeable) (v : verdict)
    (q : sql_verdict) (db : Buckets) (g : nat → positive) (n : nat) :
  Forall representable l → aligned db → v_allowed v = q_allowed q →
  match charge_rows (pg_time now) (pg_time (windowStart window now)) (Z.quot window Second) q l db with
  | Ok (db', q') => ∃ v', charge_loop window now v l (mkTx db false [] g n)
                          = (mkTx db' false [] g n, Ok v') ∧ v_allowed v' = q_allowed q' ∧ kept_near window now db v q v' q'
  | Err e => ∃ t x, charge_loop window now v l (mkTx db false [] g n) = (t, Err x)
  end.
Proof.
  intros Hl. revert v q db. induction Hl as [|r l [Hlim (s & Hs & Hsr)] _ IH]; intros v q db Hal Hv; simpl.
  { exists v. split_and!; [done..|]. by intros _ _. }
  (** what is left to do after one entry, from the entry's own verdicts *)
  assert (HG : ∀ db1 v1 q1, aligned db1 → v_allowed v1 = q_allowed q1 → (whole_seconds window → within_reach now db → within_reach now db1) →
    kept_near window now db v q v1 q1 →
    match charge_rows (pg_time now) (pg_time (windowStart window now)) (Z.quot window Second) q1 l db1 with
    | Ok (db', q') => ∃ v', charge_loop window now v1 l (mkTx db1 false [] g n) = (mkTx db' false [] g n, Ok v') ∧
                        v_allowed v' = q_allowed q' ∧ kept_near window now db v q v' q'
    | Err e => ∃ t x, charge_loop window now v1 l (mkTx db1 false [] g n) = (t, Err x)
    end).
  { intros db1 v1 q1 Ha1 Hv1 HR1 HK1. specialize (IH v1 q1 db1 Ha1 Hv1). destruct (charge_rows _ _ _ q1 l db1) as [[db' q']|]; [|done].
    destruct IH as (v' & HL & HA & HK). exists v'. split_and!; [done..|]. by eapply kept_after. }
  unfold charge_row, charge_entry. rewrite <- Hv.
  destruct (c_global r && negb (v_allowed v)); [simpl; apply HG; [done..|]; by intros _ _|].
  unfold blame, mbind, ST_bind, query, statement at 1. simpl.
  pose proof (max_block_spec (c_id r) (pg_time now) db) as Hm.
  destruct (max_block (c_id r) (pg_time now) db) as [u|].
  { destruct Hm as [(Hu & ws & b & Hb & Hbu) _].
    assert (Hlt : now < u) by (apply (pg_time_lt now u); [by eapply Hal|done]).
    assert (After u now = true) as -> by (by apply Z.ltb_lt).
    simpl. apply HG; [done|by rewrite refuse_denies, refuse_ms_denies|done|]. apply kept_refuse. intros _ HR. by eapply near_block. }
  unfold charge_open, mbind, ST_bind, statement. simpl.
  destruct (increment (c_id r) _ db) as [[db1 c]|x] eqn:Hinc; simpl; [|by eauto].
  assert (aligned db1) as Hal1.
  { intros k b u Hb Hu. destruct (increment_blocked _ _ _ _ _ _ _ Hinc Hb) as [?|(b0 & ? & ?)]; [congruence|].
    eapply Hal; [done|congruence]. }
  pose proof (within_reach_increment now _ _ _ _ _ Hinc) as HR1.
  rewrite (wrap32_id (c_limit r)) by lia. rewrite Hs, Z.quot_mul by (by vm_compute).
  rewrite (wrap32_id s) by (unfold int_max in *; lia).
  destruct (c_limit r <? c); [|simpl; apply HG; [done|done|by intros _|by intros _ _]].
  replace (0 <? s * Second) with (0 <? s).
  2:{ unfold Second, Millisecond, Microsecond, Nanosecond.
      destruct (Z.ltb_spec 0 s), (Z.ltb_spec 0 (s * (1000 * (1000 * (1000 * 1))))); lia. }
  destruct (0 <? s); unfold exec, statement; simpl.
  - unfold time_Add. rewrite !pg_time_add_seconds. apply HG; [|by rewrite refuse_denies, refuse_ms_denies| |].
    + intros k b u Hb Hu. unfold set_block in Hb.
      destruct (decide (k = (c_id r, pg_time (windowStart window now)))) as [->|];
        [|rewrite lookup_alter_ne in Hb by done; by eapply Hal1].
      rewrite lookup_alter_eq in Hb. destruct (db1 !! _); simplify_eq/=. apply pg_time_add.
    + intros _ HR. by apply within_reach_block, HR1.
    + apply kept_refuse. intros _ _. unfold near, Second, Millisecond, Microsecond, Nanosecond. lia.
  - apply HG; [done|by rewrite refuse_denies, refuse_ms_denies|by intros _|]. apply kept_refuse. intros HW _. by apply near_window.
Qed.

(** C38. The one-round-trip charge is the loop.  When no call to the database fails, and
    for charges with 32-bit limits and blocks of whole seconds, the database function and
    the statement-by-statement path leave the same buckets and give the same verdict and
    the same error flag; and with a window of whole seconds the two waits they report
    differ by at most a millisecond, to which the function rounds. *)
Theorem one_trip_equivalent (window : Duration) (now : Time) (l : list chargeable) (db : Buckets) :
  Forall representable l → aligned db →
  let env := mkAttemptEnv false false [] Committed in
  (allow_slow window env now l db).1 = (allow_fast window env now l db).1 ∧
  Allowed (allow_slow window env now l db).2.1 = Allowed (allow_fast window env now l db).2.1 ∧
  (allow_slow window env now l db).2.2 = (allow_fast window env now l db).2.2 ∧
  (whole_seconds window → within_reach now db →
     Z.abs (RetryAfter (allow_fast window env now l db).2.1 - RetryAfter (allow_slow window env now l db).2.1) ≤ Millisecond).
Proof.
  intros Hl Hal env. unfold allow_slow, allow_fast, auth_throttle_charge, statement. simpl.
  pose proof (loop_is_rows window now l no_verdict (mkSqlVerdict true None 0) db (λ _, xH) 0 Hl Hal eq_refl) as H.
  destruct (charge_rows _ _ _ _ l db) as [[db' q]|x].
  - destruct H as (v & -> & Hv & HK). simpl. rewrite Hv. split_and!; [done..|]. intros HW HR. by apply HK.
  - destruct H as (t & y & ->). done.
Qed.

(** ** Samples *)

#[local] Existing Instance ascii_unicode.

Module ThrottleSample.
Definition hmac (s : string) : string := s.
Definition rules : list Rule :=
  [mkRule ScopeIP "10.0.0.7" "account" 2 (10 * Minute) false;
   mkRule ScopeEndpoint "auth" MethodAny 100 0 true].
Definition ip : bucket_id := (ScopeIP, scopeKey hmac ScopeIP "10.0.0.7", "account").
Definition endpoint : bucket_id := (ScopeEndpoint, scopeKey hmac ScopeEndpoint "auth", MethodAny).
Definition charge_ip : chargeable := mkChargeable ip 2 (10 * Minute) false.
Definition charge_endpoint : chargeable := mkChargeable endpoint 100 0 true.
Definition charges : list chargeable := [charge_ip; charge_endpoint].
Definition env : attempt_env := mkAttemptEnv false false [] Committed.
Definition blocked : Buckets := {[ (ip, 0) := mkBucket 3 (Some (600 * Second)) ]}.

Lemma normalized : normalizeRules hmac rules = Ok charges.
Proof. vm_compute. reflexivity. Qed.

Lemma governed_ip now : governed hmac ip 2 (Attempt env now rules).
Proof.
  intros l Hl. rewrite normalized in Hl. injection Hl as <-.
  exists charge_ip. split; [left|done].
Qed.

Lemma aligned_empty : aligned ∅.
Proof. intros k b u Hb. by rewrite lookup_empty in Hb. Qed.
Lemma aligned_blocked : aligned blocked.
Proof. unfold blocked. intros k b u [<- <-]%lookup_singleton_Some [= <-]. reflexivity. Qed.
Lemma reach_blocked : within_reach (5 * Second) blocked.
Proof. unfold blocked. intros k b u [<- <-]%lookup_singleton_Some [= <-]. vm_compute. reflexivity. Qed.
End ThrottleSample.

Lemma attempts_bounded_witness :
  allowed_attempts (run ThrottleSample.hmac Minute
    (replicate 5 (Attempt ThrottleSample.env (5 * Second) ThrottleSample.rules)) ∅ false).2 <= 2.
Proof.
  apply (attempts_bounded ThrottleSample.hmac Minute 0 2 ThrottleSample.ip).
  - reflexivity.
  - exact ThrottleSample.aligned_empty.
  - done.
  - vm_compute. discriminate.
  - repeat constructor.
  - repeat constructor; apply ThrottleSample.governed_ip.
Defined.

Lemma block_holds_witness :
  Forall (λ v, v = false) (run ThrottleSample.hmac Minute
    [Attempt ThrottleSample.env (5 * Second) ThrottleSample.rules; Clean 0 (300 * Second);
     Attempt ThrottleSample.env (599 * Second) ThrottleSample.rules] ThrottleSample.blocked false).2.
Proof.
  apply (block_holds ThrottleSample.hmac Minute 2 ThrottleSample.ip 0 (600 * Second)
           (mkBucket 3 (Some (600 * Second)))).
  - exact ThrottleSample.aligned_blocked.
  - reflexivity.
  - reflexivity.
  - repeat constructor.
  - repeat constructor; apply ThrottleSample.governed_ip.
Defined.

Lemma refused_client_spares_dampers_witness :
  (Allow Minute ThrottleSample.hmac ThrottleSample.env false (5 * Second) ThrottleSample.rules
     ThrottleSample.blocked).1.1 !! (ThrottleSample.endpoint, 0) = None.
Proof.
  destruct (Allow Minute ThrottleSample.hmac ThrottleSample.env false (5 * Second) ThrottleSample.rules
     ThrottleSample.blocked) as [[db' flag'] [d e]] eqn:HA.
  destruct (refused_client_spares_dampers ThrottleSample.hmac Minute ThrottleSample.env false flag' e
    (5 * Second) ThrottleSample.rules ThrottleSample.blocked db' d
    ThrottleSample.charges ThrottleSample.charge_ip ThrottleSample.charge_endpoint 0) as [_ H].
  - exact ThrottleSample.aligned_blocked.
  - exact HA.
  - exact ThrottleSample.normalized.
  - left.
  - right; left.
  - reflexivity.
  - reflexivity.
  - left. exists (600 * Second). split; [vm_compute; reflexivity|].
    exists 0, (mkBucket 3 (Some (600 * Second))). split; reflexivity.
  - exact H.
Defined.

Lemma one_trip_equivalent_witness :
  let slow := allow_slow Minute ThrottleSample.env (5 * Second) ThrottleSample.charges ThrottleSample.blocked in
  let fast := allow_fast Minute ThrottleSample.env (5 * Second) ThrottleSample.charges ThrottleSample.blocked in
  slow.1 = fast.1 ∧ Z.abs (RetryAfter fast.2.1 - RetryAfter slow.2.1) ≤ Millisecond.
Proof.
  destruct (one_trip_equivalent Minute (5 * Second) ThrottleSample.charges ThrottleSample.blocked) as (H1 & _ & _ & H2).
  - repeat constructor; try done; [exists 600|exists 0]; by vm_compute.
  - exact ThrottleSample.aligned_blocked.
  - split; [exact H1|]. apply H2.
    + exists 60. vm_compute. repeat split; reflexivity.
    + exact ThrottleSample.reach_blocked.
Defined.
