(* ===== verification/Assignment.v ===== *)
(** Which customer and site an appliance belongs to
    (data-plane/internal/assignment and its agent, data-plane/cmd/scd/assignment.go).

    The vendor-signed assignment document, the registry of the keys that may sign
    it, the registry's own signature under the root key of the appliance, the two
    on-disk stores, and the resolution every daemon takes its tenant and site from.
    Files, write failures, signatures and JSON are those of [LicenseStore]; instants
    are Unix seconds and formatted times are arguments. *)
From S2P Require Import Prelude GoStrings LicenseStore.

(** ** The document (assignment.go) *)

Definition StateAssigned : string := "assigned".
Definition StateReassigned : string := "reassigned".
Definition StateUnassigned : string := "unassigned".
Definition StateRevoked : string := "revoked".
Definition StateDecommissioned : string := "decommissioned".

Definition Grants (state : string) : bool := bool_decide (state = StateAssigned ∨ state = StateReassigned).
Definition Clears (state : string) : bool :=
  bool_decide (state = StateUnassigned ∨ state = StateRevoked ∨ state = StateDecommissioned).
Definition knownState (s : string) : bool := Grants s || Clears s.

Record Document := mkDocument {
  AssignmentID : string;
  ApplianceID : string;
  IdentityKeyFpr : string;
  Serial : string;
  TenantID : string;
  SiteID : string;
  TenantName : string;
  SiteName : string;
  Version : Z;
  State : string;
  IssuedAt : Z;
  ExpiresAt : Z;
  SignerKeyID : string;
  Signature : string;
  SiteType : string
}.
#[export] Instance Document_eq_dec : EqDecision Document.
Proof. solve_decision. Defined.

Definition IsExpired (d : Document) (now : Z) : bool := negb (ExpiresAt d =? 0)%Z && (ExpiresAt d <? now).

(** The signed projection: every field but the signature, in this order. *)
Definition signView : Type :=
  (string * string * string * string * string * string * string * string) * (Z * string * Z * Z) * (string * string).
Definition sign_view (d : Document) : signView :=
  ((AssignmentID d, ApplianceID d, IdentityKeyFpr d, Serial d, TenantID d, SiteID d, TenantName d, SiteName d),
   (Version d, State d, IssuedAt d, ExpiresAt d), (SignerKeyID d, SiteType d)).

Definition with_signer (key sig : string) (d : Document) : Document :=
  mkDocument (AssignmentID d) (ApplianceID d) (IdentityKeyFpr d) (Serial d) (TenantID d) (SiteID d) (TenantName d)
    (SiteName d) (Version d) (State d) (IssuedAt d) (ExpiresAt d) key sig (SiteType d).

(** ** The key registry (registry.go, signed_registry.go) *)

Definition KeyActive : string := "active".
Definition KeyVerifyOnly : string := "verify_only".
Definition KeyRevoked : string := "revoked".

Definition CanSign (state : string) : bool := bool_decide (state = KeyActive).
Definition CanVerify (state : string) : bool := bool_decide (state = KeyActive ∨ state = KeyVerifyOnly).

Record TrustedKey := mkTrustedKey {
  tk_KeyID : string;
  tk_PublicKey : string;      (* base64 *)
  tk_State : string;
  AddedAt : string;
  RetiredAt : string;
  Note : string
}.
#[export] Instance TrustedKey_eq_dec : EqDecision TrustedKey.
Proof. solve_decision. Defined.

Abbreviation Registry := (list TrustedKey).

Definition Lookup (r : Registry) (keyID : string) : option TrustedKey :=
  snd <$> list_find (λ k, tk_KeyID k = keyID) r.

Definition with_state (state retired : string) (k : TrustedKey) : TrustedKey :=
  mkTrustedKey (tk_KeyID k) (tk_PublicKey k) state (AddedAt k) retired (Note k).

(** Updates the first key of that id, or appends. *)
Fixpoint replace_key (k : TrustedKey) (r : Registry) : Registry :=
  match r with
  | [] => [k]
  | k' :: r' => if decide (tk_KeyID k' = tk_KeyID k) then k :: r' else k' :: replace_key k r'
  end.

Definition AddOrRotate (k : TrustedKey) (stamp : string) (r : Registry) : Registry :=
  replace_key (mkTrustedKey (tk_KeyID k) (tk_PublicKey k) KeyActive (if empty (AddedAt k) then stamp else AddedAt k)
                 (RetiredAt k) (Note k)) r.

Fixpoint setState (keyID state stamp : string) (r : Registry) : Registry * bool :=
  match r with
  | [] => ([], false)
  | k :: r' =>
      if decide (tk_KeyID k = keyID) then
        (with_state state (if decide (state = KeyActive) then RetiredAt k else stamp) k :: r', true)
      else let '(r'', ok) := setState keyID state stamp r' in (k :: r'', ok)
  end.
Definition VerifyOnly (keyID stamp : string) : Registry → Registry * bool := setState keyID KeyVerifyOnly stamp.
Definition Revoke (keyID stamp : string) : Registry → Registry * bool := setState keyID KeyRevoked stamp.

Record SignedRegistry := mkSignedRegistry {
  RegistryVersion : Z;
  sr_IssuedAt : Z;
  NotBefore : Z;
  NotAfter : Z;               (* 0: no upper bound *)
  Keys : Registry;
  sr_SignerKeyID : string;
  sr_Signature : string
}.
#[export] Instance SignedRegistry_eq_dec : EqDecision SignedRegistry.
Proof. solve_decision. Defined.

Definition regSignView : Type := Z * Z * Z * Z * Registry * string.
Definition reg_view (sr : SignedRegistry) : regSignView :=
  (RegistryVersion sr, sr_IssuedAt sr, NotBefore sr, NotAfter sr, Keys sr, sr_SignerKeyID sr).

(** ** Records on disk (store.go, registry_store.go) *)

Record Record_ := mkRecord {
  Current : option Document;
  Previous : option Document;
  rec_Version : Z;
  rec_SignerKeyID : string;
  rec_State : string;
  AdoptedAt : string;
  LastRefreshSuccess : string;
  LastRefreshAttempt : string;
  StaleSince : string
}.

Record highestRecord := mkHighest { hr_ApplianceID : string; hr_Version : Z }.

Record registryRecord := mkRegistryRecord {
  rr_Current : option SignedRegistry;
  rr_Previous : option SignedRegistry;
  rr_AdoptedAt : string
}.

Record Ack := mkAck {
  ack_ApplianceID : string;
  ack_Version : Z;
  TerminalState : string;
  Fingerprint : string;
  ack_AdoptedAt : Z;
  ack_Signature : string
}.
Definition ackSignView : Type := string * Z * string * string * Z.
Definition ack_view (a : Ack) : ackSignView :=
  (ack_ApplianceID a, ack_Version a, TerminalState a, Fingerprint a, ack_AdoptedAt a).

(** [encoding/json] on these types, and the text each carries. *)
Class AssignmentCodecs : Type := {
  ac_json :: Json;
  ac_view :: Codec signView;
  ac_regview :: Codec regSignView;
  ac_ackview :: Codec ackSignView;
  ac_doc :: Codec Document;
  ac_record :: Codec Record_;
  ac_highest :: Codec highestRecord;
  ac_signed :: Codec SignedRegistry;
  ac_regrecord :: Codec registryRecord;
  ac_registry :: Codec Registry;
  (* strings and integers always have an encoding *)
  ac_highest_encodes (h : highestRecord) : is_Some (marshal h);
  ac_highest_texts (h : highestRecord) : texts h = [hr_ApplianceID h];
  ac_regrecord_texts (r : registryRecord) :
    texts r = (from_option texts [] (rr_Current r) ++ from_option texts [] (rr_Previous r) ++ [rr_AdoptedAt r])%list
}.

Section assignment.
Context {CR : Crypto} {AC : AssignmentCodecs}.

(** [b, _ := json.Marshal(v)]: no bytes when the value has no encoding. *)
Definition bytes_json {A} `{Codec A} (a : A) : string := default "" (marshal a).

Definition signingBytes (d : Document) : string := bytes_json (sign_view d).
Definition KeyID (pub : string) : string := String.substring 0 16 (sha256_hex pub).

Definition Sign (priv : string) (d : Document) : Document :=
  let d1 := with_signer (KeyID (ed_public priv)) (Signature d) d in
  with_signer (SignerKeyID d1) (b64_encode (ed_sign priv (signingBytes d1))) d1.

Definition Verify (pub : string) (d : Document) : bool :=
  match b64_decode (Signature d) with
  | None => false
  | Some sig => ed_verify pub (signingBytes d) sig
  end.

(** "" accepts, anything else is the reason of the refusal. *)
Definition AcceptFor (pub : string) (d : Document) (applianceID serial identityFpr : string) (haveVersion : Z) : string :=
  if negb (Verify pub d) then "signature invalid (modified or unknown signer)"
  else if decide (ApplianceID d ≠ applianceID) then "assignment bound to a different appliance"
  else if negb (empty (Serial d)) && negb (empty serial) && bool_decide (Serial d ≠ serial) then "serial mismatch"
  else if negb (empty (IdentityKeyFpr d)) && negb (empty identityFpr) && bool_decide (IdentityKeyFpr d ≠ identityFpr)
  then "identity key mismatch"
  else if Version d <=? haveVersion then "assignment version is not newer than the applied one (replay/superseded)"
  else if negb (knownState (State d)) then "unknown assignment state"
  else if Grants (State d) && (empty (TenantID d) || empty (SiteID d)) then "assigned document missing tenant/site"
  else "".

Definition PublicKeyOf (k : TrustedKey) : option string :=
  match b64_decode (tk_PublicKey k) with
  | Some raw => if (len raw =? 32)%Z then Some raw else None
  | None => None
  end.

Definition AcceptForRegistry (reg : option Registry) (d : Document) (applianceID serial identityFpr : string)
    (haveVersion : Z) : string :=
  match reg with
  | None | Some [] => "no assignment trust registry on this appliance"
  | Some r =>
      match Lookup r (SignerKeyID d) with
      | None => "unknown assignment signer (key not in the appliance trust registry)"
      | Some k =>
          if negb (CanVerify (tk_State k))
          then "assignment signed by a " +:+ tk_State k +:+ " key (revoked signers are never trusted)"
          else match PublicKeyOf k with
               | None => "trusted key unusable"
               | Some pub => AcceptFor pub d applianceID serial identityFpr haveVersion
               end
      end
  end.

Definition regSigningBytes (sr : SignedRegistry) : string := bytes_json (reg_view sr).

Definition SignRegistry (priv : string) (sr : SignedRegistry) : SignedRegistry :=
  let s1 := mkSignedRegistry (RegistryVersion sr) (sr_IssuedAt sr) (NotBefore sr) (NotAfter sr) (Keys sr)
              (KeyID (ed_public priv)) (sr_Signature sr) in
  mkSignedRegistry (RegistryVersion sr) (sr_IssuedAt sr) (NotBefore sr) (NotAfter sr) (Keys sr)
    (KeyID (ed_public priv)) (b64_encode (ed_sign priv (regSigningBytes s1))).

Definition registry_signed (rootPub : string) (sr : SignedRegistry) : bool :=
  match b64_decode (sr_Signature sr) with
  | None => false
  | Some sig => ed_verify rootPub (regSigningBytes sr) sig
  end.

Definition VerifyRegistry (rootPub : string) (sr : SignedRegistry) (now : Z) : string :=
  if decide (sr_SignerKeyID sr ≠ KeyID rootPub) then "registry signed by an unknown root key"
  else if negb (registry_signed rootPub sr) then "registry signature invalid (modified or wrong signer)"
  else if negb (NotBefore sr =? 0)%Z && (now <? NotBefore sr) then "registry not yet valid"
  else if negb (NotAfter sr =? 0)%Z && (NotAfter sr <? now) then "registry expired"
  else "".

(** The signature and expiry of a registry already adopted. *)
Definition verifyAdopted (rootPub : string) (sr : SignedRegistry) (now : Z) : bool * string :=
  if decide (sr_SignerKeyID sr ≠ KeyID rootPub) then (false, "registry signed by an unknown root key")
  else if negb (registry_signed rootPub sr) then (false, "registry signature invalid (modified or wrong signer)")
  else if negb (NotAfter sr =? 0)%Z && (NotAfter sr <? now) then (true, "registry expired")
  else (true, "").

(** ** The terminal acknowledgment (terminal.go) *)

Definition DocFingerprint (d : Document) : string := sha256_hex (signingBytes d +:+ Signature d).
Definition ackSigningBytes (a : Ack) : string := bytes_json (ack_view a).
Definition SignAck (priv : string) (a : Ack) : Ack :=
  mkAck (ack_ApplianceID a) (ack_Version a) (TerminalState a) (Fingerprint a) (ack_AdoptedAt a)
    (b64_encode (ed_sign priv (ackSigningBytes a))).
Definition VerifyAck (pub : string) (a : Ack) : bool :=
  match b64_decode (ack_Signature a) with
  | None => false
  | Some sig => ed_verify pub (ackSigningBytes a) sig
  end.

(** ** The assignment store (store.go) *)

Definition path (dir : string) : string := dir +:+ "/assignment.json".
Definition highestPath (dir : string) : string := dir +:+ "/assignment.highest".

(** [os.ReadFile]: a missing file and an unreadable one are different errors. *)
Definition read_file (w : world) (name : string) : res error string :=
  match files w !! name with
  | None => Err ErrNotExist
  | Some Unreadable => Err ErrIO
  | Some (Readable raw) => Ok raw
  end.

Definition HighestAdopted (dir applianceID : string) (w : world) : Z :=
  match ok_of (read_file w (highestPath dir)) ≫= unmarshal with
  | Some h => if empty (hr_ApplianceID h) || bool_decide (hr_ApplianceID h ≠ applianceID) then 0 else hr_Version h
  | None => 0
  end.

(** A record, or the bare signed document of the earlier format. *)
Definition decode_record (b : string) : res error Record_ :=
  match unmarshal b with
  | Some (mkRecord (Some d) p v k st a s t u) => Ok (mkRecord (Some d) p v k st a s t u)
  | _ =>
      match unmarshal b with
      | None => Err ErrMalformed
      | Some d =>
          if empty (AssignmentID d) && empty (ApplianceID d) then Err ErrMalformed
          else Ok (mkRecord (Some d) None (Version d) (SignerKeyID d) (State d) "" "" "" "")
      end
  end.

Definition Load (dir : string) (w : world) : res error Record_ :=
  match read_file w (path dir) with Err e => Err e | Ok b => decode_record b end.

Definition Doc (dir : string) (w : world) : option Document := ok_of (Load dir w) ≫= Current.

Definition save (dir : string) (r : Record_) : IO () :=
  _ ← mkdirAll;
  match marshal r with
  | None => fail ErrMarshal
  | Some b => writeSynced (path dir) b
  end.

Definition Adopt (dir : string) (d : Document) (stamp : string) : IO () :=
  old ← gets (Load dir);
  _ ← save dir (mkRecord (Some d) (ok_of old ≫= Current) (Version d) (SignerKeyID d) (State d) stamp stamp stamp "");
  h ← gets (HighestAdopted dir (ApplianceID d));
  if negb (empty (ApplianceID d)) && (h <? Version d)
  then writeSynced (highestPath dir) (bytes_json (mkHighest (ApplianceID d) (Version d)))
  else mret ().

Definition NoteRefresh (dir : string) (ok : bool) (stamp : string) (now : Z) : IO () :=
  old ← gets (Load dir);
  match old with
  | Err _ => mret ()
  | Ok r =>
      save dir (mkRecord (Current r) (Previous r) (rec_Version r) (rec_SignerKeyID r) (rec_State r) (AdoptedAt r)
        (if ok then stamp else LastRefreshSuccess r) stamp
        (match Current r with
         | Some d => if IsExpired d now then (if empty (StaleSince r) then stamp else StaleSince r) else ""
         | None => ""
         end))
  end.

(** [os.Remove], whose absence of the file is no error for the caller. *)
Definition remove (name : string) : IO () := λ w,
  match next_fault w with
  | NoFault => (mkWorld (delete name (files w)) (tail (faults w)), Ok ())
  | FailBeforeRename => (pop_fault w, Err ErrIO)
  | FailAfterRename => (mkWorld (delete name (files w)) (tail (faults w)), Err ErrIO)
  end.

Definition Clear (dir : string) : IO () := _ ← remove (highestPath dir); remove (path dir).

Definition StatusNone : string := "none".
Definition StatusStale : string := "stale".
Definition StatusCurrent : string := "current".

Definition Status (dir : string) (now : Z) (w : world) : string :=
  match Doc dir w with
  | None => StatusNone
  | Some d => if IsExpired d now then StatusStale else StatusCurrent
  end.

Definition Resolved (dir : string) (w : world) : string * string * string * Z :=
  match Doc dir w with
  | None => ("", "", "", 0)
  | Some d => if Grants (State d) then (TenantID d, SiteID d, State d, Version d) else ("", "", State d, Version d)
  end.

(** ** The registry store (registry_store.go) *)

Definition adoptedMarkerPath (rpath : string) : string := rpath +:+ ".adopted".
Definition EverAdopted (rpath : string) (w : world) : bool := exists_file w (adoptedMarkerPath rpath).
Definition FileExists (rpath : string) (w : world) : bool := exists_file w rpath.

Definition decode_registry (b : string) : option registryRecord :=
  match unmarshal b with
  | Some (mkRegistryRecord (Some c) p a) => Some (mkRegistryRecord (Some c) p a)
  | _ =>
      match unmarshal b with
      | Some sr => if 0 <? RegistryVersion sr then Some (mkRegistryRecord (Some sr) None "") else None
      | None => None
      end
  end.

Definition Registry_Load (rpath : string) (w : world) : option registryRecord :=
  ok_of (read_file w rpath) ≫= decode_registry.

Definition registry_Current (rpath rootPub : string) (now : Z) (w : world) : option Registry :=
  match Registry_Load rpath w ≫= rr_Current with
  | None => None
  | Some sr => if empty (VerifyRegistry rootPub sr now) then Some (Keys sr) else None
  end.

Definition previous_trusted (rootPub : string) (now : Z) (rec : registryRecord) : option Registry :=
  match rr_Previous rec with
  | Some pr => if empty (VerifyRegistry rootPub pr now) then Some (Keys pr) else None
  | None => None
  end.

Definition Trusted (rpath rootPub : string) (now : Z) (w : world) : option Registry :=
  match Registry_Load rpath w with
  | None => None
  | Some rec =>
      match rr_Current rec with
      | Some sr =>
          let '(sigOK, reason) := verifyAdopted rootPub sr now in
          if empty reason then Some (Keys sr)
          else if (sigOK : bool) then None
          else previous_trusted rootPub now rec
      | None => previous_trusted rootPub now rec
      end
  end.

Definition CurrentVersion (rpath : string) (w : world) : Z :=
  match Registry_Load rpath w ≫= rr_Current with Some sr => RegistryVersion sr | None => 0 end.

(** [(noop, reason)]. *)
Definition Registry_Check (rpath rootPub : string) (sr : SignedRegistry) (now : Z) (w : world) : bool * string :=
  let reason := VerifyRegistry rootPub sr now in
  if negb (empty reason) then (false, reason)
  else match Registry_Load rpath w ≫= rr_Current with
  | None => (false, "")
  | Some cur =>
      if RegistryVersion sr <? RegistryVersion cur then (false, "registry rollback rejected (lower version than current)")
      else if (RegistryVersion sr =? RegistryVersion cur)%Z then
        if decide (bytes_json sr ≠ bytes_json cur) then (false, "registry version reuse with different content rejected")
        else (true, "")
      else (false, "")
  end.

Definition registry_save (rpath : string) (rec : registryRecord) : IO () :=
  match rr_Current rec with
  | None => fail ErrMalformed
  | Some _ =>
      _ ← mkdirAll;
      match marshal rec with None => fail ErrMarshal | Some b => writeSynced rpath b end
  end.

(** Whether it was adopted; a refusal and a failed write are errors. *)
Definition Registry_Adopt (rpath rootPub : string) (sr : SignedRegistry) (now : Z) (stamp : string) : IO bool :=
  nr ← gets (Registry_Check rpath rootPub sr now);
  if negb (empty nr.2) then fail ErrRollback
  else if (nr.1 : bool) then mret false
  else
    cur ← gets (Registry_Load rpath);
    _ ← registry_save rpath (mkRegistryRecord (Some sr) (cur ≫= rr_Current) stamp);
    ever ← gets (EverAdopted rpath);
    _ ← (if (ever : bool) then mret () else writeSynced (adoptedMarkerPath rpath) (stamp +:+ String (Ascii.ascii_of_nat 10) EmptyString));
    mret true.

(** ** The resolution (resolve.go, resolve_local.go) *)

Record Paths := mkPaths {
  Dir : string;
  RegistryPath : string;
  RegistryRootPath : string;
  TrustPath : string
}.

Record ApplianceBinding := mkBinding { ab_ApplianceID : string; ab_Serial : string; PublicKeyB64 : string }.

Inductive Outcome := OutcomeAbsent | OutcomeUnverifiable | OutcomeNotGranting | OutcomeGranted.
#[export] Instance Outcome_eq_dec : EqDecision Outcome.
Proof using. solve_decision. Defined.

Record Resolution := mkResolution {
  r_TenantID : string;
  r_SiteID : string;
  r_State : string;
  r_Version : Z;
  r_Outcome : Outcome;
  Stale : bool
}.

Definition unresolved (o : Outcome) : Resolution := mkResolution "" "" "" 0 o false.
Definition Assigned (r : Resolution) : bool := bool_decide (r_Outcome r = OutcomeGranted).
Definition Refused (r : Resolution) : bool :=
  bool_decide (r_Outcome r = OutcomeUnverifiable ∨ r_Outcome r = OutcomeNotGranting).

Definition LoadRootPub (p : string) (w : world) : option string :=
  match read_file w p with Ok raw => if (len raw =? 32)%Z then Some raw else None | Err _ => None end.
Definition LoadRegistry (p : string) (w : world) : option Registry := ok_of (read_file w p) ≫= unmarshal.

Definition legacy_registry (p : Paths) (w : world) : option Registry * string :=
  if EverAdopted (RegistryPath p) w then (None, "none")
  else match LoadRegistry (TrustPath p) w with
       | None => (None, "none")
       | Some reg => (Some reg, "legacy-plain")
       end.

Definition TrustedRegistry (p : Paths) (now : Z) (w : world) : option Registry * string :=
  match LoadRootPub (RegistryRootPath p) w with
  | Some rootPub =>
      match Trusted (RegistryPath p) rootPub now w with
      | Some reg => (Some reg, "signed")
      | None => if FileExists (RegistryPath p) w then (None, "none") else legacy_registry p w
      end
  | None => legacy_registry p w
  end.

(** [applianceauth.KeyID] of the appliance's public key, when it has one. *)
Definition identity_fpr (b64raw_decode : string → option string) (auth_KeyID : string → string) (ident : ApplianceBinding) : string :=
  match b64raw_decode (PublicKeyB64 ident) with
  | Some raw => if (len raw =? 32)%Z then auth_KeyID raw else ""
  | None => ""
  end.

Context (b64raw_decode : string → option string) (auth_KeyID : string → string).

Definition Resolve (p : Paths) (ident : ApplianceBinding) (now : Z) (w : world) : Resolution :=
  match Load (Dir p) w with
  | Err ErrNotExist => unresolved OutcomeAbsent
  | Err _ => unresolved OutcomeUnverifiable
  | Ok rec =>
      match Current rec with
      | None => unresolved OutcomeAbsent
      | Some d =>
          if Version d <? HighestAdopted (Dir p) (ApplianceID d) w then unresolved OutcomeUnverifiable
          else match TrustedRegistry p now w with
          | (None, _) => unresolved OutcomeUnverifiable
          | (Some reg, _) =>
              if negb (empty (AcceptForRegistry (Some reg) d (ab_ApplianceID ident) (ab_Serial ident)
                                (identity_fpr b64raw_decode auth_KeyID ident) (wrap64 (Version d - 1))))
              then unresolved OutcomeUnverifiable
              else if Grants (State d)
              then mkResolution (TenantID d) (SiteID d) (State d) (Version d) OutcomeGranted (IsExpired d now)
              else mkResolution "" "" (State d) (Version d) OutcomeNotGranting (IsExpired d now)
          end
      end
  end.

(** [LoadPublic] of the identity store is an input: an error, no identity, or one. *)
Definition ResolveLocal (p : Paths) (loaded : res error (option ApplianceBinding)) (now : Z) (w : world)
    : Resolution * string :=
  match loaded with
  | Err _ => (unresolved OutcomeUnverifiable, "")
  | Ok oi =>
      match oi with
      | Some ident =>
          if empty (ab_ApplianceID ident) then
            (if exists_file w (path (Dir p)) then unresolved OutcomeUnverifiable else unresolved OutcomeAbsent, "")
          else (Resolve p ident now w, ab_ApplianceID ident)
      | None => (if exists_file w (path (Dir p)) then unresolved OutcomeUnverifiable else unresolved OutcomeAbsent, "")
      end
  end.

Definition EnvFallbackAllowed (legacyEnvScopeAllowed : bool) (r : Resolution) : bool :=
  bool_decide (r_Outcome r = OutcomeAbsent) && legacyEnvScopeAllowed.

(** ** The agent (cmd/scd/assignment.go) *)

(** A call whose error is logged. *)
Definition attempted {A} (m : IO A) (w : world) : world * option A :=
  match m w with (w', Ok a) => (w', Some a) | (w', Err _) => (w', None) end.

Definition refreshSignedRegistry (p : Paths) (fetched : option SignedRegistry) (now : Z) (stamp : string) (w : world) : world :=
  match LoadRootPub (RegistryRootPath p) w, fetched with
  | Some rootPub, Some sr => (attempted (Registry_Adopt (RegistryPath p) rootPub sr now stamp) w).1
  | _, _ => w
  end.

(** One poll: [fetched] is what Central answered.  The second component is the
    version the agent remembers. *)
Definition poll (p : Paths) (applID serial fpr : string) (fetched_registry : option SignedRegistry)
    (fetched : option Document) (now : Z) (stamp : string) (wv : world * Z) : world * Z :=
  let '(w, currentVersion) := wv in
  let w1 := refreshSignedRegistry p fetched_registry now stamp w in
  match fetched with
  | None => ((attempted (NoteRefresh (Dir p) false stamp now) w1).1, currentVersion)
  | Some doc =>
      let w2 := (attempted (NoteRefresh (Dir p) true stamp now) w1).1 in
      match (TrustedRegistry p now w2).1 with
      | None => (w2, currentVersion)
      | Some reg =>
          if negb (empty (AcceptForRegistry (Some reg) doc applID serial fpr currentVersion)) then (w2, currentVersion)
          else match attempted (Adopt (Dir p) doc stamp) w2 with
               | (w3, Some _) => (w3, Version doc)
               | (w3, None) => (w3, currentVersion)
               end
      end
  end.

(** The version the agent starts from. *)
Definition applied_version (dir : string) (w : world) : Z :=
  match Load dir w with Ok rec => rec_Version rec | Err _ => 0 end.
End assignment.
