(* ===== verification/AssignmentProofs.v ===== *)
(** What an appliance's tenant and site rest on (Assignment): a scope is granted
    only by a document a trusted key signed for this appliance, the trust in keys
    comes from the root of the appliance and never falls back to the unsigned file,
    neither the assignment nor the registry is ever rolled back, and rotating keys
    strands no appliance. *)
From Stdlib Require Import Ascii.
From S2P Require Import Prelude GoStrings LicenseStore Assignment.

Section proofs.
Context {CR : Crypto} {AC : AssignmentCodecs}.
Context (b64raw_decode : string → option string) (auth_KeyID : string → string).

Abbreviation Resolve := (Resolve b64raw_decode auth_KeyID).

(** ** Acceptance *)

Lemma AcceptFor_ok pub d appl serial fpr have :
  AcceptFor pub d appl serial fpr have = "" →
  Verify pub d = true ∧ ApplianceID d = appl ∧ have < Version d ∧ knownState (State d) = true ∧
  (Grants (State d) = true → TenantID d ≠ "" ∧ SiteID d ≠ "").
Proof.
  unfold AcceptFor. intros H. passed H.
  repeat match goal with X : ¬ (_ ≠ _) |- _ => apply dec_stable in X end.
  split_and!; try done. intros Hg.
  match goal with X : Grants _ && _ = false |- _ => rewrite Hg in X; cbn in X end. zify_guards.
  split; by apply empty_false.
Qed.

Lemma AcceptForRegistry_ok reg d appl serial fpr have :
  AcceptForRegistry (Some reg) d appl serial fpr have = "" ↔
  ∃ k pub, Lookup reg (SignerKeyID d) = Some k ∧ CanVerify (tk_State k) = true ∧ PublicKeyOf k = Some pub ∧
    AcceptFor pub d appl serial fpr have = "".
Proof.
  unfold AcceptForRegistry. split.
  - destruct reg as [|k0 r]; [done|]. destruct (Lookup (k0 :: r) (SignerKeyID d)) as [k|] eqn:E; [|done].
    destruct (CanVerify (tk_State k)) eqn:Ec; [|done]. destruct (PublicKeyOf k) as [pub|] eqn:Ep; [|done].
    cbn. intros H. exists k, pub. done.
  - intros (k & pub & Hl & Hc & Hp & H). destruct reg; [done|]. by rewrite Hl, Hc, Hp.
Qed.

(** ** Trust *)

(** The keys are those of a registry the root of this appliance signed. *)
Definition root_signed (p : Paths) (w : world) (reg : Registry) : Prop :=
  ∃ root sr, LoadRootPub (RegistryRootPath p) w = Some root ∧ sr_SignerKeyID sr = KeyID root ∧
    registry_signed root sr = true ∧ Keys sr = reg.

Lemma VerifyRegistry_ok root sr now :
  VerifyRegistry root sr now = "" → sr_SignerKeyID sr = KeyID root ∧ registry_signed root sr = true.
Proof.
  unfold VerifyRegistry. intros H. passed H.
  repeat match goal with X : ¬ (_ ≠ _) |- _ => apply dec_stable in X end. done.
Qed.

Lemma verifyAdopted_ok root sr now ok :
  verifyAdopted root sr now = (ok, "") → sr_SignerKeyID sr = KeyID root ∧ registry_signed root sr = true.
Proof.
  unfold verifyAdopted. destruct (decide _) as [|Hk]; [done|]. apply dec_stable in Hk.
  destruct (registry_signed root sr); [done|done].
Qed.

Lemma Trusted_signed rpath root now w reg :
  Trusted rpath root now w = Some reg →
  ∃ sr, sr_SignerKeyID sr = KeyID root ∧ registry_signed root sr = true ∧ Keys sr = reg.
Proof.
  unfold Trusted. destruct (Registry_Load rpath w) as [rec|]; [|done].
  assert (HP : previous_trusted root now rec = Some reg →
    ∃ sr, sr_SignerKeyID sr = KeyID root ∧ registry_signed root sr = true ∧ Keys sr = reg).
  { unfold previous_trusted. destruct (rr_Previous rec) as [pr|]; [|done].
    destruct (empty (VerifyRegistry root pr now)) eqn:E; [|done]. intros [= <-].
    apply empty_true, VerifyRegistry_ok in E as [? ?]. by exists pr. }
  destruct (rr_Current rec) as [sr|]; [|exact HP]. destruct (verifyAdopted root sr now) as [ok reason] eqn:E.
  destruct (empty reason) eqn:Er; [|destruct ok; [done|exact HP]].
  intros [= <-]. apply empty_true in Er as ->. apply verifyAdopted_ok in E as [? ?]. by exists sr.
Qed.

Lemma TrustedRegistry_cases p now w reg src :
  TrustedRegistry p now w = (Some reg, src) →
  (src = "signed" ∧ root_signed p w reg) ∨
  (src = "legacy-plain" ∧ EverAdopted (RegistryPath p) w = false ∧
   (is_Some (LoadRootPub (RegistryRootPath p) w) → FileExists (RegistryPath p) w = false)).
Proof.
  assert (HL : ∀ q, legacy_registry p w = (Some reg, q) → q = "legacy-plain" ∧ EverAdopted (RegistryPath p) w = false).
  { intros q. unfold legacy_registry. destruct (EverAdopted _ w); [done|]. by destruct (LoadRegistry _ w); intros [= <- <-]. }
  unfold TrustedRegistry. destruct (LoadRootPub (RegistryRootPath p) w) as [root|] eqn:Er.
  - destruct (Trusted (RegistryPath p) root now w) as [r|] eqn:Et.
    + intros [= -> <-]. left. split; [done|]. apply Trusted_signed in Et as (sr & H1 & H2 & H3). by exists root, sr.
    + destruct (FileExists (RegistryPath p) w) eqn:Ef; [done|]. intros [-> H]%HL. right. by split_and!.
  - intros [-> H]%HL. right. split_and!; [done..|]. by intros [? ?].
Qed.

Lemma resolution_spec (p : Paths) (ident : ApplianceBinding) (now : Z) (w : world) :
  let r := Resolve p ident now w in
  (r_Outcome r ≠ OutcomeGranted → r_TenantID r = "" ∧ r_SiteID r = "") ∧
  (r_Outcome r = OutcomeGranted → ∃ d reg src k pub,
     Doc (Dir p) w = Some d ∧ TrustedRegistry p now w = (Some reg, src) ∧
     Lookup reg (SignerKeyID d) = Some k ∧ CanVerify (tk_State k) = true ∧ PublicKeyOf k = Some pub ∧
     Verify pub d = true ∧ ApplianceID d = ab_ApplianceID ident ∧
     HighestAdopted (Dir p) (ab_ApplianceID ident) w ≤ Version d ∧ Grants (State d) = true ∧
     r_TenantID r = TenantID d ∧ r_SiteID r = SiteID d ∧ TenantID d ≠ "" ∧ SiteID d ≠ "" ∧ r_Version r = Version d ∧
     (root_signed p w reg ∨
      EverAdopted (RegistryPath p) w = false ∧
      (is_Some (LoadRootPub (RegistryRootPath p) w) → FileExists (RegistryPath p) w = false))).
Proof.
  cbn zeta. unfold Assignment.Resolve. unfold Doc. destruct (Load (Dir p) w) as [rec|e] eqn:El; [|by destruct e].
  destruct (Current rec) as [d|] eqn:Ec; [|done].
  destruct (Z.ltb_spec (Version d) (HighestAdopted (Dir p) (ApplianceID d) w)) as [Hlt|Hge]; [done|].
  destruct (TrustedRegistry p now w) as [[reg|] src] eqn:Et; [|done].
  destruct (empty _) eqn:Ea; [|done]. cbn [negb]. apply empty_true, AcceptForRegistry_ok in Ea as (k & pub & Hl & Hc & Hp & Ha).
  apply AcceptFor_ok in Ha as (Hv & Happ & _ & _ & Hg). rewrite Happ in Hge.
  destruct (Grants (State d)) eqn:Eg; [|done]. split; [done|]. intros _. destruct (Hg eq_refl) as [Ht Hs].
  exists d, reg, src, k, pub. cbn. split_and!; try done.
  apply TrustedRegistry_cases in Et as [[_ H]|[_ H]]; [by left|by right].
Qed.

(** C37. A daemon's tenant and site are signed.  When the resolution grants a
    scope, the persisted document carries exactly that tenant and site, was signed
    by a key the trusted registry lets verify, is bound to this appliance and is
    not older than any version adopted; the registry was signed by the root key of
    this appliance, or no signed registry was ever adopted or found here.  In every
    other case no tenant and no site is returned. *)
Theorem scope_is_signed (p : Paths) (ident : ApplianceBinding) (now : Z) (w : world) :
  let r := Resolve p ident now w in
  (r_Outcome r ≠ OutcomeGranted → r_TenantID r = "" ∧ r_SiteID r = "") ∧
  (r_Outcome r = OutcomeGranted → ∃ d reg src k pub,
     Doc (Dir p) w = Some d ∧ TrustedRegistry p now w = (Some reg, src) ∧
     Lookup reg (SignerKeyID d) = Some k ∧ CanVerify (tk_State k) = true ∧ PublicKeyOf k = Some pub ∧
     Verify pub d = true ∧ ApplianceID d = ab_ApplianceID ident ∧
     HighestAdopted (Dir p) (ab_ApplianceID ident) w ≤ Version d ∧ Grants (State d) = true ∧
     r_TenantID r = TenantID d ∧ r_SiteID r = SiteID d ∧ TenantID d ≠ "" ∧ SiteID d ≠ "" ∧ r_Version r = Version d ∧
     (root_signed p w reg ∨
      EverAdopted (RegistryPath p) w = false ∧
      (is_Some (LoadRootPub (RegistryRootPath p) w) → FileExists (RegistryPath p) w = false))).
Proof. apply resolution_spec. Qed.
(** ** Files a call leaves alone *)

Definition leaves (n : string) (w w' : world) : Prop := files w' !! n = files w !! n.

#[local] Instance leaves_refl n : Reflexive (leaves n).
Proof. done. Qed.
#[local] Instance leaves_trans n : Transitive (leaves n).
Proof. intros x y z. unfold leaves. congruence. Qed.

Lemma leaves_write n dst raw : dst ≠ n → preserves (leaves n) (writeSynced dst raw).
Proof.
  intros Hn w w' r. unfold writeSynced, leaves.
  destruct (next_fault w); intros [= <- <-]; cbn; by rewrite ?lookup_insert_ne.
Qed.

Lemma leaves_mkdir n : preserves (leaves n) mkdirAll.
Proof. intros w w' r. unfold mkdirAll. by destruct (next_fault w); intros [= <- <-]. Qed.

Lemma leaves_gets {A} n (f : world → A) : preserves (leaves n) (gets f : IO A).
Proof. by intros w w' r [= <- <-]. Qed.

Lemma leaves_bind {A B} n (m : IO A) (k : A → IO B) :
  preserves (leaves n) m → (∀ a, preserves (leaves n) (k a)) → preserves (leaves n) (m ≫= k).
Proof. apply preserves_bind. apply _. Qed.

Lemma leaves_ret {A} n (a : A) : preserves (leaves n) (mret a : IO A).
Proof. apply preserves_ret. apply _. Qed.
Lemma leaves_fail {A} n e : preserves (leaves n) (fail e : IO A).
Proof. apply preserves_fail. apply _. Qed.

Lemma leaves_save n dir r : path dir ≠ n → preserves (leaves n) (save dir r).
Proof.
  intros Hn. apply leaves_bind; [apply leaves_mkdir|]. intros _. destruct (marshal r); [by apply leaves_write|apply leaves_fail].
Qed.

Lemma leaves_note n dir ok stamp now : path dir ≠ n → preserves (leaves n) (NoteRefresh dir ok stamp now).
Proof.
  intros Hn. apply leaves_bind; [apply leaves_gets|]. intros [r|e]; [by apply leaves_save|apply leaves_ret].
Qed.

Lemma leaves_registry n rpath root sr now stamp :
  rpath ≠ n → adoptedMarkerPath rpath ≠ n → preserves (leaves n) (Registry_Adopt rpath root sr now stamp).
Proof.
  intros H1 H2. apply leaves_bind; [apply leaves_gets|]. intros [noop reason]. cbn.
  destruct (negb (empty reason)); [apply leaves_fail|]. destruct noop; [apply leaves_ret|].
  apply leaves_bind; [apply leaves_gets|]. intros cur. apply leaves_bind.
  { unfold registry_save. cbn. apply leaves_bind; [apply leaves_mkdir|]. intros _.
    destruct (marshal _); [by apply leaves_write|apply leaves_fail]. }
  intros _. apply leaves_bind; [apply leaves_gets|]. intros ever.
  apply leaves_bind; [|intros; apply leaves_ret]. destruct ever; [apply leaves_ret|by apply leaves_write].
Qed.

Lemma leaves_attempted {A} n (m : IO A) w : preserves (leaves n) m → leaves n w (attempted m w).1.
Proof. intros H. unfold attempted. destruct (m w) as [w' [a|e]] eqn:E; by eapply H. Qed.

(** ** The highest version *)

Lemma highest_leaves dir appl w w' :
  leaves (highestPath dir) w w' → HighestAdopted dir appl w' = HighestAdopted dir appl w.
Proof. intros H. unfold HighestAdopted, read_file. by rewrite H. Qed.

Lemma highest_written dir appl v w :
  appl ≠ "" → ValidString appl = true →
  files w !! highestPath dir = Some (Readable (bytes_json (mkHighest appl v))) → HighestAdopted dir appl w = v.
Proof.
  intros Ha Hu Hf. unfold HighestAdopted, read_file. rewrite Hf. cbn. unfold bytes_json.
  destruct (ac_highest_encodes (mkHighest appl v)) as [raw Hm]. rewrite Hm. cbn.
  rewrite (unmarshal_marshal _ _ Hm) by (rewrite ac_highest_texts; by constructor).
  cbn. rewrite (proj2 (empty_false _)) by done. by rewrite bool_decide_false by naive_solver.
Qed.

(** Adopting a document of this appliance never lowers the recorded version, and
    records its version when it reports success. *)
Lemma Adopt_highest dir d stamp w w' r appl :
  ApplianceID d = appl → appl ≠ "" → ValidString appl = true →
  Adopt dir d stamp w = (w', r) →
  HighestAdopted dir appl w ≤ HighestAdopted dir appl w' ∧ (r = Ok () → Version d ≤ HighestAdopted dir appl w').
Proof.
  intros Hd Hne Hu HA. assert (Hpath : path dir ≠ highestPath dir).
  { unfold path, highestPath. intros E%(inj (String.append dir)). done. }
  revert HA. unfold Adopt. unfold mbind at 1, ST_bind at 1. cbn [gets].
  set (rec := mkRecord _ _ _ _ _ _ _ _ _). unfold mbind at 1, ST_bind at 1.
  destruct (save dir rec w) as [w1 [[]|e]] eqn:Es; pose proof (leaves_save _ dir rec Hpath _ _ _ Es) as HL;
    [|intros [= <- <-]; rewrite (highest_leaves dir appl w w1 HL); split; [lia|done]].
  unfold mbind, ST_bind. cbn [gets]. rewrite Hd. rewrite <- (highest_leaves dir appl w w1 HL).
  rewrite (proj2 (empty_false appl)) by done. cbn [negb andb].
  destruct (Z.ltb_spec (HighestAdopted dir appl w1) (Version d)) as [Hlt|Hge]; [|intros [= <- <-]; split; lia].
  unfold writeSynced.
  assert (HW : HighestAdopted dir appl (put_file (highestPath dir) (bytes_json (mkHighest appl (Version d))) (pop_fault w1))
    = Version d) by (apply highest_written; [done..|apply lookup_insert_eq]).
  destruct (next_fault w1); intros [= <- <-]; rewrite ?HW; (split; [|try done; lia]); try lia.
  done.
Qed.

(** ** Histories *)

Inductive aop :=
| APoll (registry : option SignedRegistry) (doc : option Document) (now : Z) (stamp : string)
| ARestart                                   (* the agent reads its version from disk again *)
| AFile (name : string) (e : option entry)   (* someone else writes, damages or removes a file *)
| AFaults (l : list fault).                  (* what the coming writes meet *)

Definition astep (p : Paths) (appl serial fpr : string) (wv : world * Z) (o : aop) : world * Z :=
  match o with
  | APoll registry doc now stamp => poll p appl serial fpr registry doc now stamp wv
  | ARestart => (wv.1, applied_version (Dir p) wv.1)
  | AFile name e => (mkWorld (partial_alter (λ _, e) name (files wv.1)) (faults wv.1), wv.2)
  | AFaults l => (mkWorld (files wv.1) l, wv.2)
  end.

(** Histories in which nobody else touches [name]. *)
Definition untouched_file (name : string) (o : aop) : Prop := match o with AFile n _ => n ≠ name | _ => True end.

Definition paths_apart (p : Paths) : Prop :=
  RegistryPath p ≠ highestPath (Dir p) ∧ adoptedMarkerPath (RegistryPath p) ≠ highestPath (Dir p).

Lemma path_ne dir : path dir ≠ highestPath dir.
Proof. unfold path, highestPath. intros E%(inj (String.append dir)). done. Qed.

Section rollback.
Context (p : Paths) (appl serial fpr : string).
Context (Hapart : paths_apart p) (Hne : appl ≠ "") (Hutf : ValidString appl = true).

Lemma poll_highest registry doc now stamp wv :
  HighestAdopted (Dir p) appl wv.1 ≤ HighestAdopted (Dir p) appl (poll p appl serial fpr registry doc now stamp wv).1.
Proof using b64raw_decode auth_KeyID Hapart Hne Hutf.
  destruct wv as [w v]. cbn [fst]. unfold poll. set (w1 := refreshSignedRegistry p registry now stamp w).
  assert (H1 : HighestAdopted (Dir p) appl w1 = HighestAdopted (Dir p) appl w).
  { apply highest_leaves. unfold w1, refreshSignedRegistry. destruct (LoadRootPub _ w) as [root|]; [|done].
    destruct registry as [sr|]; [|done]. apply leaves_attempted. by apply leaves_registry; apply Hapart. }
  assert (H2 : ∀ ok, HighestAdopted (Dir p) appl (attempted (NoteRefresh (Dir p) ok stamp now) w1).1
    = HighestAdopted (Dir p) appl w).
  { intros ok. rewrite <- H1. apply highest_leaves, leaves_attempted, leaves_note, path_ne. }
  destruct doc as [d|]; [|cbn; rewrite H2; lia]. set (w2 := (attempted _ w1).1).
  destruct (TrustedRegistry p now w2).1 as [reg|]; [|cbn; unfold w2; rewrite H2; lia].
  destruct (empty _) eqn:Ea; [|cbn; unfold w2; rewrite H2; lia]. cbn [negb].
  apply empty_true, AcceptForRegistry_ok in Ea as (k & pub & _ & _ & _ & Ha). apply AcceptFor_ok in Ha as (_ & Happ & _).
  unfold attempted at 1. destruct (Adopt (Dir p) d stamp w2) as [w3 r] eqn:EA.
  apply (Adopt_highest _ _ _ _ _ _ appl) in EA as [Hle _]; [|done..]. unfold w2 in Hle. rewrite H2 in Hle. by destruct r.
Qed.

Lemma astep_highest o wv :
  untouched_file (highestPath (Dir p)) o →
  HighestAdopted (Dir p) appl wv.1 ≤ HighestAdopted (Dir p) appl (astep p appl serial fpr wv o).1.
Proof using b64raw_decode auth_KeyID Hapart Hne Hutf.
  destruct o as [registry doc now stamp| |name e|l]; intros Hn.
  - apply poll_highest.
  - done.
  - apply Z.eq_le_incl. symmetry. apply highest_leaves. unfold leaves. cbn. by rewrite lookup_partial_alter_ne.
  - apply Z.eq_le_incl. symmetry. by apply highest_leaves.
Qed.

Lemma ahistory_highest l wv :
  Forall (untouched_file (highestPath (Dir p))) l →
  HighestAdopted (Dir p) appl wv.1 ≤ HighestAdopted (Dir p) appl (foldl (astep p appl serial fpr) wv l).1.
Proof using b64raw_decode auth_KeyID Hapart Hne Hutf.
  intros Hl. revert wv. induction Hl as [|o l Ho _ IH]; intros wv; cbn; [lia|].
  etrans; [by apply astep_highest|apply IH].
Qed.
End rollback.

(** C33. An adopted assignment is never rolled back.  After the appliance has
    adopted a document, whatever happens to every other file (an old image, a
    restored copy, lost writes), whatever Central or a replay offers and however
    often the agent restarts, no daemon is granted a scope by an older document. *)
Theorem assignment_never_rolls_back (p : Paths) (appl serial fpr stamp : string) (d : Document) (w w1 : world) (v : Z)
    (l : list aop) (ident : ApplianceBinding) (now : Z) :
  paths_apart p → appl ≠ "" → ValidString appl = true →
  ApplianceID d = appl → Adopt (Dir p) d stamp w = (w1, Ok ()) →
  Forall (untouched_file (highestPath (Dir p))) l → ab_ApplianceID ident = appl →
  let r := Resolve p ident now (foldl (astep p appl serial fpr) (w1, v) l).1 in
  r_Outcome r = OutcomeGranted → Version d ≤ r_Version r.
Proof.
  intros Hapart Hne Hutf Hd HA Hl Hid r Hr.
  destruct (Adopt_highest _ _ _ _ _ _ appl Hd Hne Hutf HA) as [_ H1].
  pose proof (ahistory_highest p appl serial fpr Hapart Hne Hutf l (w1, v) Hl) as H2. cbn [fst] in H2.
  destruct (resolution_spec p ident now (foldl (astep p appl serial fpr) (w1, v) l).1) as [_ HG].
  destruct (HG Hr) as (d' & reg & src & k & pub & _ & _ & _ & _ & _ & _ & _ & Hh & _ & _ & _ & _ & _ & Hv & _).
  specialize (H1 eq_refl). rewrite Hid in Hh. unfold r. lia.
Qed.

(** ** The registry *)

(** No call of the agent removes a file. *)
Definition still_there (w w' : world) : Prop := ∀ n, is_Some (files w !! n) → is_Some (files w' !! n).

#[local] Instance still_there_refl : Reflexive still_there.
Proof. by intros w n. Qed.
#[local] Instance still_there_trans : Transitive still_there.
Proof. intros x y z H1 H2 n Hn. auto. Qed.

Lemma there_write dst raw : preserves still_there (writeSynced dst raw).
Proof.
  intros w w' r. unfold writeSynced. destruct (next_fault w); intros [= <- <-] n Hn; cbn; try done;
    (destruct (decide (n = dst)) as [->|Hne]; [rewrite lookup_insert_eq; eauto|by rewrite lookup_insert_ne]).
Qed.

Lemma there_mkdir : preserves still_there mkdirAll.
Proof. intros w w' r. unfold mkdirAll. destruct (next_fault w); intros [= <- <-] n Hn; exact Hn. Qed.

Lemma there_gets {A} (f : world → A) : preserves still_there (gets f : IO A).
Proof. intros w w' r [= <- <-] n Hn. exact Hn. Qed.

Lemma there_bind {A B} (m : IO A) (k : A → IO B) :
  preserves still_there m → (∀ a, preserves still_there (k a)) → preserves still_there (m ≫= k).
Proof. apply preserves_bind. apply _. Qed.

Lemma there_encoded (o : option string) dst :
  preserves still_there (match o with None => fail ErrMarshal | Some b => writeSynced dst b end).
Proof. destruct o; [apply there_write|]. apply preserves_fail. apply _. Qed.

Lemma there_save dir r : preserves still_there (save dir r).
Proof. apply there_bind; [apply there_mkdir|]. intros _. apply there_encoded. Qed.

Lemma there_registry rpath root sr now stamp : preserves still_there (Registry_Adopt rpath root sr now stamp).
Proof.
  apply there_bind; [apply there_gets|]. intros [noop reason]. cbn.
  destruct (negb (empty reason)); [apply preserves_fail, _|]. destruct noop; [apply preserves_ret, _|].
  apply there_bind; [apply there_gets|]. intros cur. apply there_bind.
  { unfold registry_save. cbn. apply there_bind; [apply there_mkdir|]. intros _. apply there_encoded. }
  intros _. apply there_bind; [apply there_gets|]. intros ever. apply there_bind; [|intros; apply preserves_ret, _].
  destruct ever; [apply preserves_ret, _|apply there_write].
Qed.

Lemma there_note dir ok stamp now : preserves still_there (NoteRefresh dir ok stamp now).
Proof. apply there_bind; [apply there_gets|]. intros [r|e]; [apply there_save|apply preserves_ret, _]. Qed.

Lemma there_adopt dir d stamp : preserves still_there (Adopt dir d stamp).
Proof.
  apply there_bind; [apply there_gets|]. intros old. apply there_bind; [apply there_save|]. intros _.
  apply there_bind; [apply there_gets|]. intros h. destruct (_ && _); [apply there_write|apply preserves_ret, _].
Qed.

Lemma there_attempted {A} (m : IO A) w : preserves still_there m → still_there w (attempted m w).1.
Proof. intros H. unfold attempted. destruct (m w) as [w' [a|e]] eqn:E; by eapply H. Qed.

Lemma there_poll p appl serial fpr registry doc now stamp wv :
  still_there wv.1 (poll p appl serial fpr registry doc now stamp wv).1.
Proof.
  destruct wv as [w v]. cbn [fst]. unfold poll. set (w1 := refreshSignedRegistry p registry now stamp w).
  assert (H1 : still_there w w1).
  { unfold w1, refreshSignedRegistry. destruct (LoadRootPub _ w); [|done]. destruct registry; [|done].
    apply there_attempted, there_registry. }
  destruct doc as [d|]; [|etrans; [exact H1|apply there_attempted, there_note]].
  set (w2 := (attempted _ w1).1). assert (H2 : still_there w w2) by (etrans; [exact H1|apply there_attempted, there_note]).
  destruct (TrustedRegistry p now w2).1 as [reg|]; [|done]. destruct (negb _); [done|].
  pose proof (there_attempted (Adopt (Dir p) d stamp) w2 (there_adopt _ _ _)) as H3.
  destruct (attempted (Adopt (Dir p) d stamp) w2) as [w3 [?|]]; by etrans.
Qed.

Lemma there_history p appl serial fpr name l wv :
  Forall (untouched_file name) l → is_Some (files wv.1 !! name) →
  is_Some (files (foldl (astep p appl serial fpr) wv l).1 !! name).
Proof.
  intros Hl. revert wv. induction Hl as [|o l Ho _ IH]; intros wv Hw; [done|]. cbn. apply IH.
  destruct o as [registry doc now stamp| |n e|fs]; cbn; [by apply there_poll|done| |done].
  by rewrite lookup_partial_alter_ne.
Qed.

Definition current (rpath : string) (w : world) : option SignedRegistry := Registry_Load rpath w ≫= rr_Current.
Definition utf8 (sr : SignedRegistry) : Prop := Forall (λ t, ValidString t = true) (texts sr).

Lemma marker_ne rpath : adoptedMarkerPath rpath ≠ rpath.
Proof.
  intros E. apply (f_equal String.length) in E. unfold adoptedMarkerPath in E. rewrite length_append in E. cbn in E. lia.
Qed.

Lemma current_utf8 rpath w c : current rpath w = Some c → utf8 c.
Proof.
  unfold current, Registry_Load, decode_registry. destruct (ok_of (read_file w rpath)) as [b|]; [|done]. cbn.
  assert (HB : ∀ sr : SignedRegistry, unmarshal b = Some sr → utf8 sr) by (intros sr; apply unmarshal_texts).
  destruct (unmarshal (A := registryRecord) b) as [[[c'|] pr a]|] eqn:E.
  - cbn. intros [= <-]. apply unmarshal_texts in E. rewrite ac_regrecord_texts in E. cbn in E.
    by apply Forall_app in E as [? _].
  - destruct (unmarshal (A := SignedRegistry) b) as [sr|] eqn:E2; [|done]. destruct (0 <? _); [|done]. cbn. intros [= <-]. auto.
  - destruct (unmarshal (A := SignedRegistry) b) as [sr|] eqn:E2; [|done]. destruct (0 <? _); [|done]. cbn. intros [= <-]. auto.
Qed.

Lemma saved_current rpath w sr prev stamp raw :
  utf8 sr → (∀ c, prev = Some c → utf8 c) → ValidString stamp = true →
  marshal (mkRegistryRecord (Some sr) prev stamp) = Some raw → files w !! rpath = Some (Readable raw) →
  current rpath w = Some sr.
Proof.
  intros Hsr Hprev Hst Hm Hf. unfold current, Registry_Load, read_file. rewrite Hf. cbn. unfold decode_registry.
  rewrite (unmarshal_marshal _ _ Hm); [done|]. rewrite ac_regrecord_texts. cbn. apply Forall_app. split; [done|].
  apply Forall_app. split; [|by constructor]. destruct prev as [c|]; cbn; [by apply Hprev|constructor].
Qed.

(** One offered registry: the held one stays or a newer one takes its place. *)
Lemma registry_offer rpath root sr now stamp w c :
  utf8 sr → ValidString stamp = true → current rpath w = Some c →
  ∃ c', current rpath (attempted (Registry_Adopt rpath root sr now stamp) w).1 = Some c' ∧
    (c' = c ∨ RegistryVersion c < RegistryVersion c' ∧ registry_signed root c' = true).
Proof.
  intros Hsr Hst Hc. unfold attempted, Registry_Adopt. unfold mbind at 1, ST_bind at 1. cbn [gets].
  destruct (Registry_Check rpath root sr now w) as [noop reason] eqn:E. cbn [fst snd].
  destruct (empty reason) eqn:Er; [|cbn; eauto]. apply empty_true in Er as ->. cbn [negb].
  destruct noop; [cbn; eauto|].
  assert (HV : RegistryVersion c < RegistryVersion sr ∧ registry_signed root sr = true).
  { unfold Registry_Check in E. destruct (empty (VerifyRegistry root sr now)) eqn:Ev; [|by injection E as E; rewrite E in Ev].
    apply empty_true in Ev. apply VerifyRegistry_ok in Ev as [_ Hs]. cbn in E.
    unfold current in Hc. rewrite Hc in E. split; [|done]. destruct (Z.ltb_spec (RegistryVersion sr) (RegistryVersion c)); [done|].
    destruct (Z.eqb_spec (RegistryVersion sr) (RegistryVersion c)); [by destruct (decide _)|lia]. }
  unfold mbind at 1, ST_bind at 1. cbn [gets]. change (Registry_Load rpath w ≫= rr_Current) with (current rpath w). rewrite Hc.
  unfold mbind at 1, ST_bind at 1. unfold registry_save. cbn [rr_Current].
  destruct ((mkdirAll ≫= _) w) as [w1 r1] eqn:E1.
  assert (H1 : current rpath w1 = Some c ∨ current rpath w1 = Some sr).
  { revert E1. unfold mbind, ST_bind. destruct (mkdirAll w) as [w0 [[]|e]] eqn:E0;
      pose proof (leaves_mkdir rpath w w0 _ E0) as HL.
    2:{ intros [= <- <-]. left. unfold current, Registry_Load, read_file. by rewrite HL. }
    assert (H0 : current rpath w0 = Some c) by (rewrite <- Hc; unfold current, Registry_Load, read_file; by rewrite HL).
    destruct (marshal _) as [raw|] eqn:Em; [|intros [= <- <-]; by left]. unfold writeSynced.
    assert (HS : current rpath (put_file rpath raw (pop_fault w0)) = Some sr).
    { eapply saved_current; [done| |done|exact Em|apply lookup_insert_eq]. intros c0 [= ->]. by eapply current_utf8. }
    destruct (next_fault w0); intros [= <- <-]; auto. }
  assert (HF : ∀ w', leaves rpath w1 w' → current rpath w' = current rpath w1)
    by (intros w' HL; unfold current, Registry_Load, read_file; by rewrite HL).
  destruct r1 as [[]|e]; [|cbn; destruct H1 as [->| ->]; eauto].
  unfold mbind, ST_bind. cbn [gets]. destruct (EverAdopted rpath w1); cbn [mret ST_ret fst].
  { destruct H1 as [->| ->]; eauto. }
  destruct (writeSynced _ _ w1) as [w2 [[]|e]] eqn:E2; cbn [mret ST_ret fst];
    rewrite (HF w2) by (eapply leaves_write; [apply marker_ne|exact E2]); destruct H1 as [->| ->]; eauto.
Qed.

Definition offers (rpath root : string) (l : list (SignedRegistry * Z * string)) (w : world) : world :=
  foldl (λ w o, (attempted (Registry_Adopt rpath root o.1.1 o.1.2 o.2) w).1) w l.

Lemma registry_offers rpath root l w c :
  Forall (λ o, utf8 o.1.1 ∧ ValidString o.2 = true) l → current rpath w = Some c →
  ∃ c', current rpath (offers rpath root l w) = Some c' ∧
    (c' = c ∨ RegistryVersion c < RegistryVersion c' ∧ registry_signed root c' = true).
Proof.
  intros Hl. revert w c. induction Hl as [|[[sr now] stamp] l [Hu Hs] _ IH]; intros w c Hc; [by exists c; auto|].
  destruct (registry_offer rpath root sr now stamp w c Hu Hs Hc) as (c1 & Hc1 & H1). cbn in *.
  destruct (IH _ _ Hc1) as (c2 & Hc2 & H2). exists c2. split; [exact Hc2|].
  destruct H1 as [->|[H1 H1']], H2 as [->|[H2 H2']]; auto. right. split; [lia|done].
Qed.

Lemma Registry_Adopt_marker rpath root sr now stamp w w' :
  Registry_Adopt rpath root sr now stamp w = (w', Ok true) → EverAdopted rpath w' = true.
Proof.
  unfold Registry_Adopt. rewrite ST_bind_Ok. intros (s1 & nr & _ & H). destruct (negb _); [done|].
  destruct nr.1; [done|]. rewrite !ST_bind_Ok in H. destruct H as (s2 & cur & _ & H).
  rewrite !ST_bind_Ok in H. destruct H as (s3 & [] & _ & H). rewrite !ST_bind_Ok in H.
  destruct H as (s4 & ever & He & H). injection He as <- <-. destruct (EverAdopted rpath s3) eqn:Ee.
  - unfold mbind, ST_bind in H. cbn in H. by injection H as <-.
  - rewrite ST_bind_Ok in H. destruct H as (s5 & [] & Hw & H). injection H as <-.
    unfold writeSynced in Hw. destruct (next_fault s3); [|done|done]. injection Hw as <-.
    unfold EverAdopted, exists_file. cbn. rewrite lookup_insert_eq. by apply bool_decide_true.
Qed.

(** Trust in signing keys is one-way.  Whatever registries are offered, in
    whatever order and however their writes fail, the held registry is kept or
    replaced by one of a higher version that the root signed, so a revoked key
    never comes back through an older list; and once a signed registry has been
    adopted, no later history (files lost, damaged or replaced, the marker apart)
    makes a daemon take its keys from the unsigned trust file. *)
Theorem signed_trust_is_one_way (p : Paths) (root : string) (w : world) :
  (∀ l c, Forall (λ o, utf8 o.1.1 ∧ ValidString o.2 = true) l → current (RegistryPath p) w = Some c →
     ∃ c', current (RegistryPath p) (offers (RegistryPath p) root l w) = Some c' ∧
       (c' = c ∨ RegistryVersion c < RegistryVersion c' ∧ registry_signed root c' = true)) ∧
  (∀ sr now stamp w1 appl serial fpr v l now',
     Registry_Adopt (RegistryPath p) root sr now stamp w = (w1, Ok true) →
     Forall (untouched_file (adoptedMarkerPath (RegistryPath p))) l →
     (TrustedRegistry p now' (foldl (astep p appl serial fpr) (w1, v) l).1).2 ≠ "legacy-plain").
Proof.
  split; [intros l c; apply registry_offers|].
  intros sr now stamp w1 appl serial fpr v l now' HA Hl. apply Registry_Adopt_marker in HA.
  unfold EverAdopted, exists_file in HA. apply bool_decide_eq_true_1 in HA.
  pose proof (there_history p appl serial fpr _ l (w1, v) Hl HA) as HM. set (w2 := (foldl _ _ _).1) in *.
  assert (HE : legacy_registry p w2 = (None, "none")).
  { unfold legacy_registry, EverAdopted, exists_file. by rewrite bool_decide_true. }
  unfold TrustedRegistry. destruct (LoadRootPub _ w2); [|by rewrite HE].
  destruct (Trusted _ _ _ w2); [done|]. destruct (FileExists _ w2); [done|by rewrite HE].
Qed.

(** ** Rotation *)

Lemma Lookup_cons k r x : Lookup (k :: r) x = if decide (tk_KeyID k = x) then Some k else Lookup r x.
Proof.
  unfold Lookup. cbn. destruct (decide (tk_KeyID k = x)); [done|]. by destruct (list_find _ r) as [[]|].
Qed.

Lemma Lookup_setState keyID state stamp r x :
  Lookup (setState keyID state stamp r).1 x =
  if decide (x = keyID)
  then (λ k, with_state state (if decide (state = KeyActive) then RetiredAt k else stamp) k) <$> Lookup r x
  else Lookup r x.
Proof.
  induction r as [|k r IH]; cbn [setState]; [by destruct (decide _)|].
  destruct (decide (tk_KeyID k = keyID)) as [Hk|Hk].
  - cbn [fst]. rewrite !Lookup_cons. cbn [tk_KeyID with_state]. destruct (decide (x = keyID)) as [->|Hx].
    + destruct (decide (tk_KeyID k = keyID)); [done|congruence].
    + destruct (decide (tk_KeyID k = x)); [congruence|done].
  - destruct (setState keyID state stamp r) as [r' ok] eqn:E. cbn [fst] in *. rewrite !Lookup_cons, IH.
    destruct (decide (tk_KeyID k = x)) as [Hx|Hx]; [|done]. by rewrite decide_False by congruence.
Qed.

Lemma Lookup_replace k r x : Lookup (replace_key k r) x = if decide (x = tk_KeyID k) then Some k else Lookup r x.
Proof.
  induction r as [|k' r IH]; cbn [replace_key].
  - rewrite Lookup_cons. destruct (decide (tk_KeyID k = x)), (decide (x = tk_KeyID k)); congruence || done.
  - destruct (decide (tk_KeyID k' = tk_KeyID k)) as [Hk|Hk]; rewrite !Lookup_cons; [|rewrite IH];
      destruct (decide (tk_KeyID k = x)), (decide (tk_KeyID k' = x)), (decide (x = tk_KeyID k)); congruence || done.
Qed.

Lemma PublicKeyOf_state state ret k : PublicKeyOf (with_state state ret k) = PublicKeyOf k.
Proof. done. Qed.

Definition registered (priv : string) : TrustedKey :=
  mkTrustedKey (KeyID (ed_public priv)) (b64_encode (ed_public priv)) KeyActive "" "" "".

(** A document this appliance may adopt, once it is signed. *)
Definition adoptable (d : Document) (appl : string) (have : Z) : Prop :=
  ApplianceID d = appl ∧ Serial d = "" ∧ IdentityKeyFpr d = "" ∧ have < Version d ∧ knownState (State d) = true ∧
  (Grants (State d) = true → TenantID d ≠ "" ∧ SiteID d ≠ "").

Lemma Sign_accepted priv d appl serial fpr have :
  adoptable d appl have → AcceptFor (ed_public priv) (Sign priv d) appl serial fpr have = "".
Proof.
  intros (Ha & Hs & Hf & Hv & Hk & Hg). unfold AcceptFor.
  assert (HV : Verify (ed_public priv) (Sign priv d) = true).
  { unfold Verify. cbn. rewrite b64_decode_encode. apply ed_verify_sign. }
  rewrite HV. cbn [negb Sign with_signer ApplianceID Serial IdentityKeyFpr Version State TenantID SiteID].
  destruct (decide (ApplianceID d ≠ appl)) as [|_]; [done|]. rewrite Hs, Hf. cbn [empty negb andb].
  rewrite (proj2 (Z.leb_gt _ _)) by done. rewrite Hk. cbn [negb]. destruct (Grants (State d)); [|done].
  destruct (Hg eq_refl) as [Ht Hsi]. rewrite (proj2 (empty_false (TenantID d)) Ht). by rewrite (proj2 (empty_false (SiteID d)) Hsi).
Qed.

(** Rotating the signing key strands no appliance and revoking it stops it.
    A document that is accepted stays accepted after any key is retired to
    verify-only and after another key is added or rotated; a document signed with
    the newly registered key is accepted at once; and a document whose signer is
    revoked is refused. *)
Theorem rotation_never_strands (reg : Registry) (d : Document) (appl serial fpr stamp : string) (have : Z) :
  AcceptForRegistry (Some reg) d appl serial fpr have = "" →
  (∀ keyID, AcceptForRegistry (Some (VerifyOnly keyID stamp reg).1) d appl serial fpr have = "") ∧
  (∀ k, tk_KeyID k ≠ SignerKeyID d → AcceptForRegistry (Some (AddOrRotate k stamp reg)) d appl serial fpr have = "") ∧
  AcceptForRegistry (Some (Revoke (SignerKeyID d) stamp reg).1) d appl serial fpr have ≠ "" ∧
  (∀ priv d' have', len priv = 64 → adoptable d' appl have' →
     AcceptForRegistry (Some (AddOrRotate (registered priv) stamp reg)) (Sign priv d') appl serial fpr have' = "").
Proof.
  intros (k & pub & Hl & Hc & Hp & Ha)%AcceptForRegistry_ok. split_and!.
  - intros keyID. apply AcceptForRegistry_ok. unfold VerifyOnly. rewrite Lookup_setState.
    destruct (decide (SignerKeyID d = keyID)) as [E|_]; rewrite Hl; [|by exists k, pub].
    cbn. eexists _, pub. split_and!; [done|done|by rewrite PublicKeyOf_state|done].
  - intros k' Hk'. apply AcceptForRegistry_ok. unfold AddOrRotate. rewrite Lookup_replace. cbn.
    rewrite decide_False by done. by exists k, pub.
  - intros (k' & pub' & Hl' & Hc' & _)%AcceptForRegistry_ok. unfold Revoke in Hl'.
    rewrite Lookup_setState, decide_True in Hl' by done. rewrite Hl in Hl'. cbn in Hl'. by injection Hl' as <-.
  - intros priv d' have' Hpriv Hd. apply AcceptForRegistry_ok. unfold AddOrRotate. rewrite Lookup_replace. cbn.
    rewrite decide_True by done. eexists _, (ed_public priv). split_and!; [done|done| |by apply Sign_accepted].
    unfold PublicKeyOf. cbn. rewrite b64_decode_encode. by rewrite (ed_public_size _ Hpriv).
Qed.
End proofs.

(** ** A concrete environment

    The signatures of [LicenseStore.Sample]; JSON as tables, but for the record of
    the highest version, which is encoded in full. *)
Module AssignmentSample.
Import LicenseStore.Sample.

#[local] Instance Record_eq_dec : EqDecision Record_.
Proof. solve_decision. Defined.
#[local] Instance registryRecord_eq_dec : EqDecision registryRecord.
Proof. solve_decision. Defined.

(** An integer in unary, with its sign. *)
Fixpoint ones (n : nat) (rest : string) : string :=
  match n with O => String ":"%char rest | S n' => String "1"%char (ones n' rest) end.
Fixpoint read_ones (s : string) : option (nat * string) :=
  match s with
  | String "1"%char s' => '(n, rest) ← read_ones s'; Some (S n, rest)
  | String ":"%char rest => Some (O, rest)
  | _ => None
  end.

Lemma read_ones_ones n rest : read_ones (ones n rest) = Some (n, rest).
Proof. induction n as [|n IH]; cbn; [done|]. by rewrite IH. Qed.

Definition encode_highest (h : highestRecord) : string :=
  String (if (hr_Version h <? 0) then "-"%char else "+"%char) (ones (Z.abs_nat (hr_Version h)) (hr_ApplianceID h)).
Definition decode_highest (s : string) : option highestRecord :=
  match s with
  | String c s' =>
      '(n, a) ← read_ones s';
      if ValidString a
      then Some (mkHighest a (if (Ascii.eqb c "-"%char) then - Z.of_nat n else Z.of_nat n))
      else None
  | EmptyString => None
  end.

Lemma decode_encode_highest h :
  ValidString (hr_ApplianceID h) = true → decode_highest (encode_highest h) = Some h.
Proof.
  destruct h as [a v]. unfold encode_highest, decode_highest. cbn [hr_ApplianceID hr_Version]. intros Ha.
  rewrite read_ones_ones. cbn [mbind option_bind]. rewrite Ha.
  destruct (Z.ltb_spec v 0); cbn; repeat f_equal; lia.
Qed.

Program Definition highest_codec : @Codec json highestRecord := {|
  marshal h := Some (encode_highest h);
  unmarshal := decode_highest;
  texts h := [hr_ApplianceID h]
|}.
Next Obligation. by intros h raw [= <-]. Qed.
Next Obligation. by intros [|c s] h. Qed.
Next Obligation.
  intros [|c s] h; [done|]. cbn. intros ([n a] & _ & H)%bind_Some. destruct (ValidString a) eqn:E; [|done].
  injection H as <-. by repeat constructor.
Qed.
Next Obligation. intros h raw [= <-] Ht. apply decode_encode_highest. by apply Forall_cons in Ht as [? _]. Qed.

Definition signer_key : string := "ABCDEFGHIJKLMNOPABCDEFGHIJKLMNOPABCDEFGHIJKLMNOPABCDEFGHIJKLMNOP".
Definition signer_id : string := "ABCDEFGHIJKLMNOP".
Definition root_id : string := "0123456789abcdef".

Definition doc (v : Z) (site state sig : string) : Document :=
  mkDocument "as-1" "app-1" "" "" "t-1" site "Tenant" "Site" v state 100 0 signer_id sig "hotel".
Definition doc7 : Document := doc 7 "s-1" StateAssigned (pub_of signer_key +:+ "{7}").
Definition doc8 : Document := doc 8 "s-2" StateReassigned (pub_of signer_key +:+ "{8}").

Definition signer : TrustedKey := mkTrustedKey signer_id (pub_of signer_key) KeyActive "t0" "" "".
Definition reg1 : SignedRegistry := mkSignedRegistry 1 100 0 0 [signer] root_id (pub_of vendor_key +:+ "{r1}").
Definition reg2 : SignedRegistry :=
  mkSignedRegistry 2 200 0 0 (AddOrRotate (mkTrustedKey "other" "" "" "" "" "") "t2" [signer]) root_id
    (pub_of vendor_key +:+ "{r2}").

Definition record (c : Document) (p : option Document) (adopted refreshed : string) : Record_ :=
  mkRecord (Some c) p (Version c) (SignerKeyID c) (State c) adopted refreshed refreshed "".

Definition codecs : AssignmentCodecs.
Proof.
  refine {| ac_json := json;
    ac_view := table_codec (λ _, []) [("{7}", sign_view doc7); ("{8}", sign_view doc8)];
    ac_regview := table_codec (λ _, []) [("{r1}", reg_view reg1); ("{r2}", reg_view reg2)];
    ac_ackview := table_codec (λ _, []) [];
    ac_doc := table_codec (λ d, [ApplianceID d]) [("{d7}", doc7); ("{d8}", doc8)];
    ac_record := table_codec (λ r, [AdoptedAt r])
      [("{R7}", record doc7 None "t1" "t1"); ("{R7'}", record doc7 None "t1" "t2"); ("{R8}", record doc8 (Some doc7) "t2" "t2")];
    ac_highest := highest_codec;
    ac_signed := table_codec (λ sr, [sr_SignerKeyID sr]) [("{g1}", reg1); ("{g2}", reg2)];
    ac_regrecord := table_codec
      (λ r, (from_option (λ sr, [sr_SignerKeyID sr]) [] (rr_Current r) ++
             from_option (λ sr, [sr_SignerKeyID sr]) [] (rr_Previous r) ++ [rr_AdoptedAt r])%list)
      [("{G1}", mkRegistryRecord (Some reg1) None "t1"); ("{G2}", mkRegistryRecord (Some reg2) (Some reg1) "t2")];
    ac_registry := table_codec (λ _, []) [] |}; [by eexists|done|done].
Defined.

Definition paths : Paths := mkPaths "/a" "/r/registry.json" "/r/root.pub" "/t/trust.json".
Definition ident : ApplianceBinding := mkBinding "app-1" "" "".
Definition fresh : world := mkWorld {["/r/root.pub" := Readable (pub_of vendor_key)]} [].
(** The history: the first registry and document, an image restored over the
    document, a write lost, a restart, and a poll that brings the next pair. *)
Definition later : list aop :=
  [APoll (Some reg1) None 200 "t1"; AFile "/a/assignment.json" (Some (Readable "{d7}")); AFaults [FailBeforeRename]; ARestart;
   APoll (Some reg2) (Some doc8) 300 "t2"; AFaults []; ARestart; APoll (Some reg2) (Some doc8) 300 "t2"].
End AssignmentSample.

#[local] Existing Instances LicenseStore.Sample.crypto AssignmentSample.codecs.

Lemma assignment_never_rolls_back_witness :
  let w1 := (Adopt "/a" AssignmentSample.doc7 "t1" AssignmentSample.fresh).1 in
  let r := Resolve Some id AssignmentSample.paths AssignmentSample.ident 400
             (foldl (astep AssignmentSample.paths "app-1" "" "") (w1, 7) AssignmentSample.later).1 in
  r_Outcome r = OutcomeGranted ∧ r_SiteID r = "s-2" ∧ Version AssignmentSample.doc7 ≤ r_Version r.
Proof.
  intros w1 r. assert (Hr : r_Outcome r = OutcomeGranted) by (vm_compute; reflexivity).
  split; [exact Hr|]. split; [vm_compute; reflexivity|].
  apply (assignment_never_rolls_back Some id AssignmentSample.paths "app-1" "" "" "t1" AssignmentSample.doc7
           AssignmentSample.fresh w1 7 AssignmentSample.later AssignmentSample.ident 400).
  - split; done.
  - done.
  - vm_compute; reflexivity.
  - reflexivity.
  - vm_compute; reflexivity.
  - repeat constructor; done.
  - reflexivity.
  - exact Hr.
Defined.

Lemma scope_is_signed_witness :
  let w := (foldl (astep AssignmentSample.paths "app-1" "" "") (AssignmentSample.fresh, 0)
              [APoll (Some AssignmentSample.reg1) (Some AssignmentSample.doc7) 200 "t1"]).1 in
  let r := Resolve Some id AssignmentSample.paths AssignmentSample.ident 400 w in
  r_TenantID r = "t-1" ∧ r_SiteID r = "s-1" ∧ ∃ d reg src,
    Doc "/a" w = Some d ∧ TrustedRegistry AssignmentSample.paths 400 w = (Some reg, src) ∧ r_SiteID r = SiteID d.
Proof.
  intros w r. split; [vm_compute; reflexivity|]. split; [vm_compute; reflexivity|].
  destruct (scope_is_signed Some id AssignmentSample.paths AssignmentSample.ident 400 w) as [_ HG].
  destruct HG as (d & reg & src & k & pub & H1 & H2 & _ & _ & _ & _ & _ & _ & _ & _ & H3 & _); [vm_compute; reflexivity|].
  exists d, reg, src. split; [exact H1|]. split; [exact H2|exact H3].
Defined.

Lemma signed_trust_is_one_way_witness :
  let p := AssignmentSample.paths in
  let root := LicenseStore.Sample.pub_of LicenseStore.Sample.vendor_key in
  let w1 := (Registry_Adopt (RegistryPath p) root AssignmentSample.reg1 200 "t1" AssignmentSample.fresh).1 in
  (∃ c, current (RegistryPath p) (offers (RegistryPath p) root
          [(AssignmentSample.reg2, 300, "t2"); (AssignmentSample.reg1, 300, "t3")] w1) = Some c ∧
        (c = AssignmentSample.reg1 ∨ 1 < RegistryVersion c ∧ registry_signed root c = true)) ∧
  (TrustedRegistry p 500 (foldl (astep p "app-1" "" "") (w1, 0)
     [AFile "/r/registry.json" None; AFile "/r/root.pub" None; AFile "/t/trust.json" (Some (Readable "[]"))]).1).2
    ≠ "legacy-plain".
Proof.
  intros p root w1. split.
  - destruct (signed_trust_is_one_way p root w1) as [HG _].
    apply (HG _ AssignmentSample.reg1); [repeat constructor; vm_compute; reflexivity|vm_compute; reflexivity].
  - destruct (signed_trust_is_one_way p root AssignmentSample.fresh) as [_ HG].
    apply (HG AssignmentSample.reg1 200 "t1" w1); [vm_compute; reflexivity|repeat constructor; done].
Defined.

Lemma rotation_never_strands_witness :
  AcceptForRegistry (Some (VerifyOnly AssignmentSample.signer_id "t2" [AssignmentSample.signer]).1)
    AssignmentSample.doc7 "app-1" "sn" "fp" 6 = "" ∧
  AcceptForRegistry (Some (Revoke AssignmentSample.signer_id "t2" [AssignmentSample.signer]).1)
    AssignmentSample.doc7 "app-1" "sn" "fp" 6 ≠ "".
Proof.
  destruct (rotation_never_strands [AssignmentSample.signer] AssignmentSample.doc7 "app-1" "sn" "fp" "t2" 6)
    as (H1 & _ & H2 & _); [vm_compute; reflexivity|].
  split; [apply H1|exact H2].
Defined.
