(* ===== verification/Grace.v ===== *)
(** After Check-out Access (data-plane/internal/grace): the policy bounds, the
    conversion decision at the checkout boundary and the access decision inside
    the window.  Go's [%] and [/] on [int] are truncated ([Z.rem], [Z.quot]). *)
From S2P Require Import Prelude GoStrings.

Record Policy := mkPolicy {
  DurationSeconds : Z;
  DownKbps : Z;
  UpKbps : Z;
  DataQuotaBytes : Z;
  DeviceLimit : Z;
  DeviceLimitPolicy : string;
  IsEmergency : bool
}.
#[export] Instance Policy_eq_dec : EqDecision Policy.
Proof. solve_decision. Defined.

Definition DeviceLimitRejectNew : string := "REJECT_NEW_DEVICE".

Definition BuiltinEmergencyPolicy : Policy :=
  mkPolicy 3600 5000 2000 (Z.shiftl 500 20) 0 DeviceLimitRejectNew true.

Definition ValidatePolicy (p : Policy) (enabled hasPinnedRevision : bool) : bool :=
  if negb enabled || negb hasPinnedRevision then false
  else if (DurationSeconds p <=? 0) || (604800 <? DurationSeconds p) then false
  else if (DownKbps p <=? 0) || (UpKbps p <=? 0) || (DataQuotaBytes p <? 0) then false
  else if decide (DeviceLimitPolicy p ≠ DeviceLimitRejectNew) then false
  else true.

Definition MinDurationHours : Z := 1.
Definition MaxDurationHours : Z := 72.
Definition MinKbps : Z := 64.
Definition MaxKbps : Z := 1000000.
Definition MinQuotaBytes : Z := Z.shiftl 10 20.
Definition MaxQuotaBytes : Z := Z.shiftl 100 30.
Definition MinDeviceLimit : Z := 1.
Definition MaxDeviceLimit : Z := 20.

Definition ValidateOperatorPolicy (p : Policy) : string :=
  if negb (Z.rem (DurationSeconds p) 3600 =? 0)%Z
     || (Z.quot (DurationSeconds p) 3600 <? MinDurationHours)
     || (MaxDurationHours <? Z.quot (DurationSeconds p) 3600)
  then "duration must be a whole number of hours between 1 and 72"
  else if (DownKbps p <? MinKbps) || (MaxKbps <? DownKbps p)
  then "download speed must be between 64 kbps and 1,000,000 kbps"
  else if (UpKbps p <? MinKbps) || (MaxKbps <? UpKbps p)
  then "upload speed must be between 64 kbps and 1,000,000 kbps"
  else if (DataQuotaBytes p <? MinQuotaBytes) || (MaxQuotaBytes <? DataQuotaBytes p)
  then "the shared data quota must be between 10 MiB and 100 GiB"
  else if (DeviceLimit p <? MinDeviceLimit) || (MaxDeviceLimit <? DeviceLimit p)
  then "the device allowance must be between 1 and 20"
  else if decide (DeviceLimitPolicy p ≠ DeviceLimitRejectNew)
  then "the device policy must be REJECT_NEW_DEVICE"
  else "".

Inductive Trigger := NoTrigger | TriggerCheckoutGrace | TriggerEmergency.

Record ConversionRequest := mkConversionRequest {
  HasActiveEntitlementAtCheckout : bool;
  AlreadyConvertedThisEpisode : bool;
  Configured : Policy;
  ConfiguredValid : bool;
  Disabled : bool
}.

Record Conversion := mkConversion {
  Create : bool;
  cv_Trigger : Trigger;
  cv_Policy : Policy;
  cv_Reason : string;
  cv_IsEmergency : bool;
  ConfigInvalidAlert : bool
}.

Definition zeroPolicy : Policy := mkPolicy 0 0 0 0 0 "" false.
Definition no_conversion (reason : string) : Conversion :=
  mkConversion false NoTrigger zeroPolicy reason false false.

Definition DecideConversion (r : ConversionRequest) : Conversion :=
  if AlreadyConvertedThisEpisode r then no_conversion "ALREADY_CONVERTED_THIS_EPISODE"
  else if negb (HasActiveEntitlementAtCheckout r) then no_conversion "NO_ACTIVE_ENTITLEMENT_AT_CHECKOUT"
  else if Disabled r then no_conversion "AFTER_CHECKOUT_DISABLED"
  else if ConfiguredValid r then
    mkConversion true TriggerCheckoutGrace (Configured r) "ELIGIBLE" false false
  else mkConversion true TriggerEmergency BuiltinEmergencyPolicy
         "CONFIG_INVALID_EMERGENCY_FALLBACK" true true.

Record AccessRequest := mkAccessRequest {
  ar_Policy : Policy;
  GraceAgeSeconds : Z;
  DeviceIsExisting : bool
}.

Record Access := mkAccess {
  acc_Allow : bool;
  acc_Reason : string;
  acc_DownKbps : Z;
  acc_UpKbps : Z;
  acc_DataQuotaBytes : Z
}.

Definition allow (reason : string) (p : Policy) : Access :=
  mkAccess true reason (DownKbps p) (UpKbps p) (DataQuotaBytes p).

Definition DecideAccess (r : AccessRequest) : Access :=
  if (GraceAgeSeconds r <? 0) || (DurationSeconds (ar_Policy r) <? GraceAgeSeconds r)
  then mkAccess false "GRACE_WINDOW_ELAPSED" 0 0 0
  else if negb (DeviceIsExisting r) then mkAccess false "GRACE_NEW_DEVICE_REJECTED" 0 0 0
  else allow "GRACE_EXISTING_DEVICE_GRANDFATHERED" (ar_Policy r).

Definition ExistingDevicesOverLimit (p : Policy) (existing : Z) : Z :=
  if (DeviceLimit p <=? 0) || (existing <=? DeviceLimit p) then 0 else existing - DeviceLimit p.

(** ** The life of one checkout

    The converter validates the configured policy, decides, pins the decision's
    policy, and every later access is decided against what was pinned. *)
Definition convert (configured : Policy) (enabled pinned active converted switchOn : bool) : Conversion :=
  DecideConversion (mkConversionRequest active converted configured
    (ValidatePolicy configured enabled pinned) (negb switchOn)).

Lemma ValidatePolicy_true p e h :
  ValidatePolicy p e h = true ↔
  e = true ∧ h = true ∧ 0 < DurationSeconds p <= 604800 ∧ 0 < DownKbps p ∧ 0 < UpKbps p ∧
  0 <= DataQuotaBytes p ∧ DeviceLimitPolicy p = DeviceLimitRejectNew.
Proof.
  unfold ValidatePolicy. split.
  - intros H. passed H. split_failed. split_and!; try done; try lia.
    by destruct (decide (DeviceLimitPolicy p = DeviceLimitRejectNew)).
  - intros (-> & -> & ? & ? & ? & ? & ->). rewrite decide_False by (by intros []).
    simpl. repeat match goal with |- context [?a <=? ?b] => destruct (Z.leb_spec a b)
                                | |- context [?a <? ?b] => destruct (Z.ltb_spec a b) end; simpl; done || lia.
Qed.

Lemma operator_policy_valid p :
  ValidateOperatorPolicy p = "" → ValidatePolicy p true true = true.
Proof.
  unfold ValidateOperatorPolicy, MinDurationHours, MaxDurationHours, MinKbps, MinQuotaBytes. intros H. passed H.
  assert (DeviceLimitPolicy p = DeviceLimitRejectNew)
    by (by destruct (decide (DeviceLimitPolicy p = DeviceLimitRejectNew))).
  assert (0 <= Z.shiftl 10 20) by (vm_compute; discriminate).
  pose proof (Z.quot_rem' (DurationSeconds p) 3600).
  apply ValidatePolicy_true. split_and!; done || lia.
Qed.

(** An eligible guest is never skipped and never gets an invalid policy.
    A checkout creates after-checkout access exactly when the stay held an active
    entitlement, was not converted in this episode and the site's switch is on; the
    policy it pins always passes validation (the configured one when it is valid, the
    emergency one otherwise, with an alert); and a policy an operator can publish is
    never replaced by the emergency one. *)
Theorem conversion_pins_valid_policy (p : Policy) (enabled pinned active converted switchOn : bool) :
  let c := convert p enabled pinned active converted switchOn in
  (Create c = true ↔ active = true ∧ converted = false ∧ switchOn = true) ∧
  (Create c = true → ValidatePolicy (cv_Policy c) true true = true ∧
     cv_IsEmergency c = ConfigInvalidAlert c ∧
     (cv_IsEmergency c = true ↔ cv_Policy c = BuiltinEmergencyPolicy ∧ cv_Trigger c = TriggerEmergency)) ∧
  (ValidateOperatorPolicy p = "" → enabled = true → pinned = true → Create c = true →
     cv_Policy c = p ∧ cv_IsEmergency c = false).
Proof.
  unfold convert, DecideConversion. simpl.
  assert (ValidatePolicy BuiltinEmergencyPolicy true true = true) as Hb by (by vm_compute).
  destruct converted, active, switchOn; simpl;
    try (split_and!; [split; [done|by intros (? & ? & ?)]|done..]).
  destruct (ValidatePolicy p enabled pinned) eqn:Hv; simpl.
  - pose proof Hv as (-> & -> & _)%ValidatePolicy_true.
    split_and!; [done| |done]. intros _. split_and!; [done|done|]. by split; [|intros []].
  - split_and!; [done|done|]. intros Hop -> ->. by rewrite (operator_policy_valid _ Hop) in Hv.
Qed.

(** Grace access is the cohort inside the window.  A device is let in
    exactly when it was authorized at the boundary and the window has not ended, at the
    pinned speeds and quota; the device limit never admits a new device and never refuses
    an existing one, however many there are. *)
Theorem grace_access_exact (r : AccessRequest) (n : Z) :
  let a := DecideAccess r in
  (acc_Allow a = true ↔ DeviceIsExisting r = true ∧ 0 <= GraceAgeSeconds r <= DurationSeconds (ar_Policy r)) ∧
  (acc_Allow a = true → acc_DownKbps a = DownKbps (ar_Policy r) ∧ acc_UpKbps a = UpKbps (ar_Policy r) ∧
     acc_DataQuotaBytes a = DataQuotaBytes (ar_Policy r)) ∧
  (acc_Allow a = false → acc_DownKbps a = 0 ∧ acc_UpKbps a = 0 ∧ acc_DataQuotaBytes a = 0) ∧
  ExistingDevicesOverLimit (ar_Policy r) n =
    (if decide (0 < DeviceLimit (ar_Policy r)) then Z.max 0 (n - DeviceLimit (ar_Policy r)) else 0).
Proof.
  unfold DecideAccess, ExistingDevicesOverLimit. split_and!.
  - destruct (Z.ltb_spec (GraceAgeSeconds r) 0),
      (Z.ltb_spec (DurationSeconds (ar_Policy r)) (GraceAgeSeconds r)), (DeviceIsExisting r); simpl;
      split; try done; try (intros [? ?]; done || lia).
  - destruct (_ || _); [done|]. by destruct (DeviceIsExisting r).
  - destruct (_ || _); [done|]. by destruct (DeviceIsExisting r).
  - destruct (Z.leb_spec (DeviceLimit (ar_Policy r)) 0), (Z.leb_spec n (DeviceLimit (ar_Policy r)));
      simpl; case_decide; lia.
Qed.
