(* ===== verification/Checkout.v ===== *)
(** The checkout conversion (data-plane/internal/checkout/checkout.go) and the
    tables, functions and triggers of the SQL baseline it works on.

    In one transaction the converter derives the boundary from the applied GO event
    of the stay, checks the stay out, ends every entitlement bought before, creates
    at most one grace entitlement, carries over the devices authorised at the
    boundary and their sessions, and ends everything else.

    A history the database keeps contiguous (transitions of an entitlement, intervals
    of a device on it, bindings of a session) is the list of its rows in [seq] order,
    and [superseded_by] and [supersedes] name a row by its [seq].  The rows of stays,
    events and runtimes are those of [StayTables].  The catalogue of packages and
    plans and the hour tier of the usage rollup are only read here: their queries are
    fields of [Catalog].  The writer capabilities are opened first and never lapse. *)
From S2P Require Import Prelude GoStrings Pg StayTables StayEngine Grace.

(** ** Tables *)

Inductive EntState := ENT_PENDING | ACTIVE | SUSPENDED | TERMINATED.
#[export] Instance EntState_eq_dec : EqDecision EntState.
Proof. solve_decision. Defined.

Record Entitlement := mkEntitlement {
  ent_site : string * string;
  ent_iface : option string;
  ent_stay : option string;
  purchase_id : string;
  policy_snapshot : string * Policy;       (* policy_version and the policy *)
  service_plan_revision_id : string;
  package_revision_id : string;
  time_accounting_mode : string;
  end_mode : string;
  window_ends_at : option Time;
  ent_status : EntState;
  terminal_reason : option string;
  data_quota_bytes : option Z;
  is_emergency_grace : bool;
  supersedes_entitlement_id : option string;
  activated_at : option Time;
  terminated_at : option Time
}.

#[export] Instance Entitlement_eq_dec : EqDecision Entitlement.
Proof. solve_decision. Defined.

Record Transition := mkTransition {
  from_state : option EntState;
  to_state : EntState;
  effective_at : Time;
  recorded_at : Time;
  supersedes : option nat;
  superseded_by : option nat;
  tr_reason : string
}.

Inductive DeviceStatus := AUTHORIZED | DISCONNECTED.
#[export] Instance DeviceStatus_eq_dec : EqDecision DeviceStatus.
Proof. solve_decision. Defined.

Record EntDevice := mkEntDevice {
  ed_status : DeviceStatus;
  grandfathered : bool;
  disconnected_reason : option string;
  first_authorized : option Time;
  last_authorized : option Time
}.

Record Interval := mkInterval { authorized_at : Time; deauthorized_at : option Time }.

Record Session := mkSession {
  ss_site : string * string;
  ss_ent : string;
  ss_dev : string;
  ss_state : string;
  started : Time;
  ended : option Time;
  end_reason : option string
}.

Record Binding := mkBinding { sb_ent : string; bound_from : Time; bound_until : option Time }.

Record Sample := mkSample {
  sm_session : string;
  sample_seq : Z;
  sm_up : Z;
  sm_down : Z;
  sampled_at : Time;
  ingested_at : Time
}.

(** accounting_usage_entitlement, by entitlement, bucket and arm. *)
Record Folded := mkFolded { fo_up : Z; fo_down : Z; fo_records : Z; fo_latest : Time; fo_exact : bool }.

(** data_crossing_progress, by binding (session and seq). *)
Record Progress := mkProgress { pr_ent : string; examined_seq : Z; counted_bytes : Z }.

Record Purchase := mkPurchase {
  pu_site : string * string;
  pu_package : string;
  pu_iface : string;
  pu_stay : string;
  pu_trigger : string;
  amount_minor : Z;
  pu_state : string;
  checkout_episode : option Z
}.

Record Audit := mkAudit {
  au_iface : string;
  au_trigger : string;
  au_emergency : bool;
  au_policy_version : string;
  alert_code : option string;
  reason_code : string;
  grace_entitlement_id : option string;
  boundary_event_id : option string;
  boundary_event_seq : option Z;
  boundary_norm : option Z;
  boundary_reason : string;
  au_config_version : Z;
  boundary_at : Time;
  boundary_suspect : bool
}.

Record Watermark := mkWatermark { wm_up : Z; wm_down : Z; wm_records : Z; wm_latest : option Time }.

Record GraceConfig := mkGraceConfig {
  gc_duration : option Z;
  gc_down : option Z;
  gc_up : option Z;
  gc_quota : option Z;
  gc_device_limit : option Z;
  gc_device_policy : option string;
  gc_package : option string;
  config_version : Z;
  after_checkout_enabled : bool
}.

(** [base] holds the stays, events and runtimes; [versions] the columns
    sequence_version and normalization_version of stay_events. *)
Record CDB := mkCDB {
  base : DB;
  versions : gmap string (Z * Z);
  ents : gmap string Entitlement;
  history : gmap string (list Transition);
  devices : gmap string (gmap string EntDevice);
  intervals : gmap string (gmap string (list Interval));
  sessions : gmap string Session;
  bindings : gmap string (list Binding);
  samples : list Sample;
  folded : gmap (string * Time * Z) Folded;
  progress : gmap (string * nat) Progress;
  integrity : list (string * string * string * Z);
  purchases : gmap string Purchase;
  audits : gmap (string * string * string * Z) Audit;
  alerts : list ((string * string * string * Z) * string);
  watermarks : gmap (string * Time) Watermark;
  grace_configs : gmap (string * string) GraceConfig
}.

Definition set_base d x := mkCDB x (versions d) (ents d) (history d) (devices d) (intervals d) (sessions d) (bindings d)
  (samples d) (folded d) (progress d) (integrity d) (purchases d) (audits d) (alerts d) (watermarks d) (grace_configs d).
Definition set_ents d x := mkCDB (base d) (versions d) x (history d) (devices d) (intervals d) (sessions d) (bindings d)
  (samples d) (folded d) (progress d) (integrity d) (purchases d) (audits d) (alerts d) (watermarks d) (grace_configs d).
Definition set_history d x := mkCDB (base d) (versions d) (ents d) x (devices d) (intervals d) (sessions d) (bindings d)
  (samples d) (folded d) (progress d) (integrity d) (purchases d) (audits d) (alerts d) (watermarks d) (grace_configs d).
Definition set_devices d x y := mkCDB (base d) (versions d) (ents d) (history d) x y (sessions d) (bindings d)
  (samples d) (folded d) (progress d) (integrity d) (purchases d) (audits d) (alerts d) (watermarks d) (grace_configs d).
Definition set_sessions d x y := mkCDB (base d) (versions d) (ents d) (history d) (devices d) (intervals d) x y
  (samples d) (folded d) (progress d) (integrity d) (purchases d) (audits d) (alerts d) (watermarks d) (grace_configs d).
Definition set_accounting d x y z := mkCDB (base d) (versions d) (ents d) (history d) (devices d) (intervals d) (sessions d)
  (bindings d) (samples d) x y z (purchases d) (audits d) (alerts d) (watermarks d) (grace_configs d).
Definition set_purchases d x := mkCDB (base d) (versions d) (ents d) (history d) (devices d) (intervals d) (sessions d)
  (bindings d) (samples d) (folded d) (progress d) (integrity d) x (audits d) (alerts d) (watermarks d) (grace_configs d).
Definition set_audits d x y := mkCDB (base d) (versions d) (ents d) (history d) (devices d) (intervals d) (sessions d)
  (bindings d) (samples d) (folded d) (progress d) (integrity d) (purchases d) x y (watermarks d) (grace_configs d).
Definition set_watermarks d x := mkCDB (base d) (versions d) (ents d) (history d) (devices d) (intervals d) (sessions d)
  (bindings d) (samples d) (folded d) (progress d) (integrity d) (purchases d) (audits d) (alerts d) x (grace_configs d).

(** What the converter reads of tables it never writes. *)
Record Catalog := mkCatalog {
  grace_package_matches_policy : string → string → string → Policy → bool;
  package_plan : string → string → string → option (string * string);    (* plan revision, time accounting *)
  emergency_grace_health : string → string → string;
  emergency_package : string → string → option (string * string * string);
  plan_quota : string * string → string → option Z;
  raw_retention_days : string * string → Z;
  rollup_watermark : string * string → option Time;
  hour_tier : string → Time → Z * Z      (* bytes and samples of a session from an hour on *)
}.

(** ** Entitlements and their history *)

Definition hist (d : CDB) (id : string) : list Transition := default [] (history d !! id).
Definition live_rows (l : list Transition) : list Transition := filter (λ t, superseded_by t = None) l.
(** ORDER BY seq DESC LIMIT 1 over the live rows. *)
Definition head_live (l : list Transition) : option Transition := last (live_rows l).

Definition legal_step (from to : EntState) : bool :=
  match from, to with
  | ENT_PENDING, (ACTIVE | SUSPENDED | TERMINATED) => true
  | ACTIVE, (SUSPENDED | TERMINATED) => true
  | SUSPENDED, (ACTIVE | TERMINATED) => true
  | _, _ => false
  end.

Definition p3_est_insert_guard (l : list Transition) (cur : option EntState) (n : Transition) : res sql_error () :=
  check (forallb (λ t, recorded_at t <=? recorded_at n) l) (Raised "transition recorded_at cannot move backwards") ≫= λ _,
  (match supersedes n with
   | None => Ok ()
   | Some k =>
       check (match l !! pred k with Some t => bool_decide (superseded_by t = Some (S (length l))) | None => false end)
         (Raised "superseded transition is not marked as corrected by this transition")
   end) ≫= λ _,
  (match head_live l with
   | None => check (bool_decide (from_state n = None)) (Raised "transition with no live predecessor must have from_state NULL")
   | Some p =>
       check (bool_decide (from_state n = Some (to_state p))) (Raised "from_state must equal previous to_state") ≫= λ _,
       check (effective_at p <=? effective_at n) (Raised "transition effective_at precedes the live head")
   end) ≫= λ _,
  check (match from_state n with None => true | Some f => legal_step f (to_state n) end)
    (Raised "illegal entitlement transition") ≫= λ _,
  check (bool_decide (cur = Some (to_state n))) (Raised "transition to_state must equal entitlement current status") ≫= λ _,
  check (match supersedes n with None => true | Some k => forallb (λ t, bool_decide (supersedes t ≠ Some k)) l end)
    (DuplicateKey "entitlement_state_transitions_supersedes_key").

Definition append_transition (id : string) (n : Transition) (d : CDB) : res sql_error CDB :=
  p3_est_insert_guard (hist d id) (ent_status <$> ents d !! id) n ≫= λ _,
  Ok (set_history d (<[id := (hist d id ++ [n])%list]> (history d))).

(** [ent_live_stay] and [ent_terminal]. *)
Definition entitlement_checks (id : string) (e : Entitlement) (d : CDB) : res sql_error () :=
  check (bool_decide (ent_status e = TERMINATED ↔ is_Some (terminal_reason e))) (CheckFailed "ent_terminal") ≫= λ _,
  check (bool_decide (ent_status e = TERMINATED) || bool_decide (ent_stay e = None)
         || negb (exists_row (λ k e', bool_decide (k ≠ id) && bool_decide (ent_status e' ≠ TERMINATED)
                                      && bool_decide (ent_stay e' = ent_stay e)) (ents d)))
    (DuplicateKey "ent_live_stay").

(** UPDATE ... WHERE id = $1 by the controlled writers; none moves a window or a
    counter or the subject. *)
Definition update_entitlement (id : string) (f : Entitlement → Entitlement) (d : CDB) : res sql_error CDB :=
  match ents d !! id with
  | None => Ok d
  | Some e =>
      check (bool_decide (ent_status e ≠ TERMINATED) || bool_decide (ent_status (f e) = TERMINATED))
        (Raised "no transition out of TERMINATED") ≫= λ _,
      entitlement_checks id (f e) d ≫= λ _,
      Ok (set_ents d (<[id := f e]> (ents d)))
  end.

Definition insert_entitlement (id : string) (e : Entitlement) (d : CDB) : res sql_error CDB :=
  check (bool_decide (ents d !! id = None)) (DuplicateKey "entitlements_pkey") ≫= λ _,
  check (match supersedes_entitlement_id e with
         | None => true
         | Some o => bool_decide ((ent_stay <$> ents d !! o) = Some (ent_stay e))
         end) (Raised "cross-subject supersession rejected") ≫= λ _,
  entitlement_checks id e d ≫= λ _,
  check (bool_decide (is_Some (purchases d !! purchase_id e))) (ForeignKeyFailed "entitlements_purchase") ≫= λ _,
  Ok (set_ents d (<[id := e]> (ents d))).

Definition with_status (s : EntState) (reason : option string) (act term : option Time) (e : Entitlement) : Entitlement :=
  mkEntitlement (ent_site e) (ent_iface e) (ent_stay e) (purchase_id e) (policy_snapshot e) (service_plan_revision_id e)
    (package_revision_id e) (time_accounting_mode e) (end_mode e) (window_ends_at e) s reason (data_quota_bytes e)
    (is_emergency_grace e) (supersedes_entitlement_id e) act term.

Definition terminal_codes : list string :=
  ["TIME"; "DATA"; "HARD_EXPIRY"; "CHECKOUT"; "ADMIN"; "REVOKED"; "SUPERSEDED"; "CONVERTED"; "TRANSFERRED"; "CANCELLED"; "OTHER"].
Definition terminal_code (reason : string) : string := if decide (reason ∈ terminal_codes) then reason else "OTHER".

Definition min_time (a b : option Time) : option Time :=
  match a, b with Some x, Some y => Some (Z.min x y) | None, o => o | o, None => o end.

Definition p3_rederive_entitlement_times (id : string) (d : CDB) : res sql_error CDB :=
  let l := live_rows (hist d id) in
  update_entitlement id
    (λ e, with_status (ent_status e) (terminal_reason e)
            (foldr (λ t o, min_time (if decide (to_state t = ACTIVE) then Some (effective_at t) else None) o) None l)
            (effective_at <$> last (filter (λ t, to_state t = TERMINATED) l)) e) d.

(** A live fact of a later business time than the boundary. *)
Definition later_fact (p_at : Time) (t : Transition) : bool :=
  bool_decide (superseded_by t = None) && (p_at <? effective_at t).

Definition mark_superseded (seq : nat) (t : Transition) : Transition :=
  mkTransition (from_state t) (to_state t) (effective_at t) (recorded_at t) (supersedes t) (Some seq) (tr_reason t).

Definition supersede_later (p_at : Time) (l : list Transition) : list Transition :=
  (λ t, if later_fact p_at t then mark_superseded (S (length l)) t else t) <$> l.

(** The [seq] of the last row that satisfies a condition. *)
Fixpoint last_seq (p : Transition → bool) (l : list Transition) : option nat :=
  match l with
  | [] => None
  | t :: l' => match last_seq p l' with Some n => Some (S n) | None => if p t then Some 1%nat else None end
  end.

Definition terminate_entitlement_at_boundary (now_ : Time) (id : string) (p_at : Time) (reason : string) (d : CDB)
    : res sql_error CDB :=
  check (bounded_code reason) (Raised "transition reason must be a bounded machine code") ≫= λ _,
  match ents d !! id with
  | None => Err (Raised "entitlement not found")
  | Some e =>
      if decide (ent_status e = TERMINATED) then Ok d
      else
        let l := hist d id in
        let l1 := supersede_later p_at l in
        update_entitlement id (λ e, with_status TERMINATED (Some (terminal_code reason)) (activated_at e) (terminated_at e) e)
          (set_history d (<[id := l1]> (history d))) ≫= λ d1,
        append_transition id
          (mkTransition (to_state <$> head_live l1) TERMINATED p_at now_ (last_seq (later_fact p_at) l) None reason) d1 ≫= λ d2,
        p3_rederive_entitlement_times id d2
  end.

Definition apply_entitlement_transition (now_ : Time) (id : string) (to : EntState) (p_at : Time) (reason : string) (d : CDB)
    : res sql_error CDB :=
  check (bounded_code reason) (Raised "transition reason must be a bounded machine code") ≫= λ _,
  match ents d !! id with
  | None => Err (Raised "entitlement not found")
  | Some e =>
      check (match head_live (hist d id) with Some h => effective_at h <=? p_at | None => true end)
        (Raised "requested effective_at precedes the live head") ≫= λ _,
      update_entitlement id
        (λ e, with_status to (if decide (to = TERMINATED) then Some (terminal_code reason) else None)
                (if bool_decide (to = ACTIVE) && bool_decide (activated_at e = None) then Some p_at else activated_at e)
                (if decide (to = TERMINATED) then Some p_at else None) e) d ≫= λ d1,
      append_transition id
        (mkTransition (match hist d id with [] => None | _ => Some (ent_status e) end) to p_at now_ None None reason) d1
  end.

(** The deferred trigger [p3_entitlement_status_coherent], on the rows a transaction wrote. *)
Definition coherent (d : CDB) (id : string) (e : Entitlement) : bool :=
  bool_decide ((to_state <$> head_live (hist d id)) = Some (ent_status e)).

(** ** Usage *)

Definition max_time (a b : option Time) : option Time :=
  match a, b with Some x, Some y => Some (Z.max x y) | None, o => o | o, None => o end.
Definition sum_of {A} (f : A → Z) (l : list A) : Z := foldr (λ a s, f a + s) 0 l.
Definition latest_of {A} (f : A → Time) (l : list A) : option Time := foldr (λ a o, max_time (Some (f a)) o) None l.
Definition bigint (z : Z) : res sql_error Z :=
  if (- two63 <=? z) && (z <? two63) then Ok z else Err (Raised "bigint out of range").

Definition session_samples (d : CDB) (sid : string) : list Sample := filter (λ m, sm_session m = sid) (samples d).
Definition within_binding (b : Binding) (t : Time) : bool :=
  (bound_from b <=? t) && match bound_until b with None => true | Some u => t <? u end.

(** A sample belongs to the entitlement its session was bound to when it was taken;
    a session without a binding, to the one it points at. *)
Definition live_samples (id : string) (p_at : Time) (d : CDB) : list Sample :=
  (('(sid, s) ← map_to_list (sessions d);
    b ← filter (λ b, sb_ent b = id) (default [] (bindings d !! sid));
    filter (λ m, within_binding b (sampled_at m) = true ∧ sampled_at m ≤ p_at) (session_samples d sid)) ++
   ('(sid, s) ← map_to_list (sessions d);
    if bool_decide (ss_ent s = id) && bool_decide (default [] (bindings d !! sid) = [])
    then filter (λ m, sampled_at m ≤ p_at) (session_samples d sid) else []))%list.

Definition folded_rows (id : string) (p_at : Time) (d : CDB) : list Folded :=
  snd <$> map_to_list (filter (λ '((e, b, arm), _), e = id ∧ (arm = 0 ∨ arm = 2) ∧ b ≤ p_at) (folded d)).

Definition entitlement_usage_bytes (id : string) (p_at : Time) (d : CDB) : res sql_error Watermark :=
  let f := folded_rows id p_at d in
  let l := live_samples id p_at d in
  bigint (sum_of fo_up f + sum_of sm_up l) ≫= λ up,
  bigint (sum_of fo_down f + sum_of sm_down l) ≫= λ down,
  bigint (sum_of fo_records f + Z.of_nat (length l)) ≫= λ n,
  Ok (mkWatermark up down n
        ((λ t, Z.min t p_at) <$> max_time (latest_of fo_latest f) (latest_of sampled_at l))).

(** ** Sessions *)

Definition open_binding (b : Binding) : bool := bool_decide (bound_until b = None).
Definition close_binding (at_ : Time) (b : Binding) : Binding := mkBinding (sb_ent b) (bound_from b) (Some at_).

(** AFTER UPDATE: the open interval of a session that has just ended closes. *)
Definition p3_session_close_binding (old new : Session) (l : list Binding) : list Binding :=
  match ended old, ended new with
  | None, Some t => (λ b, if open_binding b then close_binding (Z.max t (bound_from b)) b else b) <$> l
  | _, _ => l
  end.

(** BEFORE INSERT OR UPDATE: a live session needs an authorised device. *)
Definition p6_session_requires_authorized_binding (s : Session) (d : CDB) : res sql_error () :=
  if decide (ss_state s ≠ "active" ∧ ss_state s ≠ "PENDING_ENFORCEMENT") then Ok ()
  else match default ∅ (devices d !! ss_ent s) !! ss_dev s with
       | None => Err (Raised "session for a device with no authorization binding")
       | Some x => check (bool_decide (ed_status x = AUTHORIZED)) (Raised "session may not exist on a released binding")
       end.

Definition p3_seb_insert_guard (l : list Binding) (from : Time) : res sql_error () :=
  match last l with
  | None => Ok ()
  | Some p =>
      match bound_until p with
      | None => Err (Raised "session already has an OPEN binding interval")
      | Some u => check (u <=? from) (Raised "session binding cannot begin before the previous closed")
      end
  end.

(** Raises the crossing checkpoint of an entitlement to what is already counted. *)
Definition p6_reconcile_crossing_checkpoint (id : string) (d : CDB) : CDB :=
  let fo := sum_of (λ f, fo_up f + fo_down f)
              (snd <$> map_to_list (filter (λ '((e, _, arm), _), e = id ∧ arm = 0) (folded d))) in
  let raw := sum_of (λ m, sm_up m + sm_down m)
    ('((sid, n), pr) ← map_to_list (progress d);
     match default [] (bindings d !! sid) !! n with
     | Some b =>
         if decide (sb_ent b = id)
         then filter (λ m, sample_seq m ≤ examined_seq pr ∧ within_binding b (sampled_at m) = true) (session_samples d sid)
         else []
     | None => []
     end) in
  let mine := map_to_list (filter (λ '(_, pr), pr_ent pr = id) (progress d)) in
  let counted := sum_of (λ '(_, pr), counted_bytes pr) mine in
  let missing := fo + raw - counted in
  let bound := '(sid, l) ← map_to_list (bindings d);
               '(n, b) ← zip (seq 0 (length l)) l;
               if decide (sb_ent b = id) then [(sid, n, bound_from b)] else [] in
  let first := match mine with
               | (k, _) :: _ => Some k
               | [] => (λ x, x.1) <$> foldr (λ x o, match o with
                                                    | Some y => if x.2 <=? y.2 then Some x else Some y
                                                    | None => Some x end) None bound
               end in
  if missing <=? 0 then d
  else match first with
       | None => d
       | Some k =>
           let pr := match progress d !! k with
                     | Some pr => mkProgress (pr_ent pr) (examined_seq pr) (counted_bytes pr + missing)
                     | None => mkProgress id 0 missing
                     end in
           set_accounting d (folded d) (<[k := pr]> (progress d))
             ((id, k.1, "CHECKPOINT_BELOW_EXACT", missing) :: integrity d)
       end.

Section converter.
Context {MR : MapRange} (cat : Catalog) (now_ : Time) (hour_of : Time → Time).

(** A binding for an instant older than the raw samples kept: the hour tier says
    what may have been folded away, and the new entitlement is charged for it. *)
Definition charge_folded (sid id : string) (site : string * string) (p_at : Time) (d : CDB) : CDB :=
  if (p_at <? now_ - Day) && (p_at <? now_ - raw_retention_days cat site * Day) then
    let hour := hour_of p_at in
    let '(hb, hn) := hour_tier cat sid hour in
    let kept := filter (λ m, hour ≤ sampled_at m ∧
                  match rollup_watermark cat site with Some w => ingested_at m <? w | None => false end = true) (session_samples d sid) in
    let gap := Z.max (hb - sum_of (λ m, sm_up m + sm_down m) kept) 0 in
    let n := Z.max (hn - Z.of_nat (length kept)) 0 in
    let fo := if 0 <? gap then
                <[(id, hour, 0) := match folded d !! (id, hour, 0) with
                                   | Some f => mkFolded (fo_up f) (fo_down f + gap) (fo_records f + n) (Z.max (fo_latest f) p_at) false
                                   | None => mkFolded 0 gap n p_at false
                                   end]> (folded d)
              else folded d in
    let d1 := set_accounting d fo (progress d)
                ((id, sid, "RETROACTIVE_BINDING_PAST_RAW_RETENTION", gap) :: integrity d) in
    if 0 <? gap then p6_reconcile_crossing_checkpoint id d1 else d1
  else d.

Definition rebind_session_entitlement (sid id : string) (p_at : Time) (d : CDB) : res sql_error CDB :=
  match sessions d !! sid with
  | None => Err (Raised "session not found")
  | Some s =>
      check (bool_decide ((ent_site <$> ents d !! id) = Some (ss_site s))) (Raised "entitlement is not in the session scope") ≫= λ _,
      let l := default [] (bindings d !! sid) in
      check (forallb (λ b, negb (open_binding b) || (bound_from b <=? p_at)) l)
        (Raised "rebinding precedes the open interval start") ≫= λ _,
      let l1 := (λ b, if open_binding b then close_binding p_at b else b) <$> l in
      p3_seb_insert_guard l1 p_at ≫= λ _,
      let s' := mkSession (ss_site s) id (ss_dev s) (ss_state s) (started s) (ended s) (end_reason s) in
      p6_session_requires_authorized_binding s' d ≫= λ _,
      Ok (charge_folded sid id (ss_site s) p_at
            (set_sessions d (<[sid := s']> (sessions d)) (<[sid := (l1 ++ [mkBinding id p_at None])%list]> (bindings d))))
  end.

(** ** The boundary (deriveBoundary, boundaryFloor) *)

Definition ErrStayNotFound : error := Error "checkout: stay not found in scope".
Definition ErrInvalidBoundaryEvent : error := Error "checkout: invalid boundary Stay Event".
Definition ErrEmergencyCatalogUnavailable : error := Error "checkout: emergency-grace catalog unavailable".
Definition ErrConflictingCheckoutEvent : error :=
  Error "checkout: conflicting checkout event for an already-processed episode".
Definition ErrNoRows : error := Error "no rows in result set".

Definition checkoutGracePolicyVersion : string := "CHECKOUT_GRACE_V1".
Definition emergencyGracePolicyVersion : string := "EMERGENCY_GRACE_V1".
Definition boundaryFutureSkew : Duration := 5 * Minute.
Definition arrivalTolerance : Duration := 24 * Hour.

(** The columns sequence_version and normalization_version, with their defaults. *)
Definition event_versions (d : CDB) (eid : string) : Z * Z := default (0, 1) (versions d !! eid).

Definition boundary_event (sc : scope) (sid eid : string) (d : CDB) : option StayEvent :=
  e ← events (base d) !! eid;
  if bool_decide (event_scope e = sc) && bool_decide (event_stay_id e = Some sid)
     && bool_decide (processing_status e = APPLIED) && bool_decide (event_type e = "GO")
  then Some e else None.

(** The PMS time of the last honest event of the stay before this one. *)
Definition prior_fact (sc : scope) (sid eid : string) (seq : Z) (d : CDB) : option Time :=
  foldr (λ '(k, e) o,
    max_time (if same_site sc (event_scope e) && bool_decide (event_stay_id e = Some sid) && bool_decide (k ≠ eid)
                 && bool_decide (processing_status e = APPLIED) && bool_decide (event_type e ≠ "GO")
                 && negb (clock_suspect e) && ((event_versions d k).1 <? seq)
                 && match pms_timestamp_utc e with Some t => t <=? now_ | None => false end
              then pms_timestamp_utc e else None) o) None (map_to_list (events (base d))).

Definition boundaryFloor (sc : scope) (sid eid : string) (seq : Z) : TX CDB (option (Time * string)) :=
  row ← query (λ d, s ← stays (base d) !! sid; if same_site sc (stay_scope s) then Some s else None);
  match row with
  | None => fail ErrNoRows
  | Some s =>
      prior ← query (prior_fact sc sid eid seq);
      let floor := (λ a, (time_Add (a * Day) (- arrivalTolerance), "PMS_TIME_BEFORE_ARRIVAL")) <$> arrival s in
      let floor' := match prior, floor with
                    | None, _ => floor
                    | Some t, Some f => if After t f.1 then Some (t, "PMS_TIME_BEFORE_LAST_EVENT") else floor
                    | Some t, None => Some (t, "PMS_TIME_BEFORE_LAST_EVENT")
                    end in
      match floor' with
      | None => mret None
      | Some (f, reason) => capped ← query (λ _, Z.min f now_); mret (Some (capped, reason))
      end
  end.

(** (boundary, suspect, reason), with the versions of the event. *)
Definition deriveBoundary (sc : scope) (sid : string) (lastAppliedEvent : option string) (eid : string)
    : TX CDB (Time * bool * string * (Z * Z)) :=
  if empty eid then fail ErrInvalidBoundaryEvent
  else
    row ← query (λ d, (boundary_event sc sid eid d, event_versions d eid));
    match row with
    | (None, _) => fail ErrInvalidBoundaryEvent
    | (Some e, (seq, norm)) =>
        _ ← (match admission e with
             | LIVE => mret ()
             | RESYNC g =>
                 pub ← query (λ d, published_resync_generation <$> runtimes (base d) !! sc);
                 match pub with
                 | None => fail ErrInvalidBoundaryEvent
                 | Some p => if p <? g then fail ErrInvalidBoundaryEvent else mret ()
                 end
             end);
        if decide (lastAppliedEvent ≠ Some eid) then fail ErrInvalidBoundaryEvent
        else if clock_suspect e then mret (zeroTime, true, "EVENT_CLOCK_SUSPECT", (seq, norm))
        else match pms_timestamp_utc e with
             | None => mret (zeroTime, true, "PMS_TIME_ABSENT", (seq, norm))
             | Some ts =>
                 future ← query (λ _, now_ + boundaryFutureSkew <? ts);
                 if (future : bool) then mret (zeroTime, true, "PMS_TIME_IMPLAUSIBLE_FUTURE", (seq, norm))
                 else
                   floor ← boundaryFloor sc sid eid seq;
                   match floor with
                   | Some (f, reason) =>
                       if Before ts f then mret (f, true, reason, (seq, norm))
                       else mret (ts, false, "TRUSTED_PMS_CHECKOUT_TS", (seq, norm))
                   | None => mret (ts, false, "TRUSTED_PMS_CHECKOUT_TS", (seq, norm))
                   end
             end
    end.

(** ** Eligibility (eligibleOriginalAtBoundary, validAtBoundary) *)

Definition GRACE_MODE : string := "GRACE_AFTER_CHECKOUT".

(** An entitlement the stay held before the checkout. *)
Definition pre_checkout (sc : scope) (sid : string) (e : Entitlement) : bool :=
  bool_decide (ent_site e = sc.1) && bool_decide (ent_iface e = Some sc.2) && bool_decide (ent_stay e = Some sid)
  && bool_decide (end_mode e ≠ GRACE_MODE).

(** DISTINCT ON ... ORDER BY effective_at DESC, seq DESC over the live rows. *)
Definition state_at (b : Time) (l : list Transition) : option EntState :=
  to_state <$> foldl (λ o t, if effective_at t <=? b then
                               match o with
                               | Some u => if effective_at u <=? effective_at t then Some t else Some u
                               | None => Some t
                               end
                             else o) None (live_rows l).

Record eligibility := mkEligibility { entitlementID : string; eligible : bool; multiActive : bool }.

Definition validAtBoundary (id : string) (b : Time) : TX CDB bool :=
  row ← query (λ d, ents d !! id);
  match row with
  | None => fail ErrNoRows
  | Some e =>
      let quota := match data_quota_bytes e with Some q => Some q | None => plan_quota cat (ent_site e) (service_plan_revision_id e) end in
      if match window_ends_at e with None => true | Some w => b <? w end then
        match quota with
        | None => mret true
        | Some q =>
            used ← statement (λ d, u ← entitlement_usage_bytes id b d; z ← bigint (wm_up u + wm_down u); Ok (d, z));
            mret (negb (q <=? used))
        end
      else mret false
  end.

Definition eligibleOriginalAtBoundary (sc : scope) (sid : string) (b : Time) : TX CDB eligibility :=
  active ← query (λ d, omap (λ '(id, _), if decide (state_at b (hist d id) = Some ACTIVE) then Some id else None)
                         (rows (pre_checkout sc sid) (ents d)));
  match active with
  | [] => mret (mkEligibility "" false false)
  | [id] =>
      ok ← validAtBoundary id b;
      mret (if (ok : bool) then mkEligibility id true false else mkEligibility "" false false)
  | _ => mret (mkEligibility "" false true)
  end.

(** ** The writes *)

Fixpoint for_each {A} (l : list A) (f : A → TX CDB ()) : TX CDB () :=
  match l with [] => mret () | a :: l' => _ ← f a; for_each l' f end.

Definition terminateNonTerminalPreCheckout (sc : scope) (sid : string) (b : Time) (eligibleID : string) : TX CDB Z :=
  ids ← query (λ d, fst <$> rows (λ e, pre_checkout sc sid e && bool_decide (ent_status e ≠ TERMINATED)) (ents d));
  _ ← for_each ids (λ id,
        exec (terminate_entitlement_at_boundary now_ id b (if decide (id = eligibleID) then "CONVERTED" else "CHECKOUT")));
  mret (Z.of_nat (length ids)).

(** The authorisation interval contains the boundary. *)
Definition covers (b : Time) (i : Interval) : bool :=
  (authorized_at i <=? b) && match deauthorized_at i with None => true | Some u => b <? u end.
Definition authorized_then (b : Time) (d : CDB) (id dev : string) : bool :=
  existsb (covers b) (default [] (default ∅ (intervals d !! id) !! dev)).

Definition carried (x : EntDevice) : EntDevice :=
  mkEntDevice AUTHORIZED true None (first_authorized x) (last_authorized x).

Definition copy_devices (old new : string) (b : Time) (d : CDB) : res sql_error (CDB * Z) :=
  let cohort := filter (λ '(dev, x), ed_status x = AUTHORIZED ∧ authorized_then b d old dev = true)
                  (default ∅ (devices d !! old)) in
  check (bool_decide (default ∅ (devices d !! new) ##ₘ carried <$> cohort)) (DuplicateKey "entitlement_devices_pkey") ≫= λ _,
  Ok (set_devices d (<[new := (carried <$> cohort) ∪ default ∅ (devices d !! new)]> (devices d)) (intervals d),
      Z.of_nat (size cohort)).

Definition open_intervals (new : string) (b : Time) (d : CDB) : res sql_error CDB :=
  let ds := default ∅ (devices d !! new) in
  let old := default ∅ (intervals d !! new) in
  check (bool_decide (map_Forall (λ dev _, default [] (old !! dev) = []) ds))
    (Raised "device authorization seq must be contiguous") ≫= λ _,
  Ok (set_devices d (devices d) (<[new := ((λ _, [mkInterval b None]) <$> ds) ∪ old]> (intervals d))).

Definition boundary_sessions (old new : string) (b : Time) (d : CDB) : list string :=
  fst <$> rows (λ s, bool_decide (ss_ent s = old) && bool_decide (ss_state s = "active") && (started s <=? b)
                     && match ended s with None => true | Some u => b <? u end
                     && match default ∅ (devices d !! new) !! ss_dev s with Some x => grandfathered x | None => false end)
             (sessions d).

Definition grandfatherBoundaryDevices (old new : string) (b : Time) : TX CDB (Z * Z) :=
  gf ← statement (copy_devices old new b);
  _ ← exec (open_intervals new b);
  ids ← query (boundary_sessions old new b);
  _ ← for_each ids (λ sid, exec (rebind_session_entitlement sid new b));
  mret (gf, Z.of_nat (length ids)).

Fixpoint freeze_rows (b : Time) (ids : list string) (d : CDB) : res sql_error CDB :=
  match ids with
  | [] => Ok d
  | id :: ids' =>
      entitlement_usage_bytes id b d ≫= λ u,
      freeze_rows b ids' (set_watermarks d (match watermarks d !! (id, b) with
                                            | Some _ => watermarks d
                                            | None => <[(id, b) := u]> (watermarks d)
                                            end))
  end.
Definition freezeBoundaryWatermarks (sc : scope) (sid : string) (b : Time) : TX CDB () :=
  exec (λ d, freeze_rows b (fst <$> rows (pre_checkout sc sid) (ents d)) d).

(** What must not stay open: a pre-checkout entitlement other than the grace one. *)
Definition victim (sc : scope) (sid : string) (grace : option string) (d : CDB) (id : string) : bool :=
  match ents d !! id with
  | Some e => pre_checkout sc sid e && bool_decide (grace ≠ Some id)
  | None => false
  end.

Definition is_open (i : Interval) : bool := bool_decide (deauthorized_at i = None).
Definition close_interval (b : Time) (i : Interval) : Interval :=
  if is_open i then mkInterval (authorized_at i) (Some (Z.max b (authorized_at i))) else i.
Definition close_intervals (b : Time) (l : list Interval) : list Interval := close_interval b <$> l.
Definition close_all (b : Time) (m : gmap string (list Interval)) : gmap string (list Interval) := close_intervals b <$> m.
Definition disconnected (x : EntDevice) : EntDevice :=
  mkEntDevice DISCONNECTED (grandfathered x) (Some "CHECKOUT_BOUNDARY") (first_authorized x) (last_authorized x).

Definition open_on (d : CDB) (id dev : string) : bool :=
  existsb is_open (default [] (default ∅ (intervals d !! id) !! dev)).

Definition close_devices (sc : scope) (sid : string) (grace : option string) (b : Time) (d : CDB) : res sql_error (CDB * Z) :=
  let v := victim sc sid grace d in
  Ok (set_devices d
        (map_imap (λ id m, Some (if v id then map_imap (λ dev x, Some (if open_on d id dev then disconnected x else x)) m else m))
           (devices d))
        (map_imap (λ id m, Some (if v id then close_all b m else m)) (intervals d)),
      sum_of (λ '(id, m), if v id then Z.of_nat (size (filter (λ '(dev, _), open_on d id dev = true) m)) else 0)
        (map_to_list (devices d))).

Definition ended_at (b : Time) (s : Session) : Session :=
  mkSession (ss_site s) (ss_ent s) (ss_dev s) "ended" (started s) (Some (Z.max b (started s))) (Some "CHECKOUT_BOUNDARY").

Definition end_sessions (sc : scope) (sid : string) (grace : option string) (b : Time) (d : CDB) : res sql_error (CDB * Z) :=
  let hit s := bool_decide (ss_state s = "active") && victim sc sid grace d (ss_ent s) in
  Ok (set_sessions d
        ((λ s, if hit s then ended_at b s else s) <$> sessions d)
        (map_imap (λ k l, Some (match sessions d !! k with
                                | Some s => if hit s then p3_session_close_binding s (ended_at b s) l else l
                                | None => l
                                end)) (bindings d)),
      Z.of_nat (size (filter (λ '(_, s), hit s = true) (sessions d)))).

Definition revokeAtBoundary (sc : scope) (sid : string) (grace : option string) (b : Time) : TX CDB (Z * Z) :=
  dr ← statement (close_devices sc sid grace b);
  sr ← statement (end_sessions sc sid grace b);
  mret (dr, sr).

Record createGraceArgs := mkCreateGraceArgs {
  cg_episode : Z;
  cg_pkgRev : string;
  cg_svcRev : string;
  cg_tam : string;
  cg_trigger : string;
  cg_policy : Policy;
  cg_policyVersion : string;
  cg_emergency : bool;
  cg_boundary : Time;
  cg_oldEnt : option string
}.

Definition episode_triggers : list string := ["CHECKOUT_GRACE"; "EMERGENCY_GRACE"; "POST_STAY_CONVERSION"].

Definition insert_purchase (id : string) (p : Purchase) (d : CDB) : res sql_error CDB :=
  check (bool_decide (purchases d !! id = None)) (DuplicateKey "purchases_pkey") ≫= λ _,
  check (bool_decide (pu_trigger p ≠ "POST_STAY_CONVERSION")) (Raised "POST_STAY_CONVERSION_RETIRED") ≫= λ _,
  check (bool_decide (pu_trigger p ∉ episode_triggers) || bool_decide (checkout_episode p = None)
         || negb (exists_row (λ _ q, bool_decide (pu_trigger q ∈ episode_triggers) && bool_decide (pu_stay q = pu_stay p)
                                     && bool_decide (checkout_episode q = checkout_episode p)) (purchases d)))
    (DuplicateKey "one_conversion_per_episode") ≫= λ _,
  Ok (set_purchases d (<[id := p]> (purchases d))).

Definition createGrace (sc : scope) (sid : string) (a : createGraceArgs) : TX CDB string :=
  pid ← gen_random_uuid;
  _ ← exec (insert_purchase pid (mkPurchase sc.1 (cg_pkgRev a) sc.2 sid (cg_trigger a) 0 "GRANTED" (Some (cg_episode a))));
  eid ← gen_random_uuid;
  _ ← exec (insert_entitlement eid
        (mkEntitlement sc.1 (Some sc.2) (Some sid) pid (cg_policyVersion a, cg_policy a) (cg_svcRev a) (cg_pkgRev a) (cg_tam a)
           GRACE_MODE (Some (cg_boundary a + DurationSeconds (cg_policy a) * Second)) ACTIVE None None (cg_emergency a)
           (cg_oldEnt a) (Some (cg_boundary a)) None));
  _ ← exec (apply_entitlement_transition now_ eid ACTIVE (cg_boundary a) "GRACE_CONVERSION");
  mret eid.

Definition nilIfEmpty (s : string) : option string := if empty s then None else Some s.
Definition boundedReason (r : string) : string :=
  if empty r then "UNSPECIFIED" else if 64 <? len r then String.substring 0 64 r else r.

(** *** The audit row *)

Definition cga_coherent (a : Audit) : bool :=
  (bool_decide (au_trigger a = "CHECKOUT_GRACE") && negb (au_emergency a)
   && bool_decide (au_policy_version a = "CHECKOUT_GRACE_V1") && bool_decide (alert_code a = None)
   && bool_decide (is_Some (grace_entitlement_id a)))
  || (bool_decide (au_trigger a = "EMERGENCY_GRACE") && au_emergency a
      && bool_decide (au_policy_version a = "EMERGENCY_GRACE_V1")
      && bool_decide (alert_code a = Some "CHECKOUT_GRACE_CONFIG_INVALID") && bool_decide (is_Some (grace_entitlement_id a)))
  || (bool_decide (au_trigger a = "NO_GRACE") && negb (au_emergency a) && bool_decide (au_policy_version a = "NONE")
      && bool_decide (alert_code a = None) && bool_decide (grace_entitlement_id a = None)).

Definition p3_checkout_audit_provenance (sc : scope) (sid : string) (episode : Z) (a : Audit) (d : CDB) : res sql_error () :=
  (match boundary_event_id a with
   | None => Ok ()
   | Some eid =>
       match events (base d) !! eid with
       | None => Err (Raised "boundary_event_id does not reference a stay_event")
       | Some e =>
           check (bool_decide (event_scope e = sc) && bool_decide (event_stay_id e = Some sid))
             (Raised "boundary event scope must match the audit") ≫= λ _,
           check (bool_decide (event_type e = "GO")) (Raised "boundary event must be the typed checkout (GO) event") ≫= λ _,
           check (bool_decide (processing_status e = APPLIED)) (Raised "boundary event must be APPLIED") ≫= λ _,
           check (bool_decide (boundary_event_seq a = Some (event_versions d eid).1)
                  && bool_decide (boundary_norm a = Some (event_versions d eid).2))
             (Raised "audit boundary seq/normalization must match the source event")
       end
   end) ≫= λ _,
  match grace_entitlement_id a with
  | None => Ok ()
  | Some g =>
      match ents d !! g with
      | None => Err (Raised "grace_entitlement_id does not reference an entitlement")
      | Some e =>
          check (bool_decide (ent_site e = sc.1) && bool_decide (ent_iface e = Some sc.2) && bool_decide (ent_stay e = Some sid))
            (Raised "grace entitlement scope must match the audit") ≫= λ _,
          check (bool_decide ((purchases d !! purchase_id e ≫= checkout_episode) = Some episode))
            (Raised "grace purchase checkout_episode must equal audit lifecycle_version")
      end
  end.

Definition insert_audit (sc : scope) (sid : string) (episode : Z) (a : Audit) (d : CDB) : res sql_error CDB :=
  let key := (sc.1.1, sc.1.2, sid, episode) in
  p3_checkout_audit_provenance sc sid episode a d ≫= λ _,
  check (bool_decide (is_Some (boundary_event_id a))) (CheckFailed "boundary_event_id NOT NULL") ≫= λ _,
  check (cga_coherent a) (CheckFailed "cga_coherent") ≫= λ _,
  check (bounded_code (boundary_reason a) && bounded_code (reason_code a) && bounded_code (au_policy_version a))
    (CheckFailed "checkout_grace_audit codes") ≫= λ _,
  check (0 <? episode) (CheckFailed "checkout_grace_audit_lifecycle_version_check") ≫= λ _,
  check (bool_decide (audits d !! key = None)) (DuplicateKey "checkout_grace_audit_lifecycle") ≫= λ _,
  Ok (set_audits d (<[key := a]> (audits d))
        (match alert_code a with Some _ => (key, reason_code a) :: alerts d | None => alerts d end)).

Definition writeAudit (sc : scope) (sid : string) (episode : Z) (a : Audit) : TX CDB () := exec (insert_audit sc sid episode a).

(** ** Configuration *)

Definition readEmergencyCatalog (sc : scope) : TX CDB (string * string * string) :=
  health ← query (λ _, emergency_grace_health cat sc.1.1 sc.1.2);
  if decide (health ≠ "OK") then fail ErrEmergencyCatalogUnavailable
  else
    row ← query (λ _, emergency_package cat sc.1.1 sc.1.2);
    match row with None => fail ErrEmergencyCatalogUnavailable | Some r => mret r end.

(** An error of the query answers no, and leaves the transaction aborted. *)
Definition validateConfiguredGraceExact (sc : scope) (pkgRev : string) (pol : Policy) : TX CDB bool := λ t,
  match query (λ _, grace_package_matches_policy cat sc.1.1 sc.1.2 pkgRev pol) t with
  | (t', Ok b) => (t', Ok b)
  | (t', Err _) => (t', Ok false)
  end.

Definition lockGraceConfig (sc : scope) : TX CDB (Policy * string * bool * Z) :=
  row ← query (λ d, grace_configs d !! sc.1);
  match row with
  | None => mret (zeroPolicy, "", false, 0)
  | Some c =>
      let pkg := default "" (gc_package c) in
      match gc_duration c, gc_down c, gc_up c, gc_quota c, gc_device_limit c, gc_device_policy c with
      | Some dur, Some down, Some up, Some quota, Some lim, Some kind =>
          mret (mkPolicy dur down up quota lim kind false, pkg, true, config_version c)
      | _, _, _, _, _, _ => mret (zeroPolicy, pkg, false, config_version c)
      end
  end.

Definition p3_after_checkout_enabled (sc : scope) (d : CDB) : bool :=
  default true (after_checkout_enabled <$> grace_configs d !! sc.1).

(** ** The conversion (convertTx) *)

Record Result := mkResult {
  res_CheckedOut : bool;
  AlreadyProcessed : bool;
  GraceCreated : bool;
  ManualReview : bool;
  res_IsEmergency : bool;
  NewEntitlementID : string;
  OldEntitlementID : string;
  res_Reason : string;
  BoundaryReason : string;
  BoundaryClockSuspect : bool;
  ConfigVersion : Z;
  DevicesGrandfathered : Z;
  SessionsRebound : Z;
  DevicesRevoked : Z;
  SessionsRevoked : Z;
  EntitlementsEnded : Z;
  res_Trigger : string;
  ConfigInvalidAlert : bool
}.

Definition on_stay (f : DB → res sql_error DB) (d : CDB) : res sql_error CDB :=
  f (base d) ≫= λ b, Ok (set_base d b).

(** The stay of the scope, locked. *)
Definition scoped_stay (sc : scope) (sid : string) (d : CDB) : option Stay :=
  s ← stays (base d) !! sid; if decide (stay_scope s = sc) then Some s else None.

(** What is known of the boundary after the stay's row was written. *)
Record Boundary := mkBoundary {
  bd_at : Time;
  bd_suspect : bool;
  bd_reason : string;
  bd_versions : option (Z * Z);
  bd_checkedOut : bool
}.

Definition check_out (sc : scope) (sid : string) (s : Stay) (eid : string) : TX CDB (option Boundary) :=
  match status s with
  | IN_HOUSE =>
      '(b, suspect, reason, v) ← deriveBoundary sc sid (last_applied_event_id s) eid;
      let at_ := if suspect && IsZero b then now_ else b in
      _ ← exec (on_stay (update_stay sid (checked_out at_)));
      mret (Some (mkBoundary at_ suspect reason (Some v) true))
  | CHECKED_OUT =>
      let at_ := default now_ (effective_checkout_at s) in
      _ ← exec (on_stay (update_stay sid (checked_out at_)));
      mret (Some (mkBoundary at_ (bool_decide (effective_checkout_at s = None)) "REENTRY_ESTABLISHED_BOUNDARY" None false))
  | _ => mret None
  end.

Definition audit_of (sc : scope) (bd : Boundary) (eid : string) (trigger : string) (emergency : bool) (version : string)
    (alert : option string) (reason : string) (grace : option string) (configVersion : Z) : Audit :=
  mkAudit sc.2 trigger emergency version alert reason grace (nilIfEmpty eid) (fst <$> bd_versions bd) (snd <$> bd_versions bd)
    (boundedReason (bd_reason bd)) configVersion (bd_at bd) (bd_suspect bd).

(** The grace entitlement of the decision, when it creates one: its identifier,
    trigger and version, and the devices and sessions carried over. *)
Definition grant (sc : scope) (sid : string) (episode : Z) (bd : Boundary) (c : Conversion) (gpkg oldID : string)
    : TX CDB (string * string * string * Z * Z) :=
  '(pkgRev, svcRev, tam) ← (if cv_IsEmergency c then readEmergencyCatalog sc
     else
       row ← query (λ _, package_plan cat sc.1.1 sc.1.2 gpkg);
       match row with None => fail ErrNoRows | Some (svc, tam) => mret (gpkg, svc, tam) end);
  let trigger := if cv_IsEmergency c then "EMERGENCY_GRACE" else "CHECKOUT_GRACE" in
  let version := if cv_IsEmergency c then emergencyGracePolicyVersion else checkoutGracePolicyVersion in
  new ← createGrace sc sid (mkCreateGraceArgs episode pkgRev svcRev tam trigger (cv_Policy c) version (cv_IsEmergency c)
                              (bd_at bd) (nilIfEmpty oldID));
  '(gf, sb) ← (if empty oldID then mret (0, 0) else grandfatherBoundaryDevices oldID new (bd_at bd));
  mret (new, trigger, version, gf, sb).

(** An episode that is not decided yet. *)
Definition convert_episode (sc : scope) (sid : string) (episode : Z) (bd : Boundary) (eid : string) : TX CDB Result :=
  '(pol, gpkg, enabled, configVersion) ← lockGraceConfig sc;
  switchOn ← query (p3_after_checkout_enabled sc);
  elig ← eligibleOriginalAtBoundary sc sid (bd_at bd);
  ended ← terminateNonTerminalPreCheckout sc sid (bd_at bd) (entitlementID elig);
  if multiActive elig then
    let reason := "MULTIPLE_ACTIVE_AT_BOUNDARY_MANUAL_REVIEW" in
    _ ← writeAudit sc sid episode (audit_of sc bd eid "NO_GRACE" false "NONE" None reason None configVersion);
    mret (mkResult (bd_checkedOut bd) false false true false "" (entitlementID elig) reason (bd_reason bd) (bd_suspect bd)
            configVersion 0 0 0 0 ended "" false)
  else
    cfgValid ← (if empty gpkg then mret false else validateConfiguredGraceExact sc gpkg pol);
    let c := DecideConversion (mkConversionRequest (eligible elig) false pol (ValidatePolicy pol enabled cfgValid) (negb switchOn)) in
    '(new, trigger, version, gf, sb) ←
      (if Create c then grant sc sid episode bd c gpkg (entitlementID elig) else mret ("", "NO_GRACE", "NONE", 0, 0));
    let grace := nilIfEmpty new in
    _ ← freezeBoundaryWatermarks sc sid (bd_at bd);
    '(dr, sr) ← revokeAtBoundary sc sid grace (bd_at bd);
    _ ← writeAudit sc sid episode
          (audit_of sc bd eid trigger (cv_IsEmergency c) version
             (if cv_IsEmergency c then Some "CHECKOUT_GRACE_CONFIG_INVALID" else None)
             (boundedReason (cv_Reason c)) grace configVersion);
    mret (mkResult (bd_checkedOut bd) false (Create c) false (cv_IsEmergency c) new (entitlementID elig) (cv_Reason c)
            (bd_reason bd) (bd_suspect bd) configVersion gf sb dr sr ended (if Create c then trigger else "") (Create c && cv_IsEmergency c)).

Definition convertTx (sc : scope) (sid eid : string) : TX CDB Result :=
  _ ← exec Ok; _ ← exec Ok; _ ← exec Ok; _ ← exec Ok;       (* writerguard.Open, four capabilities *)
  row ← query (scoped_stay sc sid);
  match row with
  | None => fail ErrStayNotFound
  | Some s =>
      bd ← check_out sc sid s eid;
      match bd with
      | None => mret (mkResult false false false false false "" "" "STAY_NOT_CHECKED_OUT" "" false 0 0 0 0 0 0 "" false)
      | Some bd =>
          orig ← query (λ d, audits d !! (sc.1.1, sc.1.2, sid, lifecycle_version s) ≫= boundary_event_id);
          match orig with
          | Some o =>
              if decide (o ≠ eid) then fail ErrConflictingCheckoutEvent
              else mret (mkResult (bd_checkedOut bd) true false false false "" "" "ALREADY_PROCESSED_THIS_EPISODE"
                           (bd_reason bd) (bd_suspect bd) 0 0 0 0 0 0 "" false)
          | None => convert_episode sc sid (lifecycle_version s) bd eid
          end
      end
  end.

(** COMMIT runs the deferred trigger on the entitlements the transaction wrote. *)
Definition deferred_ok (before after : CDB) : bool :=
  bool_decide (map_Forall (λ id e, ents before !! id = Some e ∨ coherent after id e = true) (ents after)).

Definition ConvertAtCheckout (c : Connection) (sc : scope) (sid eid : string) (d : CDB) : CDB * res error Result :=
  if begin_fails c then (d, Err (Sql ConnectionLost))
  else match convertTx sc sid eid (mkTx d false (faults c) (uuids c) 0) with
       | (_, Err e) => (d, Err e)
       | (t, Ok r) =>
           if deferred_ok d (tx_db t) then
             match commit (fate c) d t with
             | (d', Ok _) => (d', Ok r)
             | (d', Err e) => (d', Err e)
             end
           else (d, Err (Sql (Raised "entitlement status is not backed by its latest transition")))
       end.
End converter.
