(* ===== verification/CheckoutProofs.v ===== *)
(** What a checkout leaves behind (Checkout): no access bought before it, at most
    one grace entitlement for the devices that were authorised at the boundary, a
    boundary that is never invented, a history that backs every status; and the
    contract the stay engine relies on. *)
From S2P Require Import Prelude GoStrings Pg StayTables StayEngine Grace Checkout.

(** ** Successful runs *)

Definition runs {D A} (m : TX D A) (d : D) (a : A) (d' : D) : Prop :=
  ∃ t t', tx_db t = d ∧ m t = (t', Ok a) ∧ tx_db t' = d'.

Section runs.
Context {D : Type}.

Lemma runs_ret {A} (a b : A) (d d' : D) : runs (mret a) d b d' → b = a ∧ d' = d.
Proof. by intros (t & t' & <- & [= <- <-] & <-). Qed.

Lemma runs_fail {A} e (b : A) (d d' : D) : runs (fail e) d b d' → False.
Proof. by intros (t & t' & <- & ? & <-). Qed.

Lemma runs_bind {A B} (m : TX D A) (f : A → TX D B) d b d' :
  runs (m ≫= f) d b d' → ∃ a d1, runs m d a d1 ∧ runs (f a) d1 b d'.
Proof.
  intros (t & t' & <- & H & <-). unfold mbind, ST_bind in H. destruct (m t) as [t1 [a|e]] eqn:E; [|done].
  exists a, (tx_db t1). split; [by exists t, t1|by exists t1, t'].
Qed.

Lemma runs_statement {A} (f : D → res sql_error (D * A)) d a d' : runs (statement f) d a d' → f d = Ok (d', a).
Proof.
  intros (t & t' & <- & H & <-). unfold statement in H. destruct (tx_aborted t), (next_statement_fails t); try done.
  destruct (f (tx_db t)) as [[x y]|e]; [|done]. by injection H as <- <-.
Qed.

Lemma runs_exec (f : D → res sql_error D) d u d' : runs (exec f) d u d' → f d = Ok d'.
Proof. intros H%runs_statement. destruct (f d); [|done]. by injection H as <- _. Qed.

Lemma runs_query {A} (f : D → A) d a d' : runs (query f) d a d' → a = f d ∧ d' = d.
Proof. by intros [= -> ->]%runs_statement. Qed.

Lemma runs_uuid (d : D) u d' : runs gen_random_uuid d u d' → u ≠ "" ∧ d' = d.
Proof. intros (t & t' & <- & [= <- <-] & <-). split; [apply uuid_text_ne|done]. Qed.
End runs.

(** Takes a successful run of a sequence apart. *)
Ltac runs_step H :=
  match type of H with
  | runs (mret _) _ _ _ => apply runs_ret in H; destruct H as [? ?]; simplify_eq
  | runs (fail _) _ _ _ => by apply runs_fail in H
  | runs (exec _) _ _ _ => apply runs_exec in H
  | runs (statement _) _ _ _ => apply runs_statement in H
  | runs (query _) _ _ _ => apply runs_query in H; destruct H as [? ?]; simplify_eq
  | runs gen_random_uuid _ _ _ => apply runs_uuid in H; destruct H as [? ?]; simplify_eq
  | runs (mbind _ _) _ _ _ =>
      let a := fresh "a" in let d := fresh "d" in let Hm := fresh "Hm" in
      apply runs_bind in H; destruct H as (a & d & Hm & H); cbv beta in H; try runs_step Hm
  end.

Ltac checks H := repeat (apply res_bind_Ok in H as ([] & ?%check_Ok & H)).

(** ** Statements on entitlements *)

Lemma update_entitlement_ok id f d d' :
  update_entitlement id f d = Ok d' →
  (ents d !! id = None ∧ d' = d) ∨ (∃ e, ents d !! id = Some e ∧ d' = set_ents d (<[id := f e]> (ents d))).
Proof.
  unfold update_entitlement. destruct (ents d !! id) as [e|]; [|by intros [= <-]; left].
  intros H. apply res_bind_Ok in H as (? & _ & H). apply res_bind_Ok in H as (? & _ & H).
  injection H as <-. right. by exists e.
Qed.

Lemma append_transition_ok id n d d' :
  append_transition id n d = Ok d' → d' = set_history d (<[id := (hist d id ++ [n])%list]> (history d)).
Proof. intros H. apply res_bind_Ok in H as (? & _ & H). by injection H as <-. Qed.

Lemma head_live_snoc l n : superseded_by n = None → head_live (l ++ [n])%list = Some n.
Proof.
  intros Hn. unfold head_live, live_rows. rewrite filter_app, filter_cons_True by done. by rewrite filter_nil, last_snoc.
Qed.

Lemma hist_insert d id l x : hist (set_history d (<[id := l]> (history d))) x = if decide (x = id) then l else hist d x.
Proof.
  unfold hist. cbn. destruct (decide (x = id)) as [->|]; [by rewrite lookup_insert_eq|by rewrite lookup_insert_ne].
Qed.

(** The same grant in another state. *)
Definition same_terms (e e' : Entitlement) : Prop := ∃ s r a t, e' = with_status s r a t e.

Lemma same_terms_trans e1 e2 e3 : same_terms e1 e2 → same_terms e2 e3 → same_terms e1 e3.
Proof. intros (s & r & a & t & ->) (s' & r' & a' & t' & ->). by exists s', r', a', t'. Qed.

Lemma pre_checkout_terms sc sid e e' : same_terms e e' → pre_checkout sc sid e' = pre_checkout sc sid e.
Proof. by intros (s & r & a & t & ->). Qed.

(** What ending entitlements does: only their rows and histories change, every
    changed row is TERMINATED and its history says so. *)
Definition row_ended (d d' : CDB) (id : string) : Prop :=
  (ents d' !! id = ents d !! id ∧ hist d' id = hist d id) ∨
  (∃ e e', ents d !! id = Some e ∧ ents d' !! id = Some e' ∧ same_terms e e' ∧ ent_status e' = TERMINATED ∧
     coherent d' id e' = true).

Definition closes (d d' : CDB) : Prop :=
  d' = set_ents (set_history d (history d')) (ents d') ∧ ∀ id, row_ended d d' id.

#[local] Instance closes_refl : Reflexive closes.
Proof. intros d. split; [by destruct d|]. intros id. by left. Qed.

#[local] Instance closes_trans : Transitive closes.
Proof.
  intros d1 d2 d3 [E1 H1] [E2 H2]. split; [rewrite E2, E1; by destruct d1|]. intros id.
  destruct (H2 id) as [[HE HH]|(e2 & e3 & He2 & He3 & Ht & Hs & Hc)].
  - destruct (H1 id) as [[HE' HH']|(e & e' & He & He' & Ht & Hs & Hc)]; [left; split; congruence|].
    right. exists e, e'. split_and!; try done; [congruence|]. unfold coherent in *. by rewrite HH.
  - right. destruct (H1 id) as [[HE' HH']|(e & e' & He & He' & Ht' & Hs' & Hc')].
    + exists e2, e3. split_and!; try done. congruence.
    + exists e, e3. rewrite He' in He2. injection He2 as <-. split_and!; try done. by eapply same_terms_trans.
Qed.

Lemma closes_terminated d d' id e :
  closes d d' → ents d !! id = Some e → ent_status e = TERMINATED →
  ∃ e', ents d' !! id = Some e' ∧ same_terms e e' ∧ ent_status e' = TERMINATED.
Proof.
  intros [_ H] He Hs. destruct (H id) as [[HE _]|(e0 & e' & He0 & He' & Ht & Hs' & _)].
  - exists e. split_and!; [congruence| |done]. by exists (ent_status e), (terminal_reason e), (activated_at e), (terminated_at e); destruct e.
  - exists e'. rewrite He0 in He. by injection He as ->.
Qed.

Lemma terminate_ok now_ id b reason d d' :
  terminate_entitlement_at_boundary now_ id b reason d = Ok d' →
  closes d d' ∧ ∃ e', ents d' !! id = Some e' ∧ ent_status e' = TERMINATED.
Proof.
  unfold terminate_entitlement_at_boundary. intros H. checks H.
  destruct (ents d !! id) as [e|] eqn:He; [|done]. destruct (decide (ent_status e = TERMINATED)) as [Hs|Hs].
  { injection H as <-. split; [done|by exists e]. }
  set (l1 := supersede_later b (hist d id)) in *.
  apply res_bind_Ok in H as (d1 & H1 & H). apply res_bind_Ok in H as (d2 & H2 & H).
  apply update_entitlement_ok in H1 as [[H1 _]|(e0 & He0 & ->)]; [cbn in H1; congruence|].
  cbn in He0. rewrite He in He0. injection He0 as <-. apply append_transition_ok in H2 as ->.
  set (n := mkTransition _ _ _ _ _ _ _) in *. set (e1 := with_status _ _ _ _ e) in *.
  assert (HH : hist d' id = (l1 ++ [n])%list ∧ (∀ x, x ≠ id → hist d' x = hist d x) ∧
    (∃ a t, ents d' = <[id := with_status TERMINATED (terminal_reason e1) a t e1]> (ents d)) ∧
    d' = set_ents (set_history d (history d')) (ents d')).
  { apply update_entitlement_ok in H as [[H _]|(e2 & He2 & ->)]; cbn in *.
    - by rewrite lookup_insert_eq in H.
    - rewrite lookup_insert_eq in He2. injection He2 as <-. unfold hist. cbn. rewrite !lookup_insert_eq. cbn. split_and!; [done| |eexists _, _; by rewrite insert_insert_eq|done].
      intros x Hx. by rewrite !lookup_insert_ne. }
  destruct HH as (HH & HO & (a & t & HE) & HF). split.
  - split; [done|]. intros x. destruct (decide (x = id)) as [->|Hx].
    + right. eexists e, _. rewrite HE, lookup_insert_eq. split_and!; [done|done|by repeat eexists|done|].
      unfold coherent. rewrite HH, head_live_snoc by done. by apply bool_decide_true.
    + left. rewrite HE, lookup_insert_ne by done. auto.
  - eexists. by rewrite HE, lookup_insert_eq.
Qed.

Section converter.
Context {MR : MapRange} (cat : Catalog) (now_ : Time) (hour_of : Time → Time).
Abbreviation convertTx := (Checkout.convertTx cat now_ hour_of).
Abbreviation convert_episode := (Checkout.convert_episode cat now_ hour_of).
Abbreviation ConvertAtCheckout := (Checkout.ConvertAtCheckout cat now_ hour_of).

Lemma elem_of_selected {A} (p : A → bool) (m : gmap string A) k a : (k, a) ∈ rows p m ↔ m !! k = Some a ∧ p a = true.
Proof.
  unfold rows. rewrite list_elem_of_omap. split.
  - intros (k' & _ & H). destruct (m !! k') as [a'|] eqn:E; [|done]. destruct (p a') eqn:Ep; [|done]. by simplify_eq.
  - intros [Hk Hp]. exists k. rewrite elem_of_range, elem_of_dom, Hk. split; [by eexists|by rewrite Hp].
Qed.

Lemma elem_of_row_ids {A} (p : A → bool) (m : gmap string A) k : k ∈ fst <$> rows p m ↔ ∃ a, m !! k = Some a ∧ p a = true.
Proof.
  rewrite list_elem_of_fmap. split.
  - intros ([k' a] & -> & H%elem_of_selected). by exists a.
  - intros (a & H). exists (k, a). split; [done|by apply elem_of_selected].
Qed.

(** ** Ending what was bought before *)

Lemma terminate_each b f ids d u d' :
  runs (for_each ids (λ id, exec (terminate_entitlement_at_boundary now_ id b (f id)))) d u d' →
  closes d d' ∧ ∀ id, id ∈ ids → ∃ e', ents d' !! id = Some e' ∧ ent_status e' = TERMINATED.
Proof.
  revert d. induction ids as [|id ids IH]; intros d H; cbn [for_each] in H.
  - runs_step H. split; [done|]. by intros id ?%elem_of_nil.
  - runs_step H. apply terminate_ok in Hm as [H1 (e & He & Hs)]. destruct (IH _ H) as [H2 H3].
    split; [by etrans|]. intros x [->|Hx]%elem_of_cons; [|auto].
    destruct (closes_terminated _ _ _ _ H2 He Hs) as (e' & He' & _ & Hs'). by exists e'.
Qed.

Lemma terminated_pre_checkout sc sid b old d n d' :
  runs (terminateNonTerminalPreCheckout now_ sc sid b old) d n d' →
  closes d d' ∧ ∀ id e, ents d' !! id = Some e → pre_checkout sc sid e = true → ent_status e = TERMINATED.
Proof.
  unfold terminateNonTerminalPreCheckout. intros H. runs_step H. runs_step H. apply terminate_each in Hm as [HC HT].
  runs_step H. split; [done|]. intros id e He Hp. destruct (decide (ent_status e = TERMINATED)) as [|Hs]; [done|].
  destruct HC as [_ HC]. destruct (HC id) as [[HE _]|(e0 & e1 & _ & He1 & _ & Hs1 & _)]; [|congruence].
  destruct (HT id) as (e' & He' & Hs'); [|congruence].
  apply elem_of_row_ids. exists e. rewrite <- HE, He. split; [done|]. rewrite Hp. by apply bool_decide_eq_true.
Qed.

(** ** The grace entitlement *)

Definition grace_row (sc : scope) (sid pid : string) (a : createGraceArgs) : Entitlement :=
  mkEntitlement sc.1 (Some sc.2) (Some sid) pid (cg_policyVersion a, cg_policy a) (cg_svcRev a) (cg_pkgRev a) (cg_tam a)
    GRACE_MODE (Some (cg_boundary a + DurationSeconds (cg_policy a) * Second)) ACTIVE None None (cg_emergency a)
    (cg_oldEnt a) (Some (cg_boundary a)) None.

Definition grace_purchase (sc : scope) (sid : string) (a : createGraceArgs) : Purchase :=
  mkPurchase sc.1 (cg_pkgRev a) sc.2 sid (cg_trigger a) 0 "GRANTED" (Some (cg_episode a)).

Lemma createGrace_ok sc sid a d new d' :
  runs (createGrace now_ sc sid a) d new d' →
  ∃ pid n, new ≠ "" ∧ insert_purchase pid (grace_purchase sc sid a) d = Ok (set_purchases d (<[pid := grace_purchase sc sid a]> (purchases d))) ∧
    ents d !! new = None ∧ superseded_by n = None ∧ to_state n = ACTIVE ∧
    entitlement_checks new (grace_row sc sid pid a) d = Ok () ∧
    d' = set_history (set_ents (set_purchases d (<[pid := grace_purchase sc sid a]> (purchases d)))
                        (<[new := grace_row sc sid pid a]> (ents d)))
           (<[new := (hist d new ++ [n])%list]> (history d)).
Proof.
  unfold createGrace. intros H. do 5 runs_step H. runs_step H.
  rename Hm into HP, Hm0 into HE, Hm1 into HA.
  fold (grace_purchase sc sid a) in HP. fold (grace_row sc sid a0 a) in HE. pose proof HP as HP'.
  unfold insert_purchase in HP. checks HP. injection HP as <-.
  unfold insert_entitlement in HE. apply res_bind_Ok in HE as ([] & Hfresh%check_Ok & HE). apply bool_decide_eq_true in Hfresh.
  apply res_bind_Ok in HE as ([] & _ & HE). apply res_bind_Ok in HE as ([] & Hck & HE). apply res_bind_Ok in HE as ([] & _ & HE).
  injection HE as <-. unfold apply_entitlement_transition in HA. apply res_bind_Ok in HA as ([] & _ & HA). cbn in HA.
  rewrite lookup_insert_eq in HA. apply res_bind_Ok in HA as ([] & _ & HA). apply res_bind_Ok in HA as (d1 & HU & HA).
  apply update_entitlement_ok in HU as [[HU _]|(e & He & ->)]; cbn in *; [by rewrite lookup_insert_eq in HU|].
  rewrite lookup_insert_eq in He. injection He as <-. apply append_transition_ok in HA as ->. cbn.
  eexists a0, _. split_and!; [done|done|done| | |exact Hck|rewrite insert_insert_eq; reflexivity]; done.
Qed.

(** ** Devices and sessions *)

Definition rebound (id : string) (s : Session) : Session :=
  mkSession (ss_site s) id (ss_dev s) (ss_state s) (started s) (ended s) (end_reason s).

(** The tables that moving devices and sessions leaves alone. *)
Definition same_books (d d' : CDB) : Prop :=
  base d' = base d ∧ versions d' = versions d ∧ ents d' = ents d ∧ history d' = history d ∧ purchases d' = purchases d ∧
  audits d' = audits d.

#[local] Instance same_books_refl : Reflexive same_books.
Proof. done. Qed.
#[local] Instance same_books_trans : Transitive same_books.
Proof. unfold same_books. intros x y z. naive_solver congruence. Qed.

Lemma reconcile_frame id d : ∃ y z, p6_reconcile_crossing_checkpoint id d = set_accounting d (folded d) y z.
Proof.
  unfold p6_reconcile_crossing_checkpoint. cbv zeta. case_match; [by exists (progress d), (integrity d); destruct d|].
  case_match; [by eexists _, _|by exists (progress d), (integrity d); destruct d].
Qed.

Lemma charge_frame sid id site b d : ∃ x y z, charge_folded cat now_ hour_of sid id site b d = set_accounting d x y z.
Proof.
  unfold charge_folded. destruct (_ && _); [|by exists (folded d), (progress d), (integrity d); destruct d].
  destruct (hour_tier _ _ _) as [hb hn]. cbv zeta. destruct (0 <? _); [|by eexists _, _, _].
  edestruct reconcile_frame as (y & z & ->). by eexists _, y, z.
Qed.

Lemma rebind_ok sid id b d d' :
  rebind_session_entitlement cat now_ hour_of sid id b d = Ok d' →
  ∃ s, sessions d !! sid = Some s ∧ sessions d' = <[sid := rebound id s]> (sessions d) ∧ same_books d d' ∧
    devices d' = devices d ∧ intervals d' = intervals d.
Proof.
  unfold rebind_session_entitlement. destruct (sessions d !! sid) as [s|]; [|done]. intros H.
  repeat (apply res_bind_Ok in H as ([] & _ & H)). injection H as <-. fold (rebound id s).
  destruct (charge_frame sid id (ss_site s) b
    (set_sessions d (<[sid := rebound id s]> (sessions d))
       (<[sid := (((λ b0, if open_binding b0 then close_binding b b0 else b0) <$> default [] (bindings d !! sid))
                  ++ [mkBinding id b None])%list]> (bindings d)))) as (x & y & z & ->).
  by exists s.
Qed.

Lemma rebind_each new b ids d u d' :
  runs (for_each ids (λ sid, exec (rebind_session_entitlement cat now_ hour_of sid new b))) d u d' →
  same_books d d' ∧ devices d' = devices d ∧ intervals d' = intervals d ∧
  ∀ k s', sessions d' !! k = Some s' → ∃ s, sessions d !! k = Some s ∧ (s' = s ∨ (k ∈ ids ∧ s' = rebound new s)).
Proof.
  revert d. induction ids as [|sid ids IH]; intros d H; cbn [for_each] in H.
  - runs_step H. split_and!; [done..|]. intros k s Hk. exists s. auto.
  - runs_step H. apply rebind_ok in Hm as (s & Hs & HS & HB & HD & HI). destruct (IH _ H) as (HB' & HD' & HI' & HS').
    split_and!; [by etrans|congruence|congruence|]. intros k s' Hk. destruct (HS' k s' Hk) as (s1 & Hs1 & Hc).
    rewrite HS in Hs1. destruct (decide (k = sid)) as [->|Hne].
    + rewrite lookup_insert_eq in Hs1. injection Hs1 as <-. exists s. split; [done|]. right. split; [by left|].
      by destruct Hc as [->|[_ ->]].
    + rewrite lookup_insert_ne in Hs1 by done. exists s1. split; [done|]. destruct Hc as [->|[Hin ->]]; [by left|].
      right. split; [by right|done].
Qed.

(** The device was authorised on an entitlement at the boundary. *)
Definition in_cohort (b : Time) (d : CDB) (old dev : string) : Prop :=
  authorized_then b d old dev = true ∧
  ∃ x, default ∅ (devices d !! old) !! dev = Some x ∧ ed_status x = AUTHORIZED.

Lemma grandfather_ok old new b d gs d' :
  runs (grandfatherBoundaryDevices cat now_ hour_of old new b) d gs d' →
  same_books d d' ∧
  (∀ id, id ≠ new → devices d' !! id = devices d !! id ∧ intervals d' !! id = intervals d !! id) ∧
  (∀ dev, is_Some (default ∅ (devices d' !! new) !! dev) →
     is_Some (default ∅ (devices d !! new) !! dev) ∨ in_cohort b d old dev) ∧
  (∀ k s', sessions d' !! k = Some s' → ∃ s, sessions d !! k = Some s ∧
     (s' = s ∨ (s' = rebound new s ∧ ss_ent s = old ∧ ss_state s = "active" ∧ started s ≤ b ∧
                is_Some (default ∅ (devices d' !! new) !! ss_dev s)))).
Proof.
  unfold grandfatherBoundaryDevices. intros H. do 4 runs_step H. runs_step H.
  rename Hm into HC, Hm0 into HO, Hm1 into HR. apply rebind_each in HR as (HB & HD & HI & HS).
  unfold copy_devices in HC. apply res_bind_Ok in HC as ([] & Hdisj & HC). injection HC as <- <-.
  set (cohort := filter _ _) in *.
  unfold open_intervals in HO. apply res_bind_Ok in HO as ([] & _ & HO). injection HO as <-. cbn in *.
  rewrite lookup_insert_eq in HI. cbn in HI. split_and!.
  - etrans; [|exact HB]. done.
  - intros id Hid. rewrite HD, HI. by rewrite !lookup_insert_ne.
  - intros dev. rewrite HD, lookup_insert_eq. cbn. intros [x [Hx|[_ Hx]]%lookup_union_Some_raw]; [|left; by eexists].
    right. rewrite lookup_fmap in Hx. destruct (cohort !! dev) as [x0|] eqn:E; [|done].
    apply map_lookup_filter_Some in E as (Hx0 & Hst & Hau). split; [done|by exists x0].
  - intros k s' Hk. destruct (HS k s' Hk) as (s & Hs & [->|[Hin ->]]); [exists s; auto|]. exists s. split; [done|]. right.
    apply elem_of_row_ids in Hin as (s0 & Hs0 & Hp). cbn in Hs0. rewrite Hs in Hs0. injection Hs0 as <-.
    cbn in Hp. rewrite !andb_true_iff, !bool_decide_eq_true in Hp. destruct Hp as [[[[He Hst] Hstart] _] Hdev].
    rewrite HD. apply Z.leb_le in Hstart. split_and!; [done..|]. by destruct (_ !! ss_dev s).
Qed.

Lemma grant_ok sc sid ep bd c gpkg old d new trg ver gf sb d' :
  runs (grant cat now_ hour_of sc sid ep bd c gpkg old) d (new, trg, ver, gf, sb) d' →
  ∃ a d1, runs (createGrace now_ sc sid a) d new d1 ∧ cg_episode a = ep ∧ cg_policy a = cv_Policy c ∧ cg_boundary a = bd_at bd ∧
    cg_emergency a = cv_IsEmergency c ∧ cg_trigger a = trg ∧ trg ∈ ["CHECKOUT_GRACE"; "EMERGENCY_GRACE"] ∧
    cg_oldEnt a = nilIfEmpty old ∧
    (old = "" ∧ d' = d1 ∨ old ≠ "" ∧ ∃ gs, runs (grandfatherBoundaryDevices cat now_ hour_of old new (bd_at bd)) d1 gs d').
Proof.
  unfold grant. intros H. runs_step H. assert (d0 = d) as ->.
  { destruct (cv_IsEmergency c).
    - unfold readEmergencyCatalog in Hm. runs_step Hm. destruct (decide _); [runs_step Hm|]. runs_step Hm.
      destruct (emergency_package _ _ _); runs_step Hm. done.
    - runs_step Hm. destruct (package_plan _ _ _ _) as [[]|]; runs_step Hm. done. }
  destruct a as [[pkg svc] tam]. cbv zeta in H. runs_step H. runs_step H. destruct a0 as [gf' sb']. runs_step H.
  eexists _, _. split; [exact Hm0|]. cbn. split_and!; try done.
  { destruct (cv_IsEmergency c); set_solver. }
  destruct (empty old) eqn:E.
  - runs_step Hm1. apply empty_true in E. auto.
  - apply empty_false in E. right. split; [done|]. by eexists.
Qed.
(** ** Closing what is left *)

Lemma freeze_frame b ids d d' : freeze_rows b ids d = Ok d' → d' = set_watermarks d (watermarks d').
Proof.
  revert d. induction ids as [|id ids IH]; intros d; cbn [freeze_rows]; [intros [= <-]; by destruct d|].
  intros H. apply res_bind_Ok in H as (u & _ & H). rewrite (IH _ H). by destruct d.
Qed.

Lemma close_interval_closed b i : deauthorized_at (close_interval b i) ≠ None.
Proof. unfold close_interval, is_open. destruct (deauthorized_at i) eqn:E; cbn; [by rewrite E|done]. Qed.

Lemma revoke_ok sc sid grace b d rs d' :
  runs (revokeAtBoundary sc sid grace b) d rs d' →
  same_books d d' ∧
  (∀ id dev i, victim sc sid grace d id = true → i ∈ default [] (default ∅ (intervals d' !! id) !! dev) →
     deauthorized_at i ≠ None) ∧
  (∀ id, victim sc sid grace d id = false → devices d' !! id = devices d !! id ∧ intervals d' !! id = intervals d !! id) ∧
  (∀ k s', sessions d' !! k = Some s' → ss_state s' = "active" →
     sessions d !! k = Some s' ∧ victim sc sid grace d (ss_ent s') = false).
Proof.
  unfold revokeAtBoundary. intros H. do 2 runs_step H. runs_step H. rename Hm into HC, Hm0 into HE.
  unfold close_devices in HC. injection HC as <- <-. unfold end_sessions in HE. injection HE as <- <-. cbn.
  assert (HV : ∀ id x y, victim sc sid grace (set_devices d x y) id = victim sc sid grace d id) by done. split_and!.
  - done.
  - intros id dev i Hv. rewrite map_lookup_imap. destruct (intervals d !! id) as [m|]; [|by intros ?%elem_of_nil]. cbn.
    rewrite Hv. unfold close_all. rewrite lookup_fmap. destruct (m !! dev) as [l|]; [|by intros ?%elem_of_nil]. cbn.
    unfold close_intervals. intros (i0 & -> & _)%list_elem_of_fmap. apply close_interval_closed.
  - intros id Hv. rewrite !map_lookup_imap. destruct (devices d !! id), (intervals d !! id); cbn; by rewrite ?Hv.
  - intros k s'. rewrite lookup_fmap. destruct (sessions d !! k) as [s|]; [|done]. cbn. intros [= <-].
    destruct (_ && _) eqn:E; [done|]. intros Hact. split; [done|]. rewrite HV in E. rewrite Hact in E. by rewrite bool_decide_true in E.
Qed.

Lemma insert_audit_ok sc sid ep a d d' :
  insert_audit sc sid ep a d = Ok d' →
  d' = set_audits d (<[(sc.1.1, sc.1.2, sid, ep) := a]> (audits d)) (alerts d') ∧
  p3_checkout_audit_provenance sc sid ep a d = Ok () ∧ is_Some (boundary_event_id a).
Proof.
  unfold insert_audit. intros H. apply res_bind_Ok in H as ([] & HP & H). apply res_bind_Ok in H as ([] & HB%check_Ok & H).
  checks H. injection H as <-. apply bool_decide_eq_true in HB. done.
Qed.

(** ** The steps of a conversion *)

Lemma lock_frame sc d x d' : runs (lockGraceConfig sc) d x d' → d' = d.
Proof.
  unfold lockGraceConfig. intros H. runs_step H. destruct (grace_configs d !! sc.1) as [g|]; [|by runs_step H].
  cbv zeta in H. repeat case_match; by runs_step H.
Qed.

Lemma validate_frame sc pkg pol d x d' : runs (validateConfiguredGraceExact cat sc pkg pol) d x d' → d' = d.
Proof.
  intros (t & t' & <- & H & <-). unfold validateConfiguredGraceExact, query, statement in H.
  destruct (tx_aborted t), (next_statement_fails t); by injection H as <- _.
Qed.

Lemma eligible_frame sc sid b d x d' :
  runs (eligibleOriginalAtBoundary cat sc sid b) d x d' →
  d' = d ∧ ((entitlementID x = "" ∧ eligible x = false) ∨
    (multiActive x = false ∧ eligible x = true ∧ ∃ e, ents d !! entitlementID x = Some e ∧ pre_checkout sc sid e = true ∧
       state_at b (hist d (entitlementID x)) = Some ACTIVE ∧
       (∀ w, window_ends_at e = Some w → b < w) ∧
       (∀ q, match data_quota_bytes e with Some q => Some q | None => plan_quota cat (ent_site e) (service_plan_revision_id e) end = Some q →
          ∃ u, entitlement_usage_bytes (entitlementID x) b d = Ok u ∧ wm_up u + wm_down u < q) ∧
       (∀ id e', ents d !! id = Some e' → pre_checkout sc sid e' = true → state_at b (hist d id) = Some ACTIVE → id = entitlementID x))).
Proof.
  unfold eligibleOriginalAtBoundary. intros H. runs_step H. set (l := omap _ _) in H.
  assert (HL : ∀ id, id ∈ l → ∃ e, ents d !! id = Some e ∧ pre_checkout sc sid e = true ∧ state_at b (hist d id) = Some ACTIVE).
  { intros id ([k e] & Hin%elem_of_selected & Hk)%list_elem_of_omap. destruct (decide _); [|done]. injection Hk as <-. by exists e; destruct Hin. }
  assert (HU : ∀ id e', ents d !! id = Some e' → pre_checkout sc sid e' = true → state_at b (hist d id) = Some ACTIVE → id ∈ l).
  { intros id e' He Hp Hs. apply list_elem_of_omap. exists (id, e'). split; [by apply elem_of_selected|]. by rewrite decide_True. }
  destruct l as [|id [|id2 l]]; [runs_step H; auto| |runs_step H; auto].
  destruct (HL id) as (e & He & Hp & Hs); [by left|]. runs_step H. unfold validAtBoundary in Hm. runs_step Hm. rewrite He in Hm.
  cbv zeta in Hm. destruct (match window_ends_at e with None => true | Some w => b <? w end) eqn:Ew; [|runs_step Hm; runs_step H; auto].
  assert (HW : ∀ w, window_ends_at e = Some w → b < w).
  { intros w Hw. rewrite Hw in Ew. by apply Z.ltb_lt. }
  destruct (match data_quota_bytes e with Some q => Some q | None => _ end) as [q|] eqn:Eq.
  - runs_step Hm. apply res_bind_Ok in Hm0 as (u & Hu & Hm0). apply res_bind_Ok in Hm0 as (z & Hz & Hm0). injection Hm0 as <- <-.
    runs_step Hm. destruct (q <=? z) eqn:E; cbn in H; runs_step H; [auto|]. split; [done|]. right. cbn. split_and!; [done..|].
    exists e. split_and!; [done..| |].
    + intros q' Hq'. rewrite Eq in Hq'. injection Hq' as <-. exists u. split; [done|].
      unfold bigint in Hz. destruct (_ && _); [|done]. injection Hz as ->. lia.
    + intros i e' Hi Hpi Hsi. by apply list_elem_of_singleton, (HU i e').
  - runs_step Hm. runs_step H. split; [done|]. right. cbn. split_and!; [done..|]. exists e. split_and!; [done..| |].
    + intros q Hq. congruence.
    + intros i e' Hi Hpi Hsi. by apply list_elem_of_singleton, (HU i e').
Qed.

(** The part of a conversion that grants, after the entitlements of the stay ended. *)
Definition granted (sc : scope) (sid : string) (ep : Z) (bd : Boundary) (elig : eligibility) (r : Result) (c : Conversion)
    (d1 d2 : CDB) : Prop :=
  (Create c = true ∧ ∃ gpkg trg ver gf sb,
     runs (grant cat now_ hour_of sc sid ep bd c gpkg (entitlementID elig)) d1 (NewEntitlementID r, trg, ver, gf, sb) d2) ∨
  (Create c = false ∧ NewEntitlementID r = "" ∧ d2 = d1).

Lemma convert_episode_inv sc sid ep bd eid d r d' :
  runs (convert_episode sc sid ep bd eid) d r d' →
  ∃ elig n d1 a, runs (eligibleOriginalAtBoundary cat sc sid (bd_at bd)) d elig d ∧
    runs (terminateNonTerminalPreCheckout now_ sc sid (bd_at bd) (entitlementID elig)) d n d1 ∧
    OldEntitlementID r = entitlementID elig ∧ AlreadyProcessed r = false ∧ res_CheckedOut r = bd_checkedOut bd ∧
    BoundaryClockSuspect r = bd_suspect bd ∧ boundary_event_id a = nilIfEmpty eid ∧
    boundary_event_seq a = fst <$> bd_versions bd ∧
    ((multiActive elig = true ∧ ManualReview r = true ∧ GraceCreated r = false ∧ insert_audit sc sid ep a d1 = Ok d') ∨
     (multiActive elig = false ∧ ManualReview r = false ∧ ∃ c d2 d3 d4 rs pol en cfg sw,
        c = DecideConversion (mkConversionRequest (eligible elig) false pol (ValidatePolicy pol en cfg) sw) ∧
        GraceCreated r = Create c ∧ granted sc sid ep bd elig r c d1 d2 ∧
        freeze_rows (bd_at bd) (fst <$> rows (pre_checkout sc sid) (ents d2)) d2 = Ok d3 ∧
        runs (revokeAtBoundary sc sid (nilIfEmpty (NewEntitlementID r)) (bd_at bd)) d3 rs d4 ∧
        insert_audit sc sid ep a d4 = Ok d')).
Proof.
  unfold Checkout.convert_episode, writeAudit, freezeBoundaryWatermarks. intros H. runs_step H. apply lock_frame in Hm as ->. destruct a as [[[pol gpkg] enabled] cv].
  do 3 runs_step H. destruct (eligible_frame _ _ _ _ _ _ Hm) as [-> _].
  destruct (multiActive _) eqn:Em.
  - cbv zeta in H. do 2 runs_step H.
    match goal with X : insert_audit _ _ _ ?a _ = _ |- _ => eexists _, _, _, a end.
    split_and!; [exact Hm|exact Hm0|done..|]. left. by split_and!.
  - runs_step H. assert (d0 = d1) as ->.
    { destruct (empty gpkg); [by runs_step Hm1|by apply validate_frame in Hm1]. }
    clear Hm1. cbv zeta in H. set (c := DecideConversion _) in H. runs_step H. destruct a2 as [[[[new trg] ver] gf] sb].
    do 2 runs_step H. match type of H with runs (let '(_, _) := ?x in _) _ _ _ => destruct x as [dr sr] end.
    do 2 runs_step H. cbn.
    match goal with X : insert_audit _ _ _ ?a _ = _ |- _ => eexists _, _, _, a end.
    split_and!; [exact Hm|exact Hm0|done..|]. right. split_and!; [done..|].
    exists c. do 3 eexists. exists (dr, sr), pol, enabled, a1. eexists. split_and!; [reflexivity|done| |eassumption|eassumption|eassumption].
    unfold granted. clearbody c. destruct (Create c); [|runs_step Hm1; by right].
    left. split; [done|]. exists gpkg, trg, ver, gf, sb. exact Hm1.
Qed.

(** ** The boundary *)

(** An honest fact of the stay that came before the event. *)
Definition earlier_fact (sc : scope) (sid eid : string) (d : CDB) (t : Time) : Prop :=
  ∃ k e, events (base d) !! k = Some e ∧ same_site sc (event_scope e) = true ∧ event_stay_id e = Some sid ∧ k ≠ eid ∧
    processing_status e = APPLIED ∧ event_type e ≠ "GO" ∧ clock_suspect e = false ∧
    (event_versions d k).1 < (event_versions d eid).1 ∧ pms_timestamp_utc e = Some t ∧ t ≤ now_.

Lemma max_time_le a b t : max_time a b = Some t → (∀ x, a = Some x → x ≤ t) ∧ (∀ x, b = Some x → x ≤ t).
Proof. destruct a, b; cbn; intros [= <-]; split; intros ? [= <-]; lia. Qed.

Lemma prior_fact_bound sc sid eid d t :
  earlier_fact sc sid eid d t → ∃ m, prior_fact now_ sc sid eid (event_versions d eid).1 d = Some m ∧ t ≤ m.
Proof.
  intros (k & e & Hk & Hsite & Hst & Hne & Hap & Hgo & Hcl & Hseq & Hts & Hnow). unfold prior_fact.
  apply elem_of_map_to_list in Hk. induction (map_to_list (events (base d))) as [|[k' e'] l IH]; [by apply elem_of_nil in Hk|].
  apply elem_of_cons in Hk as [[= <- <-]|Hk]; cbn.
  - rewrite Hsite, Hcl, Hts. repeat rewrite bool_decide_true by done.
    rewrite (proj2 (Z.ltb_lt _ _) Hseq), (proj2 (Z.leb_le _ _) Hnow). cbn [andb negb].
    destruct (foldr _ None l); cbn; eexists; (split; [reflexivity|lia]).
  - destruct (IH Hk) as (m & -> & Hm). case_match; cbn; [|by exists m].
    destruct (pms_timestamp_utc e'); cbn; eexists; (split; [reflexivity|lia]).
Qed.

Lemma prior_fact_now sc sid eid seq d m : prior_fact now_ sc sid eid seq d = Some m → m ≤ now_.
Proof.
  unfold prior_fact. revert m. induction (map_to_list (events (base d))) as [|[k e] l IH]; intros m; cbn; [done|].
  assert (HX : ∀ (c : bool) (o : option Time), (∀ x, o = Some x → x ≤ now_) →
    ∀ m, max_time (if c && match pms_timestamp_utc e with Some t => t <=? now_ | None => false end then pms_timestamp_utc e else None) o = Some m → m ≤ now_).
  { intros c o Ho m0. destruct c; cbn [andb]; [|cbn; destruct o; intros [= <-]; auto].
    destruct (pms_timestamp_utc e) as [t|]; [|cbn; destruct o; intros [= <-]; auto].
    destruct (Z.leb_spec t now_); cbn; destruct o as [x|]; intros [= <-]; [pose proof (Ho x eq_refl)| |]; auto; lia. }
  apply HX. exact IH.
Qed.

(** The floor is at most the server clock, and no earlier than the stay's arrival
    (less the zone tolerance) and its honest facts, up to the clock. *)
Lemma boundaryFloor_ok sc sid eid d o d' :
  runs (boundaryFloor now_ sc sid eid (event_versions d eid).1) d o d' →
  d' = d ∧ ∃ s, stays (base d) !! sid = Some s ∧ (∀ f reason, o = Some (f, reason) → f ≤ now_) ∧
    (∀ a, arrival s = Some a → ∃ f reason, o = Some (f, reason) ∧ Z.min (a * Day - arrivalTolerance) now_ ≤ f) ∧
    (∀ t, earlier_fact sc sid eid d t → ∃ f reason, o = Some (f, reason) ∧ t ≤ f).
Proof.
  unfold boundaryFloor. intros H. runs_step H. destruct (stays (base d) !! sid) as [s|]; cbn in H; [|runs_step H].
  destruct (same_site sc (stay_scope s)); [|runs_step H]. runs_step H. cbv zeta in H.
  destruct (prior_fact _ _ _ _ _ _) as [p|] eqn:Ep.
  - pose proof (prior_fact_now _ _ _ _ _ _ Ep) as Hp. destruct (arrival s) as [a|] eqn:Ea; cbn in H.
    + unfold After, time_Add in H. destruct (Z.ltb_spec (a * Day + - arrivalTolerance) p); do 2 runs_step H;
        (split; [done|]; exists s; split_and!; [done|intros f reason [= <- <-]; lia| |]).
      * intros a0 ?. simplify_eq. eexists _, _. split; [reflexivity|lia].
      * intros t (m & Hm & Ht)%prior_fact_bound. eexists _, _. split; [reflexivity|]. simplify_eq. lia.
      * intros a0 ?. simplify_eq. eexists _, _. split; [reflexivity|lia].
      * intros t (m & Hm & Ht)%prior_fact_bound. eexists _, _. split; [reflexivity|]. simplify_eq. lia.
    + do 2 runs_step H. split; [done|]. exists s. split_and!; [done|intros f reason [= <- <-]; lia|congruence|].
      intros t (m & Hm & Ht)%prior_fact_bound. eexists _, _. split; [reflexivity|]. simplify_eq. lia.
  - assert (HN : ∀ t, earlier_fact sc sid eid d t → False) by (intros t (m & Hm & _)%prior_fact_bound; congruence).
    destruct (arrival s) as [a|] eqn:Ea; cbn in H.
    + do 2 runs_step H. split; [done|]. exists s. split_and!; [done|intros f reason [= <- <-]; lia| |by intros t ?%HN].
      intros a0 ?. simplify_eq. eexists _, _. split; [reflexivity|]. unfold time_Add. lia.
    + runs_step H. split; [done|]. exists s. split_and!; [done|done|congruence|by intros t ?%HN].
Qed.

(** What a boundary derived from an event may be. *)
Definition plausible (sc : scope) (sid eid : string) (d : CDB) (s : Stay) (e : StayEvent) (b : Time) (suspect : bool) : Prop :=
  b ≤ now_ + boundaryFutureSkew ∧ (suspect = true → b ≤ now_) ∧ (suspect = false → pms_timestamp_utc e = Some b) ∧
  (∀ a, arrival s = Some a → Z.min (a * Day - arrivalTolerance) now_ ≤ b) ∧
  (∀ t, earlier_fact sc sid eid d t → t ≤ b).

Lemma skew_pos : 0 < boundaryFutureSkew.
Proof. done. Qed.

Lemma plausible_now sc sid eid d s e : plausible sc sid eid d s e now_ true.
Proof.
  pose proof skew_pos. split_and!; [lia|lia|done|lia|].
  by intros t (k & e0 & _ & _ & _ & _ & _ & _ & _ & _ & _ & Hn).
Qed.

Lemma deriveBoundary_ok sc sid last eid d b suspect reason v d' s :
  stays (base d) !! sid = Some s →
  runs (deriveBoundary now_ sc sid last eid) d (b, suspect, reason, v) d' →
  d' = d ∧ last = Some eid ∧ eid ≠ "" ∧ v = event_versions d eid ∧ ∃ e, boundary_event sc sid eid d = Some e ∧
    plausible sc sid eid d s e (if suspect && IsZero b then now_ else b) suspect.
Proof.
  intros Hs. unfold deriveBoundary. destruct (empty eid) eqn:Ee; intros H; [runs_step H|]. apply empty_false in Ee.
  runs_step H. destruct (boundary_event sc sid eid d) as [e|] eqn:He; [|runs_step H].
  destruct (event_versions d eid) as [seq norm] eqn:Ev. runs_step H. assert (d0 = d) as ->.
  { destruct (admission e); [by runs_step Hm|]. runs_step Hm. destruct (_ <$> _); [|runs_step Hm].
    destruct (_ <? _); runs_step Hm. done. }
  clear Hm. destruct (decide (last ≠ Some eid)) as [|Hl]; [runs_step H|]. apply dec_stable in Hl.
  destruct (clock_suspect e); [runs_step H; split_and!; [done..|]; exists e; split; [done|apply plausible_now]|].
  destruct (pms_timestamp_utc e) as [ts|] eqn:Ets; [|runs_step H; split_and!; [done..|]; exists e; split; [done|apply plausible_now]].
  runs_step H. destruct (Z.ltb_spec (now_ + boundaryFutureSkew) ts) as [|Hfut];
    [runs_step H; split_and!; [done..|]; exists e; split; [done|apply plausible_now]|].
  runs_step H. replace seq with (event_versions d eid).1 in Hm by (by rewrite Ev).
  apply boundaryFloor_ok in Hm as (-> & s' & Hs' & Hnow & Harr & Hpri). rewrite Hs in Hs'. injection Hs' as <-.
  assert (HT : ∀ f reason, a0 = Some (f, reason) → ts < f → plausible sc sid eid d s e f true).
  { intros f rs Ho Hlt. pose proof (Hnow _ _ Ho). pose proof skew_pos. split_and!; [lia|lia|done| |].
    - intros x Hx. destruct (Harr x Hx) as (f' & rs' & Ho' & ?). rewrite Ho in Ho'. by simplify_eq.
    - intros t Ht. destruct (Hpri t Ht) as (f' & rs' & Ho' & ?). rewrite Ho in Ho'. by simplify_eq. }
  assert (HF : (∀ f reason, a0 = Some (f, reason) → f ≤ ts) → plausible sc sid eid d s e ts false).
  { intros Hle. split_and!; [lia|done|done| |].
    - intros x Hx. destruct (Harr x Hx) as (f' & rs' & Ho' & ?). pose proof (Hle _ _ Ho'). lia.
    - intros t Ht. destruct (Hpri t Ht) as (f' & rs' & Ho' & ?). pose proof (Hle _ _ Ho'). lia. }
  destruct a0 as [[f rs]|].
  - unfold Before in H. destruct (Z.ltb_spec ts f) as [Hlt|Hge]; runs_step H; (split_and!; [done..|]; exists e; split; [done|]).
    + destruct (IsZero f); [apply plausible_now|by eapply HT].
    + apply HF. intros f0 rs0 [= <- <-]. done.
  - runs_step H. split_and!; [done..|]. exists e. split; [done|]. apply HF. done.
Qed.

Lemma update_stay_ok sid f b b' s :
  stays b !! sid = Some s → update_stay sid f b = Ok b' → b' = set_stays b (<[sid := f s]> (stays b)).
Proof. intros Hs. unfold update_stay. rewrite Hs. intros H. do 3 (apply res_bind_Ok in H as ([] & _ & H)). by injection H as <-. Qed.

Lemma on_stay_ok sid f d d' s :
  stays (base d) !! sid = Some s → on_stay (update_stay sid f) d = Ok d' →
  d' = set_base d (set_stays (base d) (<[sid := f s]> (stays (base d)))).
Proof. intros Hs H. apply res_bind_Ok in H as (b & Hb & H). injection H as <-. by rewrite (update_stay_ok _ _ _ _ _ Hs Hb). Qed.

Lemma scoped_stay_ok sc sid d s : scoped_stay sc sid d = Some s → stays (base d) !! sid = Some s ∧ stay_scope s = sc.
Proof. unfold scoped_stay. destruct (stays _ !! sid) as [s0|]; [|done]. cbn. destruct (decide _); [|done]. by intros [= ->]. Qed.

(** The stay after its row was written. *)
Lemma check_out_ok sc sid s eid d o d' :
  stays (base d) !! sid = Some s → runs (check_out now_ sc sid s eid) d o d' →
  match o with
  | None => d' = d ∧ status s ≠ IN_HOUSE ∧ status s ≠ CHECKED_OUT
  | Some bd =>
      d' = set_base d (set_stays (base d) (<[sid := checked_out (bd_at bd) s]> (stays (base d)))) ∧
      ((status s = IN_HOUSE ∧ bd_checkedOut bd = true ∧ bd_versions bd = Some (event_versions d eid) ∧
        last_applied_event_id s = Some eid ∧ eid ≠ "" ∧
        ∃ e, boundary_event sc sid eid d = Some e ∧ plausible sc sid eid d s e (bd_at bd) (bd_suspect bd)) ∨
       (status s = CHECKED_OUT ∧ bd_checkedOut bd = false ∧ bd_versions bd = None ∧
        bd_at bd = default now_ (effective_checkout_at s)))
  end.
Proof.
  intros Hs. unfold check_out. destruct (status s) eqn:Est; intros H; try (runs_step H; done).
  - runs_step H. destruct a as [[[b suspect] reason] v]. cbv zeta in H.
    apply (deriveBoundary_ok _ _ _ _ _ _ _ _ _ _ _ Hs) in Hm as (-> & Hl & Hne & -> & e & He & HP).
    do 2 runs_step H. cbn. apply (on_stay_ok _ _ _ _ _ Hs) in Hm as ->. split; [done|]. left. split_and!; [done..|]. by exists e.
  - cbv zeta in H. do 2 runs_step H. cbn. apply (on_stay_ok _ _ _ _ _ Hs) in Hm as ->. split; [done|]. by right.
Qed.

Lemma convertTx_inv sc sid eid d r d' :
  runs (convertTx sc sid eid) d r d' →
  ∃ s, scoped_stay sc sid d = Some s ∧
    ((d' = d ∧ status s ≠ IN_HOUSE ∧ status s ≠ CHECKED_OUT ∧ res_CheckedOut r = false ∧ AlreadyProcessed r = false ∧ GraceCreated r = false) ∨
     ∃ bd d1, runs (check_out now_ sc sid s eid) d (Some bd) d1 ∧
       ((d' = d1 ∧ AlreadyProcessed r = true ∧ res_CheckedOut r = bd_checkedOut bd ∧ GraceCreated r = false ∧
         ∃ a, audits d1 !! (sc.1.1, sc.1.2, sid, lifecycle_version s) = Some a ∧ boundary_event_id a = Some eid) ∨
        (audits d1 !! (sc.1.1, sc.1.2, sid, lifecycle_version s) ≫= boundary_event_id = None ∧
         runs (convert_episode sc sid (lifecycle_version s) bd eid) d1 r d'))).
Proof.
  unfold Checkout.convertTx. intros H. do 5 runs_step H. repeat match goal with X : Ok _ = Ok _ |- _ => injection X as <- end.
  destruct (scoped_stay sc sid _) as [s|] eqn:Es; [|runs_step H]. exists s. split; [done|].
  runs_step H. destruct a3 as [bd|].
  - right. eexists bd, _. split; [exact Hm|]. runs_step H. destruct (audits _ !! _) as [au|] eqn:Ea; cbn in H; [|by right].
    destruct (boundary_event_id au) as [o|] eqn:Eo; [|right; cbn; by rewrite Eo].
    destruct (decide (o ≠ eid)) as [|Ho]; [runs_step H|]. apply dec_stable in Ho as ->. left. runs_step H. split_and!; [done..|]. by exists au.
  - apply (check_out_ok _ _ _ _ _ _ _ (proj1 (scoped_stay_ok _ _ _ _ Es))) in Hm as (-> & ? & ?). left. by runs_step H.
Qed.

Lemma ConvertAtCheckout_ok c sc sid eid d r d' :
  ConvertAtCheckout c sc sid eid d = (d', Ok r) → runs (convertTx sc sid eid) d r d'.
Proof.
  unfold Checkout.ConvertAtCheckout. destruct (begin_fails c); [done|]. set (t0 := mkTx _ _ _ _ _).
  destruct (Checkout.convertTx _ _ _ sc sid eid t0) as [t [r0|e]] eqn:E; [|done]. destruct (deferred_ok d (tx_db t)); [|done].
  unfold commit. destruct (tx_aborted t); [done|]. destruct (fate c); [|done|done]. intros [= <- <-].
  by exists t0, t.
Qed.

(** ** After the grant *)

Definition grace_written (sc : scope) (sid pid new : string) (a : createGraceArgs) (n : Transition) (d : CDB) : CDB :=
  set_history (set_ents (set_purchases d (<[pid := grace_purchase sc sid a]> (purchases d)))
                 (<[new := grace_row sc sid pid a]> (ents d)))
    (<[new := (hist d new ++ [n])%list]> (history d)).

Lemma granted_ok sc sid ep bd elig r c d1 d2 :
  granted sc sid ep bd elig r c d1 d2 →
  (Create c = false ∧ NewEntitlementID r = "" ∧ d2 = d1) ∨
  (Create c = true ∧ ∃ pid a n, NewEntitlementID r ≠ "" ∧ ents d1 !! NewEntitlementID r = None ∧
     insert_purchase pid (grace_purchase sc sid a) d1 =
       Ok (set_purchases d1 (<[pid := grace_purchase sc sid a]> (purchases d1))) ∧
     cg_episode a = ep ∧ cg_policy a = cv_Policy c ∧ cg_boundary a = bd_at bd ∧ cg_trigger a ∈ ["CHECKOUT_GRACE"; "EMERGENCY_GRACE"] ∧
     superseded_by n = None ∧ to_state n = ACTIVE ∧
     same_books (grace_written sc sid pid (NewEntitlementID r) a n d1) d2 ∧
     (∀ id, id ≠ NewEntitlementID r → devices d2 !! id = devices d1 !! id ∧ intervals d2 !! id = intervals d1 !! id) ∧
     (∀ dev, is_Some (default ∅ (devices d2 !! NewEntitlementID r) !! dev) →
        is_Some (default ∅ (devices d1 !! NewEntitlementID r) !! dev) ∨ in_cohort (bd_at bd) d1 (entitlementID elig) dev) ∧
     (∀ k s', sessions d2 !! k = Some s' → ∃ s, sessions d1 !! k = Some s ∧
        (s' = s ∨ (s' = rebound (NewEntitlementID r) s ∧ ss_ent s = entitlementID elig ∧ ss_state s = "active" ∧
                   started s ≤ bd_at bd ∧ is_Some (default ∅ (devices d2 !! NewEntitlementID r) !! ss_dev s))))).
Proof.
  intros [(HC & gpkg & trg & ver & gf & sb & H)|H]; [right; split; [done|]|by left].
  apply grant_ok in H as (a & dg & Hg & Hep & Hpol & Hb & _ & Htr & Hin & _ & H).
  apply createGrace_ok in Hg as (pid & n & Hne & Hpu & Hfr & Hsu & Hto & _ & ->). fold (grace_written sc sid pid (NewEntitlementID r) a n d1) in *.
  exists pid, a, n. split_and!; try done; [by rewrite Htr|..]; destruct H as [[_ ->]|(_ & gs & H)];
    try (apply grandfather_ok in H as (HB & HD & HN & HS)).
  - done.
  - done.
  - done.
  - exact HD.
  - intros dev Hd. by left.
  - exact HN.
  - intros k s' Hk. exists s'. auto.
  - exact HS.
Qed.

Lemma closes_fresh d d' id : closes d d' → ents d' !! id = None → ents d !! id = None.
Proof. intros [_ H] Hn. destruct (H id) as [[HE _]|(e & e' & _ & He' & _)]; congruence. Qed.

Lemma closes_frame d d' :
  closes d d' → base d' = base d ∧ devices d' = devices d ∧ intervals d' = intervals d ∧ sessions d' = sessions d ∧
    purchases d' = purchases d ∧ audits d' = audits d ∧ versions d' = versions d.
Proof. by intros [-> _]. Qed.

(** A pre-checkout row was there before the grant. *)
Lemma granted_pre sc sid ep bd elig r c d1 d2 id e :
  granted sc sid ep bd elig r c d1 d2 → ents d2 !! id = Some e → pre_checkout sc sid e = true → ents d1 !! id = Some e.
Proof.
  intros [(_ & _ & ->)|(_ & pid & a & n & _ & _ & _ & _ & _ & _ & _ & _ & _ & (_ & _ & HE & _) & _)]%granted_ok; [done|].
  rewrite HE. cbn. destruct (decide (id = NewEntitlementID r)) as [->|Hne]; [|by rewrite lookup_insert_ne].
  rewrite lookup_insert_eq. intros [= <-]. unfold pre_checkout. cbn. by rewrite !andb_false_r.
Qed.

Lemma DecideConversion_create r : Create (DecideConversion r) = true → HasActiveEntitlementAtCheckout r = true.
Proof. unfold DecideConversion. destruct (AlreadyConvertedThisEpisode r); [done|]. by destruct (HasActiveEntitlementAtCheckout r). Qed.

(** The steps of a conversion that decides an episode without a review, named. *)
Lemma decided_inv sc sid eid d r d' :
  runs (convertTx sc sid eid) d r d' → res_CheckedOut r = true → AlreadyProcessed r = false → ManualReview r = false →
  ∃ s bd d0 elig n d1 c d2 d3 d4 rs a pol en cfg sw,
    stays (base d) !! sid = Some s ∧ status s = IN_HOUSE ∧
    d0 = set_base d (set_stays (base d) (<[sid := checked_out (bd_at bd) s]> (stays (base d)))) ∧
    runs (eligibleOriginalAtBoundary cat sc sid (bd_at bd)) d0 elig d0 ∧ OldEntitlementID r = entitlementID elig ∧
    runs (terminateNonTerminalPreCheckout now_ sc sid (bd_at bd) (entitlementID elig)) d0 n d1 ∧
    c = DecideConversion (mkConversionRequest (eligible elig) false pol (ValidatePolicy pol en cfg) sw) ∧
    GraceCreated r = Create c ∧ granted sc sid (lifecycle_version s) bd elig r c d1 d2 ∧ d3 = set_watermarks d2 (watermarks d3) ∧
    runs (revokeAtBoundary sc sid (nilIfEmpty (NewEntitlementID r)) (bd_at bd)) d3 rs d4 ∧
    insert_audit sc sid (lifecycle_version s) a d4 = Ok d' ∧ boundary_event_id a = nilIfEmpty eid.
Proof.
  intros H HC HA HM. apply convertTx_inv in H as (s & [Hs Hsc]%scoped_stay_ok & [(_ & _ & _ & HC' & _)|(bd & d0 & Hco & Hrest)]); [congruence|].
  apply (check_out_ok _ _ _ _ _ _ _ Hs) in Hco as [Hd0 Hco].
  destruct Hrest as [(_ & HA' & _)|[_ H]]; [congruence|].
  apply convert_episode_inv in H as (elig & n & d1 & a & Hel & Hte & Hold & _ & HC' & _ & Hev & _ & [(_ & HM' & _)|H]); [congruence|].
  destruct H as (_ & _ & c & d2 & d3 & d4 & rs & pol & en & cfg & sw & Hc & HG & Hgr & Hfr & Hre & Hau). apply freeze_frame in Hfr.
  destruct Hco as [(Hin & _)|(_ & HF & _)]; [|congruence].
  exists s, bd, d0, elig, n, d1, c, d2, d3, d4, rs, a, pol, en, cfg, sw. by split_and!.
Qed.

(** ** What a checkout leaves *)

(** The foreign keys of sessions and devices. *)
Definition references (d : CDB) : Prop :=
  (∀ k s, sessions d !! k = Some s → is_Some (ents d !! ss_ent s)) ∧
  (∀ id m, devices d !! id = Some m → is_Some (ents d !! id)).

Definition intervals_of (d : CDB) (id dev : string) : list Interval := default [] (default ∅ (intervals d !! id) !! dev).

Lemma victim_pre sc sid ep bd elig r c d1 d2 id e :
  granted sc sid ep bd elig r c d1 d2 → ents d2 !! id = Some e → pre_checkout sc sid e = true →
  victim sc sid (nilIfEmpty (NewEntitlementID r)) d2 id = true.
Proof.
  intros HG He Hp. unfold victim. rewrite He, Hp. cbn [andb]. apply bool_decide_true. unfold nilIfEmpty.
  destruct (empty (NewEntitlementID r)) eqn:En; [done|]. intros [= Hid]. pose proof (granted_pre _ _ _ _ _ _ _ _ _ _ _ HG He Hp) as Hpre.
  apply granted_ok in HG as [(_ & HN & _)|(_ & pid & a & n & _ & Hfr & _)]; [by rewrite HN in En|congruence].
Qed.


(** An audit row carries the versions of its event, so a boundary that was not
    derived from one is never recorded. *)
Lemma insert_audit_versions sc sid ep a d d' : insert_audit sc sid ep a d = Ok d' → is_Some (boundary_event_seq a).
Proof.
  intros (_ & HP & [eid Hev])%insert_audit_ok. unfold p3_checkout_audit_provenance in HP. rewrite Hev in HP.
  apply res_bind_Ok in HP as ([] & HP & _). destruct (events _ !! eid); [|done]. checks HP. apply check_Ok in HP.
  apply andb_true_iff in HP as [HP _]. apply bool_decide_eq_true in HP. by rewrite HP.
Qed.

Lemma reentry_inv sc sid eid d r d' s :
  runs (convertTx sc sid eid) d r d' → scoped_stay sc sid d = Some s → status s = CHECKED_OUT →
  ∃ a, audits d !! (sc.1.1, sc.1.2, sid, lifecycle_version s) = Some a ∧ boundary_event_id a = Some eid ∧ AlreadyProcessed r = true ∧
    GraceCreated r = false ∧
    d' = set_base d (set_stays (base d) (<[sid := checked_out (default now_ (effective_checkout_at s)) s]> (stays (base d)))).
Proof.
  intros H Hsc Hst. apply convertTx_inv in H as (s' & Hs' & H). rewrite Hsc in Hs'. injection Hs' as <-.
  apply scoped_stay_ok in Hsc as [Hs _]. destruct H as [(_ & _ & ? & _)|(bd & d1 & Hco & H)]; [done|].
  apply (check_out_ok _ _ _ _ _ _ _ Hs) in Hco as [Hd1 [(? & _)|(_ & _ & Hv & Hat)]]; [congruence|].
  destruct H as [(-> & HA & _ & HG & a & Ha & Hev)|[_ H]].
  - exists a. rewrite Hd1 in Ha. rewrite <- Hat. by split_and!.
  - apply convert_episode_inv in H as (elig & n & d2 & a & _ & _ & _ & _ & _ & _ & _ & Hseq & H). exfalso. rewrite Hv in Hseq.
    assert (HX : ¬ is_Some (boundary_event_seq a)) by (rewrite Hseq; by intros [? ?]). apply HX.
    destruct H as [(_ & _ & _ & H)|(_ & _ & c & d3 & d4 & d5 & rs & pol & en & cfg & sw & _ & _ & _ & _ & _ & H)];
      by eapply insert_audit_versions.
Qed.

(** A stay that left, and whose checkout has no decision. *)
Definition undecided (sc : scope) (sid : string) (d : CDB) (s : Stay) : Prop :=
  scoped_stay sc sid d = Some s ∧ status s = CHECKED_OUT ∧ audits d !! (sc.1.1, sc.1.2, sid, lifecycle_version s) = None.

(** A stay that is already checked out but whose episode was never decided
    cannot be decided: the audit row of that path carries no event versions and the
    provenance trigger refuses it, so every attempt fails and changes nothing. *)
Theorem reentry_is_never_decided (c : Connection) (sc : scope) (sid eid : string) (d : CDB) (s : Stay) :
  undecided sc sid d s →
  ∃ e, ConvertAtCheckout c sc sid eid d = (d, Err e).
Proof.
  intros (Hsc & Hst & Hau). unfold Checkout.ConvertAtCheckout. destruct (begin_fails c); [by eexists|]. set (t0 := mkTx _ _ _ _ _).
  destruct (Checkout.convertTx _ _ _ sc sid eid t0) as [t [r|e]] eqn:E; [|by eexists].
  assert (H : runs (convertTx sc sid eid) d r (tx_db t)) by (by exists t0, t).
  apply (reentry_inv _ _ _ _ _ _ _ H Hsc) in Hst as (a & Ha & _). congruence.
Qed.

Lemma created_inv sc sid eid d r d' :
  runs (convertTx sc sid eid) d r d' → GraceCreated r = true →
  res_CheckedOut r = true ∧ AlreadyProcessed r = false ∧ ManualReview r = false.
Proof.
  intros H HG. pose proof H as H'. apply convertTx_inv in H as (s & Hsc & [(_ & _ & _ & _ & _ & ?)|(bd & d1 & Hco & H)]); [congruence|].
  destruct H as [(_ & _ & _ & ? & _)|[_ H]]; [congruence|].
  apply convert_episode_inv in H as (elig & n & d2 & a & _ & _ & _ & HA & HC & _ & _ & _ & [(_ & _ & ? & _)|(_ & HM & _)]); [congruence|].
  split_and!; [|done|done]. rewrite HC. pose proof (scoped_stay_ok _ _ _ _ Hsc) as [Hs _].
  apply (check_out_ok _ _ _ _ _ _ _ Hs) in Hco as [_ [(_ & ? & _)|(Hst & _)]]; [done|].
  by apply (reentry_inv _ _ _ _ _ _ _ H' Hsc) in Hst as (? & _ & _ & ? & _); congruence.
Qed.

Lemma create_policy_bounded r :
  Create (DecideConversion r) = true → (∀ en h, ConfiguredValid r = ValidatePolicy (Configured r) en h →
  0 < DurationSeconds (cv_Policy (DecideConversion r)) ≤ 604800).
Proof.
  unfold DecideConversion. destruct (AlreadyConvertedThisEpisode r), (negb (HasActiveEntitlementAtCheckout r)), (Disabled r); try done.
  destruct (ConfiguredValid r); [|cbn; intros; lia]. intros _ en h Hv. symmetry in Hv. unfold ValidatePolicy in Hv. cbn.
  destruct (negb en || negb h); [done|]. destruct (Z.leb_spec (DurationSeconds (Configured r)) 0); [done|].
  destruct (Z.ltb_spec 604800 (DurationSeconds (Configured r))); [done|]. lia.
Qed.

(** The quota of an entitlement: its own, or else that of the plan revision it was sold on. *)
Definition quota_of (e : Entitlement) : option Z :=
  match data_quota_bytes e with Some q => Some q | None => plan_quota cat (ent_site e) (service_plan_revision_id e) end.

(** The entitlement gave access at an instant: ACTIVE, in its window, under its quota. *)
Definition gives_access (d : CDB) (id : string) (e : Entitlement) (b : Time) : Prop :=
  state_at b (hist d id) = Some ACTIVE ∧ (∀ w, window_ends_at e = Some w → b < w) ∧
  (∀ q, quota_of e = Some q → ∃ u, entitlement_usage_bytes id b d = Ok u ∧ wm_up u + wm_down u < q).

(** C28. Grace is for those who had access, once, and it starts at the checkout.  A
    grace entitlement is created only for a stay with exactly one entitlement that was
    ACTIVE at the boundary, inside its window and under its quota (its own, or that of
    its plan revision when it has none); it runs from the boundary for the duration of a valid policy (at most seven days), it is the only
    entitlement the checkout adds, and no earlier purchase of the same episode of
    the stay exists. *)
Theorem grace_follows_access (c : Connection) (sc : scope) (sid eid : string) (d d' : CDB) (r : Result) :
  ConvertAtCheckout c sc sid eid d = (d', Ok r) → GraceCreated r = true →
  ∃ s b e g, stays (base d) !! sid = Some s ∧ stays (base d') !! sid = Some (checked_out b s) ∧
    ents d !! OldEntitlementID r = Some e ∧ pre_checkout sc sid e = true ∧ gives_access d (OldEntitlementID r) e b ∧
    (∀ id e', ents d !! id = Some e' → pre_checkout sc sid e' = true → state_at b (hist d id) = Some ACTIVE → id = OldEntitlementID r) ∧
    ents d' !! NewEntitlementID r = Some g ∧ ent_stay g = Some sid ∧ ent_status g = ACTIVE ∧ end_mode g = GRACE_MODE ∧
    window_ends_at g = Some (b + DurationSeconds (policy_snapshot g).2 * Second) ∧
    0 < DurationSeconds (policy_snapshot g).2 ≤ 604800 ∧
    (∀ id, is_Some (ents d' !! id) → is_Some (ents d !! id) ∨ id = NewEntitlementID r) ∧
    (∀ id p, purchases d !! id = Some p → pu_trigger p ∈ episode_triggers → pu_stay p = sid →
       checkout_episode p ≠ Some (lifecycle_version s)).
Proof.
  intros H%ConvertAtCheckout_ok HGC. destruct (created_inv _ _ _ _ _ _ H HGC) as (HC & HA & HM).
  apply decided_inv in H as (s & bd & d0 & elig & n & d1 & cv & d2 & d3 & d4 & rs & a & pol & en & cfg & sw & Hs & _ & Hd0 &
    Hel & Hold & Hte & Hcv & HG & Hgr & Hd3 & Hre & Hau & _); [|done..]. rewrite HG in HGC.
  apply terminated_pre_checkout in Hte as [HCl _]. destruct (closes_frame _ _ HCl) as (Hb1 & _ & _ & _ & Hp1 & _).
  apply insert_audit_ok in Hau as (Hd' & _). apply revoke_ok in Hre as ((Hb4 & _ & He4 & _) & _).
  assert (E' : ents d' = ents d2 ∧ base d' = base d2) by (rewrite Hd'; cbn; rewrite He4, Hb4, Hd3; done). destruct E' as [E' B'].
  pose proof (create_policy_bounded _ (eq_trans (eq_sym (f_equal Create Hcv)) HGC) en cfg eq_refl) as Hdur. rewrite <- Hcv in Hdur.
  assert (Helig : eligible elig = true) by (rewrite Hcv in HGC; by apply DecideConversion_create in HGC).
  apply eligible_frame in Hel as [_ [[_ ?]|(_ & _ & e & He & Hp & Hsa & Hw & Hq & Huni)]]; [congruence|].
  apply granted_ok in Hgr as [(? & _)|(_ & pid & ga & gn & _ & Hfr & Hpu & Hep & Hpol & Hb & Htr & _ & _ & (HB & _ & HE & _) & _)]; [congruence|].
  rewrite Hd0 in He, Hsa, Huni. exists s, (bd_at bd), e, (grace_row sc sid pid ga). rewrite Hold.
  split_and!; try done.
  - rewrite B', HB. cbn. rewrite Hb1, Hd0. cbn. by rewrite lookup_insert_eq.
  - split_and!; [done|done|]. intros q Hqe. destruct (Hq q Hqe) as (u & Hu & Hlt). rewrite Hd0 in Hu. by exists u.
  - rewrite E', HE. cbn. by rewrite lookup_insert_eq.
  - cbn. by rewrite Hb.
  - cbn. rewrite Hpol. apply Hdur.
  - cbn. rewrite Hpol. apply Hdur.
  - intros id. rewrite E', HE. cbn. destruct (decide (id = NewEntitlementID r)) as [->|Hne]; [by right|].
    rewrite lookup_insert_ne by done. intros [x Hx]. left. destruct (ents d !! id) eqn:Ed; [by eexists|].
    destruct HCl as [_ HCl]. destruct (HCl id) as [[HE1 _]|(e1 & e2 & He1 & _)]; rewrite Hd0 in *; cbn in *; congruence.
  - intros id p Hpid Htrig Hstay Hepi. rewrite Hp1, Hd0 in Hpu. unfold insert_purchase in Hpu. checks Hpu.
    match goal with X : _ || negb _ = true |- _ => rename X into Hu end. rewrite !orb_true_iff in Hu. destruct Hu as [[Hu|Hu]|Hu].
    + apply bool_decide_eq_true in Hu. apply Hu. cbn. set_solver.
    + apply bool_decide_eq_true in Hu. done.
    + apply negb_true_iff in Hu. unfold exists_row in Hu. apply not_true_iff_false in Hu. apply Hu. apply existsb_exists.
      exists (id, p). split; [apply list_elem_of_In, elem_of_map_to_list; by rewrite Hp1, Hd0|].
      rewrite !bool_decide_true by (cbn; congruence || done). done.
Qed.

(** ** The tables of the engine *)

Lemma convert_episode_base sc sid ep bd eid d r d' : runs (convert_episode sc sid ep bd eid) d r d' → base d' = base d.
Proof.
  intros (elig & n & d1 & a & _ & Hte & _ & _ & _ & _ & _ & _ & H)%convert_episode_inv.
  apply terminated_pre_checkout in Hte as [(Hb & _)%closes_frame _].
  destruct H as [(_ & _ & _ & H)|(_ & _ & c & d2 & d3 & d4 & rs & pol & en & cfg & sw & _ & _ & Hgr & Hfr & Hre & H)];
    apply insert_audit_ok in H as [-> _]; cbn; [done|].
  apply revoke_ok in Hre as ((-> & _) & _). apply freeze_frame in Hfr as ->. cbn. rewrite <- Hb.
  by apply granted_ok in Hgr as [(_ & _ & ->)|(_ & pid & ga & gn & _ & _ & _ & _ & _ & _ & _ & _ & _ & (-> & _) & _)].
Qed.

Lemma in_house_base sc sid eid d r d' s :
  stays (base d) !! sid = Some s → stay_scope s = sc → status s = IN_HOUSE → runs (convertTx sc sid eid) d r d' →
  ∃ b, base d' = set_stays (base d) (<[sid := checked_out b s]> (stays (base d))).
Proof.
  intros Hs Hsc Hst H. apply convertTx_inv in H as (s' & [Hs' _]%scoped_stay_ok & H). rewrite Hs in Hs'. injection Hs' as <-.
  destruct H as [(_ & ? & _)|(bd & d1 & Hco & H)]; [done|]. apply (check_out_ok _ _ _ _ _ _ _ Hs) in Hco as [Hd1 _].
  exists (bd_at bd). destruct H as [(-> & _)|[_ ->%convert_episode_base]]; by rewrite Hd1.
Qed.

(** The errors a conversion can fail with. *)
Definition converter_error (e : error) : Prop :=
  (∃ q, e = Sql q) ∨ e ∈ [ErrStayNotFound; ErrInvalidBoundaryEvent; ErrEmergencyCatalogUnavailable; ErrConflictingCheckoutEvent; ErrNoRows].

Definition errs {A} (m : TX CDB A) : Prop := ∀ t t' e, m t = (t', Err e) → converter_error e.

Lemma errs_ret {A} (a : A) : errs (mret a).
Proof. by intros t t' e. Qed.
Lemma errs_fail {A} e : converter_error e → errs (fail e : TX CDB A).
Proof. by intros H t t' e' [= <- <-]. Qed.
Lemma errs_bind {A B} (m : TX CDB A) (f : A → TX CDB B) : errs m → (∀ a, errs (f a)) → errs (m ≫= f).
Proof.
  intros Hm Hf t t' e. unfold mbind, ST_bind. destruct (m t) as [t1 [a|e1]] eqn:E; [apply Hf|]. intros [= <- <-]. by eapply Hm.
Qed.
Lemma errs_statement {A} (f : CDB → res sql_error (CDB * A)) : errs (statement f).
Proof.
  intros t t' e. unfold statement. destruct (tx_aborted t); [intros [= <- <-]; left; by eexists|].
  destruct (next_statement_fails t); [intros [= <- <-]; left; by eexists|].
  destruct (f (tx_db t)) as [[x y]|q]; [done|]. intros [= <- <-]. left. by eexists.
Qed.
Lemma errs_for_each {A} (l : list A) f : (∀ a, errs (f a)) → errs (for_each l f).
Proof. intros Hf. induction l as [|a l IH]; cbn; [apply errs_ret|]. by apply errs_bind. Qed.
Lemma errs_uuid : errs gen_random_uuid.
Proof. by intros t t' e. Qed.
Lemma errs_validate sc pkg pol : errs (validateConfiguredGraceExact cat sc pkg pol).
Proof. intros t t' e. unfold validateConfiguredGraceExact. by destruct (query _ t) as [t1 [b|q]]. Qed.

#[local] Hint Resolve errs_ret errs_statement errs_for_each errs_uuid errs_validate : onegate.

Ltac errs_tac :=
  repeat first
    [ progress intros
    | progress cbv zeta
    | apply errs_bind
    | apply errs_fail; right; set_solver
    | solve [eauto with onegate]
    | progress unfold exec, query, lockGraceConfig, eligibleOriginalAtBoundary, validAtBoundary, terminateNonTerminalPreCheckout,
        writeAudit, grant, readEmergencyCatalog, createGrace, grandfatherBoundaryDevices, freezeBoundaryWatermarks,
        revokeAtBoundary, Checkout.convert_episode, check_out, deriveBoundary, boundaryFloor
    | match goal with |- errs (match ?x with _ => _ end) => destruct x end ].

Lemma errs_check_out sc sid s eid : errs (check_out now_ sc sid s eid).
Proof. unfold check_out. errs_tac. Qed.
Lemma errs_episode sc sid ep bd eid : errs (convert_episode sc sid ep bd eid).
Proof. errs_tac. Qed.
Lemma errs_convertTx sc sid eid : errs (convertTx sc sid eid).
Proof.
  unfold Checkout.convertTx. do 5 (apply errs_bind; [errs_tac|intros ?]). destruct (_ : option Stay); [|errs_tac].
  apply errs_bind; [apply errs_check_out|]. intros [bd|]; [|errs_tac]. apply errs_bind; [errs_tac|]. intros [o|]; [errs_tac|].
  apply errs_episode.
Qed.

(** The conversion on the tables of the engine, the other tables holding [x]. *)
Definition engine_converter (x : CDB) : Converter := λ sc sid eid t,
  let '(t', r) := convertTx sc sid eid (mkTx (set_base x (tx_db t)) (tx_aborted t) (tx_faults t) (tx_uuids t) (tx_next t)) in
  (mkTx (base (tx_db t')) (tx_aborted t') (tx_faults t') (tx_uuids t') (tx_next t'),
   match r with Ok _ => Ok () | Err e => Err e end).


(** ** The history of statuses *)

Lemma coherent_head d id e n : superseded_by n = None → to_state n = ent_status e → ∀ l, hist d id = (l ++ [n])%list → coherent d id e = true.
Proof. intros Hn Hs l Hl. unfold coherent. rewrite Hl, head_live_snoc by done. cbn. rewrite Hs. by apply bool_decide_true. Qed.

Lemma closes_coherent d d' : closes d d' → ∀ id e, ents d' !! id = Some e → ents d !! id = Some e ∨ coherent d' id e = true.
Proof.
  intros [_ H] id e He. destruct (H id) as [[HE _]|(e0 & e' & _ & He' & _ & _ & Hc)]; [left; congruence|right].
  rewrite He in He'. by injection He' as ->.
Qed.

Lemma coherent_frame d d' id e : history d' = history d → coherent d' id e = coherent d id e.
Proof. intros H. unfold coherent, hist. by rewrite H. Qed.

Lemma granted_coherent sc sid ep bd elig r c d1 d2 id e :
  granted sc sid ep bd elig r c d1 d2 → ents d2 !! id = Some e →
  (ents d1 !! id = Some e ∧ coherent d2 id e = coherent d1 id e) ∨ coherent d2 id e = true.
Proof.
  intros [(_ & _ & ->)|(_ & pid & ga & gn & _ & _ & _ & _ & _ & _ & _ & Hsu & Hto & (_ & _ & HE & HH & _) & _)]%granted_ok; [by left|].
  rewrite HE. cbn. destruct (decide (id = NewEntitlementID r)) as [->|Hne].
  - rewrite lookup_insert_eq. intros [= <-]. right. eapply (coherent_head _ _ _ gn); [done|done|].
    unfold hist. rewrite HH. cbn. by rewrite lookup_insert_eq.
  - rewrite lookup_insert_ne by done. intros He. left. split; [done|]. unfold coherent, hist. rewrite HH. cbn. by rewrite lookup_insert_ne.
Qed.

Lemma convert_episode_coherent sc sid ep bd eid d r d' id e :
  runs (convert_episode sc sid ep bd eid) d r d' → ents d' !! id = Some e → ents d !! id = Some e ∨ coherent d' id e = true.
Proof.
  intros (elig & n & d1 & a & _ & Hte & _ & _ & _ & _ & _ & _ & H)%convert_episode_inv He.
  apply terminated_pre_checkout in Hte as [HC _]. pose proof (closes_coherent _ _ HC) as HCC.
  destruct H as [(_ & _ & _ & H)|(_ & _ & c & d2 & d3 & d4 & rs & pol & en & cfg & sw & _ & _ & Hgr & Hfr & Hre & H)];
    apply insert_audit_ok in H as [Hd' _]; rewrite Hd' in He; cbn in He.
  - rewrite (coherent_frame d1) by (by rewrite Hd'). auto.
  - apply revoke_ok in Hre as ((_ & _ & He4 & Hh4 & _) & _). apply freeze_frame in Hfr. rewrite He4, Hfr in He. cbn in He.
    rewrite (coherent_frame d2) by (rewrite Hd'; cbn; by rewrite Hh4, Hfr).
    destruct (granted_coherent _ _ _ _ _ _ _ _ _ _ _ Hgr He) as [[He1 ->]|]; auto.
Qed.

(** Every entitlement that changed has the status its history ends in. *)
Definition changes_backed (d d' : CDB) : Prop :=
  ∀ id e, ents d' !! id = Some e → ents d !! id = Some e ∨ coherent d' id e = true.

(** Every status a conversion writes is backed by the history of its
    entitlement, so the deferred check at COMMIT never undoes a checkout. *)
Theorem history_backs_status (sc : scope) (sid eid : string) (t t' : tx CDB) (r : Result) :
  convertTx sc sid eid t = (t', Ok r) → changes_backed (tx_db t) (tx_db t') ∧ deferred_ok (tx_db t) (tx_db t') = true.
Proof.
  intros H. assert (HR : runs (convertTx sc sid eid) (tx_db t) r (tx_db t')) by (by exists t, t').
  assert (HB : changes_backed (tx_db t) (tx_db t')); [|split; [exact HB|by apply bool_decide_true]].
  intros id e He. apply convertTx_inv in HR as (s & [Hs _]%scoped_stay_ok & [(HE & _)|(bd & d1 & Hco & HR)]).
  { left. by rewrite <- HE. }
  apply (check_out_ok _ _ _ _ _ _ _ Hs) in Hco as [Hd1 _]. destruct HR as [(HE & _)|[_ HR]].
  - left. rewrite HE, Hd1 in He. done.
  - destruct (convert_episode_coherent _ _ _ _ _ _ _ _ _ _ HR He) as [He1|]; [left; by rewrite Hd1 in He1|by right].
Qed.

(** ** Episodes *)

Lemma set_base_id d : set_base d (base d) = d.
Proof. by destruct d. Qed.
Lemma set_same_stays b : set_stays b (stays b) = b.
Proof. by destruct b. Qed.

(** After a checkout the episode has its audit row. *)
Lemma checked_out_recorded sc sid eid d r d' :
  runs (convertTx sc sid eid) d r d' → res_CheckedOut r = true →
  ∃ s b a, scoped_stay sc sid d' = Some (checked_out b s) ∧ eid ≠ "" ∧
    audits d' !! (sc.1.1, sc.1.2, sid, lifecycle_version s) = Some a ∧ boundary_event_id a = Some eid.
Proof.
  intros H HC. pose proof H as H'. apply convertTx_inv in H as (s & Hsc & H). pose proof (scoped_stay_ok _ _ _ _ Hsc) as [Hs Hss].
  destruct H as [(_ & _ & _ & ? & _)|(bd & d1 & Hco & H)]; [congruence|].
  apply (check_out_ok _ _ _ _ _ _ _ Hs) in Hco as [Hd1 Hco].
  assert (HB : base d' = base d1) by (destruct H as [(-> & _)|[_ H]]; [done|by eapply convert_episode_base]).
  assert (HS : scoped_stay sc sid d' = Some (checked_out (bd_at bd) s)).
  { unfold scoped_stay. rewrite HB, Hd1. cbn. rewrite lookup_insert_eq. cbn. by rewrite decide_True. }
  exists s, (bd_at bd). destruct H as [(-> & _ & HC' & _ & a & Ha & Hev)|[_ H]].
  - exists a. destruct Hco as [(_ & _ & _ & _ & Hne & _)|(_ & HF & _)]; [|congruence]. by split_and!.
  - apply convert_episode_inv in H as (elig & n & d2 & a & _ & _ & _ & _ & HC' & _ & Hev & _ & H).
    destruct Hco as [(_ & _ & _ & _ & Hne & _)|(_ & HF & _)]; [|congruence]. exists a.
    assert (Hev' : boundary_event_id a = Some eid) by (rewrite Hev; unfold nilIfEmpty; by rewrite (proj2 (empty_false eid))).
    assert (HA : audits d' !! (sc.1.1, sc.1.2, sid, lifecycle_version s) = Some a).
    { destruct H as [(_ & _ & _ & H)|(_ & _ & c & d3 & d4 & d5 & rs & pol & en & cfg & sw & _ & _ & _ & _ & _ & H)];
        apply insert_audit_ok in H as [-> _]; cbn; by rewrite lookup_insert_eq. }
    by split_and!.
Qed.

(** The answer to a repeated checkout. *)
Definition repeated (r : Result) : Prop := AlreadyProcessed r = true ∧ GraceCreated r = false.

(** An episode is converted once.  After a checkout, converting the same stay
    again changes nothing at all: the same event is reported as already processed,
    any other event is refused. *)
Theorem episode_converted_once (c c2 : Connection) (sc : scope) (sid eid eid2 : string) (d d1 d2 : CDB) (r : Result) (r2 : res error Result) :
  ConvertAtCheckout c sc sid eid d = (d1, Ok r) → res_CheckedOut r = true →
  ConvertAtCheckout c2 sc sid eid2 d1 = (d2, r2) →
  d2 = d1 ∧ ∀ r', r2 = Ok r' → eid2 = eid ∧ repeated r'.
Proof.
  intros H%ConvertAtCheckout_ok HC H2. destruct (checked_out_recorded _ _ _ _ _ _ H HC) as (s & b & a & Hs & _ & Ha & Hev).
  unfold Checkout.ConvertAtCheckout in H2. destruct (begin_fails c2); [by injection H2 as <- <-|]. set (t0 := mkTx _ _ _ _ _) in H2.
  destruct (Checkout.convertTx _ _ _ sc sid eid2 t0) as [t [r0|e]] eqn:E; [|by injection H2 as <- <-].
  assert (HR : runs (convertTx sc sid eid2) d1 r0 (tx_db t)) by (by exists t0, t).
  destruct (reentry_inv _ _ _ _ _ _ _ HR Hs eq_refl) as (a2 & Ha2 & Hev2 & HA & HG & Hd2). cbn in Ha2, Hd2.
  assert (HD : tx_db t = d1).
  { rewrite Hd2. apply scoped_stay_ok in Hs as [Hs _]. change (checked_out b (checked_out b s)) with (checked_out b s).
    rewrite (insert_id _ _ _ Hs). by rewrite set_same_stays, set_base_id. }
  assert (HEV : eid2 = eid) by congruence. rewrite HD in H2.
  destruct (deferred_ok d1 d1); [|by injection H2 as <- <-]. unfold commit in H2. rewrite HD in H2.
  destruct (tx_aborted t); [by injection H2 as <- <-|]. destruct (fate c2); injection H2 as <- <-; split; [done| |done|done|done|done];
    by intros r' [= <-].
Qed.

(** The boundary of a checkout is never invented.  It comes from the applied GO
    event that is the stay's last one; a trusted boundary is exactly the PMS time of
    that event, a suspect one is never later than the server clock, and either is at
    most five minutes ahead of the clock, no earlier than the stay's arrival (less a
    day) and no earlier than any honest fact recorded before it. *)
Theorem boundary_is_plausible (c : Connection) (sc : scope) (sid eid : string) (d d' : CDB) (r : Result) :
  ConvertAtCheckout c sc sid eid d = (d', Ok r) → res_CheckedOut r = true → AlreadyProcessed r = false →
  ∃ s b e, stays (base d) !! sid = Some s ∧ status s = IN_HOUSE ∧ stays (base d') !! sid = Some (checked_out b s) ∧
    last_applied_event_id s = Some eid ∧ boundary_event sc sid eid d = Some e ∧
    plausible sc sid eid d s e b (BoundaryClockSuspect r).
Proof.
  intros H%ConvertAtCheckout_ok HC HNA. apply convertTx_inv in H as (s & [Hs _]%scoped_stay_ok & H).
  destruct H as [(_ & _ & _ & ? & _)|(bd & d1 & Hco & H)]; [congruence|]. apply (check_out_ok _ _ _ _ _ _ _ Hs) in Hco as [Hd1 Hco].
  destruct H as [(_ & HA & _)|[_ H]]; [congruence|]. pose proof (convert_episode_base _ _ _ _ _ _ _ _ H) as HB.
  apply convert_episode_inv in H as (elig & n & d2 & a & _ & _ & _ & _ & HC' & HS & _).
  destruct Hco as [(Hst & _ & _ & Hl & _ & e & He & HP)|(_ & HF & _)]; [|congruence].
  exists s, (bd_at bd), e. rewrite HS. split_and!; try done. rewrite HB, Hd1. cbn. by rewrite lookup_insert_eq.
Qed.

Definition access_untouched (d d' : CDB) : Prop :=
  sessions d' = sessions d ∧ devices d' = devices d ∧ intervals d' = intervals d.

(** A checkout sent to manual review ends the entitlements but not the access:
    when several entitlements were active at the boundary, all are TERMINATED, yet no
    session, device or authorisation of theirs is touched. *)
Theorem manual_review_leaves_sessions (c : Connection) (sc : scope) (sid eid : string) (d d' : CDB) (r : Result) :
  ConvertAtCheckout c sc sid eid d = (d', Ok r) → ManualReview r = true → AlreadyProcessed r = false → res_CheckedOut r = true →
  (∀ id e, ents d' !! id = Some e → pre_checkout sc sid e = true → ent_status e = TERMINATED) ∧
  access_untouched d d'.
Proof.
  intros H%ConvertAtCheckout_ok HM HA HC. apply convertTx_inv in H as (s & [Hs _]%scoped_stay_ok & H).
  destruct H as [(_ & _ & _ & ? & _)|(bd & d1 & Hco & H)]; [congruence|]. apply (check_out_ok _ _ _ _ _ _ _ Hs) in Hco as [Hd1 _].
  destruct H as [(_ & HA' & _)|[_ H]]; [congruence|].
  apply convert_episode_inv in H as (elig & n & d2 & a & _ & Hte & _ & _ & _ & _ & _ & _ & [(_ & _ & _ & H)|(_ & ? & _)]); [|congruence].
  apply terminated_pre_checkout in Hte as [(_ & HD & HI & HS & _)%closes_frame HT]. apply insert_audit_ok in H as [-> _].
  unfold access_untouched. cbn. rewrite HS, HD, HI, Hd1. done.
Qed.
End converter.
