(* ===== verification/CheckoutSample.v ===== *)
(** A hotel on which the theorems of [CheckoutProofs] are applied: one stay with a
    purchased entitlement, a device authorised before the boundary, one authorised
    after it, and their sessions. *)
From S2P Require Import Prelude GoStrings Pg StayTables StayEngine Grace Checkout CheckoutProofs.

#[local] Existing Instance elements_range.

Module CheckoutSample.
Definition sc : scope := ("t", "s", "i").
Definition h (n : Z) : Time := n * Hour.
Definition clock : Time := h 101.
Definition hour_of (t : Time) : Time := t - t mod Hour.

Definition cat : Catalog :=
  mkCatalog (λ _ _ pkg _, bool_decide (pkg = "pkg")) (λ _ _ _, Some ("plan-grace", "VALIDITY_WINDOW")) (λ _ _, "OK")
    (λ _ _, Some ("em-pkg", "em-plan", "VALIDITY_WINDOW")) (λ _ _, Some 5000) (λ _, 2) (λ _, None) (λ _ _, (0, 0)).

Definition stay_row : Stay :=
  mkStay sc "R1" "R1" (Some "101") IN_HOUSE 1 5 (Some "ev1") None None (Some 3) (Some 5) None
    (mkOccupancy None None None None None 0).
Definition go_event : StayEvent :=
  mkStayEvent sc "x1" "GO" (Some (h 100)) (h 101) false JNull LIVE APPLIED (Some "st1") (Some (h 101)) None.
Definition tables : DB := mkDB {["st1" := stay_row]} ∅ {["ev1" := go_event]} ∅ ∅ [].

Definition bought (s : EntState) (reason : option string) : Entitlement :=
  mkEntitlement ("t", "s") (Some "i") (Some "st1") "p0" ("P", zeroPolicy) "plan" "pkg0" "VALIDITY_WINDOW" "AT_CHECKOUT"
    None s reason (Some 1000) false None (Some (h 80)) None.
Definition active_at (t : Time) : Transition := mkTransition None ACTIVE t t None None "SEED".

Definition config : GraceConfig :=
  mkGraceConfig (Some 28800) (Some 5000) (Some 2000) (Some 1000000000) (Some 5) (Some DeviceLimitRejectNew) (Some "pkg") 4 true.

Definition device : EntDevice := mkEntDevice AUTHORIZED false None None None.
Definition session (ent dev : string) (t : Time) : Session := mkSession ("t", "s") ent dev "active" t None None.

Definition hotel : CDB :=
  mkCDB tables {["ev1" := (5, 2)]} {["e1" := bought ACTIVE None]} {["e1" := [active_at (h 80)]]}
    {["e1" := {["dv1" := device; "dv2" := device]}]}
    {["e1" := {["dv1" := [mkInterval (h 81) None]; "dv2" := [mkInterval (h 100 + Minute) None]]}]}
    {["k1" := session "e1" "dv1" (h 82); "k2" := session "e1" "dv2" (h 100 + Minute)]}
    {["k1" := [mkBinding "e1" (h 82) None]; "k2" := [mkBinding "e1" (h 100 + Minute) None]]}
    [mkSample "k1" 1 300 400 (h 90) (h 90); mkSample "k1" 2 300 400 (h 100 + Minute) (h 101)]
    ∅ ∅ [] ∅ ∅ [] ∅ {[("t", "s") := config]}.

(** Two entitlements whose histories overlap at the boundary. *)
Definition overlapping : CDB :=
  set_history (set_ents hotel (<["e2" := bought TERMINATED (Some "ADMIN")]> (ents hotel)))
    (<["e2" := [active_at (h 70); mkTransition (Some ACTIVE) TERMINATED (h 101) (h 101) None None "ADMIN"]]> (history hotel)).

(** A stay checked out before the converter existed. *)
Definition departed : CDB :=
  set_base hotel (set_stays tables {["st1" := checked_out (h 90) stay_row]}).

Definition link : Connection := mkConnection false [] Pos.of_succ_nat Committed.
Definition checkout (d : CDB) : CDB * res error Result := ConvertAtCheckout cat clock hour_of link sc "st1" "ev1" d.
Definition after : CDB := (checkout hotel).1.
Definition result : Result :=
  match (checkout hotel).2 with Ok r => r | Err _ => mkResult false false false false false "" "" "" "" false 0 0 0 0 0 0 "" false end.

Lemma converted : checkout hotel = (after, Ok result).
Proof. vm_compute. reflexivity. Qed.

Definition reviewed : CDB := (checkout overlapping).1.
Definition review : Result := match (checkout overlapping).2 with Ok r => r | Err _ => result end.

Lemma sent_to_review : checkout overlapping = (reviewed, Ok review).
Proof. vm_compute. reflexivity. Qed.

Lemma hotel_references : references hotel.
Proof.
  split.
  - intros k s Hk. assert (Hs : ss_ent s = "e1").
    { unfold hotel in Hk. cbn [sessions] in Hk. apply lookup_insert_Some in Hk as [[_ <-]|[_ Hk]]; [done|].
      by apply lookup_singleton_Some in Hk as [_ <-]. }
    rewrite Hs. by eexists.
  - intros id m Hm. unfold hotel in Hm. cbn [devices] in Hm. apply lookup_singleton_Some in Hm as [<- _]. by eexists.
Qed.
End CheckoutSample.
Import CheckoutSample.


Lemma grace_follows_access_witness :
  ∃ g, ents after !! NewEntitlementID result = Some g ∧ ent_status g = ACTIVE ∧ 0 < DurationSeconds (policy_snapshot g).2 ≤ 604800.
Proof.
  destruct (grace_follows_access cat clock hour_of link sc "st1" "ev1" hotel after result)
    as (s & b & e & g & _ & _ & _ & _ & _ & _ & H1 & _ & H2 & _ & _ & H3 & _); [exact converted|vm_compute; reflexivity|].
  exists g. split; [exact H1|]. split; [exact H2|exact H3].
Defined.

Lemma history_backs_status_witness :
  let t := mkTx hotel false [] Pos.of_succ_nat 0 in
  deferred_ok (tx_db t) (tx_db (convertTx cat clock hour_of sc "st1" "ev1" t).1) = true.
Proof.
  intros t. apply (history_backs_status cat clock hour_of sc "st1" "ev1" t (convertTx cat clock hour_of sc "st1" "ev1" t).1 result).
  vm_compute. reflexivity.
Defined.

Lemma episode_converted_once_witness :
  (checkout after).1 = after ∧ (ConvertAtCheckout cat clock hour_of link sc "st1" "ev2" after).1 = after.
Proof.
  split.
  - destruct (episode_converted_once cat clock hour_of link link sc "st1" "ev1" "ev1" hotel after
      (checkout after).1 result (checkout after).2) as [H _]; [exact converted|vm_compute; reflexivity|apply surjective_pairing|exact H].
  - destruct (episode_converted_once cat clock hour_of link link sc "st1" "ev1" "ev2" hotel after
      (ConvertAtCheckout cat clock hour_of link sc "st1" "ev2" after).1 result
      (ConvertAtCheckout cat clock hour_of link sc "st1" "ev2" after).2) as [H _];
      [exact converted|vm_compute; reflexivity|apply surjective_pairing|exact H].
Defined.

Lemma boundary_is_plausible_witness :
  ∃ s b e, stays (base after) !! "st1" = Some (checked_out b s) ∧ plausible clock sc "st1" "ev1" hotel s e b false.
Proof.
  destruct (boundary_is_plausible cat clock hour_of link sc "st1" "ev1" hotel after result)
    as (s & b & e & _ & _ & H1 & _ & _ & H2); [exact converted|vm_compute; reflexivity..|].
  exists s, b, e. split; [exact H1|exact H2].
Defined.

Lemma manual_review_leaves_sessions_witness :
  (∃ s, sessions reviewed !! "k2" = Some s ∧ ss_state s = "active" ∧ ss_ent s = "e1") ∧ sessions reviewed = sessions overlapping.
Proof.
  split; [eexists; vm_compute; repeat split; reflexivity|].
  destruct (manual_review_leaves_sessions cat clock hour_of link sc "st1" "ev1" overlapping reviewed review)
    as (_ & H & _ & _); [exact sent_to_review|vm_compute; reflexivity..|]. exact H.
Defined.

Lemma reentry_is_never_decided_witness : ∃ e, checkout departed = (departed, Err e).
Proof.
  apply (reentry_is_never_decided cat clock hour_of link sc "st1" "ev1" departed (checked_out (h 90) stay_row)).
  split; [|split]; vm_compute; reflexivity.
Defined.
