(* ===== verification/CheckoutWf.v ===== *)
(** The tables of a checkout stay well formed (Checkout): foreign keys, one live
    entitlement per stay, statuses backed by their histories, and intervals that end
    after they begin. *)
From S2P Require Import Prelude GoStrings Pg StayTables StayEngine Grace Checkout CheckoutProofs CheckoutSample.

Definition ends_after (from : Time) (until : option Time) : Prop := ∀ u, until = Some u → from ≤ u.

Definition ordered (d : CDB) : Prop :=
  (∀ id dev i, i ∈ intervals_of d id dev → ends_after (authorized_at i) (deauthorized_at i)) ∧
  (∀ k l b, bindings d !! k = Some l → b ∈ l → ends_after (bound_from b) (bound_until b)).

Definition one_live (d : CDB) : Prop :=
  ∀ id1 id2 e1 e2, ents d !! id1 = Some e1 → ents d !! id2 = Some e2 → ent_status e1 ≠ TERMINATED → ent_status e2 ≠ TERMINATED →
    is_Some (ent_stay e1) → ent_stay e1 = ent_stay e2 → id1 = id2.

Definition backed (d : CDB) : Prop := ∀ id e, ents d !! id = Some e → coherent d id e = true.

(** The well-formedness of the tables the conversion writes. *)
Record wellformed (d : CDB) : Prop := mkWellformed {
  wf_references : references d;
  wf_one_live : one_live d;
  wf_backed : backed d;
  wf_ordered : ordered d
}.

Section wf.
Context {MR : MapRange} (cat : Catalog) (now_ : Time) (hour_of : Time → Time).

(** ** Ending *)

Lemma closes_one_live d d' : closes d d' → one_live d → one_live d'.
Proof.
  intros [_ H] HO id1 id2 e1 e2 H1 H2 L1 L2 Hs HE.
  destruct (H id1) as [[E1 _]|(x & x' & _ & Hx & _ & Hx' & _)]; [|congruence].
  destruct (H id2) as [[E2 _]|(y & y' & _ & Hy & _ & Hy' & _)]; [|congruence].
  apply (HO id1 id2 e1 e2); congruence.
Qed.

Lemma closes_backed d d' : closes d d' → backed d → backed d'.
Proof.
  intros [_ H] HB id e He. destruct (H id) as [[HE HH]|(e0 & e' & _ & He' & _ & _ & Hc)].
  - rewrite HE in He. unfold coherent. rewrite HH. by apply (HB id e).
  - rewrite He in He'. by injection He' as ->.
Qed.

Lemma closes_dom d d' id : closes d d' → is_Some (ents d !! id) → is_Some (ents d' !! id).
Proof. intros [_ H] [e He]. destruct (H id) as [[-> _]|(e0 & e' & _ & -> & _)]; by eexists. Qed.

Lemma closes_references d d' : closes d d' → references d → references d'.
Proof.
  intros HC [H1 H2]. destruct (closes_frame _ _ HC) as (_ & HD & _ & HS & _). split.
  - rewrite HS. intros k s Hk. by eapply closes_dom, H1.
  - rewrite HD. intros id m Hm. by eapply closes_dom, H2.
Qed.

(** ** Intervals *)

Lemma ordered_frame d d' : intervals d' = intervals d → bindings d' = bindings d → ordered d → ordered d'.
Proof. intros HI HB. unfold ordered, intervals_of. by rewrite HI, HB. Qed.

Lemma open_intervals_ordered new b d d' : open_intervals new b d = Ok d' → ordered d → ordered d'.
Proof.
  intros H [HI HB]. apply res_bind_Ok in H as ([] & _ & H). injection H as <-. split; [|exact HB]. intros id dev i.
  unfold intervals_of. cbn. destruct (decide (id = new)) as [->|Hne]; [|rewrite lookup_insert_ne by done; apply HI].
  rewrite lookup_insert_eq. cbn. intros Hi. destruct (_ !! dev) as [l|] eqn:E; [|by apply elem_of_nil in Hi]. cbn in Hi.
  apply lookup_union_Some_raw in E as [E|[_ E]].
  - rewrite lookup_fmap in E. destruct (_ !! dev); [|done]. injection E as <-. apply list_elem_of_singleton in Hi as ->. done.
  - apply (HI new dev). unfold intervals_of. by rewrite E.
Qed.

Lemma rebind_ordered sid id b d d' :
  rebind_session_entitlement cat now_ hour_of sid id b d = Ok d' → ordered d → ordered d'.
Proof.
  unfold rebind_session_entitlement. destruct (sessions d !! sid) as [s|]; [|done]. intros H [HI HB].
  apply res_bind_Ok in H as ([] & _ & H). apply res_bind_Ok in H as ([] & Hle%check_Ok & H).
  do 2 (apply res_bind_Ok in H as ([] & _ & H)). injection H as <-.
  edestruct (charge_frame cat now_ hour_of) as (x & y & z & ->). split; [exact HI|]. cbn. intros k l b0 Hk Hin.
  destruct (decide (k = sid)) as [->|Hne]; [|rewrite lookup_insert_ne in Hk by done; by eapply HB].
  rewrite lookup_insert_eq in Hk. injection Hk as <-. apply elem_of_app in Hin as [Hin| ->%list_elem_of_singleton]; [|done].
  apply list_elem_of_fmap in Hin as (b1 & -> & Hin). rewrite forallb_forall in Hle.
  specialize (Hle b1 (proj1 (list_elem_of_In _ _) Hin)). destruct (open_binding b1) eqn:Eo; cbn in *.
  - intros u [= <-]. by apply Z.leb_le.
  - destruct (bindings d !! sid) as [l|] eqn:El; [|by apply elem_of_nil in Hin]. by eapply HB.
Qed.

Lemma rebind_each_ordered new b ids d u d' :
  runs (for_each ids (λ sid, exec (rebind_session_entitlement cat now_ hour_of sid new b))) d u d' → ordered d → ordered d'.
Proof.
  revert d. induction ids as [|sid ids IH]; intros d H HO; cbn [for_each] in H; runs_step H; [done|].
  eapply IH; [exact H|]. by eapply rebind_ordered.
Qed.

Lemma grandfather_ordered old new b d gs d' :
  runs (grandfatherBoundaryDevices cat now_ hour_of old new b) d gs d' → ordered d → ordered d'.
Proof.
  unfold grandfatherBoundaryDevices. intros H HO. do 4 runs_step H. runs_step H. rename Hm into HC, Hm0 into Hop, Hm1 into HR.
  eapply rebind_each_ordered; [exact HR|]. eapply open_intervals_ordered; [exact Hop|].
  unfold copy_devices in HC. apply res_bind_Ok in HC as ([] & _ & HC). injection HC as <- <-. by eapply ordered_frame, HO.
Qed.

Lemma revoke_ordered sc sid grace b d rs d' : runs (revokeAtBoundary sc sid grace b) d rs d' → ordered d → ordered d'.
Proof.
  unfold revokeAtBoundary. intros H [HI HB]. do 2 runs_step H. runs_step H. rename Hm into HC, Hm0 into HE.
  unfold close_devices in HC. injection HC as <- <-. unfold end_sessions in HE. injection HE as <- <-. split.
  - intros id dev i. unfold intervals_of. cbn. rewrite map_lookup_imap. specialize (HI id dev). unfold intervals_of in HI.
    destruct (intervals d !! id) as [m|]; cbn in *; [|by intros ?%elem_of_nil]. destruct (victim _ _ _ _ id); [|apply HI].
    unfold close_all. rewrite lookup_fmap. destruct (m !! dev) as [l|]; cbn in *; [|by intros ?%elem_of_nil].
    intros (i0 & -> & Hin)%list_elem_of_fmap. unfold close_interval. destruct (is_open i0); [|by apply HI]. cbn. intros u [= <-]. lia.
  - intros k l b0. cbn. rewrite map_lookup_imap. destruct (bindings d !! k) as [l0|] eqn:El; [|done]. cbn. intros [= <-].
    destruct (sessions d !! k) as [s|]; [|by eapply HB]. destruct (_ && _); [|by eapply HB].
    unfold p3_session_close_binding. destruct (ended s); [by eapply HB|]. cbn. intros (b1 & -> & Hin)%list_elem_of_fmap.
    destruct (open_binding b1); [|by eapply HB]. cbn. intros u [= <-]. lia.
Qed.

(** ** The steps of a conversion *)

(** [wellformed] reads six tables only. *)
Lemma wf_frame d d' :
  ents d' = ents d → history d' = history d → devices d' = devices d → intervals d' = intervals d →
  sessions d' = sessions d → bindings d' = bindings d → wellformed d → wellformed d'.
Proof.
  intros HE HH HD HI HS HB [H1 H2 H3 H4]. split.
  - unfold references. by rewrite HE, HD, HS.
  - unfold one_live. by rewrite HE.
  - intros id e. rewrite HE. unfold coherent, hist. rewrite HH. apply H3.
  - by eapply ordered_frame.
Qed.

Lemma closes_wf d d' : closes d d' → wellformed d → wellformed d'.
Proof.
  intros HC [H1 H2 H3 H4]. split; [by eapply closes_references|by eapply closes_one_live|by eapply closes_backed|].
  destruct (closes_frame _ _ HC) as (_ & _ & HI & _). eapply ordered_frame; [exact HI|by destruct HC as [-> _]|done].
Qed.

(** [ent_live_stay] leaves no other live entitlement beside a new row. *)
Lemma checks_alone id e d k e' :
  entitlement_checks id e d = Ok () → ents d !! k = Some e' → k ≠ id → ent_status e ≠ TERMINATED → is_Some (ent_stay e) →
  ent_status e' ≠ TERMINATED → ent_stay e' ≠ ent_stay e.
Proof.
  intros H Hk Hne Hs [st Hst] Hs' HE. apply res_bind_Ok in H as ([] & _ & H%check_Ok).
  rewrite !orb_true_iff, !bool_decide_eq_true in H. destruct H as [[H|H]|H]; [done|congruence|].
  apply negb_true_iff, not_true_iff_false in H. apply H. unfold exists_row. apply existsb_exists. exists (k, e').
  split; [by apply list_elem_of_In, elem_of_map_to_list|]. by rewrite !bool_decide_true.
Qed.

Lemma createGrace_wf sc sid a d new d' :
  runs (createGrace now_ sc sid a) d new d' → wellformed d → wellformed d' ∧ is_Some (ents d' !! new).
Proof.
  intros (pid & n & _ & _ & Hfr & Hsu & Hto & Hck & ->)%createGrace_ok [[HS HD] HO HB HI].
  assert (HK : ∀ id, is_Some (ents d !! id) → is_Some (<[new := grace_row sc sid pid a]> (ents d) !! id)).
  { intros id Hid. destruct (decide (id = new)) as [->|Hne]; [by rewrite lookup_insert_eq|by rewrite lookup_insert_ne]. }
  split; [split|cbn; by rewrite lookup_insert_eq].
  - split; cbn; [intros k s Hk; by eapply HK, HS|intros id m Hm; by eapply HK, HD].
  - intros id1 id2 e1 e2. cbn. destruct (decide (id1 = new)) as [->|N1], (decide (id2 = new)) as [->|N2];
      rewrite ?lookup_insert_eq, ?lookup_insert_ne by done; [done| | |by eapply HO].
    + intros [= <-] H2 L1 L2 Hs HE. by destruct (checks_alone _ _ _ _ _ Hck H2 N2 L1 Hs L2).
    + intros H1 [= <-] L1 L2 Hs HE. rewrite HE in Hs. by destruct (checks_alone _ _ _ _ _ Hck H1 N1 L2 Hs L1).
  - intros id e. cbn. destruct (decide (id = new)) as [->|Hne].
    + rewrite lookup_insert_eq. intros [= <-]. eapply (coherent_head _ _ _ n); [done|done|]. unfold hist. cbn. by rewrite lookup_insert_eq.
    + rewrite lookup_insert_ne by done. intros He. unfold coherent, hist. cbn. rewrite lookup_insert_ne by done. by apply (HB id e).
  - by eapply ordered_frame, HI.
Qed.

Lemma grandfather_wf old new b d gs d' :
  runs (grandfatherBoundaryDevices cat now_ hour_of old new b) d gs d' → is_Some (ents d !! new) → wellformed d → wellformed d'.
Proof.
  intros H Hnew [[HS HD] HO HB HI]. pose proof (grandfather_ordered _ _ _ _ _ _ H HI) as HI'.
  apply grandfather_ok in H as ((_ & _ & HE & HH & _) & HDn & _ & HSn). split; [split|..].
  - intros k s' Hk. rewrite HE. destruct (HSn k s' Hk) as (s & Hs & [->|(-> & _)]); [by eapply HS|done].
  - intros id m Hm. rewrite HE. destruct (decide (id = new)) as [->|Hne]; [done|]. rewrite (proj1 (HDn id Hne)) in Hm. by eapply HD.
  - unfold one_live. by rewrite HE.
  - intros id e. rewrite HE. unfold coherent, hist. rewrite HH. apply HB.
  - done.
Qed.

Lemma granted_wf sc sid ep bd elig r c d1 d2 :
  granted cat now_ hour_of sc sid ep bd elig r c d1 d2 → wellformed d1 → wellformed d2.
Proof.
  intros [(_ & gpkg & trg & ver & gf & sb & H)|(_ & _ & ->)]; [|done]. intros HW.
  apply grant_ok in H as (a & dg & Hg & _ & _ & _ & _ & _ & _ & _ & H). apply createGrace_wf in Hg as [HWg Hnew]; [|done].
  destruct H as [[_ ->]|(_ & gs & H)]; [done|]. by eapply grandfather_wf.
Qed.

Lemma revoke_wf sc sid grace b d rs d' : runs (revokeAtBoundary sc sid grace b) d rs d' → wellformed d → wellformed d'.
Proof.
  intros H [[HS HD] HO HB HI]. pose proof (revoke_ordered _ _ _ _ _ _ _ H HI) as HI'. split; [| | |done];
    unfold revokeAtBoundary in H; do 2 runs_step H; runs_step H; rename Hm into HC, Hm0 into HE;
    unfold close_devices in HC; injection HC as <- <-; unfold end_sessions in HE; injection HE as <- <-; [|exact HO|exact HB].
  split; cbn.
  - intros k s. rewrite lookup_fmap. destruct (sessions d !! k) as [s0|] eqn:E; [|done]. cbn. intros [= <-].
    destruct (_ && _); [change (ss_ent (ended_at b s0)) with (ss_ent s0)|]; by eapply HS.
  - intros id m. rewrite map_lookup_imap. destruct (devices d !! id) as [m0|] eqn:E; [|done]. intros _. by eapply HD.
Qed.

Lemma insert_audit_wf sc sid ep a d d' : insert_audit sc sid ep a d = Ok d' → wellformed d → wellformed d'.
Proof. intros [-> _]%insert_audit_ok. by apply wf_frame. Qed.

Lemma convert_episode_wf sc sid ep bd eid d r d' :
  runs (convert_episode cat now_ hour_of sc sid ep bd eid) d r d' → wellformed d → wellformed d'.
Proof.
  intros (elig & n & d1 & a & _ & [HC _]%terminated_pre_checkout & _ & _ & _ & _ & _ & _ & H)%convert_episode_inv HW.
  apply (closes_wf _ _ HC) in HW.
  destruct H as [(_ & _ & _ & H)|(_ & _ & c & d2 & d3 & d4 & rs & pol & en & cfg & sw & _ & _ & Hgr & Hfr & Hre & H)];
    eapply insert_audit_wf; eauto.
  eapply revoke_wf; [exact Hre|]. apply freeze_frame in Hfr. apply granted_wf in Hgr; [|done].
  rewrite Hfr. by apply (wf_frame d2).
Qed.

(** C36. A checkout keeps the tables well formed: every session and device still
    names an entitlement, a stay still holds at most one live entitlement, every
    status is the one its history ends in, and no authorisation or binding ends
    before it begins. *)
Theorem conversion_preserves_wellformed (c : Connection) (sc : scope) (sid eid : string) (d d' : CDB) (r : res error Result) :
  wellformed d → ConvertAtCheckout cat now_ hour_of c sc sid eid d = (d', r) → wellformed d'.
Proof.
  intros HW H. unfold ConvertAtCheckout in H. destruct (begin_fails c); [by injection H as <- _|].
  destruct (convertTx _ _ _ _ _ _ _) as [t [r0|e]] eqn:E; [|by injection H as <- _].
  assert (HR : runs (convertTx cat now_ hour_of sc sid eid) d r0 (tx_db t)) by (by eexists (mkTx d false (faults c) (uuids c) 0), t).
  assert (HWt : wellformed (tx_db t)).
  { apply convertTx_inv in HR as (s & [Hs _]%scoped_stay_ok & [(-> & _)|(bd & d1 & Hco & HR)]); [done|].
    apply (check_out_ok _ _ _ _ _ _ _ _ Hs) in Hco as [Hd1 _].
    assert (HW1 : wellformed d1) by (rewrite Hd1; by eapply wf_frame, HW).
    destruct HR as [(-> & _)|[_ HR]]; [done|]. by eapply convert_episode_wf. }
  destruct (deferred_ok d (tx_db t)); [|by injection H as <- _]. unfold commit in H.
  destruct (tx_aborted t); [by injection H as <- _|]. destruct (fate c); by injection H as <- _.
Qed.
End wf.

Import CheckoutSample.
#[local] Existing Instance elements_range.

Lemma hotel_ordered : ordered hotel.
Proof.
  split.
  - intros id dev i Hi u Hu. unfold intervals_of, hotel in Hi. cbn [intervals] in Hi.
    destruct ({[ "e1" := _ ]} !! id) as [m|] eqn:E in Hi; [|by apply elem_of_nil in Hi].
    apply lookup_singleton_Some in E as [_ <-]. unfold default, Datatypes.id in Hi.
    destruct (_ !! dev) as [l|] eqn:E in Hi; [|by apply elem_of_nil in Hi].
    apply lookup_insert_Some in E as [[_ <-]|[_ [_ <-]%lookup_singleton_Some]]; apply list_elem_of_singleton in Hi as ->; done.
  - intros k l b Hk Hb u Hu. unfold hotel in Hk. cbn [bindings] in Hk.
    apply lookup_insert_Some in Hk as [[_ <-]|[_ [_ <-]%lookup_singleton_Some]]; apply list_elem_of_singleton in Hb as ->; done.
Qed.

Lemma hotel_wellformed : wellformed hotel.
Proof.
  assert (HE : ∀ id e, ents hotel !! id = Some e → id = "e1" ∧ e = bought ACTIVE None).
  { intros id e. unfold hotel. cbn [ents]. by intros [<- <-]%lookup_singleton_Some. }
  split; [exact hotel_references| | |exact hotel_ordered].
  - intros id1 id2 e1 e2 [-> _]%HE [-> _]%HE. done.
  - intros id e [-> ->]%HE. vm_compute. reflexivity.
Qed.

Lemma conversion_preserves_wellformed_witness : wellformed hotel ∧ wellformed after.
Proof.
  split; [exact hotel_wellformed|].
  apply (conversion_preserves_wellformed cat clock hour_of link sc "st1" "ev1" hotel after (Ok result));
    [exact hotel_wellformed|exact converted].
Defined.
