(* ===== verification/ShapePlan.v ===== *)
(** The shaping plan contract between acctd and netd
    (data-plane/internal/shapeplan), its admission by netd
    (data-plane/cmd/netd/phase3_shaping.go [submit], phase3_control.go) and the
    class ids sessions are shaped under (data-plane/internal/shape).

    The kernel work of a pass ([reconcileLocked]) is not modelled: whether it
    left the pass degraded, and whether the fast path applied, are inputs of
    [submit]. *)
From stdpp Require Import pretty.
From S2P Require Import Prelude GoStrings GoText.

(** ** The plan (plan.go) *)

Definition ContractVersion : string := "phase3-shaping/2".

Record Session := mkSession {
  SessionID : string;
  DeviceID : string;
  s_IP : string;
  Bridge : string;
  s_DownKbps : Z;
  s_UpKbps : Z;
  Entitled : bool;
  AccessEndsAt : option Time;
  EndReason : string;
  MAC : string;
  EntitlementID : string;
  SpeedAllocation : string;
  ObservedEpoch : Z;
  ObservedUp : Z;
  ObservedDown : Z
}.

Record Envelope := mkEnvelope {
  env_ContractVersion : string;
  env_TenantID : string;
  env_SiteID : string;
  env_ApplianceID : string;
  env_AssignmentID : string;
  env_AssignmentGen : Z;
  ProducerRuntimeGen : Z;
  PlanGeneration : Z;
  GeneratedAt : Time;
  env_ExpiresAt : Time;
  ManagedBridges : list string;
  Sessions : list Session;
  DesiredStateHash : string
}.

Record Scope := mkScope {
  sc_TenantID : string;
  sc_SiteID : string;
  sc_ApplianceID : string;
  AssignGen : Z
}.

Record Accepted := mkAccepted {
  Generation : Z;
  Hash : string;
  acc_TenantID : string;
  acc_SiteID : string;
  AcceptedAt : Time;
  acc_ExpiresAt : Time
}.

Definition US : Ascii.ascii := Ascii.ascii_of_nat 31.  (* \x1f *)
Definition RS : Ascii.ascii := Ascii.ascii_of_nat 30.  (* \x1e *)

Definition FormatBool (b : bool) : string := if b then "true" else "false".

Section hash.
(** SHA-256 in hex, and [t.UTC().Format(time.RFC3339Nano)]. *)
Context (sha256_hex : string → string) (format_time : Time → string).

Definition ends (t : option Time) : string := match t with Some u => format_time u | None => "" end.

Definition session_fields (s : Session) : list string :=
  [SessionID s; DeviceID s; s_IP s; Bridge s; pretty (s_DownKbps s); pretty (s_UpKbps s);
   FormatBool (Entitled s); ends (AccessEndsAt s); EndReason s; MAC s; EntitlementID s; SpeedAllocation s].

Definition bridge_row (b : string) : string := "B" +:+ String US b.
Definition session_row (s : Session) : string := Join US ("S" :: session_fields s).

Definition state_rows (bridges : list string) (sessions : list Session) : list string :=
  ((bridge_row <$> bridges) ++ (session_row <$> sessions))%list.

Definition state_text (bridges : list string) (sessions : list Session) : string :=
  Join RS (sort_Strings (state_rows bridges sessions)).

Definition HashDesiredState (bridges : list string) (sessions : list Session) : string :=
  sha256_hex (state_text bridges sessions).

(** ** Refusals *)

Definition ReasonUnsupportedContract : string := "unsupported_contract".
Definition ReasonWrongTenant : string := "wrong_tenant".
Definition ReasonWrongSite : string := "wrong_site".
Definition ReasonWrongAppliance : string := "wrong_appliance".
Definition ReasonStaleAssignment : string := "stale_assignment".
Definition ReasonInvalidGeneration : string := "invalid_generation".
Definition ReasonExpiredPlan : string := "expired_plan".
Definition ReasonHashMismatch : string := "hash_mismatch".
Definition ReasonNoManagedBridges : string := "no_managed_bridges".
Definition ReasonStaleGeneration : string := "stale_generation".
Definition ReasonGenerationConflict : string := "duplicate_generation_conflict".
Definition ReasonBadBridgeName : string := "bad_bridge_name".

Definition alnum (b : Z) : bool := in_range 97 122 b || in_range 65 90 b || in_range 48 57 b.

Definition validBridgeName (s : string) : bool :=
  match s with
  | EmptyString => false
  | String c rest =>
      (len s <=? 15) && alnum (byte_of c)
      && all_bytes (λ b, alnum b || (b =? 46)%Z || (b =? 95)%Z || (b =? 45)%Z) rest
  end.

(** [None] is accepted, [Some reason] refused; [last] is the last accepted plan
    when there is one. *)
Definition Validate (env : Envelope) (scope : Scope) (last : option Accepted) (now : Time)
    : option string :=
  if decide (env_ContractVersion env ≠ ContractVersion) then Some ReasonUnsupportedContract
  else if empty (env_TenantID env) || bool_decide (env_TenantID env ≠ sc_TenantID scope) then Some ReasonWrongTenant
  else if empty (env_SiteID env) || bool_decide (env_SiteID env ≠ sc_SiteID scope) then Some ReasonWrongSite
  else if empty (env_ApplianceID env) || bool_decide (env_ApplianceID env ≠ sc_ApplianceID scope) then Some ReasonWrongAppliance
  else if env_AssignmentGen env <? AssignGen scope then Some ReasonStaleAssignment
  else if PlanGeneration env <=? 0 then Some ReasonInvalidGeneration
  else if IsZero (env_ExpiresAt env) || negb (After (env_ExpiresAt env) now) then Some ReasonExpiredPlan
  else if decide (ManagedBridges env = []) then Some ReasonNoManagedBridges
  else if decide (DesiredStateHash env ≠ HashDesiredState (ManagedBridges env) (Sessions env)) then Some ReasonHashMismatch
  else if negb (forallb (λ b, empty b || validBridgeName b) (ManagedBridges env)) then Some ReasonBadBridgeName
  else match last with
  | None => None
  | Some l =>
      if PlanGeneration env <? Generation l then Some ReasonStaleGeneration
      else if (PlanGeneration env =? Generation l)%Z && bool_decide (DesiredStateHash env ≠ Hash l)
      then Some ReasonGenerationConflict
      else None
  end.

(** ** Continuity (continuity.go) *)

Definition MaxContinuityWindowSeconds : Z := 120 * 60.
Definition MaxBudgetAge : Duration := 2 * Minute.

Record ContinuitySession := mkContinuitySession { cs_SessionID : string; HardEnd : option Time }.
Record ContinuityBudget := mkContinuityBudget { cb_EntitlementID : string; RemainingBytes : Z }.

Record Continuity := mkContinuity {
  WindowSeconds : Z;
  AsOf : Time;
  c_Sessions : list ContinuitySession;
  Budgets : list ContinuityBudget;
  ContentsHash : string
}.

Definition continuity_rows (c : Continuity) : list string :=
  Join US ["W"; pretty (WindowSeconds c); format_time (AsOf c)]
  :: (((λ s, Join US ["S"; cs_SessionID s; ends (HardEnd s)]) <$> c_Sessions c)
      ++ ((λ b, Join US ["B"; cb_EntitlementID b; pretty (RemainingBytes b)]) <$> Budgets c))%list.

Definition HashContinuity (c : Continuity) : string :=
  sha256_hex (Join RS (sort_Strings (continuity_rows c))).

Definition ReasonContinuityHash : string := "continuity_hash_mismatch".
Definition ReasonContinuityWindow : string := "continuity_window_out_of_range".
Definition ReasonContinuityStale : string := "continuity_budget_stale".
Definition ReasonContinuityFuture : string := "continuity_as_of_in_the_future".

Definition OffContinuity (now : Time) : Continuity :=
  let c := mkContinuity 0 now [] [] "" in mkContinuity 0 now [] [] (HashContinuity c).

Definition IsOff (c : Continuity) : bool :=
  (WindowSeconds c =? 0)%Z && bool_decide (length (c_Sessions c) = 0%nat)
  && bool_decide (length (Budgets c) = 0%nat) && bool_decide (ContentsHash c = HashContinuity c).

Definition ValidateContinuity (c : Continuity) (now : Time) : option string :=
  if (WindowSeconds c <=? 0) || (MaxContinuityWindowSeconds <? WindowSeconds c) then Some ReasonContinuityWindow
  else if decide (ContentsHash c ≠ HashContinuity c) then Some ReasonContinuityHash
  else if After (AsOf c) (time_Add now (30 * Second)) then Some ReasonContinuityFuture
  else if MaxBudgetAge <? time_Sub now (AsOf c) then Some ReasonContinuityStale
  else None.

(** ** Admission (netd) *)

Definition maxPlanValidity : Duration := 10 * Minute.

(** The accepted-plan file: absent, readable with a positive generation, or
    anything else. *)
Inductive plan_file := NoFile | Stored (a : Accepted) | Damaged.

Record netd := mkNetd {
  active : bool;
  scope : Scope;
  arrivedGen : Z;
  lastAccepted : option Accepted;
  lastConverged : option Accepted;
  store : option plan_file    (* None: no durable store configured *)
}.

Definition load (f : plan_file) : option Accepted * bool :=
  match f with
  | NoFile => (None, false)
  | Stored a => if Generation a <=? 0 then (None, true) else (Some a, false)
  | Damaged => (None, true)
  end.

Definition accepted_of (env : Envelope) (now : Time) : Accepted :=
  mkAccepted (PlanGeneration env) (DesiredStateHash env) (env_TenantID env) (env_SiteID env) now
    (env_ExpiresAt env).

Inductive submission := Refused (reason : string) | Applied (degraded : bool).

(** A plan reaches netd. *)
Definition noteArrival (gen : Z) (n : netd) : netd :=
  mkNetd (active n) (scope n) (Z.max gen (arrivedGen n)) (lastAccepted n) (lastConverged n) (store n).

Definition reasonSuperseded : string := "superseded_by_newer_plan".

(** [fast]: the fast path applies; [pass_degraded]: the kernel pass reported a
    problem; [saved]: the atomic write of the record succeeds. *)
Definition submit (env : Envelope) (now : Time) (fast pass_degraded saved : bool) (n : netd)
    : netd * submission :=
  if PlanGeneration env <? arrivedGen n then (n, Refused reasonSuperseded)
  else if negb (active n) then (n, Refused "phase3_dark")
  else if After (env_ExpiresAt env) (time_Add now maxPlanValidity) then (n, Refused "plan_validity_too_long")
  else
    let '(last, problem) :=
      match lastAccepted n, store n with
      | Some a, _ => (Some a, false)
      | None, Some f => load f
      | None, None => (None, false)
      end in
    match Validate env (scope n) last now with
    | Some reason => (n, Refused reason)
    | None =>
        let a := accepted_of env now in
        let saving := match store n with Some _ => saved | None => true end in
        let store' := match store n with
                      | Some f => Some (if saved then Stored a else f)
                      | None => None
                      end in
        let quick := negb problem && fast in
        let degraded := (if quick then false else pass_degraded || problem) || negb saving in
        (mkNetd (active n) (scope n) (arrivedGen n) (Some a)
           (if degraded then lastConverged n else Some a) store', Applied degraded)
    end.

(** A restart keeps the file and the enrolment and forgets the rest. *)
Definition restart (n : netd) : netd := mkNetd (active n) (scope n) 0 None None (store n).
End hash.

(** ** What the separators rely on *)

Definition plain (s : string) : bool := lacks US s && lacks RS s.

Lemma pretty_plain (z : Z) : plain (pretty z) = true.
Proof.
  assert (H : ∀ d c, In c [US; RS] → pretty_N_char d ≠ c).
  { intros d c [<-|[<-|[]]]; unfold pretty_N_char; repeat case_match; discriminate. }
  unfold plain. rewrite !lacks_pretty_Z; auto; try discriminate; intros; apply H; simpl; auto.
Qed.

(** ** What the hash pins *)

(** The part of a session the hash covers: everything but the byte counters
    acctd observed. *)
Definition hashed (s : Session) : Session :=
  mkSession (SessionID s) (DeviceID s) (s_IP s) (Bridge s) (s_DownKbps s) (s_UpKbps s) (Entitled s)
    (AccessEndsAt s) (EndReason s) (MAC s) (EntitlementID s) (SpeedAllocation s) 0 0 0.

(** No field holds a separator. *)
Definition plain_session (s : Session) : bool :=
  forallb plain [SessionID s; DeviceID s; s_IP s; Bridge s; EndReason s; MAC s; EntitlementID s;
                 SpeedAllocation s].

Definition plain_plan (env : Envelope) : bool :=
  forallb plain (ManagedBridges env) && forallb plain_session (Sessions env).

Section pinned.
Context (sha256_hex : string → string) (format_time : Time → string).
(** RFC 3339 text names one instant, is never empty and has no control byte. *)
Context (format_time_inj : ∀ t u, format_time t = format_time u → t = u)
        (format_time_some : ∀ t, format_time t ≠ "")
        (format_time_plain : ∀ t, plain (format_time t) = true).

Definition row_fields (x : string + Session) : list string :=
  match x with
  | inl b => ["B"; b]
  | inr s => "S" :: session_fields format_time s
  end.

Definition plain_row (x : string + Session) : bool :=
  match x with inl b => plain b | inr s => plain_session s end.

Definition plan_rows (env : Envelope) : list (string + Session) :=
  ((inl <$> ManagedBridges env) ++ (inr <$> Sessions env))%list.

Lemma state_rows_fields env :
  state_rows format_time (ManagedBridges env) (Sessions env)
  = (Join US ∘ row_fields) <$> plan_rows env.
Proof.
  unfold state_rows, plan_rows. rewrite fmap_app, <- !list_fmap_compose. f_equal.
  apply list_fmap_ext. intros i b _. cbn. unfold bridge_row. by rewrite append_nil_r.
Qed.

Lemma ends_plain t : plain (ends format_time t) = true.
Proof using format_time_plain. destruct t; [apply format_time_plain|done]. Qed.

Lemma ends_inj t u : ends format_time t = ends format_time u → t = u.
Proof using format_time_inj format_time_some.
  destruct t as [t|], u as [u|]; cbn; intros E; try done.
  - f_equal. auto.
  - by apply format_time_some in E.
  - by symmetry in E; apply format_time_some in E.
Qed.

Lemma row_fields_plain x : plain_row x = true → Forall (λ f, plain f = true) (row_fields x).
Proof using format_time_plain.
  destruct x as [b|s]; cbn [plain_row row_fields].
  - intros H. repeat constructor; done.
  - unfold plain_session. cbn [forallb]. intros H. zify_guards.
    unfold session_fields. repeat constructor; auto using pretty_plain, ends_plain.
    by destruct (Entitled s).
Qed.

Lemma session_fields_inj s s' :
  session_fields format_time s = session_fields format_time s' → hashed s = hashed s'.
Proof using format_time_inj format_time_some.
  unfold session_fields, hashed. intros E.
  injection E as E1 E2 E3 E4 E5 E6 E7 E8 E9 E10 E11 E12.
  apply (inj pretty) in E5, E6. apply ends_inj in E8.
  assert (Entitled s = Entitled s') by (by destruct (Entitled s), (Entitled s')).
  congruence.
Qed.

Definition hashed_row (x : string + Session) : string + Session :=
  match x with inl b => inl b | inr s => inr (hashed s) end.

Lemma row_inj x y :
  plain_row x = true → plain_row y = true →
  Join US (row_fields x) = Join US (row_fields y) → hashed_row x = hashed_row y.
Proof using format_time_inj format_time_some format_time_plain.
  intros Hx%row_fields_plain Hy%row_fields_plain E. apply Join_inj in E.
  - destruct x as [b|s], y as [b'|s']; cbn [row_fields] in E; try discriminate E.
    + cbn. congruence.
    + cbn [hashed_row]. f_equal. apply session_fields_inj. congruence.
  - by destruct x.
  - by destruct y.
  - eapply Forall_impl; [exact Hx|]. unfold plain. intros ??. by zify_guards.
  - eapply Forall_impl; [exact Hy|]. unfold plain. intros ??. by zify_guards.
Qed.

Lemma plan_rows_plain env x : plain_plan env = true → x ∈ plan_rows env → plain_row x = true.
Proof.
  unfold plain_plan, plan_rows. intros [Pb Ps]%andb_true_iff.
  rewrite forallb_forall in Pb, Ps. rewrite elem_of_app, !list_elem_of_fmap.
  intros [(b & -> & Hb%list_elem_of_In)|(s & -> & Hs%list_elem_of_In)].
  - exact (Pb b Hb).
  - exact (Ps s Hs).
Qed.

Lemma state_text_inj env env' :
  ManagedBridges env ≠ [] → ManagedBridges env' ≠ [] →
  plain_plan env = true → plain_plan env' = true →
  state_text format_time (ManagedBridges env) (Sessions env)
  = state_text format_time (ManagedBridges env') (Sessions env') →
  hashed_row <$> plan_rows env ≡ₚ hashed_row <$> plan_rows env'.
Proof using format_time_inj format_time_some format_time_plain.
  intros Hb Hb' Hp Hp' E. unfold state_text in E.
  assert (Hrows : ∀ e, plain_plan e = true →
    Forall (λ r, lacks RS r = true) (state_rows format_time (ManagedBridges e) (Sessions e))).
  { intros e He. rewrite state_rows_fields. apply Forall_fmap, Forall_forall. intros x Hx.
    apply Join_lacks; [done|]. eapply Forall_impl; [by eapply row_fields_plain, plan_rows_plain|].
    unfold plain. intros ??. by zify_guards. }
  assert (Hne : ∀ e, ManagedBridges e ≠ [] →
    sort_Strings (state_rows format_time (ManagedBridges e) (Sessions e)) ≠ []).
  { intros e He Hs. pose proof (sort_Strings_perm (state_rows format_time (ManagedBridges e) (Sessions e))) as P.
    rewrite Hs in P. apply Permutation_nil in P. unfold state_rows in P. by destruct (ManagedBridges e). }
  apply Join_inj in E; [|by apply Hne|by apply Hne|rewrite sort_Strings_perm; by apply Hrows..].
  apply (Permutation_fmap_weaken (Join US ∘ row_fields)).
  - intros x y Hx Hy. apply row_inj; [exact (plan_rows_plain _ _ Hp Hx)|exact (plan_rows_plain _ _ Hp' Hy)].
  - rewrite <- !state_rows_fields, <- (sort_Strings_perm (state_rows format_time (ManagedBridges env) _)), E.
    apply sort_Strings_perm.
Qed.

Lemma hashed_rows_split env env' :
  hashed_row <$> plan_rows env ≡ₚ hashed_row <$> plan_rows env' →
  ManagedBridges env ≡ₚ ManagedBridges env' ∧ hashed <$> Sessions env ≡ₚ hashed <$> Sessions env'.
Proof.
  intros P.
  assert (Hl : ∀ e, omap (λ x : string + Session, match x with inl b => Some b | inr _ => None end)
                      (hashed_row <$> plan_rows e) = ManagedBridges e).
  { intros e. unfold plan_rows. rewrite fmap_app, omap_app.
    induction (ManagedBridges e) as [|b l IH]; [|by cbn; f_equal]. by induction (Sessions e). }
  assert (Hr : ∀ e, omap (λ x : string + Session, match x with inl _ => None | inr s => Some s end)
                      (hashed_row <$> plan_rows e) = hashed <$> Sessions e).
  { intros e. unfold plan_rows. rewrite fmap_app, omap_app.
    induction (ManagedBridges e) as [|b l IH]; [|done]. cbn.
    induction (Sessions e) as [|s l IH]; [done|]. cbn. by f_equal. }
  split; [rewrite <- (Hl env), <- (Hl env')|rewrite <- (Hr env), <- (Hr env')]; by rewrite P.
Qed.
End pinned.

(** ** The admission history *)

Inductive event :=
| Arrive (gen : Z)
| Submit (env : Envelope) (now : Time) (fast pass_degraded saved : bool)
| Restart.

Definition is_restart (e : event) : bool := match e with Restart => true | _ => false end.

Section admission.
Context (sha256_hex : string → string) (format_time : Time → string).

Definition step (n : netd) (e : event) : netd :=
  match e with
  | Arrive gen => noteArrival gen n
  | Submit env now fast pass_degraded saved =>
      (submit sha256_hex format_time env now fast pass_degraded saved n).1
  | Restart => restart n
  end.

Definition run (n : netd) (es : list event) : netd := foldl step n es.

(** The record the next submission is judged against. *)
Definition effective (n : netd) : option Accepted :=
  match lastAccepted n with
  | Some a => Some a
  | None => match store n with Some f => (load f).1 | None => None end
  end.

Lemma submit_admitted env now fast pass_degraded saved n n' d :
  submit sha256_hex format_time env now fast pass_degraded saved n = (n', Applied d) →
  Validate sha256_hex format_time env (scope n) (effective n) now = None ∧
  arrivedGen n ≤ PlanGeneration env ∧ active n = true ∧
  env_ExpiresAt env ≤ now + maxPlanValidity ∧
  lastAccepted n' = Some (accepted_of env now) ∧
  store n' = (if saved then (λ _, Stored (accepted_of env now)) <$> store n else store n) ∧
  (d = false → store n = None ∨ saved = true) ∧
  lastConverged n' = (if d then lastConverged n else Some (accepted_of env now)).
Proof.
  unfold submit. intros H.
  destruct (PlanGeneration env <? arrivedGen n) eqn:?; [done|].
  destruct (negb (active n)) eqn:?; [done|].
  destruct (After (env_ExpiresAt env) (time_Add now maxPlanValidity)) eqn:Hx; [done|].
  unfold After, time_Add in Hx. zify_guards.
  assert (He : ∃ p, match lastAccepted n, store n with
      | Some a, _ => (Some a, false)
      | None, Some f => load f
      | None, None => (None, false)
      end = (effective n, p)).
  { unfold effective. destruct (lastAccepted n); [eauto|]. destruct (store n); [|eauto].
    exists (load p).2. by destruct (load p). }
  destruct He as [p He]. rewrite He in H.
  destruct (Validate sha256_hex format_time env (scope n) (effective n) now) eqn:HV; [done|].
  injection H as <- <-. cbn.
  split_and!; try done; destruct (store n), saved; cbn; auto.
  by rewrite orb_true_r.
Qed.

Lemma submit_refused env now fast pass_degraded saved n n' r :
  submit sha256_hex format_time env now fast pass_degraded saved n = (n', Refused r) → n' = n.
Proof. unfold submit. repeat case_match; intros; by simplify_eq. Qed.

(** The record stands at plan [a] or beyond it. *)
Definition at_least (a : Accepted) (l : option Accepted) : Prop :=
  ∃ b, l = Some b ∧ 0 < Generation b ∧
    (Generation a < Generation b ∨ Generation a = Generation b ∧ Hash a = Hash b).

Definition guarded (a : Accepted) (n : netd) : Prop := at_least a (effective n).

Definition durable (a : Accepted) (n : netd) : Prop :=
  guarded a n ∧ ∃ f, store n = Some f ∧ at_least a (load f).1.

Lemma Validate_floor env s last now a :
  Validate sha256_hex format_time env s last now = None → at_least a last →
  at_least a (Some (accepted_of env now)).
Proof.
  intros H (b & -> & Hb & Hab). unfold Validate in H. passed H.
  exists (accepted_of env now). split; [done|]. cbn. split; [lia|].
  destruct (decide (PlanGeneration env = Generation b)) as [E|]; [|lia].
  rewrite E, Z.eqb_refl in *. cbn in *. zify_guards.
  destruct Hab as [|[? ?]]; [lia|]. right. split; [congruence|].
  destruct (decide (DesiredStateHash env = Hash b)); [congruence|naive_solver].
Qed.

Lemma Validate_own env s last now :
  Validate sha256_hex format_time env s last now = None →
  at_least (accepted_of env now) (Some (accepted_of env now)).
Proof. intros H. unfold Validate in H. passed H; eexists; cbn; eauto with lia. Qed.

Lemma load_Stored a : 0 < Generation a → load (Stored a) = (Some a, false).
Proof. intros. unfold load. by destruct (Z.leb_spec (Generation a) 0); [lia|]. Qed.

Lemma step_guarded a n e : is_restart e = false → guarded a n → guarded a (step n e).
Proof.
  destruct e as [gen|env now fast deg saved|]; intros Hr Hg; [done| |done]. cbn.
  destruct (submit _ _ _ _ _ _ _ _) as [n' [r|d]] eqn:E; cbn.
  - by apply submit_refused in E as ->.
  - apply submit_admitted in E as (HV & _ & _ & _ & HL & _).
    unfold guarded, effective. rewrite HL. by eapply Validate_floor.
Qed.

Lemma step_durable a n e : durable a n → durable a (step n e).
Proof.
  intros [Hg Hd]. destruct e as [gen|env now fast deg saved|].
  - by split.
  - split; [by apply step_guarded|]. cbn. destruct (submit _ _ _ _ _ _ _ _) as [n' [r|d]] eqn:E; cbn.
    + by apply submit_refused in E as ->.
    + apply submit_admitted in E as (HV & _ & _ & _ & _ & HS & _).
      destruct saved; [|by rewrite HS]. destruct Hd as (f & Hf & _).
      rewrite HS, Hf. eexists. split; [done|].
      pose proof (Validate_floor _ _ _ _ a HV Hg) as Ha. rewrite load_Stored; [done|].
      destruct Ha as (b & [= <-] & ? & _). done.
  - destruct Hd as (f & Hf & Ha). unfold durable, guarded, effective. cbn. rewrite Hf. eauto.
Qed.

Lemma run_guarded a n es : forallb (λ e, negb (is_restart e)) es = true → guarded a n → guarded a (run n es).
Proof.
  revert n. induction es as [|e es IH]; cbn; intros n Hr Hg; [done|]. zify_guards.
  apply IH; [done|]. by apply step_guarded.
Qed.

Lemma run_durable a n es : durable a n → durable a (run n es).
Proof. revert n. induction es as [|e es IH]; cbn; intros n Hd; [done|]. by apply IH, step_durable. Qed.

Lemma admitted_guarded env now fast deg saved n n' d :
  submit sha256_hex format_time env now fast deg saved n = (n', Applied d) →
  guarded (accepted_of env now) n' ∧ (d = false → store n ≠ None → durable (accepted_of env now) n').
Proof.
  intros E. apply submit_admitted in E as (HV & _ & _ & _ & HL & HS & Hsave & _).
  pose proof (Validate_own _ _ _ _ HV) as Ho.
  assert (Hg : guarded (accepted_of env now) n') by (unfold guarded, effective; by rewrite HL).
  split; [done|]. intros Hd Hst. split; [done|].
  destruct (Hsave Hd) as [?| ->]; [done|]. destruct (store n) as [f|]; [|done].
  rewrite HS. eexists. split; [done|]. rewrite load_Stored; [done|].
  destruct Ho as (b & [= <-] & ? & _). done.
Qed.
End admission.

(** C30. What netd was told to enforce is never silently replaced: a plan admitted
    after another one, with no restart of netd between them or the first one
    reported converged with a durable store configured (then across any number
    of restarts, lost writes and competing submissions), has a generation at
    least as new, and under the same generation the same hash. *)
Theorem admitted_plan_never_rolled_back sha256_hex format_time
    env now fast deg saved n n1 d es env' now' fast' deg' saved' n2 d' :
  submit sha256_hex format_time env now fast deg saved n = (n1, Applied d) →
  d = false ∧ store n ≠ None ∨ forallb (λ e, negb (is_restart e)) es = true →
  submit sha256_hex format_time env' now' fast' deg' saved' (run sha256_hex format_time n1 es)
    = (n2, Applied d') →
  PlanGeneration env < PlanGeneration env' ∨
  PlanGeneration env = PlanGeneration env' ∧ DesiredStateHash env = DesiredStateHash env'.
Proof.
  intros H1 Hes H2. apply admitted_guarded in H1 as [Hg Hd].
  apply submit_admitted in H2 as (HV & _).
  assert (Hr : guarded (accepted_of env now) (run sha256_hex format_time n1 es)).
  { destruct Hes as [[Hc Hs]|Hr]; [|by apply run_guarded]. apply (run_durable _ _ _ _ es (Hd Hc Hs)). }
  destruct (Validate_floor _ _ _ _ _ _ _ HV Hr) as (b & [= <-] & _ & Hb). cbn in Hb. exact Hb.
Qed.

(** A plan can be presented again only while it is current: two admissions of
    one envelope, whatever happened to netd and its file between them, are less
    than [maxPlanValidity] apart, and each is within the plan's own validity and
    for this appliance. *)
Theorem replay_window_bounded sha256_hex format_time
    env now fast deg saved n n1 d now' fast' deg' saved' n' n2 d' :
  submit sha256_hex format_time env now fast deg saved n = (n1, Applied d) →
  submit sha256_hex format_time env now' fast' deg' saved' n' = (n2, Applied d') →
  now' - now < maxPlanValidity ∧
  now < env_ExpiresAt env ∧ now' < env_ExpiresAt env ∧
  env_TenantID env = sc_TenantID (scope n) ∧ env_SiteID env = sc_SiteID (scope n) ∧
  env_ApplianceID env = sc_ApplianceID (scope n) ∧ AssignGen (scope n) ≤ env_AssignmentGen env ∧
  DesiredStateHash env = HashDesiredState sha256_hex format_time (ManagedBridges env) (Sessions env).
Proof.
  intros (HV & _ & _ & Hx & _)%submit_admitted (HV' & _)%submit_admitted.
  unfold Validate in HV, HV'. passed HV. all: passed HV'. all: unfold After in *; zify_guards.
  all: split_and!; [lia|lia|lia|apply dec_stable; done..|lia|by apply dec_stable].
Qed.

(** Two plans that pass validation under one hash ask for the same thing: the
    same managed bridges and, up to order and the observed byte counters, the
    same sessions with the same device, address, rates, entitlement, end of
    access and reason.  The text that is hashed is unambiguous; that two
    different texts do not share a digest is the hypothesis on SHA-256. *)
Theorem hash_pins_desired_state (sha256_hex : string → string) (format_time : Time → string)
    env env' scope scope' last last' now now' :
  (∀ t u, format_time t = format_time u → t = u) →
  (∀ t, format_time t ≠ "") →
  (∀ t, plain (format_time t) = true) →
  (let text e := state_text format_time (ManagedBridges e) (Sessions e) in
   sha256_hex (text env) = sha256_hex (text env') → text env = text env') →
  plain_plan env = true → plain_plan env' = true →
  Validate sha256_hex format_time env scope last now = None →
  Validate sha256_hex format_time env' scope' last' now' = None →
  DesiredStateHash env = DesiredStateHash env' →
  ManagedBridges env ≡ₚ ManagedBridges env' ∧ hashed <$> Sessions env ≡ₚ hashed <$> Sessions env'.
Proof.
  intros Hinj Hsome Hplain Hsha Hp Hp' HV HV' E.
  assert (Hv : ∀ e s l t, Validate sha256_hex format_time e s l t = None →
    ManagedBridges e ≠ [] ∧
    DesiredStateHash e = HashDesiredState sha256_hex format_time (ManagedBridges e) (Sessions e)).
  { intros e s l t H. unfold Validate in H. passed H; (split; [done|by apply dec_stable]). }
  destruct (Hv _ _ _ _ HV) as [Hb Hh]. destruct (Hv _ _ _ _ HV') as [Hb' Hh'].
  apply hashed_rows_split. eapply (state_text_inj format_time); try done.
  apply Hsha. unfold HashDesiredState in *. congruence.
Qed.

(** A continuity block netd accepts lets sessions outlive the plans for at most
    two hours from figures at most two minutes old (and at most 30 seconds
    ahead of netd's clock), and is the block that was hashed; the explicit
    "off" block is never taken for a window. *)
Theorem continuity_bounded sha256_hex format_time c now :
  ValidateContinuity sha256_hex format_time c now = None →
  0 < WindowSeconds c ≤ MaxContinuityWindowSeconds ∧
  now - MaxBudgetAge ≤ AsOf c ≤ now + 30 * Second ∧
  ContentsHash c = HashContinuity sha256_hex format_time c ∧
  IsOff sha256_hex format_time c = false ∧
  (∀ t, IsOff sha256_hex format_time (OffContinuity sha256_hex format_time t) = true ∧
        ValidateContinuity sha256_hex format_time (OffContinuity sha256_hex format_time t) now
        = Some ReasonContinuityWindow).
Proof.
  unfold ValidateContinuity. intros H. passed H. unfold After, time_Add in *. zify_guards.
  match goal with H : time_Sub _ _ ≤ _ |- _ => rename H into Hs end. split_and!; try lia.
  - unfold time_Sub in Hs. unfold MaxBudgetAge, Minute, Second, Millisecond, Microsecond, Nanosecond, two63 in *. lia.
  - by apply dec_stable.
  - unfold IsOff. destruct (Z.eqb_spec (WindowSeconds c) 0); [lia|done].
  - intros t. split; [|done]. unfold IsOff, OffContinuity. cbn [WindowSeconds c_Sessions Budgets ContentsHash].
    by rewrite !bool_decide_true.
Qed.

(** ** A concrete appliance *)

Module PlanSample.
Definition digest (s : string) : string := s.
Definition stamp (t : Time) : string := "T" +:+ pretty t.

Definition guest (n : Z) : Session :=
  mkSession ("s" +:+ pretty n) "d1" "10.0.0.7" "br-g301" 4096 1024 true (Some 900000000000) "" "aa:bb" "e1" "shared" 1 n 0.

Definition plan (gen : Z) (guests : list Session) : Envelope :=
  mkEnvelope ContractVersion "t1" "site1" "app1" "as1" 3 1 gen 0 (90 * Second) ["br-g301"; "br-lan"] guests
    (HashDesiredState digest stamp ["br-g301"; "br-lan"] guests).

Definition fresh : netd := mkNetd true (mkScope "t1" "site1" "app1" 3) 0 None None (Some NoFile).

Definition converged : netd := (submit digest stamp (plan 7 [guest 1]) Second false false true fresh).1.

Lemma stamp_inj t u : stamp t = stamp u → t = u.
Proof. intros E. apply (inj pretty). by injection E. Qed.

Lemma stamp_plain t : plain (stamp t) = true.
Proof.
  unfold stamp, plain. rewrite !lacks_app. apply andb_true_iff. pose proof (pretty_plain t) as H.
  unfold plain in H. by zify_guards.
Qed.
End PlanSample.

Lemma admitted_plan_never_rolled_back_witness :
  PlanGeneration (PlanSample.plan 7 [PlanSample.guest 1]) < PlanGeneration (PlanSample.plan 8 [])
  ∨ PlanGeneration (PlanSample.plan 7 [PlanSample.guest 1]) = PlanGeneration (PlanSample.plan 8 []) ∧
    DesiredStateHash (PlanSample.plan 7 [PlanSample.guest 1]) = DesiredStateHash (PlanSample.plan 8 []).
Proof.
  refine (admitted_plan_never_rolled_back PlanSample.digest PlanSample.stamp
    (PlanSample.plan 7 [PlanSample.guest 1]) Second false false true PlanSample.fresh PlanSample.converged false
    [Submit (PlanSample.plan 6 []) (2 * Second) false false true; Restart; Arrive 8]
    (PlanSample.plan 8 []) (3 * Second) false true false
    (submit PlanSample.digest PlanSample.stamp (PlanSample.plan 8 []) (3 * Second) false true false
       (run PlanSample.digest PlanSample.stamp PlanSample.converged
          [Submit (PlanSample.plan 6 []) (2 * Second) false false true; Restart; Arrive 8])).1 true _ _ _).
  - vm_compute. reflexivity.
  - left. split; [reflexivity|discriminate].
  - vm_compute. reflexivity.
Defined.

Lemma replay_window_bounded_witness : 5 * Second - Second < maxPlanValidity.
Proof.
  refine (proj1 (replay_window_bounded PlanSample.digest PlanSample.stamp
    (PlanSample.plan 7 [PlanSample.guest 1]) Second false false true PlanSample.fresh PlanSample.converged false
    (5 * Second) true false true (restart PlanSample.converged)
    (submit PlanSample.digest PlanSample.stamp (PlanSample.plan 7 [PlanSample.guest 1]) (5 * Second) true false true
       (restart PlanSample.converged)).1 false _ _)); vm_compute; reflexivity.
Defined.

(** The same plan with its bridges and sessions listed in another order. *)
Definition reordered : Envelope :=
  mkEnvelope ContractVersion "t1" "site1" "app1" "as1" 3 1 9 0 (90 * Second) ["br-lan"; "br-g301"]
    [PlanSample.guest 2; PlanSample.guest 1]
    (HashDesiredState PlanSample.digest PlanSample.stamp ["br-g301"; "br-lan"]
       [PlanSample.guest 1; PlanSample.guest 2]).

Lemma hash_pins_desired_state_witness :
  ManagedBridges (PlanSample.plan 9 [PlanSample.guest 1; PlanSample.guest 2]) ≡ₚ ManagedBridges reordered ∧
  hashed <$> Sessions (PlanSample.plan 9 [PlanSample.guest 1; PlanSample.guest 2])
    ≡ₚ hashed <$> Sessions reordered.
Proof.
  apply (hash_pins_desired_state PlanSample.digest PlanSample.stamp _ _
    (scope PlanSample.fresh) (scope PlanSample.fresh) None None Second Second).
  - apply PlanSample.stamp_inj.
  - discriminate.
  - apply PlanSample.stamp_plain.
  - intros text H. exact H.
  - vm_compute. reflexivity.
  - vm_compute. reflexivity.
  - vm_compute. reflexivity.
  - vm_compute. reflexivity.
  - reflexivity.
Defined.

Lemma continuity_bounded_witness :
  IsOff PlanSample.digest PlanSample.stamp
    (mkContinuity 3600 0 [] [] (HashContinuity PlanSample.digest PlanSample.stamp (mkContinuity 3600 0 [] [] "")))
  = false.
Proof.
  refine (proj1 (proj2 (proj2 (proj2 (continuity_bounded PlanSample.digest PlanSample.stamp
    (mkContinuity 3600 0 [] [] (HashContinuity PlanSample.digest PlanSample.stamp (mkContinuity 3600 0 [] [] "")))
    Second _))))).
  vm_compute. reflexivity.
Defined.
