(* ===== verification/ShapeClass.v ===== *)
(** The class ids guest sessions and shared groups are shaped under
    (data-plane/internal/shape/minor.go, shape.go).

    An IPv4 address is the 32-bit integer of its four bytes; [None] is an
    address [To4] rejects.  The subnets configured on a bridge are read from the
    kernel and are an argument of [MinorFor]. *)
From stdpp Require Import pretty.
From S2P Require Import Prelude GoStrings.

Definition GuestMinorBase : Z := 0x1000.
Definition GuestMinorMax : Z := 0x1fff.
Definition GroupMinorBase : Z := 0x2000.
Definition GroupMinorMax : Z := 0x2fff.
Definition ExtMinorBase : Z := 0x3000.
Definition ExtMinorMax : Z := 0xffff.
Definition legacyHosts : Z := 0x1000.
Definition WidestPrefix : Z := 17.

Definition IsGuestMinor (minor : Z) : bool :=
  ((GuestMinorBase <=? minor) && (minor <=? GuestMinorMax))
  || ((ExtMinorBase <=? minor) && (minor <=? ExtMinorMax)).

Definition minorForHostIndex (idx : Z) : option Z :=
  if idx <? 0 then None
  else if idx <? legacyHosts then Some (GuestMinorBase + idx)
  else
    let m := ExtMinorBase + idx - legacyHosts in
    if ExtMinorMax <? m then None else Some m.

(** Byte [i] of an address, most significant first. *)
Definition ip_byte (v : Z) (i : Z) : Z := Z.land (Z.shiftr v (8 * (3 - i))) 255.

Definition MinorForIP (ip : option Z) : option Z :=
  ip4 ← ip;
  let host := Z.lor (Z.shiftl (Z.land (ip_byte ip4 2) 15) 8) (ip_byte ip4 3) in
  Some (GuestMinorBase + host).

(** [net.IPNet] with a four-byte address and mask. *)
Record IPNet := mkIPNet { net_IP : Z; net_Mask : Z }.

Definition prefix_mask (ones : Z) : Z := Z.shiftl (Z.ones ones) (32 - ones).

(** [Mask.Size]: the length of the prefix, [(0, 0)] for a mask that is not one. *)
Definition Mask_Size (mask : Z) : Z * Z :=
  match list_find (λ k : Z, mask = prefix_mask k) (seqZ 0 33) with
  | Some (_, k) => (k, 32)
  | None => (0, 0)
  end.

Definition Contains (n : IPNet) (ip : Z) : bool :=
  (Z.land ip (net_Mask n) =? Z.land (net_IP n) (net_Mask n))%Z.

Definition MinorInNet (ip : option Z) (n : option IPNet) : option Z :=
  ip4 ← ip;
  match n with
  | Some n =>
      let '(ones, bits) := Mask_Size (net_Mask n) in
      if (bits =? 32)%Z && (WidestPrefix <=? ones) && (ones <? 20) && Contains n ip4
      then minorForHostIndex (ip4 - net_IP n)
      else MinorForIP (Some ip4)
  | None => MinorForIP (Some ip4)
  end.

Definition ones (n : IPNet) : Z := (Mask_Size (net_Mask n)).1.

(** The narrowest configured subnet that contains the address. *)
Fixpoint best_net (ip4 : Z) (nets : list IPNet) (best : option IPNet) : option IPNet :=
  match nets with
  | [] => best
  | n :: nets' =>
      if negb (Contains n ip4) then best_net ip4 nets' best
      else match best with
      | None => best_net ip4 nets' (Some n)
      | Some b => if ones b <? ones n then best_net ip4 nets' (Some n) else best_net ip4 nets' best
      end
  end.

(** [bridgeNets]: the subnets the kernel reports for the bridge. *)
Definition MinorFor (bridgeNets : list IPNet) (ip : option Z) : option Z :=
  ip4 ← ip; MinorInNet (Some ip4) (best_net ip4 bridgeNets None).

(** ** Shared groups *)

Definition two32 : Z := 4294967296.

Fixpoint fnv1a (h : Z) (s : string) : Z :=
  match s with
  | EmptyString => h
  | String c s' => fnv1a (Z.lxor h (byte_of c) * 16777619 mod two32) s'
  end.

Definition GroupMinorFor (entitlementID : string) : option Z :=
  let id := TrimSpace entitlementID in
  if empty id then None
  else
    let h := fnv1a 2166136261 id in
    let span := GroupMinorMax - GroupMinorBase + 1 in
    Some (GroupMinorBase + h mod span).

(** ** Bits as arithmetic *)

Lemma land_shiftl v a k :
  0 ≤ k → Z.land v (Z.shiftl a k) = Z.shiftl (Z.land (Z.shiftr v k) a) k.
Proof.
  intros Hk. apply Z.bits_inj'. intros n Hn. rewrite Z.land_spec, !Z.shiftl_spec by lia.
  destruct (decide (n < k)).
  - rewrite !(Z.testbit_neg_r _ (n - k)) by lia. by rewrite andb_false_r.
  - rewrite Z.land_spec, Z.shiftr_spec by lia. f_equal. f_equal. lia.
Qed.

(** An address splits into its network and its index there. *)
Lemma land_prefix v p :
  0 ≤ v < two32 → 0 ≤ p ≤ 32 → Z.land v (prefix_mask p) = v - v mod 2 ^ (32 - p).
Proof.
  intros Hv Hp. unfold prefix_mask. rewrite land_shiftl by lia.
  rewrite Z.land_ones, Z.shiftl_mul_pow2, Z.shiftr_div_pow2 by lia.
  assert (0 < 2 ^ (32 - p)) by (apply Z.pow_pos_nonneg; lia).
  rewrite Z.mod_small.
  - pose proof (Z.div_mod v (2 ^ (32 - p))). lia.
  - split; [apply Z.div_pos; lia|]. apply Z.div_lt_upper_bound; [lia|].
    rewrite <- Z.pow_add_r by lia. replace (32 - p + p) with 32 by lia. unfold two32 in *. lia.
Qed.

Lemma host_mod v :
  Z.lor (Z.shiftl (Z.land (ip_byte v 2) 15) 8) (ip_byte v 3) = v mod 4096.
Proof.
  change 4096 with (2 ^ 12). rewrite <- Z.land_ones by lia. unfold ip_byte.
  change 255 with (Z.ones 8). change 15 with (Z.ones 4). cbn [Z.sub Z.mul].
  apply Z.bits_inj'. intros n Hn.
  rewrite Z.lor_spec, !Z.land_spec, Z.shiftl_spec by lia.
  rewrite Z.shiftr_spec by lia. rewrite !Z.testbit_ones_nonneg by lia.
  replace (n + 8 * (3 - 3)) with n by lia.
  destruct (decide (n < 8)).
  - rewrite !(Z.testbit_neg_r _ (n - 8)) by lia. cbn.
    destruct (Z.ltb_spec n 8), (Z.ltb_spec n 12); try lia; done.
  - rewrite !Z.land_spec, Z.shiftr_spec, !Z.testbit_ones_nonneg by lia.
    replace (n - 8 + 8 * (3 - 2)) with n by lia.
    destruct (Z.ltb_spec n 8), (Z.ltb_spec n 12), (Z.ltb_spec (n - 8) 8), (Z.ltb_spec (n - 8) 4); try lia;
      rewrite ?andb_true_r, ?andb_false_r, ?orb_false_r; done.
Qed.

Lemma Mask_Size_prefix p : 0 ≤ p ≤ 32 → Mask_Size (prefix_mask p) = (p, 32).
Proof.
  intros Hp.
  assert (H : forallb (λ k, bool_decide (Mask_Size (prefix_mask k) = (k, 32))) (seqZ 0 33) = true)
    by (vm_compute; reflexivity).
  rewrite forallb_forall in H. specialize (H p).
  rewrite <- list_elem_of_In, elem_of_seqZ in H. specialize (H ltac:(lia)). by zify_guards.
Qed.

(** A subnet as [kernelBridgeNets] reads it: a prefix mask and the masked
    address. *)
Definition subnet (n : IPNet) (p : Z) : Prop :=
  0 ≤ p ≤ 32 ∧ net_Mask n = prefix_mask p ∧ 0 ≤ net_IP n < two32 ∧ net_IP n mod 2 ^ (32 - p) = 0.

Lemma Contains_index n p ip :
  subnet n p → 0 ≤ ip < two32 →
  Contains n ip = true → ip = net_IP n + ip mod 2 ^ (32 - p) ∧ 0 ≤ ip mod 2 ^ (32 - p) < 2 ^ (32 - p).
Proof.
  intros (Hp & HM & HI & H0) Hip HC. unfold Contains in HC. zify_guards.
  rewrite HM, !land_prefix, H0 in HC by done. split; [lia|].
  apply Z.mod_pos_bound, Z.pow_pos_nonneg; lia.
Qed.

(** The minor of an address of a subnet no wider than /17 is its index there,
    placed in the two guest bands. *)
Lemma MinorFor_index n p ip :
  subnet n p → WidestPrefix ≤ p → 0 ≤ ip < two32 → Contains n ip = true →
  MinorFor [n] (Some ip) =
    (if p <? 20 then minorForHostIndex (ip mod 2 ^ (32 - p)) else Some (GuestMinorBase + ip mod 4096)).
Proof.
  intros Hs Hw Hip HC. pose proof (Contains_index _ _ _ Hs Hip HC) as [Hi _].
  destruct Hs as (Hp & HM & _). cbn -[MinorInNet Contains]. rewrite HC. cbn -[Mask_Size Contains MinorForIP].
  rewrite HM, Mask_Size_prefix, HC by done.
  destruct (Z.leb_spec WidestPrefix p); [|lia]. cbn -[MinorForIP minorForHostIndex].
  destruct (Z.ltb_spec p 20); cbn -[ip_byte]; [f_equal; lia|].
  by rewrite host_mod.
Qed.

Lemma minorForHostIndex_guest i :
  0 ≤ i < 2 ^ 15 →
  ∃ m, minorForHostIndex i = Some m ∧ IsGuestMinor m = true ∧
       m = (if i <? legacyHosts then GuestMinorBase + i else ExtMinorBase + i - legacyHosts).
Proof.
  intros Hi. unfold minorForHostIndex, IsGuestMinor.
  destruct (Z.ltb_spec i 0); [lia|].
  unfold legacyHosts, GuestMinorBase, GuestMinorMax, ExtMinorBase, ExtMinorMax in *.
  destruct (Z.ltb_spec i 4096).
  - eexists. split_and!; [done| |done]. apply orb_true_iff. left. apply andb_true_iff. lia.
  - destruct (Z.ltb_spec 65535 (12288 + i - 4096)); [lia|].
    eexists. split_and!; [done| |done]. apply orb_true_iff. right. apply andb_true_iff. lia.
Qed.

Lemma mod_pow_le v w a b :
  0 ≤ a ≤ b → v mod 2 ^ b = w mod 2 ^ b → v mod 2 ^ a = w mod 2 ^ a.
Proof.
  intros Hab E.
  assert (Hd : (2 ^ a | 2 ^ b)).
  { exists (2 ^ (b - a)). rewrite <- Z.pow_add_r by lia. f_equal. lia. }
  by rewrite <- (Z.mod_mod_divide v _ _ Hd), <- (Z.mod_mod_divide w _ _ Hd), E.
Qed.

(** On a bridge with one subnet of /17 or narrower every address has a class of
    its own: it is never the class of another address of the subnet, of a
    shared group, or outside the bands netd manages. *)
Theorem class_ids_distinct n p ip1 ip2 :
  subnet n p → WidestPrefix ≤ p →
  0 ≤ ip1 < two32 → 0 ≤ ip2 < two32 → Contains n ip1 = true → Contains n ip2 = true →
  ∃ m1 m2,
    MinorFor [n] (Some ip1) = Some m1 ∧ MinorFor [n] (Some ip2) = Some m2 ∧
    (m1 = m2 ↔ ip1 = ip2) ∧ IsGuestMinor m1 = true ∧
    (∀ id g, GroupMinorFor id = Some g → g ≠ m1 ∧ IsGuestMinor g = false).
Proof.
  intros Hs Hw H1 H2 C1 C2.
  destruct (Contains_index _ _ _ Hs H1 C1) as [E1 R1], (Contains_index _ _ _ Hs H2 C2) as [E2 R2].
  rewrite !(MinorFor_index n p) by done.
  assert (HG : ∀ m, IsGuestMinor m = true →
    ∀ id g, GroupMinorFor id = Some g → g ≠ m ∧ IsGuestMinor g = false).
  { intros m Hm id g. unfold GroupMinorFor. destruct (empty _); [done|]. intros [= <-].
    assert (HF : IsGuestMinor (GroupMinorBase + fnv1a 2166136261 (TrimSpace id) mod (GroupMinorMax - GroupMinorBase + 1)) = false).
    { pose proof (Z.mod_pos_bound (fnv1a 2166136261 (TrimSpace id)) 4096). unfold IsGuestMinor.
      unfold GroupMinorMax, GroupMinorBase, GuestMinorBase, GuestMinorMax, ExtMinorBase, ExtMinorMax.
      change (12287 - 8192 + 1) with 4096.
      apply orb_false_iff. split; apply andb_false_iff; [right|left]; lia. }
    split; [congruence|done]. }
  assert (H15 : 2 ^ (32 - p) ≤ 2 ^ 15) by (apply Z.pow_le_mono_r; unfold WidestPrefix in *; lia).
  destruct (Z.ltb_spec p 20).
  - destruct (minorForHostIndex_guest (ip1 mod 2 ^ (32 - p))) as (m1 & -> & G1 & V1); [lia|].
    destruct (minorForHostIndex_guest (ip2 mod 2 ^ (32 - p))) as (m2 & -> & G2 & V2); [lia|].
    exists m1, m2. split_and!; eauto. split; [|intros ->; by rewrite V1, V2].
    intros <-. unfold legacyHosts, GuestMinorBase, ExtMinorBase in *.
    revert V2. rewrite V1. repeat case_match; zify_guards; lia.
  - exists (GuestMinorBase + ip1 mod 4096), (GuestMinorBase + ip2 mod 4096).
    assert (HM : ∀ v, IsGuestMinor (GuestMinorBase + v mod 4096) = true).
    { intros v. pose proof (Z.mod_pos_bound v 4096). unfold IsGuestMinor, GuestMinorBase, GuestMinorMax.
      apply orb_true_iff. left. apply andb_true_iff. lia. }
    split_and!; eauto. split; [|by intros ->]. intros E.
    assert (E' : ip1 mod 2 ^ 12 = ip2 mod 2 ^ 12) by (change (2 ^ 12) with 4096; lia).
    apply (mod_pow_le _ _ (32 - p)) in E'; [lia|]. destruct Hs. lia.
Qed.

(** A /18 hotel network: the gateway's neighbour and an address 5000 hosts up. *)
Lemma class_ids_distinct_witness :
  ∃ m1 m2,
    MinorFor [mkIPNet 0x0a140000 (prefix_mask 18)] (Some 0x0a140002) = Some m1 ∧
    MinorFor [mkIPNet 0x0a140000 (prefix_mask 18)] (Some 0x0a141388) = Some m2 ∧ m1 ≠ m2.
Proof.
  destruct (class_ids_distinct (mkIPNet 0x0a140000 (prefix_mask 18)) 18 0x0a140002 0x0a141388)
    as (m1 & m2 & E1 & E2 & E3 & _);
    [split_and!; try lia; try reflexivity; cbn; unfold two32; lia
    |unfold WidestPrefix; lia|unfold two32; lia|unfold two32; lia|reflexivity|reflexivity|].
  exists m1, m2. split; [exact E1|]. split; [exact E2|]. rewrite E3. discriminate.
Defined.
