(* ===== verification/GoAny.v ===== *)
(** Decoded JSON as Go holds it in an [any], and the times of RFC 3339.

    A JSON document decoded by [encoding/json] is a tree of [any] values.  A number is
    a [json.Number] (its text) when the decoder was told to keep it, and a [float64]
    otherwise; a finite [float64] is written as its exact value [m * 2 ^ e].  An object
    is the list of its fields, each name once. *)
From stdpp Require Import pretty.
From S2P Require Import Prelude GoStrings GoText.

#[warnings="-register-all"] Inductive any :=
| ANil
| ABool (b : bool)
| AStr (s : string)
| ANumber (text : string)
| AFloat (m e : Z)
| AInt (n : Z)
| AList (l : list any)
| AMap (l : list (string * any)).

(** A [map[string]any]. *)
Definition fields := list (string * any).

(** [v, ok := m[k]]. *)
Fixpoint field (k : string) (m : fields) : option any :=
  match m with
  | [] => None
  | (k', v) :: m' => if decide (k' = k) then Some v else field k m'
  end.

Definition has (k : string) (m : fields) : bool := bool_decide (k ∈ m.*1).

(** [m[k].(bool)], [m[k].(string)], [m[k].([]any)]: an absent field is [nil], which has no
    type. *)
Definition as_bool (v : option any) : option bool := match v with Some (ABool b) => Some b | _ => None end.
Definition as_string (v : option any) : option string := match v with Some (AStr s) => Some s | _ => None end.
Definition as_list (v : option any) : option (list any) := match v with Some (AList l) => Some l | _ => None end.

Lemma field_has k m : is_Some (field k m) ↔ has k m = true.
Proof.
  unfold has. rewrite bool_decide_eq_true. induction m as [|[k' v] m IH]; cbn.
  - split; [by intros [? ?]|by intros ?%elem_of_nil].
  - rewrite elem_of_cons. destruct (decide (k' = k)) as [->|]; [naive_solver|]. rewrite IH. naive_solver.
Qed.

(** ** Numbers *)

(** [strings.ContainsAny(s, chars)] for single bytes. *)
Fixpoint contains_any (chars : list Z) (s : string) : bool :=
  match s with
  | EmptyString => false
  | String c s' => existsb (Z.eqb (byte_of c)) chars || contains_any chars s'
  end.

(** [f == math.Trunc(f)], and the whole number it then is. *)
Definition whole (m e : Z) : option Z :=
  if 0 <=? e then Some (m * 2 ^ e)
  else if m mod 2 ^ (- e) =? 0 then Some (m / 2 ^ (- e)) else None.

(** ** RFC 3339

    A [time.Time] is the nanoseconds since January 1 of year 1.  Days are counted in the
    proleptic Gregorian calendar with March as the first month of the computational
    year. *)

Definition is_leap (y : Z) : bool := (y mod 4 =? 0) && (negb (y mod 100 =? 0) || (y mod 400 =? 0)).
Definition days_in (y m : Z) : Z :=
  if (m =? 2)%Z then (if is_leap y then 29 else 28)
  else if (m =? 4) || (m =? 6) || (m =? 9) || (m =? 11) then 30 else 31.

(** Days from 0001-01-01. *)
Definition days_of (y m d : Z) : Z :=
  let y' := if m <=? 2 then y - 1 else y in
  let m' := if m <=? 2 then m + 9 else m - 3 in
  365 * y' + y' / 4 - y' / 100 + y' / 400 + (153 * m' + 2) / 5 + (d - 1) - 306.

Definition civil_of (days : Z) : Z * Z * Z :=
  let z := days + 306 in
  let era := z / 146097 in
  let doe := z mod 146097 in
  let yoe := (doe - doe / 1460 + doe / 36524 - doe / 146096) / 365 in
  let doy := doe - (365 * yoe + yoe / 4 - yoe / 100) in
  let mp := (5 * doy + 2) / 153 in
  let d := doy - (153 * mp + 2) / 5 + 1 in
  let m := if mp <? 10 then mp + 3 else mp - 9 in
  (yoe + era * 400 + (if m <=? 2 then 1 else 0), m, d).

Definition digit (b : Z) : bool := in_range 48 57 b.

(** [getnum]: two digits, or one when the field need not be padded. *)
Definition getnum (fixed : bool) (s : list Z) : option (Z * list Z) :=
  match s with
  | a :: s1 =>
      if negb (digit a) then None
      else match s1 with
           | b :: s2 => if digit b then Some ((a - 48) * 10 + (b - 48), s2) else if fixed then None else Some (a - 48, s1)
           | [] => if fixed then None else Some (a - 48, s1)
           end
  | [] => None
  end.

Definition skip (c : Z) (s : list Z) : option (list Z) :=
  match s with b :: s' => if b =? c then Some s' else None | [] => None end.

Definition in_bounds (lo hi : Z) (v : Z * list Z) : option (Z * list Z) := if (lo <=? v.1) && (v.1 <=? hi) then Some v else None.

Fixpoint take_digits (s : list Z) : list Z * list Z :=
  match s with
  | b :: s' => if digit b then let '(ds, r) := take_digits s' in (b :: ds, r) else ([], s)
  | [] => ([], [])
  end.

Definition value_of (ds : list Z) : Z := foldl (λ acc b, 10 * acc + (b - 48)) 0 ds.

(** The fraction of a second, after '.' or ',': at most nine digits count. *)
Definition fraction (s : list Z) : Z * list Z :=
  match s with
  | c :: s' =>
      if (c =? 46) || (c =? 44) then
        match take_digits s' with
        | ([], _) => (0, s)
        | (ds, r) => let ds' := take 9 ds in (value_of ds' * 10 ^ (9 - Z.of_nat (length ds')), r)
        end
      else (0, s)
  | [] => (0, [])
  end.

(** The offset in seconds: "Z", or a sign and "hh:mm" of at most 24 hours and 60 minutes. *)
Definition zone_offset (s : list Z) : option Z :=
  match s with
  | [90] => Some 0
  | sgn :: s1 =>
      '(h, s2) ← getnum true s1; s3 ← skip 58 s2; '(m, s4) ← getnum true s3;
      if negb (bool_decide (s4 = [])) || (24 <? h) || (60 <? m) then None
      else if sgn =? 43 then Some (h * 3600 + m * 60) else if sgn =? 45 then Some (- (h * 3600 + m * 60)) else None
  | [] => None
  end.

(** [time.Parse(time.RFC3339, s)]. *)
Definition ParseRFC3339 (s : string) : option Time :=
  let l := bytes_of s in
  if (length l <? 4)%nat || negb (forallb digit (take 4 l)) then None
  else
    let year := value_of (take 4 l) in
    s1 ← skip 45 (drop 4 l); '(month, s2) ← getnum true s1 ≫= in_bounds 1 12;
    s3 ← skip 45 s2; '(day, s4) ← getnum true s3 ≫= in_bounds 1 (days_in year month);
    s5 ← skip 84 s4; '(hour, s6) ← getnum false s5 ≫= in_bounds 0 23;
    s7 ← skip 58 s6; '(min, s8) ← getnum true s7 ≫= in_bounds 0 59;
    s9 ← skip 58 s8; '(sec, s10) ← getnum true s9 ≫= in_bounds 0 59;
    let '(nsec, s11) := fraction s10 in
    off ← zone_offset s11;
    Some ((days_of year month day * 86400 + hour * 3600 + min * 60 + sec - off) * Second + nsec).

Definition pad (width : nat) (n : Z) : string :=
  let t := pretty n in foldr (λ _ s, "0" +:+ s) t (seq 0 (width - String.length t)).

(** [t.UTC().Format(time.RFC3339)] for the years 0 to 9999: whole seconds. *)
Definition FormatRFC3339 (t : Time) : string :=
  let secs := t / Second in
  let '(y, m, d) := civil_of (secs / 86400) in
  let s := secs mod 86400 in
  pad 4 y +:+ "-" +:+ pad 2 m +:+ "-" +:+ pad 2 d +:+ "T" +:+ pad 2 (s / 3600) +:+ ":" +:+ pad 2 (s / 60 mod 60)
  +:+ ":" +:+ pad 2 (s mod 60) +:+ "Z".

Example rfc3339_epoch : ParseRFC3339 "1970-01-01T00:00:00Z" = Some (719162 * 86400 * Second).
Proof. reflexivity. Qed.
Example rfc3339_leap : ParseRFC3339 "2024-02-29T9:30:15.25+02:00" = Some (63844788615 * Second + 250000000).
Proof. vm_compute. reflexivity. Qed.
Example rfc3339_bad : ParseRFC3339 "2023-02-29T09:30:15Z" = None.
Proof. reflexivity. Qed.
Example rfc3339_round : (FormatRFC3339 <$> ParseRFC3339 "2026-12-31T23:59:59Z") = Some "2026-12-31T23:59:59Z".
Proof. vm_compute. reflexivity. Qed.

(** ** Rounding of [float64]

    The nearest number of 53 bits to [a / b], ties to even, for [0 <= a] and [0 < b]; the
    numbers rounded here are far from overflow and underflow. *)
Definition scaled (a b e : Z) : Z * Z := if 0 <=? e then (a, b * 2 ^ e) else (a * 2 ^ (- e), b).

Definition nearest (n d : Z) : Z :=
  let q := n / d in
  let r := n mod d in
  if 2 * r <? d then q else if d <? 2 * r then q + 1 else if Z.even q then q else q + 1.

Definition round64 (a b : Z) : Z * Z :=
  if (a =? 0)%Z then (0, 0)
  else
    let e := Z.log2 a - Z.log2 b - 52 in
    let '(n, d) := scaled a b e in
    if n / d <? 2 ^ 52 then let '(n', d') := scaled a b (e - 1) in (nearest n' d', e - 1) else (nearest n d, e).

(** A float as a fraction. *)
Definition frac (f : Z * Z) : Z * Z := if 0 <=? f.2 then (f.1 * 2 ^ f.2, 1) else (f.1, 2 ^ (- f.2)).

Definition float_add (x y : Z * Z) : Z * Z :=
  let '(a, b) := frac x in let '(c, d) := frac y in round64 (a * d + c * b) (b * d).
Definition float_div (x : Z * Z) (n : Z) : Z * Z := let '(a, b) := frac x in round64 a (b * n).
(** [int(f)] for [0 <= f]. *)
Definition trunc (f : Z * Z) : Z := let '(a, b) := frac f in a / b.

(** [d.Hours()] for [0 <= d]. *)
Definition Hours (d : Duration) : Z * Z := float_add (round64 (d / Hour) 1) (round64 (d mod Hour) Hour).

Example hours_of_a_day : trunc (float_div (Hours Day) 24) = 1.
Proof. reflexivity. Qed.
Example hours_before_a_day : trunc (float_div (Hours (Day - 1)) 24) = 0.
Proof. reflexivity. Qed.
(** A nanosecond before the hour is lost in the sum of a long duration. *)
Example hours_of_a_century : trunc (float_div (Hours (36525 * Day - 1)) 24) = 36525.
Proof. vm_compute. reflexivity. Qed.
