(* ===== verification/CommerceRules.v ===== *)
(** The rules of the package shop (data-plane/internal/iamv2: commerce_domain.go,
    commerce_validate.go, commerce_grant.go, commerce_currency.go, commerce_duration.go,
    acquisition.go, phase6_acquisition.go, commerce_config.go): who may have a package, what it grants,
    until when, and by which method it may be acquired.  Publication checks a rule once;
    evaluation reads it again for every guest and fails closed.

    Errors carry the text the source returns, without the values it quotes. *)
From S2P Require Import Prelude GoStrings GoText GoAny.

(** ** Subjects *)

Definition SubjectVoucher : string := "VOUCHER".
Definition SubjectAccount : string := "ACCOUNT".
Definition SubjectPrincipal : string := "PRINCIPAL".
Definition SubjectStay : string := "STAY".
Definition SubjectAnonymous : string := "ANONYMOUS".

Record StayEvidence := mkStayEvidence {
  ev_InterfaceID : string;
  ev_Status : string;
  RoomType : string;
  RatePlan : string;
  TravelAgent : string;
  VIP : option bool;
  Arrival : option Time;
  Departure : option Time;
  EvidenceVersion : Z
}.

Record EligibilitySubject := mkEligibilitySubject {
  Now : Time;
  AuthMethod : string;
  Kind : string;
  GuestNetworkID : string;
  HasPriorPurchaseOfPackage : bool;
  ClientGroupID : string;
  GuestNetworkLineage : list string;
  Stay : option StayEvidence
}.

(** [None] when a bound is missing or the departure is before the arrival. *)
Definition Nights (e : StayEvidence) : option Z :=
  match Arrival e, Departure e with
  | Some a, Some d => let x := time_Sub d a in if x <? 0 then None else Some (trunc (float_div (Hours x) 24))
  | _, _ => None
  end.

Record EligibilityRule := mkRule { rule_Type : string; rule_Value : option fields }.
Definition rule_fields (r : EligibilityRule) : fields := default [] (rule_Value r).
Record GrantTier := mkTier { tier_Order : Z; tier_Value : fields }.

Definition RuleDateWindow : string := "DATE_WINDOW".
Definition RuleAuthMethod : string := "AUTH_METHOD".
Definition RuleSubjectKind : string := "SUBJECT_KIND".
Definition RulePriorPurchase : string := "PRIOR_PURCHASE".
Definition RuleClientGroup : string := "CLIENT_GROUP".
Definition RuleSiteNetwork : string := "SITE_NETWORK".
Definition RuleStayStatus : string := "STAY_STATUS".
Definition RuleStayLength : string := "STAY_LENGTH".
Definition RuleRoomType : string := "ROOM_TYPE".
Definition RuleVIP : string := "VIP".
Definition RuleTravelAgent : string := "TRAVEL_AGENT".
Definition RulePMSInterface : string := "PMS_INTERFACE".
Definition RuleRatePlan : string := "RATE_PLAN".

Definition pmsRuleTypes : list string :=
  [RuleStayStatus; RuleStayLength; RuleRoomType; RuleVIP; RuleTravelAgent; RulePMSInterface; RuleRatePlan].

(** ** Fields of a rule *)

(** A field that is absent, present but malformed, or well formed. *)
Inductive parsed (A : Type) := Absent | Malformed | Given (a : A).
Arguments Absent {A}. Arguments Malformed {A}. Arguments Given {A} a.

Definition parseTimeField (v : fields) (key : string) : parsed Time :=
  match field key v with
  | None => Absent
  | Some (AStr s) =>
      if blank s then Malformed else match ParseRFC3339 (TrimSpace s) with Some t => Given t | None => Malformed end
  | Some _ => Malformed
  end.

(** Only whole numbers that are written as such. *)
Definition asInt64 (v : any) : option Z :=
  match v with
  | ANumber s => if contains_any [46; 101; 69] s then None else ParseInt s
  | AInt n => Some n
  | _ => None
  end.

Definition MaxInt32 : Z := 2147483647.

Definition parseIntField (v : fields) (key : string) : parsed Z :=
  match field key v with
  | None | Some ANil => Absent
  | Some raw =>
      match asInt64 raw with
      | Some n => if (n <? 0) || (MaxInt32 <? n) then Malformed else Given n
      | None =>
          match raw with
          | AFloat m e =>
              match whole m e with
              | Some n => if (n <? 0) || (MaxInt32 <? n) then Malformed else Given n
              | None => Malformed
              end
          | _ => Malformed
          end
      end
  end.

Section rules.
Context {U : Unicode}.

Definition upper (s : string) : string := ToUpper (TrimSpace s).
Definition lower (s : string) : string := ToLower (TrimSpace s).

Definition IsPMSRuleType (t : string) : bool := bool_decide (upper t ∈ pmsRuleTypes).

(** Both cases of every string of a list. *)
Definition stringSet (a : option any) : list string :=
  match as_list a with
  | None => []
  | Some l => x ← l; match x with AStr s => [upper s; lower s] | _ => [] end
  end.

Definition allowed_in (set : list string) (x : string) : bool := bool_decide (x ∈ set).

(** ** Evaluation *)

Definition matchStringField (set : list string) (value label : string) : res string () :=
  if bool_decide (set = []) then Err ("malformed_" +:+ label +:+ "_rule")
  else if blank value then Err (label +:+ "_unknown")
  else check (allowed_in set (upper value)) (label +:+ "_not_matched").

Definition evalPMSCondition (t : string) (v : fields) (e : StayEvidence) : res string () :=
  if decide (t = RuleStayStatus) then
    let set := stringSet (field "statuses" v) in
    if bool_decide (set = []) then Err "malformed_stay_status_rule"
    else if empty (ev_Status e) then Err "stay_status_unknown"
    else check (allowed_in set (ToUpper (ev_Status e))) "stay_status_not_matched"
  else if decide (t = RuleStayLength) then
    match Nights e with
    | None => Err "stay_length_unknown"
    | Some nights =>
        match parseIntField v "min_nights", parseIntField v "max_nights" with
        | Absent, Absent => Err "stay_length_needs_a_bound"
        | Malformed, _ | _, Malformed => Err "malformed_stay_length_rule"
        | Given lo, Given hi =>
            if hi <? lo then Err "stay_length_min_gt_max"
            else if nights <? lo then Err "stay_shorter_than_min" else check (negb (hi <? nights)) "stay_longer_than_max"
        | Given lo, Absent => check (negb (nights <? lo)) "stay_shorter_than_min"
        | Absent, Given hi => check (negb (hi <? nights)) "stay_longer_than_max"
        end
    end
  else if decide (t = RuleRoomType) then matchStringField (stringSet (field "room_types" v)) (RoomType e) "room_type"
  else if decide (t = RuleTravelAgent) then matchStringField (stringSet (field "travel_agents" v)) (TravelAgent e) "travel_agent"
  else if decide (t = RuleRatePlan) then matchStringField (stringSet (field "rate_plans" v)) (RatePlan e) "rate_plan"
  else if decide (t = RulePMSInterface) then
    matchStringField (stringSet (field "pms_interface_ids" v)) (ev_InterfaceID e) "pms_interface"
  else if decide (t = RuleVIP) then
    match as_bool (field "is_vip" v) with
    | None => Err "malformed_vip_rule"
    | Some want =>
        match VIP e with
        | None => Err "vip_unknown"
        | Some b => check (bool_decide (b = want)) "vip_not_matched"
        end
    end
  else Err "unknown_pms_rule".

Definition evalDateWindow (v : fields) (s : EligibilitySubject) : res string () :=
  match parseTimeField v "from", parseTimeField v "until" with
  | Absent, Absent => Err "date_window_needs_a_bound"
  | Malformed, _ | _, Malformed => Err "malformed_date_window"
  | Given from, Given until =>
      if negb (Before from until) then Err "date_window_from_ge_until"
      else if Before (Now s) from then Err "before_window" else check (Before (Now s) until) "after_window"
  | Given from, Absent => check (negb (Before (Now s) from)) "before_window"
  | Absent, Given until => check (Before (Now s) until) "after_window"
  end.

(** [requires_prior] and [forbids_prior]: [None] when one is present and not a boolean. *)
Definition prior_flag (v : fields) (key : string) : option bool :=
  match field key v with None => Some false | Some (ABool b) => Some b | Some _ => None end.

Definition evalPriorPurchase (v : fields) (s : EligibilitySubject) : res string () :=
  match prior_flag v "requires_prior", prior_flag v "forbids_prior" with
  | Some req, Some forb =>
      if Bool.eqb req forb then Err "prior_purchase_needs_exactly_one"
      else if req && negb (HasPriorPurchaseOfPackage s) then Err "requires_prior_purchase"
      else check (negb (forb && HasPriorPurchaseOfPackage s)) "forbids_prior_purchase"
  | _, _ => Err "malformed_prior_purchase"
  end.

Definition evalClientGroup (v : fields) (s : EligibilitySubject) : res string () :=
  let ids := stringSet (field "group_ids" v) in
  let pub := default false (as_bool (field "public" v)) in
  if bool_decide (ids = []) && negb pub then Err "malformed_client_group_rule"
  else if empty (ClientGroupID s) then check pub "client_group_not_allowed"
  else check (allowed_in ids (lower (ClientGroupID s))) "client_group_not_allowed".

Definition evalSiteNetwork (v : fields) (s : EligibilitySubject) : res string () :=
  let set := stringSet (field "guest_network_ids" v) in
  if bool_decide (set = []) then Err "malformed_site_network_rule"
  else check (allowed_in set (lower (GuestNetworkID s)) || existsb (λ p, allowed_in set (lower p)) (GuestNetworkLineage s))
         "guest_network_not_allowed".

Definition evalTypedCondition (ctype : string) (v : fields) (s : EligibilitySubject) : res string () :=
  let t := upper ctype in
  if IsPMSRuleType t then
    match Stay s with
    | None => Err "pms_rule_without_stay_evidence"
    | Some e => if EvidenceVersion e <=? 0 then Err "pms_rule_without_versioned_evidence" else evalPMSCondition t v e
    end
  else if decide (t = RuleDateWindow) then evalDateWindow v s
  else if decide (t = RuleAuthMethod) then
    let set := stringSet (field "methods" v) in
    if bool_decide (set = []) then Err "malformed_auth_method_rule"
    else check (allowed_in set (ToUpper (AuthMethod s))) "auth_method_not_allowed"
  else if decide (t = RuleSubjectKind) then
    let set := stringSet (field "kinds" v) in
    if bool_decide (set = []) then Err "malformed_subject_kind_rule"
    else check (allowed_in set (ToUpper (Kind s))) "subject_kind_not_allowed"
  else if decide (t = RulePriorPurchase) then evalPriorPurchase v s
  else if decide (t = RuleClientGroup) then evalClientGroup v s
  else if decide (t = RuleSiteNetwork) then evalSiteNetwork v s
  else Err "unknown_rule_type".

Fixpoint EvaluatePackageEligible (rules : list EligibilityRule) (s : EligibilitySubject) : res string () :=
  match rules with
  | [] => Ok ()
  | r :: rules' => evalTypedCondition (rule_Type r) (rule_fields r) s ≫= λ _, EvaluatePackageEligible rules' s
  end.

Definition tier_le (x y : GrantTier) : Prop := tier_Order x ≤ tier_Order y.
#[export] Instance tier_le_dec : RelDecision tier_le.
Proof. intros x y. unfold tier_le. apply _. Defined.

(** Only an absent match is unconditional. *)
Definition tier_matches (s : EligibilitySubject) (t : GrantTier) : bool :=
  match field "match" (tier_Value t) with
  | None => true
  | Some (AMap cond) =>
      let ctype := default "" (as_string (field "type" cond)) in
      negb (blank ctype) && is_Ok (evalTypedCondition ctype cond s)
  | Some _ => false
  end.

Definition FirstMatchTier (tiers : list GrantTier) (s : EligibilitySubject) : option GrantTier :=
  head (filter (λ t, tier_matches s t = true) (merge_sort tier_le tiers)).

Record PriorPurchasePolicy := mkPriorPolicy { Present : bool; WithinHours : Z; AlsoByDevice : bool }.

(** The first PRIOR_PURCHASE rule decides. *)
Fixpoint PriorPurchasePolicyOf (rules : list EligibilityRule) (priceMinor : Z) : PriorPurchasePolicy :=
  match rules with
  | [] => mkPriorPolicy false 0 false
  | r :: rules' =>
      if decide (upper (rule_Type r) = RulePriorPurchase) then
        mkPriorPolicy true
          (match parseIntField (rule_fields r) "within_hours" with Given n => if 0 <? n then n else 0 | _ => 0 end)
          (default (priceMinor =? 0)%Z (as_bool (field "also_by_device" (rule_fields r))))
      else PriorPurchasePolicyOf rules' priceMinor
  end.

Definition ForSubject (p : PriorPurchasePolicy) (k : string) : PriorPurchasePolicy :=
  if decide (k = SubjectVoucher) then mkPriorPolicy (Present p) (WithinHours p) false else p.

(** ** Currencies *)

Definition iso4217Exponent : gmap string Z := list_to_map
  (((λ c, (c, 0)) <$> ["JPY"; "KRW"; "CLP"; "ISK"; "VND"; "XAF"; "XOF"; "XPF"; "UGX"; "RWF"; "PYG"])
   ++ ((λ c, (c, 2)) <$> ["USD"; "EUR"; "GBP"; "CAD"; "AUD"; "CHF"; "CNY"; "HKD"; "SGD"; "AED"; "SAR"; "EGP"; "ZAR"; "INR"; "BRL";
         "MXN"; "TRY"; "PLN"; "SEK"; "NOK"; "DKK"; "NZD"; "THB"; "MYR"; "PHP"; "IDR"; "QAR"; "ILS"; "RON"; "CZK"])
   ++ ((λ c, (c, 3)) <$> ["BHD"; "KWD"; "OMR"; "JOD"; "TND"; "LYD"; "IQD"]))%list.

Definition ValidateCurrency (code : string) (exponent : Z) : option string :=
  let c := upper code in
  want ← iso4217Exponent !! c;
  if (exponent =? want)%Z then Some c else None.

(** ** What a package grants *)

Record PlanRevisionRow := mkPlan {
  plan_ID : string;
  plan_DownKbps : Z;
  plan_UpKbps : Z;
  plan_MaxConcurrentDevices : Z;
  plan_TimeQuotaSeconds : Z;
  plan_DataQuotaBytes : Z;
  plan_TimeAccountingMode : string
}.

Record GrantSnapshot := mkSnapshot {
  Version : Z;
  ServicePlanRevisionID : string;
  PackageRevisionID : string;
  GrantTierOrder : Z;
  DownKbps : Z;
  UpKbps : Z;
  MaxConcurrentDevices : Z;
  DeviceLimitPolicy : string;
  IdleTimeoutSeconds : Z;
  MaxContinuousSessionSeconds : Z;
  TimeQuotaSeconds : Z;
  DataQuotaBytes : Z;
  TimeAccountingMode : string;
  EndMode : string;
  WindowEndsAt : string;
  DurationPolicy : option fields;
  AcquisitionMethod : string;
  FrozenDataQuotaBytes : Z
}.

Definition GrantSnapshotVersion : Z := 1.
Definition maxKbps : Z := 10000000.
Definition maxDevices : Z := 1000.
Definition maxIdleSeconds : Z := 30 * 24 * 3600.
Definition maxSessionSeconds : Z := 365 * 24 * 3600.
Definition maxTimeQuotaSecond : Z := 10 * 365 * 24 * 3600.
Definition maxDataQuotaBytes : Z := 2 ^ 50.

Definition deviceLimitPolicies : list string := ["REJECT_NEW_DEVICE"; "DISCONNECT_OLDEST"; "ADMIN_APPROVAL"].
Definition knownGrantKeys : list string :=
  ["match"; "down_kbps"; "up_kbps"; "max_concurrent_devices"; "device_limit_policy"; "idle_timeout_seconds";
   "max_continuous_session_seconds"; "time_quota_seconds"; "data_quota_bytes"; "time_accounting_mode"].

Definition known_keys (allowed : list string) (v : fields) : bool := forallb (λ k, bool_decide (k ∈ allowed)) v.*1.

(** [intOverride] and [int64Override]: the tier's value within its cap, or the plan's. *)
Definition override (v : fields) (key : string) (dflt cap : Z) : res string Z :=
  match field key v with
  | None => Ok dflt
  | Some x =>
      match asInt64 x with
      | Some n => if (n <? 0) || (cap <? n) then Err "grant value must be a non-negative integer within bounds" else Ok n
      | None => Err "grant value must be a non-negative integer within bounds"
      end
  end.

Definition device_policy (v : fields) : res string string :=
  match field "device_limit_policy" v with
  | None => Ok "REJECT_NEW_DEVICE"
  | Some (AStr s) => check (allowed_in deviceLimitPolicies (upper s)) "unknown device_limit_policy" ≫= λ _, Ok (upper s)
  | Some _ => Err "unknown device_limit_policy"
  end.

Definition TimeModeValidityWindow : string := "VALIDITY_WINDOW".
Definition TimeModeAggregateOnlineTime : string := "AGGREGATE_ONLINE_TIME".

Definition BuildGrantSnapshot (tier : GrantTier) (plan : PlanRevisionRow) (pkgID : string) : res string GrantSnapshot :=
  let v := tier_Value tier in
  _ ← check (known_keys knownGrantKeys v) "unknown grant key";
  down ← override v "down_kbps" (plan_DownKbps plan) maxKbps;
  up ← override v "up_kbps" (plan_UpKbps plan) maxKbps;
  devs ← override v "max_concurrent_devices" (plan_MaxConcurrentDevices plan) maxDevices;
  idle ← override v "idle_timeout_seconds" 0 maxIdleSeconds;
  cont ← override v "max_continuous_session_seconds" 0 maxSessionSeconds;
  tq ← override v "time_quota_seconds" (plan_TimeQuotaSeconds plan) maxTimeQuotaSecond;
  dq ← override v "data_quota_bytes" (plan_DataQuotaBytes plan) maxDataQuotaBytes;
  policy ← device_policy v;
  _ ← check (negb (has "time_accounting_mode" v)) "time_accounting_mode belongs to the plan revision and cannot be overridden by a tier";
  let mode := if empty (plan_TimeAccountingMode plan) then TimeModeValidityWindow else plan_TimeAccountingMode plan in
  _ ← check (bool_decide (ToUpper mode ∈ [TimeModeValidityWindow; TimeModeAggregateOnlineTime])) "unsupported time_accounting_mode";
  _ ← check (1 <=? devs) "max_concurrent_devices must be >= 1";
  Ok (mkSnapshot GrantSnapshotVersion (plan_ID plan) pkgID (tier_Order tier) down up devs policy idle cont tq dq mode "" "" None "" 0).

(** The reason a new acquisition in this time mode is refused, or "". *)
Definition TimeModeAcquirable (mode : string) (aggregateEnabled : bool) : string :=
  let m := upper mode in
  if decide (m = "" ∨ m = TimeModeValidityWindow) then ""
  else if decide (m = TimeModeAggregateOnlineTime) then (if aggregateEnabled then "" else "aggregate_online_time_not_enabled")
  else "unsupported_time_accounting_mode".

(** ** Until when *)

Definition stayDependentEndModes : list string :=
  ["AT_CHECKOUT"; "GRACE_AFTER_CHECKOUT"; "EARLIEST_OF_FIXED_AND_CHECKOUT"; "REST_OF_STAY"].
Definition maxDurationSeconds : Z := 10 * 365 * 24 * 3600.

Definition ResolveEndPolicy (dp : fields) (now : Time) : res string (string * option Time) :=
  if bool_decide (dp = []) then Err "duration_policy required"
  else
    let mode := upper (default "" (as_string (field "end_mode" dp))) in
    if empty mode then Err "duration_policy.end_mode required"
    else if decide (mode ∈ stayDependentEndModes) then Err "end_mode is capability-disabled in Phase 2"
    else if has "local_end_time" dp then Err "local-time-boundary duration is capability-disabled in Phase 2"
    else if decide (mode = "MANUAL_END") then Ok ("MANUAL_END", None)
    else if decide (mode = "VALIDITY_WINDOW") then
      match field "duration_seconds" dp ≫= asInt64 with
      | Some secs =>
          if (secs <=? 0) || (maxDurationSeconds <? secs) then Err "VALIDITY_WINDOW needs a positive bounded duration_seconds"
          else Ok ("VALIDITY_WINDOW", Some (time_Add now (wrap64 (secs * Second))))
      | None => Err "VALIDITY_WINDOW needs a positive bounded duration_seconds"
      end
    else if decide (mode = "FIXED_AT") then
      match as_string (field "ends_at" dp) with
      | Some sv =>
          if blank sv then Err "FIXED_AT needs ends_at (RFC3339 UTC)"
          else match ParseRFC3339 (TrimSpace sv) with
               | None => Err "FIXED_AT ends_at malformed"
               | Some t => if After t now then Ok ("FIXED_AT", Some t) else Err "FIXED_AT ends_at must be in the future"
               end
      | None => Err "FIXED_AT needs ends_at (RFC3339 UTC)"
      end
    else Err "unsupported end_mode".

(** ** Publication *)

Definition validAuthMethods : list string := ["VOUCHER"; "ACCOUNT"; "OTP"; "SOCIAL"; "OPEN"; "PMS"].
Definition validSubjectKinds : list string := ["VOUCHER"; "ACCOUNT"; "PRINCIPAL"; "ANONYMOUS"; "STAY"].

Definition ruleAllowedFields (t : string) : option (list string) :=
  if decide (t = RuleDateWindow) then Some ["from"; "until"]
  else if decide (t = RuleAuthMethod) then Some ["methods"]
  else if decide (t = RuleSubjectKind) then Some ["kinds"]
  else if decide (t = RulePriorPurchase) then Some ["requires_prior"; "forbids_prior"; "within_hours"; "also_by_device"]
  else if decide (t = RuleSiteNetwork) then Some ["guest_network_ids"]
  else if decide (t = RuleClientGroup) then Some ["group_ids"; "public"]
  else if decide (t = RuleStayStatus) then Some ["statuses"]
  else if decide (t = RuleStayLength) then Some ["min_nights"; "max_nights"]
  else if decide (t = RuleRoomType) then Some ["room_types"]
  else if decide (t = RuleVIP) then Some ["is_vip"]
  else if decide (t = RuleTravelAgent) then Some ["travel_agents"]
  else if decide (t = RulePMSInterface) then Some ["pms_interface_ids"]
  else if decide (t = RuleRatePlan) then Some ["rate_plans"]
  else None.

Definition hex_digit (b : Z) : bool := in_range 48 57 b || in_range 97 102 b || in_range 65 70 b.
Definition uuid_position (i : nat) (b : Z) : bool :=
  if decide (i ∈ [8; 13; 18; 23]%nat) then (b =? 45)%Z else hex_digit b.
Definition uuidRe (s : string) : bool :=
  (len s =? 36)%Z && forallb (λ '(i, b), uuid_position i b) (imap pair (bytes_of s)).

(** The strings of a non-empty list that all satisfy a test after normalization, each once. *)
Fixpoint normalized (norm : string → string) (ok : string → bool) (seen : list string) (l : list any) : option (list string) :=
  match l with
  | [] => Some []
  | AStr x :: l' =>
      let s := norm x in
      if negb (ok s) then None
      else if decide (s ∈ seen) then normalized norm ok seen l' else cons s <$> normalized norm ok (s :: seen) l'
  | _ :: _ => None
  end.
Definition normalized_list (norm : string → string) (ok : string → bool) (a : option any) : option (list string) :=
  match as_list a with
  | None | Some [] => None
  | Some l => normalized norm ok [] l
  end.
Definition normalizedEnumList (a : option any) (allowed : list string) : option (list string) :=
  normalized_list upper (λ s, negb (empty s) && allowed_in allowed s) a.
Definition normalizedUUIDList (a : option any) : option (list string) := normalized_list lower uuidRe a.

Definition requireNonEmptyStrings (v : fields) (key : string) : bool := negb (bool_decide (stringSet (field key v) = [])).

Definition validatePMSRule (t : string) (v : fields) : bool :=
  if decide (t = RuleStayStatus) then requireNonEmptyStrings v "statuses"
  else if decide (t = RuleRoomType) then requireNonEmptyStrings v "room_types"
  else if decide (t = RuleTravelAgent) then requireNonEmptyStrings v "travel_agents"
  else if decide (t = RuleRatePlan) then requireNonEmptyStrings v "rate_plans"
  else if decide (t = RulePMSInterface) then bool_decide (is_Some (normalizedUUIDList (field "pms_interface_ids" v)))
  else if decide (t = RuleVIP) then bool_decide (is_Some (as_bool (field "is_vip" v)))
  else if decide (t = RuleStayLength) then
    match parseIntField v "min_nights", parseIntField v "max_nights" with
    | Absent, Absent | Malformed, _ | _, Malformed => false
    | Given lo, Given hi => lo <=? hi
    | _, _ => true
    end
  else true.

Definition validDateWindow (v : fields) : bool :=
  match parseTimeField v "from", parseTimeField v "until" with
  | Absent, Absent | Malformed, _ | _, Malformed => false
  | Given from, Given until => Before from until
  | _, _ => true
  end.

Definition validClientGroup (v : fields) : bool :=
  let pub := field "public" v in
  (negb (has "public" v) || bool_decide (is_Some (as_bool pub)))
  && match field "group_ids" v with
     | None | Some (AList []) => true
     | Some ids => bool_decide (is_Some (normalizedUUIDList (Some ids)))
     end
  && (default false (as_bool pub) || bool_decide (is_Some (normalizedUUIDList (field "group_ids" v)))).

Definition validPriorPurchase (v : fields) : bool :=
  match parseIntField v "within_hours" with Malformed => false | Given n => (1 <=? n) && (n <=? 8760) | Absent => true end
  && (negb (has "also_by_device" v) || bool_decide (is_Some (as_bool (field "also_by_device" v))))
  && match prior_flag v "requires_prior", prior_flag v "forbids_prior" with
     | Some req, Some forb => negb (Bool.eqb req forb)
     | _, _ => false
     end.

(** Whether the rule may be published. *)
Definition ValidateEligibilityRule (r : EligibilityRule) : bool :=
  let t := upper (rule_Type r) in
  match ruleAllowedFields t, rule_Value r with
  | Some allowed, Some v =>
      known_keys allowed v
      && (if IsPMSRuleType t then validatePMSRule t v
          else if decide (t = RuleDateWindow) then validDateWindow v
          else if decide (t = RuleAuthMethod) then bool_decide (is_Some (normalizedEnumList (field "methods" v) validAuthMethods))
          else if decide (t = RuleSubjectKind) then bool_decide (is_Some (normalizedEnumList (field "kinds" v) validSubjectKinds))
          else if decide (t = RuleClientGroup) then validClientGroup v
          else if decide (t = RulePriorPurchase) then validPriorPurchase v
          else if decide (t = RuleSiteNetwork) then bool_decide (is_Some (normalizedUUIDList (field "guest_network_ids" v)))
          else true)
  | _, _ => false
  end.

Definition zero_uuid : string := "00000000-0000-0000-0000-000000000000".
Definition without_key (k : string) (v : fields) : fields := filter (λ f, f.1 ≠ k) v.

Definition valid_match (v : fields) : bool :=
  match field "match" v with
  | None => true
  | Some (AMap cond) =>
      let ct := upper (default "" (as_string (field "type" cond))) in
      negb (empty ct) && ValidateEligibilityRule (mkRule ct (Some (without_key "type" cond)))
  | Some _ => false
  end.

Definition ValidateGrantTier (t : GrantTier) : bool :=
  (0 <=? tier_Order t) && known_keys knownGrantKeys (tier_Value t) && valid_match (tier_Value t)
  && is_Ok (BuildGrantSnapshot t (mkPlan zero_uuid 0 0 1 0 0 TimeModeValidityWindow) zero_uuid).

Definition AllocPerStayNight : string := "PER_STAY_NIGHT".

(** Why vouchers cannot be issued for a package. *)
Inductive Blocker := PerNightAllowance | HotelCondition | ClientGroupsOnly | MethodsWithoutVoucher | KindsWithoutVoucher.

Definition rule_blocks_voucher (r : EligibilityRule) : option Blocker :=
  let t := upper (rule_Type r) in
  let v := rule_fields r in
  if IsPMSRuleType t then Some HotelCondition
  else if decide (t = RuleClientGroup) then if default false (as_bool (field "public" v)) then None else Some ClientGroupsOnly
  else if decide (t = RuleAuthMethod) then
    if allowed_in (stringSet (field "methods" v)) "VOUCHER" then None else Some MethodsWithoutVoucher
  else if decide (t = RuleSubjectKind) then
    if allowed_in (stringSet (field "kinds" v)) "VOUCHER" then None else Some KindsWithoutVoucher
  else None.

Definition VoucherBlocker (dataAllocationMode : string) (rules : list EligibilityRule) : option Blocker :=
  if EqualFold (TrimSpace dataAllocationMode) AllocPerStayNight then Some PerNightAllowance
  else head (omap rule_blocks_voucher rules).

Definition GrantTiersEnforceableRefusal (tiers : list GrantTier) : bool :=
  (1 <? Z.of_nat (length tiers)) || existsb (λ t, negb (known_keys ["match"] (tier_Value t))) tiers.

(** ** Acquisition methods *)

Definition AcquireFree : string := "NOT_REQUIRED".
Definition AcquireVoucher : string := "PREPAID".
Definition AcquireCard : string := "ONLINE_PAYMENT".
Definition AcquireRoomCharge : string := "PMS_POSTING".

Definition ValidateAcquisitionMethods (priceMinor : Z) (methods : list string) : bool :=
  (0 <=? priceMinor) && negb (bool_decide (methods = []))
  && forallb (λ m, allowed_in [AcquireFree; AcquireVoucher; AcquireCard; AcquireRoomCharge] m) methods
  && bool_decide (NoDup methods)
  && negb ((priceMinor =? 0)%Z && (allowed_in methods AcquireCard || allowed_in methods AcquireRoomCharge))
  && negb ((0 <? priceMinor) && allowed_in methods AcquireFree).

Record SiteMethods := mkSiteMethods {
  PaidAccess : bool;
  Card : bool;
  RoomCharge : bool;
  CardCurrencies : list string;
  CardAccepts : option (string → bool)
}.

(** Without a gate only Free and Voucher. *)
Definition siteMethods (gate : option SiteMethods) : SiteMethods := default (mkSiteMethods false false false [] None) gate.

Definition CardApplicable (s : SiteMethods) (cur : string) : bool :=
  let cur := upper cur in
  if empty cur then false
  else match CardAccepts s with Some f => f cur | None => false end
       || existsb (λ c, EqualFold (TrimSpace c) cur) (CardCurrencies s).

Definition hasMethod (methods : list string) (m : string) : bool := existsb (λ x, EqualFold (TrimSpace x) m) methods.
End rules.

(** ** Feature flags *)

Record CommerceConfig := mkCommerceConfig { MasterEnabled : bool; PortalEnabled : bool; AdminEnabled : bool }.
Definition PortalOn (c : CommerceConfig) : bool := MasterEnabled c && PortalEnabled c.
Definition AdminOn (c : CommerceConfig) : bool := MasterEnabled c && AdminEnabled c.
Definition Enabled (c : CommerceConfig) : bool := MasterEnabled c && (PortalEnabled c || AdminEnabled c).
Definition config_Validate (c : CommerceConfig) : bool := MasterEnabled c || negb (PortalEnabled c || AdminEnabled c).
