(* ===== verification/CommerceRulesProofs.v ===== *)
(** What publication of a package promises to its sale: a rule that was accepted is
    answered for every guest, also after it was stored and read with other numbers; a tier
    that was accepted builds for every plan; a package that vouchers are refused for is
    never open to one. *)
From S2P Require Import Prelude GoStrings GoText GoAny CommerceRules.

(** [oks H]: [H] says that a chain of checks returned; every check of it passed. *)
Ltac oks H :=
  repeat match type of H with
  | (check _ _ ≫= _) = Ok _ => let u := fresh "u" in let C := fresh "C" in
      apply res_bind_Ok in H as (u & C & H); apply check_Ok in C
  | (_ ≫= _) = Ok _ => let u := fresh "r" in let C := fresh "C" in
      apply res_bind_Ok in H as (u & C & H)
  end.

(** A document decoded with its numbers kept as text, and the same document decoded without:
    a whole number of at most 53 bits becomes the [float64] of that value. *)
#[warnings="-register-all"] Inductive reread : any → any → Prop :=
| reread_nil : reread ANil ANil
| reread_bool b : reread (ABool b) (ABool b)
| reread_str s : reread (AStr s) (AStr s)
| reread_number s m e : (∀ n, ParseInt s = Some n → Z.abs n ≤ 2 ^ 53 → whole m e = Some n) → reread (ANumber s) (AFloat m e)
| reread_list l l' : Forall2 reread l l' → reread (AList l) (AList l')
| reread_map v v' : (∀ k, option_Forall2 reread (field k v) (field k v')) → reread (AMap v) (AMap v').

(** The order of fields is not kept. *)
Definition reread_fields (v v' : fields) : Prop := ∀ k, option_Forall2 reread (field k v) (field k v').

(** The answers that are about the guest; every other one is about the rule. *)
Definition guest_reasons : list string :=
  ["pms_rule_without_stay_evidence"; "pms_rule_without_versioned_evidence"; "stay_status_unknown"; "stay_status_not_matched";
   "stay_length_unknown"; "stay_shorter_than_min"; "stay_longer_than_max"; "room_type_unknown"; "room_type_not_matched";
   "travel_agent_unknown"; "travel_agent_not_matched"; "rate_plan_unknown"; "rate_plan_not_matched"; "pms_interface_unknown";
   "pms_interface_not_matched"; "vip_unknown"; "vip_not_matched"; "before_window"; "after_window"; "auth_method_not_allowed";
   "subject_kind_not_allowed"; "requires_prior_purchase"; "forbids_prior_purchase"; "client_group_not_allowed";
   "guest_network_not_allowed"].

(** An answer about the guest, or none. *)
Definition about_guest (r : res string ()) : Prop := ∀ why, r = Err why → why ∈ guest_reasons.

Ltac member := apply (bool_decide_eq_true_1 _); vm_compute; reflexivity.
Ltac guest := intros why [= <-]; member.

Lemma about_ok : about_guest (Ok ()).
Proof. by intros why. Qed.
Lemma about_check b why : why ∈ guest_reasons → about_guest (check b why).
Proof. intros HW. unfold check. destruct b; [apply about_ok|by intros x [= <-]]. Qed.

Section reread.
Context {U : Unicode} (v v' : fields) (HV : reread_fields v v').

(** ** Fields read again *)

Lemma reread_has k : has k v' = has k v.
Proof. apply eq_iff_eq_true. rewrite <- !field_has. destruct (HV k); split; by eauto. Qed.
Lemma reread_as_bool k : as_bool (field k v') = as_bool (field k v).
Proof. destruct (HV k) as [x y H|]; [by destruct H|done]. Qed.
Lemma reread_time k : parseTimeField v' k = parseTimeField v k.
Proof. unfold parseTimeField. destruct (HV k) as [x y H|]; [by destruct H|done]. Qed.
Lemma reread_prior k : prior_flag v' k = prior_flag v k.
Proof. unfold prior_flag. destruct (HV k) as [x y H|]; [by destruct H|done]. Qed.
Lemma reread_strings k : stringSet (field k v') = stringSet (field k v).
Proof.
  unfold stringSet. destruct (HV k) as [x y H|]; [|done]. destruct H as [| | | |l l' HL|]; try done. cbn.
  induction HL as [|x y l l' Hx HL IH]; [done|]. cbn. rewrite IH. by destruct Hx.
Qed.
Lemma reread_int k : parseIntField v k ≠ Malformed → parseIntField v' k = parseIntField v k.
Proof.
  unfold parseIntField. destruct (HV k) as [x y H|]; [|done]. destruct H as [| | |s m e HW| |]; try done. unfold asInt64.
  destruct (contains_any _ s); [done|]. destruct (ParseInt s) as [n|] eqn:EN; [|done]. destruct (_ || _) eqn:EB; [done|]. intros _.
  apply orb_false_iff in EB as [E1%Z.ltb_ge E2%Z.ltb_ge]. unfold MaxInt32 in *. rewrite (HW n) by (done || lia).
  destruct (_ || _) eqn:EB; [|done]. apply orb_true_iff in EB as [?%Z.ltb_lt|?%Z.ltb_lt]; lia.
Qed.

(** ** Each condition *)

Lemma match_about set x label : set ≠ [] → (label +:+ "_unknown") ∈ guest_reasons → (label +:+ "_not_matched") ∈ guest_reasons →
  about_guest (matchStringField set x label).
Proof. intros HS HU HM. unfold matchStringField. rewrite bool_decide_eq_false_2 by done. destruct (blank x); [by intros why [= <-]|by apply about_check]. Qed.

Lemma normalized_strings norm ok a : is_Some (normalized_list norm ok a) → stringSet a ≠ [].
Proof.
  unfold normalized_list, stringSet. destruct (as_list a) as [[|x l]|]; try by intros [? ?]. cbn. destruct x; by intros [? ?] || done.
Qed.

Lemma date_window_answered s : validDateWindow v = true → evalDateWindow v' s = evalDateWindow v s ∧ about_guest (evalDateWindow v s).
Proof.
  unfold validDateWindow, evalDateWindow. rewrite !reread_time. intros H. split; [done|].
  destruct (parseTimeField v "from"), (parseTimeField v "until"); try done; try (apply about_check; member).
  rewrite H. cbn. destruct (Before (Now s) _); [guest|apply about_check; member].
Qed.

Lemma prior_purchase_answered s : validPriorPurchase v = true → evalPriorPurchase v' s = evalPriorPurchase v s ∧ about_guest (evalPriorPurchase v s).
Proof.
  unfold validPriorPurchase, evalPriorPurchase. rewrite !reread_prior. intros [_ H]%andb_true_iff. split; [done|].
  destruct (prior_flag v "requires_prior"), (prior_flag v "forbids_prior"); try done. apply negb_true_iff in H. rewrite H.
  destruct (_ && _); [guest|apply about_check; member].
Qed.

Lemma client_group_answered s : validClientGroup v = true → evalClientGroup v' s = evalClientGroup v s ∧ about_guest (evalClientGroup v s).
Proof.
  unfold validClientGroup, evalClientGroup. rewrite reread_as_bool, reread_strings. intros [_ H]%andb_true_iff. split; [done|].
  assert (HM : bool_decide (stringSet (field "group_ids" v) = []) && negb (default false (as_bool (field "public" v))) = false).
  { apply orb_true_iff in H as [->|H]; [by rewrite andb_false_r|]. apply bool_decide_eq_true, normalized_strings in H. by rewrite bool_decide_eq_false_2. }
  rewrite HM. destruct (empty _); apply about_check; member.
Qed.

Lemma stay_length_answered e : validatePMSRule RuleStayLength v = true →
  evalPMSCondition RuleStayLength v' e = evalPMSCondition RuleStayLength v e ∧ about_guest (evalPMSCondition RuleStayLength v e).
Proof.
  change (validatePMSRule RuleStayLength v) with (match parseIntField v "min_nights", parseIntField v "max_nights" with
    | Absent, Absent | Malformed, _ | _, Malformed => false | Given lo, Given hi => lo <=? hi | _, _ => true end).
  unfold evalPMSCondition. cbn. intros H.
  assert (HM : parseIntField v' "min_nights" = parseIntField v "min_nights") by (apply reread_int; intros E; by rewrite E in H).
  assert (HX : parseIntField v' "max_nights" = parseIntField v "max_nights") by (apply reread_int; intros E; rewrite E in H; by destruct (parseIntField v "min_nights")).
  rewrite HM, HX. split; [done|]. destruct (Nights e) as [n|]; [|guest].
  destruct (parseIntField v "min_nights") as [| |lo], (parseIntField v "max_nights") as [| |hi]; try done; try (apply about_check; member).
  apply Z.leb_le in H. destruct (Z.ltb_spec hi lo); [lia|]. destruct (_ <? _); [guest|apply about_check; member].
Qed.

(** A rule about the stay, read again. *)
Lemma pms_rule_answered t e : t ∈ pmsRuleTypes → validatePMSRule t v = true →
  evalPMSCondition t v' e = evalPMSCondition t v e ∧ about_guest (evalPMSCondition t v e).
Proof.
  intros HT HR. repeat (apply elem_of_cons in HT as [->|HT]); [..|by apply elem_of_nil in HT]; try by apply stay_length_answered.
  all: unfold evalPMSCondition; unfold validatePMSRule, requireNonEmptyStrings in HR; cbn in HR |- *; rewrite ?reread_strings, ?reread_as_bool; split; [done|].
  - apply negb_true_iff, bool_decide_eq_false in HR. rewrite bool_decide_eq_false_2 by done. destruct (empty _); [guest|apply about_check; member].
  - apply match_about; [by apply negb_true_iff, bool_decide_eq_false in HR|member..].
  - apply bool_decide_eq_true in HR as [b ->]. destruct (VIP e); [apply about_check; member|guest].
  - apply match_about; [by apply negb_true_iff, bool_decide_eq_false in HR|member..].
  - apply match_about; [by apply bool_decide_eq_true, normalized_strings in HR|member..].
  - apply match_about; [by apply negb_true_iff, bool_decide_eq_false in HR|member..].
Qed.

Lemma strings_answered k x why : stringSet (field k v) ≠ [] → why ∈ guest_reasons → ∀ bad,
  let answer w := if bool_decide (stringSet (field k w) = []) then Err bad else check (x (stringSet (field k w))) why in
  answer v' = answer v ∧ about_guest (answer v).
Proof. intros HN HW bad answer. unfold answer. rewrite reread_strings. split; [done|]. rewrite bool_decide_eq_false_2 by done. by apply about_check. Qed.
End reread.

Section published.
Context {U : Unicode}.

Definition ruleTypes : list string :=
  [RuleDateWindow; RuleAuthMethod; RuleSubjectKind; RulePriorPurchase; RuleSiteNetwork; RuleClientGroup; RuleStayStatus; RuleStayLength;
   RuleRoomType; RuleVIP; RuleTravelAgent; RulePMSInterface; RuleRatePlan].

Lemma known_type t al : ruleAllowedFields t = Some al → t ∈ ruleTypes.
Proof. unfold ruleAllowedFields. repeat (destruct (decide _) as [->|]; [intros _; member|]). done. Qed.

Lemma upper_of_type t : t ∈ ruleTypes → upper t = t.
Proof.
  intros HT. repeat (apply elem_of_cons in HT as [->|HT]); [..|by apply elem_of_nil in HT].
  all: unfold upper; rewrite ToUpper_ascii by (vm_compute; reflexivity); vm_compute; reflexivity.
Qed.

Lemma pms_type t : t ∈ ruleTypes → IsPMSRuleType t = bool_decide (t ∈ pmsRuleTypes).
Proof. intros HT. unfold IsPMSRuleType. by rewrite upper_of_type. Qed.

(** C25. A rule accepted at publication is answered: whatever guest asks, and although the sale
    reads the stored rule with numbers of another type and in another order, the answer is
    the one of the rule as it was published, and a refusal is always about the guest, never
    that the rule is malformed, incomplete or unknown. *)
Theorem published_rules_are_answered r v v' s :
  rule_Value r = Some v → ValidateEligibilityRule r = true → reread_fields v v' →
  evalTypedCondition (rule_Type r) v' s = evalTypedCondition (rule_Type r) v s
  ∧ ∀ why, evalTypedCondition (rule_Type r) v' s = Err why → why ∈ guest_reasons.
Proof.
  intros HV HR HW. cut (evalTypedCondition (rule_Type r) v' s = evalTypedCondition (rule_Type r) v s ∧ about_guest (evalTypedCondition (rule_Type r) v s)).
  { intros [-> H]. by split. }
  unfold ValidateEligibilityRule, evalTypedCondition in *. rewrite HV in HR. generalize dependent (upper (rule_Type r)). intros t HR.
  destruct (ruleAllowedFields t) as [al|] eqn:EA; [|done]. apply andb_true_iff in HR as [_ HR]. apply known_type in EA. rewrite (pms_type t EA) in *.
  destruct (bool_decide (t ∈ pmsRuleTypes)) eqn:EP.
  - apply bool_decide_eq_true in EP. destruct (Stay s) as [e|]; [|by split; [|guest]]. destruct (_ <=? _); [by split; [|guest]|]. by apply pms_rule_answered.
  - apply bool_decide_eq_false in EP. destruct (decide (t = RuleDateWindow)); [by apply date_window_answered|].
    destruct (decide (t = RuleAuthMethod)); [apply bool_decide_eq_true, normalized_strings in HR; apply (strings_answered v v' HW _ (λ set, allowed_in set _)); [done|member]|].
    destruct (decide (t = RuleSubjectKind)); [apply bool_decide_eq_true, normalized_strings in HR; apply (strings_answered v v' HW _ (λ set, allowed_in set _)); [done|member]|].
    destruct (decide (t = RuleClientGroup)) as [->|]; [by apply client_group_answered|].
    destruct (decide (t = RulePriorPurchase)) as [->|]; [by apply prior_purchase_answered|].
    destruct (decide (t = RuleSiteNetwork)) as [->|]; [apply bool_decide_eq_true, normalized_strings in HR;
      apply (strings_answered v v' HW _ (λ set, allowed_in set _ || existsb (λ p, allowed_in set _) _)); [done|member]|].
    exfalso. unfold ruleTypes, pmsRuleTypes in *. set_solver.
Qed.

(** ** Tiers *)

(** A value of a snapshot: the tier's own, a whole number within the cap, or the plan's. *)
Definition takes (v : fields) (k : string) (dflt cap x : Z) : Prop :=
  match field k v with None => x = dflt | Some raw => asInt64 raw = Some x ∧ 0 ≤ x ≤ cap end.

Lemma override_takes v k dflt cap x : override v k dflt cap = Ok x ↔ takes v k dflt cap x.
Proof.
  unfold override, takes. destruct (field k v) as [raw|]; [|naive_solver]. destruct (asInt64 raw) as [n|]; [|naive_solver].
  destruct (_ || _) eqn:E; (apply orb_true_iff in E || apply orb_false_iff in E); rewrite ?Z.ltb_lt, ?Z.ltb_ge in E; [|naive_solver lia].
  split; [done|]. intros [[= ->] ?]. lia.
Qed.

(** What a tier takes from one plan it takes from any other. *)
Lemma takes_any v k d1 d2 cap x : takes v k d1 cap x → takes v k d2 cap (if has k v then x else d2).
Proof.
  unfold takes. intros H. destruct (has k v) eqn:EH.
  - apply field_has in EH as [raw ER]. by rewrite ER in *.
  - destruct (field k v) eqn:EF; [|done]. assert (has k v = true) by (apply field_has; by eexists). congruence.
Qed.

(** A snapshot on the terms of a tier and a plan. *)
Definition on_terms (t : GrantTier) (plan : PlanRevisionRow) (pkg : string) (g : GrantSnapshot) : Prop :=
  let v := tier_Value t in
  Version g = GrantSnapshotVersion ∧ ServicePlanRevisionID g = plan_ID plan ∧ PackageRevisionID g = pkg ∧ GrantTierOrder g = tier_Order t
  ∧ takes v "down_kbps" (plan_DownKbps plan) maxKbps (DownKbps g) ∧ takes v "up_kbps" (plan_UpKbps plan) maxKbps (UpKbps g)
  ∧ takes v "max_concurrent_devices" (plan_MaxConcurrentDevices plan) maxDevices (MaxConcurrentDevices g) ∧ 1 ≤ MaxConcurrentDevices g
  ∧ takes v "idle_timeout_seconds" 0 maxIdleSeconds (IdleTimeoutSeconds g)
  ∧ takes v "max_continuous_session_seconds" 0 maxSessionSeconds (MaxContinuousSessionSeconds g)
  ∧ takes v "time_quota_seconds" (plan_TimeQuotaSeconds plan) maxTimeQuotaSecond (TimeQuotaSeconds g)
  ∧ takes v "data_quota_bytes" (plan_DataQuotaBytes plan) maxDataQuotaBytes (DataQuotaBytes g)
  ∧ DeviceLimitPolicy g ∈ deviceLimitPolicies.

Lemma device_policy_known v p : device_policy v = Ok p → p ∈ deviceLimitPolicies.
Proof.
  unfold device_policy. destruct (field _ v) as [[]|]; try done; [|intros [= <-]; member].
  unfold check. destruct (allowed_in _ _) eqn:E; [|done]. intros [= <-]. by apply bool_decide_eq_true in E.
Qed.

(** The time mode a snapshot takes from its plan. *)
Definition plan_mode (plan : PlanRevisionRow) : string :=
  if empty (plan_TimeAccountingMode plan) then TimeModeValidityWindow else plan_TimeAccountingMode plan.
Definition supported_mode (plan : PlanRevisionRow) : Prop := ToUpper (plan_mode plan) ∈ [TimeModeValidityWindow; TimeModeAggregateOnlineTime].

Lemma build_ok t plan pkg g : BuildGrantSnapshot t plan pkg = Ok g ↔
  known_keys knownGrantKeys (tier_Value t) = true ∧ device_policy (tier_Value t) = Ok (DeviceLimitPolicy g)
  ∧ has "time_accounting_mode" (tier_Value t) = false ∧ supported_mode plan ∧ on_terms t plan pkg g
  ∧ g = mkSnapshot GrantSnapshotVersion (plan_ID plan) pkg (tier_Order t) (DownKbps g) (UpKbps g) (MaxConcurrentDevices g) (DeviceLimitPolicy g)
      (IdleTimeoutSeconds g) (MaxContinuousSessionSeconds g) (TimeQuotaSeconds g) (DataQuotaBytes g) (plan_mode plan) "" "" None "" 0.
Proof.
  unfold BuildGrantSnapshot, on_terms, supported_mode. fold (plan_mode plan). cbv zeta. split.
  - intros H. oks H. injection H as <-. cbn.
    repeat match goal with E : override _ _ _ _ = Ok _ |- _ => apply override_takes in E end.
    apply negb_true_iff in C8. apply bool_decide_eq_true in C9. apply Z.leb_le in C10. split_and!; eauto using device_policy_known.
  - intros (HK & HP & HT & HM & (_ & _ & _ & _ & T1 & T2 & T3 & T4 & T5 & T6 & T7 & T8 & _) & ->). cbn in *. apply override_takes in T1, T2, T3, T5, T6, T7, T8.
    rewrite HK, T1, T2, T3, T5, T6, T7, T8, HP, HT. cbn. rewrite bool_decide_eq_true_2 by done. apply Z.leb_le in T4. by rewrite T4.
Qed.

(** The snapshot of a tier for a plan, from the one for another plan. *)
Definition retaken (t : GrantTier) (plan : PlanRevisionRow) (pkg : string) (g : GrantSnapshot) : GrantSnapshot :=
  let own k (x y : Z) := if has k (tier_Value t) then x else y in
  mkSnapshot GrantSnapshotVersion (plan_ID plan) pkg (tier_Order t) (own "down_kbps" (DownKbps g) (plan_DownKbps plan))
    (own "up_kbps" (UpKbps g) (plan_UpKbps plan)) (own "max_concurrent_devices" (MaxConcurrentDevices g) (plan_MaxConcurrentDevices plan))
    (DeviceLimitPolicy g) (own "idle_timeout_seconds" (IdleTimeoutSeconds g) 0)
    (own "max_continuous_session_seconds" (MaxContinuousSessionSeconds g) 0)
    (own "time_quota_seconds" (TimeQuotaSeconds g) (plan_TimeQuotaSeconds plan))
    (own "data_quota_bytes" (DataQuotaBytes g) (plan_DataQuotaBytes plan)) (plan_mode plan) "" "" None "" 0.

Lemma build_for_any_plan t p0 k0 g0 plan pkg :
  BuildGrantSnapshot t p0 k0 = Ok g0 → 1 ≤ plan_MaxConcurrentDevices plan → supported_mode plan → BuildGrantSnapshot t plan pkg = Ok (retaken t plan pkg g0).
Proof.
  intros (HK & HP & HT & _ & (_ & _ & _ & _ & T1 & T2 & T3 & T4 & T5 & T6 & T7 & T8 & HD) & _)%build_ok HV HM. apply build_ok. unfold on_terms, retaken. cbn.
  split_and!; try done; try by eapply takes_any. by case_match.
Qed.

(** A tier accepted at publication builds for every plan with a device and a supported
    time mode, whatever plan the package has when it is sold: each value of the snapshot is
    the tier's own, a whole number within its cap, or the plan's, with at least one device
    and a known device limit policy. *)
Theorem published_tier_builds t plan pkg :
  ValidateGrantTier t = true → 1 ≤ plan_MaxConcurrentDevices plan → supported_mode plan →
  ∃ g, BuildGrantSnapshot t plan pkg = Ok g ∧ on_terms t plan pkg g.
Proof.
  intros [_ HB]%andb_true_iff HD HM. destruct (BuildGrantSnapshot t _ _) as [g0|] eqn:EB in HB; [|done]. exists (retaken t plan pkg g0).
  assert (HR := build_for_any_plan _ _ _ _ plan pkg EB HD HM). split; [done|]. by apply build_ok in HR as (_ & _ & _ & _ & HO & _).
Qed.

(** ** Vouchers *)

(** A client who signed in with a voucher: no stay and no client group. *)
Definition voucher_client (s : EligibilitySubject) : Prop :=
  Kind s = SubjectVoucher ∧ ToUpper (AuthMethod s) = "VOUCHER" ∧ Stay s = None ∧ ClientGroupID s = "".

Lemma blocked_rule_refuses r s b : voucher_client s → rule_blocks_voucher r = Some b → ∃ why, evalTypedCondition (rule_Type r) (rule_fields r) s = Err why.
Proof.
  intros (HK & HM & HS & HG). unfold rule_blocks_voucher, evalTypedCondition. set (t := upper (rule_Type r)). destruct (IsPMSRuleType t); [intros _; rewrite HS; by eexists|].
  assert (HV : ToUpper (Kind s) = "VOUCHER") by (rewrite HK, ToUpper_ascii; vm_compute; reflexivity).
  destruct (decide (t = RuleClientGroup)) as [->|].
  { unfold evalClientGroup. cbn. destruct (default false _); [done|]. intros _. rewrite HG. cbn. destruct (_ && _); by eexists. }
  destruct (decide (t = RuleAuthMethod)) as [->|]; [cbn; rewrite HM; destruct (allowed_in _ _); [done|]; intros _; destruct (bool_decide _); by eexists|].
  destruct (decide (t = RuleSubjectKind)) as [->|]; [cbn; rewrite HV; destruct (allowed_in _ _); [done|]; intros _; destruct (bool_decide _); by eexists|done].
Qed.

Lemma blocked_package_refuses mode rules s b : voucher_client s → VoucherBlocker mode rules = Some b → b ≠ PerNightAllowance → ∃ why, EvaluatePackageEligible rules s = Err why.
Proof.
  intros HS. unfold VoucherBlocker. destruct (EqualFold _ _); [by intros [= <-]|]. intros HB _. induction rules as [|r rules IH]; [done|]. cbn in *.
  destruct (rule_blocks_voucher r) as [b'|] eqn:ER; [destruct (blocked_rule_refuses _ _ _ HS ER) as [why ->]; by eexists|].
  destruct (evalTypedCondition _ _ _) as [u|why]; [|by eexists]. by apply IH.
Qed.
End published.
