(* ===== verification/CommerceTables.v ===== *)
(** The tables of the package shop, the statements of its repository
    (data-plane/internal/iamv2/commerce_repo_pg.go) and the grant functions, triggers and
    constraints of the SQL baseline.

    Rows are the records below, by primary key; identifiers are the canonical text of
    their uuid.  Eligibility rules are kept as the repository decodes them (numbers are
    [float64]), grant tiers, duration policies and snapshots with their numbers as text; a
    snapshot's field that [omitempty] leaves out reads as NULL.  The advisory locks order
    transactions, which are steps here.  Accounts, principals, anonymous subjects,
    devices and networks are only named. *)
From S2P Require Import Prelude GoStrings GoText GoAny Pg StayTables Checkout CommerceRules.

Definition scope : Type := string * string.

Record AuthContext := mkAuthContext {
  ac_scope : scope;
  ac_method : string;
  ac_stay : option string;
  ac_account : option string;
  ac_voucher : option string;
  ac_principal : option string;
  ac_anonymous : option string;
  ac_device : string;
  ac_network : string;
  ac_expires : Time;
  ac_consumed : option Time;
  ac_group : option string
}.

Record Quote := mkQuote {
  q_scope : scope;
  q_context : string;
  q_revision : string;
  q_interface : option string;
  q_mapping : option string;
  q_price : Z;
  q_currency : option string;
  q_exponent : option Z;
  q_tax_code : option string;
  q_tax_rate : option Z;
  q_tax_amount : option Z;
  q_snapshot : GrantSnapshot;
  q_expires : Time;
  q_consumed : option Time
}.

Record Purchase := mkPurchase {
  pu_scope : scope;
  pu_revision : string;
  pu_quote : option string;
  pu_context : option string;
  pu_interface : option string;
  pu_stay : option string;
  pu_trigger : string;
  pu_amount : Z;
  pu_currency : option string;
  pu_exponent : option Z;
  pu_state : string
}.

Record Settlement := mkSettlement { se_scope : scope; se_purchase : string; se_method : string; se_status : string }.

(** The columns that say whose an entitlement is. *)
Record Owner := mkOwner {
  of_stay : option string;
  of_account : option string;
  of_voucher : option string;
  of_principal : option string;
  of_anonymous : option string
}.
#[export] Instance Owner_eq_dec : EqDecision Owner.
Proof. solve_decision. Defined.

Record Ent := mkEnt {
  en_scope : scope;
  en_owner : Owner;
  en_interface : option string;
  en_purchase : string;
  en_snapshot : GrantSnapshot;
  en_plan : string;
  en_revision : string;
  en_mode : string;
  en_end_mode : string;
  en_window : option Time;
  en_status : EntState;
  en_reason : option string;
  en_supersedes : option string;
  en_activated : option Time;
  en_terminated : option Time;
  en_quota : option Z
}.

Record Voucher := mkVoucher {
  vo_scope : scope;
  vo_revision : string;
  vo_state : string;
  valid_from : option Time;
  valid_until : option Time
}.

Record Package := mkPackage { pk_scope : scope; pk_current : option string; pk_active : bool; pk_code : string }.

Record Revision := mkRevision {
  rv_scope : scope;
  rv_package : string;
  rv_plan : string;
  rv_type : string;
  rv_price : Z;
  rv_currency : option string;
  rv_exponent : option Z;
  rv_methods : list string;
  rv_from : option Time;
  rv_until : option Time;
  rv_display : option fields;
  rv_duration : option fields;
  rv_allocation : option string
}.

(** package_admin_actions. *)
Record AdminAction := mkAction {
  aa_scope : scope;
  aa_ent : string;
  aa_action : string;
  aa_outcome : string;
  aa_window : option Time;
  aa_created : Time
}.

Record SDB := mkSDB {
  contexts : gmap string AuthContext;
  quotes : gmap string Quote;
  bought : gmap string Purchase;
  settled : gmap string Settlement;
  granted : gmap string Ent;
  trail : gmap string (list Transition);
  cards : gmap string Voucher;
  packages : gmap string Package;
  revisions : gmap string Revision;
  rules_of : gmap string (list EligibilityRule);
  tiers_of : gmap string (list GrantTier);
  plans : gmap string (scope * PlanRevisionRow);
  lineage : gmap (scope * string) (list string);
  actions : list AdminAction;
  device_grants : list (string * string)      (* entitlement_device_authorizations: entitlement and device *)
}.

Definition set_contexts d x := mkSDB x (quotes d) (bought d) (settled d) (granted d) (trail d) (cards d) (packages d) (revisions d)
  (rules_of d) (tiers_of d) (plans d) (lineage d) (actions d) (device_grants d).
Definition set_quotes d x := mkSDB (contexts d) x (bought d) (settled d) (granted d) (trail d) (cards d) (packages d) (revisions d)
  (rules_of d) (tiers_of d) (plans d) (lineage d) (actions d) (device_grants d).
Definition set_bought d x := mkSDB (contexts d) (quotes d) x (settled d) (granted d) (trail d) (cards d) (packages d) (revisions d)
  (rules_of d) (tiers_of d) (plans d) (lineage d) (actions d) (device_grants d).
Definition set_settled d x := mkSDB (contexts d) (quotes d) (bought d) x (granted d) (trail d) (cards d) (packages d) (revisions d)
  (rules_of d) (tiers_of d) (plans d) (lineage d) (actions d) (device_grants d).
Definition set_granted d x y := mkSDB (contexts d) (quotes d) (bought d) (settled d) x y (cards d) (packages d) (revisions d)
  (rules_of d) (tiers_of d) (plans d) (lineage d) (actions d) (device_grants d).
Definition set_cards d x := mkSDB (contexts d) (quotes d) (bought d) (settled d) (granted d) (trail d) x (packages d) (revisions d)
  (rules_of d) (tiers_of d) (plans d) (lineage d) (actions d) (device_grants d).

(** ** Rows as the repository returns them *)

Record CommerceSubject := mkSubject {
  sj_Kind : string;
  VoucherID : string;
  AccountID : string;
  PrincipalID : string;
  AnonymousID : string;
  sj_Method : string;
  sj_DeviceID : string
}.

Record AuthContextRow := mkContextRow {
  ac_ID : string;
  ac_TenantID : string;
  ac_SiteID : string;
  ac_Method : string;
  Subject : CommerceSubject;
  ac_DeviceID : string;
  ac_GuestNetworkID : string;
  ac_ExpiresAt : Time;
  ac_Consumed : bool;
  ac_StayID : string;
  ac_ClientGroupID : string
}.

Record PackageRevisionRow := mkRevisionRow {
  pkg_ID : string;
  PackageID : string;
  PlanRevisionID : string;
  PackageType : string;
  PriceMinor : Z;
  Currency : string;
  CurrencyExponent : Z;
  SettlementMethods : list string;
  VisibleFrom : option Time;
  VisibleUntil : option Time;
  PackageActive : bool;
  IsCurrent : bool;
  Display : option fields;
  pkg_DurationPolicy : fields;
  DataAllocationMode : string
}.

Record OfferQuoteRow := mkQuoteRow {
  quote_ID : string;
  quote_AuthContextID : string;
  quote_PackageRevisionID : string;
  quote_PriceMinor : Z;
  quote_Currency : string;
  quote_CurrencyExponent : Z;
  PMSInterfaceID : option string;
  SettlementMappingID : option string;
  TaxCode : option string;
  TaxRateBP : option Z;
  TaxAmountMinor : option Z;
  quote_GrantSnapshot : GrantSnapshot;
  quote_ExpiresAt : Time;
  quote_Consumed : bool
}.

(** iamv2.Error with the codes that are told apart. *)
Definition ErrInvalidInput : error := Error "invalid_input".
Definition ErrACNotFound : error := Error "auth_context_not_found".
Definition isNotFound (e : error) : bool :=
  match e with Error c => bool_decide (c = "invalid_input" ∨ c = "auth_context_not_found") | Sql _ => false end.

Abbreviation TX := (ST (tx SDB) error).

Definition or_fail {A} (e : error) (o : option A) : TX A := match o with Some a => mret a | None => fail e end.

Definition subject_of (a : AuthContext) : CommerceSubject :=
  let mk k v ac p an := mkSubject k v ac p an (ac_method a) (ac_device a) in
  match ac_voucher a, ac_account a, ac_principal a, ac_anonymous a with
  | Some v, _, _, _ => mk SubjectVoucher v "" "" ""
  | _, Some x, _, _ => mk SubjectAccount "" x "" ""
  | _, _, Some p, _ => mk SubjectPrincipal "" "" p ""
  | _, _, _, Some n => mk SubjectAnonymous "" "" "" n
  | _, _, _, _ => mkSubject "" "" "" "" "" "" (ac_device a)
  end.

Definition context_row (id : string) (a : AuthContext) : AuthContextRow :=
  mkContextRow id (ac_scope a).1 (ac_scope a).2 (ac_method a) (subject_of a) (ac_device a) (ac_network a) (ac_expires a)
    (bool_decide (is_Some (ac_consumed a))) (default "" (ac_stay a)) (default "" (ac_group a)).

(** A row by its key within a scope. *)
Definition in_scope {A} (sc : A → scope) (s : scope) (m : gmap string A) (id : string) : option A :=
  a ← m !! id; if decide (sc a = s) then Some a else None.

Definition loadAuthContext (s : scope) (id : string) : TX AuthContextRow :=
  o ← query (λ d, in_scope ac_scope s (contexts d) id); or_fail ErrACNotFound (context_row id <$> o).

Definition revision_row (id : string) (r : Revision) (p : Package) : PackageRevisionRow :=
  mkRevisionRow id (rv_package r) (rv_plan r) (rv_type r) (rv_price r) (default "" (rv_currency r)) (default 0 (rv_exponent r)) (rv_methods r)
    (rv_from r) (rv_until r) (pk_active p) (bool_decide (pk_current p = Some id)) (rv_display r) (default [] (rv_duration r))
    (default "FIXED" (rv_allocation r)).

(** The package joined with its current revision. *)
Definition current_row (d : SDB) (p : Package) : option PackageRevisionRow :=
  rid ← pk_current p; r ← revisions d !! rid; Some (revision_row rid r p).

Definition ResolveActivePackageRevision (s : scope) (packageID : string) : TX PackageRevisionRow :=
  o ← query (λ d, in_scope pk_scope s (packages d) packageID ≫= current_row d); or_fail ErrInvalidInput o.

Definition code_le (x y : Package) : Prop := string_le (pk_code x) (pk_code y).
#[export] Instance code_le_dec : RelDecision code_le.
Proof. intros x y. unfold code_le. apply _. Defined.

Definition ListActivePackageRevisions (s : scope) : TX (list PackageRevisionRow) :=
  query (λ d, omap (current_row d)
    (merge_sort code_le (filter (λ p, pk_scope p = s ∧ pk_active p = true) (snd <$> map_to_list (packages d))))).

Definition LoadPackageRevisionByID (s : scope) (revID : string) : TX PackageRevisionRow :=
  o ← query (λ d, r ← in_scope rv_scope s (revisions d) revID; p ← in_scope pk_scope s (packages d) (rv_package r);
                  Some (revision_row revID r p));
  or_fail ErrInvalidInput o.

Definition LoadPlanRevision (s : scope) (id : string) : TX PlanRevisionRow :=
  o ← query (λ d, in_scope fst s (plans d) id); or_fail ErrInvalidInput (snd <$> o).

(** "" for a voucher of another owner. *)
Definition VoucherPinnedPackageRevision (s : scope) (voucherID : string) : TX string :=
  query (λ d, default "" (vo_revision <$> in_scope vo_scope s (cards d) voucherID)).

Definition GuestNetworkAncestors (s : scope) (network : string) : TX (list string) :=
  if blank network then mret [] else query (λ d, default [] (lineage d !! (s, network))).

Definition LoadEligibilityRules (rev : string) : TX (list EligibilityRule) := query (λ d, default [] (rules_of d !! rev)).
Definition LoadGrantTiers (rev : string) : TX (list GrantTier) :=
  query (λ d, merge_sort tier_le (default [] (tiers_of d !! rev))).

(** ** History of a package *)

Definition context_of (p : Purchase) (d : SDB) : option AuthContext := id ← pu_context p; contexts d !! id.

(** The clock of the engine, [time.Now()] of the repository and [now()] of the database. *)
Record Clock := mkClock { engine_now : Time; go_now : Time; db_now : Time }.

(** A column equals an identifier that may be NULL. *)
Definition same (x y : option string) : bool := bool_decide (is_Some x ∧ x = y).

Definition subjectCols (s : CommerceSubject) : option string * option string * option string :=
  if decide (sj_Kind s = SubjectVoucher) then (Some (VoucherID s), None, None)
  else if decide (sj_Kind s = SubjectAccount) then (None, Some (AccountID s), None)
  else if decide (sj_Kind s = SubjectPrincipal) then (None, None, Some (PrincipalID s)) else (None, None, None).

Definition nullable (s : string) : option string := if empty s then None else Some s.

Definition HasPriorPurchase (c : Clock) (s : scope) (packageID : string) (subj : CommerceSubject) (pol : PriorPurchasePolicy) : TX bool :=
  let since := if 0 <? WithinHours pol then Some (time_Add (go_now c) (wrap64 (- wrap64 (WithinHours pol * Hour)))) else None in
  let '(v, a, p) := subjectCols subj in
  let dev := if bool_decide (sj_Kind subj = SubjectAnonymous) || AlsoByDevice pol then nullable (sj_DeviceID subj) else None in
  query (λ d, exists_row (λ _ e,
    bool_decide (en_scope e = s) && bool_decide ((rv_package <$> revisions d !! en_revision e) = Some packageID)
    && match since with None => true | Some t => t <=? default (db_now c) (en_activated e) end
    && (same v (of_voucher (en_owner e)) || same a (of_account (en_owner e)) || same p (of_principal (en_owner e))
        || same dev (pu ← bought d !! en_purchase e; ac_device <$> context_of pu d))) (granted d)).

Definition package_ended_by_staff (now : Time) (s : scope) (revision : string) (stay account voucher principal device : option string)
    (d : SDB) : bool :=
  existsb (λ a,
    bool_decide (aa_scope a = s ∧ aa_action a = "END" ∧ aa_outcome a = "ENDED")
    && match granted d !! aa_ent a with
       | None => false
       | Some x =>
           bool_decide (is_Some (revisions d !! en_revision x) ∧ (rv_package <$> revisions d !! revision) = (rv_package <$> revisions d !! en_revision x))
           && (same stay (of_stay (en_owner x))
               || (bool_decide (of_stay (en_owner x) = None) && match aa_window a with None => true | Some w => now <? w end
                   && (same account (of_account (en_owner x)) || same voucher (of_voucher (en_owner x))
                       || same principal (of_principal (en_owner x))
                       || match device with
                          | Some v => bool_decide (is_Some (of_anonymous (en_owner x)) ∧ (aa_ent a, v) ∈ device_grants d)
                          | None => false
                          end)))
       end
    && negb (existsb (λ r, bool_decide (aa_action r = "RESET" ∧ aa_ent r = aa_ent a) && (aa_created a <=? aa_created r)) (actions d)))
    (actions d).

Definition EndedByStaff (c : Clock) (s : scope) (revision : string) (subj : CommerceSubject) : TX bool :=
  let '(v, a, p) := subjectCols subj in
  query (package_ended_by_staff (db_now c) s revision None a v p (nullable (sj_DeviceID subj))).

(** ** Quotes and purchases *)

Definition insert_quote (id : string) (q : Quote) (d : SDB) : res sql_error SDB :=
  _ ← check (bool_decide (quotes d !! id = None)) (DuplicateKey "offer_quotes_pkey");
  _ ← check (bool_decide (is_Some (in_scope ac_scope (q_scope q) (contexts d) (q_context q)))) (ForeignKeyFailed "offer_quotes_auth_context");
  _ ← check (bool_decide (is_Some (in_scope rv_scope (q_scope q) (revisions d) (q_revision q)))) (ForeignKeyFailed "offer_quotes_package_revision");
  Ok (set_quotes d (<[id := q]> (quotes d))).

Definition InsertOfferQuote (q : Quote) : TX string := id ← gen_random_uuid; _ ← exec (insert_quote id q); mret id.

Definition quote_row (id : string) (q : Quote) : option OfferQuoteRow :=
  cur ← q_currency q;
  if (Version (q_snapshot q) =? GrantSnapshotVersion)%Z then
    Some (mkQuoteRow id (q_context q) (q_revision q) (q_price q) cur (default 0 (q_exponent q)) (q_interface q) (q_mapping q)
            (q_tax_code q) (q_tax_rate q) (q_tax_amount q) (q_snapshot q) (q_expires q) (bool_decide (is_Some (q_consumed q))))
  else None.

(** A NULL currency cannot be scanned, and a snapshot of another version is refused. *)
Definition LockOfferQuoteForUpdate (s : scope) (id : string) : TX OfferQuoteRow :=
  o ← query (λ d, in_scope q_scope s (quotes d) id);
  q ← or_fail ErrACNotFound o;
  or_fail ErrInvalidInput (quote_row id q).

Definition consume_quote (now : Time) (q : Quote) : Quote :=
  mkQuote (q_scope q) (q_context q) (q_revision q) (q_interface q) (q_mapping q) (q_price q) (q_currency q) (q_exponent q)
    (q_tax_code q) (q_tax_rate q) (q_tax_amount q) (q_snapshot q) (q_expires q) (Some now).

(** UPDATE ... WHERE consumed_at IS NULL AND expires_at > now: whether a row was hit. *)
Definition ConsumeOfferQuote (id : string) (now : Time) : TX bool :=
  statement (λ d, Ok match quotes d !! id with
    | Some q => if bool_decide (q_consumed q = None) && (now <? q_expires q)
                then (set_quotes d (<[id := consume_quote now q]> (quotes d)), true) else (d, false)
    | None => (d, false)
    end).

Definition consume_context (now : Time) (a : AuthContext) : AuthContext :=
  mkAuthContext (ac_scope a) (ac_method a) (ac_stay a) (ac_account a) (ac_voucher a) (ac_principal a) (ac_anonymous a) (ac_device a)
    (ac_network a) (ac_expires a) (Some now) (ac_group a).

Definition ConsumeAuthContextByID (id : string) (now : Time) : TX bool :=
  statement (λ d, Ok match contexts d !! id with
    | Some a => if bool_decide (ac_consumed a = None) && (now <? ac_expires a)
                then (set_contexts d (<[id := consume_context now a]> (contexts d)), true) else (d, false)
    | None => (d, false)
    end).

Definition purchase_triggers : list string :=
  ["GUEST_SELECTION"; "VOUCHER_REDEMPTION"; "ACCOUNT_AUTO_GRANT"; "OTP_SOCIAL_DEFAULT"; "CHECKOUT_GRACE"; "EMERGENCY_GRACE";
   "POST_STAY_CONVERSION"; "CROSS_PMS_TRANSFER"; "ADMIN_GRANT"; "RENEWAL"; "ROOM_MOVE_RESTORE"].
Definition purchase_states : list string := ["PENDING"; "AWAITING_SETTLEMENT"; "MANUAL_REVIEW"; "GRANTED"; "FAILED"; "CANCELLED"].

(** The mapping and the tax of a purchase of this path are NULL. *)
Definition trg_purchase_quote_pin_equal (p : Purchase) (d : SDB) : res sql_error () :=
  match pu_quote p with
  | None => Ok ()
  | Some qid =>
      match quotes d !! qid with
      | None => Err (ForeignKeyFailed "purchase references unknown offer_quote")
      | Some q =>
          check (bool_decide (pu_scope p = q_scope q ∧ pu_revision p = q_revision q ∧ pu_context p = Some (q_context q)
                   ∧ pu_interface p = q_interface q ∧ q_mapping q = None ∧ pu_amount p = q_price q ∧ pu_currency p = q_currency q
                   ∧ pu_exponent p = q_exponent q ∧ q_tax_code q = None ∧ q_tax_rate q = None ∧ q_tax_amount q = None))
            (Raised "purchase money/pin values must match its offer_quote exactly")
      end
  end.

Definition insert_purchase (id : string) (p : Purchase) (d : SDB) : res sql_error SDB :=
  _ ← check (bool_decide (pu_trigger p ≠ "POST_STAY_CONVERSION")) (Raised "POST_STAY_CONVERSION_RETIRED");
  _ ← trg_purchase_quote_pin_equal p d;
  _ ← check (bool_decide (pu_trigger p ∈ purchase_triggers)) (CheckFailed "purchases_trigger_check");
  _ ← check (bool_decide (pu_trigger p ≠ "GUEST_SELECTION" ∨ is_Some (pu_quote p))) (CheckFailed "purchase_guest_needs_quote");
  _ ← check (0 <=? pu_amount p) (CheckFailed "purchases_amount_minor_check");
  _ ← check (bool_decide (pu_state p ∈ purchase_states)) (CheckFailed "purchases_state_check");
  _ ← check (bool_decide (bought d !! id = None)) (DuplicateKey "purchases_pkey");
  _ ← check (negb (exists_row (λ _ p', same (pu_quote p) (pu_quote p')) (bought d))) (DuplicateKey "purchases_offer_quote_id_key");
  _ ← check (bool_decide (is_Some (in_scope rv_scope (pu_scope p) (revisions d) (pu_revision p)))) (ForeignKeyFailed "purchases_package_revision");
  Ok (set_bought d (<[id := p]> (bought d))).

Definition InsertPurchaseAs (p : Purchase) : TX string := id ← gen_random_uuid; _ ← exec (insert_purchase id p); mret id.

Definition p4_settlement_birth (n : Settlement) (d : SDB) : res sql_error () :=
  if decide (se_method n = "NOT_REQUIRED" ∧ se_status n = "NOT_REQUIRED") then Ok ()
  else if decide (se_method n ∈ ["ONLINE_PAYMENT"; "PMS_POSTING"; "MANUAL_APPROVAL"] ∧ se_status n = "REQUIRED") then Ok ()
  else if decide (se_method n = "PREPAID" ∧ se_status n = "SETTLED") then
    match bought d !! se_purchase n with
    | Some p =>
        check (bool_decide (pu_trigger p = "VOUCHER_REDEMPTION" ∧ is_Some (context_of p d ≫= ac_voucher)))
          (Raised "SETTLEMENT_BIRTH: a PREPAID settlement is born SETTLED only for a voucher redemption")
    | None => Err (Raised "SETTLEMENT_BIRTH: a PREPAID settlement is born SETTLED only for a voucher redemption")
    end
  else Err (Raised "SETTLEMENT_BIRTH: not a coherent first state").

Definition insert_settlement (id : string) (n : Settlement) (d : SDB) : res sql_error SDB :=
  _ ← p4_settlement_birth n d;
  _ ← check (bool_decide (settled d !! id = None)) (DuplicateKey "settlements_pkey");
  _ ← check (negb (exists_row (λ _ n', bool_decide (se_purchase n' = se_purchase n)) (settled d))) (DuplicateKey "settlements_purchase_id_key");
  _ ← check (bool_decide (is_Some (in_scope pu_scope (se_scope n) (bought d) (se_purchase n)))) (ForeignKeyFailed "settlements_purchase");
  Ok (set_settled d (<[id := n]> (settled d))).

Definition InsertSettlementAs (n : Settlement) : TX string := id ← gen_random_uuid; _ ← exec (insert_settlement id n); mret id.

(** ** Entitlements *)

Definition live (e : Ent) : bool := bool_decide (en_status e ≠ TERMINATED).

Definition columns (o : Owner) : list (option string) := [of_stay o; of_account o; of_voucher o; of_principal o; of_anonymous o].
Definition num_nonnulls (l : list (option string)) : nat := length (omap id l).

(** Some column of the two is the same and not NULL. *)
Definition shares_owner (x y : Owner) : bool :=
  same (of_stay x) (of_stay y) || same (of_account x) (of_account y) || same (of_voucher x) (of_voucher y)
  || same (of_principal x) (of_principal y) || same (of_anonymous x) (of_anonymous y).

(** The unique indexes on live entitlements; a principal is one per site. *)
Definition same_live (x y : Ent) : bool :=
  live x && live y
  && (same (of_stay (en_owner x)) (of_stay (en_owner y)) || same (of_account (en_owner x)) (of_account (en_owner y))
      || same (of_voucher (en_owner x)) (of_voucher (en_owner y)) || same (of_anonymous (en_owner x)) (of_anonymous (en_owner y))
      || (same (of_principal (en_owner x)) (of_principal (en_owner y)) && bool_decide ((en_scope x).2 = (en_scope y).2))).

Definition end_modes : list string :=
  ["FIXED_AT"; "VALIDITY_WINDOW"; "AT_CHECKOUT"; "EARLIEST_OF_FIXED_AND_CHECKOUT"; "GRACE_AFTER_CHECKOUT"; "MANUAL_END"].

Definition ent_checks (id : string) (e : Ent) (d : SDB) : res sql_error () :=
  _ ← check (bool_decide (num_nonnulls (columns (en_owner e)) = 1%nat)) (CheckFailed "ent_one_subject");
  _ ← check (bool_decide (en_status e = TERMINATED ↔ is_Some (en_reason e))) (CheckFailed "ent_terminal");
  _ ← check (match en_quota e with Some q => 0 <? q | None => true end) (CheckFailed "entitlements_data_quota_bytes_positive");
  _ ← check (bool_decide (en_end_mode e ∈ end_modes)) (CheckFailed "entitlements_end_mode_check");
  check (negb (exists_row (λ k e', bool_decide (k ≠ id) && same_live e e') (granted d))) (DuplicateKey "ent_live").

(** The key [trg_entitlement_guard] compares: NULL for an anonymous subject. *)
Definition owner_key (o : Owner) : option string :=
  match of_stay o, of_account o, of_voucher o with
  | Some x, _, _ => Some ("stay:" +:+ x)
  | _, Some x, _ => Some ("acct:" +:+ x)
  | _, _, Some x => Some ("vou:" +:+ x)
  | _, _, _ => (λ x, "prin:" +:+ x) <$> of_principal o
  end.

Definition staff_ended_benefit_guard (now : Time) (e : Ent) (d : SDB) : res sql_error () :=
  match bought d !! en_purchase e with
  | None => Ok ()
  | Some pu =>
      if bool_decide (pu_amount pu ≠ 0)
         || negb (bool_decide (pu_trigger pu ∈ ["GUEST_SELECTION"; "ACCOUNT_AUTO_GRANT"; "OTP_SOCIAL_DEFAULT"; "VOUCHER_REDEMPTION"]))
      then Ok ()
      else
        let o := en_owner e in
        let device := ac_device <$> context_of pu d in
        check (negb (package_ended_by_staff now (en_scope e) (en_revision e) (of_stay o) (of_account o) (of_voucher o) (of_principal o)
                       (if decide (is_Some (of_anonymous o)) then device else None) d))
          (Raised "PKG_ENDED_BY_STAFF")
  end.

Definition insert_ent (now : Time) (id : string) (e : Ent) (d : SDB) : res sql_error SDB :=
  _ ← check (match en_supersedes e with
             | None => true
             | Some o => bool_decide ((granted d !! o ≫= owner_key ∘ en_owner) = owner_key (en_owner e))
             end) (Raised "cross-subject supersession rejected");
  _ ← staff_ended_benefit_guard now e d;
  _ ← ent_checks id e d;
  _ ← check (bool_decide (granted d !! id = None)) (DuplicateKey "entitlements_pkey");
  _ ← check (negb (exists_row (λ _ e', bool_decide (en_purchase e' = en_purchase e)) (granted d))) (DuplicateKey "entitlements_purchase_id_key");
  _ ← check (negb (exists_row (λ _ e', same (en_supersedes e) (en_supersedes e')) (granted d)))
        (DuplicateKey "entitlements_supersedes_entitlement_id_key");
  _ ← check (bool_decide (is_Some (in_scope pu_scope (en_scope e) (bought d) (en_purchase e)))) (ForeignKeyFailed "entitlements_purchase");
  _ ← check (bool_decide (is_Some (in_scope fst (en_scope e) (plans d) (en_plan e)))) (ForeignKeyFailed "entitlements_service_plan_revision");
  _ ← check (bool_decide (is_Some (in_scope rv_scope (en_scope e) (revisions d) (en_revision e)))) (ForeignKeyFailed "entitlements_package_revision");
  Ok (set_granted d (<[id := e]> (granted d)) (trail d)).

Definition with_ent_status (s : EntState) (reason : option string) (act term : option Time) (e : Ent) : Ent :=
  mkEnt (en_scope e) (en_owner e) (en_interface e) (en_purchase e) (en_snapshot e) (en_plan e) (en_revision e) (en_mode e) (en_end_mode e) (en_window e)
    s reason (en_supersedes e) act term (en_quota e).

Definition trail_of (d : SDB) (id : string) : list Transition := default [] (trail d !! id).

(** [apply_entitlement_transition] at the time of the transaction. *)
Definition move_ent (now : Time) (id : string) (to : EntState) (reason : string) (d : SDB) : res sql_error SDB :=
  match granted d !! id with
  | None => Err (Raised "entitlement not found")
  | Some e =>
      let l := trail_of d id in
      let e' := with_ent_status to (if decide (to = TERMINATED) then Some (terminal_code reason) else None)
                  (if bool_decide (to = ACTIVE) && bool_decide (en_activated e = None) then Some now else en_activated e)
                  (if decide (to = TERMINATED) then Some now else None) e in
      let n := mkTransition (match l with [] => None | _ => Some (en_status e) end) to now now None None reason in
      _ ← check (match head_live l with Some h => effective_at h <=? now | None => true end) (Raised "requested effective_at precedes the live head");
      _ ← check (bool_decide (en_status e ≠ TERMINATED) || bool_decide (to = TERMINATED)) (Raised "no transition out of TERMINATED");
      _ ← ent_checks id e' d;
      _ ← p3_est_insert_guard l (Some to) n;
      Ok (set_granted d (<[id := e']> (granted d)) (<[id := (l ++ [n])%list]> (trail d)))
  end.

(** ** The grant kernel *)

Definition redeemable (now : Time) (v : Voucher) : bool :=
  bool_decide (vo_state v = "UNUSED")
  && match valid_from v with Some t => t <=? now | None => true end
  && match valid_until v with Some t => now <? t | None => true end.

Definition spend (v : Voucher) : Voucher := mkVoucher (vo_scope v) (vo_revision v) "REDEEMED" (valid_from v) (valid_until v).

(** ORDER BY activated_at DESC NULLS LAST, id LIMIT 1. *)
Definition newer (x y : string * Ent) : bool :=
  match en_activated x.2, en_activated y.2 with
  | Some a, Some b => (b <? a) || ((a =? b)%Z && String.ltb x.1 y.1)
  | Some _, None => true
  | None, Some _ => false
  | None, None => String.ltb x.1 y.1
  end.
Definition newest (l : list (string * Ent)) : option (string * Ent) :=
  foldl (λ o x, match o with Some y => if newer x y then Some x else Some y | None => Some x end) None l.
Definition live_of (s : scope) (o : Owner) (d : SDB) : option string :=
  fst <$> newest (filter (λ ke, en_scope ke.2 = s ∧ live ke.2 = true ∧ shares_owner o (en_owner ke.2) = true) (map_to_list (granted d))).

Definition with_purchase_state (st : string) (p : Purchase) : Purchase :=
  mkPurchase (pu_scope p) (pu_revision p) (pu_quote p) (pu_context p) (pu_interface p) (pu_stay p) (pu_trigger p) (pu_amount p) (pu_currency p) (pu_exponent p) st.

Definition check_card (s : scope) (o : Owner) (revision : string) (d : SDB) : res sql_error () :=
  match of_voucher o with
  | None => Ok ()
  | Some v =>
      match in_scope vo_scope s (cards d) v with
      | None => Err (Raised "VOUCHER_NOT_FOUND")
      | Some vo => check (bool_decide (vo_revision vo = revision)) (Raised "VOUCHER_PACKAGE_MISMATCH")
      end
  end.

Definition burn_card (now : Time) (s : scope) (o : Owner) (d : SDB) : res sql_error SDB :=
  match of_voucher o with
  | None => Ok d
  | Some v =>
      match in_scope vo_scope s (cards d) v with
      | Some vo => if redeemable now vo then Ok (set_cards d (<[v := spend vo]> (cards d))) else Err (Raised "VOUCHER_NOT_REDEEMABLE")
      | None => Err (Raised "VOUCHER_NOT_REDEEMABLE")
      end
  end.

(** [btrim(s)] removes spaces, [length(s)] counts characters. *)
Definition btrim (s : string) : string :=
  let strip x := strip_all [" "] (String.length x) x in rev_string (strip (rev_string (strip s))).
Definition char_length (s : string) : Z := Z.of_nat (length (filter (λ b, cont b = false) (bytes_of s))).

(** [voucher_revoke]: only an unused card, by a named operator with a reason. *)
Definition voucher_revoke (s : scope) (voucher : string) (operator : option string) (reason : string) (d : SDB) : res sql_error SDB :=
  _ ← check (bool_decide (is_Some operator)) (Raised "VOUCHER_REVOKE_NEEDS_AN_OPERATOR");
  _ ← check (4 <=? char_length (btrim reason)) (Raised "VOUCHER_REVOKE_NEEDS_A_REASON");
  match in_scope vo_scope s (cards d) voucher with
  | Some v =>
      _ ← check (bool_decide (vo_state v = "UNUSED")) (Raised "VOUCHER_NOT_REVOCABLE");
      Ok (set_cards d (<[voucher := mkVoucher (vo_scope v) (vo_revision v) "REVOKED" (valid_from v) (valid_until v)]> (cards d)))
  | None => Err (Raised "VOUCHER_NOT_REVOCABLE")
  end.

(** What PostgreSQL makes of the text of a time ([::timestamptz]). *)
Class PgTime : Type := { timestamptz : string → option Time }.

Section grant.
Context {P : PgTime}.

Definition granted_window (snap : GrantSnapshot) : res sql_error (option Time) :=
  if empty (WindowEndsAt snap) then Ok None
  else match timestamptz (WindowEndsAt snap) with Some t => Ok (Some t) | None => Err (Raised "invalid input syntax for type timestamp") end.

(** The entitlement, whether it was there before, and the one it replaces.  The key
    service_plan_revision_id of a snapshot is never left out, so it is never NULL. *)
Definition p4_entitlement_grant_kernel_v2 (now : Time) (s : scope) (purchase : string) (o : Owner) (iface : option string)
    (snap : GrantSnapshot) (plan revision new : string) (d : SDB) : res sql_error (SDB * (string * bool * option string)) :=
  _ ← check (bool_decide (num_nonnulls (columns o) = 1%nat)) (Raised "GRANT_SUBJECT_UNRESOLVED");
  _ ← check (negb (bool_decide (is_Some (of_stay o) ∧ iface = None))) (Raised "GRANT_STAY_UNPINNED");
  _ ← check_card s o revision d;
  window ← granted_window snap;
  match head (filter (λ ke, en_purchase ke.2 = purchase) (map_to_list (granted d))) with
  | Some (existing, _) => Ok (d, (existing, true, None))
  | None =>
      let superseded := live_of s o d in
      d1 ← match superseded with Some x => move_ent now x TERMINATED "SUPERSEDED" d | None => Ok d end;
      d2 ← insert_ent now new
             (mkEnt s o (if decide (is_Some (of_stay o)) then iface else None) purchase snap plan revision (TimeAccountingMode snap) (if empty (EndMode snap) then "MANUAL_END" else EndMode snap)
                window ACTIVE None superseded (Some now) None (if 0 <? FrozenDataQuotaBytes snap then Some (FrozenDataQuotaBytes snap) else None)) d1;
      d3 ← move_ent now new ACTIVE "GRANTED" d2;
      d4 ← burn_card now s o d3;
      match bought d4 !! purchase with
      | None => Err (Raised "PURCHASE_STATE_TRANSITION")
      | Some p =>
          _ ← check (bool_decide (pu_state p ∈ ["PENDING"; "AWAITING_SETTLEMENT"; "MANUAL_REVIEW"])) (Raised "PURCHASE_STATE_TRANSITION");
          Ok (set_bought d4 (<[purchase := with_purchase_state "GRANTED" p]> (bought d4)), (new, false, superseded))
      end
  end.

(** The settlement of a purchase; the purchase has at most one. *)
Definition settlement_of (s : scope) (purchase : string) (d : SDB) : option Settlement :=
  snd <$> head (filter (λ kn, se_scope kn.2 = s ∧ se_purchase kn.2 = purchase) (map_to_list (settled d))).

Definition settled_as (s : scope) (purchase method status : string) (d : SDB) : bool :=
  match settlement_of s purchase d with Some n => bool_decide (se_method n = method ∧ se_status n = status) | None => false end.

(** The quote and the context a purchase pins. *)
Definition evidence (s : scope) (p : Purchase) (d : SDB) : option (Quote * AuthContext) :=
  q ← pu_quote p ≫= in_scope q_scope s (quotes d);
  a ← pu_context p ≫= in_scope ac_scope s (contexts d);
  Some (q, a).

Definition p4_grant_quoted_entitlement (now : Time) (s : scope) (purchase new : string) (d : SDB)
    : res sql_error (SDB * (string * bool * option string)) :=
  match in_scope pu_scope s (bought d) purchase with
  | None => Err (Raised "GRANT_PURCHASE_UNKNOWN")
  | Some pu =>
      _ ← check (settled_as s purchase "NOT_REQUIRED" "NOT_REQUIRED" d) (Raised "GRANT_NOT_FREE");
      match evidence s pu d with
      | None => Err (Raised "GRANT_EVIDENCE_MISSING")
      | Some (q, a) =>
          _ ← check (q_price q =? 0)%Z (Raised "GRANT_NOT_FREE");
          p4_entitlement_grant_kernel_v2 now s purchase (mkOwner None (ac_account a) (ac_voucher a) (ac_principal a) (ac_anonymous a)) None
            (q_snapshot q) (ServicePlanRevisionID (q_snapshot q)) (pu_revision pu) new d
      end
  end.

Definition p4_grant_voucher_entitlement (now : Time) (s : scope) (purchase new : string) (d : SDB)
    : res sql_error (SDB * (string * bool * option string)) :=
  match in_scope pu_scope s (bought d) purchase with
  | None => Err (Raised "GRANT_PURCHASE_UNKNOWN")
  | Some pu =>
      _ ← check (bool_decide (pu_trigger pu = "VOUCHER_REDEMPTION")) (Raised "GRANT_WRONG_RAIL");
      _ ← check (settled_as s purchase "PREPAID" "SETTLED" d) (Raised "GRANT_NOT_PREPAID");
      match evidence s pu d with
      | Some (q, a) =>
          _ ← check (bool_decide (is_Some (ac_voucher a))) (Raised "GRANT_EVIDENCE_MISSING");
          p4_entitlement_grant_kernel_v2 now s purchase (mkOwner None None (ac_voucher a) None None) None
            (q_snapshot q) (ServicePlanRevisionID (q_snapshot q)) (pu_revision pu) new d
      | None => Err (Raised "GRANT_EVIDENCE_MISSING")
      end
  end.

(** [p4_grant_paid_entitlement]: money is the authorization. *)
Definition p4_grant_paid_entitlement (now : Time) (s : scope) (settlement new : string) (d : SDB)
    : res sql_error (SDB * (string * bool * option string)) :=
  match in_scope se_scope s (settled d) settlement with
  | None => Err (Raised "GRANT_SETTLEMENT_UNKNOWN")
  | Some se =>
      _ ← check (bool_decide (se_method se ∈ ["ONLINE_PAYMENT"; "PMS_POSTING"])) (Raised "GRANT_WRONG_RAIL");
      _ ← check (bool_decide (se_status se = "SETTLED")) (Raised "GRANT_NOT_SETTLED");
      match in_scope pu_scope s (bought d) (se_purchase se) with
      | None => Err (Raised "GRANT_PURCHASE_UNKNOWN")
      | Some pu =>
          match head (filter (λ ke, en_purchase ke.2 = se_purchase se) (map_to_list (granted d))) with
          | Some (existing, _) => Ok (d, (existing, true, None))
          | None =>
              _ ← check (bool_decide (pu_state pu ∈ ["AWAITING_SETTLEMENT"; "MANUAL_REVIEW"])) (Raised "GRANT_PURCHASE_STATE");
              match evidence s pu d with
              | None => Err (Raised "GRANT_EVIDENCE_MISSING")
              | Some (q, a) =>
                  _ ← check (negb (bool_decide (se_method se = "PMS_POSTING" ∧ (pu_stay pu = None ∨ pu_interface pu = None))))
                        (Raised "GRANT_EVIDENCE_MISSING");
                  let room := bool_decide (is_Some (ac_stay a)) in
                  p4_entitlement_grant_kernel_v2 now s (se_purchase se)
                    (mkOwner (if room then pu_stay pu else None) (ac_account a) (ac_voucher a) (ac_principal a) (ac_anonymous a))
                    (if room then pu_interface pu else None) (q_snapshot q) (ServicePlanRevisionID (q_snapshot q)) (pu_revision pu) new d
              end
          end
      end
  end.

Definition GrantQuotedEntitlement (c : Clock) (s : scope) (purchase : string) : TX (string * string) :=
  new ← gen_random_uuid; '(eid, _, old) ← statement (p4_grant_quoted_entitlement (db_now c) s purchase new); mret (eid, default "" old).
Definition GrantVoucherEntitlement (c : Clock) (s : scope) (purchase : string) : TX (string * string) :=
  new ← gen_random_uuid; '(eid, _, old) ← statement (p4_grant_voucher_entitlement (db_now c) s purchase new); mret (eid, default "" old).
End grant.
