(* ===== verification/CommerceFlow.v ===== *)
(** Listing, quoting and confirming a package (data-plane/internal/iamv2: acquisition.go,
    commerce_list.go, commerce_flow.go, commerce_engine.go).

    Each operation is one transaction.  A refusal is a result with its reason, an error
    rolls back and is reported as a repository error; what the site offers and the clocks
    are read when the operation runs and are arguments. *)
From S2P Require Import Prelude GoStrings GoText GoAny Pg StayTables Checkout CommerceRules CommerceTables.

Section flow.
Context {U : Unicode} {P : PgTime}.

(** ** What a client may use *)

Definition applicableMethods (pkg : PackageRevisionRow) (ac : AuthContextRow) (site : SiteMethods) : list string :=
  if decide (DataAllocationMode pkg = AllocPerStayNight) then []
  else if decide (sj_Kind (Subject ac) = SubjectVoucher) then [AcquireVoucher]
  else match ValidateCurrency (Currency pkg) (CurrencyExponent pkg) with
       | None => []
       | Some _ =>
           if (PriceMinor pkg =? 0)%Z then (if hasMethod (SettlementMethods pkg) AcquireFree then [AcquireFree] else [])
           else if negb (PaidAccess site) then []
           else if Card site && hasMethod (SettlementMethods pkg) AcquireCard && CardApplicable site (Currency pkg) then [AcquireCard] else []
       end.

Definition subjectID (s : CommerceSubject) : option string :=
  let only (x : string) (others : list string) := if negb (empty x) && forallb empty others then Some x else None in
  if decide (sj_Kind s = SubjectVoucher) then only (VoucherID s) [AccountID s; PrincipalID s]
  else if decide (sj_Kind s = SubjectAccount) then only (AccountID s) [VoucherID s; PrincipalID s]
  else if decide (sj_Kind s = SubjectPrincipal) then only (PrincipalID s) [VoucherID s; AccountID s]
  else if decide (sj_Kind s = SubjectAnonymous) then only (AnonymousID s) [VoucherID s; AccountID s; PrincipalID s]
  else None.

(** What the guest is shown of a snapshot. *)
Definition guestDisplay (snap : GrantSnapshot) (pkg : PackageRevisionRow) : fields :=
  ([("down_kbps", AInt (DownKbps snap)); ("up_kbps", AInt (UpKbps snap)); ("max_concurrent_devices", AInt (MaxConcurrentDevices snap));
    ("data_quota_bytes", AInt (DataQuotaBytes snap)); ("time_quota_seconds", AInt (TimeQuotaSeconds snap)); ("end_mode", AStr (EndMode snap));
    ("price_minor", AInt (PriceMinor pkg)); ("currency", AStr (Currency pkg)); ("currency_exponent", AInt (CurrencyExponent pkg));
    ("free", ABool (PriceMinor pkg =? 0)%Z)]
   ++ (if empty (WindowEndsAt snap) then [] else [("window_ends_at", AStr (WindowEndsAt snap))])
   ++ (match field "name" (default [] (Display pkg)) with Some n => [("name", n)] | None => [] end))%list.

Definition with_end (snap : GrantSnapshot) (endMode : string) (window : option Time) (policy : option fields) (method : string) : GrantSnapshot :=
  mkSnapshot (Version snap) (ServicePlanRevisionID snap) (PackageRevisionID snap) (GrantTierOrder snap) (DownKbps snap) (UpKbps snap)
    (MaxConcurrentDevices snap) (DeviceLimitPolicy snap) (IdleTimeoutSeconds snap) (MaxContinuousSessionSeconds snap)
    (TimeQuotaSeconds snap) (DataQuotaBytes snap) (TimeAccountingMode snap) endMode
    (match window with Some w => FormatRFC3339 w | None => WindowEndsAt snap end) policy method (FrozenDataQuotaBytes snap).

Record Engine := mkEngine { cfg : CommerceConfig; ttl : Duration; aggregateOnlineTime : bool }.

(** [WithTx]: committed, or rolled back. *)
Definition WithTx {A} (body : TX A) (fate : commit_fate) (t : tx SDB) : SDB * res error A :=
  match body t with
  | (t', Ok a) => match commit fate (tx_db t) t' with (d, Ok _) => (d, Ok a) | (d, Err e) => (d, Err e) end
  | (_, Err e) => (tx_db t, Err e)
  end.

(** ** Quotes *)

Record QuoteRequest := mkQuoteRequest {
  qr_TenantID : string;
  qr_SiteID : string;
  qr_AuthContextID : string;
  qr_PackageID : string;
  qr_DeviceID : string;
  qr_GuestNetworkID : string;
  qr_Method : string
}.
Definition qr_scope (r : QuoteRequest) : scope := (qr_TenantID r, qr_SiteID r).

Record QuoteResult := mkQuoteResult {
  qres_Disabled : bool;
  QuoteID : string;
  qres_ExpiresAt : Time;
  qres_Display : fields;
  qres_Reason : string
}.
Definition quoteDeny (reason : string) : QuoteResult := mkQuoteResult false "" 0 [] reason.

(** Early returns: [deny r] ends the body with that result. *)
Definition unless {A} (refused : bool) (r : A) (k : TX A) : TX A := if refused then mret r else k.

(** The rules, the history and the tiers of a package for a subject; the reason when it may
    not have it. *)
Definition subject_for (c : Clock) (ac : AuthContextRow) (lineage : list string) (prior : bool) : EligibilitySubject :=
  mkEligibilitySubject (engine_now c) (ac_Method ac) (sj_Kind (Subject ac)) (ac_GuestNetworkID ac) prior (ac_ClientGroupID ac) lineage None.

Definition prior_purchase (c : Clock) (s : scope) (ac : AuthContextRow) (pkg : PackageRevisionRow) (rules : list EligibilityRule) : TX bool :=
  let pol := ForSubject (PriorPurchasePolicyOf rules (PriceMinor pkg)) (sj_Kind (Subject ac)) in
  if Present pol then HasPriorPurchase c s (PackageID pkg) (Subject ac) pol else mret false.

Definition ended_free (c : Clock) (s : scope) (ac : AuthContextRow) (pkg : PackageRevisionRow) : TX bool :=
  if (PriceMinor pkg =? 0)%Z then EndedByStaff c s (pkg_ID pkg) (Subject ac) else mret false.

(** The package that is quoted: a voucher's own, or the one asked for. *)
Definition quoted_package (c : Clock) (req : QuoteRequest) (ac : AuthContextRow) : TX (string + PackageRevisionRow) :=
  let s := qr_scope req in
  if decide (sj_Kind (Subject ac) = SubjectVoucher) then
    pinned ← VoucherPinnedPackageRevision s (VoucherID (Subject ac));
    if empty pinned then mret (inl "voucher_unpinned")
    else
      pkg ← LoadPackageRevisionByID s pinned;
      if negb (empty (qr_PackageID req)) && negb (bool_decide (qr_PackageID req = PackageID pkg)) then mret (inl "voucher_package_mismatch")
      else mret (inr pkg)
  else if empty (qr_PackageID req) then fail ErrInvalidInput
  else
    pkg ← ResolveActivePackageRevision s (qr_PackageID req);
    if negb (PackageActive pkg) || negb (IsCurrent pkg) then mret (inl "package_unavailable")
    else if match VisibleFrom pkg with Some t => Before (engine_now c) t | None => false end then mret (inl "not_in_sale_window")
    else if match VisibleUntil pkg with Some t => negb (Before (engine_now c) t) | None => false end then mret (inl "sale_window_closed")
    else mret (inr pkg).

Definition quote_body (e : Engine) (site : SiteMethods) (c : Clock) (req : QuoteRequest) : TX QuoteResult :=
  let s := qr_scope req in
  let now := engine_now c in
  ac ← loadAuthContext s (qr_AuthContextID req);
  unless (negb (bool_decide (ac_TenantID ac = qr_TenantID req ∧ ac_SiteID ac = qr_SiteID req ∧ ac_DeviceID ac = qr_DeviceID req
                  ∧ ac_GuestNetworkID ac = qr_GuestNetworkID req))) (quoteDeny "auth_context_mismatch") $
  unless (negb (empty (ac_StayID ac))) (quoteDeny "pms_uses_room_sign_in") $
  unless (ac_Consumed ac || negb (After (ac_ExpiresAt ac) now)) (quoteDeny "auth_context_unavailable") $
  choice ← quoted_package c req ac;
  match choice with
  | inl why => mret (quoteDeny why)
  | inr pkg =>
      let applicable := applicableMethods pkg ac site in
      let method := match applicable with [m] => if empty (qr_Method req) then m else qr_Method req | _ => qr_Method req end in
      unless (empty method || negb (bool_decide (method ∈ applicable))) (quoteDeny "method_not_available") $
      match ValidateCurrency (Currency pkg) (CurrencyExponent pkg) with
      | None => mret (quoteDeny "invalid_currency")
      | Some cur =>
          plan ← LoadPlanRevision s (PlanRevisionID pkg);
          ancestors ← GuestNetworkAncestors s (ac_GuestNetworkID ac);
          rules ← LoadEligibilityRules (pkg_ID pkg);
          prior ← prior_purchase c s ac pkg rules;
          let subj := subject_for c ac ancestors prior in
          match EvaluatePackageEligible rules subj with
          | Err why => mret (quoteDeny ("ineligible:" +:+ why))
          | Ok _ =>
              ended ← ended_free c s ac pkg;
              unless ended (quoteDeny "ineligible:ended_by_staff") $
              tiers ← LoadGrantTiers (pkg_ID pkg);
              match FirstMatchTier tiers subj with
              | None => mret (quoteDeny "no_matching_grant_tier")
              | Some tier =>
                  match BuildGrantSnapshot tier plan (pkg_ID pkg) with
                  | Err _ => mret (quoteDeny "invalid_grant_config")
                  | Ok snap0 =>
                      let why := TimeModeAcquirable (TimeAccountingMode snap0) (aggregateOnlineTime e) in
                      unless (negb (empty why)) (quoteDeny why) $
                      match ResolveEndPolicy (pkg_DurationPolicy pkg) now with
                      | Err _ => mret (quoteDeny "invalid_duration_policy")
                      | Ok (endMode, window) =>
                          let snap := with_end snap0 endMode window (Some (pkg_DurationPolicy pkg)) method in
                          let expires := time_Add now (ttl e) in
                          id ← InsertOfferQuote (mkQuote s (ac_ID ac) (pkg_ID pkg) None None (PriceMinor pkg) (Some cur)
                                 (Some (CurrencyExponent pkg)) None None None snap expires None);
                          mret (mkQuoteResult false id expires (guestDisplay snap pkg) "ok")
                      end
                  end
              end
          end
      end
  end.

Definition CreateQuote (e : Engine) (site : option SiteMethods) (c : Clock) (req : QuoteRequest) (fate : commit_fate) (t : tx SDB)
    : SDB * res error QuoteResult :=
  if negb (PortalOn (cfg e)) then (tx_db t, Ok (mkQuoteResult true "" 0 [] "phase2_disabled"))
  else if empty (qr_TenantID req) || empty (qr_SiteID req) || empty (qr_AuthContextID req) || empty (qr_DeviceID req) || empty (qr_GuestNetworkID req)
  then (tx_db t, Err ErrInvalidInput)
  else match WithTx (quote_body e (siteMethods site) c req) fate t with
       | (d, Ok r) => (d, Ok r)
       | (d, Err _) => (d, Err (Error "repository"))
       end.

(** ** Confirmation *)

Record ConfirmRequest := mkConfirmRequest {
  cr_TenantID : string;
  cr_SiteID : string;
  cr_QuoteID : string;
  cr_DeviceID : string;
  cr_GuestNetworkID : string
}.
Definition cr_scope (r : ConfirmRequest) : scope := (cr_TenantID r, cr_SiteID r).

Record PurchaseResult := mkPurchaseResult {
  pres_Disabled : bool;
  PurchaseID : string;
  EntitlementID : string;
  Superseded : string;
  SettlementID : string;
  pres_Method : string;
  AwaitingSettlement : bool;
  pres_Reason : string
}.
Definition purchaseDeny (reason : string) : PurchaseResult := mkPurchaseResult false "" "" "" "" "" false reason.

Definition bad_snapshot (q : OfferQuoteRow) : bool :=
  negb (Version (quote_GrantSnapshot q) =? GrantSnapshotVersion)%Z || empty (ServicePlanRevisionID (quote_GrantSnapshot q)).
Definition has_pms (q : OfferQuoteRow) : bool := bool_decide (is_Some (PMSInterfaceID q)) || bool_decide (is_Some (SettlementMappingID q)).
Definition bad_currency (q : OfferQuoteRow) : bool := bool_decide (ValidateCurrency (quote_Currency q) (quote_CurrencyExponent q) = None).
Definition nonzero (o : option Z) : bool := match o with Some n => negb (n =? 0)%Z | None => false end.

Definition revalidateFreeQuote (q : OfferQuoteRow) : string :=
  if negb (quote_PriceMinor q =? 0)%Z then "quote_not_free"
  else if bad_currency q then "quote_bad_currency"
  else if has_pms q then "quote_has_pms_settlement"
  else if bool_decide (is_Some (TaxCode q)) || nonzero (TaxRateBP q) || nonzero (TaxAmountMinor q) then "quote_has_tax"
  else if bad_snapshot q then "quote_bad_snapshot" else "".

Definition revalidateQuote (q : OfferQuoteRow) (method : string) (site : SiteMethods) : string :=
  let rest := if bad_currency q then "quote_bad_currency" else if bad_snapshot q then "quote_bad_snapshot" else "" in
  if decide (method = AcquireFree) then revalidateFreeQuote q
  else if decide (method = AcquireVoucher) then if has_pms q then "quote_has_pms_settlement" else rest
  else if decide (method = AcquireCard) then
    if negb (PaidAccess site) || negb (Card site) then "method_not_available"
    else if quote_PriceMinor q <=? 0 then "quote_not_priced"
    else if has_pms q then "quote_has_pms_settlement"
    else if negb (CardApplicable site (quote_Currency q)) then "card_currency_not_accepted" else rest
  else "method_not_available".

Definition purchase_of (s : scope) (q : OfferQuoteRow) (trigger state : string) : Purchase :=
  mkPurchase s (quote_PackageRevisionID q) (Some (quote_ID q)) (Some (quote_AuthContextID q)) None None trigger (quote_PriceMinor q)
    (Some (quote_Currency q)) (Some (quote_CurrencyExponent q)) state.

(** The purchase, its settlement and, where nothing is to be paid, the grant. *)
Definition acquire (c : Clock) (s : scope) (q : OfferQuoteRow) (method : string) : TX PurchaseResult :=
  if decide (method = AcquireFree) then
    pid ← InsertPurchaseAs (purchase_of s q "GUEST_SELECTION" "PENDING");
    _ ← InsertSettlementAs (mkSettlement s pid "NOT_REQUIRED" "NOT_REQUIRED");
    '(eid, old) ← GrantQuotedEntitlement c s pid;
    mret (mkPurchaseResult false pid eid old "" method false "granted")
  else if decide (method = AcquireVoucher) then
    pid ← InsertPurchaseAs (purchase_of s q "VOUCHER_REDEMPTION" "PENDING");
    sid ← InsertSettlementAs (mkSettlement s pid AcquireVoucher "SETTLED");
    '(eid, old) ← GrantVoucherEntitlement c s pid;
    mret (mkPurchaseResult false pid eid old sid method false "granted")
  else if decide (method = AcquireCard) then
    pid ← InsertPurchaseAs (purchase_of s q "GUEST_SELECTION" "AWAITING_SETTLEMENT");
    sid ← InsertSettlementAs (mkSettlement s pid AcquireCard "REQUIRED");
    mret (mkPurchaseResult false pid "" "" sid method true "awaiting_settlement")
  else fail (Error "confirm refused").

Definition confirm_body (e : Engine) (site : SiteMethods) (c : Clock) (req : ConfirmRequest) : TX PurchaseResult :=
  let s := cr_scope req in
  let now := engine_now c in
  q ← LockOfferQuoteForUpdate s (cr_QuoteID req);
  unless (quote_Consumed q || negb (After (quote_ExpiresAt q) now)) (purchaseDeny "quote_unavailable") $
  let method := if empty (AcquisitionMethod (quote_GrantSnapshot q)) then AcquireFree else AcquisitionMethod (quote_GrantSnapshot q) in
  let why := revalidateQuote q method site in
  unless (negb (empty why)) (purchaseDeny why) $
  let mode := TimeModeAcquirable (TimeAccountingMode (quote_GrantSnapshot q)) (aggregateOnlineTime e) in
  unless (negb (empty mode)) (purchaseDeny mode) $
  pkg ← LoadPackageRevisionByID s (quote_PackageRevisionID q);
  unless (bool_decide (DataAllocationMode pkg = AllocPerStayNight)) (purchaseDeny "per_night_allowance_needs_stay") $
  ac ← loadAuthContext s (quote_AuthContextID q);
  unless (negb (bool_decide (ac_TenantID ac = cr_TenantID req ∧ ac_SiteID ac = cr_SiteID req ∧ ac_DeviceID ac = cr_DeviceID req
                  ∧ ac_GuestNetworkID ac = cr_GuestNetworkID req))) (purchaseDeny "auth_context_mismatch") $
  unless (ac_Consumed ac || negb (After (ac_ExpiresAt ac) now)) (purchaseDeny "auth_context_unavailable") $
  unless (bool_decide (subjectID (Subject ac) = None)) (purchaseDeny "subject_invalid") $
  unless (negb (Bool.eqb (bool_decide (method = AcquireVoucher)) (bool_decide (sj_Kind (Subject ac) = SubjectVoucher))))
    (purchaseDeny "method_subject_mismatch") $
  okQ ← ConsumeOfferQuote (quote_ID q) now;
  unless (negb okQ) (purchaseDeny "quote_already_consumed") $
  okA ← ConsumeAuthContextByID (ac_ID ac) now;
  unless (negb okA) (purchaseDeny "auth_context_already_consumed") $
  acquire c s q method.

Definition ConfirmPurchase (e : Engine) (site : option SiteMethods) (c : Clock) (req : ConfirmRequest) (fate : commit_fate) (t : tx SDB)
    : SDB * res error PurchaseResult :=
  if negb (PortalOn (cfg e)) then (tx_db t, Ok (mkPurchaseResult true "" "" "" "" "" false "phase2_disabled"))
  else if empty (cr_TenantID req) || empty (cr_SiteID req) || empty (cr_QuoteID req) || empty (cr_DeviceID req) || empty (cr_GuestNetworkID req)
  then (tx_db t, Err ErrInvalidInput)
  else match WithTx (confirm_body e (siteMethods site) c req) fate t with
       | (d, Ok r) => (d, Ok r)
       | (d, Err (Error "confirm refused")) => (d, Ok (purchaseDeny "method_not_available"))
       | (d, Err _) => (d, Err (Error "repository"))
       end.

(** ** The list *)

Record PackageListRequest := mkListRequest {
  lr_TenantID : string;
  lr_SiteID : string;
  lr_AuthContextID : string;
  lr_DeviceID : string;
  lr_GuestNetworkID : string
}.
Definition lr_scope (r : PackageListRequest) : scope := (lr_TenantID r, lr_SiteID r).

Record PackageListItem := mkItem {
  it_PackageID : string;
  it_Display : fields;
  Methods : list string;
  it_PriceMinor : Z;
  it_Currency : string;
  it_CurrencyExponent : Z
}.
Record PackageListResult := mkListResult {
  lres_Disabled : bool;
  Packages : list PackageListItem;
  lres_Reason : string;
  FreeAllowanceUsed : bool;
  lres_ClientGroupID : string
}.
Definition listDeny (reason : string) : PackageListResult := mkListResult false [] reason false "".

Definition voucherMayHavePackage (s : scope) (ac : AuthContextRow) (pkg : PackageRevisionRow) : TX bool :=
  if negb (bool_decide (sj_Kind (Subject ac) = SubjectVoucher)) || empty (VoucherID (Subject ac)) then mret true
  else
    pinned ← VoucherPinnedPackageRevision s (VoucherID (Subject ac));
    mret (negb (empty pinned) && bool_decide (pinned = pkg_ID pkg)).

(** An error that is a missing row leaves the package out. *)
Definition LoadPlanIfAny (s : scope) (id : string) : TX (option PlanRevisionRow) := λ t,
  match LoadPlanRevision s id t with
  | (t', Ok p) => (t', Ok (Some p))
  | (t', Err e) => if isNotFound e then (t', Ok None) else (t', Err e)
  end.

(** The display of a package the subject may have, or why not. *)
Definition evalPackageForSubject (c : Clock) (s : scope) (ac : AuthContextRow) (pkg : PackageRevisionRow) : TX (string + fields) :=
  let now := engine_now c in
  let isVoucher := bool_decide (sj_Kind (Subject ac) = SubjectVoucher) in
  unless (negb isVoucher && (negb (PackageActive pkg) || negb (IsCurrent pkg))) (inl "") $
  ok ← voucherMayHavePackage s ac pkg;
  unless (negb ok) (inl "") $
  unless (negb isVoucher && match VisibleFrom pkg with Some t => Before now t | None => false end) (inl "") $
  unless (negb isVoucher && match VisibleUntil pkg with Some t => negb (Before now t) | None => false end) (inl "") $
  match ValidateCurrency (Currency pkg) (CurrencyExponent pkg) with
  | None => mret (inl "")
  | Some _ =>
      plan ← LoadPlanIfAny s (PlanRevisionID pkg);
      match plan with
      | None => mret (inl "")
      | Some plan =>
          ancestors ← GuestNetworkAncestors s (ac_GuestNetworkID ac);
          rules ← LoadEligibilityRules (pkg_ID pkg);
          prior ← prior_purchase c s ac pkg rules;
          let subj := subject_for c ac ancestors prior in
          match EvaluatePackageEligible rules subj with
          | Err why => mret (inl why)
          | Ok _ =>
              ended ← ended_free c s ac pkg;
              unless ended (inl "ended_by_staff") $
              tiers ← LoadGrantTiers (pkg_ID pkg);
              match FirstMatchTier tiers subj with
              | None => mret (inl "")
              | Some tier =>
                  match BuildGrantSnapshot tier plan (pkg_ID pkg), ResolveEndPolicy (pkg_DurationPolicy pkg) now with
                  | Ok snap0, Ok (endMode, window) => mret (inr (guestDisplay (with_end snap0 endMode window None "") pkg))
                  | _, _ => mret (inl "")
                  end
              end
          end
      end
  end.

Definition listed_item (ac : AuthContextRow) (site : SiteMethods) (pkg : PackageRevisionRow) (display : fields) : list PackageListItem :=
  match applicableMethods pkg ac site with
  | [] => []
  | methods => [mkItem (PackageID pkg) display methods (PriceMinor pkg) (Currency pkg) (CurrencyExponent pkg)]
  end.

Fixpoint list_items (c : Clock) (s : scope) (ac : AuthContextRow) (site : SiteMethods) (pkgs : list PackageRevisionRow)
    : TX (list PackageListItem * bool) :=
  match pkgs with
  | [] => mret ([], false)
  | pkg :: pkgs' =>
      r ← evalPackageForSubject c s ac pkg;
      '(items, used) ← list_items c s ac site pkgs';
      match r with
      | inl why => mret (items, used || (bool_decide (why = "forbids_prior_purchase") && (PriceMinor pkg =? 0)%Z))
      | inr display => mret ((listed_item ac site pkg display ++ items)%list, used)
      end
  end.

(** A voucher's own revision, if it is there. *)
Definition voucher_packages (s : scope) (voucherID : string) : TX (list PackageRevisionRow) :=
  pinned ← VoucherPinnedPackageRevision s voucherID;
  if empty pinned then mret []
  else λ t, match LoadPackageRevisionByID s pinned t with
            | (t', Ok p) => (t', Ok [p])
            | (t', Err e) => if isNotFound e then (t', Ok []) else (t', Err e)
            end.

Definition list_body (site : SiteMethods) (c : Clock) (req : PackageListRequest) : TX PackageListResult :=
  let s := lr_scope req in
  let now := engine_now c in
  ac ← loadAuthContext s (lr_AuthContextID req);
  unless (negb (bool_decide (ac_TenantID ac = lr_TenantID req ∧ ac_SiteID ac = lr_SiteID req ∧ ac_DeviceID ac = lr_DeviceID req
                  ∧ ac_GuestNetworkID ac = lr_GuestNetworkID req))) (listDeny "auth_context_mismatch") $
  unless (negb (empty (ac_StayID ac))) (listDeny "pms_uses_room_sign_in") $
  unless (ac_Consumed ac || negb (After (ac_ExpiresAt ac) now)) (listDeny "auth_context_unavailable") $
  pkgs ← (if decide (sj_Kind (Subject ac) = SubjectVoucher) then voucher_packages s (VoucherID (Subject ac)) else ListActivePackageRevisions s);
  '(items, used) ← list_items c s ac site pkgs;
  mret (mkListResult false items "ok" used (ac_ClientGroupID ac)).

Definition ListEligiblePackages (e : Engine) (site : option SiteMethods) (c : Clock) (req : PackageListRequest) (fate : commit_fate) (t : tx SDB)
    : SDB * res error PackageListResult :=
  if negb (PortalOn (cfg e)) then (tx_db t, Ok (mkListResult true [] "phase2_disabled" false ""))
  else if empty (lr_TenantID req) || empty (lr_SiteID req) || empty (lr_AuthContextID req) || empty (lr_DeviceID req) || empty (lr_GuestNetworkID req)
  then (tx_db t, Err ErrInvalidInput)
  else match WithTx (list_body (siteMethods site) c req) fate t with
       | (d, Ok r) => (d, Ok r)
       | (d, Err _) => (d, Err (Error "repository"))
       end.
End flow.
