(* ===== verification/CommerceProofs.v ===== *)
(** What a confirmation does to the tables, over one call and over histories. *)
From S2P Require Import Prelude GoStrings GoText GoAny Pg StayTables StayProofs Checkout CommerceRules CommerceRulesProofs CommerceTables CommerceFlow.

Section tables.
Context {U : Unicode} {P : PgTime}.

(** ** The kernel *)

Lemma no_row {A} (p : string → A → bool) m k a : exists_row p m = false → m !! k = Some a → p k a = false.
Proof. intros HE. by apply (proj1 (exists_row_false p m) HE). Qed.

Definition superseded_as (now : Time) (e : Ent) : Ent := with_ent_status TERMINATED (Some "SUPERSEDED") (en_activated e) (Some now) e.

Definition supersede (now : Time) (old : option string) (m : gmap string Ent) : gmap string Ent :=
  match old with Some x => match m !! x with Some e => <[x := superseded_as now e]> m | None => m end | None => m end.

Definition granted_ent (now : Time) (s : scope) (pid : string) (o : Owner) (iface : option string) (snap : GrantSnapshot) (plan rev : string) (w : option Time) (old : option string) : Ent :=
  mkEnt s o iface pid snap plan rev (TimeAccountingMode snap) (if empty (EndMode snap) then "MANUAL_END" else EndMode snap) w ACTIVE None old
    (Some now) None (if 0 <? FrozenDataQuotaBytes snap then Some (FrozenDataQuotaBytes snap) else None).

Definition burned (o : Owner) (m : gmap string Voucher) : gmap string Voucher :=
  match of_voucher o with Some v => match m !! v with Some c => <[v := spend c]> m | None => m end | None => m end.

Lemma move_ent_spec now id to reason d d' :
  move_ent now id to reason d = Ok d' →
  ∃ e tr, granted d !! id = Some e ∧ (en_status e ≠ TERMINATED ∨ to = TERMINATED) ∧
    d' = set_granted d (<[id := with_ent_status to (if decide (to = TERMINATED) then Some (terminal_code reason) else None)
                  (if bool_decide (to = ACTIVE) && bool_decide (en_activated e = None) then Some now else en_activated e)
                  (if decide (to = TERMINATED) then Some now else None) e]> (granted d)) tr.
Proof.
  unfold move_ent. destruct (granted d !! id) as [e|] eqn:E; [|done]. cbv zeta. intros H. oks H. injection H as <-.
  exists e. eexists. split; [done|]. split; [|done]. apply orb_true_iff in C0 as [C0|C0]; apply bool_decide_eq_true in C0; auto.
Qed.

Lemma insert_ent_spec now id e d d' :
  insert_ent now id e d = Ok d' →
  d' = set_granted d (<[id := e]> (granted d)) (trail d) ∧ granted d !! id = None ∧ num_nonnulls (columns (en_owner e)) = 1%nat ∧
  (∀ k x, granted d !! k = Some x → en_purchase x ≠ en_purchase e) ∧
  (∀ k x, granted d !! k = Some x → k ≠ id → same_live e x = false) ∧
  is_Some (in_scope pu_scope (en_scope e) (bought d) (en_purchase e)).
Proof.
  unfold insert_ent. intros H. oks H. injection H as <-. unfold ent_checks in C1. oks C1. apply check_Ok in C1.
  repeat match goal with HB : bool_decide _ = true |- _ => apply bool_decide_eq_true in HB end. apply negb_true_iff in C1, C3.
  split_and!; try done.
  - intros k x Hx. by apply (no_row _ _ _ _ C3), bool_decide_eq_false in Hx.
  - intros k x Hx Hk. apply (no_row _ _ _ _ C1), andb_false_iff in Hx as [Hx%bool_decide_eq_false|Hx]; done.
Qed.

(** What a grant that was not there before changes. *)
Record grant_effect (now : Time) (s : scope) (pid : string) (o : Owner) (iface : option string) (snap : GrantSnapshot) (plan rev new : string) (old : option string)
    (d d' : SDB) : Prop := {
  ge_contexts : contexts d' = contexts d;
  ge_quotes : quotes d' = quotes d;
  ge_settled : settled d' = settled d;
  ge_bought : ∃ p, bought d !! pid = Some p ∧ bought d' = <[pid := with_purchase_state "GRANTED" p]> (bought d);
  ge_granted : ∃ w, granted_window snap = Ok w ∧
    granted d' = <[new := granted_ent now s pid o (if decide (is_Some (of_stay o)) then iface else None) snap plan rev w old]> (supersede now old (granted d));
  ge_old : ∀ x, old = Some x → ∃ e, granted d !! x = Some e ∧ en_scope e = s ∧ live e = true ∧ shares_owner o (en_owner e) = true;
  ge_fresh : granted d !! new = None;
  ge_first : ∀ k x, granted d !! k = Some x → en_purchase x ≠ pid;
  ge_one : num_nonnulls (columns o) = 1%nat;
  ge_cards : cards d' = burned o (cards d);
  ge_card : ∀ v, of_voucher o = Some v → ∃ c, cards d !! v = Some c ∧ vo_scope c = s ∧ vo_revision c = rev ∧ redeemable now c = true
}.

Lemma newest_elem l x : newest l = Some x → x ∈ l.
Proof.
  unfold newest. assert (HG : ∀ o, foldl (λ o x, match o with Some y => if newer x y then Some x else Some y | None => Some x end) o l = Some x →
    o = Some x ∨ x ∈ l).
  { induction l as [|y l IH]; intros o; cbn; [auto|]. intros [H|H]%IH; [|right; by right].
    destruct o as [z|]; [destruct (newer y z)|]; injection H as <-; auto; right; left. }
  intros [H|H]%HG; done.
Qed.

Lemma live_of_spec s o d x : live_of s o d = Some x →
  ∃ e, granted d !! x = Some e ∧ en_scope e = s ∧ live e = true ∧ shares_owner o (en_owner e) = true.
Proof.
  unfold live_of. intros ([k e] & HN & ->)%fmap_Some. apply newest_elem, list_elem_of_filter in HN as [(H1 & H2 & H3) HE%elem_of_map_to_list].
  by exists e.
Qed.

Lemma in_scope_Some {A} (sc : A → scope) s m id a : in_scope sc s m id = Some a ↔ m !! id = Some a ∧ sc a = s.
Proof. unfold in_scope. destruct (m !! id) as [b|]; cbn; [|naive_solver]. destruct (decide (sc b = s)); naive_solver. Qed.

Lemma kernel_spec now s pid o iface snap plan rev new d d' eid already old :
  p4_entitlement_grant_kernel_v2 now s pid o iface snap plan rev new d = Ok (d', (eid, already, old)) →
  (already = true ∧ d' = d ∧ ∃ e, granted d !! eid = Some e ∧ en_purchase e = pid)
  ∨ (already = false ∧ eid = new ∧ grant_effect now s pid o iface snap plan rev new old d d').
Proof.
  unfold p4_entitlement_grant_kernel_v2. intros H. oks H. apply bool_decide_eq_true in C.
  destruct (filter _ _) as [|[k e] l] eqn:EF; cbn [head] in H.
  - right. cbv zeta in H. apply res_bind_Ok in H as (d1 & H1 & H). apply res_bind_Ok in H as (d2 & H2 & H).
    apply res_bind_Ok in H as (d3 & H3 & H). apply res_bind_Ok in H as (d4 & H4 & H). destruct (bought d4 !! pid) as [p|] eqn:EP; [|done]. oks H.
    injection H as <- <- <- <-. split; [done|]. split; [done|].
    apply insert_ent_spec in H2 as (-> & Hfresh & Hone & Hfirst & _ & _). apply move_ent_spec in H3 as (e3 & tr3 & He3 & _ & ->).
    cbn in He3. rewrite lookup_insert_eq in He3. injection He3 as <-.
    assert (Hd1 : d1 = set_granted d (supersede now (live_of s o d) (granted d)) (trail d1)).
    { destruct (live_of s o d) as [x|] eqn:EL; [|by injection H1 as <-; destruct d]. apply move_ent_spec in H1 as (ex & tr & Hx & _ & ->). cbn. by rewrite Hx. }
    rewrite Hd1 in *. cbn in Hfresh, Hfirst.
    assert (Hrw : ∀ k x, granted d !! k = Some x → ∃ x', supersede now (live_of s o d) (granted d) !! k = Some x' ∧ en_purchase x' = en_purchase x).
    { intros k x Hk. unfold supersede. destruct (live_of s o d) as [y|]; [|by exists x]. destruct (granted d !! y) as [ey|] eqn:Ey; [|by exists x].
      destruct (decide (y = k)) as [->|]; [rewrite lookup_insert_eq; eexists; split; [done|]; cbn; congruence|rewrite lookup_insert_ne by done; by exists x]. }
    assert (Hgr : granted d4 = <[new := granted_ent now s pid o (if decide (is_Some (of_stay o)) then iface else None) snap plan rev r0 (live_of s o d)]> (supersede now (live_of s o d) (granted d))
      ∧ cards d4 = burned o (cards d) ∧ contexts d4 = contexts d ∧ quotes d4 = quotes d ∧ settled d4 = settled d ∧ bought d4 = bought d ∧
      (∀ v, of_voucher o = Some v → ∃ c, cards d !! v = Some c ∧ vo_scope c = s ∧ vo_revision c = rev ∧ redeemable now c = true)).
    { unfold burn_card, burned in *. unfold check_card in C1. cbn in H4. destruct (of_voucher o) as [v|].
      - destruct (in_scope vo_scope s (cards d) v) as [c|] eqn:EC; [|done]. apply in_scope_Some in EC as [EC1 EC2]. apply check_Ok, bool_decide_eq_true in C1.
        destruct (redeemable now c) eqn:ER; [|done]. injection H4 as <-. cbn. rewrite insert_insert_eq, EC1. split_and!; try done.
        intros v' [= <-]. by exists c.
      - injection H4 as <-. cbn. rewrite insert_insert_eq. split_and!; try done. }
    destruct Hgr as (Hg & Hc & Hctx & Hq & Hs & Hb & Hcard).
    constructor; cbn; try done.
    + exists p. rewrite <- Hb. auto.
    + by exists r0.
    + intros x Hx. by apply live_of_spec.
    + destruct (granted d !! new) as [x|] eqn:EN; [|done]. destruct (Hrw _ _ EN) as (x' & Hx' & _). congruence.
    + intros k x Hk HE. destruct (Hrw _ _ Hk) as (x' & Hx' & Hp). apply (Hfirst _ _ Hx'). cbn. congruence.
  - left. injection H as <- <- <- <-. split; [done|]. split; [done|]. exists e.
    assert (HI : (k, e) ∈ filter (λ ke : string * Ent, en_purchase ke.2 = pid) (map_to_list (granted d))) by (rewrite EF; left).
    apply list_elem_of_filter in HI as [HP HI%elem_of_map_to_list]. done.
Qed.

(** A paid grant: the settlement is settled on a rail of money, and the terms are those of
    the quote and the context the purchase pins. *)
Lemma paid_spec now s sid new d d' eid already old :
  p4_grant_paid_entitlement now s sid new d = Ok (d', (eid, already, old)) →
  d' = d ∨ ∃ se pu q a o iface, settled d !! sid = Some se ∧ se_scope se = s ∧ se_status se = "SETTLED" ∧
    se_method se ∈ ["ONLINE_PAYMENT"; "PMS_POSTING"] ∧ bought d !! se_purchase se = Some pu ∧ pu_scope pu = s ∧ evidence s pu d = Some (q, a) ∧
    of_voucher o = ac_voucher a ∧
    grant_effect now s (se_purchase se) o iface (q_snapshot q) (ServicePlanRevisionID (q_snapshot q)) (pu_revision pu) new old d d'.
Proof.
  unfold p4_grant_paid_entitlement. destruct (in_scope se_scope s (settled d) sid) as [se|] eqn:ES; [|done]. apply in_scope_Some in ES as [ES1 ES2].
  intros H. oks H. apply bool_decide_eq_true in C, C0. destruct (in_scope pu_scope s (bought d) (se_purchase se)) as [pu|] eqn:EP; [|done].
  apply in_scope_Some in EP as [EP1 EP2]. destruct (head _) as [[k e]|]; [injection H as <-; by left|]. oks H.
  destruct (evidence s pu d) as [[q a]|] eqn:EE; [|done]. oks H. cbv zeta in H. apply kernel_spec in H as [(_ & -> & _)|(_ & _ & HG)]; [by left|]. right.
  eexists se, pu, q, a, _, _. split_and!; [done..| |exact HG]. done.
Qed.

(** ** One statement after another *)

Abbreviation all_errors := (λ _ : error, True).

Lemma triple_unless {A} db (b : bool) (r : A) (k : TX A) (Q : A → SDB → Prop) :
  (b = true → Q r db) → (b = false → triple (λ d, d = db) k Q all_errors) → triple (λ d, d = db) (unless b r k) Q all_errors.
Proof. intros H1 H2. destruct b; [apply triple_ret; intros ? ->; auto|auto]. Qed.

Lemma triple_fetch {A B C} db (f : SDB → option A) e (g : A → B) (k : B → TX C) (Q : C → SDB → Prop) :
  (∀ a, f db = Some a → triple (λ d, d = db) (k (g a)) Q all_errors) →
  triple (λ d, d = db) ((o ← query f; or_fail e (g <$> o)) ≫= k) Q all_errors.
Proof.
  intros H. apply (triple_bind _ _ _ (λ b d, d = db ∧ ∃ a, f db = Some a ∧ b = g a)).
  - apply triple_read; [done|]. intros o ->. destruct (f db) as [a|] eqn:E; cbn; [|by apply triple_fail].
    apply triple_ret. intros d ->. split; [done|]. by exists a.
  - intros b. apply triple_pure. intros (a & Ha & ->). auto.
Qed.

(** A statement that inserts a row under a new identifier. *)
Lemma triple_insert {A} db (f : string → SDB → res sql_error SDB) (k : string → TX A) (Q : A → SDB → Prop) :
  (∀ id db', id ≠ "" → f id db = Ok db' → triple (λ d, d = db') (k id) Q all_errors) →
  triple (λ d, d = db) ((id ← gen_random_uuid; _ ← exec (f id); mret id) ≫= k) Q all_errors.
Proof.
  intros H. apply (triple_bind _ _ _ (λ id d, id ≠ "" ∧ f id db = Ok d)).
  - apply (triple_bind _ _ _ (λ id d, d = db ∧ id ≠ "")); [by apply triple_uuid; naive_solver|]. intros id. apply triple_pure. intros Hid.
    apply (triple_bind _ _ _ (λ _ d, f id db = Ok d)); [by apply triple_exec; [done|]; destruct (f id db)|]. intros _. by apply triple_ret.
  - intros id. apply triple_pre. intros db' [Hid HF]. auto.
Qed.

Lemma triple_update {A B} db (f : SDB → SDB * A) (k : A → TX B) (Q : B → SDB → Prop) :
  triple (λ d, d = (f db).1) (k (f db).2) Q all_errors → triple (λ d, d = db) (statement (λ d, Ok (f d)) ≫= k) Q all_errors.
Proof.
  intros H. apply (triple_bind _ _ _ (λ a d, d = (f db).1 ∧ a = (f db).2)).
  - apply triple_statement; [done|]. by destruct (f db).
  - intros a. apply triple_pure. by intros ->.
Qed.

(** ** One confirmation *)

(** What an entitlement given for a purchase changes. *)
Record given (now : Time) (s : scope) (pid : string) (o : Owner) (snap : GrantSnapshot) (rev eid : string) (old : option string)
    (d d' : SDB) : Prop := {
  gv_granted : ∃ w, granted_window snap = Ok w ∧
    granted d' = <[eid := granted_ent now s pid o None snap (ServicePlanRevisionID snap) rev w old]> (supersede now old (granted d));
  gv_fresh : granted d !! eid = None;
  gv_old : ∀ x, old = Some x → ∃ e, granted d !! x = Some e ∧ en_scope e = s ∧ live e = true ∧ shares_owner o (en_owner e) = true;
  gv_one : num_nonnulls (columns o) = 1%nat;
  gv_cards : cards d' = burned o (cards d);
  gv_card : ∀ v, of_voucher o = Some v → ∃ c, cards d !! v = Some c ∧ vo_scope c = s ∧ vo_revision c = rev ∧ redeemable now c = true
}.

Definition owner_of (a : AuthContext) : Owner := mkOwner None (ac_account a) (ac_voucher a) (ac_principal a) (ac_anonymous a).

Definition status_of (method : string) : string :=
  if decide (method = AcquireFree) then "NOT_REQUIRED" else if decide (method = AcquireVoucher) then "SETTLED" else "REQUIRED".
Definition trigger_of (method : string) : string := if decide (method = AcquireVoucher) then "VOUCHER_REDEMPTION" else "GUEST_SELECTION".

(** The quote [q] of the context [a] was confirmed. *)
Record confirmed (c : Clock) (req : ConfirmRequest) (q : Quote) (a : AuthContext) (sid : string) (d : SDB) (r : PurchaseResult) (d' : SDB) : Prop := {
  cf_quote : quotes d !! cr_QuoteID req = Some q ∧ q_scope q = cr_scope req ∧ q_consumed q = None ∧ engine_now c < q_expires q;
  cf_context : contexts d !! q_context q = Some a ∧ ac_scope a = cr_scope req ∧ ac_device a = cr_DeviceID req ∧
    ac_network a = cr_GuestNetworkID req ∧ ac_consumed a = None ∧ engine_now c < ac_expires a;
  cf_quotes : quotes d' = <[cr_QuoteID req := consume_quote (engine_now c) q]> (quotes d);
  cf_contexts : contexts d' = <[q_context q := consume_context (engine_now c) a]> (contexts d);
  cf_new : bought d !! PurchaseID r = None ∧ ∀ k p, bought d !! k = Some p → pu_quote p ≠ Some (cr_QuoteID req);
  cf_bought : bought d' = <[PurchaseID r := mkPurchase (cr_scope req) (q_revision q) (Some (cr_QuoteID req)) (Some (q_context q)) None None
      (trigger_of (pres_Method r)) (q_price q) (q_currency q) (q_exponent q)
      (if AwaitingSettlement r then "AWAITING_SETTLEMENT" else "GRANTED")]> (bought d);
  cf_settled : settled d !! sid = None ∧
    settled d' = <[sid := mkSettlement (cr_scope req) (PurchaseID r) (pres_Method r) (status_of (pres_Method r))]> (settled d);
  cf_how :
    (pres_Method r = AcquireFree ∧ q_price q = 0 ∧ AwaitingSettlement r = false ∧ ac_voucher a = None ∧
     ∃ old, given (db_now c) (cr_scope req) (PurchaseID r) (owner_of a) (q_snapshot q) (q_revision q) (EntitlementID r) old d d')
    ∨ (pres_Method r = AcquireVoucher ∧ AwaitingSettlement r = false ∧ is_Some (ac_voucher a) ∧
       ∃ old, given (db_now c) (cr_scope req) (PurchaseID r) (mkOwner None None (ac_voucher a) None None) (q_snapshot q) (q_revision q)
                (EntitlementID r) old d d')
    ∨ (pres_Method r = AcquireCard ∧ 0 < q_price q ∧ AwaitingSettlement r = true ∧ ac_voucher a = None ∧ EntitlementID r = "" ∧
       granted d' = granted d ∧ trail d' = trail d ∧ cards d' = cards d)
}.

(** Entitlements name purchases that are there. *)
Definition ents_have_purchases (d : SDB) : Prop := ∀ k e, granted d !! k = Some e → is_Some (bought d !! en_purchase e).

Lemma insert_purchase_spec id p d d' : insert_purchase id p d = Ok d' →
  d' = set_bought d (<[id := p]> (bought d)) ∧ bought d !! id = None ∧ (∀ k x, bought d !! k = Some x → is_Some (pu_quote p) → pu_quote x ≠ pu_quote p) ∧
  trg_purchase_quote_pin_equal p d = Ok ().
Proof.
  unfold insert_purchase. intros H. oks H. injection H as <-. destruct r.
  repeat match goal with HB : bool_decide _ = true |- _ => apply bool_decide_eq_true in HB end. split_and!; try done.
  intros k x Hx HQ HE. apply negb_true_iff in C6. apply (no_row _ _ _ _ C6) in Hx. unfold same in Hx. apply bool_decide_eq_false in Hx. by rewrite HE in Hx; auto.
Qed.

Lemma insert_settlement_spec id n d d' : insert_settlement id n d = Ok d' →
  d' = set_settled d (<[id := n]> (settled d)) ∧ settled d !! id = None ∧ (∀ k x, settled d !! k = Some x → se_purchase x ≠ se_purchase n).
Proof.
  unfold insert_settlement. intros H. oks H. injection H as <-.
  repeat match goal with HB : bool_decide _ = true |- _ => apply bool_decide_eq_true in HB end. split_and!; try done.
  intros k x Hx. apply negb_true_iff in C1. by apply (no_row _ _ _ _ C1), bool_decide_eq_false in Hx.
Qed.

Lemma triple_grant {A} db (f : string → SDB → res sql_error (SDB * (string * bool * option string))) (k : string * string → TX A) (Q : A → SDB → Prop) :
  (∀ new db' eid already old, f new db = Ok (db', (eid, already, old)) → triple (λ d, d = db') (k (eid, default "" old)) Q all_errors) →
  triple (λ d, d = db) ((new ← gen_random_uuid; '(eid, _, old) ← statement (f new); mret (eid, default "" old)) ≫= k) Q all_errors.
Proof.
  intros H. apply (triple_bind _ _ _ (λ x d, ∃ new eid already old, x = (eid, default "" old) ∧ f new db = Ok (d, (eid, already, old)))).
  - apply (triple_bind _ _ _ (λ _ d, d = db)); [by apply triple_uuid|]. intros new.
    apply (triple_bind _ _ _ (λ x d, f new db = Ok (d, x))); [apply triple_statement; [done|]; by destruct (f new db) as [[? ?]|]|].
    intros [[eid already] old]. apply triple_ret. intros d HF. by exists new, eid, already, old.
  - intros x. apply triple_pre. intros db' (new & eid & already & old & -> & HF). eauto.
Qed.

(** A quote and its context are consumed; the rest of the tables is as it was. *)
Definition consumed (now : Time) (qid : string) (q : Quote) (a : AuthContext) (d : SDB) : SDB :=
  set_contexts (set_quotes d (<[qid := consume_quote now q]> (quotes d))) (<[q_context q := consume_context now a]> (contexts d)).

Section acquire.
Context (c : Clock) (req : ConfirmRequest) (q : Quote) (a : AuthContext) (qr : OfferQuoteRow) (d0 : SDB).
Context (HQ : quotes d0 !! cr_QuoteID req = Some q ∧ q_scope q = cr_scope req ∧ q_consumed q = None ∧ engine_now c < q_expires q)
  (HA : contexts d0 !! q_context q = Some a ∧ ac_scope a = cr_scope req ∧ ac_device a = cr_DeviceID req ∧
    ac_network a = cr_GuestNetworkID req ∧ ac_consumed a = None ∧ engine_now c < ac_expires a)
  (HR : quote_row (cr_QuoteID req) q = Some qr) (HF : ents_have_purchases d0).

(** The purchase and its settlement are in. *)
Definition recorded (pid sid trigger state method status : string) : SDB :=
  let d1 := consumed (engine_now c) (cr_QuoteID req) q a d0 in
  set_settled (set_bought d1 (<[pid := purchase_of (cr_scope req) qr trigger state]> (bought d0)))
    (<[sid := mkSettlement (cr_scope req) pid method status]> (settled d0)).

Lemma quote_row_pins : quote_ID qr = cr_QuoteID req ∧ quote_AuthContextID qr = q_context q ∧ quote_PackageRevisionID qr = q_revision q ∧
  quote_PriceMinor qr = q_price q ∧ quote_GrantSnapshot qr = q_snapshot q.
Proof.
  unfold quote_row in HR. destruct (q_currency q); [|done]. cbn in HR. destruct (_ =? _); [|done]. by injection HR as <-.
Qed.

Lemma record_purchase pid trigger state d' :
  insert_purchase pid (purchase_of (cr_scope req) qr trigger state) (consumed (engine_now c) (cr_QuoteID req) q a d0) = Ok d' →
  d' = set_bought (consumed (engine_now c) (cr_QuoteID req) q a d0) (<[pid := purchase_of (cr_scope req) qr trigger state]> (bought d0)) ∧
  bought d0 !! pid = None ∧ (∀ k p, bought d0 !! k = Some p → pu_quote p ≠ Some (cr_QuoteID req)) ∧
  ∀ tr st, purchase_of (cr_scope req) qr tr st =
    mkPurchase (cr_scope req) (q_revision q) (Some (cr_QuoteID req)) (Some (q_context q)) None None tr (q_price q) (q_currency q) (q_exponent q) st.
Proof.
  destruct quote_row_pins as (E1 & E2 & E3 & E4 & _). intros (-> & H1 & H2 & H3)%insert_purchase_spec. cbn in H1, H2. split_and!; try done.
  - intros k p Hp. rewrite <- E1. by apply (H2 _ _ Hp).
  - unfold trg_purchase_quote_pin_equal in H3. cbn in H3. rewrite E1, lookup_insert_eq in H3. apply check_Ok, bool_decide_eq_true in H3. cbn in H3.
    destruct H3 as (_ & _ & _ & _ & _ & _ & HC & HX & _). intros tr st. unfold purchase_of. by rewrite HC, HX, E1, E2, E3, E4.
Qed.

Lemma evidence_recorded pid sid trigger state method status :
  evidence (cr_scope req) (purchase_of (cr_scope req) qr trigger state) (recorded pid sid trigger state method status)
  = Some (consume_quote (engine_now c) q, consume_context (engine_now c) a).
Proof.
  destruct quote_row_pins as (E1 & E2 & _). destruct HQ as (H1 & H2 & _), HA as (H3 & H4 & _). unfold evidence. cbn.
  rewrite E1, E2. unfold in_scope. rewrite !lookup_insert_eq. cbn. by rewrite !decide_True.
Qed.

Lemma purchase_recorded pid sid trigger state method status :
  in_scope pu_scope (cr_scope req) (bought (recorded pid sid trigger state method status)) pid = Some (purchase_of (cr_scope req) qr trigger state).
Proof. apply in_scope_Some. cbn. by rewrite lookup_insert_eq. Qed.

(** What the grant for a recorded purchase leaves behind. *)
Lemma grant_recorded pid sid trigger method status o plan new d' eid already old :
  bought d0 !! pid = None →
  p4_entitlement_grant_kernel_v2 (db_now c) (cr_scope req) pid o None (q_snapshot q) plan (q_revision q) new (recorded pid sid trigger "PENDING" method status)
    = Ok (d', (eid, already, old)) → plan = ServicePlanRevisionID (q_snapshot q) →
  given (db_now c) (cr_scope req) pid o (q_snapshot q) (q_revision q) eid old d0 d' ∧
  quotes d' = <[cr_QuoteID req := consume_quote (engine_now c) q]> (quotes d0) ∧
  contexts d' = <[q_context q := consume_context (engine_now c) a]> (contexts d0) ∧
  settled d' = <[sid := mkSettlement (cr_scope req) pid method status]> (settled d0) ∧
  bought d' = <[pid := purchase_of (cr_scope req) qr trigger "GRANTED"]> (bought d0).
Proof.
  intros HN HK ->. apply kernel_spec in HK as [(_ & _ & e & He & HP)|(_ & -> & [])].
  - cbn in He. destruct (HF _ _ He) as [x Hx]. congruence.
  - cbn in *. destruct ge_bought0 as (p & Hp & Hb). rewrite lookup_insert_eq in Hp. injection Hp as <-. rewrite insert_insert_eq in Hb.
    assert (HI : (if decide (is_Some (of_stay o)) then None else None : option string) = None) by (by destruct (decide _)). rewrite HI in ge_granted0.
    split; [constructor; done|]. done.
Qed.

Lemma acquire_spec method :
  method = AcquireFree ∧ q_price q = 0 ∧ ac_voucher a = None ∨ method = AcquireVoucher ∧ is_Some (ac_voucher a)
    ∨ method = AcquireCard ∧ 0 < q_price q ∧ ac_voucher a = None →
  triple (λ d, d = consumed (engine_now c) (cr_QuoteID req) q a d0) (acquire c (cr_scope req) qr method)
    (λ r d, ∃ sid, confirmed c req q a sid d0 r d) all_errors.
Proof.
  destruct quote_row_pins as (E1 & E2 & E3 & E4 & E5). unfold acquire.
  intros [(-> & HP & HV)|[(-> & HV)|(-> & HP & HV)]]; repeat (first [rewrite decide_True by done|rewrite decide_False by done]).
  - apply triple_insert. intros pid d1 Hpid (-> & HN & HU & HE)%record_purchase. apply triple_insert. intros sid d2 _ (-> & HS & HSU)%insert_settlement_spec.
    change (set_settled _ _) with (recorded pid sid "GUEST_SELECTION" "PENDING" "NOT_REQUIRED" "NOT_REQUIRED").
    apply triple_grant. intros new d' eid already old HG. apply triple_ret. intros d ->. exists sid.
    unfold p4_grant_quoted_entitlement in HG. rewrite purchase_recorded, evidence_recorded in HG. oks HG. cbn [pu_revision purchase_of] in HG. rewrite E3 in HG.
    apply grant_recorded in HG as (HG & H1 & H2 & H3 & H4); [|done..]. rewrite HE in H4.
    constructor; cbn; try done. left. split_and!; try done. by exists old.
  - apply triple_insert. intros pid d1 Hpid (-> & HN & HU & HE)%record_purchase. apply triple_insert. intros sid d2 _ (-> & HS & HSU)%insert_settlement_spec.
    change (set_settled _ _) with (recorded pid sid "VOUCHER_REDEMPTION" "PENDING" AcquireVoucher "SETTLED").
    apply triple_grant. intros new d' eid already old HG. apply triple_ret. intros d ->. exists sid.
    unfold p4_grant_voucher_entitlement in HG. rewrite purchase_recorded, evidence_recorded in HG. oks HG. cbn [pu_revision purchase_of] in HG. rewrite E3 in HG.
    apply grant_recorded in HG as (HG & H1 & H2 & H3 & H4); [|done..]. rewrite HE in H4.
    constructor; cbn; try done. right. left. split_and!; try done. by exists old.
  - apply triple_insert. intros pid d1 Hpid (-> & HN & HU & HE)%record_purchase. apply triple_insert. intros sid d2 _ (-> & HS & HSU)%insert_settlement_spec.
    apply triple_ret. intros d ->. exists sid. rewrite HE. constructor; cbn; try done. right. right. done.
Qed.
End acquire.

Definition unchanged (d : SDB) (r : PurchaseResult) (d' : SDB) : Prop := d' = d ∧ PurchaseID r = "" ∧ EntitlementID r = "".

Lemma voucher_kind a : sj_Kind (subject_of a) = SubjectVoucher ↔ is_Some (ac_voucher a).
Proof. unfold subject_of. destruct (ac_voucher a), (ac_account a), (ac_principal a), (ac_anonymous a); cbn; split; intros H; try done; by destruct H. Qed.

(** The methods a quote that passed its checks can have. *)
Lemma revalidated q method site : revalidateQuote q method site = "" →
  method = AcquireFree ∧ quote_PriceMinor q = 0 ∨ method = AcquireVoucher ∨ method = AcquireCard ∧ 0 < quote_PriceMinor q.
Proof.
  unfold revalidateQuote, revalidateFreeQuote. cbv zeta.
  destruct (decide (method = AcquireFree)) as [->|]; [destruct (Z.eqb_spec (quote_PriceMinor q) 0); [auto|done]|].
  destruct (decide (method = AcquireVoucher)) as [->|]; [auto|]. destruct (decide (method = AcquireCard)) as [->|]; [|done].
  destruct (_ || _); [done|]. destruct (Z.leb_spec (quote_PriceMinor q) 0); [done|auto].
Qed.

Lemma quote_row_fields id q qr : quote_row id q = Some qr →
  quote_ID qr = id ∧ quote_AuthContextID qr = q_context q ∧ quote_PackageRevisionID qr = q_revision q ∧ quote_PriceMinor qr = q_price q ∧
  quote_GrantSnapshot qr = q_snapshot q ∧ quote_ExpiresAt qr = q_expires q ∧ quote_Consumed qr = bool_decide (is_Some (q_consumed q)).
Proof. unfold quote_row. destruct (q_currency q); [|done]. cbn. destruct (_ =? _); [|done]. by intros [= <-]. Qed.

Lemma not_is_Some {A} (o : option A) : bool_decide (is_Some o) = false → o = None.
Proof. intros H%bool_decide_eq_false. by apply eq_None_not_Some. Qed.

Lemma confirm_body_spec e site c req d0 : ents_have_purchases d0 →
  triple (λ d, d = d0) (confirm_body e site c req)
    (λ r d, unchanged d0 r d ∨ ∃ q a sid, confirmed c req q a sid d0 r d) all_errors.
Proof.
  intros HF. unfold confirm_body, LockOfferQuoteForUpdate. cbv zeta.
  apply (triple_bind _ _ _ (λ qr d, d = d0 ∧ ∃ q, quotes d0 !! cr_QuoteID req = Some q ∧ q_scope q = cr_scope req ∧ quote_row (cr_QuoteID req) q = Some qr)).
  { apply triple_read; [done|]. intros o ->. destruct (in_scope _ _ _ _) as [q|] eqn:EQ; [|apply (triple_bind _ _ _ (λ _ _, False)); [by apply triple_fail|intros ? ? ? ? []]].
    apply in_scope_Some in EQ as [EQ1 EQ2]. apply (triple_bind _ _ _ (λ x d, d = d0 ∧ x = q)); [by apply triple_ret|]. intros x. apply triple_pure. intros ->.
    destruct (quote_row _ q) as [qr|] eqn:ER; [|by apply triple_fail]. apply triple_ret. intros d ->. split; [done|]. by exists q. }
  intros qr. apply triple_pure. intros (q & HQ1 & HQ2 & HR). destruct (quote_row_fields _ _ _ HR) as (E1 & E2 & E3 & E4 & E5 & E6 & E7).
  apply triple_unless; [by left|]. intros (HC1 & HX1)%orb_false_iff. rewrite E7 in HC1. apply not_is_Some in HC1.
  rewrite E6 in HX1. apply negb_false_iff, Z.ltb_lt in HX1. set (method := if empty _ then _ else _).
  apply triple_unless; [by left|]. intros Hre%negb_false_iff. apply empty_true in Hre.
  apply triple_unless; [by left|]. intros _. unfold LoadPackageRevisionByID.
  apply (triple_bind _ _ _ (λ _ d, d = d0)).
  { apply triple_read; [done|]. intros o _. destruct o; [by apply triple_ret|by apply triple_fail]. }
  intros pkg. apply triple_unless; [by left|]. intros _. unfold loadAuthContext. apply triple_fetch. intros a Ha.
  rewrite E2 in Ha |- *. apply in_scope_Some in Ha as [HA1 HA2].
  apply triple_unless; [by left|]. intros Hm%negb_false_iff. apply bool_decide_eq_true in Hm as (_ & _ & HA3 & HA4). cbn in HA3, HA4.
  apply triple_unless; [by left|]. intros (HC2 & HX2)%orb_false_iff. cbn in HC2, HX2. apply not_is_Some in HC2. apply negb_false_iff, Z.ltb_lt in HX2.
  apply triple_unless; [by left|]. intros _.
  apply triple_unless; [by left|]. intros Hk%negb_false_iff. apply eqb_prop in Hk.
  apply triple_update. rewrite E1, HQ1, HC1. cbn [bool_decide]. rewrite (proj2 (Z.ltb_lt _ _) HX1), bool_decide_eq_true_2 by done. cbn.
  apply triple_update. cbn. rewrite HA1, HC2, (proj2 (Z.ltb_lt _ _) HX2), bool_decide_eq_true_2 by done. cbn.
  eapply triple_conseq; [apply (acquire_spec c req q a qr d0)|..]; try done.
  - apply revalidated in Hre. rewrite E4 in Hre. cbn in Hk. pose proof (voucher_kind a) as HV.
    destruct Hre as [[-> HP]|[->|[-> HP]]]; [left|right; left|right; right].
    + rewrite bool_decide_eq_false_2 in Hk by done. symmetry in Hk. apply bool_decide_eq_false in Hk. rewrite HV in Hk. split_and!; try done. by apply eq_None_not_Some.
    + rewrite bool_decide_eq_true_2 in Hk by done. symmetry in Hk. apply bool_decide_eq_true in Hk. split; [done|]. by apply HV.
    + rewrite bool_decide_eq_false_2 in Hk by done. symmetry in Hk. apply bool_decide_eq_false in Hk. rewrite HV in Hk. split_and!; try done. by apply eq_None_not_Some.
  - intros r d (sid & H). right. by exists q, a, sid.
Qed.
End tables.
