(* ===== verification/CommercePaid.v ===== *)
(** The grant of a room guest's paid purchase that nothing refuses: the grant kernel and the
    constraints of entitlements let it through (CommerceTables). *)
From S2P Require Import Prelude GoStrings GoText GoAny Pg StayTables StayProofs Checkout CommerceRules CommerceRulesProofs CommerceTables CommerceFlow CommerceProofs.

(** A purchase of a room guest that is waiting for its money: its quote and sign-in are there,
    the guest holds no live entitlement, the terms can be read and the plan and the package
    exist; [new] is the identifier of the entitlement to come. *)
Record grantable {P : PgTime} (s : scope) (pid new : string) (pu : Purchase) (q : Quote) (a : AuthContext) (stay : string) (d : SDB) : Prop := {
  gb_purchase : bought d !! pid = Some pu ∧ pu_scope pu = s ∧ pu_state pu ∈ ["AWAITING_SETTLEMENT"; "MANUAL_REVIEW"] ∧ pu_amount pu ≠ 0;
  gb_pinned : pu_stay pu = Some stay ∧ is_Some (pu_interface pu);
  gb_evidence : evidence s pu d = Some (q, a);
  gb_guest : is_Some (ac_stay a) ∧ ac_account a = None ∧ ac_voucher a = None ∧ ac_principal a = None ∧ ac_anonymous a = None;
  gb_window : ∃ w, granted_window (q_snapshot q) = Ok w;
  gb_end_mode : EndMode (q_snapshot q) = "" ∨ EndMode (q_snapshot q) ∈ end_modes;
  gb_catalogue : is_Some (in_scope fst s (plans d) (ServicePlanRevisionID (q_snapshot q))) ∧ is_Some (in_scope rv_scope s (revisions d) (pu_revision pu));
  gb_first : ∀ k e, granted d !! k = Some e → en_purchase e ≠ pid;
  gb_alone : ∀ k e, granted d !! k = Some e → live e = true → of_stay (en_owner e) ≠ Some stay;
  gb_fresh : granted d !! new = None ∧ trail_of d new = []
}.

Section runs.
Context {P : PgTime} (now : Time) (s : scope) (pid new : string) (pu : Purchase) (q : Quote) (a : AuthContext) (stay : string) (d : SDB).
Context (H : grantable s pid new pu q a stay d).

Let o : Owner := mkOwner (Some stay) None None None None.

Lemma nobody_else : live_of s o d = None.
Proof using H.
  destruct (live_of s o d) as [x|] eqn:E; [|done]. apply live_of_spec in E as (e & He & _ & HL & HO).
  destruct (gb_alone _ _ _ _ _ _ _ _ H _ _ He HL). unfold shares_owner, same in HO. cbn in HO.
  rewrite !orb_true_iff, !bool_decide_eq_true in HO. naive_solver.
Qed.

Lemma first_of_purchase : head (filter (λ ke : string * Ent, en_purchase ke.2 = pid) (map_to_list (granted d))) = None.
Proof using H.
  destruct (filter _ _) as [|[k e] l] eqn:E; [done|]. exfalso.
  assert (HI : (k, e) ∈ filter (λ ke : string * Ent, en_purchase ke.2 = pid) (map_to_list (granted d))) by (rewrite E; left).
  apply list_elem_of_filter in HI as [HP HI%elem_of_map_to_list]. by apply (gb_first _ _ _ _ _ _ _ _ H _ _ HI).
Qed.

(** Neither the row nor its first transition meets a constraint. *)
Lemma no_twin (e : Ent) (m : gmap string Ent) : en_owner e = o → (∀ k x, m !! k = Some x → k ≠ new → granted d !! k = Some x) →
  exists_row (λ k e', bool_decide (k ≠ new) && same_live e e') m = false.
Proof using H.
  intros Ho Hm. apply exists_row_false. intros k x Hk. destruct (decide (k = new)) as [->|Hne]; [rewrite bool_decide_eq_false_2; [done|auto]|].
  rewrite (bool_decide_eq_true_2 _ Hne). cbn [andb]. apply not_true_is_false. unfold same_live, same. rewrite Ho. unfold o. cbn [of_stay of_account of_voucher of_principal of_anonymous]. intros HX.
  rewrite !andb_true_iff, !orb_true_iff, !andb_true_iff, !bool_decide_eq_true in HX. destruct HX as [[_ HL] HX].
  pose proof (gb_alone _ _ _ _ _ _ _ _ H _ _ (Hm _ _ Hk Hne) HL). naive_solver.
Qed.

Lemma checks_pass (e : Ent) (d' : SDB) : en_owner e = o → en_status e = ACTIVE → en_reason e = None → en_end_mode e ∈ end_modes →
  (∀ z, en_quota e = Some z → 0 < z) → (∀ k x, granted d' !! k = Some x → k ≠ new → granted d !! k = Some x) → ent_checks new e d' = Ok ().
Proof using H.
  intros Ho Hs Hr Hm Hq Hg. unfold ent_checks. rewrite Ho. rewrite (bool_decide_eq_true_2 (num_nonnulls _ = _)) by done.
  rewrite (bool_decide_eq_true_2 (_ ↔ _)) by (rewrite Hs, Hr; split; [done|by intros []]).
  rewrite (bool_decide_eq_true_2 (_ ∈ _)) by done. rewrite (no_twin e (granted d') Ho Hg).
  destruct (en_quota e) as [z|]; [|done]. rewrite (proj2 (Z.ltb_lt _ _)); [done|auto].
Qed.

Lemma kernel_runs : ∃ d', p4_entitlement_grant_kernel_v2 now s pid o (pu_interface pu) (q_snapshot q) (ServicePlanRevisionID (q_snapshot q))
  (pu_revision pu) new d = Ok (d', (new, false, None)).
Proof using H.
  destruct H as [(B1 & B2 & B3 & B4) (S1 & [ifc S2]) _ _ [w HW] HE [C1 C2] HF _ [N1 N2]].
  unfold p4_entitlement_grant_kernel_v2. rewrite (bool_decide_eq_true_2 (num_nonnulls _ = _)) by done.
  rewrite (bool_decide_eq_false_2 (is_Some _ ∧ _)) by (rewrite S2; naive_solver). cbn [check negb mbind res_bind check_card of_voucher o].
  rewrite HW, first_of_purchase, nobody_else. cbn [mbind res_bind]. cbv zeta.
  set (e := mkEnt _ _ _ _ _ _ _ _ _ _ _ _ _ _ _ _).
  assert (HM : en_end_mode e ∈ end_modes).
  { cbn. destruct HE as [->|HE]; [cbn; set_solver|]. destruct (empty _); [set_solver|done]. }
  assert (HQ : ∀ z, en_quota e = Some z → 0 < z).
  { cbn. intros z. destruct (Z.ltb_spec 0 (FrozenDataQuotaBytes (q_snapshot q))); [by intros [= <-]|done]. }
  assert (HI : insert_ent now new e d = Ok (set_granted d (<[new := e]> (granted d)) (trail d))).
  { unfold insert_ent. cbn [en_supersedes e check mbind res_bind]. unfold staff_ended_benefit_guard. cbn [en_purchase e]. rewrite B1.
    rewrite (bool_decide_eq_true_2 (pu_amount pu ≠ 0)) by done. cbn [orb mbind res_bind].
    rewrite (checks_pass e d) by (done || eauto). rewrite (bool_decide_eq_true_2 (granted d !! new = None)) by done. cbn [check mbind res_bind].
    rewrite (proj2 (exists_row_false (λ _ e', bool_decide (en_purchase e' = en_purchase e)) (granted d))) by (intros k x Hk; apply bool_decide_eq_false_2; by apply (HF _ _ Hk)).
    rewrite (proj2 (exists_row_false (λ _ e', same None (en_supersedes e')) (granted d))) by (intros k x Hk; apply bool_decide_eq_false_2; by intros [[? ?] _]).
    cbn [negb check mbind res_bind]. rewrite !bool_decide_eq_true_2; try done.
    exists pu. unfold in_scope. cbn [en_purchase e en_scope]. rewrite B1. cbn. by rewrite decide_True. }
  rewrite HI. cbn [mbind res_bind].
  assert (HT : ∃ d3, move_ent now new ACTIVE "GRANTED" (set_granted d (<[new := e]> (granted d)) (trail d)) = Ok d3 ∧ bought d3 = bought d).
  { unfold move_ent. cbn [granted set_granted]. rewrite lookup_insert_eq. unfold trail_of in *. cbn [trail set_granted]. rewrite N2. cbn [head_live last live_rows check mbind res_bind].
    rewrite checks_pass; try done; [by eexists|]. intros k x. cbn. rewrite lookup_insert_Some. naive_solver. }
  destruct HT as (d3 & -> & HB). cbn [mbind res_bind]. unfold burn_card. cbn [of_voucher o mbind res_bind]. rewrite HB, B1.
  rewrite (bool_decide_eq_true_2 (pu_state pu ∈ _)) by set_solver. cbn. by eexists.
Qed.

(** The grant, and what it leaves behind. *)
Lemma paid_grant_runs sid se : settled d !! sid = Some se → se_scope se = s → se_purchase se = pid → se_method se = "PMS_POSTING" →
  se_status se = "SETTLED" → ∃ d', p4_grant_paid_entitlement now s sid new d = Ok (d', (new, false, None)) ∧
    grant_effect now s pid o (pu_interface pu) (q_snapshot q) (ServicePlanRevisionID (q_snapshot q)) (pu_revision pu) new None d d'.
Proof using H.
  intros E1 E2 E3 E4 E5. destruct kernel_runs as [d' HK]. exists d'. pose proof H as [(B1 & B2 & B3 & B4) (S1 & [ifc S2]) HE (A1 & A2 & A3 & A4 & A5) _ _ _ _ _ _].
  split; [|by apply kernel_spec in HK as [(? & _)|(_ & _ & ?)]]. unfold p4_grant_paid_entitlement.
  unfold in_scope. rewrite E1. cbn [mbind option_bind]. rewrite (decide_True (P := se_scope se = s)) by done. rewrite E4, E5, E3, B1.
  rewrite (bool_decide_eq_true_2 ("PMS_POSTING" ∈ _)) by set_solver. rewrite (bool_decide_eq_true_2 ("SETTLED" = "SETTLED")) by done. cbn [check mbind res_bind bool_decide option_bind]. rewrite (decide_True (P := pu_scope pu = s)) by done.
  rewrite first_of_purchase. rewrite (bool_decide_eq_true_2 (pu_state pu ∈ _)) by done. cbn [check mbind res_bind]. rewrite HE, S1, S2.
  rewrite (bool_decide_eq_false_2 (_ ∧ _)) by (intros [_ [?|?]]; discriminate). cbn [check negb mbind res_bind]. cbv zeta. rewrite (bool_decide_eq_true_2 (is_Some _)) by done.
  rewrite A2, A3, A4, A5. rewrite S2 in HK. exact HK.
Qed.
End runs.
