(* ===== verification/CommerceHistory.v ===== *)
(** The shop over time: quotes, confirmations, lists, revocations, grants of paid purchases
    and what the rest of the program does to the tables, in any order. *)
From S2P Require Import Prelude GoStrings GoText GoAny Pg StayTables StayProofs Checkout CommerceRules CommerceRulesProofs CommerceTables CommerceFlow CommerceProofs.

Section history.
Context {U : Unicode} {P : PgTime}.

(** ** What a call leaves behind *)

Lemma with_tx {A} (body : TX A) Q fate t d' r :
  triple (λ d, d = tx_db t) body Q (λ _, True) → WithTx body fate t = (d', r) →
  (d' = tx_db t ∧ ∃ e, r = Err e) ∨ ∃ a, Q a d' ∧ (r = Ok a ∨ r = Err (Sql ConnectionLost)).
Proof.
  intros HT. unfold WithTx. destruct (body t) as [t' [a|e]] eqn:EB; [|intros [= <- <-]; left; eauto].
  specialize (HT t t' (Ok a) eq_refl EB). cbn in HT. unfold commit.
  destruct (tx_aborted t'); [intros [= <- <-]; left; eauto|]. destruct fate; intros [= <- <-]; [right|left|right]; eauto.
Qed.

Lemma confirmation_is_whole_lemma e site c req fate t d' r :
  ents_have_purchases (tx_db t) → ConfirmPurchase e site c req fate t = (d', r) →
  (d' = tx_db t ∧ ∀ x, r = Ok x → PurchaseID x = "" ∧ EntitlementID x = "")
  ∨ ∃ q a sid x, confirmed c req q a sid (tx_db t) x d' ∧ (r = Ok x ∨ r = Err (Error "repository")).
Proof.
  intros HF. unfold ConfirmPurchase. destruct (negb _); [intros [= <- <-]; left; split; [done|]; by intros x [= <-]|].
  destruct (_ || _); [by intros [= <- <-]; left|]. destruct (WithTx _ _ _) as [d'' r''] eqn:EW.
  destruct (with_tx _ _ _ _ _ _ (confirm_body_spec e _ c req _ HF) EW) as [(-> & er & ->)|(x & HX & HR)].
  - intros H. left. destruct er as [se|w]; [by injection H as <- <-|]. 
    destruct (decide (w = "confirm refused")) as [->|Hw]; [injection H as <- <-; split; [done|]; by intros x [= <-]|].
    assert (H' : (tx_db t, Err (Error "repository")) = (d', r)) by (rewrite <- H; repeat (case_match; try done)). by injection H' as <- <-.
  - intros H. destruct HX as [(-> & HP & HE)|(q & a & sid & HC)].
    + left. destruct HR as [->| ->]; injection H as <- <-; [|done]. split; [done|]. by intros y [= <-].
    + right. exists q, a, sid, x. destruct HR as [->| ->]; injection H as <- <-; auto.
Qed.

(** C11. A confirmation does nothing or everything: unless it buys, no row changes and
    the result names no purchase; when it buys, the quote and its sign-in were both unused
    and unexpired and belong to the device and network that asked, both are used up, one
    purchase at the quoted price and one settlement are recorded, and access is given at
    once only for a quote at price zero or for a card printed for that very package, which
    is spent; a card payment gives none. *)
Theorem confirmation_is_whole e site c req fate t d' r :
  ents_have_purchases (tx_db t) → ConfirmPurchase e site c req fate t = (d', r) →
  (d' = tx_db t ∧ ∀ x, r = Ok x → PurchaseID x = "" ∧ EntitlementID x = "")
  ∨ ∃ q a sid x, confirmed c req q a sid (tx_db t) x d' ∧ (r = Ok x ∨ r = Err (Error "repository")).
Proof. apply confirmation_is_whole_lemma. Qed.

(** ** Quotes *)

(** The revision a client may be quoted: a card's own, or the current one of an active package
    within its sale window. *)
Definition offered (now : Time) (s : scope) (a : AuthContext) (packageID rid : string) (d : SDB) : Prop :=
  match ac_voucher a with
  | Some v => ∃ card, cards d !! v = Some card ∧ vo_scope card = s ∧ vo_revision card = rid
  | None => ∃ pk rv, packages d !! packageID = Some pk ∧ pk_scope pk = s ∧ pk_active pk = true ∧ pk_current pk = Some rid ∧
      revisions d !! rid = Some rv ∧ (∀ t, rv_from rv = Some t → t ≤ now) ∧ (∀ t, rv_until rv = Some t → now < t)
  end.

Record quoted (e : Engine) (site : SiteMethods) (c : Clock) (req : QuoteRequest) (a : AuthContext) (rv : Revision) (id : string) (q : Quote) (d d' : SDB) : Prop := {
  qt_context : contexts d !! qr_AuthContextID req = Some a ∧ ac_scope a = qr_scope req ∧ ac_device a = qr_DeviceID req ∧
    ac_network a = qr_GuestNetworkID req ∧ ac_consumed a = None ∧ engine_now c < ac_expires a ∧ default "" (ac_stay a) = "";
  qt_offered : offered (engine_now c) (qr_scope req) a (qr_PackageID req) (q_revision q) d;
  qt_revision : revisions d !! q_revision q = Some rv ∧ rv_allocation rv ≠ Some AllocPerStayNight ∧
    q_currency q = ValidateCurrency (default "" (rv_currency rv)) (default 0 (rv_exponent rv));
  qt_eligible : ∃ subj, Kind subj = sj_Kind (subject_of a) ∧ AuthMethod subj = ac_method a ∧ Now subj = engine_now c ∧
    ClientGroupID subj = default "" (ac_group a) ∧ Stay subj = None ∧
    EvaluatePackageEligible (default [] (rules_of d !! q_revision q)) subj = Ok ();
  qt_method :
    (AcquisitionMethod (q_snapshot q) = AcquireVoucher ∧ is_Some (ac_voucher a))
    ∨ (AcquisitionMethod (q_snapshot q) = AcquireFree ∧ rv_price rv = 0 ∧ ac_voucher a = None)
    ∨ (AcquisitionMethod (q_snapshot q) = AcquireCard ∧ rv_price rv ≠ 0 ∧ ac_voucher a = None ∧ PaidAccess site = true ∧ Card site = true);
  qt_snapshot : ∃ tier plan snap endMode window, in_scope fst (qr_scope req) (plans d) (rv_plan rv) = Some (qr_scope req, plan) ∧
    tier ∈ default [] (tiers_of d !! q_revision q) ∧ BuildGrantSnapshot tier plan (q_revision q) = Ok snap ∧
    TimeModeAcquirable (TimeAccountingMode snap) (aggregateOnlineTime e) = "" ∧
    ResolveEndPolicy (default [] (rv_duration rv)) (engine_now c) = Ok (endMode, window) ∧
    q_snapshot q = with_end snap endMode window (Some (default [] (rv_duration rv))) (AcquisitionMethod (q_snapshot q));
  qt_row : q = mkQuote (qr_scope req) (qr_AuthContextID req) (q_revision q) None None (rv_price rv) (q_currency q) (Some (default 0 (rv_exponent rv)))
      None None None (q_snapshot q) (time_Add (engine_now c) (ttl e)) None;
  qt_new : quotes d !! id = None ∧ d' = set_quotes d (<[id := q]> (quotes d))
}.

Lemma quoted_package_spec c req d0 a :
  triple (λ d, d = d0) (quoted_package c req (context_row (qr_AuthContextID req) a))
    (λ x d, d = d0 ∧ match x with
       | inl _ => True
       | inr pkg => ∃ rv pk, revisions d0 !! pkg_ID pkg = Some rv ∧ pkg = revision_row (pkg_ID pkg) rv pk ∧
           offered (engine_now c) (qr_scope req) a (qr_PackageID req) (pkg_ID pkg) d0 end) (λ _, True).
Proof.
  unfold quoted_package. cbv zeta. cbn [Subject context_row]. destruct (decide _) as [HV%voucher_kind|HV].
  - destruct HV as [v Hv]. unfold VoucherPinnedPackageRevision. apply triple_read; [done|]. intros pinned ->.
    assert (HVI : VoucherID (subject_of a) = v) by (unfold subject_of; by rewrite Hv). rewrite HVI.
    destruct (in_scope vo_scope _ (cards d0) v) as [card|] eqn:EC; [|by apply triple_ret]. apply in_scope_Some in EC as [EC1 EC2]. cbn.
    destruct (empty (vo_revision card)); [by apply triple_ret|]. unfold LoadPackageRevisionByID.
    apply (triple_bind _ _ _ (λ pkg d, d = d0 ∧ ∃ rv pk, revisions d0 !! vo_revision card = Some rv ∧ pkg = revision_row (vo_revision card) rv pk)).
    { apply triple_read; [done|]. intros o ->. destruct (in_scope rv_scope _ _ _) as [rv|] eqn:ER; [|by apply triple_fail]. apply in_scope_Some in ER as [ER1 _]. cbn.
      destruct (in_scope pk_scope _ _ _) as [pk|]; [|by apply triple_fail]. cbn. apply triple_ret. intros d ->. split; [done|]. by exists rv, pk. }
    intros pkg. apply triple_pure. intros (rv & pk & HR & ->). destruct (_ && _); [by apply triple_ret|]. apply triple_ret. intros d ->. split; [done|].
    exists rv, pk. cbn. split_and!; try done. unfold offered. rewrite Hv. by exists card.
  - assert (Hv : ac_voucher a = None) by (apply eq_None_not_Some; intros H; by apply HV, voucher_kind).
    destruct (empty _); [by apply triple_fail|]. unfold ResolveActivePackageRevision.
    apply (triple_bind _ _ _ (λ pkg d, d = d0 ∧ ∃ rid rv pk, packages d0 !! qr_PackageID req = Some pk ∧ pk_scope pk = qr_scope req ∧
      pk_current pk = Some rid ∧ revisions d0 !! rid = Some rv ∧ pkg = revision_row rid rv pk)).
    { apply triple_read; [done|]. intros o ->. destruct (in_scope pk_scope _ _ _) as [pk|] eqn:EP; [|by apply triple_fail]. apply in_scope_Some in EP as [EP1 EP2]. cbn.
      unfold current_row. destruct (pk_current pk) as [rid|] eqn:EC; [|by apply triple_fail]. cbn. destruct (revisions d0 !! rid) as [rv|] eqn:ER; [|by apply triple_fail]. cbn.
      apply triple_ret. intros d ->. split; [done|]. by exists rid, rv, pk. }
    intros pkg. apply triple_pure. intros (rid & rv & pk & H1 & H2 & H3 & H4 & ->). cbn. unfold Before.
    destruct (pk_active pk) eqn:EA; cbn; [|by apply triple_ret]. destruct (negb _); [by apply triple_ret|].
    destruct (rv_from rv) as [tf|] eqn:EF; [destruct (Z.ltb_spec (engine_now c) tf); [by apply triple_ret|]|];
      (destruct (rv_until rv) as [tu|] eqn:EU; [destruct (Z.ltb_spec (engine_now c) tu); cbn; [|by apply triple_ret]|]);
      (apply triple_ret; intros d ->; split; [done|]; exists rv, pk; cbn; split_and!; try done; unfold offered; rewrite Hv;
       exists pk, rv; split_and!; try done; naive_solver).
Qed.

(** A transaction in which no statement is lost. *)
Definition healthy (t : tx SDB) : Prop := tx_aborted t = false ∧ tx_faults t = [].

(** A reader leaves the tables as they are, and a healthy transaction altogether. *)
Definition reader {A} (m : TX A) : Prop := ∀ t, tx_db (m t).1 = tx_db t ∧ (healthy t → (m t).1 = t).

Lemma healthy_same t : healthy t → set_tx t (tx_db t) false = t.
Proof. destruct t. unfold healthy, set_tx. cbn. by intros [-> ->]. Qed.

Lemma healthy_query {A} (f : SDB → A) t : healthy t → query f t = (t, Ok (f (tx_db t))).
Proof. intros HT. unfold query, statement, next_statement_fails. assert (HT' := HT). destruct HT as [-> ->]. by rewrite healthy_same. Qed.

Lemma reader_query {A} (f : SDB → A) : reader (query f).
Proof.
  intros t. split; [|intros HT; by rewrite healthy_query]. unfold query, statement. destruct (tx_aborted t); [done|]. by destruct (next_statement_fails t).
Qed.
Lemma reader_ret {A} (a : A) : reader (mret a).
Proof. by intros t. Qed.
Lemma reader_fail {A} e : reader (fail e : TX A).
Proof. by intros t. Qed.
Lemma reader_bind {A B} (m : TX A) (k : A → TX B) : reader m → (∀ a, reader (k a)) → reader (m ≫= k).
Proof.
  intros H1 H2 t. specialize (H1 t). unfold mbind, ST_bind. destruct (m t) as [t1 [a|e]]; [|done]. cbn in *. destruct H1 as [E1 F1], (H2 a t1) as [E2 F2].
  split; [congruence|]. intros HT. specialize (F1 HT) as ->. auto.
Qed.
Lemma reader_triple {A} (m : TX A) d0 : reader m → triple (λ d, d = d0) m (λ _ d, d = d0) (λ _, True).
Proof. intros H t t' r Ht E. destruct r; [|done]. destruct (H t) as [H1 _]. rewrite E in H1. cbn in H1. congruence. Qed.
Lemma reader_unless {A} b (r : A) k : reader k → reader (unless b r k).
Proof. intros H. destruct b; [apply reader_ret|done]. Qed.
Lemma reader_or_fail {A} e (o : option A) : reader (or_fail e o).
Proof. destruct o; [apply reader_ret|apply reader_fail]. Qed.

Lemma reader_prior c s ac pkg rules : reader (prior_purchase c s ac pkg rules).
Proof. unfold prior_purchase, HasPriorPurchase. destruct (Present _); [|apply reader_ret]. destruct (subjectCols _) as [[? ?] ?]. apply reader_query. Qed.
Lemma reader_ended c s ac pkg : reader (ended_free c s ac pkg).
Proof. unfold ended_free, EndedByStaff. destruct (_ =? _); [|apply reader_ret]. destruct (subjectCols _) as [[? ?] ?]. apply reader_query. Qed.
Lemma reader_ancestors s n : reader (GuestNetworkAncestors s n).
Proof. unfold GuestNetworkAncestors. destruct (blank n); [apply reader_ret|apply reader_query]. Qed.

Lemma triple_reader {A B} d0 (m : TX A) (k : A → TX B) Q :
  reader m → (∀ a, triple (λ d, d = d0) (k a) Q (λ _, True)) → triple (λ d, d = d0) (m ≫= k) Q (λ _, True).
Proof. intros H1 H2. apply (triple_bind _ _ _ (λ _ d, d = d0)); [by apply reader_triple|done]. Qed.

(** The method a quote gets. *)
Lemma chosen_method pkg a id site m : m ≠ "" → m ∈ applicableMethods pkg (context_row id a) site →
  DataAllocationMode pkg ≠ AllocPerStayNight ∧
  ((m = AcquireVoucher ∧ is_Some (ac_voucher a))
   ∨ (m = AcquireFree ∧ PriceMinor pkg = 0 ∧ ac_voucher a = None)
   ∨ (m = AcquireCard ∧ PriceMinor pkg ≠ 0 ∧ ac_voucher a = None ∧ PaidAccess site = true ∧ Card site = true)).
Proof.
  intros _. unfold applicableMethods. destruct (decide _) as [|HA]; [by intros ?%elem_of_nil|]. intros Hm. split; [done|]. revert Hm. cbn.
  pose proof (voucher_kind a) as HV. destruct (decide _) as [HK|HK]; [intros ->%list_elem_of_singleton; left; split; [done|by apply HV]|].
  assert (ac_voucher a = None) by (apply eq_None_not_Some; by rewrite <- HV). right. revert Hm.
  destruct (ValidateCurrency _ _); [|by intros ?%elem_of_nil]. destruct (Z.eqb_spec (PriceMinor pkg) 0).
  - destruct (hasMethod _ _); [intros ->%list_elem_of_singleton; auto|by intros ?%elem_of_nil].
  - destruct (PaidAccess site); cbn; [|by intros ?%elem_of_nil]. destruct (Card site); cbn; [|by intros ?%elem_of_nil].
    destruct (_ && _); [intros ->%list_elem_of_singleton; right; auto|by intros ?%elem_of_nil].
Qed.

Lemma first_match_elem tiers s t : FirstMatchTier tiers s = Some t → t ∈ tiers ∧ tier_matches s t = true.
Proof.
  unfold FirstMatchTier. destruct (filter _ _) as [|x l] eqn:E; [done|]. intros [= <-].
  assert (HI : x ∈ filter (λ t, tier_matches s t = true) (merge_sort tier_le tiers)) by (rewrite E; left).
  apply list_elem_of_filter in HI as [? HI]. by rewrite merge_sort_Permutation in HI.
Qed.

Lemma quote_body_spec e site c req d0 :
  triple (λ d, d = d0) (quote_body e site c req)
    (λ r d, (d = d0 ∧ QuoteID r = "") ∨ ∃ a rv q, QuoteID r ≠ "" ∧ quoted e site c req a rv (QuoteID r) q d0 d) (λ _, True).
Proof.
  unfold quote_body, loadAuthContext. cbv zeta. apply triple_fetch. intros a [HA1 HA2]%in_scope_Some.
  apply triple_unless; [by left|]. intros Hm%negb_false_iff. apply bool_decide_eq_true in Hm as (_ & _ & HA3 & HA4). cbn in HA3, HA4.
  apply triple_unless; [by left|]. intros HS%negb_false_iff. apply empty_true in HS. cbn in HS.
  apply triple_unless; [by left|]. intros [HC HX]%orb_false_iff. cbn in HC, HX. apply not_is_Some in HC. apply negb_false_iff, Z.ltb_lt in HX.
  eapply triple_bind; [apply quoted_package_spec|]. intros [why|pkg]; apply triple_pure; [by intros _; apply triple_ret; left|].
  intros (rv & pk & HR & HP & HO). set (method := match applicableMethods _ _ _ with [] => _ | _ => _ end).
  apply triple_unless; [by left|]. intros [Hm1 Hm2%negb_false_iff]%orb_false_iff. apply bool_decide_eq_true in Hm2. apply empty_false in Hm1.
  apply chosen_method in Hm2 as [HA Hm]; [|done]. destruct (ValidateCurrency _ _) as [cur|] eqn:EV; [|by apply triple_ret; left].
  unfold LoadPlanRevision. apply triple_fetch. intros [s' plan] HPL. cbn [snd].
  apply triple_reader; [apply reader_ancestors|]. intros anc. unfold LoadEligibilityRules. apply triple_read; [done|]. intros rules Hrules.
  apply triple_reader; [apply reader_prior|]. intros prior.
  destruct (EvaluatePackageEligible rules _) as [[]|why] eqn:EE; [|by apply triple_ret; left].
  apply triple_reader; [apply reader_ended|]. intros ended. apply triple_unless; [by left|]. intros _.
  unfold LoadGrantTiers. apply triple_read; [done|]. intros tiers Htiers.
  destruct (FirstMatchTier tiers _) as [tier|] eqn:EF; [|by apply triple_ret; left].
  destruct (BuildGrantSnapshot tier plan (pkg_ID pkg)) as [snap|] eqn:EB; [|by apply triple_ret; left].
  apply triple_unless; [by left|]. intros HT%negb_false_iff. apply empty_true in HT.
  destruct (ResolveEndPolicy _ _) as [[endMode window]|] eqn:ER; [|by apply triple_ret; left].
  apply triple_insert. intros id d1 Hid HI. apply triple_ret. intros d ->. right. unfold insert_quote in HI. oks HI. injection HI as <-.
  apply bool_decide_eq_true in C. match goal with |- context [<[id := ?x]> (quotes d0)] => exists a, rv, x end. split; [done|].
  assert (F1 := f_equal PlanRevisionID HP). assert (F2 := f_equal PriceMinor HP). assert (F3 := f_equal Currency HP).
  assert (F4 := f_equal CurrencyExponent HP). assert (F5 := f_equal pkg_DurationPolicy HP). assert (F6 := f_equal DataAllocationMode HP).
  cbn in F1, F2, F3, F4, F5, F6. rewrite F1 in HPL. rewrite F2 in Hm. rewrite F3, F4 in EV. rewrite F5 in ER. rewrite F6 in HA.
  rewrite F2, F4, F5. constructor; cbn.
  - done.
  - done.
  - split; [done|]. split; [|by rewrite EV]. intros Heq. by rewrite Heq in HA.
  - exists (subject_for c (context_row (qr_AuthContextID req) a) anc prior). rewrite Hrules in EE. by rewrite EE.
  - done.
  - exists tier, plan, snap, endMode, window. apply in_scope_Some in HPL as HPL'. destruct HPL' as [_ HPL']. cbn in HPL'. subst s'. split_and!; try done.
    apply first_match_elem in EF as [EF _]. rewrite Htiers, merge_sort_Permutation in EF. done.
  - done.
  - done.
Qed.

(** Errors that only leave a row out. *)
Lemma reader_catch {A B} (m : TX A) (k : tx SDB → error → tx SDB * res error B) (g : A → B) :
  reader m → (∀ t e, (k t e).1 = t) → reader (λ t, match m t with (t', Ok a) => (t', Ok (g a)) | (t', Err e) => k t' e end).
Proof. intros HM HK t. specialize (HM t). destruct (m t) as [t1 [a|e]]; [done|]. by rewrite HK. Qed.

Create HintDb readers.
Hint Resolve reader_query reader_ret reader_fail reader_unless reader_or_fail reader_prior reader_ended reader_ancestors : readers.

Lemma reader_fetch {A B} (f : SDB → option A) e (g : A → B) : reader (o ← query f; or_fail e (g <$> o)).
Proof. apply reader_bind; auto with readers. Qed.

Lemma reader_plan s id : reader (LoadPlanIfAny s id).
Proof.
  unfold LoadPlanIfAny, LoadPlanRevision. apply (reader_catch _ (λ t e, if isNotFound e then (t, Ok None) else (t, Err e)) Some).
  - apply reader_fetch.
  - intros t e. by destruct (isNotFound e).
Qed.

Lemma reader_voucher_packages s v : reader (voucher_packages s v).
Proof.
  unfold voucher_packages, VoucherPinnedPackageRevision. apply reader_bind; [auto with readers|]. intros pinned. destruct (empty pinned); [auto with readers|].
  apply (reader_catch _ (λ t e, if isNotFound e then (t, Ok []) else (t, Err e)) (λ p, [p])).
  - unfold LoadPackageRevisionByID. apply reader_bind; auto with readers.
  - intros t e. by destruct (isNotFound e).
Qed.

Lemma reader_eval c s ac pkg : reader (evalPackageForSubject c s ac pkg).
Proof.
  unfold evalPackageForSubject, voucherMayHavePackage, VoucherPinnedPackageRevision, LoadEligibilityRules, LoadGrantTiers. cbv zeta.
  apply reader_unless, reader_bind; [destruct (_ || _); [auto with readers|apply reader_bind; auto with readers]|]. intros ok.
  do 3 apply reader_unless. destruct (ValidateCurrency _ _); [|auto with readers]. apply reader_bind; [apply reader_plan|]. intros [plan|]; [|auto with readers].
  do 3 (apply reader_bind; [auto with readers|intros ?]). destruct (EvaluatePackageEligible _ _); [|auto with readers].
  apply reader_bind; [auto with readers|]. intros ended. apply reader_unless, reader_bind; [auto with readers|]. intros tiers.
  destruct (FirstMatchTier _ _); [|auto with readers]. destruct (BuildGrantSnapshot _ _ _); [|auto with readers]. destruct (ResolveEndPolicy _ _) as [[? ?]|]; auto with readers.
Qed.

Lemma reader_items c s ac site pkgs : reader (list_items c s ac site pkgs).
Proof.
  induction pkgs as [|pkg pkgs IH]; cbn [list_items]; [auto with readers|]. apply reader_bind; [apply reader_eval|]. intros r.
  apply reader_bind; [apply IH|]. intros [items used]. destruct r; auto with readers.
Qed.

Lemma reader_list site c req : reader (list_body site c req).
Proof.
  unfold list_body, loadAuthContext, ListActivePackageRevisions. cbv zeta. apply reader_bind; [apply reader_fetch|]. intros ac. do 3 apply reader_unless.
  apply reader_bind; [destruct (decide _); [apply reader_voucher_packages|auto with readers]|]. intros pkgs.
  apply reader_bind; [apply reader_items|]. intros [items used]. auto with readers.
Qed.

Lemma list_changes_nothing e site c req fate t d' r : ListEligiblePackages e site c req fate t = (d', r) → d' = tx_db t.
Proof.
  unfold ListEligiblePackages. destruct (negb _); [by intros [= <- _]|]. destruct (_ || _); [by intros [= <- _]|].
  destruct (WithTx _ _ _) as [d'' r''] eqn:EW. destruct (with_tx _ _ _ _ _ _ (reader_triple _ _ (reader_list _ c req)) EW) as [(-> & er & ->)|(x & -> & [->| ->])]; by intros [= <- _].
Qed.

(** ** Histories *)

Definition same_terms (x y : Ent) : Prop :=
  en_scope x = en_scope y ∧ en_owner x = en_owner y ∧ en_purchase x = en_purchase y ∧ en_snapshot x = en_snapshot y ∧ en_revision x = en_revision y.

(** Bought at the shop: from a quote, and not by a room guest, whose purchases carry the stay. *)
Definition at_shop (p : Purchase) : Prop := is_Some (pu_quote p) ∧ pu_stay p = None.

(** A settlement of the purchase, by card payment or room charge, reached SETTLED; a refund may have followed. *)
Definition paid_states : list string := ["SETTLED"; "PARTIALLY_REVERSED"; "REVERSED"].
Definition was_paid (pid : string) (d : SDB) : Prop :=
  ∃ sid n, settled d !! sid = Some n ∧ se_purchase n = pid ∧ se_method n ∈ ["ONLINE_PAYMENT"; "PMS_POSTING"] ∧ se_status n ∈ paid_states.

(** What the rest of the program does to these tables.  Sign-ins, quotes, cards and the
    catalogue come and go, payments settle, entitlements change their status; purchases and
    entitlements are added by room guests (staygrant, phase3_paid), by the checkout, a
    transfer, a room move and a staff reset, which gives the owner of an old entitlement,
    a card too, a new one: their purchases have no quote or carry a stay.  What a purchase of
    the shop pins is kept, and a spent card stays spent. *)
Record outside (d d' : SDB) : Prop := {
  out_quotes : ∀ k p qid q, bought d !! k = Some p → at_shop p → pu_quote p = Some qid → quotes d !! qid = Some q → quotes d' !! qid = Some q;
  out_contexts : ∀ k p cid a, bought d !! k = Some p → at_shop p → pu_context p = Some cid → contexts d !! cid = Some a → contexts d' !! cid = Some a;
  out_bought : ∀ k p, bought d !! k = Some p → ∃ st, bought d' !! k = Some (with_purchase_state st p);
  out_bought_new : ∀ k p, bought d' !! k = Some p → bought d !! k = None → ¬ at_shop p;
  out_settled : ∀ sid n, settled d !! sid = Some n → ∃ n', settled d' !! sid = Some n' ∧ se_purchase n' = se_purchase n ∧
    se_method n' = se_method n ∧ (se_status n ∈ paid_states → se_status n' ∈ paid_states);
  out_granted : ∀ k e', granted d' !! k = Some e' →
    (∃ e, granted d !! k = Some e ∧ same_terms e e') ∨ granted d !! k = None ∧ ∃ p, bought d' !! en_purchase e' = Some p ∧ ¬ at_shop p;
  out_cards : ∀ v c, cards d !! v = Some c → vo_state c = "REDEEMED" → ∃ c', cards d' !! v = Some c' ∧ vo_state c' = "REDEEMED" ∧ vo_revision c' = vo_revision c
}.

Inductive shop : SDB → Prop :=
| shop_opens d : bought d = ∅ → granted d = ∅ → shop d
| shop_quote t e site c req fate d' r : shop (tx_db t) → CreateQuote e site c req fate t = (d', r) → shop d'
| shop_confirm t e site c req fate d' r : shop (tx_db t) → ConfirmPurchase e site c req fate t = (d', r) → shop d'
| shop_list t e site c req fate d' r : shop (tx_db t) → ListEligiblePackages e site c req fate t = (d', r) → shop d'
| shop_revoke d s v op reason d' : shop d → voucher_revoke s v op reason d = Ok d' → shop d'
| shop_paid d now s sid new d' r : shop d → p4_grant_paid_entitlement now s sid new d = Ok (d', r) → shop d'
| shop_outside d d' : shop d → outside d d' → shop d'.

Record shop_ok (d : SDB) : Prop := {
  ok_fk : ents_have_purchases d;
  ok_quote : ∀ k p qid, bought d !! k = Some p → at_shop p → pu_quote p = Some qid →
    ∃ q a, quotes d !! qid = Some q ∧ is_Some (q_consumed q) ∧ pu_context p = Some (q_context q) ∧ pu_revision p = q_revision q ∧
      pu_amount p = q_price q ∧ contexts d !! q_context q = Some a ∧ is_Some (ac_consumed a);
  ok_context : ∀ k1 k2 p1 p2, bought d !! k1 = Some p1 → bought d !! k2 = Some p2 → at_shop p1 → at_shop p2 →
    pu_context p1 = pu_context p2 → k1 = k2;
  ok_once : ∀ k1 k2 e1 e2 p, granted d !! k1 = Some e1 → granted d !! k2 = Some e2 → en_purchase e1 = en_purchase e2 →
    bought d !! en_purchase e1 = Some p → at_shop p → k1 = k2;
  ok_terms : ∀ k e p qid, granted d !! k = Some e → bought d !! en_purchase e = Some p → at_shop p → pu_quote p = Some qid →
    ∃ q, quotes d !! qid = Some q ∧ en_snapshot e = q_snapshot q ∧ en_revision e = q_revision q ∧
      (q_price q = 0 ∨ is_Some (of_voucher (en_owner e)) ∨ was_paid (en_purchase e) d);
  ok_card : ∀ k e p v, granted d !! k = Some e → bought d !! en_purchase e = Some p → at_shop p → of_voucher (en_owner e) = Some v →
    ∃ c, cards d !! v = Some c ∧ vo_state c = "REDEEMED" ∧ vo_revision c = en_revision e;
  ok_card_once : ∀ k1 k2 e1 e2 p1 p2 v, granted d !! k1 = Some e1 → granted d !! k2 = Some e2 →
    bought d !! en_purchase e1 = Some p1 → bought d !! en_purchase e2 = Some p2 → at_shop p1 → at_shop p2 →
    of_voucher (en_owner e1) = Some v → of_voucher (en_owner e2) = Some v → k1 = k2
}.

(** A new entitlement [e] of the shop's purchase [p]. *)
Record new_grant (d d' : SDB) (k : string) (e : Ent) (p : Purchase) : Prop := {
  ng_only : ∀ k' e', granted d' !! k' = Some e' → granted d !! k' = None → k' = k;
  ng_first : ∀ k' e', granted d !! k' = Some e' → en_purchase e' ≠ en_purchase e;
  ng_terms : ∀ qid, pu_quote p = Some qid → ∃ q, quotes d' !! qid = Some q ∧ en_snapshot e = q_snapshot q ∧ en_revision e = q_revision q ∧
    (q_price q = 0 ∨ is_Some (of_voucher (en_owner e)) ∨ was_paid (en_purchase e) d');
  ng_card : ∀ v, of_voucher (en_owner e) = Some v → (∃ c, cards d' !! v = Some c ∧ vo_state c = "REDEEMED" ∧ vo_revision c = en_revision e) ∧
    ∀ c, cards d !! v = Some c → vo_state c ≠ "REDEEMED"
}.

(** What any step does, as far as the invariant needs it. *)
Record moves (d d' : SDB) : Prop := {
  mv_quotes : ∀ k p qid q, bought d !! k = Some p → at_shop p → pu_quote p = Some qid → quotes d !! qid = Some q → quotes d' !! qid = Some q;
  mv_contexts : ∀ k p cid a, bought d !! k = Some p → at_shop p → pu_context p = Some cid → contexts d !! cid = Some a →
    is_Some (ac_consumed a) → contexts d' !! cid = Some a;
  mv_bought : ∀ k p, bought d !! k = Some p → ∃ st, bought d' !! k = Some (with_purchase_state st p);
  mv_new : ∀ k p, bought d' !! k = Some p → bought d !! k = None → at_shop p →
    (∀ qid, pu_quote p = Some qid → ∃ q a, quotes d' !! qid = Some q ∧ is_Some (q_consumed q) ∧ pu_context p = Some (q_context q) ∧
       pu_revision p = q_revision q ∧ pu_amount p = q_price q ∧ contexts d' !! q_context q = Some a ∧ is_Some (ac_consumed a)) ∧
    ∀ k' p', bought d' !! k' = Some p' → at_shop p' → pu_context p' = pu_context p → k' = k;
  mv_settled : ∀ sid n, settled d !! sid = Some n → ∃ n', settled d' !! sid = Some n' ∧ se_purchase n' = se_purchase n ∧
    se_method n' = se_method n ∧ (se_status n ∈ paid_states → se_status n' ∈ paid_states);
  mv_granted : ∀ k e, granted d' !! k = Some e → (∃ e0, granted d !! k = Some e0 ∧ same_terms e0 e)
    ∨ granted d !! k = None ∧ ∃ p, bought d' !! en_purchase e = Some p ∧ (at_shop p → new_grant d d' k e p);
  mv_cards : ∀ v c, cards d !! v = Some c → vo_state c = "REDEEMED" → ∃ c', cards d' !! v = Some c' ∧ vo_state c' = "REDEEMED" ∧ vo_revision c' = vo_revision c
}.

Section moved.
Context (d d' : SDB) (HS : shop_ok d) (HM : moves d d').

Lemma paid_kept pid : was_paid pid d → was_paid pid d'.
Proof using HM. intros (sid & n & H1 & H2 & H3 & H4). destruct (mv_settled _ _ HM _ _ H1) as (n' & H5 & H6 & H7 & H8). exists sid, n'. rewrite H6, H7. auto. Qed.

Lemma purchase_kept k p' : bought d' !! k = Some p' → bought d !! k = None ∨ ∃ p st, bought d !! k = Some p ∧ p' = with_purchase_state st p.
Proof using HM. intros Hp'. destruct (bought d !! k) as [p|] eqn:E; [|by left]. right. destruct (mv_bought _ _ HM _ _ E) as [st Hst]. exists p, st. split; congruence. Qed.

(** The purchase of an entitlement that was there. *)
Lemma old_purchase k e p' : granted d !! k = Some e → bought d' !! en_purchase e = Some p' →
  ∃ p st, bought d !! en_purchase e = Some p ∧ p' = with_purchase_state st p.
Proof using HS HM. intros He Hp'. destruct (ok_fk _ HS _ _ He) as [p Hp]. destruct (purchase_kept _ _ Hp') as [?|?]; [congruence|done]. Qed.

Lemma moved_quote k p qid : bought d' !! k = Some p → at_shop p → pu_quote p = Some qid →
  ∃ q a, quotes d' !! qid = Some q ∧ is_Some (q_consumed q) ∧ pu_context p = Some (q_context q) ∧ pu_revision p = q_revision q ∧
    pu_amount p = q_price q ∧ contexts d' !! q_context q = Some a ∧ is_Some (ac_consumed a).
Proof using HS HM.
  intros Hp Ha Hq. destruct (purchase_kept _ _ Hp) as [HN|(p0 & st & Hp0 & ->)]; [by apply (mv_new _ _ HM _ _ Hp HN Ha)|]. cbn in *.
  destruct (ok_quote _ HS _ _ _ Hp0 Ha Hq) as (q & a & E1 & E2 & E3 & E4 & E5 & E6 & E7). exists q, a.
  split_and!; try done; [by apply (mv_quotes _ _ HM _ _ _ _ Hp0)|by apply (mv_contexts _ _ HM _ _ _ _ Hp0)].
Qed.

Lemma moved_context k1 k2 p1 p2 : bought d' !! k1 = Some p1 → bought d' !! k2 = Some p2 → at_shop p1 → at_shop p2 →
  pu_context p1 = pu_context p2 → k1 = k2.
Proof using HS HM.
  intros H1 H2 A1 A2 HE. destruct (purchase_kept _ _ H2) as [N2|(x2 & s2 & X2 & ->)]; [by apply (mv_new _ _ HM _ _ H2 N2 A2) in H1|].
  destruct (purchase_kept _ _ H1) as [N1|(x1 & s1 & X1 & ->)]; [symmetry; by apply (mv_new _ _ HM _ _ H1 N1 A1) in H2|].
  by apply (ok_context _ HS _ _ _ _ X1 X2).
Qed.

Lemma moved_once k1 k2 e1 e2 p : granted d' !! k1 = Some e1 → granted d' !! k2 = Some e2 → en_purchase e1 = en_purchase e2 →
  bought d' !! en_purchase e1 = Some p → at_shop p → k1 = k2.
Proof using HS HM.
  intros H1 H2 HE Hp Ha. destruct (mv_granted _ _ HM _ _ H1) as [(x1 & X1 & (_ & _ & T1 & _))|(N1 & p1 & P1 & G1)];
    destruct (mv_granted _ _ HM _ _ H2) as [(x2 & X2 & (_ & _ & T2 & _))|(N2 & p2 & P2 & G2)].
  - rewrite <- T1 in Hp. destruct (old_purchase _ _ _ X1 Hp) as (p0 & st & Hp0 & ->). apply (ok_once _ HS _ _ _ _ p0 X1 X2); [congruence|done|exact Ha].
  - assert (p2 = p) as -> by congruence. destruct (ng_first _ _ _ _ _ (G2 Ha) _ _ X1). congruence.
  - assert (p1 = p) as -> by congruence. destruct (ng_first _ _ _ _ _ (G1 Ha) _ _ X2). congruence.
  - assert (p1 = p) as -> by congruence. symmetry. by apply (ng_only _ _ _ _ _ (G1 Ha) _ _ H2).
Qed.

Lemma moved_terms k e p qid : granted d' !! k = Some e → bought d' !! en_purchase e = Some p → at_shop p → pu_quote p = Some qid →
  ∃ q, quotes d' !! qid = Some q ∧ en_snapshot e = q_snapshot q ∧ en_revision e = q_revision q ∧
    (q_price q = 0 ∨ is_Some (of_voucher (en_owner e)) ∨ was_paid (en_purchase e) d').
Proof using HS HM.
  intros He Hp Ha Hq. destruct (mv_granted _ _ HM _ _ He) as [(x & X & (_ & TO & TP & TS & TR))|(N & p1 & P1 & G)].
  - rewrite <- TP in Hp. destruct (old_purchase _ _ _ X Hp) as (p0 & st & Hp0 & ->). destruct (ok_terms _ HS _ _ _ _ X Hp0 Ha Hq) as (q & E1 & E2 & E3 & E4).
    exists q. rewrite <- TO, <- TP, <- TS, <- TR. split_and!; try done; [by apply (mv_quotes _ _ HM _ _ _ _ Hp0)|].
    destruct E4 as [?|[?|?%paid_kept]]; auto.
  - assert (p1 = p) as -> by congruence. by apply (ng_terms _ _ _ _ _ (G Ha)).
Qed.

Lemma moved_card k e p v : granted d' !! k = Some e → bought d' !! en_purchase e = Some p → at_shop p → of_voucher (en_owner e) = Some v →
  ∃ c, cards d' !! v = Some c ∧ vo_state c = "REDEEMED" ∧ vo_revision c = en_revision e.
Proof using HS HM.
  intros He Hp Ha Hv. destruct (mv_granted _ _ HM _ _ He) as [(x & X & (_ & TO & TP & TS & TR))|(N & p1 & P1 & G)].
  - rewrite <- TP in Hp. rewrite <- TO in Hv. destruct (old_purchase _ _ _ X Hp) as (p0 & st & Hp0 & ->).
    destruct (ok_card _ HS _ _ _ _ X Hp0 Ha Hv) as (c & C1 & C2 & C3). destruct (mv_cards _ _ HM _ _ C1 C2) as (c' & ? & ? & ?). exists c'. by rewrite <- TR, <- C3.
  - assert (p1 = p) as -> by congruence. by apply (ng_card _ _ _ _ _ (G Ha)).
Qed.

Lemma moved_card_once k1 k2 e1 e2 p1 p2 v : granted d' !! k1 = Some e1 → granted d' !! k2 = Some e2 →
  bought d' !! en_purchase e1 = Some p1 → bought d' !! en_purchase e2 = Some p2 → at_shop p1 → at_shop p2 →
  of_voucher (en_owner e1) = Some v → of_voucher (en_owner e2) = Some v → k1 = k2.
Proof using HS HM.
  intros H1 H2 Hp1 Hp2 A1 A2 V1 V2.
  assert (HR : ∀ k e p, granted d !! k = Some e → bought d' !! en_purchase e = Some p → at_shop p → of_voucher (en_owner e) = Some v →
    ∃ c, cards d !! v = Some c ∧ vo_state c = "REDEEMED").
  { intros k e p He Hp Ha Hv. destruct (old_purchase _ _ _ He Hp) as (p0 & st & Hp0 & ->). destruct (ok_card _ HS _ _ _ _ He Hp0 Ha Hv) as (c & ? & ? & _). eauto. }
  destruct (mv_granted _ _ HM _ _ H1) as [(x1 & X1 & (_ & O1 & T1 & _))|(N1 & q1 & P1 & G1)];
    destruct (mv_granted _ _ HM _ _ H2) as [(x2 & X2 & (_ & O2 & T2 & _))|(N2 & q2 & P2 & G2)].
  - rewrite <- T1 in Hp1. rewrite <- T2 in Hp2. rewrite <- O1 in V1. rewrite <- O2 in V2.
    destruct (old_purchase _ _ _ X1 Hp1) as (y1 & s1 & Y1 & ->), (old_purchase _ _ _ X2 Hp2) as (y2 & s2 & Y2 & ->).
    exact (ok_card_once _ HS _ _ _ _ _ _ v X1 X2 Y1 Y2 A1 A2 V1 V2).
  - assert (q2 = p2) as -> by congruence. destruct (ng_card _ _ _ _ _ (G2 A2) v V2) as [_ HN]. rewrite <- T1 in Hp1. rewrite <- O1 in V1.
    destruct (HR _ _ _ X1 Hp1 A1 V1) as (c & C1 & C2). by destruct (HN _ C1).
  - assert (q1 = p1) as -> by congruence. destruct (ng_card _ _ _ _ _ (G1 A1) v V1) as [_ HN]. rewrite <- T2 in Hp2. rewrite <- O2 in V2.
    destruct (HR _ _ _ X2 Hp2 A2 V2) as (c & C1 & C2). by destruct (HN _ C1).
  - assert (q1 = p1) as -> by congruence. symmetry. by apply (ng_only _ _ _ _ _ (G1 A1) _ _ H2).
Qed.

Lemma moves_ok : shop_ok d'.
Proof using HS HM.
  constructor.
  - intros k e He. destruct (mv_granted _ _ HM _ _ He) as [(x & X & (_ & _ & T & _))|(_ & p & P1 & _)]; [|by eexists].
    destruct (ok_fk _ HS _ _ X) as [p Hp]. destruct (mv_bought _ _ HM _ _ Hp) as [st Hst]. rewrite <- T. by eexists.
  - apply moved_quote.
  - apply moved_context.
  - apply moved_once.
  - apply moved_terms.
  - apply moved_card.
  - apply moved_card_once.
Qed.
End moved.

Lemma supersede_lookup now old m k e' : supersede now old m !! k = Some e' → ∃ e, m !! k = Some e ∧ same_terms e e'.
Proof.
  unfold supersede. destruct old as [x|]; [|by exists e']. destruct (m !! x) as [e|] eqn:E; [|by exists e'].
  intros [[<- <-]|[_ H]]%lookup_insert_Some; [by exists e|by exists e'].
Qed.

(** The entitlements after a purchase: the new one and those there were. *)
Lemma granted_after now s pid o snap rev eid old d d' k e : given now s pid o snap rev eid old d d' → granted d' !! k = Some e →
  (k = eid ∧ en_scope e = s ∧ en_owner e = o ∧ en_purchase e = pid ∧ en_snapshot e = snap ∧ en_revision e = rev)
  ∨ ∃ e0, granted d !! k = Some e0 ∧ same_terms e0 e.
Proof.
  intros [(w & _ & ->) _ _ _ _ _]. intros [[<- <-]|[_ H]]%lookup_insert_Some; [by left|right; by apply supersede_lookup in H].
Qed.

(** A card after it may have been spent. *)
Lemma burned_lookup o m v c : m !! v = Some c → ∃ c', burned o m !! v = Some c' ∧ vo_revision c' = vo_revision c ∧
  (vo_state c = "REDEEMED" ∨ of_voucher o = Some v → vo_state c' = "REDEEMED").
Proof.
  intros Hc. unfold burned. destruct (of_voucher o) as [x|]; [|exists c; naive_solver]. destruct (m !! x) as [y|] eqn:Ey.
  - destruct (decide (x = v)) as [->|]; [rewrite lookup_insert_eq; exists (spend y); naive_solver congruence|].
    rewrite lookup_insert_ne by done. exists c. naive_solver.
  - exists c. naive_solver.
Qed.

Lemma with_same_state p : with_purchase_state (pu_state p) p = p.
Proof. by destruct p. Qed.

Lemma outside_moves d d' : outside d d' → moves d d'.
Proof.
  intros [O1 O2 O3 O4 O5 O6 O7]. constructor; eauto.
  - intros k p Hp HN Ha. by destruct (O4 _ _ Hp HN).
  - intros k e He. destruct (O6 _ _ He) as [?|(HN & p & Hp & Ha)]; [by left|]. right. split; [done|]. by exists p.
Qed.

(** Statements that leave purchases, settlements and entitlements alone. *)
Lemma frame_moves d d' : bought d' = bought d → granted d' = granted d → settled d' = settled d → contexts d' = contexts d →
  (∀ id q, quotes d !! id = Some q → quotes d' !! id = Some q) →
  (∀ v c, cards d !! v = Some c → vo_state c = "REDEEMED" → cards d' !! v = Some c) → moves d d'.
Proof.
  intros EB EG ES EA EQ EC. constructor; rewrite ?EB, ?EG, ?EA, ?ES; eauto.
  - intros k p Hp. exists (pu_state p). by rewrite with_same_state.
  - intros k p H1 H2. congruence.
  - intros k e He. left. by exists e.
Qed.

Lemma new_settlement_moves sid n d d' : settled d !! sid = None → settled d' = <[sid := n]> (settled d) →
  ∀ k x, settled d !! k = Some x → ∃ n', settled d' !! k = Some n' ∧ se_purchase n' = se_purchase x ∧ se_method n' = se_method x ∧
    (se_status x ∈ paid_states → se_status n' ∈ paid_states).
Proof. intros HN -> k x Hk. exists x. rewrite lookup_insert_ne by congruence. done. Qed.

(** The cards after a grant. *)
Lemma burned_moves o m v c : m !! v = Some c → vo_state c = "REDEEMED" → ∃ c', burned o m !! v = Some c' ∧ vo_state c' = "REDEEMED" ∧ vo_revision c' = vo_revision c.
Proof. intros Hc Hs. destruct (burned_lookup o _ _ _ Hc) as (c' & ? & ? & ?). exists c'. auto. Qed.

(** The card of a new entitlement was unused and is spent. *)
Lemma spent_card now s rev o (m : gmap string Voucher) v :
  (∀ v, of_voucher o = Some v → ∃ c, m !! v = Some c ∧ vo_scope c = s ∧ vo_revision c = rev ∧ redeemable now c = true) → of_voucher o = Some v →
  (∃ c, burned o m !! v = Some c ∧ vo_state c = "REDEEMED" ∧ vo_revision c = rev) ∧ ∀ c, m !! v = Some c → vo_state c ≠ "REDEEMED".
Proof.
  intros HC Hv. destruct (HC v Hv) as (c & C1 & _ & C3 & C4). split.
  - destruct (burned_lookup o _ _ _ C1) as (c' & ? & ? & ?). exists c'. split_and!; [done|auto|congruence].
  - intros c' Hc'. assert (c' = c) as -> by congruence. unfold redeemable in C4.
    apply andb_true_iff in C4 as [[C4%bool_decide_eq_true _]%andb_true_iff _]. congruence.
Qed.

Section confirm_moves.
Context (c : Clock) (req : ConfirmRequest) (q : Quote) (a : AuthContext) (sid : string) (d : SDB) (x : PurchaseResult) (d' : SDB).
Context (HS : shop_ok d) (HC : confirmed c req q a sid d x d').

(** The sign-in was not spent on a purchase before. *)
Lemma fresh_sign_in k p : bought d !! k = Some p → at_shop p → pu_context p ≠ Some (q_context q).
Proof using HS HC.
  intros Hp [[qid Hq] Ha] HE. destruct (ok_quote _ HS k p qid Hp) as (q1 & a1 & _ & _ & E3 & _ & _ & E6 & E7); [split; [by eexists|done]|done|].
  destruct (cf_context _ _ _ _ _ _ _ _ HC) as (A1 & _ & _ & _ & A5 & _). rewrite HE in E3. injection E3 as E3.
  rewrite <- E3, A1 in E6. injection E6 as <-. rewrite A5 in E7. by destruct E7.
Qed.

Lemma confirmed_granted k e : granted d' !! k = Some e → (∃ e0, granted d !! k = Some e0 ∧ same_terms e0 e)
  ∨ granted d !! k = None ∧ ∃ p, bought d' !! en_purchase e = Some p ∧ (at_shop p → new_grant d d' k e p).
Proof using HS HC.
  pose proof HC as [_ _ HQ _ [HN _] HB _ HH]. intros He.
  assert (HG : (granted d' = granted d) ∨ ∃ o old, given (db_now c) (cr_scope req) (PurchaseID x) o (q_snapshot q) (q_revision q) (EntitlementID x) old d d' ∧
    (q_price q = 0 ∨ is_Some (of_voucher o))).
  { destruct HH as [(_ & HP & _ & _ & old & HG)|[(_ & _ & HV & old & HG)|(_ & _ & _ & _ & _ & HG & _)]]; [right; eauto..|by left]. }
  destruct HG as [HG|(o & old & HG & HP)]; [left; exists e; by rewrite HG in He|].
  destruct (granted_after _ _ _ _ _ _ _ _ _ _ _ _ HG He) as [(-> & _ & E2 & E3 & E4 & E5)|H0]; [|by left]. right.
  split; [apply (gv_fresh _ _ _ _ _ _ _ _ _ _ HG)|]. eexists. split; [by rewrite HB, E3, lookup_insert_eq|]. intros _. constructor.
  - intros k' e' He' HN'. destruct (granted_after _ _ _ _ _ _ _ _ _ _ _ _ HG He') as [(-> & _)|(e0 & H0 & _)]; [done|congruence].
  - intros k' e' He' HE. destruct (ok_fk _ HS _ _ He'). congruence.
  - cbn. intros qid [= <-]. exists (consume_quote (engine_now c) q). rewrite HQ, lookup_insert_eq, E2. cbn. naive_solver.
  - rewrite E2, E5, (gv_cards _ _ _ _ _ _ _ _ _ _ HG). intros v. apply (spent_card (db_now c) (cr_scope req)), (gv_card _ _ _ _ _ _ _ _ _ _ HG).
Qed.

Lemma confirmed_moves : moves d d'.
Proof using HS HC.
  pose proof HC as [_ HA HQ HX [HN HU] HB [HSN HSE] HH]. constructor.
  - intros k p qid q0 Hp _ Hq H0. rewrite HQ, lookup_insert_ne; [done|]. intros <-. by apply (HU _ _ Hp).
  - intros k p cid a0 Hp Ha Hc H0 H1. rewrite HX, lookup_insert_ne; [done|]. intros <-. by apply (fresh_sign_in _ _ Hp Ha).
  - intros k p Hp. exists (pu_state p). rewrite with_same_state, HB, lookup_insert_ne; [done|]. congruence.
  - intros k p Hp HNk _. rewrite HB in Hp. apply lookup_insert_Some in Hp as [[<- <-]|[_ Hp]]; [|congruence]. cbn. split.
    + intros qid [= <-]. exists (consume_quote (engine_now c) q), (consume_context (engine_now c) a). rewrite HQ, HX, !lookup_insert_eq. done.
    + intros k' p' Hp' Ha' HE. rewrite HB in Hp'. apply lookup_insert_Some in Hp' as [[<- _]|[_ Hp']]; [done|]. by destruct (fresh_sign_in _ _ Hp' Ha').
  - by apply (new_settlement_moves sid (mkSettlement (cr_scope req) (PurchaseID x) (pres_Method x) (status_of (pres_Method x)))).
  - apply confirmed_granted.
  - intros v cd. destruct HH as [(_ & _ & _ & _ & old & HG)|[(_ & _ & _ & old & HG)|(_ & _ & _ & _ & _ & _ & _ & ->)]]; [..|intros ? ?; by exists cd];
      rewrite (gv_cards _ _ _ _ _ _ _ _ _ _ HG); apply burned_moves.
Qed.
End confirm_moves.

Lemma paid_moves now s sid new d d' r : shop_ok d → p4_grant_paid_entitlement now s sid new d = Ok (d', r) → moves d d'.
Proof.
  intros HS. destruct r as [[eid already] old]. intros [->|(se & pu & q & a & o & iface & S1 & S2 & S3 & S4 & B1 & B2 & EV & HV & HG)]%paid_spec.
  { apply frame_moves; auto. }
  destruct HG as [GC GQ GS (p & Hp & GB) (w & _ & GG) GO GF GFi _ GCa GCd]. assert (p = pu) as -> by congruence.
  constructor; rewrite ?GC, ?GQ, ?GS; eauto.
  - intros k x Hx. rewrite GB. destruct (decide (se_purchase se = k)) as [<-|]; [rewrite lookup_insert_eq; exists "GRANTED"; congruence|].
    rewrite lookup_insert_ne by done. exists (pu_state x). by rewrite with_same_state.
  - intros k x Hx HN. rewrite GB in Hx. apply lookup_insert_Some in Hx as [[<- _]|[_ Hx]]; congruence.
  - intros k e He. rewrite GG in He. apply lookup_insert_Some in He as [[<- <-]|[_ He%supersede_lookup]]; [|by left]. right. split; [done|].
    eexists. cbn. rewrite GB, lookup_insert_eq. split; [done|]. intros Ha. constructor; cbn.
    + intros k' e' He' HN. rewrite GG in He'. apply lookup_insert_Some in He' as [[<- _]|[_ (e0 & H0 & _)%supersede_lookup]]; [done|congruence].
    + exact GFi.
    + intros qid Hq. unfold evidence in EV. rewrite Hq in EV. cbn in EV. destruct (in_scope q_scope s (quotes d) qid) as [q1|] eqn:EQ; [|done].
      apply in_scope_Some in EQ as [EQ _]. cbn in EV. destruct (pu_context pu ≫= _); [|done]. injection EV as -> ->.
      destruct (ok_quote _ HS _ _ _ B1 Ha Hq) as (q2 & _ & F1 & _ & _ & F4 & _). rewrite F1 in EQ. injection EQ as ->. exists q. rewrite GQ. split_and!; [done..|].
      right. right. exists sid, se. rewrite GS. split_and!; [done..|]. rewrite S3. left.
    + intros v Hv. rewrite GCa. exact (spent_card now s _ o _ v GCd Hv).
  - intros v c. rewrite GCa. apply burned_moves.
Qed.

Lemma quote_moves e site c req fate t d' r : CreateQuote e site c req fate t = (d', r) → moves (tx_db t) d'.
Proof.
  assert (HR : moves (tx_db t) (tx_db t)) by (apply frame_moves; auto).
  unfold CreateQuote. destruct (negb _); [by intros [= <- _]|]. destruct (_ || _); [by intros [= <- _]|]. destruct (WithTx _ _ _) as [d'' r''] eqn:EW.
  intros HE. assert (d' = d'') as -> by (destruct r''; by injection HE as <- _).
  destruct (with_tx _ _ _ _ _ _ (quote_body_spec e _ c req _) EW) as [(-> & _)|(x & [(-> & _)|(a & rv & q & _ & HQ)] & _)]; try done.
  destruct HQ as [_ _ _ _ _ _ _ [HN ->]]. apply frame_moves; cbn; auto.
  intros id q0 H0. rewrite lookup_insert_ne; [done|]. congruence.
Qed.

Lemma revoke_moves s v op reason d d' : voucher_revoke s v op reason d = Ok d' → moves d d'.
Proof.
  unfold voucher_revoke. intros H. oks H. destruct (in_scope _ _ _ _) as [vo|] eqn:EV; [|done]. apply in_scope_Some in EV as [EV _]. oks H. injection H as <-.
  apply bool_decide_eq_true in C1. apply frame_moves; cbn; auto. intros w cd Hw Hs. rewrite lookup_insert_ne; [done|]. intros <-. congruence.
Qed.

Lemma shop_is_ok d : shop d → shop_ok d.
Proof.
  induction 1 as [d HB HG|t e site c req fate d' r _ IH HQ|t e site c req fate d' r _ IH HC|t e site c req fate d' r _ IH HL
    |d s v op reason d' _ IH HR|d now s sid new d' r _ IH HP|d d' _ IH HE].
  - constructor; unfold ents_have_purchases; rewrite ?HB, ?HG; intros; simplify_map_eq.
  - apply (moves_ok _ _ IH), (quote_moves _ _ _ _ _ _ _ _ HQ).
  - destruct (confirmation_is_whole_lemma _ _ _ _ _ _ _ _ (ok_fk _ IH) HC) as [[-> _]|(q & a & sid & x & HX & _)]; [done|].
    apply (moves_ok _ _ IH), (confirmed_moves _ _ _ _ _ _ _ _ IH HX).
  - by apply list_changes_nothing in HL as ->.
  - apply (moves_ok _ _ IH), (revoke_moves _ _ _ _ _ _ HR).
  - apply (moves_ok _ _ IH), (paid_moves _ _ _ _ _ _ _ IH HP).
  - by apply (moves_ok _ _ IH), outside_moves.
Qed.

End history.
