(* ===== verification/CommerceOffers.v ===== *)
(** What a guest is offered: quotes, the packages vouchers are refused for, and the list
    against the quotes that can be had for it. *)
From S2P Require Import Prelude GoStrings GoText GoAny Pg StayTables StayProofs Checkout CommerceRules CommerceRulesProofs CommerceTables CommerceFlow CommerceProofs CommerceHistory.

Section offers.
Context {U : Unicode} {P : PgTime}.

(** ** Quotes *)

(** A quote promises what was on offer: unless it records one, a call changes nothing and
    names no quote; the one it records is new and belongs to an unused sign-in of that very
    device and network, for the current revision of an active package on sale or for the
    revision the card was printed for, which the guest is eligible for; its price and end are
    those of the revision, its grant those of a tier of the revision and of its plan, its
    method one the price, the card and the site allow, and it expires. *)
Lemma quote_is_what_was_offered e site c req fate t d' r : CreateQuote e site c req fate t = (d', r) →
  (d' = tx_db t ∧ ∀ x, r = Ok x → QuoteID x = "")
  ∨ ∃ a rv id q, id ≠ "" ∧ quoted e (siteMethods site) c req a rv id q (tx_db t) d' ∧ ((∃ x, r = Ok x ∧ QuoteID x = id) ∨ r = Err (Error "repository")).
Proof.
  unfold CreateQuote. destruct (negb _); [intros [= <- <-]; left; split; [done|]; by intros x [= <-]|]. destruct (_ || _); [by intros [= <- <-]; left|].
  destruct (WithTx _ _ _) as [d'' r''] eqn:EW. destruct (with_tx _ _ _ _ _ _ (quote_body_spec e _ c req _) EW) as [(-> & er & ->)|(x & HX & HR)]; [by intros [= <- <-]; left|].
  intros H. destruct HX as [(-> & HQ)|(a & rv & q & HN & HQ)].
  - left. destruct HR as [->| ->]; injection H as <- <-; [|done]. split; [done|]. by intros y [= <-].
  - right. exists a, rv, (QuoteID x), q. destruct HR as [->| ->]; injection H as <- <-; eauto 6.
Qed.

(** ** Vouchers *)

#[local] Instance Blocker_eq_dec : EqDecision Blocker.
Proof. solve_decision. Defined.

Lemma per_night_upper m : m = "FIXED" ∨ m = AllocPerStayNight → EqualFold (TrimSpace m) AllocPerStayNight = true → m = AllocPerStayNight.
Proof. intros [->| ->]; [|done]. rewrite EqualFold_ascii by (vm_compute; reflexivity). by vm_compute. Qed.

(** A package that vouchers may not be issued for is never sold to one: for a client who
    signed in with a voucher, and so has no stay and no client group, every quote is for a
    revision that names no blocker. *)
Theorem blocked_package_quotes_no_voucher e site c req fate t d' x a v q rv :
  CreateQuote e site c req fate t = (d', Ok x) → quotes d' !! QuoteID x = Some q → QuoteID x ≠ "" →
  contexts (tx_db t) !! qr_AuthContextID req = Some a → ac_voucher a = Some v → ToUpper (ac_method a) = "VOUCHER" → ac_group a = None →
  revisions (tx_db t) !! q_revision q = Some rv → rv_allocation rv ∈ [None; Some "FIXED"; Some AllocPerStayNight] →
  VoucherBlocker (default "FIXED" (rv_allocation rv)) (default [] (rules_of (tx_db t) !! q_revision q)) = None.
Proof.
  intros HC HQ HN HA HV HM HG HR HL. destruct (quote_is_what_was_offered _ _ _ _ _ _ _ _ HC) as [[_ H]|(a' & rv' & id & q' & _ & HX & HO)]; [by specialize (H x eq_refl)|].
  destruct HO as [(y & [= <-] & HE)|]; [|done].
  destruct HX as [(C1 & _) _ (R1 & R2 & _) (subj & S1 & S2 & _ & S4 & S5 & S6) _ _ _ [_ ->]]. rewrite HE in HQ. cbn in HQ. rewrite lookup_insert_eq in HQ. injection HQ as ->.
  rewrite HA in C1. injection C1 as <-. rewrite HR in R1. injection R1 as <-. apply eq_None_not_Some. intros [b HB].
  assert (HK : voucher_client subj).
  { split_and!; try done; [rewrite S1; unfold subject_of; by rewrite HV|by rewrite S2|by rewrite S4, HG]. }
  destruct (decide (b = PerNightAllowance)) as [->|HP]; [|destruct (blocked_package_refuses _ _ _ _ HK HB HP); congruence].
  unfold VoucherBlocker in HB. destruct (EqualFold _ _) eqn:EF.
  - apply per_night_upper in EF; [|by apply elem_of_cons in HL as [->|[->|[->|[]%elem_of_nil]%elem_of_cons]%elem_of_cons]; auto]. destruct (rv_allocation rv); cbn in EF; [congruence|done].
  - assert (HO : ∀ l, head (omap rule_blocks_voucher l) ≠ Some PerNightAllowance); [|by apply HO in HB].
    induction l as [|r l IH]; [done|]. cbn. destruct (rule_blocks_voucher r) eqn:ER; [|done]. intros [= ->]. revert ER. unfold rule_blocks_voucher. by repeat case_match.
Qed.

(** ** The list *)

Lemma healthy_bind {A B} (m : TX A) (k : A → TX B) t t2 b : reader m → healthy t → (m ≫= k) t = (t2, Ok b) → ∃ a, m t = (t, Ok a) ∧ k a t = (t2, Ok b).
Proof.
  intros HR HT. destruct (HR t) as [_ H]. specialize (H HT). unfold mbind, ST_bind. destruct (m t) as [t1 [a|e]]; [|done]. cbn in H. subst t1. eauto.
Qed.
Lemma bind_run {A B} (m : TX A) (k : A → TX B) t a : m t = (t, Ok a) → (m ≫= k) t = k a t.
Proof. intros H. unfold mbind, ST_bind. by rewrite H. Qed.
Lemma unless_inr {A} (refused : bool) (w : string) (k : TX (string + A)) t t' x : unless refused (inl w) k t = (t', Ok (inr x)) → refused = false ∧ k t = (t', Ok (inr x)).
Proof. by destruct refused. Qed.

(** What the list reads of a package it shows, read in one healthy transaction. *)
Record sellable (c : Clock) (s : scope) (ac : AuthContextRow) (pkg : PackageRevisionRow) (t : tx SDB) (cur : string) (plan : PlanRevisionRow)
    (ancestors : list string) (rules : list EligibilityRule) (prior : bool) (tiers : list GrantTier) (tier : GrantTier) (snap : GrantSnapshot)
    (endMode : string) (window : option Time) : Prop := {
  sl_open : sj_Kind (Subject ac) = SubjectVoucher ∨ PackageActive pkg = true ∧ IsCurrent pkg = true ∧
    match VisibleFrom pkg with Some x => Before (engine_now c) x | None => false end = false ∧
    match VisibleUntil pkg with Some x => negb (Before (engine_now c) x) | None => false end = false;
  sl_currency : ValidateCurrency (Currency pkg) (CurrencyExponent pkg) = Some cur;
  sl_plan : LoadPlanRevision s (PlanRevisionID pkg) t = (t, Ok plan);
  sl_ancestors : GuestNetworkAncestors s (ac_GuestNetworkID ac) t = (t, Ok ancestors);
  sl_rules : LoadEligibilityRules (pkg_ID pkg) t = (t, Ok rules);
  sl_prior : prior_purchase c s ac pkg rules t = (t, Ok prior);
  sl_eligible : EvaluatePackageEligible rules (subject_for c ac ancestors prior) = Ok ();
  sl_ended : ended_free c s ac pkg t = (t, Ok false);
  sl_tiers : LoadGrantTiers (pkg_ID pkg) t = (t, Ok tiers);
  sl_tier : FirstMatchTier tiers (subject_for c ac ancestors prior) = Some tier;
  sl_snapshot : BuildGrantSnapshot tier plan (pkg_ID pkg) = Ok snap;
  sl_end : ResolveEndPolicy (pkg_DurationPolicy pkg) (engine_now c) = Ok (endMode, window)
}.

Lemma plan_found s id t plan : healthy t → LoadPlanIfAny s id t = (t, Ok (Some plan)) → LoadPlanRevision s id t = (t, Ok plan).
Proof.
  intros HT. assert (HR : reader (LoadPlanRevision s id)) by apply reader_fetch. destruct (HR t) as [_ H]. specialize (H HT). unfold LoadPlanIfAny.
  destruct (LoadPlanRevision s id t) as [t1 [p|e]]; cbn in H; subst t1; [by intros [= <-]|]. by destruct (isNotFound e).
Qed.

Lemma reader_may_have s ac pkg : reader (voucherMayHavePackage s ac pkg).
Proof. unfold voucherMayHavePackage. destruct (_ || _); [apply reader_ret|]. apply reader_bind; [apply reader_query|intros ?; apply reader_ret]. Qed.

Lemma eval_sellable c s ac pkg t t' display : healthy t → evalPackageForSubject c s ac pkg t = (t', Ok (inr display)) →
  ∃ cur plan anc rules prior tiers tier snap endMode window, sellable c s ac pkg t cur plan anc rules prior tiers tier snap endMode window.
Proof.
  intros HT. unfold evalPackageForSubject. cbv zeta. intros [H1 H]%unless_inr.
  apply healthy_bind in H as (ok & _ & H); [|apply reader_may_have|done].
  apply unless_inr in H as [_ H]. apply unless_inr in H as [H2 H]. apply unless_inr in H as [H3 H]. destruct (ValidateCurrency _ _) as [cur|] eqn:EC; [|done].
  apply healthy_bind in H as (oplan & HP & H); [|apply reader_plan|done]. destruct oplan as [plan|]; [|done]. apply plan_found in HP; [|done].
  apply healthy_bind in H as (anc & HA & H); [|apply reader_ancestors|done]. apply healthy_bind in H as (rules & HR & H); [|apply reader_query|done].
  apply healthy_bind in H as (prior & HO & H); [|apply reader_prior|done]. destruct (EvaluatePackageEligible _ _) as [[]|] eqn:EE; [|done].
  apply healthy_bind in H as (ended & HE & H); [|apply reader_ended|done]. apply unless_inr in H as [-> H].
  apply healthy_bind in H as (tiers & HG & H); [|apply reader_query|done]. destruct (FirstMatchTier _ _) as [tier|] eqn:EF; [|done].
  destruct (BuildGrantSnapshot _ _ _) as [snap|] eqn:EB; [|done]. destruct (ResolveEndPolicy _ _) as [[em w]|] eqn:EP; [|done].
  exists cur, plan, anc, rules, prior, tiers, tier, snap, em, w. constructor; try done.
  destruct (bool_decide (sj_Kind (Subject ac) = SubjectVoucher)) eqn:EK; [left; by apply bool_decide_eq_true in EK|right]. cbn in H1, H2, H3.
  apply orb_false_iff in H1 as [H1%negb_false_iff H1'%negb_false_iff]. done.
Qed.

Lemma items_sellable c s ac site pkgs t items used item : healthy t → list_items c s ac site pkgs t = (t, Ok (items, used)) → item ∈ items →
  ∃ pkg display, pkg ∈ pkgs ∧ evalPackageForSubject c s ac pkg t = (t, Ok (inr display)) ∧ item ∈ listed_item ac site pkg display.
Proof.
  intros HT. revert items used. induction pkgs as [|pkg pkgs IH]; intros items used; cbn [list_items]; [by intros [= <- _] ?%elem_of_nil|].
  intros H HI. apply healthy_bind in H as (r & HE & H); [|apply reader_eval|done]. apply healthy_bind in H as ([items' used'] & HL & H); [|apply reader_items|done].
  destruct r as [why|display].
  - injection H as <- _. destruct (IH _ _ HL HI) as (p & dsp & ? & ?). exists p, dsp. split; [by right|done].
  - injection H as <- _. apply elem_of_app in HI as [HI|HI]; [exists pkg, display; split; [by left|done]|].
    destruct (IH _ _ HL HI) as (p & dsp & ? & ?). exists p, dsp. split; [by right|done].
Qed.

(** The foreign key of a package to its current revision, and keys that are not empty. *)
Definition current_of_package (d : SDB) : Prop := ∀ id pk rid rv,
  packages d !! id = Some pk → pk_current pk = Some rid → revisions d !! rid = Some rv → id ≠ "" ∧ rv_package rv = id ∧ rv_scope rv = pk_scope pk.

(** The packages a client's list is made of. *)
Definition candidates (s : scope) (ac : AuthContextRow) : TX (list PackageRevisionRow) :=
  if decide (sj_Kind (Subject ac) = SubjectVoucher) then voucher_packages s (VoucherID (Subject ac)) else ListActivePackageRevisions s.

Lemma reader_candidates s ac : reader (candidates s ac).
Proof. unfold candidates. destruct (decide _); [apply reader_voucher_packages|apply reader_query]. Qed.

Definition in_force (d : SDB) (s : scope) (pkg : PackageRevisionRow) : Prop := is_Some (in_scope rv_scope s (revisions d) (pkg_ID pkg)).

Lemma revision_read s id t : healthy t → LoadPackageRevisionByID s id t =
  (t, match (r ← in_scope rv_scope s (revisions (tx_db t)) id; p ← in_scope pk_scope s (packages (tx_db t)) (rv_package r); Some (revision_row id r p)) with
      | Some p => Ok p | None => Err ErrInvalidInput end).
Proof. intros HT. unfold LoadPackageRevisionByID. rewrite (bind_run _ _ _ _ (healthy_query _ _ HT)). by destruct (_ ≫= _). Qed.

(** A candidate that is shown is the package a quote for it is made for. *)
Lemma candidate_is_quoted c req ac t pkgs pkg cur plan anc rules prior tiers tier snap em w :
  healthy t → current_of_package (tx_db t) → candidates (qr_scope req) ac t = (t, Ok pkgs) → pkg ∈ pkgs → qr_PackageID req = PackageID pkg →
  sellable c (qr_scope req) ac pkg t cur plan anc rules prior tiers tier snap em w →
  quoted_package c req ac t = (t, Ok (inr pkg)) ∧ in_force (tx_db t) (qr_scope req) pkg.
Proof.
  intros HT HD HC HI HQ HS. unfold candidates, quoted_package, in_force in *. cbv zeta. destruct (decide _) as [HK|HK].
  - unfold voucher_packages in HC. assert (HP := healthy_query (λ d, default "" (vo_revision <$> in_scope vo_scope (qr_scope req) (cards d) (VoucherID (Subject ac)))) t HT).
    rewrite (bind_run _ _ _ _ HP) in HC. rewrite (bind_run _ _ _ _ HP). destruct (empty _); [injection HC as <-; by apply elem_of_nil in HI|].
    rewrite (revision_read _ _ _ HT) in HC. destruct (in_scope rv_scope _ _ _) as [rv|] eqn:ER; [|injection HC as <-; by apply elem_of_nil in HI]. cbn in HC.
    destruct (in_scope pk_scope _ _ _) as [pk|] eqn:EP; [|injection HC as <-; by apply elem_of_nil in HI]. cbn in HC. injection HC as <-. apply list_elem_of_singleton in HI as ->.
    split; [|cbn; by rewrite ER]. unfold mbind at 1, ST_bind. rewrite (revision_read _ _ _ HT), ER. cbn. rewrite EP. cbn. rewrite HQ. cbn. by rewrite bool_decide_eq_true_2, andb_false_r.
  - unfold ListActivePackageRevisions in HC. rewrite (healthy_query _ _ HT) in HC. injection HC as <-. apply list_elem_of_omap in HI as (pk & HI & HR).
    rewrite merge_sort_Permutation in HI. apply list_elem_of_filter in HI as [[HS1 HS2] HI]. apply list_elem_of_fmap in HI as ([id pk'] & Heq & HI). cbn in Heq. subst pk'. apply elem_of_map_to_list in HI.
    assert (HR' := HR). unfold current_row in HR'. destruct (pk_current pk) as [rid|] eqn:EC; [|done]. cbn in HR'. destruct (revisions (tx_db t) !! rid) as [rv|] eqn:EV; [|done]. cbn in HR'. injection HR' as <-.
    destruct (HD _ _ _ _ HI EC EV) as (D1 & D2 & D3). cbn in HQ. rewrite D2 in HQ. rewrite HQ. apply empty_false in D1. rewrite D1.
    split; [|cbn; exists rv; apply in_scope_Some; split; [done|congruence]]. unfold ResolveActivePackageRevision.
    assert (HG : in_scope pk_scope (qr_scope req) (packages (tx_db t)) id = Some pk) by (by apply in_scope_Some).
    rewrite (bind_run _ _ _ (revision_row rid rv pk)). 2:{ rewrite (bind_run _ _ _ _ (healthy_query _ _ HT)). rewrite HG. cbn. by rewrite HR. }
    destruct (sl_open _ _ _ _ _ _ _ _ _ _ _ _ _ _ _ HS) as [|(O1 & O2 & O3 & O4)]; [done|]. rewrite O1, O2, O3, O4. done.
Qed.

(** The key the next quote gets. *)
Definition next_id (t : tx SDB) : string := uuid_text (tx_uuids t (tx_next t)).

Lemma insert_run q t : healthy t → quotes (tx_db t) !! next_id t = None → is_Some (in_scope ac_scope (q_scope q) (contexts (tx_db t)) (q_context q)) →
  is_Some (in_scope rv_scope (q_scope q) (revisions (tx_db t)) (q_revision q)) → ∃ t', InsertOfferQuote q t = (t', Ok (next_id t)) ∧ tx_aborted t' = false.
Proof.
  intros [HT1 HT2] HN HA HR. unfold InsertOfferQuote, mbind, ST_bind, gen_random_uuid, exec, statement, next_statement_fails. cbn. rewrite HT1, HT2.
  unfold insert_quote. fold (next_id t). rewrite !bool_decide_eq_true_2 by done. cbn. by eexists.
Qed.

(** The request for a package of the list by one of its methods. *)
Definition ask (req : PackageListRequest) (item : PackageListItem) (m : string) : QuoteRequest :=
  mkQuoteRequest (lr_TenantID req) (lr_SiteID req) (lr_AuthContextID req) (it_PackageID item) (lr_DeviceID req) (lr_GuestNetworkID req) m.

Lemma method_choice m (l : list string) : l = [m] → m ≠ "" → match l with [x] => if empty m then x else m | _ => m end = m.
Proof. intros -> _. by destruct (empty m). Qed.

Lemma quote_run e site c req ac t pkg m cur plan anc rules prior tiers tier snap em w :
  healthy t → quotes (tx_db t) !! next_id t = None → loadAuthContext (qr_scope req) (qr_AuthContextID req) t = (t, Ok ac) →
  is_Some (in_scope ac_scope (qr_scope req) (contexts (tx_db t)) (ac_ID ac)) →
  (ac_TenantID ac = qr_TenantID req ∧ ac_SiteID ac = qr_SiteID req ∧ ac_DeviceID ac = qr_DeviceID req ∧ ac_GuestNetworkID ac = qr_GuestNetworkID req) →
  empty (ac_StayID ac) = true → ac_Consumed ac || negb (After (ac_ExpiresAt ac) (engine_now c)) = false →
  quoted_package c req ac t = (t, Ok (inr pkg)) → in_force (tx_db t) (qr_scope req) pkg →
  applicableMethods pkg ac site = [m] → m ≠ "" → qr_Method req = m →
  sellable c (qr_scope req) ac pkg t cur plan anc rules prior tiers tier snap em w →
  ∃ t' r, quote_body e site c req t = (t', Ok r) ∧ tx_aborted t' = false ∧
    (QuoteID r = next_id t ∧ qres_Reason r = "ok" ∨ qres_Reason r = TimeModeAcquirable (TimeAccountingMode snap) (aggregateOnlineTime e) ∧ qres_Reason r ≠ "").
Proof.
  intros HT HN HL HA HM HS HU HP HF HX Hm HQ [_ S1 S2 S3 S4 S5 S6 S7 S8 S9 S10 S11]. unfold quote_body. cbv zeta. rewrite (bind_run _ _ _ _ HL).
  rewrite bool_decide_eq_true_2, HS, HU by done. cbn [negb unless]. rewrite (bind_run _ _ _ _ HP). rewrite HQ, (method_choice m) by done.
  apply empty_false in Hm. rewrite Hm, HX, bool_decide_eq_true_2 by (by left). cbn [orb negb unless]. rewrite S1, (bind_run _ _ _ _ S2), (bind_run _ _ _ _ S3), (bind_run _ _ _ _ S4), (bind_run _ _ _ _ S5), S6, (bind_run _ _ _ _ S7).
  cbn [unless]. rewrite (bind_run _ _ _ _ S8), S9, S10. destruct (empty (TimeModeAcquirable _ _)) eqn:ET; cbn [negb unless].
  - rewrite S11. match goal with |- context [InsertOfferQuote ?q] => destruct (insert_run q t HT HN HA HF) as (t' & HI & HB) end.
    unfold mbind, ST_bind. rewrite HI. exists t'. eexists. split; [done|]. split; [done|]. by left.
  - eexists _, _. split; [done|]. split; [by destruct HT|]. right. split; [done|]. by apply empty_false in ET.
Qed.

Lemma context_read s id t ac : healthy t → loadAuthContext s id t = (t, Ok ac) → ∃ a, in_scope ac_scope s (contexts (tx_db t)) id = Some a ∧ ac = context_row id a.
Proof.
  intros HT. unfold loadAuthContext. rewrite (bind_run _ _ _ _ (healthy_query _ _ HT)). destruct (in_scope _ _ _ _) as [a|]; [|done]. intros [= <-]. by exists a.
Qed.

Lemma unless_listed (refused : bool) w (k : TX PackageListResult) t t' l item : unless refused (listDeny w) k t = (t', Ok l) → item ∈ Packages l → refused = false ∧ k t = (t', Ok l).
Proof. destruct refused; [|done]. by intros [= _ <-] ?%elem_of_nil. Qed.

Lemma one_method pkg ac site m : m ∈ applicableMethods pkg ac site → applicableMethods pkg ac site = [m] ∧ m ≠ "".
Proof.
  unfold applicableMethods. intros H. repeat case_match; try (by apply elem_of_nil in H); apply list_elem_of_singleton in H as ->; done.
Qed.

Lemma listed_is_quotable e site c req t t' l item : healthy t → current_of_package (tx_db t) → quotes (tx_db t) !! next_id t = None →
  list_body site c req t = (t', Ok l) → item ∈ Packages l →
  ∃ m t2 r, Methods item = [m] ∧ quote_body e site c (ask req item m) t = (t2, Ok r) ∧ tx_aborted t2 = false ∧
    (QuoteID r = next_id t ∧ qres_Reason r = "ok" ∨ ∃ mode, qres_Reason r = TimeModeAcquirable mode (aggregateOnlineTime e) ∧ qres_Reason r ≠ "").
Proof.
  intros HT HD HN. unfold list_body. cbv zeta. intros H HI. apply healthy_bind in H as (ac & HA & H); [|apply reader_fetch|done].
  apply (unless_listed _ _ _ _ _ _ item) in H as [H1%negb_false_iff H]; [|done]. apply bool_decide_eq_true in H1.
  apply (unless_listed _ _ _ _ _ _ item) in H as [H2%negb_false_iff H]; [|done]. apply (unless_listed _ _ _ _ _ _ item) in H as [H3 H]; [|done].
  change (if decide (sj_Kind (Subject ac) = SubjectVoucher) then _ else _) with (candidates (lr_scope req) ac) in H.
  apply healthy_bind in H as (pkgs & HC & H); [|apply reader_candidates|done]. apply healthy_bind in H as ([items used] & HL & H); [|apply reader_items|done].
  injection H as _ <-. cbn in HI. destruct (items_sellable _ _ _ _ _ _ _ _ _ HT HL HI) as (pkg & display & HP & HE & HI').
  destruct (eval_sellable _ _ _ _ _ _ _ HT HE) as (cur & plan & anc & rules & prior & tiers & tier & snap & em & w & HS).
  unfold listed_item in HI'. destruct (applicableMethods pkg ac site) as [|m ms] eqn:EM; [by apply elem_of_nil in HI'|]. apply list_elem_of_singleton in HI' as ->.
  destruct (one_method pkg ac site m) as [EM' Hm]; [rewrite EM; by left|]. rewrite EM in EM'. injection EM' as ->. cbn.
  destruct (context_read _ _ _ _ HT HA) as (a & HA' & ->). set (rq := ask req (mkItem (PackageID pkg) display [m] (PriceMinor pkg) (Currency pkg) (CurrencyExponent pkg)) m).
  destruct (candidate_is_quoted c rq (context_row (lr_AuthContextID req) a) t pkgs pkg _ _ _ _ _ _ _ _ _ _ HT HD HC HP eq_refl HS) as [HQ HF].
  destruct (quote_run e site c rq _ t pkg m _ _ _ _ _ _ _ _ _ _ HT HN HA (ex_intro _ _ HA') H1 H2 H3 HQ HF EM Hm eq_refl HS) as (t2 & r & E1 & E2 & E3).
  exists m, t2, r. split; [done|]. split; [done|]. split; [done|]. destruct E3 as [E3|[E3 E4]]; [by left|right]. eauto.
Qed.

(** C19. What is listed can be had: a package in a guest's list names one method, and asking at
    once for a quote by it, with nothing changed in between and no statement lost, gives that
    quote; the only refusal left is that of a time mode that is not open to new
    acquisitions, which the list does not look at. *)
Theorem listed_packages_are_quotable e site c req t d l item :
  healthy t → current_of_package (tx_db t) → quotes (tx_db t) !! next_id t = None →
  ListEligiblePackages e site c req Committed t = (d, Ok l) → item ∈ Packages l →
  ∃ m d' r, Methods item = [m] ∧ CreateQuote e site c (ask req item m) Committed t = (d', Ok r) ∧
    (QuoteID r = next_id t ∧ qres_Reason r = "ok" ∨ ∃ mode, qres_Reason r = TimeModeAcquirable mode (aggregateOnlineTime e) ∧ qres_Reason r ≠ "").
Proof.
  intros HT HD HN. unfold ListEligiblePackages, CreateQuote. destruct (negb _); [by intros [= _ <-] ?%elem_of_nil|]. cbn [ask qr_TenantID qr_SiteID qr_AuthContextID qr_DeviceID qr_GuestNetworkID].
  destruct (_ || _); [done|]. unfold WithTx at 1. destruct (list_body _ c req t) as [t' [l'|]] eqn:EL; [|done]. intros H HI.
  assert (l' = l) as -> by (unfold commit in H; destruct (tx_aborted t'); by injection H).
  destruct (listed_is_quotable e (siteMethods site) c req t t' l item HT HD HN EL HI) as (m & t2 & r & HM & HQ & HB & HR).
  exists m, (tx_db t2), r. split; [done|]. unfold WithTx, commit. by rewrite HQ, HB.
Qed.
End offers.
