(* ===== verification/CommerceSample.v ===== *)
(** A shop on which the theorems about the package shop are applied: a free package and a
    card printed for a priced one, an account and a voucher that signed in, a published
    rule on the length of a stay. *)
From S2P Require Import Prelude GoStrings GoText GoAny Pg StayTables StayProofs Checkout CommerceRules CommerceRulesProofs CommerceTables CommerceFlow CommerceProofs CommerceHistory CommerceOffers.

Module CommerceSample.
#[local] Existing Instance ascii_unicode.
#[local] Instance parsed_times : PgTime := { timestamptz := ParseRFC3339 }.

(** ** A shop *)

Definition sc : scope := ("t", "s").
Definition noon : Time := days_of 2026 3 1 * 24 * Hour + 12 * Hour.
Definition clock : Clock := mkClock noon noon noon.
Definition engine : Engine := mkEngine (mkCommerceConfig true true false) (10 * Minute) false.

Definition one_hour : fields := [("end_mode", AStr "VALIDITY_WINDOW"); ("duration_seconds", ANumber "3600")].
Definition free_rules : list EligibilityRule := [mkRule "SUBJECT_KIND" (Some [("kinds", AList [AStr "ACCOUNT"; AStr "PRINCIPAL"])])].

Definition signed_in (account voucher : option string) (method : string) : AuthContext :=
  mkAuthContext sc method None account voucher None None "dev" "net" (noon + 5 * Minute) None None.

Definition revision (package : string) (price : Z) (methods : list string) : Revision :=
  mkRevision sc package "plan" "STANDARD" price (Some "USD") (Some 2) methods None None None (Some one_hour) None.

Definition stock : SDB := mkSDB
  {["c1" := signed_in (Some "acc") None "ACCOUNT"; "c2" := signed_in None (Some "card") "voucher"]}
  ∅ ∅ ∅ ∅ ∅
  {["card" := mkVoucher sc "r2" "UNUSED" None None]}
  {["p1" := mkPackage sc (Some "r1") true "A"; "p2" := mkPackage sc (Some "r2") true "B"]}
  {["r1" := revision "p1" 0 ["NOT_REQUIRED"]; "r2" := revision "p2" 500 ["PREPAID"; "ONLINE_PAYMENT"]]}
  {["r1" := free_rules]}
  {["r1" := [mkTier 1 []]; "r2" := [mkTier 1 [("down_kbps", ANumber "20000")]]]}
  {["plan" := (sc, mkPlan "plan" 10000 5000 2 0 0 "")]}
  ∅ [] [].

Definition begin (d : SDB) (n : positive) : tx SDB := mkTx d false [] (λ k, n + Pos.of_succ_nat k)%positive 0.

Definition asks (context package : string) : QuoteRequest := mkQuoteRequest "t" "s" context package "dev" "net" "".
Definition quote (d : SDB) (n : positive) (context package : string) : SDB * res error QuoteResult :=
  CreateQuote engine None clock (asks context package) Committed (begin d n).
Definition quote_id (r : res error QuoteResult) : string := match r with Ok x => QuoteID x | Err _ => "" end.
Definition confirms (id : string) : ConfirmRequest := mkConfirmRequest "t" "s" id "dev" "net".
Definition confirm (d : SDB) (n : positive) (id : string) : SDB * res error PurchaseResult :=
  ConfirmPurchase engine None clock (confirms id) Committed (begin d n).

(** The account takes the free package, the voucher client redeems the card. *)
Definition free_quote := quote stock 100 "c1" "p1".
Definition free_bought := confirm free_quote.1 200 (quote_id free_quote.2).
Definition card_quote := quote free_bought.1 300 "c2" "".
Definition card_bought := confirm card_quote.1 400 (quote_id card_quote.2).
Definition sold : SDB := card_bought.1.

(** ** Its history *)

Lemma sold_history : shop card_quote.1 ∧ shop sold.
Proof.
  assert (H0 : shop stock) by (by apply shop_opens).
  assert (H1 : shop free_quote.1) by (by apply (shop_quote (begin stock 100) engine None clock (asks "c1" "p1") Committed _ free_quote.2); [|apply surjective_pairing]).
  assert (H2 : shop free_bought.1) by (by apply (shop_confirm (begin free_quote.1 200) engine None clock (confirms (quote_id free_quote.2)) Committed _ free_bought.2); [|apply surjective_pairing]).
  assert (H3 : shop card_quote.1) by (by apply (shop_quote (begin free_bought.1 300) engine None clock (asks "c2" "") Committed _ card_quote.2); [|apply surjective_pairing]).
  split; [done|]. by apply (shop_confirm (begin card_quote.1 400) engine None clock (confirms (quote_id card_quote.2)) Committed _ card_bought.2); [|apply surjective_pairing].
Qed.

(** Staff reset the card's package: the rows that admin_reset_package adds, a purchase
    without a quote and an entitlement of the same card. *)
Definition card_ent : string * Ent :=
  default ("", granted_ent noon sc "" (mkOwner None None None None None) None (mkSnapshot 0 "" "" 0 0 0 0 "" 0 0 0 0 "" "" "" None "" 0) "" "" None None)
    (head (filter (λ ke, of_voucher (en_owner ke.2) = Some "card") (map_to_list (granted sold)))).
Definition reset_of (old : string) (e : Ent) (d : SDB) : SDB :=
  set_granted (set_bought d (<["reset" := mkPurchase sc (en_revision e) None (Some "c2") None None "ADMIN_GRANT" 0 None None "GRANTED"]> (bought d)))
    (<["again" := mkEnt sc (en_owner e) None "reset" (en_snapshot e) (en_plan e) (en_revision e) (en_mode e) (en_end_mode e) (en_window e) ACTIVE None
         (Some old) (Some noon) None (en_quota e)]> (<[old := superseded_as noon e]> (granted d))) (trail d).
Definition reset : SDB := reset_of card_ent.1 card_ent.2 sold.

Lemma reset_outside old e d : bought d !! "reset" = None → granted d !! "again" = None → granted d !! old = Some e → outside d (reset_of old e d).
Proof.
  intros HN HG HE. constructor; cbn [reset_of quotes contexts bought settled granted cards set_granted set_bought]; auto.
  - intros k p Hp. exists (pu_state p). rewrite with_same_state, lookup_insert_ne; [done|]. congruence.
  - intros k p [[<- <-]|[_ Hp]]%lookup_insert_Some HNk; [|congruence]. intros [H _]. by destruct H.
  - intros sid n Hn. by exists n.
  - intros k e' [[<- <-]|[_ He]]%lookup_insert_Some.
    + right. split; [done|]. eexists. cbn [en_purchase]. rewrite lookup_insert_eq. split; [done|]. intros [H _]. by destruct H.
    + left. apply lookup_insert_Some in He as [[<- <-]|[_ He]]; [by exists e|by exists e'].
  - intros v c Hc Hs. by exists c.
Qed.

Lemma reset_history : shop reset.
Proof. apply (shop_outside sold); [apply sold_history|]. apply reset_outside; vm_compute; reflexivity. Qed.


Lemma confirmation_is_whole_witness : ∃ q a sid x, confirmed clock (confirms (quote_id card_quote.2)) q a sid card_quote.1 x sold ∧ EntitlementID x ≠ "".
Proof.
  destruct (confirmation_is_whole engine None clock (confirms (quote_id card_quote.2)) Committed (begin card_quote.1 400) sold card_bought.2) as [[_ H]|(q & a & sid & x & H & HR)].
  - apply ok_fk, shop_is_ok, (proj1 sold_history).
  - apply surjective_pairing.
  - destruct card_bought.2 as [x|e] eqn:E; [|vm_compute in E; discriminate E]. destruct (H x eq_refl) as [HP _]. vm_compute in E. injection E as <-. discriminate HP.
  - exists q, a, sid, x. split; [exact H|]. destruct HR as [HR|HR]; vm_compute in HR; [injection HR as <-; discriminate|discriminate HR].
Defined.

(** ** Its list *)

Definition lists (context : string) : PackageListRequest := mkListRequest "t" "s" context "dev" "net".
Definition listing := ListEligiblePackages engine None clock (lists "c1") Committed (begin stock 100).
Definition shown : PackageListResult := match listing.2 with Ok l => l | Err _ => listDeny "" end.
Definition free_item : PackageListItem := match Packages shown with i :: _ => i | [] => mkItem "" [] [] 0 "" 0 end.

Lemma stock_current : current_of_package stock.
Proof.
  intros id pk rid rv. cbn [stock packages]. intros H1 H2 H3. apply lookup_insert_Some in H1 as [[<- <-]|[_ H1]].
  - injection H2 as <-. vm_compute in H3. injection H3 as <-. done.
  - apply lookup_singleton_Some in H1 as [<- <-]. injection H2 as <-. vm_compute in H3. injection H3 as <-. done.
Qed.

Lemma listed_packages_are_quotable_witness : it_PackageID free_item = "p1" ∧ Methods free_item = ["NOT_REQUIRED"] ∧
  ∃ m d' r, Methods free_item = [m] ∧ CreateQuote engine None clock (ask (lists "c1") free_item m) Committed (begin stock 100) = (d', Ok r) ∧
    (QuoteID r = next_id (begin stock 100) ∧ qres_Reason r = "ok" ∨ ∃ mode, qres_Reason r = TimeModeAcquirable mode false ∧ qres_Reason r ≠ "").
Proof.
  split; [vm_compute; reflexivity|]. split; [vm_compute; reflexivity|].
  apply (listed_packages_are_quotable engine None clock (lists "c1") (begin stock 100) listing.1 shown free_item).
  - split; reflexivity.
  - apply stock_current.
  - vm_compute. reflexivity.
  - vm_compute. reflexivity.
  - unfold free_item. vm_compute. left.
Defined.

(** ** A published rule *)

Definition two_nights : EligibilityRule := mkRule "STAY_LENGTH" (Some [("min_nights", ANumber "2")]).
Definition stored : fields := [("min_nights", AFloat 1 1)].
Definition staying (nights : Z) : EligibilitySubject :=
  mkEligibilitySubject noon "PMS" "STAY" "net" false "" []
    (Some (mkStayEvidence "i" "IN_HOUSE" "" "" "" None (Some noon) (Some (noon + nights * 24 * Hour)) 1)).

Lemma published_rules_are_answered_witness :
  evalTypedCondition "STAY_LENGTH" stored (staying 3) = Ok () ∧ evalTypedCondition "STAY_LENGTH" stored (staying 1) = Err "stay_shorter_than_min"
  ∧ ∀ s why, evalTypedCondition "STAY_LENGTH" stored s = Err why → why ∈ guest_reasons.
Proof.
  split; [vm_compute; reflexivity|]. split; [vm_compute; reflexivity|]. intros s.
  apply (published_rules_are_answered two_nights [("min_nights", ANumber "2")] stored s); [reflexivity|vm_compute; reflexivity|].
  intros k. cbn. destruct (decide ("min_nights" = k)); constructor. constructor. intros n H _. vm_compute in H. injection H as <-. reflexivity.
Defined.
End CommerceSample.
