(* ===== verification/PostingWire.v ===== *)
(** The bytes of a room charge (data-plane/internal/posting: errors.go,
    fias.go, the wire rules of evidence.go, transport.go [pnOfBody];
    internal/postinghandoff [Request.Validate], [PNumberOf]): the PS record that
    asks the PMS to charge a folio, and the PA record that answers it. *)
From stdpp Require Import pretty.
From S2P Require Import Prelude GoStrings GoText.

(** ** Errors (errors.go)

    A refusal is its code; the message is for people. *)
Abbreviation Code := string (only parsing).
Definition ErrConfig : Code := "config".
Definition ErrRepo : Code := "repository".
Definition ErrPostingTargetUnset : Code := "posting_target_unset".
Definition ErrReservationMismatch : Code := "reservation_mismatch".
Definition ErrStayChargeOpen : Code := "stay_room_charge_unresolved".
Definition ErrRNMissing : Code := "rn_missing".
Definition ErrGNumberMissing : Code := "g_number_missing".
Definition ErrRNNotWireSafe : Code := "rn_not_wire_safe".
Definition ErrGNumberNotWireSafe : Code := "g_number_not_wire_safe".
Definition ErrStayNotInHouse : Code := "stay_not_in_house".
Definition ErrPostingNotAllowed : Code := "posting_not_allowed".
Definition ErrEvidenceStale : Code := "evidence_stale".
Definition ErrEvidenceOutOfScope : Code := "evidence_out_of_scope".
Definition ErrInterfaceNoCurrency : Code := "interface_currency_not_onboarded".
Definition ErrCurrencyMismatch : Code := "currency_mismatch".
Definition ErrExponentMismatch : Code := "currency_exponent_mismatch".
Definition ErrAmountInvalid : Code := "amount_invalid".
Definition ErrInterfaceInactive : Code := "interface_not_accepting_work".
Definition ErrInterfaceDecomm : Code := "interface_decommissioned".
Definition ErrInterfaceNotFresh : Code := "interface_not_fresh".
Definition ErrFIASExponent : Code := "fias_exponent_unsupported".
Definition ErrDarkNoEgress : Code := "dark_no_egress".
Definition ErrRetryNotAuthed : Code := "retry_not_authorized".
Definition ErrPACorrelation : Code := "pa_correlation_failed".
Definition ErrPAStatusUnknown : Code := "pa_status_not_in_catalog".
Definition ErrPAAmbiguous : Code := "pa_ambiguous".
Definition ErrPAWrongPNumber : Code := "pa_wrong_p_number".
Definition ErrUnknownTerminal : Code := "unknown_requires_manual_review".
Definition ErrWireFieldInvalid : Code := "wire_field_invalid".
Definition ErrTransportUnavailable : Code := "transport_unavailable".

(** ** Fields *)

Definition maxWireField : Z := 32.
Definition maxCTLen : Z := 20.
Definition FIASCurrencyExponent : Z := 2.
Definition bar : Ascii.ascii := Ascii.ascii_of_nat 124.  (* | *)

(** Bytes FIAS framing would eat. *)
Definition wire_byte (b : Z) : bool := negb ((b <? 32) || (b =? 127)%Z || (b =? 124)%Z).
Definition wireUnsafe (v : string) : bool := negb (all_bytes wire_byte v).

(** ** PS *)

Definition RecordPS : string := "PS".
Definition RecordPA : string := "PA".
Definition fixedPostingType : string := "D".
Definition fixedSource : string := "WIFI".
Definition fixedWorkstation : string := "STAYCONNECT".

Record PSRequest := mkPSRequest {
  ps_RN : string;
  ps_GNumber : string;
  ps_AmountMinor : Z;
  ps_PostingCode : string;
  ps_PNumber : Z
}.

Definition ps_body (rn g ta ct pn : string) : string :=
  RecordPS +:+ "|RN" +:+ rn +:+ "|G#" +:+ g +:+ "|TA" +:+ ta +:+ "|PT" +:+ fixedPostingType
  +:+ "|SO" +:+ fixedSource +:+ "|CT" +:+ ct +:+ "|P#" +:+ pn +:+ "|WS" +:+ fixedWorkstation +:+ "|".

Definition BuildPS (r : PSRequest) : res Code string :=
  if blank (ps_RN r) || wireUnsafe (ps_RN r) || (maxWireField <? len (ps_RN r)) then Err ErrWireFieldInvalid
  else if blank (ps_GNumber r) || wireUnsafe (ps_GNumber r) || (maxWireField <? len (ps_GNumber r))
  then Err ErrWireFieldInvalid
  else if ps_AmountMinor r <=? 0 then Err ErrAmountInvalid
  else
    let ct := TrimSpace (ps_PostingCode r) in
    if empty ct || wireUnsafe ct || (maxCTLen <? len ct) then Err ErrWireFieldInvalid
    else if ps_PNumber r <=? 0 then Err ErrWireFieldInvalid
    else Ok (ps_body (ps_RN r) (ps_GNumber r) (pretty (ps_AmountMinor r)) ct (pretty (ps_PNumber r))).

(** transport.go. *)
Definition pnOfBody (body : string) : Z :=
  match after_tag "|P#" body with
  | None => 0
  | Some rest => read_digits 0 rest
  end.

(** ** The hand-off's reading of a PS *)

Definition two_bytes (tok : string) : option (string * string) :=
  match tok with
  | String a (String b rest) => Some (String a (String b EmptyString), rest)
  | _ => None
  end.

Fixpoint pnumber_tokens (toks : list string) (n found : Z) : option (Z * Z) :=
  match toks with
  | [] => Some (n, found)
  | tok :: toks' =>
      match two_bytes tok with
      | Some (id, v) =>
          if decide (id = "P#") then
            if empty v || (18 <? len v) || negb (all_digits v) then None
            else pnumber_tokens toks' (read_digits 0 v) (found + 1)
          else pnumber_tokens toks' n found
      | None => pnumber_tokens toks' n found
      end
  end.

Definition PNumberOf (body : string) : Z :=
  match pnumber_tokens (tail (split_on bar body)) 0 0 with
  | Some (n, 1) => n
  | _ => 0
  end.

Definition MaxBody : Z := 512.
Definition ProtocolVersion : Z := 1.

Section request.
Context (sha256_hex : string → string).

Record Request := mkRequest {
  rq_Version : Z;
  rq_InterfaceID : string;
  rq_PNumber : Z;
  rq_Body : string;
  rq_BodySHA256 : string
}.

Definition request_Validate (r : Request) : bool :=
  (rq_Version r =? ProtocolVersion)%Z
  && negb (blank (rq_InterfaceID r) || (64 <? len (rq_InterfaceID r)))
  && (0 <? rq_PNumber r)
  && negb ((len (rq_Body r) <? 4) || (MaxBody <? len (rq_Body r)) || negb (HasPrefix (rq_Body r) "PS|")
           || negb (HasSuffix (rq_Body r) "|"))
  && all_bytes (λ b, negb ((b <? 32) || (b =? 127)%Z)) (rq_Body r)
  && bool_decide (rq_BodySHA256 r = sha256_hex (rq_Body r))
  && (PNumberOf (rq_Body r) =? rq_PNumber r)%Z.
End request.

(** ** PA *)

Definition asCatalog : list string := ["OK"; "NG"; "NA"; "NP"; "NR"; "RY"; "UR"].

Record PA := mkPA { pa_PNumber : Z; AS : string; Raw : string }.

Definition Posted (a : PA) : bool := bool_decide (AS a = "OK").

(** The P# and AS fields of the answer: [None] when one is stated twice with
    different values. *)
Fixpoint pa_fields (toks : list string) (pn as_ : option string) : option (option string * option string) :=
  match toks with
  | [] => Some (pn, as_)
  | tok :: toks' =>
      match two_bytes tok with
      | None => pa_fields toks' pn as_
      | Some (id, v) =>
          if decide (id = "P#") then
            match pn with
            | Some old => if decide (v ≠ old) then None else pa_fields toks' (Some v) as_
            | None => pa_fields toks' (Some v) as_
            end
          else if decide (id = "AS") then
            match as_ with
            | Some old => if decide (v ≠ old) then None else pa_fields toks' pn (Some v)
            | None => pa_fields toks' pn (Some v)
            end
          else pa_fields toks' pn as_
      end
  end.

Definition ParsePA (body : string) : res Code PA :=
  match strip_prefix RecordPA body with
  | None => Err ErrPACorrelation
  | Some rest =>
      match pa_fields (split_on bar rest) None None with
      | None => Err ErrPAAmbiguous
      | Some (pn, as_) =>
          if empty (default "" pn) then Err ErrPACorrelation
          else match ParseInt (default "" pn) with
          | None => Err ErrPACorrelation
          | Some n =>
              if n <=? 0 then Err ErrPACorrelation
              else match as_ with
              | None => Err ErrPAStatusUnknown
              | Some a => if decide (a ∈ asCatalog) then Ok (mkPA n a body) else Err ErrPAStatusUnknown
              end
          end
      end
  end.

(** ** The record read back *)

Definition ps_fields (rn g ta ct pn : string) : list string :=
  ["PS"; "RN" +:+ rn; "G#" +:+ g; "TA" +:+ ta; "PTD"; "SOWIFI"; "CT" +:+ ct; "P#" +:+ pn;
   "WSSTAYCONNECT"; ""].

Lemma ps_body_Join rn g ta ct pn : ps_body rn g ta ct pn = Join bar (ps_fields rn g ta ct pn).
Proof. reflexivity. Qed.

Lemma wireUnsafe_lacks v : wireUnsafe v = false → lacks bar v = true.
Proof. unfold wireUnsafe. intros H. zify_guards. by apply (all_bytes_lacks wire_byte). Qed.

Lemma pretty_lacks_bar (z : Z) : lacks bar (pretty z) = true.
Proof.
  apply lacks_pretty_Z; [done|]. intros d. unfold pretty_N_char. repeat case_match; discriminate.
Qed.

Lemma ps_fields_lack rn g ta ct pn :
  lacks bar rn = true → lacks bar g = true → lacks bar ta = true → lacks bar ct = true →
  lacks bar pn = true → Forall (λ f, lacks bar f = true) (ps_fields rn g ta ct pn).
Proof. intros. unfold ps_fields. repeat constructor; try done; by rewrite lacks_app, andb_true_iff. Qed.

Lemma split_ps rn g ta ct pn :
  lacks bar rn = true → lacks bar g = true → lacks bar ta = true → lacks bar ct = true →
  lacks bar pn = true → split_on bar (ps_body rn g ta ct pn) = ps_fields rn g ta ct pn.
Proof. intros. rewrite ps_body_Join. by apply split_on_Join, ps_fields_lack. Qed.

(** The next field is not the tag. *)
Lemma after_tag_field f id v s :
  two_bytes f = Some (id, v) → id ≠ "P#" → lacks bar f = true →
  after_tag (String bar "P#") (String bar (f +:+ s)) = after_tag (String bar "P#") s.
Proof.
  intros Hf Hne Hl. destruct f as [|a [|b f]]; [done..|]. cbn in Hf. injection Hf as <- <-.
  assert (Hs : strip_prefix (String bar "P#") (String bar (String a (String b f) +:+ s)) = None).
  { change (strip_prefix "P#" (String a (String b (f +:+ s))) = None). cbn [strip_prefix].
    destruct (decide _) as [<-|]; [|done]. destruct (decide _) as [<-|]; [|done]. done. }
  rewrite <- (after_tag_skip bar "P#" (String a (String b f)) s Hl).
  set (t := String a (String b f) +:+ s) in *. clearbody t. cbn [after_tag]. by rewrite Hs.
Qed.

Lemma pnOfBody_ps rn g ta ct z :
  lacks bar rn = true → lacks bar g = true → lacks bar ta = true → lacks bar ct = true → 0 < z < two63 →
  pnOfBody (ps_body rn g ta ct (pretty z)) = z.
Proof.
  intros Hrn Hg Hta Hct Hz. unfold pnOfBody. rewrite ps_body_Join. change "|P#" with (String bar "P#").
  assert (HF := ps_fields_lack rn g ta ct (pretty z) Hrn Hg Hta Hct (pretty_lacks_bar z)).
  unfold Join, ps_fields in *. rewrite !Forall_cons in HF. destruct HF as (H0 & H1 & H2 & H3 & H4 & H5 & H6 & _).
  rewrite (after_tag_skip bar "P#" "PS") by done. cbn [foldr].
  rewrite (after_tag_field ("RN" +:+ rn) "RN" rn), (after_tag_field ("G#" +:+ g) "G#" g),
    (after_tag_field ("TA" +:+ ta) "TA" ta), (after_tag_field "PTD" "PT" "D"),
    (after_tag_field "SOWIFI" "SO" "WIFI"), (after_tag_field ("CT" +:+ ct) "CT" ct) by done.
  change (read_digits 0 (pretty z +:+ String bar ("WSSTAYCONNECT" +:+ String bar "")) = z).
  by rewrite read_digits_pretty.
Qed.

Lemma pnumber_skip tok id v toks n found :
  two_bytes tok = Some (id, v) → id ≠ "P#" →
  pnumber_tokens (tok :: toks) n found = pnumber_tokens toks n found.
Proof. intros E Hne. cbn [pnumber_tokens]. rewrite E. by destruct (decide (id = "P#")). Qed.

Lemma pnumber_here z toks n found :
  0 < z < 10 ^ 18 →
  pnumber_tokens (("P#" +:+ pretty z) :: toks) n found = pnumber_tokens toks z (found + 1).
Proof.
  intros Hz. cbn [pnumber_tokens]. change (two_bytes ("P#" +:+ pretty z)) with (Some ("P#", pretty z)).
  cbn beta iota. destruct (decide ("P#" = "P#")); [|done].
  rewrite (proj2 (empty_false _)) by (apply pretty_ne; lia).
  rewrite (proj2 (Z.ltb_ge 18 _)) by (by apply (len_pretty 18)).
  rewrite all_digits_pretty by lia. cbn [orb negb].
  by rewrite <- (append_nil_r (pretty z)), read_digits_pretty by (unfold two63; lia).
Qed.

Lemma PNumberOf_ps rn g ta ct z :
  lacks bar rn = true → lacks bar g = true → lacks bar ta = true → lacks bar ct = true →
  0 < z < 10 ^ 18 → PNumberOf (ps_body rn g ta ct (pretty z)) = z.
Proof.
  intros. unfold PNumberOf. rewrite split_ps by (done || apply pretty_lacks_bar).
  unfold ps_fields. cbn [tail].
  rewrite (pnumber_skip ("RN" +:+ rn) "RN" rn), (pnumber_skip ("G#" +:+ g) "G#" g),
    (pnumber_skip ("TA" +:+ ta) "TA" ta), (pnumber_skip "PTD" "PT" "D"), (pnumber_skip "SOWIFI" "SO" "WIFI"),
    (pnumber_skip ("CT" +:+ ct) "CT" ct), pnumber_here, (pnumber_skip "WSSTAYCONNECT" "WS" "STAYCONNECT") by done.
  done.
Qed.

(** Bytes a record may carry. *)
Definition printable (b : Z) : bool := negb ((b <? 32) || (b =? 127)%Z).

Lemma wireUnsafe_printable v : wireUnsafe v = false → all_bytes printable v = true.
Proof.
  unfold wireUnsafe. intros H. zify_guards. eapply all_bytes_impl; [|exact H].
  unfold wire_byte, printable. intros b Hb. zify_guards. apply negb_true_iff, orb_false_iff. lia.
Qed.

Lemma pretty_printable z : 0 < z → all_bytes printable (pretty z) = true.
Proof.
  intros Hz. eapply all_bytes_impl; [|exact (all_digits_pretty z Hz)].
  unfold in_range, printable. intros b Hb. zify_guards. apply negb_true_iff, orb_false_iff. lia.
Qed.

Lemma len_pretty_int64 z : 0 < z < two63 → len (pretty z) ≤ 19.
Proof. intros Hz. apply (len_pretty 19). unfold two63 in Hz. lia. Qed.

(** What a record that was built consists of. *)
Lemma BuildPS_Ok r b :
  BuildPS r = Ok b →
  let ct := TrimSpace (ps_PostingCode r) in
  b = ps_body (ps_RN r) (ps_GNumber r) (pretty (ps_AmountMinor r)) ct (pretty (ps_PNumber r)) ∧
  wireUnsafe (ps_RN r) = false ∧ wireUnsafe (ps_GNumber r) = false ∧ wireUnsafe ct = false ∧
  len (ps_RN r) ≤ 32 ∧ len (ps_GNumber r) ≤ 32 ∧ len ct ≤ 20 ∧ 0 < ps_AmountMinor r ∧ 0 < ps_PNumber r.
Proof.
  unfold BuildPS. intros H. passed H. injection H as <-. unfold maxWireField, maxCTLen in *. by split_and!.
Qed.

(** A built PS, read by the transport guard and by the hand-off. *)
Lemma built_ps_read (sha256_hex : string → string) (r : PSRequest) (b iface : string) :
  BuildPS r = Ok b → ps_AmountMinor r < two63 → ps_PNumber r < 10 ^ 18 →
  blank iface = false → len iface ≤ 64 →
  split_on bar b = ps_fields (ps_RN r) (ps_GNumber r) (pretty (ps_AmountMinor r))
                     (TrimSpace (ps_PostingCode r)) (pretty (ps_PNumber r)) ∧
  pnOfBody b = ps_PNumber r ∧ PNumberOf b = ps_PNumber r ∧
  request_Validate sha256_hex (mkRequest ProtocolVersion iface (ps_PNumber r) b (sha256_hex b)) = true.
Proof.
  intros (Hb & Hrn & Hg & Hct & Lrn & Lg & Lct & Ha & Hp)%BuildPS_Ok Ha63 Hp18 Hi Li. cbn zeta in *.
  pose proof (wireUnsafe_lacks _ Hrn) as Brn. pose proof (wireUnsafe_lacks _ Hg) as Bg.
  pose proof (wireUnsafe_lacks _ Hct) as Bct. pose proof (pretty_lacks_bar (ps_AmountMinor r)) as Bta.
  assert (HP : PNumberOf b = ps_PNumber r) by (rewrite Hb; by apply PNumberOf_ps).
  split_and!; [rewrite Hb; apply split_ps; try done; apply pretty_lacks_bar
              |rewrite Hb; apply pnOfBody_ps; try done; unfold two63; lia|done|].
  unfold request_Validate. cbn [rq_Version rq_InterfaceID rq_PNumber rq_Body rq_BodySHA256].
  rewrite HP, Hi, Z.eqb_refl, (proj2 (Z.ltb_ge 64 (len iface))) by lia.
  rewrite (proj2 (Z.ltb_lt 0 _)), bool_decide_true by done. rewrite Z.eqb_refl.
  assert (Hlen : 4 ≤ len b ≤ MaxBody).
  { pose proof (len_pretty_int64 (ps_AmountMinor r)). pose proof (len_pretty 18 (ps_PNumber r)).
    rewrite Hb. unfold ps_body, MaxBody. rewrite !len_app.
    unfold len in *. cbn. lia. }
  rewrite (proj2 (Z.ltb_ge (len b) 4)), (proj2 (Z.ltb_ge MaxBody (len b))) by lia.
  assert (HS : HasSuffix b "|" = true).
  { rewrite Hb. unfold ps_body. rewrite <- !append_assoc. apply HasSuffix_app. }
  assert (HC : all_bytes printable b = true).
  { rewrite Hb. unfold ps_body. rewrite !all_bytes_app.
    rewrite (wireUnsafe_printable _ Hrn), (wireUnsafe_printable _ Hg), (wireUnsafe_printable _ Hct),
      !pretty_printable by done. done. }
  rewrite HS. unfold printable in HC. rewrite HC, Hb. done.
Qed.

(** What the engine sends is what the PMS side reads.  Every PS the
    engine builds splits at the separator into exactly its ten fields (room,
    reservation, amount, fixed type and source, posting code, attempt reference,
    workstation) whatever bytes the values carry; both readers of the reference
    (the transport guard's and the hand-off's) find the allocated P#, and the
    hand-off accepts the command. *)
Theorem ps_command_readable (sha256_hex : string → string) (r : PSRequest) (b iface : string) :
  BuildPS r = Ok b → ps_AmountMinor r < two63 → ps_PNumber r < 10 ^ 18 →
  blank iface = false → len iface ≤ 64 →
  split_on bar b = ps_fields (ps_RN r) (ps_GNumber r) (pretty (ps_AmountMinor r))
                     (TrimSpace (ps_PostingCode r)) (pretty (ps_PNumber r)) ∧
  pnOfBody b = ps_PNumber r ∧ PNumberOf b = ps_PNumber r ∧
  request_Validate sha256_hex (mkRequest ProtocolVersion iface (ps_PNumber r) b (sha256_hex b)) = true.
Proof. apply built_ps_read. Qed.

(** ** The answer *)

(** The values a record states under one field id. *)
Definition values (id : string) (toks : list string) : list string :=
  omap (λ tok, match two_bytes tok with
               | Some (i, v) => if decide (i = id) then Some v else None
               | None => None
               end) toks.

(** One value after another, none contradicting the first. *)
Fixpoint agree (old : option string) (vs : list string) : option (option string) :=
  match vs with
  | [] => Some old
  | v :: vs' =>
      match old with
      | Some o => if decide (v ≠ o) then None else agree (Some v) vs'
      | None => agree (Some v) vs'
      end
  end.

Lemma pa_fields_agree toks pn as_ :
  pa_fields toks pn as_ =
  match agree pn (values "P#" toks), agree as_ (values "AS" toks) with
  | Some p, Some a => Some (p, a)
  | _, _ => None
  end.
Proof.
  revert pn as_. induction toks as [|tok toks IH]; intros pn as_; [done|].
  cbn [pa_fields]. unfold values. cbn [omap list_omap]. fold (values "P#" toks) (values "AS" toks).
  destruct (two_bytes tok) as [[i v]|]; [|by rewrite IH].
  destruct (decide (i = "P#")) as [->|].
  - rewrite decide_False by done. cbn [agree].
    destruct pn as [o|]; [destruct (decide (v ≠ o)); [done|]|]; by rewrite IH.
  - destruct (decide (i = "AS")) as [->|]; [|by rewrite IH]. cbn [agree].
    destruct as_ as [o|]; [destruct (decide (v ≠ o)); [by destruct (agree pn _)|]|]; by rewrite IH.
Qed.

Lemma agree_Some old vs r :
  agree old vs = Some r ↔
  (vs = [] ∧ r = old) ∨
  (∃ v, r = Some v ∧ vs ≠ [] ∧ Forall (eq v) vs ∧ (old = None ∨ old = Some v)).
Proof.
  revert old r. induction vs as [|v vs IH]; intros old r; cbn [agree]; [naive_solver|].
  assert (Hs : ∀ r', agree (Some v) vs = Some r' ↔ r' = Some v ∧ Forall (eq v) vs).
  { intros r'. rewrite IH. split.
    - intros [[-> ->]|(u & -> & _ & HF & [?|[= ->]])]; done.
    - intros [-> HF]. destruct vs as [|w vs]; [by left|right]. exists v. split_and!; auto. }
  destruct old as [o|].
  - destruct (decide (v ≠ o)) as [Hne|Heq].
    + split; [done|]. intros [[? _]|(u & -> & _ & [-> _]%Forall_cons & [?|[= ->]])]; done.
    + apply dec_stable in Heq as ->. rewrite Hs. split.
      * intros [-> HF]. right. exists o. split_and!; auto.
      * intros [[? _]|(u & -> & _ & [-> HF]%Forall_cons & _)]; done.
  - rewrite Hs. split.
    + intros [-> HF]. right. exists v. split_and!; auto.
    + intros [[? _]|(u & -> & _ & [-> HF]%Forall_cons & _)]; done.
Qed.

Lemma agree_one vs v : agree None vs = Some (Some v) ↔ vs ≠ [] ∧ Forall (eq v) vs.
Proof. rewrite agree_Some. naive_solver. Qed.

(** Which answers count.  A PA is understood exactly when it starts with
    its record id and states one P#, a positive 64-bit integer, and one AS of the
    catalogue, however often each is repeated and whatever other fields (the room
    among them) it carries; the result is that P# and that status. *)
Theorem pa_understood_exactly (rest : string) (pa : PA) :
  ParsePA (RecordPA +:+ rest) = Ok pa ↔
  Raw pa = RecordPA +:+ rest ∧ AS pa ∈ asCatalog ∧ 0 < pa_PNumber pa ∧
  (values "AS" (split_on bar rest) ≠ [] ∧ Forall (eq (AS pa)) (values "AS" (split_on bar rest))) ∧
  ∃ p, ParseInt p = Some (pa_PNumber pa) ∧
       values "P#" (split_on bar rest) ≠ [] ∧ Forall (eq p) (values "P#" (split_on bar rest)).
Proof.
  unfold ParsePA. rewrite strip_prefix_app, pa_fields_agree, <- agree_one.
  setoid_rewrite <- agree_one. split.
  - destruct (agree None (values "P#" _)) as [pn|]; [|done].
    destruct (agree None (values "AS" _)) as [as_|]; [|done]. intros H. passed H.
    injection H as <-. cbn. split_and!; try done. destruct pn as [p|]; [by exists p|done].
  - intros (HR & HA & Hn & -> & p & Hp & ->). change (default "" (Some p)) with p.
    destruct (empty p) eqn:He; [by apply empty_true in He as ->|].
    rewrite Hp. destruct (Z.leb_spec (pa_PNumber pa) 0); [lia|].
    rewrite decide_True by done. destruct pa. cbn in *. by subst.
Qed.

Lemma ps_command_readable_witness :
  match BuildPS (mkPSRequest "1421" "88213" 1500 " WIFI " 42) with
  | Ok b => pnOfBody b = 42 ∧ request_Validate (λ s, s) (mkRequest ProtocolVersion "if-1" 42 b b) = true
  | Err _ => False
  end.
Proof.
  destruct (ps_command_readable (λ s, s) (mkPSRequest "1421" "88213" 1500 " WIFI " 42)
    "PS|RN1421|G#88213|TA1500|PTD|SOWIFI|CTWIFI|P#42|WSSTAYCONNECT|" "if-1") as (_ & H1 & _ & H2);
    [vm_compute; reflexivity|reflexivity|reflexivity|vm_compute; reflexivity|discriminate|].
  split; [exact H1|exact H2].
Defined.
