(* ===== verification/PostingGate.v ===== *)
(** The fail-closed gate of a room charge (data-plane/internal/posting:
    evidence.go [Pinned], [Snapshot]; gate.go).

    The snapshot is what one statement read of the pinned interface revision,
    purchase, package, stay and mapping; the gate decides on it alone. *)
From stdpp Require Import pretty.
From S2P Require Import Prelude GoStrings GoText PostingWire.

Record Pinned := mkPinned {
  p_TenantID : string;
  p_SiteID : string;
  PMSInterfaceID : string;
  PostingInterfaceRevisionID : string;
  StayID : string;
  SettlementID : string;
  p_AmountMinor : Z;
  Currency : string;
  CurrencyExponent : Z;
  RN : string;
  GNumber : string;
  PostingCode : string;
  ExpectStayLifecycleVersion : option Z;
  ExpectPurchaseState : string
}.

Record Snapshot := mkSnapshot {
  InterfaceLifecycleState : string;
  InterfaceCurrentRevision : string;
  PostingTargetModel : string;
  InterfaceCurrency : string;
  InterfaceExponent : option Z;
  PurchaseCurrency : string;
  PurchaseExponent : option Z;
  PurchaseState : string;
  PackageCurrency : string;
  PackageExponent : option Z;
  StayStatus : string;
  StayPostingAllowed : bool;
  StayLifecycleVersion : Z;
  StayRoomNumber : string;
  StayReservation : string;
  SettlementMappingRetired : bool;
  ConnectorKind : string;
  FreshnessBlock : string
}.

Inductive Purpose := PurposeCreate | PurposeExecute.
#[export] Instance Purpose_eq_dec : EqDecision Purpose.
Proof. solve_decision. Defined.

(** [None] allows. *)
Definition lifecycleAllows (state : string) (p : Purpose) : option Code :=
  if decide (state = "ACTIVE" ∨ state = "AUTH_DISABLED") then None
  else if decide (state = "DRAINING") then
    (if decide (p = PurposeExecute) then None else Some ErrInterfaceInactive)
  else if decide (state = "DECOMMISSIONED") then Some ErrInterfaceDecomm
  else Some ErrInterfaceInactive.

Definition matchCurrency (cur : string) (exp : option Z) (s : Snapshot) : option Code :=
  match exp with
  | None => Some ErrCurrencyMismatch
  | Some e =>
      if empty cur then Some ErrCurrencyMismatch
      else if decide (cur ≠ InterfaceCurrency s) then Some ErrCurrencyMismatch
      else if decide (Some e ≠ InterfaceExponent s) then Some ErrExponentMismatch
      else None
  end.

(** The first violation, [None] when there is none. *)
Definition CheckFor (purpose : Purpose) (p : Pinned) (s : Snapshot) : option Code :=
  match lifecycleAllows (InterfaceLifecycleState s) purpose with
  | Some c => Some c
  | None =>
  if decide (PostingTargetModel s ≠ "RESERVATION") then Some ErrPostingTargetUnset
  else if empty (InterfaceCurrency s) || bool_decide (InterfaceExponent s = None) then Some ErrInterfaceNoCurrency
  else if negb (empty (FreshnessBlock s)) then Some ErrInterfaceNotFresh
  else if negb (empty (InterfaceCurrentRevision s))
          && bool_decide (InterfaceCurrentRevision s ≠ PostingInterfaceRevisionID p) then Some ErrEvidenceStale
  else if SettlementMappingRetired s then Some ErrEvidenceStale
  else if match ExpectStayLifecycleVersion p with
          | Some v => negb (v =? StayLifecycleVersion s)%Z | None => false end then Some ErrEvidenceStale
  else if negb (empty (ExpectPurchaseState p)) && bool_decide (ExpectPurchaseState p ≠ PurchaseState s)
  then Some ErrEvidenceStale
  else if decide (StayStatus s ≠ "IN_HOUSE") then Some ErrStayNotInHouse
  else if negb (StayPostingAllowed s) then Some ErrPostingNotAllowed
  else if blank (GNumber p) then Some ErrGNumberMissing
  else if wireUnsafe (GNumber p) || (maxWireField <? len (GNumber p)) then Some ErrGNumberNotWireSafe
  else if decide (GNumber p ≠ StayReservation s) then Some ErrReservationMismatch
  else if blank (StayRoomNumber s) then Some ErrRNMissing
  else if wireUnsafe (StayRoomNumber s) || (maxWireField <? len (StayRoomNumber s)) then Some ErrRNNotWireSafe
  else if bool_decide (purpose = PurposeExecute) && bool_decide (RN p ≠ StayRoomNumber s) then Some ErrEvidenceStale
  else if blank (PostingCode p) || wireUnsafe (PostingCode p) || (maxWireField <? len (PostingCode p))
  then Some ErrWireFieldInvalid
  else if p_AmountMinor p <=? 0 then Some ErrAmountInvalid
  else if blank (Currency p) then Some ErrCurrencyMismatch
  else if decide (Currency p ≠ InterfaceCurrency s) then Some ErrCurrencyMismatch
  else if decide (Some (CurrencyExponent p) ≠ InterfaceExponent s) then Some ErrExponentMismatch
  else match matchCurrency (PurchaseCurrency s) (PurchaseExponent s) s with
  | Some c => Some c
  | None =>
  match matchCurrency (PackageCurrency s) (PackageExponent s) s with
  | Some c => Some c
  | None =>
  if bool_decide (ConnectorKind s = "protel-fias") && negb (CurrencyExponent p =? FIASCurrencyExponent)%Z
  then Some ErrFIASExponent
  else None
  end end end.

Definition Check (p : Pinned) (s : Snapshot) : option Code := CheckFor PurposeCreate p s.

(** The room is read again just before an attempt is built. *)
Definition with_room (p : Pinned) (rn : string) : Pinned :=
  mkPinned (p_TenantID p) (p_SiteID p) (PMSInterfaceID p) (PostingInterfaceRevisionID p) (StayID p)
    (SettlementID p) (p_AmountMinor p) (Currency p) (CurrencyExponent p) rn (GNumber p) (PostingCode p)
    (ExpectStayLifecycleVersion p) (ExpectPurchaseState p).

(** The PS of an attempt (engine.go). *)
Definition ps_of (p : Pinned) (pn : Z) : PSRequest :=
  mkPSRequest (RN p) (GNumber p) (p_AmountMinor p) (PostingCode p) pn.

(** ** Trimming keeps what it does not remove *)

Lemma strip_prefix_bytes p x s t : strip_prefix x s = Some t → all_bytes p s = true → all_bytes p t = true.
Proof.
  revert s. induction x as [|c x IH]; intros s; [by intros [= ->]|].
  destruct s as [|d s]; [done|]. cbn. destruct (decide (c = d)); [|done]. intros H ?. zify_guards. eauto.
Qed.

Lemma strip_one_bytes p xs s t : strip_one xs s = Some t → all_bytes p s = true → all_bytes p t = true.
Proof.
  induction xs as [|x xs IH]; [done|]. cbn. destruct (strip_prefix x s) eqn:E; [|done].
  intros [= <-]. by eapply strip_prefix_bytes.
Qed.

Lemma strip_all_bytes p xs n s : all_bytes p s = true → all_bytes p (strip_all xs n s) = true.
Proof.
  revert s. induction n as [|n IH]; intros s H; [done|]. cbn.
  destruct (strip_one xs s) eqn:E; [|done]. apply IH. by eapply strip_one_bytes.
Qed.

Lemma rev_string_bytes p s : all_bytes p s = true → all_bytes p (rev_string s) = true.
Proof.
  unfold rev_string. assert (H : ∀ acc, all_bytes p s = true → all_bytes p acc = true → all_bytes p (rev_app s acc) = true).
  { induction s as [|c s IH]; intros acc Hs Ha; [done|]. cbn in *. zify_guards. apply IH; [done|]. cbn.
    by rewrite H, Ha. }
  intros. by apply H.
Qed.

Lemma TrimSpace_bytes p s : all_bytes p s = true → all_bytes p (TrimSpace s) = true.
Proof. intros. unfold TrimSpace, TrimRightSpace, TrimLeftSpace. by apply rev_string_bytes, strip_all_bytes, rev_string_bytes, strip_all_bytes. Qed.

Lemma wireUnsafe_trim s : wireUnsafe s = false → wireUnsafe (TrimSpace s) = false.
Proof. unfold wireUnsafe. intros H. zify_guards. apply negb_false_iff. by apply TrimSpace_bytes. Qed.

(** ** What passing the gate establishes *)

(** One currency and one exponent, everywhere the amount is stated. *)
Definition one_currency (p : Pinned) (s : Snapshot) : Prop :=
  InterfaceCurrency s = Currency p ∧ PurchaseCurrency s = Currency p ∧ PackageCurrency s = Currency p ∧
  InterfaceExponent s = Some (CurrencyExponent p) ∧ PurchaseExponent s = Some (CurrencyExponent p) ∧
  PackageExponent s = Some (CurrencyExponent p).

Lemma matchCurrency_None cur exp s :
  matchCurrency cur exp s = None → cur = InterfaceCurrency s ∧ exp = InterfaceExponent s.
Proof.
  unfold matchCurrency. intros H. passed H.
  split; [by apply dec_stable|]. by apply dec_stable.
Qed.

Lemma CheckFor_None purpose p s :
  CheckFor purpose p s = None →
  one_currency p s ∧ 0 < p_AmountMinor p ∧
  StayStatus s = "IN_HOUSE" ∧ StayPostingAllowed s = true ∧ FreshnessBlock s = "" ∧
  GNumber p = StayReservation s ∧ blank (GNumber p) = false ∧ wireUnsafe (GNumber p) = false ∧
  len (GNumber p) ≤ maxWireField ∧
  blank (StayRoomNumber s) = false ∧ wireUnsafe (StayRoomNumber s) = false ∧
  len (StayRoomNumber s) ≤ maxWireField ∧
  blank (PostingCode p) = false ∧ wireUnsafe (PostingCode p) = false ∧
  (purpose = PurposeExecute → RN p = StayRoomNumber s) ∧
  (ConnectorKind s = "protel-fias" → CurrencyExponent p = FIASCurrencyExponent) ∧
  InterfaceLifecycleState s ≠ "DECOMMISSIONED".
Proof.
  unfold CheckFor. intros H. passed H.
  match goal with H : matchCurrency (PurchaseCurrency _) _ _ = None |- _ => apply matchCurrency_None in H as [HC1 HE1] end.
  match goal with H : matchCurrency (PackageCurrency _) _ _ = None |- _ => apply matchCurrency_None in H as [HC2 HE2] end.
  repeat match goal with H : ¬ (_ ≠ _) |- _ => apply dec_stable in H end.
  match goal with H : empty (FreshnessBlock s) = true |- _ => apply empty_true in H end.
  unfold one_currency. split_and!; try done; try congruence.
  - intros ->. match goal with H : bool_decide _ && bool_decide (RN p ≠ _) = false |- _ => rename H into HR end.
    rewrite bool_decide_true in HR by done. cbn in HR. zify_guards. by apply dec_stable.
  - intros Hk. match goal with H : bool_decide (ConnectorKind s = _) && _ = false |- _ => rename H into HK end.
    rewrite bool_decide_true in HK by done. cbn in HK. by zify_guards.
  - intros Hd. match goal with H : lifecycleAllows _ _ = None |- _ => rename H into HL end.
    rewrite Hd in HL. by vm_compute in HL.
Qed.

Lemma gate_builds_ps p s pn :
  CheckFor PurposeExecute p s = None → 0 < pn → len (TrimSpace (PostingCode p)) ≤ maxCTLen →
  BuildPS (ps_of p pn) = Ok (ps_body (StayRoomNumber s) (StayReservation s) (pretty (p_AmountMinor p))
                              (TrimSpace (PostingCode p)) (pretty pn)).
Proof.
  intros (HC & Ha & Hst & Hpo & Hf & Hg & Hgb & Hgw & Hgl & Hrb & Hrw & Hrl & Hcb & Hcw & Hrn & Hx & Hd)%CheckFor_None
    Hpn Hct. specialize (Hrn eq_refl).
  unfold BuildPS, ps_of, blank in *. cbn [ps_RN ps_GNumber ps_AmountMinor ps_PostingCode ps_PNumber].
  rewrite Hrn, Hrb, Hrw, Hg in *. rewrite Hgb, Hgw, Hcb, (wireUnsafe_trim _ Hcw).
  rewrite !(proj2 (Z.ltb_ge _ _)) by lia. rewrite !(proj2 (Z.leb_gt _ _)) by lia. done.
Qed.

(** A charge the gate admits is the charge the guest accepted, and it can
    be sent.  Whatever evidence the gate passes before an attempt: interface,
    purchase, package and posting agree on one currency and exponent (2 on FIAS),
    so no conversion is implied; the stay is in house, allows posting and its data
    is fresh; the reservation is the stay's own and the room its current one.
    For a posting code of at most 20 bytes the PS can then be built for every
    attempt reference, and evidence admitted for creation is admitted for
    execution in the reservation's current room. *)
Theorem gate_admits_exact_charge (p : Pinned) (s : Snapshot) (pn : Z) :
  CheckFor PurposeExecute p s = None → 0 < pn → len (TrimSpace (PostingCode p)) ≤ maxCTLen →
  one_currency p s ∧ (ConnectorKind s = "protel-fias" → CurrencyExponent p = 2) ∧
  StayStatus s = "IN_HOUSE" ∧ StayPostingAllowed s = true ∧ FreshnessBlock s = "" ∧
  GNumber p = StayReservation s ∧ RN p = StayRoomNumber s ∧
  BuildPS (ps_of p pn) = Ok (ps_body (StayRoomNumber s) (StayReservation s) (pretty (p_AmountMinor p))
                              (TrimSpace (PostingCode p)) (pretty pn)) ∧
  (∀ p0, Check p0 s = None → CheckFor PurposeExecute (with_room p0 (StayRoomNumber s)) s = None).
Proof.
  intros Hgate Hpn Hct. pose proof (gate_builds_ps p s pn Hgate Hpn Hct) as HB.
  apply CheckFor_None in Hgate as (HC & _ & Hst & Hpo & Hf & Hg & _ & _ & _ & _ & _ & _ & _ & _ & Hrn & Hx & _).
  specialize (Hrn eq_refl). split_and!; try done.
  - intros p0 H0. unfold Check in H0. unfold CheckFor in *.
    destruct (lifecycleAllows (InterfaceLifecycleState s) PurposeCreate) as [c|] eqn:EL; [done|].
    assert (lifecycleAllows (InterfaceLifecycleState s) PurposeExecute = None) as ->.
    { unfold lifecycleAllows in *. repeat case_decide; done. }
    destruct p0. cbn in *. rewrite (bool_decide_false (StayRoomNumber s ≠ StayRoomNumber s)) by (by intros []).
    rewrite andb_false_r. exact H0.
Qed.

Module GateSample.
Definition pinned : Pinned :=
  mkPinned "t1" "site1" "if1" "rev1" "stay1" "se1" 1500 "EUR" 2 "1421" "88213" "WIFI" None "AWAITING_SETTLEMENT".
Definition snapshot : Snapshot :=
  mkSnapshot "ACTIVE" "rev1" "RESERVATION" "EUR" (Some 2) "EUR" (Some 2) "AWAITING_SETTLEMENT" "EUR" (Some 2)
    "IN_HOUSE" true 3 "1421" "88213" false "protel-fias" "".
End GateSample.

Lemma gate_admits_exact_charge_witness :
  BuildPS (ps_of GateSample.pinned 42)
  = Ok "PS|RN1421|G#88213|TA1500|PTD|SOWIFI|CTWIFI|P#42|WSSTAYCONNECT|".
Proof.
  destruct (gate_admits_exact_charge GateSample.pinned GateSample.snapshot 42)
    as (_ & _ & _ & _ & _ & _ & _ & H & _); [vm_compute; reflexivity|lia|vm_compute; discriminate|].
  rewrite H. reflexivity.
Defined.
