(* ===== verification/PostingTables.v ===== *)
(** The tables of the room-charge ledger and the statements and database
    functions the posting engine runs on them (data-plane/internal/posting/repo.go
    and the posting part of the baseline migration): postings, their outbox row,
    transmission attempts, the review state and the P# sequence.  Settlements,
    purchases, quotes, sign-ins and entitlements are the tables of CommerceTables,
    where the grant of a paid purchase is.

    Constraints, unique indexes and triggers are part of each statement.  The
    interface tables are read only through "decommissioned" and "not fresh", so
    these are sets of interfaces; [p4_financial_recovery_active] is a set of
    sites.  Timestamps are inputs. *)
From stdpp Require Import pretty.
From S2P Require Import Prelude GoStrings GoText CommerceTables Pg PostingWire PostingGate.

(** ** Rows *)

Inductive outbox_state := QUEUED | IN_FLIGHT | DONE | HELD_RECOVERY.
#[export] Instance outbox_state_eq_dec : EqDecision outbox_state.
Proof. solve_decision. Defined.

Inductive attempt_outcome := SENDING | ACKED | UNKNOWN | NOT_SENT.
#[export] Instance attempt_outcome_eq_dec : EqDecision attempt_outcome.
Proof. solve_decision. Defined.

Inductive posting_type := CHARGE | REVERSAL.
#[export] Instance posting_type_eq_dec : EqDecision posting_type.
Proof. solve_decision. Defined.

Record Posting := mkPosting {
  po_tenant : string;
  po_site : string;
  po_iface : string;
  po_settlement : string;
  po_stay : string;
  po_revision : string;
  po_g_number : string;
  po_type : posting_type;
  po_reverses : option string;
  po_amount : Z;
  po_currency : string;
  po_exponent : Z;
  po_key : string
}.

Record Outbox := mkOutbox {
  ob_tenant : string;
  ob_site : string;
  ob_iface : string;
  ob_posting : string;
  ob_state : outbox_state;
  ob_enqueued_at : Time;
  ob_not_before : Time;
  ob_not_sent_count : Z;
  ob_decline_count : Z;
  ob_parked_reason : option string
}.

Record Attempt := mkAttempt {
  at_tenant : string;
  at_site : string;
  at_posting : string;
  at_iface : string;
  at_no : Z;
  at_p_number : string;
  at_rn : string;
  at_g_number : string;
  at_sent_at : Time;
  at_outcome : attempt_outcome;
  at_as : option string;
  at_sha256 : option string
}.

Record Review := mkReview {
  rv_version : Z;
  rv_terminal : option string;
  rv_auth : option Z;           (* retry_authorized_attempt_no *)
  rv_consumed : bool;           (* retry_authorization_consumed_at is set *)
  rv_escalations : Z;
  rv_reversal : option string
}.

Record PDb := mkPDb {
  postings : gmap string Posting;
  outboxes : gmap string Outbox;
  attempts : gmap string Attempt;
  reviews : gmap string Review;
  pnumber_seq : gmap string Z;
  shop : SDB;
  events : list (string * string);       (* attempt, event type *)
  decommissioned : gset string;
  not_fresh : gset string;
  recovery : gset (string * string);
  park_after : gmap (string * string) Z
}.

Definition set_outboxes (f : gmap string Outbox → gmap string Outbox) (db : PDb) : PDb :=
  mkPDb (postings db) (f (outboxes db)) (attempts db) (reviews db) (pnumber_seq db) (shop db)
    (events db) (decommissioned db) (not_fresh db) (recovery db) (park_after db).
Definition set_attempts (f : gmap string Attempt → gmap string Attempt) (db : PDb) : PDb :=
  mkPDb (postings db) (outboxes db) (f (attempts db)) (reviews db) (pnumber_seq db) (shop db)
    (events db) (decommissioned db) (not_fresh db) (recovery db) (park_after db).
Definition set_reviews (f : gmap string Review → gmap string Review) (db : PDb) : PDb :=
  mkPDb (postings db) (outboxes db) (attempts db) (f (reviews db)) (pnumber_seq db) (shop db)
    (events db) (decommissioned db) (not_fresh db) (recovery db) (park_after db).
Definition set_postings (f : gmap string Posting → gmap string Posting) (db : PDb) : PDb :=
  mkPDb (f (postings db)) (outboxes db) (attempts db) (reviews db) (pnumber_seq db) (shop db)
    (events db) (decommissioned db) (not_fresh db) (recovery db) (park_after db).
Definition set_seq (f : gmap string Z → gmap string Z) (db : PDb) : PDb :=
  mkPDb (postings db) (outboxes db) (attempts db) (reviews db) (f (pnumber_seq db)) (shop db)
    (events db) (decommissioned db) (not_fresh db) (recovery db) (park_after db).
Definition set_shop (f : SDB → SDB) (db : PDb) : PDb :=
  mkPDb (postings db) (outboxes db) (attempts db) (reviews db) (pnumber_seq db) (f (shop db))
    (events db) (decommissioned db) (not_fresh db) (recovery db) (park_after db).
Definition set_events (f : list (string * string) → list (string * string)) (db : PDb) : PDb :=
  mkPDb (postings db) (outboxes db) (attempts db) (reviews db) (pnumber_seq db) (shop db)
    (f (events db)) (decommissioned db) (not_fresh db) (recovery db) (park_after db).

Definition settlements (db : PDb) : gmap string Settlement := settled (shop db).

(** ** Attempts *)

(** The attempts of one posting. *)
Definition attempts_of (p : string) (db : PDb) : list (string * Attempt) :=
  filter (λ ia, at_posting ia.2 = p) (map_to_list (attempts db)).

(** ORDER BY attempt_no DESC LIMIT 1. *)
Definition later (ia ib : string * Attempt) : string * Attempt :=
  if at_no ib.2 <? at_no ia.2 then ia else ib.

Definition last_attempt (p : string) (db : PDb) : option (string * Attempt) :=
  match attempts_of p db with
  | [] => None
  | ia :: l => Some (foldr later ia l)
  end.

(** coalesce(max(attempt_no), 0) + 1. *)
Definition next_attempt_no (p : string) (db : PDb) : Z :=
  match last_attempt p db with Some (_, a) => at_no a + 1 | None => 1 end.

(** Attempts that may have reached the PMS. *)
Definition may_have_sent (p : string) (db : PDb) : list (string * Attempt) :=
  filter (λ ia, at_outcome ia.2 ≠ NOT_SENT) (attempts_of p db).

(** ** Triggers on posting_attempts *)

Definition CONFIRM_NOT_POSTED_RETRY : string := "CONFIRM_NOT_POSTED_RETRY".

Definition p4_attempt_retry_gate (new : Attempt) (db : PDb) : res sql_error () :=
  match last_attempt (at_posting new) db with
  | None => check (at_no new =? 1)%Z (Raised "ATTEMPT_SEQUENCE")
  | Some (_, l) =>
      _ ← check (at_no new =? at_no l + 1)%Z (Raised "ATTEMPT_SEQUENCE");
      match at_outcome l with
      | SENDING => Err (Raised "ATTEMPT_IN_FLIGHT")
      | UNKNOWN | ACKED =>
          match reviews db !! at_posting new with
          | Some rv => check (bool_decide (rv_terminal rv = Some CONFIRM_NOT_POSTED_RETRY)
                              && bool_decide (rv_auth rv = Some (at_no new))) (Raised "RETRY_REQUIRES_REVIEW")
          | None => Err (Raised "RETRY_REQUIRES_REVIEW")
          end
      | NOT_SENT => Ok ()
      end
  end.

Definition p4_attempt_lifecycle_gate (new : Attempt) (db : PDb) : res sql_error () :=
  check (bool_decide (at_iface new ∉ decommissioned db)) (Raised "INTERFACE_DECOMMISSIONED").

Definition p4_attempt_targets_posting_reservation (new : Attempt) (db : PDb) : res sql_error () :=
  match postings db !! at_posting new with
  | Some po => check (bool_decide (at_g_number new = po_g_number po)) (Raised "ATTEMPT_RESERVATION_MISMATCH")
  | None => Err (Raised "ATTEMPT_RESERVATION_MISMATCH")
  end.

Definition p4_reversal_never_executes (posting : string) (db : PDb) : res sql_error () :=
  check (bool_decide ((po_type <$> postings db !! posting) ≠ Some REVERSAL)) (Raised "REVERSAL_NOT_EXECUTABLE").

Definition p4_attempt_freshness_gate (new : Attempt) (db : PDb) : res sql_error () :=
  check (bool_decide (at_iface new ∉ not_fresh db)) (Raised "INTERFACE_NOT_FRESH").

(** length() counts characters: bytes that do not continue one. *)
Definition char_length (s : string) : Z := Z.of_nat (length (filter (λ b, cont b = false) (bytes_of s))).
Definition btrim_empty (s : string) : bool := all_bytes (λ b, (b =? 32)%Z) s.

(** CHECK constraints of posting_attempts. *)
Definition attempt_checks (a : Attempt) : res sql_error () :=
  _ ← check (negb (btrim_empty (at_g_number a)) && (char_length (at_g_number a) <=? 32)) (CheckFailed "attempt_gnumber_verified");
  _ ← check (negb (wireUnsafe (at_g_number a))) (CheckFailed "attempt_gnumber_wire_safe");
  _ ← check (negb (empty (at_p_number a)) && (len (at_p_number a) <=? 18) && all_digits (at_p_number a))
        (CheckFailed "attempt_pnumber_wire_safe");
  _ ← check (negb (btrim_empty (at_rn a)) && (char_length (at_rn a) <=? 32)) (CheckFailed "attempt_rn_verified");
  _ ← check (negb (wireUnsafe (at_rn a))) (CheckFailed "attempt_rn_wire_safe");
  check (match at_as a with None => true | Some s => bool_decide (s ∈ asCatalog) end)
    (CheckFailed "posting_attempts_pa_as_status_check").

(** Primary key and unique constraints. *)
Definition attempt_unique (id : string) (a : Attempt) (db : PDb) : res sql_error () :=
  _ ← check (bool_decide (attempts db !! id = None)) (DuplicateKey "posting_attempts_pkey");
  _ ← check (forallb (λ ib, negb (at_no ib.2 =? at_no a)%Z) (attempts_of (at_posting a) db))
        (DuplicateKey "posting_attempts_internal_posting_id_attempt_no_key");
  check (forallb (λ ib, negb (bool_decide (at_tenant ib.2 = at_tenant a ∧ at_site ib.2 = at_site a ∧
                                           at_iface ib.2 = at_iface a ∧ at_p_number ib.2 = at_p_number a)))
           (map_to_list (attempts db)))
    (DuplicateKey "posting_attempts_tenant_id_site_id_pms_interface_id_p_numbe_key").

(** AFTER INSERT: the attempt consumes the authorization that names it. *)
Definition p4_consume_retry_authorization (new : Attempt) : PDb → PDb :=
  set_reviews (alter (λ rv,
    if bool_decide (rv_terminal rv = Some CONFIRM_NOT_POSTED_RETRY) && bool_decide (rv_auth rv = Some (at_no new))
    then mkReview (rv_version rv + 1) (rv_terminal rv) None true (rv_escalations rv) (rv_reversal rv)
    else rv) (at_posting new)).

Definition insert_attempt (id : string) (new : Attempt) (db : PDb) : res sql_error PDb :=
  _ ← p4_attempt_lifecycle_gate new db;
  _ ← p4_attempt_retry_gate new db;
  _ ← p4_attempt_targets_posting_reservation new db;
  _ ← p4_reversal_never_executes (at_posting new) db;
  _ ← p4_attempt_freshness_gate new db;
  _ ← attempt_checks new;
  _ ← attempt_unique id new db;
  Ok (p4_consume_retry_authorization new (set_attempts (<[id := new]>) db)).

(** BEFORE UPDATE (trg_posting_attempt_oneway) and the new outcome. *)
Definition update_attempt (id : string) (outcome : attempt_outcome) (as_ : option string) (db : PDb)
    : res sql_error PDb :=
  match attempts db !! id with
  | None => Ok db
  | Some a =>
      let new := mkAttempt (at_tenant a) (at_site a) (at_posting a) (at_iface a) (at_no a) (at_p_number a)
                   (at_rn a) (at_g_number a) (at_sent_at a) outcome as_ (at_sha256 a) in
      _ ← check (bool_decide (at_outcome a = SENDING) || bool_decide (outcome = at_outcome a))
            (Raised "posting_attempts.outcome is terminal");
      _ ← attempt_checks new;
      Ok (set_attempts (<[id := new]>) db)
  end.

(** ** posting_outbox *)

Definition active_state (s : outbox_state) : bool := match s with DONE => false | _ => true end.

Definition with_state (st : outbox_state) (o : Outbox) : Outbox :=
  mkOutbox (ob_tenant o) (ob_site o) (ob_iface o) (ob_posting o) st (ob_enqueued_at o) (ob_not_before o)
    (ob_not_sent_count o) (ob_decline_count o) (ob_parked_reason o).

(** BEFORE UPDATE; [reconciling] is the transaction-local flag only the recovery
    functions set. *)
Definition p4_outbox_recovery_gate (reconciling : bool) (old new : Outbox) (db : PDb) : res sql_error () :=
  _ ← check (negb (bool_decide (ob_state new = IN_FLIGHT) && bool_decide (ob_state old ≠ IN_FLIGHT)
                   && bool_decide ((ob_tenant new, ob_site new) ∈ recovery db)))
        (Raised "FINANCIAL_RECOVERY_MODE");
  check (negb (bool_decide (ob_state old = HELD_RECOVERY) && bool_decide (ob_state new ≠ HELD_RECOVERY)
               && negb reconciling
               && negb (match reviews db !! ob_posting new with
                        | Some rv => bool_decide (rv_auth rv ≠ None)
                        | None => false
                        end)))
    (Raised "RECOVERY_HOLD_RELEASE_UNCONTROLLED").

(** outbox_one_active and outbox_one_inflight_per_interface. *)
Definition outbox_unique (id : string) (new : Outbox) (db : PDb) : res sql_error () :=
  let others := filter (λ io, io.1 ≠ id) (map_to_list (outboxes db)) in
  _ ← check (negb (active_state (ob_state new))
             || forallb (λ io, negb (bool_decide (ob_posting io.2 = ob_posting new) && active_state (ob_state io.2))) others)
        (DuplicateKey "outbox_one_active");
  check (bool_decide (ob_state new ≠ IN_FLIGHT)
         || forallb (λ io, negb (bool_decide (ob_iface io.2 = ob_iface new) && bool_decide (ob_state io.2 = IN_FLIGHT))) others)
    (DuplicateKey "outbox_one_inflight_per_interface").

Definition update_outbox (reconciling : bool) (id : string) (f : Outbox → Outbox) (db : PDb) : res sql_error PDb :=
  match outboxes db !! id with
  | None => Ok db
  | Some o =>
      _ ← p4_outbox_recovery_gate reconciling o (f o) db;
      _ ← outbox_unique id (f o) db;
      Ok (set_outboxes (<[id := f o]>) db)
  end.

(** The INSERT triggers: no new work while the site is in recovery, never a
    reversal. *)
Definition insert_outbox (id : string) (o : Outbox) (db : PDb) : res sql_error PDb :=
  _ ← check (bool_decide ((ob_tenant o, ob_site o) ∉ recovery db)) (Raised "FINANCIAL_RECOVERY_MODE");
  _ ← p4_reversal_never_executes (ob_posting o) db;
  _ ← check (bool_decide (outboxes db !! id = None)) (DuplicateKey "posting_outbox_pkey");
  _ ← outbox_unique id o db;
  Ok (set_outboxes (<[id := o]>) db).

(** iam_v2.posting_outbox_defer: back off 2 s doubling to 5 min, or park after
    the site's number of declines. *)
Definition defer_delay (n : Z) : Duration := Z.min 300 (2 * 2 ^ Z.min (n - 1) 10) * Second.
Definition default_park : Z := 10.

Inductive defer_kind := DeferNotSent | DeferDeclined.

(** left(s, n): the first n characters. *)
Fixpoint left_chars (n : nat) (s : string) : string :=
  match s with
  | EmptyString => ""
  | String c s' =>
      if cont (byte_of c) then String c (left_chars n s')
      else match n with O => "" | S n' => String c (left_chars n' s') end
  end.
Definition parked_text (reason : option string) : string := left_chars 200 (default "declined" reason).

Definition posting_outbox_defer (id : string) (kind : defer_kind) (reason : option string) (now : Time) (db : PDb)
    : res sql_error (PDb * string) :=
  match outboxes db !! id with
  | None => Err (Raised "LANE_DEFER_UNKNOWN")
  | Some o =>
      match ob_state o with
      | DONE => Ok (db, "DONE")
      | HELD_RECOVERY => Ok (db, "HELD_RECOVERY")
      | _ =>
          match kind with
          | DeferNotSent =>
              let n := ob_not_sent_count o + 1 in
              db' ← update_outbox false id (λ o, mkOutbox (ob_tenant o) (ob_site o) (ob_iface o) (ob_posting o) QUEUED
                      (ob_enqueued_at o) (now + defer_delay n) n (ob_decline_count o) (ob_parked_reason o)) db;
              Ok (db', "QUEUED")
          | DeferDeclined =>
              let n := ob_decline_count o + 1 in
              if default default_park (park_after db !! (ob_tenant o, ob_site o)) <=? n then
                db' ← update_outbox false id (λ o, mkOutbox (ob_tenant o) (ob_site o) (ob_iface o) (ob_posting o)
                        HELD_RECOVERY (ob_enqueued_at o) (ob_not_before o) (ob_not_sent_count o) n (Some (parked_text reason))) db;
                Ok (db', "PARKED")
              else
                db' ← update_outbox false id (λ o, mkOutbox (ob_tenant o) (ob_site o) (ob_iface o) (ob_posting o) QUEUED
                        (ob_enqueued_at o) (now + defer_delay n) (ob_not_sent_count o) n (ob_parked_reason o)) db;
                Ok (db', "QUEUED")
          end
      end
  end.

(** ** The P# sequence (iam_v2.allocate_p_number) *)

Definition allocate_p_number (iface : string) (db : PDb) : PDb * Z :=
  let n := default 1 (pnumber_seq db !! iface) in
  (set_seq (<[iface := n + 1]>) db, n).

(** ** Settlements (iam_v2.p4_posting_settlement_outcome)

    The functions below move a settlement to SETTLED, FAILED or MANUAL_REVIEW
    only; reversals are the card rail's.  The posting blocks they place on the
    stay come back to the engine through the snapshot ([StayPostingAllowed]). *)

(** [confirmed iface status]: the vendor confirmed that this answer means "not
    posted" on this interface. *)
Definition p4_answer_effect (confirmed : string → string → bool) (iface : string) (as_ : option string) : string :=
  match as_ with
  | None => "UNPROVEN"
  | Some s =>
      if decide (s = "OK") then "POSTED"
      else if decide (s ∉ ["NP"; "NG"; "NR"; "NA"; "RY"]) then "UNPROVEN"
      else if negb (confirmed iface s) then "UNPROVEN"
      else if decide (s = "NP") then "NOT_POSTED_NO_POST"
      else if decide (s = "NG" ∨ s = "NR") then "NOT_POSTED_TARGET_INVALID"
      else "NOT_POSTED_NO_STAY_EFFECT"
  end.

(** The status a posting's latest attempt asks for. *)
Definition settlement_target (confirmed : string → string → bool) (po : Posting) (a : Attempt) : option string :=
  let effect := p4_answer_effect confirmed (po_iface po) (at_as a) in
  match at_outcome a with
  | ACKED => if decide (effect = "POSTED") then Some "SETTLED"
             else if decide (effect = "UNPROVEN") then Some "MANUAL_REVIEW" else Some "FAILED"
  | UNKNOWN => Some "MANUAL_REVIEW"
  | _ => None
  end.

(** BEFORE UPDATE of settlements: the approved transitions. *)
Definition settlement_transition (old new : string) : bool :=
  bool_decide ((old, new) ∈ [("REQUIRED", "IN_PROGRESS");
    ("IN_PROGRESS", "SETTLED"); ("IN_PROGRESS", "FAILED"); ("IN_PROGRESS", "MANUAL_REVIEW");
    ("MANUAL_REVIEW", "SETTLED"); ("MANUAL_REVIEW", "FAILED");
    ("SETTLED", "PARTIALLY_REVERSED"); ("SETTLED", "REVERSED"); ("PARTIALLY_REVERSED", "REVERSED")]).

(** A room charge settles on a charge the PMS acknowledged OK or one a reviewer
    confirmed as posted. *)
Definition acknowledged (se : string) (db : PDb) : bool :=
  existsb (λ ip, bool_decide (po_settlement ip.2 = se ∧ po_type ip.2 = CHARGE)
                 && existsb (λ ia, bool_decide (at_outcome ia.2 = ACKED ∧ at_as ia.2 = Some "OK"))
                      (attempts_of ip.1 db)) (map_to_list (postings db)).
Definition reviewed_posted (se : string) (db : PDb) : bool :=
  existsb (λ ip, bool_decide (po_settlement ip.2 = se ∧ po_type ip.2 = CHARGE ∧
                   (reviews db !! ip.1 ≫= rv_terminal) = Some "CONFIRM_POSTED")) (map_to_list (postings db)).

(** AFTER UPDATE of settlements (p4_purchase_follows_settlement). *)
Definition p4_purchase_follows_settlement (purchase new : string) (d : SDB) : SDB :=
  match bought d !! purchase with
  | None => d
  | Some pu =>
      let move st := set_bought d (<[purchase := with_purchase_state st pu]> (bought d)) in
      if decide (new = "FAILED" ∧ pu_state pu ∈ ["PENDING"; "AWAITING_SETTLEMENT"; "MANUAL_REVIEW"]) then move "FAILED"
      else if decide (new = "MANUAL_REVIEW" ∧ pu_state pu ∈ ["PENDING"; "AWAITING_SETTLEMENT"]) then move "MANUAL_REVIEW"
      else d
  end.

Definition with_status (new : string) (se : Settlement) : Settlement := mkSettlement (se_scope se) (se_purchase se) (se_method se) new.

Definition set_status (id : string) (se : Settlement) (new : string) (d : SDB) : SDB :=
  p4_purchase_follows_settlement (se_purchase se) new (set_settled d (<[id := with_status new se]> (settled d))).

Definition update_settlement (id new : string) (db : PDb) : res sql_error PDb :=
  match settlements db !! id with
  | None => Ok db
  | Some se =>
      if decide (new = se_status se) then Ok db
      else
        _ ← check (settlement_transition (se_status se) new) (Raised "SETTLEMENT_TRANSITION");
        _ ← check (negb (bool_decide (new = "SETTLED" ∧ se_method se = "PMS_POSTING"))
                   || acknowledged id db || reviewed_posted id db) (Raised "SETTLEMENT_NOT_EVIDENCED");
        Ok (set_shop (set_status id se new) db)
  end.

(** The clock, the identifier of a new entitlement and the reading of times in a grant. *)
Record grant_env := mkGrantEnv { ge_now : Time; ge_new : string; ge_time : PgTime }.

(** SELECT ... FROM iam_v2.p4_grant_paid_entitlement(tenant, site, settlement). *)
Definition grant_paid (g : grant_env) (tenant site id : string) (db : PDb) : res sql_error PDb :=
  '(d, _) ← @p4_grant_paid_entitlement (ge_time g) (ge_now g) (tenant, site) id (ge_new g) (shop db);
  Ok (set_shop (λ _, d) db).

Definition p4_posting_settlement_outcome (confirmed : string → string → bool) (g : grant_env) (posting : string) (db : PDb)
    : res sql_error PDb :=
  match postings db !! posting with
  | None => Err (Raised "POSTING_UNKNOWN")
  | Some po =>
      if decide (po_type po ≠ CHARGE) then Err (Raised "POSTING_UNKNOWN")
      else match settlements db !! po_settlement po with
      | None => Ok db
      | Some se =>
          if decide (se_method se ≠ "PMS_POSTING") then Ok db
          else match last_attempt posting db with
          | None => Ok db
          | Some (_, a) =>
              match settlement_target confirmed po a with
              | None => Ok db
              | Some target =>
                  db' ← (if decide (se_status se = target ∨ se_status se ∈ ["FAILED"; "PARTIALLY_REVERSED"; "REVERSED"])
                         then Ok db
                         else if decide (se_status se ∈ ["IN_PROGRESS"; "MANUAL_REVIEW"])
                         then update_settlement (po_settlement po) target db
                         else Err (Raised "POSTING_SETTLEMENT_STATE"));
                  if decide (target = "SETTLED") then grant_paid g (po_tenant po) (po_site po) (po_settlement po) db' else Ok db'
              end
          end
      end
  end.

(** iam_v2.p4_posting_abort_before_send. *)
Definition p4_posting_abort_before_send (posting : string) (db : PDb) : res sql_error PDb :=
  match postings db !! posting with
  | None => Err (Raised "POSTING_UNKNOWN")
  | Some po =>
      if decide (po_type po ≠ CHARGE) then Err (Raised "POSTING_UNKNOWN")
      else
        _ ← check (bool_decide (may_have_sent posting db = [])) (Raised "ABORT_AFTER_TRANSMISSION");
        let ids := (filter (λ io, ob_posting io.2 = posting ∧ (ob_state io.2 = QUEUED ∨ ob_state io.2 = IN_FLIGHT))
                      (map_to_list (outboxes db))).*1 in
        let db1 := set_outboxes (λ m, foldr (λ id, alter (with_state DONE) id) m ids) db in
        match settlements db !! po_settlement po with
        | Some se => if decide (se_status se = "IN_PROGRESS") then update_settlement (po_settlement po) "FAILED" db1
                     else Ok db1
        | None => Ok db1
        end
  end.

(** ** Review (iam_v2.record_posting_review_action)

    [attributable] is the verdict of the actor, reason and evidence checks, which
    read nothing of the ledger; the reversal's ledger row is a posting of its own
    that nothing executes. *)
Definition review_catalog : list string :=
  ["CONFIRM_POSTED"; CONFIRM_NOT_POSTED_RETRY; "CONFIRM_NOT_POSTED_ABANDON"; "CREATE_REVERSAL"; "ESCALATE"].

Definition retry_refused (la : option (string * Attempt)) : bool :=
  match la with
  | Some (_, a) => bool_decide (at_outcome a = ACKED ∧ at_as a = Some "OK") || bool_decide (at_outcome a = SENDING)
  | None => false
  end.

Definition reversal_refused (o : Posting) (la : option (string * Attempt)) : bool :=
  bool_decide (po_type o ≠ CHARGE)
  || match la with
     | Some (_, a) => negb (bool_decide (at_outcome a = UNKNOWN)
                            || bool_decide (at_outcome a = ACKED ∧ at_as a = Some "OK"))
     | None => true
     end.

Definition no_review : Review := mkReview 0 None None false 0 None.

Definition record_posting_review_action (posting action : string) (attributable : bool) (expected : option Z)
    (rev_id : string) (rev_amount : option Z) (db : PDb) : res sql_error PDb :=
  _ ← check (bool_decide (action ∈ review_catalog)) (Raised "REVIEW_ACTION_UNKNOWN");
  _ ← check attributable (Raised "REVIEW_ACTOR_REASON_REQUIRED");
  match postings db !! posting with
  | None => Err (Raised "REVIEW_POSTING_UNKNOWN")
  | Some o =>
      let st := default no_review (reviews db !! posting) in
      _ ← check (match expected with Some v => (v =? rv_version st)%Z | None => true end) (Raised "REVIEW_VERSION_STALE");
      let la := last_attempt posting db in
      let escalate := bool_decide (action = "ESCALATE") in
      _ ← check (negb (bool_decide (la = None)) || escalate) (Raised "REVIEW_NOT_APPLICABLE");
      _ ← check (escalate || bool_decide (rv_terminal st = None))
            (Raised (if decide (rv_terminal st = Some action) then "REVIEW_ALREADY_DECIDED" else "REVIEW_CONFLICT"));
      _ ← check (negb (bool_decide (action = CONFIRM_NOT_POSTED_RETRY)) || negb (retry_refused la)) (Raised "REVIEW_RETRY_REFUSED");
      _ ← check (if decide (action = "CREATE_REVERSAL") then negb (reversal_refused o la)
                 else bool_decide (rev_amount = None))
            (Raised (if decide (action = "CREATE_REVERSAL") then "REVIEW_REVERSAL_REFUSED" else "REVIEW_AMOUNT_NOT_APPLICABLE"));
      _ ← check (negb (bool_decide (action = "CREATE_REVERSAL")) || bool_decide (postings db !! rev_id = None))
            (DuplicateKey "pms_postings_pkey");
      let db1 :=
        if decide (action = "CREATE_REVERSAL") then
          set_postings (<[rev_id := mkPosting (po_tenant o) (po_site o) (po_iface o) (po_settlement o) (po_stay o)
            (po_revision o) (po_g_number o) REVERSAL (Some posting) (default (po_amount o) rev_amount) (po_currency o)
            (po_exponent o) (po_key o +:+ ":rev:" +:+ rev_id)]>) db
        else db in
      Ok (set_reviews (<[posting :=
            if escalate then
              mkReview (rv_version st + 1) (rv_terminal st) (rv_auth st) (rv_consumed st) (rv_escalations st + 1) (rv_reversal st)
            else
              mkReview (rv_version st + 1) (Some action)
                (if decide (action = CONFIRM_NOT_POSTED_RETRY) then Some (next_attempt_no posting db) else None)
                (rv_consumed st) (rv_escalations st)
                (if decide (action = "CREATE_REVERSAL") then Some rev_id else None)]>) db1)
  end.

(** UPDATE posting_outbox SET state = 'QUEUED' of the rows given. *)
Fixpoint requeue_rows (ids : list string) (db : PDb) : res sql_error PDb :=
  match ids with
  | [] => Ok db
  | id :: l => db' ← update_outbox false id (with_state QUEUED) db; requeue_rows l db'
  end.

Definition held_rows (posting : string) (db : PDb) : list string :=
  (filter (λ io, ob_posting io.2 = posting ∧ ob_state io.2 = HELD_RECOVERY) (map_to_list (outboxes db))).*1.

(** iam_v2.p4_posting_review_apply: what a recorded decision moves, and its answer.
    The posting block of the stay is left to the snapshot, as above. *)
Definition p4_posting_review_apply (g : grant_env) (tenant site posting : string) (db : PDb) : res sql_error (PDb * string) :=
  match postings db !! posting with
  | None => Err (Raised "POSTING_UNKNOWN")
  | Some po =>
      _ ← check (bool_decide (po_tenant po = tenant ∧ po_site po = site ∧ po_type po = CHARGE)) (Raised "POSTING_UNKNOWN");
      let rv := default no_review (reviews db !! posting) in
      match rv_terminal rv with
      | None => Ok (db, "NO_DECISION")
      | Some action =>
          let se := settlements db !! po_settlement po in
          let status := se_status <$> se in
          let open := bool_decide (status = Some "IN_PROGRESS" ∨ status = Some "MANUAL_REVIEW") in
          if decide (action = CONFIRM_NOT_POSTED_RETRY) then
            db' ← (if bool_decide (is_Some (rv_auth rv)) && negb (rv_consumed rv) then requeue_rows (held_rows posting db) db else Ok db);
            Ok (db', "REQUEUED")
          else if decide (is_Some se ∧ (se_method <$> se) ≠ Some "PMS_POSTING") then Ok (db, "NOT_A_ROOM_CHARGE")
          else if decide (action = "CONFIRM_POSTED") then
            db1 ← (if open then update_settlement (po_settlement po) "SETTLED" db else Ok db);
            if decide ((se_status <$> settlements db1 !! po_settlement po) = Some "SETTLED") then
              db2 ← grant_paid g (po_tenant po) (po_site po) (po_settlement po) db1; Ok (db2, "GRANTED")
            else Ok (db1, "NOT_SETTLED")
          else if decide (action = "CONFIRM_NOT_POSTED_ABANDON") then
            db1 ← (if open then update_settlement (po_settlement po) "FAILED" db else Ok db);
            Ok (db1, "FAILED")
          else Ok (db, "NO_EFFECT")
      end
  end.

(** The decision of an operator in the console (edged): it is recorded and applied in one
    transaction, for a posting of the operator's own site. *)
Definition decide_review (g : grant_env) (tenant site posting action : string) (attributable : bool) (expected : option Z)
    (rev_id : string) (rev_amount : option Z) (db : PDb) : res sql_error PDb :=
  _ ← check (match postings db !! posting with Some po => bool_decide (po_tenant po = tenant ∧ po_site po = site) | None => false end)
        (Raised "not_found");
  db1 ← record_posting_review_action posting action attributable expected rev_id rev_amount db;
  '(db2, _) ← p4_posting_review_apply g tenant site posting db1;
  Ok db2.

(** iam_v2.p4_authorize_zero_attempt_retry: a posting held with no attempt whose
    hold an operator concluded as not completed ([established]). *)
Definition p4_authorize_zero_attempt_retry (posting ob : string) (established : bool) (db : PDb) : res sql_error PDb :=
  _ ← check (bool_decide (postings db !! posting ≠ None)) (Raised "REVIEW_POSTING_UNKNOWN");
  _ ← check (bool_decide (last_attempt posting db = None)) (Raised "RETRY_HAS_ATTEMPTS");
  _ ← check (match outboxes db !! ob with
             | Some o => bool_decide (ob_posting o = posting ∧ ob_state o = HELD_RECOVERY) | None => false end)
        (Raised "RETRY_NOT_HELD");
  _ ← check established (Raised "RETRY_NOT_ESTABLISHED");
  let st := reviews db !! posting in
  let db1 := set_reviews (<[posting :=
    match st with
    | Some rv => mkReview (rv_version rv + 1) (rv_terminal rv) (Some 1) (rv_consumed rv) (rv_escalations rv) (rv_reversal rv)
    | None => mkReview 1 None (Some 1) false 0 None
    end]>) db in
  update_outbox false ob (with_state QUEUED) db1.

(** iam_v2.posting_outbox_requeue_parked: an operator releases a parked row that
    provably sent nothing. *)
Definition posting_outbox_requeue_parked (ob : string) (attributable : bool) (now : Time) (db : PDb) : res sql_error PDb :=
  _ ← check attributable (Raised "LANE_REQUEUE_ACTOR");
  match outboxes db !! ob with
  | None => Err (Raised "LANE_REQUEUE_UNKNOWN")
  | Some o =>
      _ ← check (bool_decide (ob_state o = HELD_RECOVERY ∧ ob_parked_reason o ≠ None)) (Raised "LANE_REQUEUE_NOT_PARKED");
      _ ← check (bool_decide (may_have_sent (ob_posting o) db = [])) (Raised "LANE_REQUEUE_MAY_HAVE_SENT");
      update_outbox true ob (λ o, mkOutbox (ob_tenant o) (ob_site o) (ob_iface o) (ob_posting o) QUEUED
        (ob_enqueued_at o) now (ob_not_sent_count o) 0 None) db
  end.
