(* ===== verification/PostingEngine.v ===== *)
(** The posting engine (data-plane/internal/posting: engine.go, repo.go,
    transport.go, handoff_transport.go).

    A worker claims the head of its interface's lane and commits an attempt
    ([claim_tx]), offers the PS to the transport ([SendPS]), then records what the
    transport said ([settle]); between these three anything else may run or the
    worker may die, so they are separate steps of the history.  [SKIP LOCKED] and
    row locks are not modelled: each transaction is one atomic step. *)
From stdpp Require Import pretty.
From S2P Require Import Prelude GoStrings GoText CommerceTables Pg Modules PostingWire PostingGate PostingTables.

(** ** classify (repo.go) *)

Definition contains (hay needle : string) : bool :=
  match after_tag needle hay with Some _ => true | None => false end.

Definition refusal_codes : list (string * Code) :=
  [("POSTING_TARGET_UNSET", ErrPostingTargetUnset); ("POSTING_RESERVATION_MISMATCH", ErrReservationMismatch);
   ("ATTEMPT_RESERVATION_MISMATCH", ErrReservationMismatch); ("ROOM_CHARGE_UNRESOLVED", ErrStayChargeOpen);
   ("POSTING_NO_STAY", ErrReservationMismatch); ("POSTING_NOT_ALLOWED", ErrPostingNotAllowed);
   ("INTERFACE_CURRENCY_NOT_ONBOARDED", ErrInterfaceNoCurrency); ("POSTING_CURRENCY_MISMATCH", ErrCurrencyMismatch);
   ("PURCHASE_CURRENCY_MISMATCH", ErrCurrencyMismatch); ("PACKAGE_CURRENCY_MISMATCH", ErrCurrencyMismatch);
   ("POSTING_CURRENCY_UNSET", ErrCurrencyMismatch); ("PURCHASE_CURRENCY_UNSET", ErrCurrencyMismatch);
   ("PACKAGE_CURRENCY_UNSET", ErrCurrencyMismatch); ("attempt_rn_verified", ErrRNMissing);
   ("attempt_gnumber_verified", ErrGNumberMissing); ("attempt_rn_wire_safe", ErrRNNotWireSafe);
   ("attempt_gnumber_wire_safe", ErrGNumberNotWireSafe); ("attempt_pnumber_wire_safe", ErrWireFieldInvalid);
   ("ATTEMPT_IN_FLIGHT", "already_in_flight"); ("RETRY_REQUIRES_REVIEW", ErrRetryNotAuthed);
   ("ATTEMPT_SEQUENCE", ErrRetryNotAuthed); ("REVIEW_CONFLICT", "review_conflict");
   ("REVIEW_ALREADY_DECIDED", "review_conflict"); ("REVIEW_VERSION_STALE", "review_version_stale");
   ("REVIEW_ACTION_UNKNOWN", "review_conflict"); ("REVIEW_WRITER_ONLY", "review_conflict");
   ("REVIEW_REVERSAL_REFUSED", "review_conflict"); ("REVERSAL_NOT_EXECUTABLE", "programmatic_reversal_disabled");
   ("REVERSAL_WRITER_ONLY", "programmatic_reversal_disabled"); ("REVERSAL_EXCEEDS_CHARGE", "review_conflict")].

Definition error_message (e : error) : string :=
  match e with
  | Sql (DuplicateKey c) | Sql (CheckFailed c) | Sql (ForeignKeyFailed c) | Sql (Raised c) => c
  | Sql _ => ""
  | Error what => what
  end.

Fixpoint first_code (msg : string) (l : list (string * Code)) : Code :=
  match l with
  | [] => ErrRepo
  | (needle, code) :: l' => if contains msg needle then code else first_code msg l'
  end.

Definition classify (e : error) : Code := first_code (error_message e) refusal_codes.

(** ** The repository *)

(** A statement whose error the caller handles. *)
Definition attempt_ {A} (m : TX PDb A) : TX PDb (res error A) := λ t, let '(t', r) := m t in (t', Ok r).

Record Claim := mkClaim {
  cl_OutboxID : string;
  cl_PostingID : string;
  cl_Pinned : Pinned;
  cl_AttemptNo : Z
}.

(** ORDER BY enqueued_at, id: the lane's head. *)
Definition lane_before (a b : string * Outbox) : bool :=
  (ob_enqueued_at a.2 <? ob_enqueued_at b.2)
  || ((ob_enqueued_at a.2 =? ob_enqueued_at b.2)%Z && bool_decide (string_le a.1 b.1)).

Definition lane_head (tenant site iface : string) (db : PDb) : option (string * Outbox) :=
  match filter (λ io, ob_tenant io.2 = tenant ∧ ob_site io.2 = site ∧ ob_iface io.2 = iface ∧ ob_state io.2 = QUEUED)
          (map_to_list (outboxes db)) with
  | [] => None
  | io :: l => Some (foldr (λ a b, if lane_before a b then a else b) io l)
  end.

(** The claiming UPDATE: the head, unless it is backing off. *)
Definition claim_head (tenant site iface : string) (now : Time) (db : PDb)
    : res sql_error (PDb * option (string * string * Posting)) :=
  match lane_head tenant site iface db with
  | None => Ok (db, None)
  | Some (id, o) =>
      if now <? ob_not_before o then Ok (db, None)
      else match postings db !! ob_posting o with
      | None => Ok (db, None)
      | Some po =>
          db' ← update_outbox false id (with_state IN_FLIGHT) db;
          Ok (db', Some (id, ob_posting o, po))
      end
  end.

(** [pin]: the posting code and state of the purchase the posting points at. *)
Definition ClaimNext (tenant site iface : string) (now : Time) (pin : option (string * string))
    : TX PDb (option Claim) :=
  statement (claim_head tenant site iface now) ≫= λ c,
  match c with
  | None => mret None
  | Some (ob, id, po) =>
      query (λ _, pin) ≫= λ pu,
      match pu with
      | None => fail (Error ErrRepo)
      | Some (code, state) =>
          query (next_attempt_no id) ≫= λ no,
          mret (Some (mkClaim ob id
            (mkPinned tenant site iface (po_revision po) (po_stay po) (po_settlement po) (po_amount po)
               (po_currency po) (po_exponent po) "" (po_g_number po) code None state) no))
      end
  end.

Definition ReleaseClaim (ob : string) : TX PDb () := exec (update_outbox false ob (with_state QUEUED)).
Definition FinishClaim (ob : string) (st : outbox_state) : TX PDb () := exec (update_outbox false ob (with_state st)).
Definition Defer (ob : string) (kind : defer_kind) (reason : string) (now : Time) : TX PDb string :=
  statement (posting_outbox_defer ob kind (Some reason) now).
Definition AllocatePNumber (iface : string) : TX PDb Z := statement (λ db, Ok (allocate_p_number iface db)).

Definition InsertAttempt (p : Pinned) (posting : string) (no pn : Z) (sha : string) (now : Time) : TX PDb string :=
  gen_random_uuid ≫= λ id,
  exec (insert_attempt id (mkAttempt (p_TenantID p) (p_SiteID p) posting (PMSInterfaceID p) no (pretty pn) (RN p)
          (GNumber p) now SENDING None (if empty sha then None else Some sha))) ≫= λ _,
  mret id.

Definition SettleAttempt (id : string) (outcome : attempt_outcome) (as_ : string) : TX PDb () :=
  exec (update_attempt id outcome (if empty as_ then None else Some as_)).

Definition AppendAttemptEvent (id event : string) : TX PDb () :=
  exec (λ db, _ ← check (bool_decide (attempts db !! id ≠ None)) (ForeignKeyFailed "posting_attempt_events");
              Ok (set_events (λ l, l ++ [(id, event)])%list db)).

(** ** The claiming transaction of RunOnce *)

Inductive claim_result :=
| Idle
| Declined (posting : string) (code : Code) (parked : bool)
| Aborted (posting : string) (code : Code)
| ToSend (c : Claim) (attempt : string) (pn : Z) (body : string).

Definition decline (c : Claim) (code : Code) (now : Time) : TX PDb claim_result :=
  Defer (cl_OutboxID c) DeferDeclined code now ≫= λ st,
  mret (Declined (cl_PostingID c) code (bool_decide (st = "PARKED"))).

Definition presendAbortReason (code : Code) : string :=
  if decide (code = ErrStayNotInHouse) then "STAY_NOT_IN_HOUSE"
  else if decide (code = ErrPostingNotAllowed) then "STAY_BLOCKED"
  else if decide (code = ErrReservationMismatch) then "RESERVATION_MISMATCH"
  else if decide (code = ErrRNMissing ∨ code = ErrRNNotWireSafe) then "ROOM_UNRESOLVED"
  else if decide (code = ErrInterfaceNotFresh) then "DATA_STALE"
  else "".

Definition abortBeforeSend (c : Claim) (code : Code) : TX PDb claim_result :=
  query (may_have_sent (cl_PostingID c)) ≫= λ sent,
  if decide (sent ≠ []) then
    FinishClaim (cl_OutboxID c) HELD_RECOVERY ≫= λ _, mret (Declined (cl_PostingID c) code false)
  else exec (p4_posting_abort_before_send (cl_PostingID c)) ≫= λ _, mret (Aborted (cl_PostingID c) code).

Record run_env := mkRunEnv {
  re_now : Time;
  re_pin : option (string * string);
  re_snapshot : option Snapshot;      (* None: the evidence does not resolve *)
  re_faults : list bool;
  re_uuids : nat → positive;
  re_fate : commit_fate
}.

Section engine.
Context (sha256_hex : string → string) (cfg : PostingConfig).

Definition claim_tx (tenant site iface : string) (env : run_env) : TX PDb claim_result :=
  let now := re_now env in
  ClaimNext tenant site iface now (re_pin env) ≫= λ oc,
  match oc with
  | None => mret Idle
  | Some c0 =>
      attempt_ (query (λ _, ())) ≫= λ locked,
      match locked with
      | Err e => decline c0 (classify e) now
      | Ok _ =>
          attempt_ (query (λ _, re_snapshot env)) ≫= λ sn,
          match sn with
          | Err _ => decline c0 ErrRepo now
          | Ok None => decline c0 ErrEvidenceOutOfScope now
          | Ok (Some s) =>
              let p := with_room (cl_Pinned c0) (StayRoomNumber s) in
              let c := mkClaim (cl_OutboxID c0) (cl_PostingID c0) p (cl_AttemptNo c0) in
              match CheckFor PurposeExecute p s with
              | Some code => if empty (presendAbortReason code) then decline c code now else abortBeforeSend c code
              | None =>
                  if Dark cfg then
                    ReleaseClaim (cl_OutboxID c) ≫= λ _, mret (Declined (cl_PostingID c) ErrDarkNoEgress false)
                  else
                    AllocatePNumber iface ≫= λ pn,
                    match BuildPS (ps_of p pn) with
                    | Err code => decline c code now
                    | Ok body =>
                        InsertAttempt p (cl_PostingID c) (cl_AttemptNo c) pn (sha256_hex body) now ≫= λ id,
                        mret (ToSend c id pn body)
                    end
              end
          end
      end
  end.

(** The transaction and its commit; [Idle] also stands for a call that failed. *)
Definition claim_step (tenant site iface : string) (env : run_env) (db : PDb) : PDb * claim_result :=
  if negb (OutboxOn cfg) then (db, Idle)
  else match claim_tx tenant site iface env (mkTx db false (re_faults env) (re_uuids env) 0) with
       | (_, Err _) => (db, Idle)
       | (t, Ok r) =>
           match commit (re_fate env) db t with
           | (db', Ok _) => (db', r)
           | (db', Err _) => (db', Idle)
           end
       end.

(** ** The transport *)

Inductive send_result :=
| Answer (pa : PA)
| NotTransmitted (code : Code) (reason : string)   (* provably nothing was written *)
| NoAnswer (code : Code).                          (* the PS may have been applied *)

(** What pmsd replies to the hand-off. *)
Inductive handoff_reply :=
| Unreachable
| Broken
| Reply (result code pa_body : string).

Definition boundedCode (c : string) : string :=
  let c' := String.substring 0 48 c in
  if empty c' || negb (all_bytes (λ b, (b =? 95)%Z || in_range 65 90 b || in_range 48 57 b) c') then "UNSPECIFIED" else c'.

Definition handoff_SendPS (iface : string) (pn : Z) (body : string) (reply : handoff_reply) : send_result :=
  if negb (request_Validate sha256_hex (mkRequest ProtocolVersion iface pn body (sha256_hex body)))
  then NotTransmitted ErrWireFieldInvalid ""
  else match reply with
  | Unreachable => NotTransmitted ErrTransportUnavailable ""
  | Broken => NoAnswer ErrTransportUnavailable
  | Reply result code pa_body =>
      if decide (result = "NOT_TRANSMITTED") then NotTransmitted ErrTransportUnavailable (boundedCode code)
      else if decide (result = "ANSWERED") then
        match ParsePA pa_body with
        | Err e => NoAnswer e
        | Ok pa => if (pa_PNumber pa =? pn)%Z then Answer pa else NoAnswer ErrPAWrongPNumber
        end
      else NoAnswer ErrTransportUnavailable
  end.

Definition refusedDark : send_result := NotTransmitted ErrDarkNoEgress "".

(** DarkGuard.SendPS around the hand-off; PS is in pmsd's forbidden-record table,
    so IsFinancialRecord holds. *)
Definition SendPS (iface : string) (pn : Z) (body : string) (reply : handoff_reply) : send_result :=
  if Dark cfg then refusedDark
  else if negb (HasPrefix body RecordPS) then refusedDark
  else if negb (pnOfBody body =? pn)%Z then refusedDark
  else match handoff_SendPS iface pn body reply with
  | Answer pa => if (pa_PNumber pa =? pn)%Z then Answer pa else NoAnswer ErrPAWrongPNumber
  | r => r
  end.

(** Bytes may have reached the PMS. *)
Definition transmitted (r : send_result) : bool :=
  match r with NotTransmitted _ _ => false | _ => true end.

(** ** settle *)

Record Settlement_of := mkSettlementOf {
  so_outcome : attempt_outcome;
  so_as : string;
  so_outbox : outbox_state;
  so_event : string;
  so_reason : string
}.

(** [effect]: what p4_answer_effect answered, UNPROVEN when it could not be read. *)
Definition conclude (r : send_result) (effect : string) : Settlement_of :=
  match r with
  | Answer pa =>
      if decide (effect = "UNPROVEN") then mkSettlementOf UNKNOWN (AS pa) HELD_RECOVERY "UNKNOWN_UNCONFIRMED_ANSWER" ""
      else mkSettlementOf ACKED (AS pa) DONE "PA_MATCHED" ""
  | NotTransmitted _ reason => mkSettlementOf NOT_SENT "" QUEUED "NOT_SENT" reason
  | NoAnswer _ => mkSettlementOf UNKNOWN "" HELD_RECOVERY "UNKNOWN_NO_CONCLUSIVE_PA" ""
  end.

Definition settle_tx (c : Claim) (id : string) (so : Settlement_of) (now : Time) : TX PDb () :=
  SettleAttempt id (so_outcome so) (so_as so) ≫= λ _,
  AppendAttemptEvent id (so_event so) ≫= λ _,
  if bool_decide (so_outcome so = NOT_SENT) && negb (HasPrefix (so_reason so) "ROOM_CHANGED")
  then Defer (cl_OutboxID c) DeferNotSent (so_reason so) now ≫= λ _, mret ()
  else FinishClaim (cl_OutboxID c) (so_outbox so).

Record settle_env := mkSettleEnv {
  st_now : Time;
  st_confirmed : string → string → bool;
  st_effect_lost : bool;              (* the effect lookup failed *)
  st_faults : list bool;
  st_fate : commit_fate;
  st_outcome_lost : bool;             (* the call of the settlement function failed *)
  st_grant : grant_env
}.

Definition answerEffect (env : settle_env) (iface : string) (r : send_result) : string :=
  match r with
  | Answer pa => if st_effect_lost env then "UNPROVEN" else p4_answer_effect (st_confirmed env) iface (Some (AS pa))
  | _ => "UNPROVEN"
  end.

(** The settlement moves after the outcome is durable; the flag is false when the
    call failed. *)
Definition outcome_call (env : settle_env) (posting : string) (db : PDb) : PDb * bool :=
  if st_outcome_lost env then (db, false)
  else match p4_posting_settlement_outcome (st_confirmed env) (st_grant env) posting db with
       | Ok db' => (db', true)
       | Err _ => (db, false)
       end.

Definition apply_outcome (env : settle_env) (posting : string) (db : PDb) : PDb := (outcome_call env posting db).1.

Definition settle (c : Claim) (id : string) (r : send_result) (env : settle_env) (db : PDb) : PDb :=
  let so := conclude r (answerEffect env (PMSInterfaceID (cl_Pinned c)) r) in
  match settle_tx c id so (st_now env) (mkTx db false (st_faults env) (λ _, xH) 0) with
  | (_, Err _) => db
  | (t, Ok _) =>
      match commit (st_fate env) db t with
      | (db', Ok _) => if decide (so_outcome so = ACKED ∨ so_outcome so = UNKNOWN)
                       then apply_outcome env (cl_PostingID c) db' else db'
      | (db', Err _) => db'
      end
  end.

(** ** CreatePosting *)

(** The INSERT of a posting: the charge gate's one unresolved charge per stay,
    the idempotency key, the primary key; [gates] is the verdict of the triggers
    that re-check the interface, currency and freshness evidence. *)
Definition unresolved_charge (stay : string) (db : PDb) : bool :=
  existsb (λ ip, bool_decide (po_stay ip.2 = stay ∧ po_type ip.2 = CHARGE)
                 && match settlements db !! po_settlement ip.2 with
                    | Some se => bool_decide (se_status se ∈ ["REQUIRED"; "IN_PROGRESS"; "MANUAL_REVIEW"])
                    | None => false
                    end) (map_to_list (postings db)).

Definition insert_posting (id : string) (po : Posting) (gates : res sql_error ()) (db : PDb) : res sql_error PDb :=
  _ ← gates;
  _ ← check (negb (unresolved_charge (po_stay po) db)) (Raised "ROOM_CHARGE_UNRESOLVED");
  _ ← check (bool_decide (postings db !! id = None)) (DuplicateKey "pms_postings_pkey");
  _ ← check (forallb (λ ip, negb (bool_decide (po_key ip.2 = po_key po))) (map_to_list (postings db)))
        (DuplicateKey "pms_postings_idempotency_key_key");
  Ok (set_postings (<[id := po]>) db).

Definition InsertPosting (p : Pinned) (key : string) (gates : res sql_error ()) (now : Time) : TX PDb string :=
  gen_random_uuid ≫= λ id,
  exec (insert_posting id (mkPosting (p_TenantID p) (p_SiteID p) (PMSInterfaceID p) (SettlementID p) (StayID p)
          (PostingInterfaceRevisionID p) (GNumber p) CHARGE None (p_AmountMinor p) (Currency p) (CurrencyExponent p) key)
          gates) ≫= λ _,
  gen_random_uuid ≫= λ ob,
  exec (insert_outbox ob (mkOutbox (p_TenantID p) (p_SiteID p) (PMSInterfaceID p) id QUEUED now now 0 0 None)) ≫= λ _,
  mret id.

Definition create_tx (p : Pinned) (key : string) (gates : res sql_error ()) (env : run_env) : TX PDb string :=
  query (λ _, re_snapshot env) ≫= λ sn,
  match sn with
  | None => fail (Error ErrEvidenceOutOfScope)
  | Some s =>
      match Check p s with
      | Some code => fail (Error code)
      | None => InsertPosting p key gates (re_now env)
      end
  end.

Definition CreatePosting (p : Pinned) (key : string) (gates : res sql_error ()) (env : run_env) (db : PDb)
    : PDb * res error string :=
  if negb (PostingOn cfg) then (db, Err (Error ErrConfig))
  else match create_tx p key gates env (mkTx db false (re_faults env) (re_uuids env) 0) with
       | (_, Err e) => (db, Err e)
       | (t, Ok id) =>
           match commit (re_fate env) db t with
           | (db', Ok _) => (db', Ok id)
           | (db', Err e) => (db', Err e)
           end
       end.

(** ** Recovery and review *)

Definition recover_tx (attempt outbox : string) : TX PDb () :=
  SettleAttempt attempt UNKNOWN "" ≫= λ _,
  AppendAttemptEvent attempt "UNKNOWN_NO_CONCLUSIVE_PA" ≫= λ _,
  FinishClaim outbox HELD_RECOVERY.

(** One orphan of RecoverOrphanedAttempts; the loop stops at the first failure. *)
Definition recover_one (attempt outbox posting : string) (env : settle_env) (db : PDb) : PDb * bool :=
  match recover_tx attempt outbox (mkTx db false (st_faults env) (λ _, xH) 0) with
  | (_, Err _) => (db, false)
  | (t, Ok _) =>
      match commit (st_fate env) db t with
      | (db', Ok _) => outcome_call env posting db'
      | (db', Err _) => (db', false)
      end
  end.

Definition AnswerDeadline : Duration := 30 * Second.

(** Attempts left SENDING longer than a send can last. *)
Definition orphans (tenant site : string) (olderThan : Duration) (now : Time) (db : PDb) : list (string * string * string) :=
  let age := Z.max olderThan (AnswerDeadline + Minute) in
  omap (λ ia, match list_find (λ io, ob_posting io.2 = at_posting ia.2 ∧ ob_state io.2 = IN_FLIGHT)
                      (map_to_list (outboxes db)) with
              | Some (_, io) => Some (ia.1, io.1, at_posting ia.2)
              | None => None
              end)
    (filter (λ ia, at_tenant ia.2 = tenant ∧ at_site ia.2 = site ∧ at_outcome ia.2 = SENDING ∧ at_sent_at ia.2 < now - age)
       (map_to_list (attempts db))).

Fixpoint recover_list (l : list (string * string * string)) (envs : nat → settle_env) (db : PDb) : PDb :=
  match l with
  | [] => db
  | (a, ob, p) :: l' =>
      match recover_one a ob p (envs O) db with
      | (db', true) => recover_list l' (λ n, envs (S n)) db'
      | (db', false) => db'
      end
  end.

Definition RecoverOrphanedAttempts (tenant site : string) (olderThan : Duration) (now : Time)
    (envs : nat → settle_env) (db : PDb) : PDb :=
  recover_list (orphans tenant site olderThan now db) envs db.

(** A crash between recording the answer and moving the settlement is repaired:
    at most 100 postings a call, until one call fails. *)
Definition unmoved (tenant site : string) (db : PDb) : list string :=
  take 100 (filter (λ ip, po_tenant ip.2 = tenant ∧ po_site ip.2 = site ∧ po_type ip.2 = CHARGE ∧
      (λ se, (se_method se, se_status se)) <$> settlements db !! po_settlement ip.2 = Some ("PMS_POSTING", "IN_PROGRESS") ∧
      existsb (λ ia, bool_decide (at_outcome ia.2 = ACKED ∨ at_outcome ia.2 = UNKNOWN)) (attempts_of ip.1 db) = true)
    (map_to_list (postings db))).*1.

Fixpoint outcome_list (l : list string) (envs : nat → settle_env) (db : PDb) : PDb :=
  match l with
  | [] => db
  | p :: l' =>
      match outcome_call (envs O) p db with
      | (db', true) => outcome_list l' (λ n, envs (S n)) db'
      | (db', false) => db'
      end
  end.

Definition ApplySettlementOutcomes (tenant site : string) (envs : nat → settle_env) (db : PDb) : PDb :=
  outcome_list (unmoved tenant site db) envs db.

(** Requeue: out of UNKNOWN, only with a recorded authorization.  A posting has
    one active outbox row (outbox_one_active). *)
Definition held_row (posting : string) (db : PDb) : option string :=
  match list_find (λ io, ob_posting io.2 = posting ∧ ob_state io.2 = HELD_RECOVERY) (map_to_list (outboxes db)) with
  | Some (_, io) => Some io.1
  | None => None
  end.

Definition Requeue (posting : string) (db : PDb) : res sql_error PDb :=
  if negb (ReviewOn cfg) then Err (Raised ErrConfig)
  else match held_row posting db, reviews db !! posting with
  | Some ob, Some rv =>
      if decide (rv_terminal rv = Some CONFIRM_NOT_POSTED_RETRY ∧ rv_auth rv ≠ None)
      then update_outbox false ob (with_state QUEUED) db
      else Err (Raised ErrRetryNotAuthed)
  | _, _ => Err (Raised ErrRetryNotAuthed)
  end.
End engine.
