(* ===== verification/PostingLedger.v ===== *)
(** The ledger of room charges: what its statements keep (PostingTables,
    PostingEngine).

    [ledger_ok] is the invariant of one posting's attempts and review state, with
    the attempt a retry authorization was spent on; [advances] is what a statement
    may do to the ledger, [same_ledger] a statement that leaves it alone.  The
    section [transactions] carries any relation that contains [same_ledger]
    through every transaction of the engine. *)
From stdpp Require Import pretty.
From S2P Require Import Prelude GoStrings GoText CommerceTables CommerceFlow CommerceProofs Pg Modules PostingWire PostingGate PostingTables PostingEngine.

(** ** The latest attempt *)

Lemma foldr_later_spec ia l :
  foldr later ia l ∈ ia :: l ∧ ∀ x, x ∈ ia :: l → at_no x.2 ≤ at_no (foldr later ia l).2.
Proof.
  induction l as [|y l [IHin IHle]]; cbn [foldr].
  - split; [left|]. intros x [->|[]%elem_of_nil]%elem_of_cons. lia.
  - unfold later. destruct (Z.ltb_spec (at_no (foldr (λ ia ib, if at_no ib.2 <? at_no ia.2 then ia else ib) ia l).2) (at_no y.2)) as [Hlt|Hge].
    + split; [right; left|]. intros x Hx. apply elem_of_cons in Hx as [->|[->|Hx]%elem_of_cons]; [|lia|].
      * specialize (IHle ia ltac:(left)). unfold later in IHle. lia.
      * specialize (IHle x ltac:(by right)). unfold later in IHle. lia.
    + split; [set_solver|]. intros x Hx. apply elem_of_cons in Hx as [->|[->|Hx]%elem_of_cons]; [|lia|].
      * apply IHle. left.
      * apply IHle. by right.
Qed.

Lemma elem_of_attempts_of p db i a : (i, a) ∈ attempts_of p db ↔ attempts db !! i = Some a ∧ at_posting a = p.
Proof. unfold attempts_of. rewrite list_elem_of_filter, elem_of_map_to_list. naive_solver. Qed.

Lemma last_attempt_None p db :
  last_attempt p db = None → ∀ i a, attempts db !! i = Some a → at_posting a ≠ p.
Proof.
  unfold last_attempt. destruct (attempts_of p db) eqn:E; [|done]. intros _ i a Hi Hp.
  assert (H : (i, a) ∈ attempts_of p db) by (by apply elem_of_attempts_of). rewrite E in H. by apply elem_of_nil in H.
Qed.

Lemma last_attempt_Some p db i a :
  last_attempt p db = Some (i, a) →
  attempts db !! i = Some a ∧ at_posting a = p ∧
  ∀ j b, attempts db !! j = Some b → at_posting b = p → at_no b ≤ at_no a.
Proof.
  unfold last_attempt. destruct (attempts_of p db) as [|x l] eqn:E; [done|]. intros [= Hf].
  destruct (foldr_later_spec x l) as [Hin Hle]. rewrite Hf, <- E in Hin.
  apply elem_of_attempts_of in Hin as [H1 H2]. split_and!; [done..|]. intros j b Hj Hb.
  specialize (Hle (j, b)). rewrite <- E, Hf, elem_of_attempts_of in Hle. by apply Hle.
Qed.

(** ** The invariant *)

Definition consumed (p : string) (db : PDb) : bool :=
  match reviews db !! p with Some rv => rv_consumed rv | None => false end.

Definition is_sent (a : Attempt) : Prop := at_outcome a ≠ NOT_SENT.

(** [c] is the attempt the retry authorization was spent on, once it was: at
    most one attempt before it may have been sent, and from it on only the latest. *)
Record ledger_ok (p : string) (c : Z) (db : PDb) : Prop := {
  lo_unique : ∀ i j a b, attempts db !! i = Some a → attempts db !! j = Some b →
    at_posting a = p → at_posting b = p → at_no a = at_no b → i = j;
  lo_after : ∀ i a, attempts db !! i = Some a → at_posting a = p → is_sent a → c ≤ at_no a →
    ∀ j b, attempts db !! j = Some b → at_posting b = p → at_no b ≤ at_no a;
  lo_before : ∀ i j a b, attempts db !! i = Some a → attempts db !! j = Some b →
    at_posting a = p → at_posting b = p → is_sent a → is_sent b → at_no a < c → at_no b < c → at_no a = at_no b;
  lo_open : consumed p db = false → ∀ i a, attempts db !! i = Some a → at_posting a = p → c ≤ at_no a;
  lo_spent : consumed p db = true →
    (∃ i a, attempts db !! i = Some a ∧ at_posting a = p ∧ c ≤ at_no a) ∧
    ∃ rv, reviews db !! p = Some rv ∧ rv_auth rv = None ∧ rv_terminal rv = Some CONFIRM_NOT_POSTED_RETRY
}.

Definition pnumbers_unique (db : PDb) : Prop :=
  ∀ i j a b, attempts db !! i = Some a → attempts db !! j = Some b →
    at_tenant a = at_tenant b → at_site a = at_site b → at_iface a = at_iface b →
    at_p_number a = at_p_number b → i = j.

Definition ledger_inv (db : PDb) : Prop := (∀ p, ∃ c, ledger_ok p c db) ∧ pnumbers_unique db.

(** The identity of an attempt never changes and its outcome is settled once;
    outside [S] an attempt that may have been sent stays one. *)
Definition same_identity (a b : Attempt) : Prop :=
  at_tenant a = at_tenant b ∧ at_site a = at_site b ∧ at_posting a = at_posting b ∧
  at_iface a = at_iface b ∧ at_no a = at_no b ∧ at_p_number a = at_p_number b.

Definition advances (S : gset string) (db db' : PDb) : Prop :=
  (ledger_inv db → ledger_inv db') ∧
  (∀ i a, attempts db !! i = Some a → ∃ a', attempts db' !! i = Some a' ∧ same_identity a a' ∧
     (i ∉ S → is_sent a → is_sent a')) ∧
  postings db ⊆ postings db'.

#[export] Instance advances_refl S : Reflexive (advances S).
Proof. intros db. split_and!; [done| |done]. intros i a Hi. exists a. by split_and!. Qed.

#[export] Instance advances_trans S : Transitive (advances S).
Proof.
  intros x y z (H1 & H2 & Hp) (H3 & H4 & Hp'). split_and!; [tauto| |by etrans]. intros i a Hi.
  destruct (H2 i a Hi) as (b & Hb & Hab & Hs). destruct (H4 i b Hb) as (d & Hd & Hbd & Hs').
  exists d. split_and!; [done| |auto]. unfold same_identity in *. naive_solver congruence.
Qed.

(** The PMS acknowledged a charge of the settlement with OK, or a reviewer
    confirmed one as posted. *)
Definition evidence (id : string) (db : PDb) : Prop := acknowledged id db = true ∨ reviewed_posted id db = true.

(** The purchase of a settlement gave an entitlement. *)
Definition has_entitlement (se : Settlement) (db : PDb) : Prop :=
  ∃ k e, granted (shop db) !! k = Some e ∧ en_purchase e = se_purchase se.

(** A purchase has one settlement (settlements_purchase_id_key), and a room charge that is
    settled or has its entitlement has its evidence. *)
Definition one_settlement (db : PDb) : Prop :=
  ∀ i j x y, settlements db !! i = Some x → settlements db !! j = Some y → se_purchase x = se_purchase y → i = j.

Definition money (db : PDb) : Prop :=
  one_settlement db ∧ ∀ id se, settlements db !! id = Some se → se_method se = "PMS_POSTING" →
    se_status se = "SETTLED" ∨ has_entitlement se db → evidence id db.

(** A statement that leaves attempts and reviews alone, changes no posting and
    settles nothing without evidence. *)
Definition same_ledger (db db' : PDb) : Prop :=
  attempts db' = attempts db ∧ reviews db' = reviews db ∧ postings db ⊆ postings db' ∧ (money db → money db').

Lemma ledger_inv_same db db' : same_ledger db db' → ledger_inv db → ledger_inv db'.
Proof.
  intros (Ha & Hr & _) [H1 H2]. split.
  - intros p. destruct (H1 p) as [c [L1 L2 L3 L4 L5]]. exists c.
    split; unfold consumed in *; rewrite ?Ha, ?Hr; auto.
  - unfold pnumbers_unique. by rewrite Ha.
Qed.

Lemma same_advances S db db' : same_ledger db db' → advances S db db'.
Proof.
  intros H. split_and!; [by apply ledger_inv_same| |apply H]. intros i a Hi. exists a. destruct H as [-> _]. by split_and!.
Qed.

(** ** Inserting an attempt *)

Lemma bind_check {E A} b (e : E) (k : () → res E A) r :
  (check b e ≫= k) = Ok r ↔ b = true ∧ k () = Ok r.
Proof. destruct b; cbn; naive_solver. Qed.

Lemma bind_unit {E A} (m : res E ()) (k : () → res E A) r :
  (m ≫= k) = Ok r ↔ m = Ok () ∧ k () = Ok r.
Proof. destruct m as [[]|]; cbn; naive_solver. Qed.

(** What a successful INSERT has established. *)
Lemma insert_attempt_Ok id new db db' :
  insert_attempt id new db = Ok db' →
  p4_attempt_retry_gate new db = Ok () ∧ attempts db !! id = None ∧
  (∀ j b, attempts db !! j = Some b → at_posting b = at_posting new → at_no b ≠ at_no new) ∧
  (∀ j b, attempts db !! j = Some b → at_tenant b = at_tenant new → at_site b = at_site new →
     at_iface b = at_iface new → at_p_number b ≠ at_p_number new) ∧
  attempts db' = <[id := new]> (attempts db) ∧
  reviews db' = reviews (p4_consume_retry_authorization new db) ∧ postings db' = postings db ∧
  (∃ po, postings db !! at_posting new = Some po ∧ po_type po = CHARGE).
Proof.
  unfold insert_attempt, attempt_unique. rewrite !bind_unit, !check_Ok.
  intros (_ & Hg & Ht & Hrev & _ & _ & (Hid & Hno & Hpn) & [= <-]).
  unfold p4_attempt_targets_posting_reservation in Ht. unfold p4_reversal_never_executes in Hrev. rewrite check_Ok in Hrev.
  zify_guards. rewrite forallb_forall in Hno, Hpn. split_and!; try done.
  - intros j b Hj Hb E. specialize (Hno (j, b)). rewrite <- list_elem_of_In, elem_of_attempts_of in Hno.
    specialize (Hno (conj Hj Hb)). cbn in Hno. zify_guards. done.
  - intros j b Hj H1 H2 H3 H4. specialize (Hpn (j, b)). rewrite <- list_elem_of_In, elem_of_map_to_list in Hpn.
    specialize (Hpn Hj). cbn in Hpn. zify_guards. naive_solver.
  - destruct (postings db !! at_posting new) as [po|] eqn:Ep; [|done]. exists po. split; [done|].
    cbn in Hrev. by destruct (po_type po).
Qed.

(** Attempts of another posting, and its review state, are untouched. *)
Lemma ledger_ok_other p c id new db db' :
  attempts db' = <[id := new]> (attempts db) → reviews db' !! p = reviews db !! p →
  attempts db !! id = None → at_posting new ≠ p → ledger_ok p c db → ledger_ok p c db'.
Proof.
  intros Ha Hr Hid Hp [L1 L2 L3 L4 L5].
  assert (Hback : ∀ i a, attempts db' !! i = Some a → at_posting a = p → attempts db !! i = Some a).
  { intros i a. rewrite Ha, lookup_insert_Some. naive_solver. }
  split; unfold consumed in *; rewrite ?Hr.
  - intros i j a b Hi Hj Pa Pb. by eapply L1; eauto.
  - intros i a Hi Pa Sa Hc j b Hj Pb. by eapply (L2 i a); eauto.
  - intros i j a b Hi Hj Pa Pb. by eapply (L3 i j a b); eauto.
  - intros Hc i a Hi Pa. by eapply L4; eauto.
  - intros Hc. destruct (L5 Hc) as ((i & a & Hi & Pa & Hc') & rv). split; [|done].
    exists i, a. split_and!; try done. rewrite Ha, lookup_insert_ne; [done|]. intros ->. congruence.
Qed.

(** When the gate lets an attempt in, nothing sent is still open: either every
    sent attempt is settled before the retry point, or this attempt is it. *)
Lemma retry_gate_admits p c new db :
  at_posting new = p → ledger_ok p c db → p4_attempt_retry_gate new db = Ok () →
  (∀ j b, attempts db !! j = Some b → at_posting b = p → at_no b < at_no new) ∧
  ((∃ rv, reviews db !! p = Some rv ∧ rv_terminal rv = Some CONFIRM_NOT_POSTED_RETRY ∧ rv_auth rv = Some (at_no new)) ∨
   (∀ j b, attempts db !! j = Some b → at_posting b = p → is_sent b → at_no b < c)).
Proof.
  intros Hp [L1 L2 L3 L4 L5] Hg. unfold p4_attempt_retry_gate in Hg. rewrite Hp in Hg.
  destruct (last_attempt p db) as [[li l]|] eqn:El.
  - apply last_attempt_Some in El as (Hli & Hlp & Hlast). apply bind_check in Hg as [Hno Hg]. zify_guards.
    assert (Hlt : ∀ j b, attempts db !! j = Some b → at_posting b = p → at_no b < at_no new).
    { intros j b Hj Hb. specialize (Hlast j b Hj Hb). lia. }
    split; [done|]. destruct (at_outcome l) eqn:Eo; try done.
    + destruct (reviews db !! p) as [rv|] eqn:Er; [|done]. apply check_Ok in Hg. zify_guards. left. eauto.
    + destruct (reviews db !! p) as [rv|] eqn:Er; [|done]. apply check_Ok in Hg. zify_guards. left. eauto.
    + right. intros j b Hj Hb Hsb. destruct (decide (c ≤ at_no b)) as [Hc|]; [|lia]. exfalso.
      specialize (L2 j b Hj Hb Hsb Hc li l Hli Hlp). specialize (Hlast j b Hj Hb).
      assert (j = li) as -> by (apply (L1 j li b l); (done || lia)). simplify_eq. done.
  - pose proof (last_attempt_None p db El) as Hn. split; [|right]; intros j b Hj Hb; by destruct (Hn j b Hj).
Qed.

(** The review state after the insertion. *)
Definition spend (new : Attempt) (rv : Review) : Review :=
  if bool_decide (rv_terminal rv = Some CONFIRM_NOT_POSTED_RETRY) && bool_decide (rv_auth rv = Some (at_no new))
  then mkReview (rv_version rv + 1) (rv_terminal rv) None true (rv_escalations rv) (rv_reversal rv) else rv.

Definition authorises (new : Attempt) (rv : Review) : bool :=
  bool_decide (rv_terminal rv = Some CONFIRM_NOT_POSTED_RETRY) && bool_decide (rv_auth rv = Some (at_no new)).

Section inserted.
Context (p : string) (c : Z) (id : string) (new : Attempt) (db db' : PDb).
Context (L : ledger_ok p c db) (Hp : at_posting new = p) (Hid : attempts db !! id = None)
  (Hlt : ∀ j b, attempts db !! j = Some b → at_posting b = p → at_no b < at_no new)
  (Hnew : ∀ i a, attempts db' !! i = Some a ↔ (i = id ∧ a = new) ∨ (i ≠ id ∧ attempts db !! i = Some a))
  (Hrv : reviews db' !! p = spend new <$> reviews db !! p).

Lemma inserted_unique i j a b : attempts db' !! i = Some a → attempts db' !! j = Some b →
  at_posting a = p → at_posting b = p → at_no a = at_no b → i = j.
Proof using L Hlt Hnew.
  intros [[-> ->]|[? Hi]]%Hnew [[-> ->]|[? Hj]]%Hnew Pa Pb E; [done| | |by eapply lo_unique].
  - specialize (Hlt j b Hj Pb). lia.
  - specialize (Hlt i a Hi Pa). lia.
Qed.

Lemma inserted_max j b : attempts db' !! j = Some b → at_posting b = p → at_no b ≤ at_no new.
Proof using Hlt Hnew. intros [[-> ->]|[? Hj]]%Hnew Pb; [lia|]. specialize (Hlt j b Hj Pb). lia. Qed.

(** The attempt spends the authorization: it is the retry point. *)
Lemma retry_point_spent rv :
  reviews db !! p = Some rv → authorises new rv = true → ledger_ok p (at_no new) db'.
Proof using L Hp Hlt Hnew Hrv.
  intros Er Ha. pose proof inserted_unique as HU. pose proof inserted_max as HM. destruct L as [L1 L2 L3 L4 L5].
  rewrite Er in Hrv. cbn in Hrv. unfold spend in Hrv. unfold authorises in Ha. rewrite Ha in Hrv. zify_guards.
  assert (consumed p db = false) as Hc.
  { destruct (consumed p db) eqn:E; [|done]. destruct (L5 eq_refl) as (_ & rv' & E1 & E2 & _). congruence. }
  split.
  - exact HU.
  - intros i a Hi Pa Sa Hle j b Hj Pb. specialize (HM j b Hj Pb). lia.
  - intros i j a b [[-> ->]|[? Hi]]%Hnew [[-> ->]|[? Hj]]%Hnew Pa Pb Sa Sb Ha' Hb'; [lia..|].
    pose proof (L2 i a Hi Pa Sa (L4 Hc i a Hi Pa) j b Hj Pb).
    pose proof (L2 j b Hj Pb Sb (L4 Hc j b Hj Pb) i a Hi Pa). lia.
  - unfold consumed. by rewrite Hrv.
  - intros _. split; [|eexists; split; [exact Hrv|done]]. exists id, new. split_and!; [apply Hnew; auto|done|lia].
Qed.

(** It spends nothing, so no earlier attempt since the retry point was sent. *)
Lemma retry_point_kept :
  reviews db' !! p = reviews db !! p →
  (∀ j b, attempts db !! j = Some b → at_posting b = p → is_sent b → at_no b < c) →
  ∃ c', ledger_ok p c' db'.
Proof using L Hp Hlt Hnew Hid.
  intros Er Hs. pose proof inserted_unique as HU. pose proof inserted_max as HM. destruct L as [L1 L2 L3 L4 L5].
  destruct (consumed p db) eqn:Ec.
  - destruct (L5 eq_refl) as ((k & d & Hk & Pd & Hcd) & Hrest). pose proof (Hlt k d Hk Pd).
    exists c. split; unfold consumed in *; rewrite ?Er, ?Ec.
    + exact HU.
    + intros i a [[-> ->]|[? Hi]]%Hnew Pa Sa Hle j b Hj Pb; [by eapply HM|]. specialize (Hs i a Hi Pa Sa). lia.
    + intros i j a b [[-> ->]|[? Hi]]%Hnew [[-> ->]|[? Hj]]%Hnew Pa Pb Sa Sb Ha' Hb'; [lia..|]. by eapply (L3 i j a b).
    + done.
    + intros _. split; [|done]. exists k, d. split_and!; [|done..]. apply Hnew. right. split; [|done].
      intros ->. congruence.
  - exists (Z.min c (at_no new)). assert (Hold : ∀ i a, attempts db !! i = Some a → at_posting a = p → ¬ is_sent a).
    { intros i a Hi Pa Sa. specialize (Hs i a Hi Pa Sa). specialize (L4 eq_refl i a Hi Pa). lia. }
    split; unfold consumed in *; rewrite ?Er, ?Ec.
    + exact HU.
    + intros i a [[-> ->]|[? Hi]]%Hnew Pa Sa _ j b Hj Pb; [by eapply HM|]. by destruct (Hold i a Hi Pa).
    + intros i j a b [[-> ->]|[? Hi]]%Hnew [[-> ->]|[? Hj]]%Hnew Pa Pb Sa Sb _ _; [done|exfalso; by eapply Hold..].
    + intros _ i a [[-> ->]|[? Hi]]%Hnew Pa; [lia|]. specialize (L4 eq_refl i a Hi Pa). lia.
    + done.
Qed.

Lemma retry_point :
  ((∃ rv, reviews db !! p = Some rv ∧ rv_terminal rv = Some CONFIRM_NOT_POSTED_RETRY ∧ rv_auth rv = Some (at_no new)) ∨
   (∀ j b, attempts db !! j = Some b → at_posting b = p → is_sent b → at_no b < c)) →
  ∃ c', ledger_ok p c' db'.
Proof using L Hp Hlt Hnew Hrv Hid.
  intros Hcase. assert (∃ o, reviews db !! p = o) as [[rv|] Er] by eauto.
  - destruct (authorises new rv) eqn:Ea; [eexists; by eapply retry_point_spent|].
    apply retry_point_kept.
    + rewrite Hrv, Er. cbn. unfold spend. unfold authorises in Ea. by rewrite Ea.
    + destruct Hcase as [(rv' & Er' & E1 & E2)|H]; [|exact H]. rewrite Er in Er'. injection Er' as <-.
      unfold authorises in Ea. by rewrite E1, E2, !bool_decide_true in Ea.
  - apply retry_point_kept; [by rewrite Hrv, Er|]. destruct Hcase as [(rv & ? & _)|H]; [congruence|exact H].
Qed.
End inserted.

Lemma insert_attempt_ledger id new db db' :
  insert_attempt id new db = Ok db' → ledger_inv db → ledger_inv db'.
Proof.
  intros (Hg & Hid & Hno & Hpn & Ha & Hr & _)%insert_attempt_Ok [HL HP]. split.
  2:{ intros i j a b. rewrite Ha, !lookup_insert_Some.
      intros [[<- <-]|[? Hi]] [[<- <-]|[? Hj]] H1 H2 H3 H4; [done| | |by eapply HP].
      - exfalso. eapply (Hpn j b Hj); congruence.
      - exfalso. eapply (Hpn i a Hi); congruence. }
  intros p. destruct (HL p) as [c L].
  destruct (decide (at_posting new = p)) as [Hp|Hp].
  2:{ exists c. eapply ledger_ok_other; try done.
      rewrite Hr. unfold p4_consume_retry_authorization. cbn. by rewrite lookup_alter_ne. }
  destruct (retry_gate_admits p c new db Hp L Hg) as [Hlt Hcase].
  assert (Hnew : ∀ i a, attempts db' !! i = Some a ↔ (i = id ∧ a = new) ∨ (i ≠ id ∧ attempts db !! i = Some a)).
  { intros i a. rewrite Ha, lookup_insert_Some. naive_solver. }
  assert (Hrv : reviews db' !! p = spend new <$> reviews db !! p).
  { rewrite Hr. unfold p4_consume_retry_authorization. cbn. rewrite Hp, lookup_alter_eq. done. }
  exact (retry_point p c id new db db' L Hp Hid Hlt Hnew Hrv Hcase).
Qed.

Lemma insert_attempt_advances S id new db db' :
  insert_attempt id new db = Ok db' → advances S db db'.
Proof.
  intros H. split; [by eapply insert_attempt_ledger|].
  apply insert_attempt_Ok in H as (_ & Hid & _ & _ & Ha & _ & -> & _). split; [|done]. intros i a Hi. exists a.
  rewrite Ha, lookup_insert_ne by congruence. by split_and!.
Qed.

(** ** Settling an attempt *)

Lemma update_attempt_Ok id o as_ db db' :
  update_attempt id o as_ db = Ok db' →
  (attempts db !! id = None ∧ db' = db) ∨
  ∃ a a', attempts db !! id = Some a ∧ attempts db' = <[id := a']> (attempts db) ∧ reviews db' = reviews db ∧
    same_identity a a' ∧ at_outcome a' = o ∧ at_as a' = as_ ∧ (at_outcome a = SENDING ∨ o = at_outcome a) ∧
    postings db' = postings db ∧ shop db' = shop db.
Proof.
  unfold update_attempt. destruct (attempts db !! id) as [a|]; [|intros [= <-]; by left].
  rewrite !bind_unit, !check_Ok. intros (Ho & _ & [= <-]). right. eexists a, _. split_and!; try done.
  apply orb_true_iff in Ho as [Ho|Ho]; zify_guards; auto.
Qed.

Lemma update_attempt_ledger id o as_ db db' :
  update_attempt id o as_ db = Ok db' → ledger_inv db → ledger_inv db'.
Proof.
  intros [[_ ->]|(a & a' & Hi & Ha & Hr & Hid & Ho & _ & Hone & _)]%update_attempt_Ok; [done|]. intros [HL HP].
  destruct Hid as (I1 & I2 & I3 & I4 & I5 & I6).
  assert (Hback : ∀ j b', attempts db' !! j = Some b' → ∃ b, attempts db !! j = Some b ∧
    at_tenant b = at_tenant b' ∧ at_site b = at_site b' ∧ at_posting b = at_posting b' ∧
    at_iface b = at_iface b' ∧ at_no b = at_no b' ∧ at_p_number b = at_p_number b' ∧ (is_sent b' → is_sent b)).
  { intros j b'. rewrite Ha, lookup_insert_Some. intros [[<- <-]|[_ Hj]]; [|by exists b'].
    exists a. split_and!; try done. unfold is_sent. destruct Hone as [->| ->]; [done|by rewrite Ho]. }
  split.
  - intros p. destruct (HL p) as [c [L1 L2 L3 L4 L5]]. exists c. split; unfold consumed in *; rewrite ?Hr.
    + intros i j x y (bx & ? & ? & ? & ? & ? & ? & ? & ?)%Hback (yb & ? & ? & ? & ? & ? & ? & ? & ?)%Hback Px Py E.
      eapply L1; eauto; congruence.
    + intros i x (bx & ? & ? & ? & ? & ? & ? & ? & ?)%Hback Px Sx Hc j y (yb & ? & ? & ? & ? & ? & ? & ? & ?)%Hback Py.
      replace (at_no y) with (at_no yb) by done. replace (at_no x) with (at_no bx) by done.
      eapply (L2 i bx); eauto; congruence.
    + intros i j x y (bx & ? & ? & ? & ? & ? & ? & ? & ?)%Hback (yb & ? & ? & ? & ? & ? & ? & ? & ?)%Hback Px Py Sx Sy.
      replace (at_no y) with (at_no yb) by done. replace (at_no x) with (at_no bx) by done.
      eapply (L3 i j bx yb); eauto; congruence.
    + intros Hc i x (bx & ? & ? & ? & ? & ? & ? & ? & ?)%Hback Px. replace (at_no x) with (at_no bx) by done.
      eapply L4; eauto; congruence.
    + intros Hc. destruct (L5 Hc) as ((i & x & Hix & Px & Hcx) & Hrest). split; [|done].
      destruct (decide (i = id)) as [->|Hne].
      * exists id, a'. rewrite Ha, lookup_insert_eq. simplify_eq. split_and!; [done|congruence|lia].
      * exists i, x. by rewrite Ha, lookup_insert_ne.
  - intros i j x y (bx & ? & ? & ? & ? & ? & ? & ? & ?)%Hback (yb & ? & ? & ? & ? & ? & ? & ? & ?)%Hback E1 E2 E3 E4.
    eapply HP; eauto; congruence.
Qed.

Lemma update_attempt_advances S id o as_ db db' :
  o ≠ NOT_SENT ∨ id ∈ S → update_attempt id o as_ db = Ok db' → advances S db db'.
Proof.
  intros HS H. split; [by eapply update_attempt_ledger|].
  apply update_attempt_Ok in H as [[_ ->]|(a & a' & Hi & Ha & _ & Hid & Ho & _ & _ & -> & _)];
    [split; [intros i x Hx; by exists x|done]|]. split; [|done].
  intros i x Hx. destruct (decide (i = id)) as [->|Hne].
  - exists a'. rewrite Ha, lookup_insert_eq. simplify_eq. split_and!; [done|done|].
    intros HnS _. unfold is_sent. destruct HS; [done|set_solver].
  - exists x. rewrite Ha, lookup_insert_ne by done. by split_and!.
Qed.

(** ** The review state *)

Lemma ledger_inv_reviews db db' posting rv' :
  attempts db' = attempts db → reviews db' = <[posting := rv']> (reviews db) →
  (consumed posting db = true → rv_consumed rv' = true ∧ rv_auth rv' = None ∧ rv_terminal rv' = Some CONFIRM_NOT_POSTED_RETRY) →
  (consumed posting db = false → rv_consumed rv' = false) →
  ledger_inv db → ledger_inv db'.
Proof.
  intros Ha Hr Hc Hn [HL HP]. split; [|unfold pnumbers_unique; by rewrite Ha].
  intros p. destruct (HL p) as [c [L1 L2 L3 L4 L5]]. exists c.
  destruct (decide (p = posting)) as [->|Hne].
  - assert (Hcons : consumed posting db' = consumed posting db).
    { unfold consumed at 1. rewrite Hr, lookup_insert_eq. destruct (consumed posting db); [by destruct (Hc eq_refl)|auto]. }
    split; rewrite ?Ha, ?Hcons; auto. intros E. split; [by apply L5|].
    exists rv'. rewrite Hr, lookup_insert_eq. destruct (Hc E) as (_ & ? & ?). done.
  - split; unfold consumed in *; rewrite ?Ha, ?Hr, ?lookup_insert_ne by done; auto.
Qed.

Lemma review_ledger posting action attr expected rid amt db db' :
  record_posting_review_action posting action attr expected rid amt db = Ok db' →
  attempts db' = attempts db ∧ postings db ⊆ postings db' ∧ (ledger_inv db → ledger_inv db').
Proof.
  unfold record_posting_review_action. rewrite !bind_unit. intros (_ & _ & H).
  destruct (postings db !! posting) as [o|]; [|done]. cbn zeta in H.
  rewrite !bind_unit, !check_Ok in H. destruct H as (_ & _ & Hterm & _ & _ & Hrev & [= <-]).
  assert (Hat : ∀ g d, attempts (set_reviews g (if decide (action = "CREATE_REVERSAL") then set_postings d db else db)) = attempts db)
    by (intros; by destruct (decide (action = "CREATE_REVERSAL"))).
  assert (Hre : ∀ d, reviews (if decide (action = "CREATE_REVERSAL") then set_postings d db else db) = reviews db)
    by (intros; by destruct (decide (action = "CREATE_REVERSAL"))).
  split_and!; [apply Hat| |].
  { cbn. destruct (decide (action = "CREATE_REVERSAL")); [|done]. rewrite bool_decide_true in Hrev by done.
    cbn in Hrev. zify_guards. by apply insert_subseteq. }
  intros HI. pose proof HI as [HL _]. destruct (HL posting) as [c [_ _ _ _ L5]].
  eapply (ledger_inv_reviews db _ posting); [apply Hat|cbn [reviews set_reviews]; by rewrite Hre| | |done]; intros Hc.
  - destruct (L5 Hc) as (_ & rv & Er & Eau & Et). rewrite Er in *. cbn [default from_option id] in *.
    rewrite Et in *. apply orb_true_iff in Hterm as [Hesc|Ht]; [|by zify_guards]. rewrite Hesc. cbn.
    unfold consumed in Hc. rewrite Er in Hc. done.
  - unfold consumed in Hc. destruct (reviews db !! posting) as [rv|]; cbn [default from_option id];
      by destruct (bool_decide (action = "ESCALATE")).
Qed.

(** ** Statements that leave the ledger alone *)

#[export] Instance same_ledger_refl : Reflexive same_ledger.
Proof. by split. Qed.
#[export] Instance same_ledger_trans : Transitive same_ledger.
Proof. intros x y z (H1 & H2 & H3 & H7) (H4 & H5 & H6 & H8). split_and!; [congruence..|by etrans|auto]. Qed.

Lemma update_outbox_same r id f db db' : update_outbox r id f db = Ok db' → same_ledger db db'.
Proof.
  unfold update_outbox. destruct (outboxes db !! id); [|by intros [= <-]].
  rewrite !bind_unit. by intros (_ & _ & [= <-]).
Qed.

Lemma insert_outbox_same id o db db' : insert_outbox id o db = Ok db' → same_ledger db db'.
Proof. unfold insert_outbox. rewrite !bind_unit. by intros (_ & _ & _ & _ & [= <-]). Qed.

(** Evidence is never lost: acknowledged rows are frozen and a confirmation is final. *)
Lemma acknowledged_true se db :
  acknowledged se db = true ↔ ∃ p po i a, postings db !! p = Some po ∧ po_settlement po = se ∧ po_type po = CHARGE ∧
    attempts db !! i = Some a ∧ at_posting a = p ∧ at_outcome a = ACKED ∧ at_as a = Some "OK".
Proof.
  unfold acknowledged. rewrite existsb_exists. setoid_rewrite andb_true_iff. setoid_rewrite existsb_exists. split.
  - intros ([p po] & Hin & H1 & [i a] & Hia & H2). rewrite <- list_elem_of_In in Hin. rewrite <- list_elem_of_In in Hia.
    apply elem_of_map_to_list in Hin. apply elem_of_attempts_of in Hia. zify_guards. cbn in *. naive_solver.
  - intros (p & po & i & a & Hp & Hse & Hty & Hi & Hat & Ho & Has). exists (p, po).
    rewrite <- list_elem_of_In, elem_of_map_to_list. split_and!; [done|by apply bool_decide_true|].
    exists (i, a). rewrite <- list_elem_of_In, elem_of_attempts_of. split; [done|]. by apply bool_decide_true.
Qed.

Lemma reviewed_posted_true se db :
  reviewed_posted se db = true ↔ ∃ p po rv, postings db !! p = Some po ∧ po_settlement po = se ∧ po_type po = CHARGE ∧
    reviews db !! p = Some rv ∧ rv_terminal rv = Some "CONFIRM_POSTED".
Proof.
  unfold reviewed_posted. rewrite existsb_exists. split.
  - intros ([p po] & Hin & H). rewrite <- list_elem_of_In, elem_of_map_to_list in Hin. zify_guards. cbn in *.
    destruct H as (? & ? & H). destruct (reviews db !! p) as [rv|] eqn:E; [|done]. exists p, po, rv. done.
  - intros (p & po & rv & Hp & Hse & Hty & Hr & Ht). exists (p, po). rewrite <- list_elem_of_In, elem_of_map_to_list.
    split; [done|]. apply bool_decide_true. cbn. by rewrite Hr.
Qed.

Definition acked_frozen (x y : PDb) : Prop :=
  ∀ i a, attempts x !! i = Some a → at_outcome a = ACKED → attempts y !! i = Some a.
Definition confirmed_final (x y : PDb) : Prop :=
  ∀ p rv, reviews x !! p = Some rv → rv_terminal rv = Some "CONFIRM_POSTED" →
    ∃ rv', reviews y !! p = Some rv' ∧ rv_terminal rv' = Some "CONFIRM_POSTED".

Lemma evidence_mono id x y :
  postings x ⊆ postings y → acked_frozen x y → confirmed_final x y → evidence id x → evidence id y.
Proof.
  intros Hp Ha Hr [H|H]; [left|right].
  - apply acknowledged_true in H as (p & po & i & a & H1 & H2 & H3 & H4 & H5 & H6 & H7). apply acknowledged_true.
    exists p, po, i, a. split_and!; eauto using lookup_weaken.
  - apply reviewed_posted_true in H as (p & po & rv & H1 & H2 & H3 & H4 & H5). apply reviewed_posted_true.
    destruct (Hr p rv H4 H5) as (rv' & ? & ?). exists p, po, rv'. split_and!; eauto using lookup_weaken.
Qed.

Lemma money_mono x y :
  postings x ⊆ postings y → acked_frozen x y → confirmed_final x y →
  shop y = shop x → money x → money y.
Proof.
  intros Hp Ha Hr Hs [U M]. unfold money, one_settlement, has_entitlement, settlements. rewrite Hs. split; [exact U|].
  intros id se H1 H2 H3. eapply evidence_mono; [done..|]. by eapply M.
Qed.

Lemma insert_posting_same id po g db db' : insert_posting id po g db = Ok db' → same_ledger db db'.
Proof.
  unfold insert_posting. rewrite !bind_unit, !check_Ok. intros (_ & _ & Hn & _ & [= <-]). zify_guards.
  assert (Hsub : postings db ⊆ <[id := po]> (postings db)) by (by apply insert_subseteq).
  split_and!; [done..|]. apply money_mono; [done| | |done..]; intros ? ?; cbn; eauto.
Qed.

Lemma defer_same id k reason now db db' st : posting_outbox_defer id k reason now db = Ok (db', st) → same_ledger db db'.
Proof.
  unfold posting_outbox_defer. intros H.
  assert (Hu : ∀ f st', (update_outbox false id f db ≫= λ d, Ok (d, st')) = Ok (db', st) → same_ledger db db').
  { intros f st' (d & Hd & [= <- <-])%res_bind_Ok. by eapply update_outbox_same. }
  destruct (outboxes db !! id) as [o|]; [|done].
  destruct (ob_state o), k; try (by injection H as <- <-); try (by eapply Hu);
    destruct (_ <=? _); by eapply Hu.
Qed.

(** Settling moves the settlement and its purchase; the other tables of the shop stay. *)
Lemma follows_keeps pid new d : settled (p4_purchase_follows_settlement pid new d) = settled d ∧
  granted (p4_purchase_follows_settlement pid new d) = granted d.
Proof. unfold p4_purchase_follows_settlement. destruct (bought d !! pid); [|done]. repeat (destruct (decide _)); done. Qed.

Lemma set_status_money id se new db : settlements db !! id = Some se →
  (new = "SETTLED" → se_method se = "PMS_POSTING" → evidence id db) → money db → money (set_shop (set_status id se new) db).
Proof.
  intros Es Hnew [U M]. destruct (follows_keeps (se_purchase se) new (set_settled (shop db) (<[id := with_status new se]> (settled (shop db))))) as [E1 E2].
  unfold money, one_settlement, has_entitlement, settlements. cbn [shop set_shop]. unfold set_status. rewrite E1, E2. cbn [settled granted set_settled].
  assert (HB : ∀ i x, <[id := with_status new se]> (settled (shop db)) !! i = Some x → ∃ x0, settlements db !! i = Some x0 ∧
    se_purchase x0 = se_purchase x ∧ se_method x0 = se_method x ∧ (i ≠ id → x0 = x)).
  { intros i x [[<- <-]|[Hne Hx]]%lookup_insert_Some; [exists se; naive_solver|by exists x]. }
  split.
  - intros i j x y (x0 & X1 & X2 & _)%HB (y0 & Y1 & Y2 & _)%HB E. apply (U i j x0 y0 X1 Y1). congruence.
  - intros i x Hx Hm Hst. change (evidence i db). destruct (HB _ _ Hx) as (x0 & X1 & X2 & X3 & X4). destruct Hst as [Hst|(k & e & He & Hp)].
    + destruct (decide (i = id)) as [->|Hne]; [|rewrite <- (X4 Hne) in *; by apply (M i x0); auto].
      rewrite lookup_insert_eq in Hx. injection Hx as <-. by apply Hnew.
    + apply (M i x0 X1); [congruence|]. right. exists k, e. split; [done|congruence].
Qed.

Lemma update_settlement_same id new db db' : update_settlement id new db = Ok db' → same_ledger db db'.
Proof.
  unfold update_settlement. destruct (settlements db !! id) as [se|] eqn:Es; [|by intros [= <-]].
  destruct (decide (new = se_status se)); [by intros [= <-]|]. rewrite !bind_unit, !check_Ok. intros (_ & Hev & [= <-]).
  split_and!; [done..|]. apply set_status_money; [done|]. intros -> Hm.
  rewrite bool_decide_true in Hev by done. cbn in Hev. by apply orb_true_iff in Hev.
Qed.

Lemma grant_same g tenant site id db db' : grant_paid g tenant site id db = Ok db' → same_ledger db db'.
Proof.
  unfold grant_paid. intros ([d [[eid already] old]] & Hg & [= <-])%res_bind_Ok. split_and!; [done..|]. intros HM.
  apply paid_spec in Hg as [->|(se & pu & q & a & o & iface & S1 & S2 & S3 & S4 & B1 & B2 & _ & _ & HG)]; [exact HM|].
  destruct HG as [_ _ GS _ (w & _ & GG) _ _ _ _ _ _]. destruct HM as [U M].
  unfold money, one_settlement, has_entitlement, settlements. cbn [shop set_shop]. rewrite GS. split; [exact U|].
  intros i x Hx Hm Hst. change (evidence i db). destruct Hst as [Hst|(k & e & He & Hp)]; [by apply (M i x); auto|].
  rewrite GG in He. apply lookup_insert_Some in He as [[<- <-]|[_ He]].
  - cbn in Hp. assert (id = i) as <- by (by apply (U id i se x)). apply (M id x Hx Hm). left. unfold settlements in S1. congruence.
  - assert (HE : ∃ e0, granted (shop db) !! k = Some e0 ∧ en_purchase e0 = en_purchase e).
    { unfold supersede in He. destruct old as [y|]; [|by exists e]. destruct (granted (shop db) !! y) as [e1|] eqn:E1; [|by exists e].
      apply lookup_insert_Some in He as [[<- <-]|[_ He]]; [by exists e1|by exists e]. }
    destruct HE as (e0 & H0 & H1). apply (M i x Hx Hm). right. exists k, e0. split; [done|congruence].
Qed.

Lemma outcome_same cf g p db db' : p4_posting_settlement_outcome cf g p db = Ok db' → same_ledger db db'.
Proof.
  unfold p4_posting_settlement_outcome. intros H.
  destruct (postings db !! p) as [po|]; [|done]. destruct (decide (po_type po ≠ CHARGE)); [done|].
  destruct (settlements db !! po_settlement po) as [se|]; [|by injection H as <-].
  destruct (decide (se_method se ≠ "PMS_POSTING")); [by injection H as <-|].
  destruct (last_attempt p db) as [[i a]|]; [|by injection H as <-].
  destruct (settlement_target cf po a) as [target|]; [|by injection H as <-].
  apply res_bind_Ok in H as (d & Hd & H).
  transitivity d.
  - destruct (decide (_ ∨ _)); [by injection Hd as <-|].
    destruct (decide (_ ∈ _)); [by eapply update_settlement_same|done].
  - destruct (decide (target = "SETTLED")); [by eapply grant_same|by injection H as <-].
Qed.

Lemma abort_same p db db' : p4_posting_abort_before_send p db = Ok db' → same_ledger db db'.
Proof.
  unfold p4_posting_abort_before_send. destruct (postings db !! p) as [po|]; [|done].
  destruct (decide (po_type po ≠ CHARGE)); [done|]. rewrite bind_unit. intros [_ H].
  destruct (settlements db !! po_settlement po) as [se|]; [|by injection H as <-].
  destruct (decide (se_status se = "IN_PROGRESS")); [|by injection H as <-].
  apply update_settlement_same in H as (Ha & Hr & Hp & HM). by split_and!.
Qed.

Lemma requeue_rows_same ids db db' : requeue_rows ids db = Ok db' → same_ledger db db'.
Proof.
  revert db. induction ids as [|id ids IH]; intros db; cbn; [by intros [= <-]|]. intros (x & Hx & H)%res_bind_Ok.
  transitivity x; [by eapply update_outbox_same|by apply IH].
Qed.

Lemma review_apply_same g tenant site p db db' r : p4_posting_review_apply g tenant site p db = Ok (db', r) → same_ledger db db'.
Proof.
  unfold p4_posting_review_apply. destruct (postings db !! p) as [po|]; [|done]. rewrite bind_unit. intros [_ H]. cbv zeta in H.
  destruct (rv_terminal _); [|by injection H as <- _].
  assert (HU : ∀ (b : bool) st x, (if b then update_settlement (po_settlement po) st db else Ok db) = Ok x → same_ledger db x).
  { intros [] st x Hx; [by eapply update_settlement_same|by injection Hx as <-]. }
  destruct (decide _).
  { apply res_bind_Ok in H as (x & Hx & [= <- _]). destruct (_ && _); [by eapply requeue_rows_same|by injection Hx as <-]. }
  destruct (decide _); [by injection H as <- _|]. destruct (decide _).
  { apply res_bind_Ok in H as (x & Hx%HU & H). destruct (decide _); [|by injection H as <- _].
    apply res_bind_Ok in H as (y & Hy%grant_same & [= <- _]). by transitivity x. }
  destruct (decide _); [|by injection H as <- _]. by apply res_bind_Ok in H as (x & Hx%HU & [= <- _]).
Qed.

(** A decision is its record followed by statements that leave the ledger alone. *)
Lemma decide_review_split g tenant site posting action attr expected rid amt db db' :
  decide_review g tenant site posting action attr expected rid amt db = Ok db' →
  ∃ x, record_posting_review_action posting action attr expected rid amt db = Ok x ∧ same_ledger x db'.
Proof.
  unfold decide_review. rewrite bind_unit. intros (_ & (x & Hx & H)%res_bind_Ok). apply res_bind_Ok in H as ([y r] & Hy%review_apply_same & [= <-]). eauto.
Qed.

Lemma requeue_parked_same ob attr now db db' : posting_outbox_requeue_parked ob attr now db = Ok db' → same_ledger db db'.
Proof.
  unfold posting_outbox_requeue_parked. rewrite bind_unit. intros [_ H]. destruct (outboxes db !! ob); [|done].
  rewrite !bind_unit in H. destruct H as (_ & _ & H). by eapply update_outbox_same.
Qed.

Lemma Requeue_same cfg p db db' : Requeue cfg p db = Ok db' → same_ledger db db'.
Proof.
  unfold Requeue. destruct (negb _); [done|]. destruct (held_row p db), (reviews db !! p); try done.
  destruct (decide _); [|done]. apply update_outbox_same.
Qed.

Lemma zero_retry_ledger p ob est db db' :
  p4_authorize_zero_attempt_retry p ob est db = Ok db' →
  attempts db' = attempts db ∧ postings db ⊆ postings db' ∧ (ledger_inv db → ledger_inv db').
Proof.
  unfold p4_authorize_zero_attempt_retry. rewrite !bind_unit, !check_Ok. intros (_ & Hn & _ & _ & H).
  apply update_outbox_same in H as Hs. destruct Hs as (Ha & Hr & Hp & _). cbn in Ha, Hr, Hp. split_and!; [done..|].
  intros HI. zify_guards. pose proof (last_attempt_None _ _ Hn) as Hnone.
  assert (consumed p db = false) as Hc.
  { destruct HI as [HL _]. destruct (HL p) as [c [_ _ _ _ L5]]. destruct (consumed p db); [|done].
    destruct (L5 eq_refl) as ((i & a & Hi & Pa & _) & _). by destruct (Hnone i a Hi). }
  eapply (ledger_inv_reviews db _ p); [done|exact Hr|by rewrite Hc| |done].
  intros _. unfold consumed in Hc. by destruct (reviews db !! p).
Qed.

(** ** Transactions *)

(** What every statement of the engine does, for a relation on the tables that
    contains [same_ledger]: the inclusion passes through the transactions. *)
Section transactions.
Context (R : PDb → PDb → Prop) {Hrefl : Reflexive R} {Htrans : Transitive R}.
Context (same : ∀ db db', same_ledger db db' → R db db').

Definition tx_le (t t' : tx PDb) : Prop := R (tx_db t) (tx_db t').

#[local] Instance tx_le_refl : Reflexive tx_le.
Proof using Hrefl. intros t. unfold tx_le. reflexivity. Qed.
#[local] Instance tx_le_trans : Transitive tx_le.
Proof using Htrans. intros x y z. unfold tx_le. apply transitivity. Qed.

Lemma le_statement {A} (f : PDb → res sql_error (PDb * A)) :
  (∀ db db' a, f db = Ok (db', a) → R db db') → preserves tx_le (statement f).
Proof using Hrefl.
  intros H t t' r. unfold statement, tx_le.
  destruct (tx_aborted t); [by intros [= <- <-]|]. destruct (next_statement_fails t); [by intros [= <- <-]|].
  destruct (f (tx_db t)) as [[db a]|e] eqn:E; intros [= <- <-]; [by eapply H|by cbn].
Qed.

Lemma le_exec (f : PDb → res sql_error PDb) :
  (∀ db db', f db = Ok db' → R db db') → preserves tx_le (exec f).
Proof using Hrefl.
  intros H. apply le_statement. intros db db' []. destruct (f db) eqn:E; [|done]. intros [= <-]. by apply H.
Qed.

Lemma le_query {A} (f : PDb → A) : preserves tx_le (query f).
Proof using Hrefl. apply le_statement. intros db db' a [= <- <-]. reflexivity. Qed.

Lemma le_try {A} (m : TX PDb A) : preserves tx_le m → preserves tx_le (attempt_ m).
Proof using Type. intros H t t' r. unfold attempt_. destruct (m t) as [t1 r1] eqn:E. intros [= <- <-]. by eapply H. Qed.

Lemma le_uuid : preserves tx_le gen_random_uuid.
Proof using Hrefl. intros t t' r [= <- <-]. unfold tx_le. cbn. reflexivity. Qed.

Lemma le_bind {A B} (m : TX PDb A) (k : A → TX PDb B) :
  preserves tx_le m → (∀ a, preserves tx_le (k a)) → preserves tx_le (m ≫= k).
Proof using Htrans. apply preserves_bind. apply _. Qed.

Lemma le_ret {A} (a : A) : preserves tx_le (mret a : TX PDb A).
Proof using Hrefl. apply preserves_ret. apply _. Qed.

Lemma le_fail {A} e : preserves tx_le (fail e : TX PDb A).
Proof using Hrefl. apply preserves_fail. apply _. Qed.

Lemma le_update_outbox r ob f : preserves tx_le (exec (update_outbox r ob f)).
Proof using Hrefl Htrans same. apply le_exec. intros db db' H. eapply same, update_outbox_same, H. Qed.

Lemma le_defer ob k reason now : preserves tx_le (Defer ob k reason now).
Proof using Hrefl Htrans same. apply le_statement. intros db db' a H. eapply same, defer_same, H. Qed.

Lemma le_decline c code now : preserves tx_le (decline c code now).
Proof using Hrefl Htrans same. apply le_bind; [apply le_defer|]. intros. apply le_ret. Qed.

Lemma le_abort c code : preserves tx_le (abortBeforeSend c code).
Proof using Hrefl Htrans same.
  apply le_bind; [apply le_query|]. intros sent. destruct (decide (sent ≠ [])).
  - apply le_bind; [apply le_update_outbox|]. intros. apply le_ret.
  - apply le_bind; [|intros; apply le_ret]. apply le_exec.
    intros db db' H'. eapply same, abort_same, H'.
Qed.

Lemma le_claim tenant site iface now pin : preserves tx_le (ClaimNext tenant site iface now pin).
Proof using Hrefl Htrans same.
  apply le_bind.
  - apply le_statement. intros db db' a. unfold claim_head.
    destruct (lane_head tenant site iface db) as [[id o]|]; [|by intros [= <- <-]].
    destruct (now <? ob_not_before o); [by intros [= <- <-]|]. destruct (postings db !! ob_posting o); [|by intros [= <- <-]].
    intros (d & Hd & [= <- <-])%res_bind_Ok. eapply same, update_outbox_same, Hd.
  - intros [[[ob id] po]|]; [|apply le_ret]. apply le_bind; [apply le_query|].
    intros [[code state]|]; [|apply le_fail]. apply le_bind; [apply le_query|]. intros. apply le_ret.
Qed.

Lemma le_event id ev : preserves tx_le (AppendAttemptEvent id ev).
Proof using Hrefl Htrans same. apply le_exec. intros db db'. rewrite bind_unit. intros [_ [= <-]]. by apply same. Qed.

Lemma le_pnumber iface : preserves tx_le (AllocatePNumber iface).
Proof using Hrefl Htrans same. apply le_statement. intros db db' a [= <- _]. by apply same. Qed.

Lemma le_settle_tx c id so now :
  preserves tx_le (SettleAttempt id (so_outcome so) (so_as so)) → preserves tx_le (settle_tx c id so now).
Proof using Hrefl Htrans same.
  intros HS. apply le_bind; [done|]. intros _. apply le_bind; [apply le_event|].
  intros _. destruct (_ && _); [|apply le_update_outbox].
  apply le_bind; [apply le_defer|]. intros. apply le_ret.
Qed.

Lemma le_recover_tx a ob : preserves tx_le (SettleAttempt a UNKNOWN "") → preserves tx_le (recover_tx a ob).
Proof using Hrefl Htrans same.
  intros HS. apply le_bind; [done|]. intros _. apply le_bind; [apply le_event|intros; apply le_update_outbox].
Qed.

Lemma le_create_tx p key gates env : preserves tx_le (create_tx p key gates env).
Proof using Hrefl Htrans same.
  apply le_bind; [apply le_query|]. intros [s|]; [|apply le_fail]. destruct (Check p s); [apply le_fail|].
  apply le_bind; [apply le_uuid|]. intros id. apply le_bind.
  { apply le_exec. intros db db' H. eapply same, insert_posting_same, H. }
  intros _. apply le_bind; [apply le_uuid|]. intros ob. apply le_bind; [|intros; apply le_ret].
  apply le_exec. intros db db' H. eapply same, insert_outbox_same, H.
Qed.

Lemma le_claim_tx sha cfg tenant site iface env :
  (Dark cfg = false → ∀ p posting no pn h now, preserves tx_le (InsertAttempt p posting no pn h now)) →
  preserves tx_le (claim_tx sha cfg tenant site iface env).
Proof using Hrefl Htrans same.
  intros HI. apply le_bind; [apply le_claim|]. intros [c0|]; [|apply le_ret].
  apply le_bind; [apply le_try, le_query|]. intros [_|e]; [|apply le_decline].
  apply le_bind; [apply le_try, le_query|]. intros [[s|]|e]; [|apply le_decline..].
  cbv beta iota zeta. destruct (CheckFor _ _ _) as [code|]; [destruct (empty _); [apply le_decline|apply le_abort]|].
  destruct (Dark cfg) eqn:Ed.
  - apply le_bind; [apply le_update_outbox|]. intros. apply le_ret.
  - apply le_bind; [apply le_pnumber|]. intros pn. cbv beta. destruct (BuildPS _); [|apply le_decline].
    apply le_bind; [by apply HI|]. intros. apply le_ret.
Qed.

(** A transaction that ran and the fate of its commit. *)
Lemma le_commit {A} (m : TX PDb A) (db db' : PDb) (t : tx PDb) (r : res error A) fate c fs us :
  preserves tx_le m → m (mkTx db false fs us 0) = (t, r) → commit fate db t = (db', c) → R db db'.
Proof using Hrefl Htrans same.
  intros Hm Ht. apply Hm in Ht. unfold tx_le in Ht. cbn in Ht. unfold commit.
  destruct (tx_aborted t); [by intros [= <- _]|]. by destruct fate; intros [= <- _].
Qed.

Lemma le_outcome_call env p db : R db (outcome_call env p db).1.
Proof using Hrefl same.
  unfold outcome_call. destruct (st_outcome_lost env); [done|].
  destruct (p4_posting_settlement_outcome _ _ p db) eqn:E; [|done]. eapply same, outcome_same, E.
Qed.

Lemma le_ApplySettlementOutcomes tenant site envs db : R db (ApplySettlementOutcomes tenant site envs db).
Proof using Hrefl Htrans same.
  unfold ApplySettlementOutcomes. generalize (unmoved tenant site db). intros l. revert envs db.
  induction l as [|p l IH]; intros envs db; cbn [outcome_list]; [done|].
  pose proof (le_outcome_call (envs O) p db) as H. destruct (outcome_call (envs O) p db) as [db' []]; [|done].
  etrans; [exact H|apply IH].
Qed.

Lemma le_CreatePosting cfg p key gates env db : R db (CreatePosting cfg p key gates env db).1.
Proof using Hrefl Htrans same.
  unfold CreatePosting. destruct (negb _); [done|].
  destruct (create_tx p key gates env _) as [t [id|e]] eqn:E; [|done].
  destruct (commit (re_fate env) db t) as [db' c] eqn:Ec.
  assert (R db db') by (eapply le_commit; [apply le_create_tx|done..]). by destruct c.
Qed.

Lemma le_recover_one a ob p env db :
  preserves tx_le (SettleAttempt a UNKNOWN "") → R db (recover_one a ob p env db).1.
Proof using Hrefl Htrans same.
  intros HS. unfold recover_one. destruct (recover_tx a ob _) as [t [[]|e]] eqn:E; [|done].
  destruct (commit (st_fate env) db t) as [db' c] eqn:Ec.
  assert (R db db') by (eapply le_commit; [by apply le_recover_tx|done..]).
  destruct c; [|done]. etrans; [done|apply le_outcome_call].
Qed.

Lemma le_RecoverOrphanedAttempts tenant site older now envs db :
  (∀ a, preserves tx_le (SettleAttempt a UNKNOWN "")) → R db (RecoverOrphanedAttempts tenant site older now envs db).
Proof using Hrefl Htrans same.
  intros HS. unfold RecoverOrphanedAttempts. generalize (orphans tenant site older now db). intros l. revert envs db.
  induction l as [|[[a ob] p] l IH]; intros envs db; cbn [recover_list]; [done|].
  pose proof (le_recover_one a ob p (envs O) db (HS a)) as H. destruct (recover_one a ob p (envs O) db) as [db' []]; [|done].
  etrans; [exact H|apply IH].
Qed.

Lemma le_settle c id r env db :
  (∀ e, preserves tx_le (SettleAttempt id (so_outcome (conclude r e)) (so_as (conclude r e)))) →
  R db (settle c id r env db).
Proof using Hrefl Htrans same.
  intros HS. unfold settle. set (so := conclude r _).
  destruct (settle_tx c id so (st_now env) _) as [t [[]|e]] eqn:E; [|done].
  destruct (commit (st_fate env) db t) as [db' cm] eqn:Ec.
  assert (R db db') by (eapply le_commit; [apply le_settle_tx, HS|done..]).
  destruct cm; [|done]. destruct (decide _); [|done]. etrans; [done|apply le_outcome_call].
Qed.

Lemma le_claim_step sha cfg tenant site iface env db :
  (Dark cfg = false → ∀ p posting no pn h now, preserves tx_le (InsertAttempt p posting no pn h now)) →
  R db (claim_step sha cfg tenant site iface env db).1.
Proof using Hrefl Htrans same.
  intros HI. unfold claim_step. destruct (negb _); [done|].
  destruct (claim_tx sha cfg tenant site iface env _) as [t [r|e]] eqn:E; [|done].
  destruct (commit (re_fate env) db t) as [db' c] eqn:Ec.
  assert (R db db') by (eapply le_commit; [by apply le_claim_tx|done..]). by destruct c.
Qed.
End transactions.

(** The relations used: what may happen to the ledger, and nothing at all. *)
Lemma advances_insert S p posting no pn h now : preserves (tx_le (advances S)) (InsertAttempt p posting no pn h now).
Proof.
  apply le_bind; [apply _|apply le_uuid, _|]. intros id. apply le_bind; [apply _| |intros; apply le_ret, _].
  apply le_exec; [apply _|]. intros db db' H. by eapply insert_attempt_advances.
Qed.

Lemma advances_settle_attempt S id o as_ :
  o ≠ NOT_SENT ∨ id ∈ S → preserves (tx_le (advances S)) (SettleAttempt id o as_).
Proof. intros HS. apply le_exec; [apply _|]. intros db db' H. by eapply update_attempt_advances. Qed.

(** ** A claimed charge *)

(** The claim's pinned values are those of the posting row. *)
Definition pins (po : Posting) (p : Pinned) : Prop :=
  p_AmountMinor p = po_amount po ∧ GNumber p = po_g_number po ∧ Currency p = po_currency po ∧
  SettlementID p = po_settlement po ∧ StayID p = po_stay po.

Definition pinned (posting : string) (p : Pinned) (db : PDb) : Prop :=
  ∃ po, postings db !! posting = Some po ∧ pins po p.

(** What a worker that is told to send holds: a fresh, committed attempt in
    SENDING, of this posting, under this P#, and the PS built for it. *)
Definition claimed (cfg : PostingConfig) (X : gmap string Attempt) (r : claim_result) (db : PDb) : Prop :=
  match r with
  | ToSend c id pn body =>
      Dark cfg = false ∧ X !! id = None ∧ BuildPS (ps_of (cl_Pinned c) pn) = Ok body ∧
      (∃ po, postings db !! cl_PostingID c = Some po ∧ po_type po = CHARGE ∧ pins po (cl_Pinned c)) ∧
      ∃ a, attempts db !! id = Some a ∧ at_outcome a = SENDING ∧ at_posting a = cl_PostingID c ∧
        at_tenant a = p_TenantID (cl_Pinned c) ∧ at_site a = p_SiteID (cl_Pinned c) ∧
        at_iface a = PMSInterfaceID (cl_Pinned c) ∧ at_p_number a = pretty pn
  | _ => True
  end.

Lemma triple_same {A} (m : TX PDb A) (I : PDb → Prop) :
  (∀ db db', same_ledger db db' → I db → I db') →
  preserves (tx_le same_ledger) m → triple I m (λ _, I) (λ _, True).
Proof. intros HI H t t' [a|e] Ht E; [|done]. apply H in E. by eapply HI. Qed.

Lemma triple_result {A} (m : TX PDb A) P (Q : claim_result → PDb → Prop) (r : A → claim_result) :
  (∀ a d, Q (r a) d) → triple P (m ≫= λ a, mret (r a)) Q (λ _, True).
Proof.
  intros H. apply (triple_bind _ _ _ (λ _ _, True)); [by intros t t' []|]. intros a. by apply triple_ret.
Qed.

Definition at_claim (X : gmap string Attempt) (c : Claim) (db : PDb) : Prop :=
  attempts db = X ∧ pinned (cl_PostingID c) (cl_Pinned c) db.

Lemma at_claim_same X c db db' : same_ledger db db' → at_claim X c db → at_claim X c db'.
Proof.
  intros (Ha & _ & Hp & _) [H (po & Hpo & Hpin)]. split; [congruence|]. exists po. split; [|done]. by eapply lookup_weaken.
Qed.

Lemma ClaimNext_pinned tenant site iface now pin X :
  triple (λ d, attempts d = X) (ClaimNext tenant site iface now pin)
    (λ oc d, match oc with Some c => at_claim X c d | None => True end) (λ _, True).
Proof.
  apply (triple_bind _ _ _ (λ oc d, match oc with
    | Some (_, id, po) => attempts d = X ∧ postings d !! id = Some po | None => True end)).
  - apply triple_pre. intros db Hdb. apply triple_statement; [done|]. unfold claim_head.
    destruct (lane_head tenant site iface db) as [[id o]|]; [|done].
    destruct (now <? ob_not_before o); [done|]. destruct (postings db !! ob_posting o) as [po|] eqn:Ep; [|done].
    destruct (update_outbox _ _ _ db) as [db'|e] eqn:Eu; [|done]. cbn.
    apply update_outbox_same in Eu as (Ha & _ & Hp & _). split; [congruence|]. by eapply lookup_weaken.
  - intros [[[ob id] po]|]; [|by apply triple_ret]. apply triple_pre. intros db [Ha Hp].
    apply triple_read; [done|]. intros [[code state]|] _; [|by apply triple_fail].
    apply triple_read; [done|]. intros no _. apply triple_ret. intros ? ->. split; [done|]. exists po. by split_and!.
Qed.

Lemma claim_tx_claimed sha cfg tenant site iface env X :
  triple (λ d, attempts d = X) (claim_tx sha cfg tenant site iface env)
    (λ r d, claimed cfg X r d) (λ _, True).
Proof.
  assert (HD : ∀ P c code now, triple P (decline c code now) (λ r d, claimed cfg X r d) (λ _, True))
    by (intros; by apply triple_result).
  assert (HS : ∀ c, ∀ db db', same_ledger db db' → at_claim X c db → at_claim X c db')
    by (intros; by eapply at_claim_same).
  eapply triple_bind; [apply ClaimNext_pinned|]. intros [c0|]; [|by apply triple_ret].
  eapply triple_bind; [apply (triple_same _ _ (HS c0)), le_try, le_query, _|]. intros [_|e]; [|apply HD].
  eapply triple_bind; [apply (triple_same _ _ (HS c0)), le_try, le_query, _|]. intros [[s|]|e]; [|apply HD..].
  cbv beta iota zeta. destruct (CheckFor _ _ _) as [code|].
  { destruct (empty _); [apply HD|]. unfold abortBeforeSend.
    eapply triple_bind; [apply (triple_same _ _ (HS c0)), le_query, _|]. intros sent.
    destruct (decide (sent ≠ [])); by apply triple_result. }
  destruct (Dark cfg) eqn:Ed; [by apply triple_result|].
  eapply triple_bind; [apply (triple_same _ _ (HS c0)), le_pnumber; [apply _..|done]|]. intros pn.
  cbv beta. destruct (BuildPS _) as [body|] eqn:Eb; [|apply HD].
  eapply (triple_bind _ _ _ (λ id d, claimed cfg X (ToSend _ id pn body) d)); [|intros id; by apply triple_ret].
  eapply triple_bind; [apply (triple_same _ _ (HS c0)), le_uuid, _|]. intros id. apply triple_pre. intros db [Hdb (po & Hpo & Hpin)].
  eapply (triple_bind _ _ _ (λ _ d, claimed cfg X (ToSend _ id pn body) d)); [|intros; by apply triple_ret].
  apply triple_exec; [done|]. destruct (insert_attempt _ _ _) as [db'|] eqn:Ei; [|done].
  apply insert_attempt_Ok in Ei as (_ & Hid & _ & _ & Ha & _ & Hps & (po' & Hpo' & Hch)). cbn in Hpo'.
  assert (po' = po) as -> by congruence. cbn. split_and!; [done|congruence|exact Eb| |].
  - exists po. by rewrite Hps.
  - rewrite Ha. eexists. rewrite lookup_insert_eq. by split_and!.
Qed.

Lemma claim_step_claimed sha cfg tenant site iface env db :
  claimed cfg (attempts db) (claim_step sha cfg tenant site iface env db).2
    (claim_step sha cfg tenant site iface env db).1.
Proof.
  unfold claim_step. destruct (negb _); [done|].
  destruct (claim_tx sha cfg tenant site iface env _) as [t [r|e]] eqn:E; [|done].
  apply (claim_tx_claimed _ _ _ _ _ _ (attempts db)) in E; [|done]. unfold commit.
  destruct (tx_aborted t); [done|]. by destruct (re_fate env).
Qed.
