(* ===== verification/PostingProofs.v ===== *)
(** Histories of room charges (PostingTables, PostingEngine, PostingLedger).

    A [world] is the database, the workers between their commit and their
    settlement, and the PS that may have reached the PMS; [step] is one
    transaction, hand-off, crash or operator decision.  [world_ok] is the
    invariant of every history; the theorems say what was put on the wire. *)
From stdpp Require Import pretty.
From S2P Require Import Prelude GoStrings GoText CommerceRules CommerceTables Pg Modules PostingWire PostingGate PostingTables PostingEngine PostingLedger.

(** ** The history of the ledger, the workers and the wire *)

(** A worker between its commit and its settlement. *)
Record pending := mkPending {
  pd_claim : Claim;
  pd_id : string;
  pd_pn : Z;
  pd_body : string;
  pd_result : option send_result
}.

(** A PS that may have reached the PMS. *)
Record sent_ps := mkSent {
  w_id : string;
  w_posting : string;
  w_pinned : Pinned;
  w_pn : Z;
  w_body : string
}.

Record world := mkWorld { db : PDb; pend : list pending; wire : list sent_ps }.

Inductive op :=
| OCreate (p : Pinned) (key : string) (gates : res sql_error ()) (env : run_env)
| OClaim (tenant site iface : string) (env : run_env)
| OSend (k : nat) (reply : handoff_reply)
| OSettle (k : nat) (env : settle_env)
| OCrash                                                   (* every worker dies *)
| ORecover (tenant site : string) (olderThan : Duration) (now : Time) (envs : nat → settle_env)
| ORepair (tenant site : string) (envs : nat → settle_env)
| ORequeue (posting : string)
| OReview (g : grant_env) (tenant site posting action : string) (attributable : bool) (expected : option Z) (rev_id : string)
    (rev_amount : option Z)
| OZeroRetry (posting ob : string) (established : bool)
| OUnpark (ob : string) (attributable : bool) (now : Time)
| OOutcome (confirmed : string → string → bool) (g : grant_env) (posting : string)
| OEnv (dec nf : gset string) (rec : gset (string * string)) (park : gmap (string * string) Z).

Definition keep (x : PDb) (r : res sql_error PDb) : PDb := match r with Ok y => y | Err _ => x end.
Definition on_db (w : world) (x : PDb) : world := mkWorld x (pend w) (wire w).

Definition sent_of (d : pending) : sent_ps :=
  mkSent (pd_id d) (cl_PostingID (pd_claim d)) (cl_Pinned (pd_claim d)) (pd_pn d) (pd_body d).

Definition answered (r : send_result) (d : pending) : pending :=
  mkPending (pd_claim d) (pd_id d) (pd_pn d) (pd_body d) (Some r).

Section history.
Context (sha256_hex : string → string).

Definition step (cfg : PostingConfig) (o : op) (w : world) : world :=
  match o with
  | OCreate p key gates env => on_db w (CreatePosting cfg p key gates env (db w)).1
  | OClaim tenant site iface env =>
      match claim_step sha256_hex cfg tenant site iface env (db w) with
      | (x, ToSend c id pn body) => mkWorld x (mkPending c id pn body None :: pend w) (wire w)
      | (x, _) => on_db w x
      end
  | OSend k reply =>
      match pend w !! k with
      | Some d =>
          match pd_result d with
          | Some _ => w
          | None =>
              let r := SendPS sha256_hex cfg (PMSInterfaceID (cl_Pinned (pd_claim d))) (pd_pn d) (pd_body d) reply in
              mkWorld (db w) (<[k := answered r d]> (pend w))
                (if transmitted r then sent_of d :: wire w else wire w)
          end
      | None => w
      end
  | OSettle k env =>
      match pend w !! k with
      | Some d =>
          match pd_result d with
          | Some r => mkWorld (settle (pd_claim d) (pd_id d) r env (db w)) (delete k (pend w)) (wire w)
          | None => w
          end
      | None => w
      end
  | OCrash => mkWorld (db w) [] (wire w)
  | ORecover tenant site olderThan now envs => on_db w (RecoverOrphanedAttempts tenant site olderThan now envs (db w))
  | ORepair tenant site envs => on_db w (ApplySettlementOutcomes tenant site envs (db w))
  | ORequeue posting => on_db w (keep (db w) (Requeue cfg posting (db w)))
  | OReview g tenant site posting action attr expected rid amt =>
      on_db w (keep (db w) (decide_review g tenant site posting action attr expected rid amt (db w)))
  | OZeroRetry posting ob est => on_db w (keep (db w) (p4_authorize_zero_attempt_retry posting ob est (db w)))
  | OUnpark ob attr now => on_db w (keep (db w) (posting_outbox_requeue_parked ob attr now (db w)))
  | OOutcome cf g posting => on_db w (keep (db w) (p4_posting_settlement_outcome cf g posting (db w)))
  | OEnv dec nf rec park =>
      on_db w (mkPDb (postings (db w)) (outboxes (db w)) (attempts (db w)) (reviews (db w)) (pnumber_seq (db w))
                 (shop (db w)) (events (db w)) dec nf rec park)
  end.

Definition run (l : list (PostingConfig * op)) (w : world) : world := foldl (λ w co, step co.1 co.2 w) w l.

(** ** The invariant of the history *)

Definition attempt_is (d : Claim) (pn : Z) (a : Attempt) : Prop :=
  at_posting a = cl_PostingID d ∧ at_tenant a = p_TenantID (cl_Pinned d) ∧ at_site a = p_SiteID (cl_Pinned d) ∧
  at_iface a = PMSInterfaceID (cl_Pinned d) ∧ at_p_number a = pretty pn.

Definition built (posting : string) (p : Pinned) (pn : Z) (body : string) (x : PDb) : Prop :=
  BuildPS (ps_of p pn) = Ok body ∧ ∃ po, postings x !! posting = Some po ∧ po_type po = CHARGE ∧ pins po p.

Definition untouched (o : option send_result) : bool :=
  match o with Some r => negb (transmitted r) | None => true end.

Record pending_ok (x : PDb) (sent : list sent_ps) (d : pending) : Prop := {
  po_attempt : ∃ a, attempts x !! pd_id d = Some a ∧ attempt_is (pd_claim d) (pd_pn d) a ∧
    (pd_result d = None → is_sent a);
  po_unwired : untouched (pd_result d) = true → pd_id d ∉ (w_id <$> sent);
  po_built : built (cl_PostingID (pd_claim d)) (cl_Pinned (pd_claim d)) (pd_pn d) (pd_body d) x
}.

Record wire_ok (x : PDb) (s : sent_ps) : Prop := {
  wo_attempt : ∃ a, attempts x !! w_id s = Some a ∧ is_sent a ∧ at_posting a = w_posting s ∧
    at_tenant a = p_TenantID (w_pinned s) ∧ at_site a = p_SiteID (w_pinned s) ∧
    at_iface a = PMSInterfaceID (w_pinned s) ∧ at_p_number a = pretty (w_pn s);
  wo_built : built (w_posting s) (w_pinned s) (w_pn s) (w_body s) x
}.

Record world_ok (w : world) : Prop := {
  wo_ledger : ledger_inv (db w);
  wo_wire : Forall (wire_ok (db w)) (wire w);
  wo_wired_once : NoDup (w_id <$> wire w);
  wo_pend : Forall (pending_ok (db w) (wire w)) (pend w);
  wo_pend_once : NoDup (pd_id <$> pend w)
}.

Lemma built_mono posting p pn body x y : postings x ⊆ postings y → built posting p pn body x → built posting p pn body y.
Proof. intros Hp [Hb (po & ? & ?)]. split; [done|]. exists po. split; [|done]. by eapply lookup_weaken. Qed.

(** Statements that only advance the ledger keep the invariant, for the workers
    that are left; [S] are the attempts that were closed as not sent. *)
Lemma world_ok_advances S w x l :
  advances S (db w) x → l ⊆ pend w → NoDup (pd_id <$> l) →
  (∀ i, i ∈ S → (i ∉ (w_id <$> wire w)) ∧ (i ∉ (pd_id <$> l))) →
  world_ok w → world_ok (mkWorld x l (wire w)).
Proof.
  intros (Hinv & Hadv & Hp) Hl Hnd HS [W1 W2 W3 W4 W5]. split; cbn; [auto| |done| |done].
  - rewrite Forall_forall in W2 |- *. intros s Hs. destruct (W2 s Hs) as [(a & Hi & Hsent & Heq) Hb].
    split; [|by eapply built_mono]. destruct (Hadv _ _ Hi) as (a' & Hi' & Hid & Hkeep). exists a'.
    unfold same_identity in Hid. split_and!; [done| |naive_solver congruence..].
    apply Hkeep; [|done]. intros HiS. destruct (HS _ HiS) as [Hn _]. by apply Hn, list_elem_of_fmap_2.
  - rewrite Forall_forall in W4 |- *. intros d Hd. destruct (W4 d (Hl d Hd)) as [(a & Hi & Heq & Hsent) Hu Hb].
    split; [|done|by eapply built_mono]. destruct (Hadv _ _ Hi) as (a' & Hi' & Hid & Hkeep). exists a'.
    unfold same_identity, attempt_is in *. split_and!; [done|naive_solver congruence..|].
    intros Hr. apply Hkeep; [|auto]. intros HiS. destruct (HS _ HiS) as [_ Hn]. by apply Hn, list_elem_of_fmap_2.
Qed.

Lemma world_ok_db w x : advances ∅ (db w) x → world_ok w → world_ok (on_db w x).
Proof. intros H W. apply (world_ok_advances ∅); [done|done|apply W|set_solver|done]. Qed.

Lemma world_ok_keep w r : (∀ x, r = Ok x → advances ∅ (db w) x) → world_ok w → world_ok (on_db w (keep (db w) r)).
Proof. intros H W. apply world_ok_db; [|done]. destruct r; cbn; [by apply H|reflexivity]. Qed.

Lemma attempts_same_advances x y :
  attempts y = attempts x → postings x ⊆ postings y → (ledger_inv x → ledger_inv y) → advances ∅ x y.
Proof. intros Ha Hp HI. split_and!; [done| |done]. intros i a Hi. exists a. rewrite Ha. by split_and!. Qed.

Lemma world_ok_claim cfg tenant site iface env w : world_ok w → world_ok (step cfg (OClaim tenant site iface env) w).
Proof.
  intros W. cbn. pose proof (claim_step_claimed sha256_hex cfg tenant site iface env (db w)) as Hc.
  assert (HA : advances ∅ (db w) (claim_step sha256_hex cfg tenant site iface env (db w)).1).
  { apply le_claim_step; [apply _..|apply same_advances|]. intros. apply advances_insert. }
  destruct (claim_step sha256_hex cfg tenant site iface env (db w)) as [x r]. cbn in Hc, HA.
  pose proof (world_ok_db _ _ HA W) as W'. destruct r as [| | |c id pn body]; [done..|].
  cbn in Hc. destruct Hc as (_ & Hfresh & Hb & Hpo & a & Hi & Ho & Ha).
  assert (Hnp : id ∉ (pd_id <$> pend w)).
  { intros (d & -> & Hd)%list_elem_of_fmap. destruct W as [_ _ _ W4 _]. rewrite Forall_forall in W4.
    destruct (W4 d Hd) as [(b & Hb' & _) _ _]. congruence. }
  assert (Hnw : id ∉ (w_id <$> wire w)).
  { intros (s & -> & Hs)%list_elem_of_fmap. destruct W as [_ W2 _ _ _]. rewrite Forall_forall in W2.
    destruct (W2 s Hs) as [(b & Hb' & _) _]. congruence. }
  destruct W' as [W1 W2 W3 W4 W5]. split; cbn; [done|done|done| |by constructor]. constructor; [|done].
  split; cbn; [|done|by split]. exists a. unfold attempt_is, is_sent. rewrite Ho. naive_solver.
Qed.

Lemma world_ok_send cfg k reply w : world_ok w → world_ok (step cfg (OSend k reply) w).
Proof.
  intros W. cbn. destruct (pend w !! k) as [d|] eqn:Ek; [|done]. destruct (pd_result d) eqn:Er; [done|].
  set (r := SendPS _ _ _ _ _ _). destruct W as [W1 W2 W3 W4 W5]. pose proof Ek as Hsp.
  apply list_elem_of_split_length in Hsp as (l1 & l2 & Hl & Hk).
  rewrite Forall_forall in W4. destruct (W4 d) as [(a & Hi & Ha & Hs) Hu Hb]; [by eapply list_elem_of_lookup_2|].
  rewrite Er in Hu, Hs. specialize (Hu eq_refl). specialize (Hs eq_refl).
  assert (Hids : pd_id <$> <[k := answered r d]> (pend w) = pd_id <$> pend w).
  { rewrite list_fmap_insert. apply list_insert_id. by rewrite list_lookup_fmap, Ek. }
  assert (Hw : wire_ok (db w) (sent_of d)).
  { split; [|done]. destruct Ha as (? & ? & ? & ? & ?). exists a. by split_and!. }
  split; cbn; [done| | | |by rewrite Hids].
  - destruct (transmitted r); [by constructor|done].
  - destruct (transmitted r); [|done]. by constructor.
  - apply Forall_forall. intros e He. rewrite Hl, Hk, insert_app_r_alt, Nat.sub_diag in He by lia. cbn in He.
    rewrite Hl, fmap_app in W5. cbn in W5. apply NoDup_app in W5 as (_ & Hd1 & [Hd2 _]%NoDup_cons).
    assert (e = answered r d ∨ (e ∈ pend w ∧ pd_id e ≠ pd_id d)) as [->|[Hin Hne]].
    { apply elem_of_app in He as [He|[->|He]%elem_of_cons]; [right|by left|right].
      - split; [rewrite Hl; set_solver|]. intros E. apply (Hd1 (pd_id e)); [by apply list_elem_of_fmap_2|rewrite E; left].
      - split; [rewrite Hl; set_solver|]. intros E. apply Hd2. rewrite <- E. by apply list_elem_of_fmap_2. }
    + split; cbn; [by exists a| |done]. by destruct (transmitted r).
    + destruct (W4 e Hin) as [P1 P2 P3]. split; cbn; [done| |done]. intros Hue. specialize (P2 Hue).
      destruct (transmitted r); [|done]. cbn. by intros [?|?]%elem_of_cons.
Qed.

Lemma world_ok_settle cfg k env w : world_ok w → world_ok (step cfg (OSettle k env) w).
Proof.
  intros W. cbn. destruct (pend w !! k) as [d|] eqn:Ek; [|done]. destruct (pd_result d) as [r|] eqn:Er; [|done].
  apply list_elem_of_split_length in Ek as (l1 & l2 & Hl & Hk). pose proof W as [_ _ _ W4 W5].
  rewrite Hl, fmap_app in W5. cbn in W5. rewrite Hl in W4 |- *. rewrite Hk, delete_middle.
  apply NoDup_app in W5 as (Hn1 & Hd1 & [Hd2 Hn2]%NoDup_cons).
  assert (Hid : pd_id d ∉ (pd_id <$> l1 ++ l2)%list).
  { rewrite fmap_app. intros [H|H]%elem_of_app; [|done]. apply (Hd1 _ H). left. }
  apply Forall_app in W4 as [_ [Hpd _]%Forall_cons].
  apply (world_ok_advances (if transmitted r then ∅ else {[pd_id d]})); [| | | |done].
  - apply le_settle; [apply _..|apply same_advances|]. intros e. apply advances_settle_attempt.
    destruct r; cbn; [left; by destruct (decide _)|right; set_solver|by left].
  - rewrite Hl. set_solver.
  - rewrite fmap_app. apply NoDup_app. split_and!; [done| |done]. intros i Hi Hi2. apply (Hd1 i Hi). by right.
  - intros i Hi. destruct (transmitted r) eqn:Et; [set_solver|]. apply elem_of_singleton in Hi as ->. split; [|done].
    apply Hpd. rewrite Er. cbn. by rewrite Et.
Qed.

Lemma step_ok cfg o w : world_ok w → world_ok (step cfg o w).
Proof.
  intros W. destruct o as [| | | | | | | | | | | |dec nf rec park].
  - apply world_ok_db; [|done]. apply le_CreatePosting; [apply _..|apply same_advances].
  - by apply world_ok_claim.
  - by apply world_ok_send.
  - by apply world_ok_settle.
  - cbn. apply (world_ok_advances ∅); [done|set_solver|constructor|set_solver|done].
  - apply world_ok_db; [|done]. apply le_RecoverOrphanedAttempts; [apply _..|apply same_advances|].
    intros a. apply advances_settle_attempt. by left.
  - apply world_ok_db; [|done]. apply le_ApplySettlementOutcomes; [apply _..|apply same_advances].
  - apply world_ok_keep; [|done]. intros x H. eapply same_advances, Requeue_same, H.
  - apply world_ok_keep; [|done]. intros x (y & (Ha & Hp & HI)%review_ledger & Hs)%decide_review_split.
    transitivity y; [by apply attempts_same_advances|by apply same_advances].
  - apply world_ok_keep; [|done]. intros x (Ha & Hp & HI)%zero_retry_ledger. by apply attempts_same_advances.
  - apply world_ok_keep; [|done]. intros x H. eapply same_advances, requeue_parked_same, H.
  - apply world_ok_keep; [|done]. intros x H. eapply same_advances, outcome_same, H.
  - apply world_ok_db; [|done]. by apply same_advances.
Qed.

Lemma run_ok l w : world_ok w → world_ok (run l w).
Proof. revert w. induction l as [|[cfg o] l IH]; intros w W; [done|]. apply IH, step_ok, W. Qed.

(** ** What was sent *)

Lemma wire_sent x s : wire_ok x s → ∃ a, attempts x !! w_id s = Some a ∧ at_posting a = w_posting s ∧ is_sent a.
Proof. intros [(a & ? & ? & ? & _) _]. eauto. Qed.

Definition before (c : Z) (x : PDb) (s : sent_ps) : bool :=
  match attempts x !! w_id s with Some a => at_no a <? c | None => false end.

(** Of one posting, at most one PS before the retry point and one from it on. *)
Lemma sent_once p c w s s' :
  world_ok w → ledger_ok p c (db w) → s ∈ wire w → s' ∈ wire w → w_posting s = p → w_posting s' = p →
  before c (db w) s = before c (db w) s' → s = s'.
Proof.
  intros [_ W2 W3 _ _] [L1 L2 L3 _ _] Hs Hs' Hp Hp' E. eapply (NoDup_fmap_inj_on w_id); [done..|].
  rewrite Forall_forall in W2. destruct (wire_sent _ _ (W2 s Hs)) as (a & Hi & Pa & Sa).
  destruct (wire_sent _ _ (W2 s' Hs')) as (b & Hj & Pb & Sb). unfold before in E. rewrite Hi, Hj in E.
  apply (L1 _ _ a b); [done..|congruence|congruence|].
  destruct (Z.ltb_spec (at_no a) c), (Z.ltb_spec (at_no b) c); try done.
  - eapply (L3 _ _ a b); eauto; congruence.
  - apply Z.le_antisymm; [eapply (L2 (w_id s') b)|eapply (L2 (w_id s) a)]; eauto; congruence.
Qed.

Lemma sent_counts p w :
  world_ok w →
  (length (filter (λ s, w_posting s = p) (wire w)) ≤ 2)%nat ∧
  (consumed p (db w) = false → (length (filter (λ s, w_posting s = p) (wire w)) ≤ 1)%nat).
Proof.
  intros W. pose proof W as [[HL _] W2 W3 _ _]. destruct (HL p) as [c L].
  assert (HN : NoDup (filter (λ s, w_posting s = p) (wire w))) by (by apply NoDup_filter, (NoDup_fmap_1 w_id)).
  assert (HE : ∀ s s', s ∈ filter (λ s, w_posting s = p) (wire w) → s' ∈ filter (λ s, w_posting s = p) (wire w) →
    before c (db w) s = before c (db w) s' → s = s').
  { intros s s' [Hp Hs]%list_elem_of_filter [Hp' Hs']%list_elem_of_filter. by eapply sent_once. }
  split; [by apply (length_le_two (before c (db w)))|]. intros Hc. apply length_le_one; [done|].
  intros s s' Hs Hs'. apply HE; [done..|].
  assert (HB : ∀ s, s ∈ filter (λ s, w_posting s = p) (wire w) → before c (db w) s = false).
  { intros t [Hp Ht]%list_elem_of_filter. rewrite Forall_forall in W2.
    destruct (wire_sent _ _ (W2 t Ht)) as (a & Hi & Pa & _). unfold before. rewrite Hi.
    apply Z.ltb_ge. eapply lo_open; eauto; congruence. }
  by rewrite !HB.
Qed.

(** Two PS with one P# on one interface are one PS. *)
Lemma pnumber_names_one w s s' :
  world_ok w → s ∈ wire w → s' ∈ wire w → p_TenantID (w_pinned s) = p_TenantID (w_pinned s') →
  p_SiteID (w_pinned s) = p_SiteID (w_pinned s') → PMSInterfaceID (w_pinned s) = PMSInterfaceID (w_pinned s') →
  w_pn s = w_pn s' → s = s'.
Proof.
  intros [[_ HP] W2 W3 _ _] Hs Hs' E1 E2 E3 E4. eapply (NoDup_fmap_inj_on w_id); [done..|].
  rewrite Forall_forall in W2. destruct (W2 s Hs) as [(a & Ha & _ & _ & ? & ? & ? & ?) _].
  destruct (W2 s' Hs') as [(b & Hb & _ & _ & ? & ? & ? & ?) _]. eapply HP; eauto; congruence.
Qed.

Definition no_charges (x : PDb) : Prop := attempts x = ∅ ∧ ∀ p, consumed p x = false.

Lemma no_charges_ok x : no_charges x → world_ok (mkWorld x [] []).
Proof.
  intros [Ha Hc]. split; cbn; [|constructor..]. split.
  - intros p. exists 0. split; rewrite ?Ha, ?Hc; try done; intros *; rewrite lookup_empty; done.
  - intros i j a b. by rewrite Ha, lookup_empty.
Qed.

(** C1. No guest is charged twice by the program: in any history of workers,
    crashes, lost connections, orphan recovery, review decisions and requeues,
    under any configuration at each step, a posting is put on the PMS wire at
    most once; a second time only after a reviewer's recorded
    CONFIRM_NOT_POSTED_RETRY was spent on it, and never a third time.  A P# names
    one PS of its interface. *)
Theorem no_double_charge (x : PDb) (l : list (PostingConfig * op)) :
  no_charges x →
  let w := run l (mkWorld x [] []) in
  (∀ p, let sent := filter (λ s, w_posting s = p) (wire w) in
    (length sent ≤ 2)%nat ∧
    ((1 < length sent)%nat → ∃ rv, reviews (db w) !! p = Some rv ∧ rv_consumed rv = true ∧
                                 rv_terminal rv = Some CONFIRM_NOT_POSTED_RETRY)) ∧
  (∀ s s', s ∈ wire w → s' ∈ wire w → p_TenantID (w_pinned s) = p_TenantID (w_pinned s') →
    p_SiteID (w_pinned s) = p_SiteID (w_pinned s') → PMSInterfaceID (w_pinned s) = PMSInterfaceID (w_pinned s') →
    w_pn s = w_pn s' → s = s').
Proof.
  intros H w. assert (W : world_ok w) by (by apply run_ok, no_charges_ok). split.
  - intros p sent. destruct (sent_counts p w W) as [H2 H1]. split; [done|]. intros Hlt.
    destruct (consumed p (db w)) eqn:Ec; [|specialize (H1 eq_refl); fold sent in H1; lia].
    destruct W as [[HL _] _ _ _ _]. destruct (HL p) as [c L]. destruct (lo_spent _ _ _ L Ec) as (_ & rv & Er & _ & Et).
    exists rv. unfold consumed in Ec. by rewrite Er in Ec.
  - intros s s' Hs Hs'. by eapply pnumber_names_one.
Qed.

(** What goes on the wire is the charge that was authorised: every PS is
    the one built for a CHARGE posting that exists, from that posting's own
    amount, reservation number and settlement, and its attempt was committed
    before. *)
Theorem wire_carries_posting (x : PDb) (l : list (PostingConfig * op)) (s : sent_ps) :
  no_charges x → let w := run l (mkWorld x [] []) in s ∈ wire w →
  BuildPS (ps_of (w_pinned s) (w_pn s)) = Ok (w_body s) ∧
  (∃ po, postings (db w) !! w_posting s = Some po ∧ po_type po = CHARGE ∧ pins po (w_pinned s)) ∧
  ∃ a, attempts (db w) !! w_id s = Some a ∧ at_posting a = w_posting s ∧ at_p_number a = pretty (w_pn s).
Proof.
  intros H w Hs. assert (W : world_ok w) by (by apply run_ok, no_charges_ok).
  destruct W as [_ W2 _ _ _]. rewrite Forall_forall in W2. destruct (W2 s Hs) as [(a & ? & _ & ? & _ & _ & _ & ?) [? ?]].
  split_and!; [done..|eauto].
Qed.

(** ** DARK *)

Definition same_attempts (x y : PDb) : Prop := dom (attempts y) = dom (attempts x).

#[local] Instance same_attempts_refl : Reflexive same_attempts.
Proof. done. Qed.
#[local] Instance same_attempts_trans : Transitive same_attempts.
Proof. intros x y z. unfold same_attempts. congruence. Qed.

Lemma same_ledger_attempts x y : same_ledger x y → same_attempts x y.
Proof. unfold same_attempts. by intros [-> _]. Qed.

Lemma same_attempts_settle id o as_ : preserves (tx_le same_attempts) (SettleAttempt id o as_).
Proof.
  apply le_exec; [apply _|]. intros x y [[_ ->]|(a & a' & Hi & Ha & _)]%update_attempt_Ok; [done|].
  unfold same_attempts. rewrite Ha, dom_insert_L. apply elem_of_dom_2 in Hi. set_solver.
Qed.

Lemma SendPS_dark cfg iface pn body reply :
  Dark cfg = true → SendPS sha256_hex cfg iface pn body reply = NotTransmitted ErrDarkNoEgress "".
Proof. intros H. unfold SendPS. by rewrite H. Qed.

Lemma dark_step cfg o w :
  Dark cfg = true → wire (step cfg o w) = wire w ∧ same_attempts (db w) (db (step cfg o w)).
Proof.
  intros Hd. pose proof same_ledger_attempts as HS.
  assert (HK : ∀ r, (∀ x, r = Ok x → same_attempts (db w) x) → same_attempts (db w) (keep (db w) r)).
  { intros [x|e] H; [by apply H|done]. }
  destruct o as [| | | | | | | | | | | |dec nf rec park]; cbn [step on_db wire db]; try (split; [done|]).
  - apply le_CreatePosting; [apply _..|done].
  - assert (HA : same_attempts (db w) (claim_step sha256_hex cfg tenant site iface env (db w)).1).
    { apply le_claim_step; [apply _..|done|]. congruence. }
    destruct (claim_step sha256_hex cfg tenant site iface env (db w)) as [x []]; by cbn in *.
  - destruct (pend w !! k) as [d|]; [|done]. destruct (pd_result d); [done|]. cbn. by rewrite SendPS_dark.
  - destruct (pend w !! k) as [d|]; [|done]. destruct (pd_result d) as [r|]; [|done]. cbn. split; [done|].
    apply le_settle; [apply _..|done|]. intros. apply same_attempts_settle.
  - done.
  - apply le_RecoverOrphanedAttempts; [apply _..|done|]. intros. apply same_attempts_settle.
  - apply le_ApplySettlementOutcomes; [apply _..|done].
  - apply HK. intros x H. eapply HS, Requeue_same, H.
  - apply HK. intros x (y & (Ha & _)%review_ledger & (Hb & _))%decide_review_split. unfold same_attempts. by rewrite Hb, Ha.
  - apply HK. intros x (Ha & _)%zero_retry_ledger. unfold same_attempts. by rewrite Ha.
  - apply HK. intros x H. eapply HS, requeue_parked_same, H.
  - apply HK. intros x H. eapply HS, outcome_same, H.
  - done.
Qed.

(** DARK means dark: as long as the transmit switch is off, no history puts
    a byte on the PMS wire or adds an attempt, whatever is queued, claimed,
    reviewed, requeued or already in a worker's hands. *)
Theorem dark_never_sends (w : world) (l : list (PostingConfig * op)) :
  Forall (λ co, Dark co.1 = true) l →
  wire (run l w) = wire w ∧ dom (attempts (db (run l w))) = dom (attempts (db w)).
Proof.
  intros Hl. revert w. induction Hl as [|[cfg o] l Hd _ IH]; intros w; [done|].
  destruct (IH (step cfg o w)) as [H1 H2]. destruct (dark_step cfg o w Hd) as [H3 H4].
  unfold same_attempts in H4. cbn [run foldl fst snd]. split; [by rewrite <- H3|by rewrite <- H4].
Qed.
End history.

(** ** A charge whose answer is lost, reviewed, retried and settled *)
Module LedgerSample.
Definition sha (s : string) : string := "0" +:+ s.
Definition live : PostingConfig := mkPostingConfig true true true true true.
Definition dark : PostingConfig := mkPostingConfig true true true false true.

(** A room guest of stay1 bought package r1 at the quote q1, to be charged to the room. *)
Definition sc : scope := ("t1", "site1").
Definition terms : GrantSnapshot := CommerceRules.mkSnapshot 1 "plan1" "r1" 1 10000 5000 2 "BLOCK_NEW_DEVICE" 0 0 0 0 "VALIDITY_WINDOW" "MANUAL_END" "" None "PMS_POSTING" 0.
Definition sales : SDB := mkSDB
  {["ac1" := mkAuthContext sc "pms" (Some "stay1") None None None None "dev" "net" 2000 (Some 800) None]}
  {["q1" := mkQuote sc "ac1" "r1" (Some "if1") (Some "map1") 1500 (Some "EUR") (Some 2) None None None terms 2000 (Some 800)]}
  {["pu1" := mkPurchase sc "r1" (Some "q1") (Some "ac1") (Some "if1") (Some "stay1") "GUEST_SELECTION" 1500 (Some "EUR") (Some 2) "AWAITING_SETTLEMENT"]}
  {["se1" := mkSettlement sc "pu1" "PMS_POSTING" "IN_PROGRESS"]}
  ∅ ∅ ∅ ∅
  {["r1" := mkRevision sc "p1" "plan1" "STANDARD" 1500 (Some "EUR") (Some 2) ["PMS_POSTING"] None None None None None]}
  ∅ ∅
  {["plan1" := (sc, mkPlan "plan1" 10000 5000 2 0 0 "VALIDITY_WINDOW")]}
  ∅ [] [].
Definition start : PDb := mkPDb ∅ ∅ ∅ ∅ ∅ sales [] ∅ ∅ ∅ ∅.
Definition grant : grant_env := mkGrantEnv 1000 "e1" {| timestamptz := λ _, None |}.
Definition env (u : nat → positive) : run_env :=
  mkRunEnv 1000 (Some ("WIFI", "AWAITING_SETTLEMENT")) (Some GateSample.snapshot) [] u Committed.
Definition senv : settle_env := mkSettleEnv 1000 (λ _ _, false) false [] Committed false grant.
Definition posting : string := uuid_text 2.
Definition create : op := OCreate GateSample.pinned "k1" (Ok ()) (env (λ n, match n with O => 2%positive | S _ => 3%positive end)).
Definition claim_by (u : positive) : op := OClaim "t1" "site1" "if1" (env (λ _, u)).
Definition ok_answer (n : Z) : handoff_reply := Reply "ANSWERED" "" ("PA|P#" +:+ pretty n +:+ "|ASOK|").

(** The first PS is sent and its answer lost; a reviewer authorises one retry. *)
Definition history : list (PostingConfig * op) :=
  (live,.) <$> [create; claim_by 4; OSend 0 Broken; OSettle 0 senv;
    claim_by 5;
    OReview grant "t1" "site1" posting CONFIRM_NOT_POSTED_RETRY true None "" None; ORequeue posting;
    claim_by 6; OSend 0 (ok_answer 2); OSettle 0 senv; claim_by 7; ORequeue posting].
End LedgerSample.

Lemma sample_start : no_charges LedgerSample.start.
Proof. split; [done|]. intros p. unfold consumed. cbn. by rewrite lookup_empty. Qed.

(** The second PS of the sample is there and it spent the authorization. *)
Lemma no_double_charge_witness :
  length (wire (run LedgerSample.sha LedgerSample.history (mkWorld LedgerSample.start [] []))) = 2%nat ∧
  ∃ rv, reviews (db (run LedgerSample.sha LedgerSample.history (mkWorld LedgerSample.start [] [])))
          !! LedgerSample.posting = Some rv ∧ rv_terminal rv = Some CONFIRM_NOT_POSTED_RETRY.
Proof.
  split; [vm_compute; reflexivity|].
  destruct (no_double_charge LedgerSample.sha LedgerSample.start LedgerSample.history sample_start) as [H _].
  destruct (H LedgerSample.posting) as [_ H2]. destruct H2 as (rv & H3 & _ & H4); [vm_compute; lia|]. eauto.
Defined.

Definition sample_sent : sent_ps :=
  default (mkSent "" "" GateSample.pinned 0 "")
    (wire (run LedgerSample.sha LedgerSample.history (mkWorld LedgerSample.start [] [])) !! 0%nat).

Lemma wire_carries_posting_witness :
  w_body sample_sent = "PS|RN1421|G#88213|TA1500|PTD|SOWIFI|CTWIFI|P#2|WSSTAYCONNECT|" ∧
  ∃ po, postings (db (run LedgerSample.sha LedgerSample.history (mkWorld LedgerSample.start [] [])))
          !! w_posting sample_sent = Some po ∧ po_type po = CHARGE ∧ pins po (w_pinned sample_sent).
Proof.
  split; [vm_compute; reflexivity|].
  destruct (wire_carries_posting LedgerSample.sha LedgerSample.start LedgerSample.history sample_sent sample_start)
    as (_ & H & _); [|exact H].
  apply list_elem_of_lookup_2 with 0%nat. vm_compute. reflexivity.
Defined.

(** The same history with the transmit switch off. *)
Lemma dark_never_sends_witness :
  wire (run LedgerSample.sha ((λ co, (LedgerSample.dark, co.2)) <$> LedgerSample.history) (mkWorld LedgerSample.start [] [])) = [].
Proof.
  destruct (dark_never_sends LedgerSample.sha (mkWorld LedgerSample.start [] [])
    ((λ co, (LedgerSample.dark, co.2)) <$> LedgerSample.history)) as [H _]; [|exact H].
  apply Forall_forall. intros co (c & -> & _)%list_elem_of_fmap. reflexivity.
Defined.
