(* ===== verification/PostingMoney.v ===== *)
(** What the room-charge ledger pays for (PostingTables, PostingEngine).

    [keeps T] is what a statement may do to the evidence of a charge: rows the PMS
    acknowledged are frozen, new acknowledgements concern only the attempts [T],
    a reviewer's confirmation is final, and nothing is settled or granted without
    evidence.  Along every history of [PostingProofs.step] a granted settlement
    has its evidence. *)
From stdpp Require Import pretty.
From S2P Require Import Prelude GoStrings GoText CommerceRules CommerceTables Pg Modules PostingWire PostingGate PostingTables PostingEngine PostingLedger PostingProofs.

Definition acked_only (T : gset string) (x y : PDb) : Prop :=
  ∀ i a, attempts y !! i = Some a → at_outcome a = ACKED → i ∉ T → attempts x !! i = Some a.

Record keeps (T : gset string) (x y : PDb) : Prop := {
  ke_frozen : acked_frozen x y;
  ke_only : acked_only T x y;
  ke_final : confirmed_final x y;
  ke_postings : postings x ⊆ postings y;
  ke_money : money x → money y
}.

#[export] Instance keeps_refl T : Reflexive (keeps T).
Proof. intros x. split; [by intros ?..| |done|done]; intros ?; eauto. Qed.

Lemma keeps_then T x y z : keeps T x y → keeps ∅ y z → keeps T x z.
Proof.
  intros [F1 O1 C1 P1 M1] [F2 O2 C2 P2 M2]. split; [| | |by etrans|auto].
  - intros i a Hi Ha. eauto.
  - intros i a Hi Ha HT. apply O1; [|done..]. apply O2; [done..|set_solver].
  - intros p rv Hr Ht. destruct (C1 p rv Hr Ht) as (rv' & Hr' & Ht'). by eapply C2.
Qed.

#[export] Instance keeps_trans : Transitive (keeps ∅).
Proof. intros x y z. apply keeps_then. Qed.

Lemma same_keeps x y : same_ledger x y → keeps ∅ x y.
Proof.
  intros (Ha & Hr & Hp & HM). split; [| | |done|done].
  - intros i a. by rewrite Ha.
  - intros i a. by rewrite Ha.
  - intros p rv H Ht. rewrite Hr. eauto.
Qed.

(** ** The statements on the ledger *)

Lemma insert_attempt_keeps id new x y :
  at_outcome new = SENDING → insert_attempt id new x = Ok y → keeps ∅ x y.
Proof.
  intros Hs H. pose proof H as (_ & Hid & _ & _ & Ha & Hr & Hp & _)%insert_attempt_Ok.
  assert (Hst : shop y = shop x).
  { revert H. unfold insert_attempt. rewrite !bind_unit. by intros (_ & _ & _ & _ & _ & _ & _ & [= <-]). }
  assert (F : acked_frozen x y). { intros i a Hi _. rewrite Ha, lookup_insert_ne; congruence. }
  assert (C : confirmed_final x y).
  { intros p rv Hrv Ht. rewrite Hr. unfold p4_consume_retry_authorization. cbn.
    destruct (decide (p = at_posting new)) as [->|Hne]; [|rewrite lookup_alter_ne by done; eauto].
    rewrite lookup_alter_eq, Hrv. cbn. eexists. split; [done|]. by destruct (_ && _). }
  split; [done| |done|by rewrite Hp|].
  - intros i a. rewrite Ha, lookup_insert_Some. intros [[<- <-]|[_ Hi]]; [congruence|done].
  - apply money_mono; [by rewrite Hp|done..].
Qed.

(** An attempt that was not acknowledged is settled. *)
Lemma update_attempt_keeps T id o as_ x y :
  (∀ a, attempts x !! id = Some a → at_outcome a ≠ ACKED) → (o = ACKED → id ∈ T) →
  update_attempt id o as_ x = Ok y → keeps T x y.
Proof.
  intros Hn HT [[_ ->]|(a & a' & Hi & Ha & Hr & _ & Ho & _ & _ & Hp & Hst)]%update_attempt_Ok; [reflexivity|].
  assert (F : acked_frozen x y).
  { intros j b Hj Hb. rewrite Ha, lookup_insert_ne; [done|]. intros ->. by eapply Hn. }
  assert (C : confirmed_final x y) by (intros p rv H1 H2; rewrite Hr; eauto).
  split; [done| |done|by rewrite Hp|apply money_mono; [by rewrite Hp|done..]].
  intros j b. rewrite Ha, lookup_insert_Some. intros [[<- <-]|[_ Hj]] Hb HjT; [|done].
  destruct HjT. apply HT. congruence.
Qed.

Lemma recover_attempt_keeps id x y : update_attempt id UNKNOWN None x = Ok y → keeps ∅ x y.
Proof.
  intros H. pose proof H as [[_ ->]|(a & a' & Hi & _ & _ & _ & _ & _ & Hone & _)]%update_attempt_Ok; [reflexivity|].
  apply (update_attempt_keeps ∅ id UNKNOWN None); [|done|exact H]. intros b Hb. assert (b = a) as -> by congruence.
  destruct Hone as [->|Hone]; [done|]. by rewrite <- Hone.
Qed.

Lemma keeps_reviews x y posting rv' :
  attempts y = attempts x → reviews y = <[posting := rv']> (reviews x) → postings x ⊆ postings y →
  shop y = shop x →
  (∀ rv, reviews x !! posting = Some rv → rv_terminal rv = Some "CONFIRM_POSTED" → rv_terminal rv' = Some "CONFIRM_POSTED") →
  keeps ∅ x y.
Proof.
  intros Ha Hr Hp Hst Hrv. assert (C : confirmed_final x y).
  { intros p rv H1 H2. rewrite Hr. destruct (decide (p = posting)) as [->|Hne].
    - rewrite lookup_insert_eq. eauto.
    - rewrite lookup_insert_ne by done. eauto. }
  assert (F : acked_frozen x y) by (intros i a; by rewrite Ha).
  split; [done|intros i a; by rewrite Ha|done|done|by apply money_mono].
Qed.

Lemma review_keeps posting action attr expected rid amt x y :
  record_posting_review_action posting action attr expected rid amt x = Ok y → keeps ∅ x y.
Proof.
  intros H. pose proof (review_ledger _ _ _ _ _ _ _ _ H) as (Ha & Hp & _). revert H.
  unfold record_posting_review_action. rewrite !bind_unit. intros (_ & _ & H).
  destruct (postings x !! posting) as [o|]; [|done]. cbn zeta in H.
  rewrite !bind_unit, !check_Ok in H. destruct H as (_ & _ & Hterm & _ & _ & _ & Hy). injection Hy as Hy.
  assert (HR : ∀ {A} (f : PDb → A) d, (∀ m, f (set_postings m x) = f x) →
    f (if decide (action = "CREATE_REVERSAL") then set_postings d x else x) = f x)
    by (intros A f d Hf; destruct (decide (action = "CREATE_REVERSAL")); [apply Hf|done]).
  eapply (keeps_reviews x y posting); [done| |done| |]; rewrite <- Hy; cbn.
  1: by rewrite HR. 1: by rewrite HR.
  intros rv Er Et. rewrite Er in *. cbn in *. rewrite Et in *.
  apply orb_true_iff in Hterm as [Hesc|Ht]; [|by zify_guards]. by rewrite Hesc.
Qed.

Lemma zero_retry_keeps p ob est x y : p4_authorize_zero_attempt_retry p ob est x = Ok y → keeps ∅ x y.
Proof.
  unfold p4_authorize_zero_attempt_retry. rewrite !bind_unit. intros (_ & _ & _ & _ & H).
  etrans; [|eapply same_keeps, update_outbox_same, H].
  eapply (keeps_reviews _ _ p); try done. intros rv Hr Ht. by rewrite Hr.
Qed.

(** ** Histories *)

Definition unacked (w : world) : Prop :=
  ∀ d a, d ∈ pend w → attempts (db w) !! pd_id d = Some a → at_outcome a ≠ ACKED.

Definition paid_ok (w : world) : Prop := money (db w) ∧ unacked w.

Lemma paid_db w x : keeps ∅ (db w) x → paid_ok w → paid_ok (on_db w x).
Proof.
  intros [F O C P M] [HM HU]. split; [by apply M|]. intros d a Hd Hi Ha.
  cbn in Hd, Hi. apply (HU d a Hd); [|exact Ha]. apply O; [exact Hi|exact Ha|set_solver].
Qed.

Lemma paid_keep w r : (∀ x, r = Ok x → keeps ∅ (db w) x) → paid_ok w → paid_ok (on_db w (keep (db w) r)).
Proof. intros H. apply paid_db. destruct r; cbn; [by apply H|reflexivity]. Qed.

Lemma keeps_insert p posting no pn h now : preserves (tx_le (keeps ∅)) (InsertAttempt p posting no pn h now).
Proof.
  apply le_bind; [apply _|apply le_uuid, _|]. intros id. apply le_bind; [apply _| |intros; apply le_ret, _].
  apply le_exec; [apply _|]. intros x y H. by refine (insert_attempt_keeps _ _ _ _ _ H).
Qed.

Lemma keeps_recover a : preserves (tx_le (keeps ∅)) (SettleAttempt a UNKNOWN "").
Proof. apply le_exec; [apply _|]. intros x y. apply recover_attempt_keeps. Qed.

(** The settlement of one attempt that was not acknowledged before. *)
Lemma settle_keeps c id r env x :
  (∀ a, attempts x !! id = Some a → at_outcome a ≠ ACKED) → keeps {[id]} x (settle c id r env x).
Proof.
  intros Hn. unfold settle. set (so := conclude r _).
  destruct (settle_tx c id so (st_now env) _) as [t [[]|e]] eqn:E; [|reflexivity].
  assert (HK : keeps {[id]} x (tx_db t)).
  { revert E. unfold settle_tx, SettleAttempt, exec. unfold mbind at 1, ST_bind at 1. unfold statement at 1. cbn.
    destruct (next_statement_fails _); [done|]. destruct (update_attempt _ _ _ x) as [y|] eqn:Eu; [|done]. cbn. intros E.
    eapply keeps_then; [eapply update_attempt_keeps; [done| |exact Eu]; set_solver|].
    refine (le_bind (keeps ∅) _ _ _ _ _ _ _ E); [apply le_event; [apply _..|apply same_keeps]|].
    intros _. destruct (_ && _); [|apply le_update_outbox; [apply _..|apply same_keeps]].
    apply le_bind; [apply _|apply le_defer; [apply _..|apply same_keeps]|]. intros. apply le_ret, _. }
  unfold commit. destruct (tx_aborted t); [reflexivity|]. destruct (st_fate env); [|reflexivity|done].
  destruct (decide _); [|done]. eapply keeps_then; [done|]. unfold apply_outcome. apply (le_outcome_call (keeps ∅)); [apply _..|apply same_keeps].
Qed.

Section paid.
Context (sha256_hex : string → string).

Lemma paid_claim cfg tenant site iface env w :
  world_ok w → paid_ok w → paid_ok (step sha256_hex cfg (OClaim tenant site iface env) w).
Proof.
  intros W Hw. cbn. pose proof (claim_step_claimed sha256_hex cfg tenant site iface env (db w)) as Hc.
  assert (HA : keeps ∅ (db w) (claim_step sha256_hex cfg tenant site iface env (db w)).1).
  { apply (le_claim_step (keeps ∅)); [apply _..|apply same_keeps|]. intros. apply keeps_insert. }
  destruct (claim_step sha256_hex cfg tenant site iface env (db w)) as [x r]. cbn in Hc, HA.
  pose proof (paid_db _ _ HA Hw) as [HM HU]. destruct r as [| | |c id pn body]; [by split..|].
  destruct Hc as (_ & _ & _ & _ & a & Hi & Ho & _). split; [done|].
  intros d b [->|Hd]%elem_of_cons Hb; [|by apply (HU d b)]. cbn in Hb. assert (b = a) as -> by congruence. by rewrite Ho.
Qed.

Lemma paid_settle cfg k env w : world_ok w → paid_ok w → paid_ok (step sha256_hex cfg (OSettle k env) w).
Proof.
  intros W [HM HU]. cbn. destruct (pend w !! k) as [d|] eqn:Ek; [|by split].
  destruct (pd_result d) as [r|]; [|by split].
  assert (Hd : d ∈ pend w) by (by eapply list_elem_of_lookup_2).
  pose proof (settle_keeps (pd_claim d) (pd_id d) r env (db w) (λ a, HU d a Hd)) as [_ O _ _ M].
  split; [by apply M|]. intros e a He Hi Ha. cbn in He, Hi.
  apply list_elem_of_split_length in Ek as (l1 & l2 & Hl & Hk). destruct W as [_ _ _ _ W5].
  rewrite Hl, fmap_app in W5. cbn in W5. apply NoDup_app in W5 as (_ & Hd1 & [Hd2 _]%NoDup_cons).
  rewrite Hl, Hk, delete_middle in He. apply (HU e a); [rewrite Hl; set_solver| |done].
  apply O; [done..|]. rewrite elem_of_singleton. intros E. apply elem_of_app in He as [He|He].
  - apply (Hd1 (pd_id e)); [by apply list_elem_of_fmap_2|rewrite E; left].
  - apply Hd2. rewrite <- E. by apply list_elem_of_fmap_2.
Qed.

Lemma paid_step cfg o w : world_ok w → paid_ok w → paid_ok (step sha256_hex cfg o w).
Proof.
  intros W Hw. pose proof same_keeps as HS. destruct o as [| |k reply| | | | | | | | | |dec nf rec park].
  - apply paid_db; [|done]. apply (le_CreatePosting (keeps ∅)); [apply _..|done].
  - by apply paid_claim.
  - destruct Hw as [HM HU]. cbn. destruct (pend w !! k) as [d|] eqn:Ek; [|by split].
    destruct (pd_result d); [by split|]. split; [done|]. intros e a He Hi. cbn in He, Hi.
    apply list_elem_of_lookup in He as [j Hj]. destruct (decide (j = k)) as [->|Hne].
    + rewrite list_lookup_insert_eq in Hj by (by eapply lookup_lt_Some). injection Hj as <-.
      apply (HU d a); [by eapply list_elem_of_lookup_2|exact Hi].
    + rewrite list_lookup_insert_ne in Hj by done. apply (HU e a); [by eapply list_elem_of_lookup_2|done].
  - by apply paid_settle.
  - destruct Hw as [HM HU]. split; [done|]. intros d a Hd. by apply elem_of_nil in Hd.
  - apply paid_db; [|done]. apply (le_RecoverOrphanedAttempts (keeps ∅)); [apply _..|done|apply keeps_recover].
  - apply paid_db; [|done]. apply (le_ApplySettlementOutcomes (keeps ∅)); [apply _..|done].
  - apply paid_keep; [|done]. intros x H. eapply HS, Requeue_same, H.
  - apply paid_keep; [|done]. intros x (y & Hy%review_keeps & Hs%HS)%decide_review_split. by transitivity y.
  - apply paid_keep; [|done]. intros x. apply zero_retry_keeps.
  - apply paid_keep; [|done]. intros x H. eapply HS, requeue_parked_same, H.
  - apply paid_keep; [|done]. intros x H. eapply HS, outcome_same, H.
  - apply paid_db; [|done]. by apply HS.
Qed.

Lemma paid_run l w : world_ok w → paid_ok w → paid_ok (run sha256_hex l w).
Proof.
  revert w. induction l as [|[cfg o] l IH]; intros w W Hw; [done|].
  apply IH; [by apply step_ok|by apply paid_step].
Qed.

(** The evidence a settlement was paid: one of its charges was acknowledged with OK
    by the PMS, or confirmed as posted by a reviewer. *)
Definition charged (y : PDb) (id : string) : Prop :=
  ∃ p po, postings y !! p = Some po ∧ po_settlement po = id ∧ po_type po = CHARGE ∧
    ((∃ i a, attempts y !! i = Some a ∧ at_posting a = p ∧ at_outcome a = ACKED ∧ at_as a = Some "OK") ∨
     (∃ rv, reviews y !! p = Some rv ∧ rv_terminal rv = Some "CONFIRM_POSTED")).

(** C2. Access is paid for: along any history, a room-charge settlement that is
    settled, or whose entitlement was granted, has a CHARGE posting that the PMS
    acknowledged with OK or that a reviewer confirmed as posted.  Lost answers,
    crashes, orphan recovery, retries and repairs never grant without it. *)
Theorem granted_is_paid (x : PDb) (l : list (PostingConfig * op)) (id : string) (se : Settlement) :
  no_charges x → money x → let y := db (run sha256_hex l (mkWorld x [] [])) in
  settlements y !! id = Some se → se_method se = "PMS_POSTING" → se_status se = "SETTLED" ∨ has_entitlement se y → charged y id.
Proof.
  intros H0 HM y Hse Hm Hst.
  destruct (paid_run l (mkWorld x [] [])) as [M _]; [by apply no_charges_ok| |].
  { split; [done|]. intros d a Hd. by apply elem_of_nil in Hd. }
  destruct (proj2 M id se Hse Hm Hst) as [E|E].
  - apply acknowledged_true in E as (p & po & i & a & ? & ? & ? & ? & ? & ? & ?). exists p, po. split_and!; [done..|].
    left. eauto 10.
  - apply reviewed_posted_true in E as (p & po & rv & ? & ? & ? & ? & ?). exists p, po. split_and!; [done..|]. right. eauto.
Qed.
End paid.

Lemma sample_money : money LedgerSample.start.
Proof.
  split.
  - intros i j x y. unfold settlements. cbn [shop settled LedgerSample.start LedgerSample.sales].
    intros [<- _]%lookup_singleton_Some [<- _]%lookup_singleton_Some _. done.
  - intros id se. unfold settlements, has_entitlement. cbn [shop settled granted LedgerSample.start LedgerSample.sales].
    intros [<- <-]%lookup_singleton_Some _ [?|(k & e & He & _)]; [done|]. by rewrite lookup_empty in He.
Qed.

Lemma granted_is_paid_witness :
  let y := db (run LedgerSample.sha LedgerSample.history (mkWorld LedgerSample.start [] [])) in
  (en_status <$> CommerceTables.granted (shop y) !! "e1") = Some Checkout.ACTIVE ∧
  ∃ p po, postings y !! p = Some po ∧ po_settlement po = "se1" ∧ po_type po = CHARGE.
Proof.
  split; [vm_compute; reflexivity|].
  destruct (granted_is_paid LedgerSample.sha LedgerSample.start LedgerSample.history "se1" (mkSettlement LedgerSample.sc "pu1" "PMS_POSTING" "SETTLED"))
    as (p & po & H1 & H2 & H3 & _); [exact sample_start|exact sample_money|vm_compute; reflexivity|reflexivity|by left|eauto].
Defined.
