(* ===== verification/PostingLive.v ===== *)
(** A room charge that meets no refusal goes through (PostingTables,
    PostingEngine): one claim, one hand-off and one settlement take the head of a
    lane to an acknowledged attempt, a settled settlement and a granted
    entitlement. *)
From stdpp Require Import pretty.
From S2P Require Import Prelude GoStrings GoText Checkout CommerceRules CommerceTables CommerceProofs CommercePaid Pg Modules PostingWire PostingGate PostingTables PostingEngine PostingLedger PostingProofs.

(** ** Columns *)

Lemma spaces_stripped ps s :
  (∀ t, strip_one ps (String (Ascii.ascii_of_nat 32) t) = Some t) → all_bytes (λ b, (b =? 32)%Z) s = true →
  strip_all ps (String.length s) s = "".
Proof.
  intros Hp. induction s as [|c s IH]; [done|]. cbn [all_bytes String.length strip_all]. intros H. zify_guards.
  assert (c = Ascii.ascii_of_nat 32) as ->.
  { rewrite <- (Ascii.ascii_nat_embedding c). f_equal. unfold byte_of in *. lia. }
  rewrite Hp. auto.
Qed.

Lemma btrim_empty_blank s : btrim_empty s = true → blank s = true.
Proof.
  intros H. unfold blank, TrimSpace, TrimLeftSpace. by rewrite spaces_stripped.
Qed.

Lemma not_btrim_empty s : blank s = false → btrim_empty s = false.
Proof. intros H. destruct (btrim_empty s) eqn:E; [|done]. by rewrite (btrim_empty_blank _ E) in H. Qed.

Lemma char_length_le s : char_length s ≤ len s.
Proof.
  unfold char_length, len. apply Nat2Z.inj_le. etrans; [apply length_filter|].
  induction s as [|c s IH]; cbn; lia.
Qed.

(** ** The lane *)

Lemma lane_head_Some tenant site iface x ob o :
  lane_head tenant site iface x = Some (ob, o) →
  outboxes x !! ob = Some o ∧ ob_tenant o = tenant ∧ ob_site o = site ∧ ob_iface o = iface ∧ ob_state o = QUEUED.
Proof.
  unfold lane_head. destruct (filter _ _) as [|io l] eqn:E; [done|]. intros [= Hf].
  assert (H : foldr (λ a b, if lane_before a b then a else b) io l ∈ io :: l).
  { clear. induction l as [|b l IH]; cbn; [left|]. destruct (lane_before b _); set_solver. }
  rewrite Hf, <- E in H. apply list_elem_of_filter in H as [H Hin]. apply elem_of_map_to_list in Hin. done.
Qed.

Lemma forallb_others (f : string * Outbox → bool) ob x :
  (∀ id o, outboxes x !! id = Some o → id ≠ ob → f (id, o) = true) →
  forallb f (filter (λ io, io.1 ≠ ob) (map_to_list (outboxes x))) = true.
Proof.
  intros H. apply forallb_forall. intros [id o] Hin. rewrite <- list_elem_of_In in Hin.
  apply list_elem_of_filter in Hin as [Hne Hin]. apply elem_of_map_to_list in Hin. by apply H.
Qed.

(** ** Statements that succeed *)

Definition at_db (x : PDb) (u : nat → positive) (n : nat) : tx PDb := mkTx x false [] u n.

Lemma statement_runs {A} (f : PDb → res sql_error (PDb * A)) x y u n a :
  f x = Ok (y, a) → statement f (at_db x u n) = (at_db y u n, Ok a).
Proof. intros H. unfold statement, at_db. cbn. by rewrite H. Qed.

Lemma exec_runs (f : PDb → res sql_error PDb) x y u n :
  f x = Ok y → exec f (at_db x u n) = (at_db y u n, Ok ()).
Proof. intros H. apply statement_runs. by rewrite H. Qed.

Lemma query_runs {A} (f : PDb → A) x u n : query f (at_db x u n) = (at_db x u n, Ok (f x)).
Proof. by apply statement_runs. Qed.

Lemma bind_runs {A B} (m : TX PDb A) (k : A → TX PDb B) t t' a : m t = (t', Ok a) → (m ≫= k) t = k a t'.
Proof. intros H. unfold mbind, ST_bind. by rewrite H. Qed.

Lemma uuid_runs x u n : gen_random_uuid (at_db x u n) = (at_db x u (S n), Ok (uuid_text (u n))).
Proof. done. Qed.

Lemma try_runs {A} (m : TX PDb A) t t' a : m t = (t', Ok a) → attempt_ m t = (t', Ok (Ok a)).
Proof. intros H. unfold attempt_. by rewrite H. Qed.

(** ** A charge that can go through *)

Definition pin (tenant site iface : string) (po : Posting) (code state rn : string) : Pinned :=
  mkPinned tenant site iface (po_revision po) (po_stay po) (po_settlement po) (po_amount po) (po_currency po)
    (po_exponent po) rn (po_g_number po) code None state.

Definition next_pn (iface : string) (x : PDb) : Z := default 1 (pnumber_seq x !! iface).

(** The sale behind a charge. *)
Record sale := mkSale {
  sl_settlement : Settlement;
  sl_purchase : Purchase;
  sl_quote : Quote;
  sl_context : AuthContext;
  sl_stay : string
}.

(** Its settlement is in progress, and the paid grant of its purchase meets no refusal. *)
Record sale_open (g : grant_env) (po : Posting) (sl : sale) (x : PDb) : Prop := {
  so_settlement : settlements x !! po_settlement po = Some (sl_settlement sl);
  so_scope : se_scope (sl_settlement sl) = (po_tenant po, po_site po);
  so_status : se_method (sl_settlement sl) = "PMS_POSTING" ∧ se_status (sl_settlement sl) = "IN_PROGRESS";
  so_grantable : @grantable (ge_time g) (po_tenant po, po_site po) (se_purchase (sl_settlement sl)) (ge_new g) (sl_purchase sl)
    (sl_quote sl) (sl_context sl) (sl_stay sl) (shop x)
}.

Record ready (cfg : PostingConfig) (tenant site iface : string) (env : run_env) (x : PDb)
    (ob : string) (o : Outbox) (po : Posting) (code : string) (sn : Snapshot) (g : grant_env) (sl : sale) : Prop := {
  rd_switches : OutboxOn cfg = true ∧ Dark cfg = false;
  rd_head : lane_head tenant site iface x = Some (ob, o);
  rd_due : ob_not_before o ≤ re_now env;
  rd_posting : postings x !! ob_posting o = Some po;
  rd_charge : po_type po = CHARGE;
  rd_evidence : re_pin env = Some (code, pu_state (sl_purchase sl)) ∧ re_snapshot env = Some sn;
  rd_gate : CheckFor PurposeExecute (pin tenant site iface po code (pu_state (sl_purchase sl)) (StayRoomNumber sn)) sn = None;
  rd_code : len (TrimSpace code) ≤ maxCTLen;
  rd_amount : po_amount po < two63;
  rd_iface : blank iface = false ∧ len iface ≤ 64;
  rd_database : re_faults env = [] ∧ re_fate env = Committed;
  rd_site : (tenant, site) ∉ recovery x;
  rd_interface : (iface ∉ decommissioned x) ∧ (iface ∉ not_fresh x);
  rd_lane : ∀ id o', outboxes x !! id = Some o' → id ≠ ob →
    (ob_posting o' = ob_posting o → ob_state o' = DONE) ∧ (ob_iface o' = iface → ob_state o' ≠ IN_FLIGHT);
  rd_unsent : may_have_sent (ob_posting o) x = [];
  rd_fresh : attempts x !! uuid_text (re_uuids env 0) = None;
  rd_pn : 0 < next_pn iface x < 10 ^ 18;
  rd_pn_unused : ∀ i a, attempts x !! i = Some a → at_p_number a ≠ pretty (next_pn iface x);
  rd_sale : sale_open g po sl x
}.

Section goes_through.
Context (sha256_hex : string → string) (cfg : PostingConfig) (tenant site iface : string) (env : run_env) (x : PDb).
Context (ob : string) (o : Outbox) (po : Posting) (code : string) (sn : Snapshot) (g : grant_env) (sl : sale).
Context (H : ready cfg tenant site iface env x ob o po code sn g sl).

Let id := uuid_text (re_uuids env 0).
Let pn := next_pn iface x.
Let p := pin tenant site iface po code (pu_state (sl_purchase sl)) (StayRoomNumber sn).
Let body := ps_body (StayRoomNumber sn) (StayReservation sn) (pretty (po_amount po)) (TrimSpace code) (pretty pn).
Let x1 := set_outboxes (<[ob := with_state IN_FLIGHT o]>) x.
Let x2 := set_seq (<[iface := pn + 1]>) x1.
Let row := mkAttempt tenant site (ob_posting o) iface (next_attempt_no (ob_posting o) x) (pretty pn) (StayRoomNumber sn)
  (po_g_number po) (re_now env) SENDING None (if empty (sha256_hex body) then None else Some (sha256_hex body)).
Let x3 := p4_consume_retry_authorization row (set_attempts (<[id := row]>) x2).

Lemma head_facts :
  outboxes x !! ob = Some o ∧ ob_tenant o = tenant ∧ ob_site o = site ∧ ob_iface o = iface ∧ ob_state o = QUEUED.
Proof using H. eapply lane_head_Some, rd_head, H. Qed.

Lemma claim_runs : claim_head tenant site iface (re_now env) x = Ok (x1, Some (ob, ob_posting o, po)).
Proof using H.
  destruct head_facts as (Ho & Ht & Hs & Hi & Hq). destruct H. unfold claim_head. rewrite rd_head0.
  rewrite (proj2 (Z.ltb_ge _ _)) by done. rewrite rd_posting0. unfold update_outbox. rewrite Ho.
  unfold p4_outbox_recovery_gate, outbox_unique. cbn [ob_state ob_tenant ob_site ob_posting ob_iface with_state].
  rewrite Ht, Hs, Hq, (bool_decide_false ((tenant, site) ∈ recovery x)) by done.
  rewrite !forallb_others.
  - done.
  - intros i o' Hi' Hne. destruct (rd_lane0 i o' Hi' Hne) as [Hl _]. cbn.
    destruct (decide (ob_posting o' = ob_posting o)) as [E|E]; [|by rewrite bool_decide_false].
    rewrite (Hl E). by rewrite andb_false_r.
  - intros i o' Hi' Hne. destruct (rd_lane0 i o' Hi' Hne) as [_ Hl]. cbn. rewrite Hi.
    destruct (decide (ob_iface o' = iface)); [|by rewrite bool_decide_false].
    rewrite (bool_decide_false (ob_state o' = IN_FLIGHT)), andb_false_r by auto. done.
Qed.

(** No attempt of this posting may have been sent: the next one needs no review. *)
Lemma retry_free y : attempts y = attempts x → p4_attempt_retry_gate row y = Ok ().
Proof using H.
  intros Ha. unfold p4_attempt_retry_gate. cbn [at_posting at_no row].
  assert (Hl : last_attempt (ob_posting o) y = last_attempt (ob_posting o) x).
  { unfold last_attempt, attempts_of. by rewrite Ha. }
  rewrite Hl. unfold next_attempt_no. destruct (last_attempt (ob_posting o) x) as [[i a]|] eqn:E; [|done].
  rewrite Z.eqb_refl. cbn. apply last_attempt_Some in E as (Hi & Hp & _).
  assert (at_outcome a = NOT_SENT) as ->; [|done]. apply dec_stable. intros Hs.
  assert (Hin : (i, a) ∈ may_have_sent (ob_posting o) x).
  { apply list_elem_of_filter. split; [done|]. by apply elem_of_attempts_of. }
  rewrite (rd_unsent _ _ _ _ _ _ _ _ _ _ _ _ _ H) in Hin. by apply elem_of_nil in Hin.
Qed.

Lemma next_above j b : attempts x !! j = Some b → at_posting b = ob_posting o → at_no b < next_attempt_no (ob_posting o) x.
Proof.
  intros Hj Hb. unfold next_attempt_no. destruct (last_attempt (ob_posting o) x) as [[i a]|] eqn:E.
  - apply last_attempt_Some in E as (_ & _ & Hm). specialize (Hm j b Hj Hb). lia.
  - by destruct (last_attempt_None _ _ E j b Hj).
Qed.

Lemma row_checks : attempt_checks row = Ok ().
Proof using H.
  destruct H. pose proof (CheckFor_None _ _ _ rd_gate0)
    as (_ & _ & _ & _ & _ & _ & Hgb & Hgw & Hgl & Hrb & Hrw & Hrl & _).
  cbn in Hgb, Hgw, Hgl. unfold maxWireField in *. unfold attempt_checks. cbn [at_g_number at_p_number at_rn at_as row].
  pose proof (char_length_le (po_g_number po)). pose proof (char_length_le (StayRoomNumber sn)).
  rewrite !not_btrim_empty, Hgw, Hrw, !(proj2 (Z.leb_le _ 32)) by (done || lia).
  rewrite (proj2 (empty_false _)) by (apply pretty_ne; unfold pn; lia).
  rewrite (proj2 (Z.leb_le _ 18)) by (apply (len_pretty 18); unfold pn; lia).
  by rewrite all_digits_pretty by (unfold pn; lia).
Qed.

Lemma insert_runs : insert_attempt id row x2 = Ok x3.
Proof using H.
  unfold insert_attempt. rewrite row_checks, (retry_free x2) by done. destruct H. destruct rd_interface0 as [Hdec Hfr].
  unfold p4_attempt_lifecycle_gate, p4_attempt_freshness_gate, p4_reversal_never_executes,
    p4_attempt_targets_posting_reservation, attempt_unique.
  cbn [at_iface at_posting at_g_number at_no row decommissioned not_fresh postings attempts x2 x1 set_seq set_outboxes].
  rewrite rd_posting0. rewrite !bool_decide_true; try done. 2:{ cbn. by rewrite rd_charge0. }
  cbn [mbind res_bind check]. rewrite !(proj2 (forallb_forall _ _)); [done| |].
  - intros [j b] Hin. rewrite <- list_elem_of_In in Hin. apply elem_of_attempts_of in Hin as [Hj Hb]. cbn.
    pose proof (next_above j b Hj Hb). rewrite (proj2 (Z.eqb_neq _ _)); [done|]. lia.
  - intros [j b] Hin. rewrite <- list_elem_of_In in Hin. apply elem_of_map_to_list in Hin. cbn.
    rewrite bool_decide_false; [done|]. intros (_ & _ & _ & E). by eapply rd_pn_unused0.
Qed.

Let c := mkClaim ob (ob_posting o) p (next_attempt_no (ob_posting o) x).

Lemma ps_built : BuildPS (ps_of p pn) = Ok body.
Proof using H. destruct H. apply (gate_builds_ps p sn pn); [done|unfold pn; lia|done]. Qed.

Lemma claimed_runs : claim_step sha256_hex cfg tenant site iface env x = (x3, ToSend c id pn body).
Proof using H.
  pose proof H as []. destruct rd_switches0 as [Hon Hdark]. destruct rd_evidence0 as [Hpin Hsn]. destruct rd_database0 as [Hf Hc].
  unfold claim_step. rewrite Hon, Hf, Hc. cbn [negb].
  enough (claim_tx sha256_hex cfg tenant site iface env (at_db x (re_uuids env) 0)
    = (at_db x3 (re_uuids env) 1, Ok (ToSend c id pn body))) as E by (unfold at_db in E; by rewrite E).
  unfold claim_tx, ClaimNext. rewrite Hpin, Hsn.
  erewrite bind_runs.
  2:{ erewrite bind_runs by (apply statement_runs, claim_runs). cbn beta iota.
      rewrite (bind_runs _ _ _ _ _ (query_runs _ _ _ _)). rewrite (bind_runs _ _ _ _ _ (query_runs _ _ _ _)). reflexivity. }
  cbn beta iota. rewrite (bind_runs _ _ _ _ _ (try_runs _ _ _ _ (query_runs _ _ _ _))). cbn beta iota.
  rewrite (bind_runs _ _ _ _ _ (try_runs _ _ _ _ (query_runs _ _ _ _))). cbn beta iota zeta.
  change (with_room _ _) with p. change (CheckFor PurposeExecute p sn = None) in rd_gate0. rewrite rd_gate0, Hdark. cbn beta iota.
  erewrite bind_runs by (by apply statement_runs). cbn beta.
  change (default 1 (pnumber_seq x1 !! iface)) with pn. rewrite ps_built. cbn beta iota.
  erewrite bind_runs; [done|]. unfold InsertAttempt. rewrite (bind_runs _ _ _ _ _ (uuid_runs _ _ _)).
  erewrite bind_runs; [done|]. apply exec_runs. exact insert_runs.
Qed.

(** The PMS acknowledges it. *)
Context (pa : PA) (pa_body : string) (senv : settle_env).
Context (Hparse : ParsePA pa_body = Ok pa) (Hpn : pa_PNumber pa = pn) (Hok : AS pa = "OK").
Context (Henv : st_faults senv = [] ∧ st_fate senv = Committed ∧ st_effect_lost senv = false ∧ st_outcome_lost senv = false ∧ st_grant senv = g).

Lemma send_runs : SendPS sha256_hex cfg iface pn body (Reply "ANSWERED" "" pa_body) = Answer pa.
Proof using H Hparse Hpn.
  pose proof H as []. destruct rd_switches0 as [_ Hdark]. destruct rd_iface0 as [Hi1 Hi2].
  destruct (built_ps_read sha256_hex (ps_of p pn) body iface ps_built) as (_ & Hg & _ & Hv); [done|cbn; unfold pn; lia|done..|].
  cbn in Hg, Hv. unfold SendPS, handoff_SendPS. rewrite Hdark, Hg, Z.eqb_refl, Hv. cbn [negb].
  replace (HasPrefix body RecordPS) with true by done. cbn [negb].
  rewrite decide_False by done. rewrite decide_True by done. rewrite Hparse, Hpn, Z.eqb_refl. by rewrite Hpn, Z.eqb_refl.
Qed.

Let row' := mkAttempt tenant site (ob_posting o) iface (next_attempt_no (ob_posting o) x) (pretty pn) (StayRoomNumber sn)
  (po_g_number po) (re_now env) ACKED (Some "OK") (at_sha256 row).
Let x4 := set_attempts (<[id := row']>) x3.
Let x5 := set_events (λ l, l ++ [(id, "PA_MATCHED")])%list x4.
Let x6 := set_outboxes (<[ob := with_state DONE (with_state IN_FLIGHT o)]>) x5.

Lemma settle_attempt_runs : update_attempt id ACKED (Some "OK") x3 = Ok x4.
Proof using H.
  unfold update_attempt. replace (attempts x3 !! id) with (Some row) by (symmetry; apply lookup_insert_eq).
  pose proof row_checks as Hc. unfold attempt_checks in *. cbn [at_g_number at_p_number at_rn at_as row] in *.
  rewrite !bind_unit in Hc. destruct Hc as (H1 & H2 & H3 & H4 & H5 & _). by rewrite H1, H2, H3, H4, H5.
Qed.

Lemma finish_runs : update_outbox false ob (with_state DONE) x5 = Ok x6.
Proof.
  unfold update_outbox. replace (outboxes x5 !! ob) with (Some (with_state IN_FLIGHT o)) by (symmetry; apply lookup_insert_eq).
  done.
Qed.

Lemma acked_row : attempts x6 !! id = Some row'.
Proof. apply lookup_insert_eq. Qed.

Lemma acked_last : last_attempt (ob_posting o) x6 = Some (id, row').
Proof using H.
  destruct (last_attempt (ob_posting o) x6) as [[i a]|] eqn:E.
  - apply last_attempt_Some in E as (Hi & Hp & Hm). specialize (Hm id row' acked_row eq_refl). cbn in Hm.
    change (<[id := row']> (<[id := row]> (attempts x)) !! i = Some a) in Hi.
    rewrite insert_insert_eq, lookup_insert_Some in Hi. destruct Hi as [[<- <-]|[_ Hi]]; [done|].
    pose proof (next_above i a Hi Hp). lia.
  - exfalso. eapply (last_attempt_None _ _ E id row'); [apply acked_row|done].
Qed.

Lemma acked_evidence : acknowledged (po_settlement po) x6 = true.
Proof using H.
  apply acknowledged_true. exists (ob_posting o), po, id, row'. pose proof H as []. split_and!; try done. apply acked_row.
Qed.

Let se : Settlement := sl_settlement sl.

(** The tables of the shop once the charge is settled and granted. *)
Definition paid_up (d' : SDB) : Prop :=
  settled d' !! po_settlement po = Some (with_status "SETTLED" se) ∧
  (∃ e, granted d' !! ge_new g = Some e ∧ en_purchase e = se_purchase se ∧ en_status e = ACTIVE ∧
     of_stay (en_owner e) = Some (sl_stay sl) ∧ en_snapshot e = q_snapshot (sl_quote sl)) ∧
  pu_state <$> bought d' !! se_purchase se = Some "GRANTED".

Let d1 : SDB := set_settled (shop x) (<[po_settlement po := with_status "SETTLED" se]> (settled (shop x))).

Lemma grant_runs : ∃ d', @p4_grant_paid_entitlement (ge_time g) (ge_now g) (po_tenant po, po_site po) (po_settlement po) (ge_new g) d1
    = Ok (d', (ge_new g, false, None)) ∧ paid_up d'.
Proof using H.
  destruct (rd_sale _ _ _ _ _ _ _ _ _ _ _ _ _ H) as [S1 S2 [S3 S4] S5].
  assert (G : @grantable (ge_time g) (po_tenant po, po_site po) (se_purchase se) (ge_new g) (sl_purchase sl) (sl_quote sl) (sl_context sl) (sl_stay sl) d1)
    by (destruct S5; by constructor).
  destruct (@paid_grant_runs (ge_time g) (ge_now g) _ _ _ _ _ _ _ _ G (po_settlement po) (with_status "SETTLED" se)) as (d' & HR & HG); try done.
  { apply lookup_insert_eq. }
  exists d'. split; [exact HR|]. destruct HG as [_ _ GS (pu & _ & GB) (w & _ & GG) _ _ _ _ _ _]. split_and!.
  - rewrite GS. apply lookup_insert_eq.
  - rewrite GG, lookup_insert_eq. by eexists.
  - by rewrite GB, lookup_insert_eq.
Qed.

Lemma outcome_runs confirmed : ∃ d', p4_posting_settlement_outcome confirmed g (ob_posting o) x6 = Ok (set_shop (λ _, d') x6) ∧ paid_up d'.
Proof using H.
  clear pa pa_body senv Hparse Hpn Hok Henv. destruct grant_runs as (d' & HR & HP). exists d'. split; [|exact HP].
  pose proof H as []. destruct rd_sale0 as [S1 S2 [S3 S4] _]. unfold p4_posting_settlement_outcome. change (postings x6) with (postings x). rewrite rd_posting0.
  rewrite decide_False by (rewrite rd_charge0; by intros []).
  change (settlements x6) with (settlements x). rewrite S1. fold se in S3, S4 |- *. rewrite S3, S4.
  rewrite decide_False by (by intros []). rewrite acked_last.
  unfold settlement_target. cbn [at_outcome at_as row' p4_answer_effect].
  rewrite !decide_True by done. rewrite decide_False by set_solver. rewrite decide_True by set_solver.
  unfold update_settlement. change (settlements x6) with (settlements x). rewrite S1. fold se. rewrite S3, S4.
  rewrite decide_False by done. rewrite acked_evidence.
  replace (settlement_transition "IN_PROGRESS" "SETTLED") with true by (vm_compute; reflexivity).
  rewrite orb_true_r. cbn [check mbind res_bind orb]. rewrite decide_True by done. unfold grant_paid.
  replace (shop (set_shop (set_status (po_settlement po) se "SETTLED") x6)) with d1.
  - rewrite HR. done.
  - cbn [shop set_shop]. change (shop x6) with (shop x). unfold set_status, p4_purchase_follows_settlement. fold d1.
    destruct (bought d1 !! se_purchase se); [|done]. cbv zeta. rewrite !decide_False by (by intros []). done.
Qed.

Lemma settle_runs : ∃ d', settle c id (Answer pa) senv x3 = set_shop (λ _, d') x6 ∧ paid_up d'.
Proof using H Hok Henv.
  destruct Henv as (Hf & Hc & He & Ho & Hg). destruct (outcome_runs (st_confirmed senv)) as (d' & HO & HP). exists d'. split; [|exact HP]. unfold settle, answerEffect. rewrite He, Hok, Hf, Hc.
  replace (conclude (Answer pa) _) with (mkSettlementOf ACKED "OK" DONE "PA_MATCHED" "") by (cbn; by rewrite Hok).
  enough (settle_tx c id (mkSettlementOf ACKED "OK" DONE "PA_MATCHED" "") (st_now senv) (at_db x3 (λ _, xH) 0)
    = (at_db x6 (λ _, xH) 0, Ok ())) as E.
  { unfold at_db in E. rewrite E. cbn. unfold apply_outcome, outcome_call. by rewrite Ho, Hg, HO. }
  unfold settle_tx. cbn [so_outcome so_as so_event so_outbox so_reason].
  rewrite (bind_runs _ _ _ _ _ (exec_runs _ _ _ _ _ settle_attempt_runs)).
  assert (Hev : (check (bool_decide (attempts x4 !! id ≠ None)) (ForeignKeyFailed "posting_attempt_events") ≫=
    λ _, Ok (set_events (λ l, l ++ [(id, "PA_MATCHED")])%list x4)) = Ok x5).
  { replace (attempts x4 !! id) with (Some row') by (symmetry; apply lookup_insert_eq). done. }
  unfold AppendAttemptEvent. rewrite (bind_runs _ _ _ _ _ (exec_runs _ _ _ _ _ Hev)). cbn [andb bool_decide].
  apply exec_runs, finish_runs.
Qed.
End goes_through.

(** ** The three steps of a worker *)

Lemma step_claimed sha256_hex cfg tenant site iface env x y l ws c id pn body :
  claim_step sha256_hex cfg tenant site iface env x = (y, ToSend c id pn body) →
  step sha256_hex cfg (OClaim tenant site iface env) (mkWorld x l ws) = mkWorld y (mkPending c id pn body None :: l) ws.
Proof. intros H. unfold step. cbn [db]. by rewrite H. Qed.

Lemma step_answered sha256_hex cfg reply x c id pn body l ws pa :
  SendPS sha256_hex cfg (PMSInterfaceID (cl_Pinned c)) pn body reply = Answer pa →
  step sha256_hex cfg (OSend 0 reply) (mkWorld x (mkPending c id pn body None :: l) ws)
  = mkWorld x (mkPending c id pn body (Some (Answer pa)) :: l) (mkSent id (cl_PostingID c) (cl_Pinned c) pn body :: ws).
Proof. intros H. cbn. by rewrite H. Qed.

Lemma step_settled sha256_hex cfg env x c id pn body l ws r :
  step sha256_hex cfg (OSettle 0 env) (mkWorld x (mkPending c id pn body (Some r) :: l) ws)
  = mkWorld (settle c id r env x) l ws.
Proof. done. Qed.

(** C17. A charge that meets no refusal goes through.  When the head of a lane is
    due, its gate passes, no attempt of it may have been sent, no trigger forbids
    it, its settlement is in progress and its purchase waits for the money of a
    room guest who holds no live entitlement, then one claim, one hand-off that the
    PMS answers with OK and one settlement, with no statement lost, leave the
    attempt ACKED, the outbox row DONE, the settlement SETTLED, the purchase
    GRANTED and an active entitlement of the stay on the quoted terms, and exactly
    one PS, with the posting's amount and the stay's current room, was put on the
    wire. *)
Theorem charge_goes_through (sha256_hex : string → string) cfg tenant site iface env x ob o po code sn sl
    (pa : PA) (pa_body : string) (senv : settle_env) (l : list pending) (ws : list sent_ps) :
  ready cfg tenant site iface env x ob o po code sn (st_grant senv) sl →
  ParsePA pa_body = Ok pa → pa_PNumber pa = next_pn iface x → AS pa = "OK" →
  st_faults senv = [] ∧ st_fate senv = Committed ∧ st_effect_lost senv = false ∧ st_outcome_lost senv = false →
  let w := run sha256_hex [(cfg, OClaim tenant site iface env); (cfg, OSend 0 (Reply "ANSWERED" "" pa_body));
                           (cfg, OSettle 0 senv)] (mkWorld x l ws) in
  (∃ id a, attempts (db w) !! id = Some a ∧ at_posting a = ob_posting o ∧ at_outcome a = ACKED ∧ at_as a = Some "OK") ∧
  ob_state <$> outboxes (db w) !! ob = Some DONE ∧
  settlements (db w) !! po_settlement po = Some (with_status "SETTLED" (sl_settlement sl)) ∧
  (∃ e, granted (shop (db w)) !! ge_new (st_grant senv) = Some e ∧ en_purchase e = se_purchase (sl_settlement sl) ∧ en_status e = ACTIVE ∧
     of_stay (en_owner e) = Some (sl_stay sl) ∧ en_snapshot e = q_snapshot (sl_quote sl)) ∧
  pu_state <$> bought (shop (db w)) !! se_purchase (sl_settlement sl) = Some "GRANTED" ∧ pend w = l ∧
  ∃ s, wire w = s :: ws ∧ w_posting s = ob_posting o ∧
    w_body s = ps_body (StayRoomNumber sn) (po_g_number po) (pretty (po_amount po)) (TrimSpace code)
                 (pretty (next_pn iface x)).
Proof.
  intros H Hparse Hpn Hok (Hf & Hfa & Hel & Hol) w.
  assert (Hg : po_g_number po = StayReservation sn).
  { pose proof (rd_gate _ _ _ _ _ _ _ _ _ _ _ _ _ H) as Hgate.
    apply CheckFor_None in Hgate as (_ & _ & _ & _ & _ & Hg & _). exact Hg. }
  subst w. cbn [run foldl fst snd].
  rewrite (step_claimed _ _ _ _ _ _ _ _ _ _ _ _ _ _ (claimed_runs sha256_hex cfg tenant site iface env x ob o po code sn _ sl H)).
  erewrite step_answered by (exact (send_runs sha256_hex cfg tenant site iface env x ob o po code sn _ sl H pa pa_body Hparse Hpn)).
  destruct (settle_runs sha256_hex cfg tenant site iface env x ob o po code sn _ sl H pa senv Hok) as (d' & HS & P1 & P2 & P3); [by split_and!|].
  rewrite step_settled, HS. cbn [db wire pend]. split_and!; [| |exact P1|exact P2|exact P3|done|].
  - eexists _, _. split; [apply lookup_insert_eq|done].
  - cbn [outboxes set_shop set_outboxes]. by rewrite lookup_insert_eq.
  - eexists. split; [done|]. cbn. by rewrite Hg.
Qed.

(** ** A lane with one charge *)
Module LiveSample.
Definition row : Outbox := mkOutbox "t1" "site1" "if1" "p1" QUEUED 900 950 0 8 None.
Definition charge : Posting :=
  mkPosting "t1" "site1" "if1" "se1" "stay1" "rev1" "88213" CHARGE None 1500 "EUR" 2 "k1".
Definition start : PDb := mkPDb {["p1" := charge]} {["ob1" := row]} ∅ ∅ ∅ LedgerSample.sales [] ∅ ∅ ∅ ∅.
Definition env : run_env :=
  mkRunEnv 1000 (Some ("WIFI", "AWAITING_SETTLEMENT")) (Some GateSample.snapshot) [] (λ _, 5%positive) Committed.
Definition bought_by : Purchase :=
  mkPurchase LedgerSample.sc "r1" (Some "q1") (Some "ac1") (Some "if1") (Some "stay1") "GUEST_SELECTION" 1500 (Some "EUR") (Some 2) "AWAITING_SETTLEMENT".
Definition quoted : Quote :=
  mkQuote LedgerSample.sc "ac1" "r1" (Some "if1") (Some "map1") 1500 (Some "EUR") (Some 2) None None None LedgerSample.terms 2000 (Some 800).
Definition signed_in : AuthContext := mkAuthContext LedgerSample.sc "pms" (Some "stay1") None None None None "dev" "net" 2000 (Some 800) None.
Definition sold : sale := mkSale (mkSettlement LedgerSample.sc "pu1" "PMS_POSTING" "IN_PROGRESS") bought_by quoted signed_in "stay1".
End LiveSample.

Lemma sample_sale : sale_open LedgerSample.grant LiveSample.charge LiveSample.sold LiveSample.start.
Proof.
  split; [vm_compute; reflexivity|reflexivity|split; reflexivity|]. split.
  - split; [vm_compute; reflexivity|]. split; [reflexivity|]. split; [cbn; set_solver|]. done.
  - split; [reflexivity|]. by eexists.
  - vm_compute. reflexivity.
  - split; [by eexists|]. done.
  - by exists None.
  - right. cbn. set_solver.
  - split; vm_compute; by eexists.
  - intros k e He. cbn in He. by rewrite lookup_empty in He.
  - intros k e He. cbn in He. by rewrite lookup_empty in He.
  - split; vm_compute; reflexivity.
Qed.

Lemma sample_ready :
  ready LedgerSample.live "t1" "site1" "if1" LiveSample.env LiveSample.start "ob1" LiveSample.row LiveSample.charge
    "WIFI" GateSample.snapshot LedgerSample.grant LiveSample.sold.
Proof.
  split; try exact sample_sale; try (vm_compute; (reflexivity || discriminate)); try (split; vm_compute; (reflexivity || discriminate)).
  intros id o'. cbn [outboxes LiveSample.start]. intros [<- <-]%lookup_singleton_Some. done.
Qed.

Lemma charge_goes_through_witness :
  ∃ w, w = run LedgerSample.sha [(LedgerSample.live, OClaim "t1" "site1" "if1" LiveSample.env);
      (LedgerSample.live, OSend 0 (LedgerSample.ok_answer 1)); (LedgerSample.live, OSettle 0 LedgerSample.senv)]
      (mkWorld LiveSample.start [] []) ∧
    pu_state <$> bought (shop (db w)) !! "pu1" = Some "GRANTED" ∧ is_Some (granted (shop (db w)) !! "e1") ∧
    w_body <$> wire w = ["PS|RN1421|G#88213|TA1500|PTD|SOWIFI|CTWIFI|P#1|WSSTAYCONNECT|"].
Proof.
  destruct (charge_goes_through LedgerSample.sha LedgerSample.live "t1" "site1" "if1" LiveSample.env LiveSample.start "ob1" LiveSample.row
    LiveSample.charge "WIFI" GateSample.snapshot LiveSample.sold (mkPA 1 "OK" "PA|P#1|ASOK|") "PA|P#1|ASOK|"
    LedgerSample.senv [] [] sample_ready) as (_ & _ & _ & (e & He & _) & Hp & _ & s & Hw & _ & Hb);
    [vm_compute; reflexivity|vm_compute; reflexivity|reflexivity|split_and!; reflexivity|].
  eexists. split; [reflexivity|]. split; [exact Hp|]. split; [exists e; exact He|].
  change (LedgerSample.ok_answer 1) with (Reply "ANSWERED" "" "PA|P#1|ASOK|").
  rewrite Hw. cbn [fmap list_fmap]. rewrite Hb. vm_compute. reflexivity.
Defined.
