(* ===== verification/PostingPark.v ===== *)
(** A row of a posting lane that keeps being refused leaves the lane (PostingEngine,
    PostingTables): every refusal puts it back in the queue, at most five minutes away,
    and the one that reaches the site's limit parks it. *)
From stdpp Require Import pretty.
From S2P Require Import Prelude GoStrings GoText CommerceTables Pg Modules PostingWire PostingGate PostingTables PostingEngine PostingLedger PostingProofs PostingLive.

(** ** The head of a lane *)

Definition in_lane (tenant site iface : string) (o : Outbox) : Prop :=
  ob_tenant o = tenant ∧ ob_site o = site ∧ ob_iface o = iface ∧ ob_state o = QUEUED.

Lemma lane_before_true a b : lane_before a b = true ↔
  ob_enqueued_at a.2 < ob_enqueued_at b.2 ∨ ob_enqueued_at a.2 = ob_enqueued_at b.2 ∧ String.leb a.1 b.1 = true.
Proof. unfold lane_before, string_le. rewrite orb_true_iff, andb_true_iff, Z.ltb_lt, Z.eqb_eq, bool_decide_eq_true. done. Qed.

Lemma leb_trans s1 s2 s3 : String.leb s1 s2 = true → String.leb s2 s3 = true → String.leb s1 s3 = true.
Proof. rewrite <- !Is_true_true. change (String.le s1 s2 → String.le s2 s3 → String.le s1 s3). apply transitivity. Qed.

Lemma lane_before_refl a : lane_before a a = true.
Proof. apply lane_before_true. right. split; [done|]. by destruct (String.leb_total a.1 a.1). Qed.
Lemma lane_before_trans a b c : lane_before a b = true → lane_before b c = true → lane_before a c = true.
Proof. rewrite !lane_before_true. intros [?|[? H1]] [?|[? H2]]; try (left; lia). right. split; [lia|]. by eapply leb_trans. Qed.
Lemma lane_before_other a b : lane_before a b = false → lane_before b a = true.
Proof.
  intros H. apply lane_before_true. rewrite <- not_true_iff_false, lane_before_true in H.
  destruct (Z.lt_trichotomy (ob_enqueued_at a.2) (ob_enqueued_at b.2)) as [?|[E|?]]; [naive_solver| |by left]. right. split; [done|].
  destruct (String.leb_total a.1 b.1); naive_solver.
Qed.

Lemma head_least tenant site iface x ob o i o' :
  lane_head tenant site iface x = Some (ob, o) → outboxes x !! i = Some o' → in_lane tenant site iface o' → lane_before (ob, o) (i, o') = true.
Proof.
  unfold lane_head. intros HL Hi HI.
  assert (Hin : (i, o') ∈ filter (λ io, ob_tenant io.2 = tenant ∧ ob_site io.2 = site ∧ ob_iface io.2 = iface ∧ ob_state io.2 = QUEUED) (map_to_list (outboxes x)))
    by (apply list_elem_of_filter; split; [exact HI|by apply elem_of_map_to_list]).
  destruct (filter _ _) as [|io l]; [done|]. injection HL as HF. rewrite <- HF. clear HF HI Hi. revert Hin. generalize (i, o') as z. intros z Hin.
  induction l as [|b l IH]; cbn.
  - apply list_elem_of_singleton in Hin as <-. apply lane_before_refl.
  - assert (HZ : z = b ∨ z ∈ io :: l) by set_solver. destruct (lane_before b _) eqn:E; destruct HZ as [->|HZ]; auto using lane_before_refl, lane_before_other.
    eapply lane_before_trans; [exact E|auto].
Qed.

Lemma head_is tenant site iface x ob o :
  outboxes x !! ob = Some o → in_lane tenant site iface o →
  (∀ i o', outboxes x !! i = Some o' → in_lane tenant site iface o' → lane_before (ob, o) (i, o') = true) →
  lane_head tenant site iface x = Some (ob, o).
Proof.
  intros Ho HI HM. destruct (lane_head tenant site iface x) as [[i o']|] eqn:E.
  - pose proof (head_least _ _ _ _ _ _ _ _ E Ho HI) as H1. apply lane_head_Some in E as (Hi & HI').
    pose proof (HM _ _ Hi HI') as H2. apply lane_before_true in H1, H2. cbn in H1, H2.
    assert (i = ob) as -> by (apply String.leb_antisym; destruct H1 as [?|[? ?]], H2 as [?|[? ?]]; (lia || done)). congruence.
  - exfalso. unfold lane_head in E.
    assert (Hin : (ob, o) ∈ filter (λ io, ob_tenant io.2 = tenant ∧ ob_site io.2 = site ∧ ob_iface io.2 = iface ∧ ob_state io.2 = QUEUED) (map_to_list (outboxes x)))
      by (apply list_elem_of_filter; split; [exact HI|by apply elem_of_map_to_list]).
    destruct (filter _ _); [by apply elem_of_nil in Hin|done].
Qed.

(** A row that keeps its place in the queue stays the head. *)
Lemma head_stays tenant site iface x ob o o' :
  lane_head tenant site iface x = Some (ob, o) → in_lane tenant site iface o' → ob_enqueued_at o' = ob_enqueued_at o →
  lane_head tenant site iface (set_outboxes (<[ob := o']>) x) = Some (ob, o').
Proof.
  intros HL HI HE. apply head_is; cbn; [apply lookup_insert_eq|done|]. intros i b [[<- <-]|[_ Hb]]%lookup_insert_Some HB; [apply lane_before_refl|].
  pose proof (head_least _ _ _ _ _ _ _ _ HL Hb HB) as H. apply lane_before_true in H. apply lane_before_true. cbn in *. by rewrite HE.
Qed.

(** ** One refusal *)

(** No other row of the posting is active, none of the interface is in flight
    and the site is not in financial recovery. *)
Definition lane_clear (ob : string) (o : Outbox) (x : PDb) : Prop :=
  ((ob_tenant o, ob_site o) ∉ recovery x) ∧
  ∀ id o', outboxes x !! id = Some o' → id ≠ ob →
    (ob_posting o' = ob_posting o → ob_state o' = DONE) ∧ (ob_iface o' = ob_iface o → ob_state o' ≠ IN_FLIGHT).

Definition park_limit (o : Outbox) (x : PDb) : Z := default default_park (park_after x !! (ob_tenant o, ob_site o)).

(** The row after one refusal. *)
Definition refused_row (limit : Z) (t : Time) (code : Code) (o : Outbox) : Outbox :=
  let n := ob_decline_count o + 1 in
  if limit <=? n then mkOutbox (ob_tenant o) (ob_site o) (ob_iface o) (ob_posting o) HELD_RECOVERY (ob_enqueued_at o)
                        (ob_not_before o) (ob_not_sent_count o) n (Some (parked_text (Some code)))
  else mkOutbox (ob_tenant o) (ob_site o) (ob_iface o) (ob_posting o) QUEUED (ob_enqueued_at o) (t + defer_delay n)
         (ob_not_sent_count o) n (ob_parked_reason o).

Lemma outbox_update_runs ob o f x :
  outboxes x !! ob = Some o → lane_clear ob o x → ob_state o = QUEUED ∨ ob_state o = IN_FLIGHT →
  ob_tenant (f o) = ob_tenant o ∧ ob_site (f o) = ob_site o ∧ ob_iface (f o) = ob_iface o ∧ ob_posting (f o) = ob_posting o →
  update_outbox false ob f x = Ok (set_outboxes (<[ob := f o]>) x).
Proof.
  intros Ho [Hr Hl] Hs (Ht & Hsi & Hi & Hp). unfold update_outbox. rewrite Ho.
  unfold p4_outbox_recovery_gate, outbox_unique. rewrite Ht, Hsi, Hi, Hp.
  rewrite (bool_decide_false ((ob_tenant o, ob_site o) ∈ recovery x)), andb_false_r by done.
  rewrite (bool_decide_false (ob_state o = HELD_RECOVERY)) by (destruct Hs as [->| ->]; done).
  rewrite !forallb_others; [by rewrite !orb_true_r| |].
  - intros i o' Hi' Hne. destruct (Hl i o' Hi' Hne) as [H _]. cbn.
    destruct (decide (ob_posting o' = ob_posting o)) as [E|E]; [|by rewrite bool_decide_false].
    rewrite (H E). by rewrite andb_false_r.
  - intros i o' Hi' Hne. destruct (Hl i o' Hi' Hne) as [_ H]. cbn.
    destruct (decide (ob_iface o' = ob_iface o)) as [E|E]; [|by rewrite bool_decide_false].
    rewrite (bool_decide_false (ob_state o' = IN_FLIGHT)), andb_false_r by auto. done.
Qed.

Lemma lane_clear_set ob o o' x :
  ob_tenant o' = ob_tenant o → ob_site o' = ob_site o → ob_iface o' = ob_iface o → ob_posting o' = ob_posting o →
  lane_clear ob o x → lane_clear ob o' (set_outboxes (<[ob := o']>) x).
Proof.
  intros Ht Hs Hi Hp [Hr Hl]. split; [cbn; by rewrite Ht, Hs|]. intros i b Hb Hne. cbn in Hb.
  rewrite lookup_insert_ne in Hb by done. rewrite Hi, Hp. by apply (Hl i b).
Qed.


(** What makes the claiming transaction decline with [code]: the evidence does not resolve,
    or the gate refuses for a reason that does not abort the charge. *)
Record refusing (tenant site iface : string) (po : Posting) (env : run_env) (code : Code) : Prop := {
  rf_database : re_faults env = [] ∧ re_fate env = Committed;
  rf_why : ∃ pc st, re_pin env = Some (pc, st) ∧
    ((re_snapshot env = None ∧ code = ErrEvidenceOutOfScope)
     ∨ ∃ sn, re_snapshot env = Some sn ∧ CheckFor PurposeExecute (pin tenant site iface po pc st (StayRoomNumber sn)) sn = Some code ∧
         presendAbortReason code = "")
}.

Section round.
Context (sha256_hex : string → string) (cfg : PostingConfig) (tenant site iface : string) (env : run_env) (code : Code).
Context (ob : string) (o : Outbox) (po : Posting) (x : PDb).
Context (Hon : OutboxOn cfg = true) (HL : lane_head tenant site iface x = Some (ob, o)) (Hpo : postings x !! ob_posting o = Some po)
  (Hclear : lane_clear ob o x) (Hdue : ob_not_before o ≤ re_now env) (Hrf : refusing tenant site iface po env code).

Let o1 := with_state IN_FLIGHT o.
Let x1 := set_outboxes (<[ob := o1]>) x.
Let o2 := refused_row (park_limit o x) (re_now env) code o.

Lemma head_claimed : claim_head tenant site iface (re_now env) x = Ok (x1, Some (ob, ob_posting o, po)).
Proof using HL Hpo Hclear Hdue.
  destruct (lane_head_Some _ _ _ _ _ _ HL) as (Ho & _ & _ & _ & Hq). unfold claim_head. rewrite HL, (proj2 (Z.ltb_ge _ _)) by done. rewrite Hpo.
  by rewrite (outbox_update_runs ob o) by (done || by left).
Qed.

Lemma deferred : posting_outbox_defer ob DeferDeclined (Some code) (re_now env) x1
  = Ok (set_outboxes (<[ob := o2]>) x1, if park_limit o x <=? ob_decline_count o + 1 then "PARKED" else "QUEUED").
Proof using HL Hclear.
  destruct (lane_head_Some _ _ _ _ _ _ HL) as (Ho & _ & _ & _ & Hq).
  assert (Ho1 : outboxes x1 !! ob = Some o1) by apply lookup_insert_eq.
  assert (Hl1 : lane_clear ob o1 x1) by (by apply (lane_clear_set ob o)).
  unfold posting_outbox_defer. rewrite Ho1. cbn [ob_state o1 with_state]. cbn zeta.
  change (ob_decline_count o1) with (ob_decline_count o). change (park_after x1) with (park_after x).
  change (default default_park (park_after x !! _)) with (park_limit o x). unfold o2, refused_row.
  destruct (park_limit o x <=? ob_decline_count o + 1); by rewrite (outbox_update_runs ob o1) by (done || by right).
Qed.

Lemma refusal_runs : claim_step sha256_hex cfg tenant site iface env x
  = (set_outboxes (<[ob := o2]>) x, Declined (ob_posting o) code (park_limit o x <=? ob_decline_count o + 1)).
Proof using Hon HL Hpo Hclear Hdue Hrf.
  destruct Hrf as [[Hf Hc] (pc & st & Hpin & Hwhy)]. unfold claim_step. rewrite Hon, Hf, Hc. cbn [negb].
  set (b := park_limit o x <=? _). 
  enough (claim_tx sha256_hex cfg tenant site iface env (at_db x (re_uuids env) 0)
    = (at_db (set_outboxes (<[ob := o2]>) x1) (re_uuids env) 0, Ok (Declined (ob_posting o) code b))) as E.
  { unfold at_db in E. rewrite E. cbn. f_equal. unfold set_outboxes. cbn. by rewrite insert_insert_eq. }
  assert (HD : ∀ c, cl_OutboxID c = ob → cl_PostingID c = ob_posting o →
    decline c code (re_now env) (at_db x1 (re_uuids env) 0) = (at_db (set_outboxes (<[ob := o2]>) x1) (re_uuids env) 0, Ok (Declined (ob_posting o) code b))).
  { intros c E1 E2. unfold decline, Defer. rewrite E1, E2. rewrite (bind_runs _ _ _ _ _ (statement_runs _ _ _ _ _ _ deferred)). fold b. by destruct b. }
  unfold claim_tx, ClaimNext. rewrite Hpin. erewrite bind_runs.
  2:{ erewrite bind_runs by (apply statement_runs, head_claimed). cbn beta iota.
      rewrite (bind_runs _ _ _ _ _ (query_runs _ _ _ _)). rewrite (bind_runs _ _ _ _ _ (query_runs _ _ _ _)). reflexivity. }
  cbn beta iota. rewrite (bind_runs _ _ _ _ _ (try_runs _ _ _ _ (query_runs _ _ _ _))). cbn beta iota.
  rewrite (bind_runs _ _ _ _ _ (try_runs _ _ _ _ (query_runs _ _ _ _))). destruct Hwhy as [[-> ->]|(sn & -> & HG & HA)]; cbn beta iota zeta; [by apply HD|].
  change (with_room _ _) with (pin tenant site iface po pc st (StayRoomNumber sn)). rewrite HG, HA. cbn [empty]. by apply HD.
Qed.
End round.

(** ** Refusals end *)

Lemma defer_delay_bound n : 1 ≤ n → 2 * Second ≤ defer_delay n ≤ 300 * Second.
Proof.
  intros Hn. unfold defer_delay. assert (0 < 2 ^ Z.min (n - 1) 10) by (apply Z.pow_pos_nonneg; lia).
  assert (0 < Second) by done. nia.
Qed.

(** A worker comes to the lane again and again, when the row is due: not before [t], then five
    minutes or more after the round before. *)
Fixpoint spaced (t : Time) (l : list (run_env * Code)) : Prop :=
  match l with
  | [] => True
  | (env, _) :: l' => t ≤ re_now env ∧ spaced (re_now env + 300 * Second) l'
  end.

Fixpoint next_due (t : Time) (l : list (run_env * Code)) : Time :=
  match l with [] => t | (env, _) :: l' => next_due (re_now env + 300 * Second) l' end.

Lemma spaced_app t l env code l' : spaced t (l ++ (env, code) :: l')%list → spaced t l ∧ next_due t l ≤ re_now env.
Proof. revert t. induction l as [|[e c] l IH]; intros t; cbn; [naive_solver|]. intros [? ?%IH]. naive_solver. Qed.

Section refusals.
Context (sha256_hex : string → string) (cfg : PostingConfig) (tenant site iface ob : string) (po : Posting) (ps : list pending) (ws : list sent_ps).
Context (Hon : OutboxOn cfg = true).

Definition refusals (l : list (run_env * Code)) : list (PostingConfig * op) := (λ ec, (cfg, OClaim tenant site iface ec.1)) <$> l.

(** The row [o] waits at the head of its lane. *)
Record waiting (o : Outbox) (x : PDb) : Prop := {
  wa_head : lane_head tenant site iface x = Some (ob, o);
  wa_posting : postings x !! ob_posting o = Some po;
  wa_clear : lane_clear ob o x
}.

Lemma refusal_step env code o x : waiting o x → ob_not_before o ≤ re_now env → refusing tenant site iface po env code →
  step sha256_hex cfg (OClaim tenant site iface env) (mkWorld x ps ws)
  = mkWorld (set_outboxes (<[ob := refused_row (park_limit o x) (re_now env) code o]>) x) ps ws.
Proof using Hon.
  intros [HL Hpo HC] Hdue Hrf. unfold step. cbn [db]. by rewrite (refusal_runs sha256_hex cfg tenant site iface env code ob o po x Hon HL Hpo HC Hdue Hrf).
Qed.

(** Below the limit the row goes back to the queue. *)
Lemma still_waiting env code o x : waiting o x → ob_decline_count o + 1 < park_limit o x →
  let o' := refused_row (park_limit o x) (re_now env) code o in
  waiting o' (set_outboxes (<[ob := o']>) x) ∧ ob_decline_count o' = ob_decline_count o + 1 ∧
  ob_not_before o' = re_now env + defer_delay (ob_decline_count o + 1) ∧ park_limit o' (set_outboxes (<[ob := o']>) x) = park_limit o x.
Proof using Type.
  intros [HL Hpo HC] Hlim. cbv zeta. destruct (lane_head_Some _ _ _ _ _ _ HL) as (_ & HI). unfold refused_row. rewrite (proj2 (Z.leb_gt _ _)) by lia.
  split_and!; try done. constructor; [apply (head_stays _ _ _ _ _ o); [done| |done]|done|by apply (lane_clear_set ob o)]. split_and!; naive_solver.
Qed.

Lemma refusals_queue l : ∀ x o, waiting o x → Forall (λ ec, refusing tenant site iface po ec.1 ec.2) l → spaced (ob_not_before o) l →
  0 ≤ ob_decline_count o → ob_decline_count o + Z.of_nat (length l) < park_limit o x →
  ∃ y o', run sha256_hex (refusals l) (mkWorld x ps ws) = mkWorld y ps ws ∧ waiting o' y ∧ park_limit o' y = park_limit o x ∧
    ob_decline_count o' = ob_decline_count o + Z.of_nat (length l) ∧ ob_not_before o' ≤ next_due (ob_not_before o) l.
Proof using Hon.
  induction l as [|[env code] l IH]; intros x o HW HF HS Hd Hlim; cbn [length] in Hlim |- *.
  { exists x, o. cbn. split_and!; [done..|lia|lia]. }
  apply Forall_cons in HF as [Hrf HF]. destruct HS as [Hdue HS]. destruct (still_waiting env code o x HW) as (HW' & E1 & E2 & E3); [lia|].
  pose proof (defer_delay_bound (ob_decline_count o + 1)) as HB. unfold run. cbn [refusals fmap list_fmap foldl fst snd].
  rewrite (refusal_step env code o x HW Hdue Hrf).
  assert (Hmono : ∀ l t t', t ≤ t' → spaced t' l → spaced t l ∧ next_due t l ≤ next_due t' l).
  { intros [|[e c] l'] t t' Ht; cbn; [lia|]. intros [? ?]. split; [split; [lia|done]|lia]. }
  destruct (Hmono l (ob_not_before (refused_row (park_limit o x) (re_now env) code o)) (re_now env + 300 * Second)) as [HS' HN]; [rewrite E2; lia|done|].
  destruct (IH _ _ HW' HF HS') as (y & o' & R1 & R2 & R3 & R4 & R5); [rewrite E1; lia|rewrite E1, E3; lia|].
  rewrite E1 in R4. exists y, o'. cbn [next_due]. split_and!; [exact R1|done|congruence|lia|lia].
Qed.

(** The round after [l]. *)
Lemma refusals_next l env code x o : waiting o x → Forall (λ ec, refusing tenant site iface po ec.1 ec.2) (l ++ [(env, code)])%list →
  spaced (ob_not_before o) (l ++ [(env, code)])%list → 0 ≤ ob_decline_count o → ob_decline_count o + Z.of_nat (length l) < park_limit o x →
  ∃ y o', run sha256_hex (refusals (l ++ [(env, code)])%list) (mkWorld x ps ws)
    = mkWorld (set_outboxes (<[ob := refused_row (park_limit o x) (re_now env) code o']>) y) ps ws ∧ waiting o' y ∧
    ob_decline_count o' = ob_decline_count o + Z.of_nat (length l).
Proof using Hon.
  intros HW [HF [Hrf _]%Forall_cons]%Forall_app HS Hd Hlim. apply spaced_app in HS as [HS Hdue].
  destruct (refusals_queue l x o HW HF HS Hd Hlim) as (y & o' & R1 & R2 & R3 & R4 & R5). exists y, o'. split_and!; [|done|done].
  unfold run in R1 |- *. unfold refusals in R1 |- *. rewrite fmap_app, foldl_app, R1. cbn [fmap list_fmap foldl fst snd].
  rewrite (refusal_step env code o' y R2 (Z.le_trans _ _ _ R5 Hdue) Hrf). by rewrite R3.
Qed.

(** C40. A row that keeps being refused leaves the lane.  When the worker comes to a lane
    whose head is refused every time, five minutes or more apart, with no statement lost:
    each refusal before the site's limit puts the row back in the queue, between two seconds
    and five minutes away; the one that reaches the limit parks it with its reason, cut to 200
    characters; the row is then no longer the head, so the charges behind it can go on, and
    nothing was sent. *)
Theorem refused_row_is_parked (l : list (run_env * Code)) (env : run_env) (code : Code) (x : PDb) (o : Outbox) :
  waiting o x → Forall (λ ec, refusing tenant site iface po ec.1 ec.2) (l ++ [(env, code)])%list →
  spaced (ob_not_before o) (l ++ [(env, code)])%list → 0 ≤ ob_decline_count o →
  ob_decline_count o + Z.of_nat (length l) + 1 = park_limit o x →
  (∀ l1 env1 code1 l2, l = (l1 ++ (env1, code1) :: l2)%list →
     ∃ o', outboxes (db (run sha256_hex (refusals (l1 ++ [(env1, code1)])%list) (mkWorld x ps ws))) !! ob = Some o' ∧ ob_state o' = QUEUED ∧
       re_now env1 + 2 * Second ≤ ob_not_before o' ≤ re_now env1 + 300 * Second) ∧
  let w := run sha256_hex (refusals (l ++ [(env, code)])%list) (mkWorld x ps ws) in
  pend w = ps ∧ wire w = ws ∧
  (∃ o', outboxes (db w) !! ob = Some o' ∧ ob_state o' = HELD_RECOVERY ∧ ob_parked_reason o' = Some (left_chars 200 code)) ∧
  ∀ o', lane_head tenant site iface (db w) ≠ Some (ob, o').
Proof using Hon.
  intros HW HF HS Hd Hlim. split.
  - intros l1 e1 c1 l2 ->. rewrite length_app in Hlim. cbn in Hlim. rewrite <- app_assoc in HF, HS. cbn in HF, HS.
    assert (HS1 : spaced (ob_not_before o) (l1 ++ [(e1, c1)])%list).
    { revert HS. clear. generalize (ob_not_before o). induction l1 as [|[e c] l1 IH]; intros t; cbn; naive_solver. }
    apply Forall_app in HF as [HF1 [HF2 _]%Forall_cons].
    destruct (refusals_next l1 e1 c1 x o HW) as (y & o1 & R1 & R2 & R3); [by apply Forall_app; split; [|by apply Forall_singleton]|done|done|lia|].
    rewrite R1. cbn [db outboxes set_outboxes]. rewrite lookup_insert_eq. eexists. split; [done|]. unfold refused_row. rewrite (proj2 (Z.leb_gt _ _)) by lia. cbn.
    pose proof (defer_delay_bound (ob_decline_count o1 + 1)). split; [done|lia].
  - destruct (refusals_next l env code x o HW HF HS Hd) as (y & o1 & R1 & R2 & R3); [lia|]. cbv zeta. rewrite R1. cbn [db pend wire].
    assert (HL : outboxes (set_outboxes (<[ob := refused_row (park_limit o x) (re_now env) code o1]>) y) !! ob
      = Some (refused_row (park_limit o x) (re_now env) code o1)) by apply lookup_insert_eq.
    assert (HP : ob_state (refused_row (park_limit o x) (re_now env) code o1) = HELD_RECOVERY ∧
      ob_parked_reason (refused_row (park_limit o x) (re_now env) code o1) = Some (left_chars 200 code)).
    { unfold refused_row. by rewrite (proj2 (Z.leb_le _ _)) by lia. }
    split_and!; [done|done|eauto|]. intros o' Hh%lane_head_Some. destruct HP as [HP _]. naive_solver congruence.
Qed.
End refusals.

(** ** A lane with one charge *)

(** The sample row was refused eight times; the PMS data of its stay cannot be read. *)
Definition unresolved (t : Time) : run_env * Code :=
  (mkRunEnv t (Some ("WIFI", "AWAITING_SETTLEMENT")) None [] (λ _, 5%positive) Committed, ErrEvidenceOutOfScope).

Lemma refused_row_is_parked_witness :
  ∃ o', outboxes (db (run LedgerSample.sha (refusals LedgerSample.live "t1" "site1" "if1" [unresolved 2000; unresolved (2000 + 300 * Second)])
    (mkWorld LiveSample.start [] []))) !! "ob1" = Some o' ∧ ob_state o' = HELD_RECOVERY ∧ ob_parked_reason o' = Some ErrEvidenceOutOfScope.
Proof.
  assert (HR : ∀ t, refusing "t1" "site1" "if1" LiveSample.charge (unresolved t).1 (unresolved t).2).
  { intros t. split; [done|]. eexists _, _. split; [reflexivity|]. by left. }
  destruct (refused_row_is_parked LedgerSample.sha LedgerSample.live "t1" "site1" "if1" "ob1" LiveSample.charge [] [] eq_refl
    [unresolved 2000] (unresolved (2000 + 300 * Second)).1 (unresolved 2000).2 LiveSample.start LiveSample.row)
    as [_ (_ & _ & (o' & H1 & H2 & H3) & _)].
  - split; [vm_compute; reflexivity|vm_compute; reflexivity|]. split; [set_solver|]. intros id o'. cbn [outboxes LiveSample.start].
    intros [<- <-]%lookup_singleton_Some. done.
  - repeat constructor; apply (HR _).
  - cbn. split_and!; try done; lia.
  - done.
  - vm_compute. reflexivity.
  - exists o'. split; [exact H1|]. split; [exact H2|]. rewrite H3. vm_compute. reflexivity.
Defined.
