(* ===== verification/ErasureLedger.v ===== *)
(** The erasure ledger (data-plane/internal/ledger: entry.go, mac.go, assess.go) and
    the decisions of a restore (cmd/scd/ledger_restore.go, ledger_auth.go).

    The ledger is a file of lines, one entry each, chained by SHA-256 and authenticated
    by an HMAC of the appliance's key.  A copy is parsed strictly, two copies and any
    number of independent witnesses are weighed against each other, and a restore goes
    on only with entries it can vouch for.  SHA-256, HMAC and encoding/json are the
    interface [LedgerLib].  The texts of messages are not modelled. *)
From stdpp Require Import pretty.
From S2P Require Import Prelude GoStrings GoText.

Definition newline : Ascii.ascii := Ascii.ascii_of_nat 10.
Definition unit_separator : Ascii.ascii := Ascii.ascii_of_nat 31.

(** ** Entries (entry.go) *)

Record Entry := mkEntry {
  Ledger : string;
  Seq : Z;
  Prev : string;
  Kind : string;
  Tenant : string;
  Site : string;
  AtUS : Z;
  Body : string;
  Hash : string;
  Mac : string
}.
#[export] Instance Entry_eq_dec : EqDecision Entry.
Proof. solve_decision. Defined.

Record HeadInfo := mkHeadInfo {
  hi_Ledger : string;
  hi_Seq : Z;
  hi_Hash : string;
  hi_Entries : Z;
  PlainSHA256 : string;
  Object : string;
  ObjectSHA256 : string;
  Encrypted : bool;
  CipherFP : string;
  UpdatedAt : string;
  hi_Mac : string
}.
#[export] Instance HeadInfo_eq_dec : EqDecision HeadInfo.
Proof. solve_decision. Defined.

(** The values Go's types allow and encoding/json carries unchanged. *)
Definition typed (e : Entry) : Prop :=
  in_int64 (Seq e) ∧ in_int64 (AtUS e) ∧
  Forall (λ s, ValidString s = true) [Ledger e; Prev e; Kind e; Tenant e; Site e; Body e; Hash e; Mac e].

Definition typed_head (h : HeadInfo) : Prop :=
  in_int64 (hi_Seq h) ∧ in_int64 (hi_Entries h) ∧
  Forall (λ s, ValidString s = true)
    [hi_Ledger h; hi_Hash h; PlainSHA256 h; Object h; ObjectSHA256 h; CipherFP h; UpdatedAt h; hi_Mac h].

(** SHA-256 and HMAC-SHA-256 as lower-case hex; json.Marshal of an entry and of a head
    note; the strict decoder of a line (unknown fields refused, one value per line) and
    json.Unmarshal of a note and of the body of a seal. *)
Class LedgerLib : Type := {
  sha256 : string → string;
  hmac : string → string → string;
  entry_json : Entry → string;
  entry_decode : string → option Entry;
  head_json : HeadInfo → string;
  head_decode : string → option HeadInfo;
  seal_decode : string → option (Z * string);
  sha256_ascii m : is_ascii (sha256 m) = true;
  sha256_hex m : lacks unit_separator (sha256 m) = true;
  sha256_ne m : sha256 m ≠ "";
  hmac_ascii k m : is_ascii (hmac k m) = true;
  hmac_ne k m : hmac k m ≠ "";
  entry_json_line e : lacks newline (entry_json e) = true;
  entry_decode_typed s e : entry_decode s = Some e → typed e;
  entry_decode_json e : typed e → entry_decode (entry_json e) = Some e;
  head_decode_json h : typed_head h → head_decode (head_json h) = Some h
}.

Definition GenesisPrev : string := of_bytes (replicate 64 48%nat).
Definition hashDomain : string := "stayconnect-ledger-v1".

Section ledger.
Context `{LedgerLib}.

Definition preimage (e : Entry) : string :=
  Join unit_separator [hashDomain; Ledger e; pretty (Seq e); Prev e; Kind e; Tenant e; Site e; pretty (AtUS e); Body e].
Definition ComputeHash (e : Entry) : string := sha256 (preimage e).

Definition Line (e : Entry) : string := entry_json e +:+ String newline "".

Inductive link_error := Incomplete | NotTheStart | Jumps | DoesNotFollow | OtherLedger | Changed.

Definition checkLink (prev : option Entry) (e : Entry) : option link_error :=
  if (Seq e <? 1) || empty (Hash e) || empty (Ledger e) || empty (Kind e) then Some Incomplete
  else
    match (match prev with
           | None => if negb (Seq e =? 1) || bool_decide (Prev e ≠ GenesisPrev) then Some NotTheStart else None
           | Some p =>
               if negb (Seq e =? wrap64 (Seq p + 1)) then Some Jumps
               else if decide (Prev e ≠ Hash p) then Some DoesNotFollow
               else if decide (Ledger e ≠ Ledger p) then Some OtherLedger
               else None
           end) with
    | Some why => Some why
    | None => if decide (ComputeHash e ≠ Hash e) then Some Changed else None
    end.

Inductive damage :=
| NotAnEntry (line : Z)
| BadLink (line : Z) (why : link_error)
| BadMac (seq : Z)
| ObjectChanged
| NotAsDescribed.

Record Parse := mkParse {
  Entries : list Entry;
  Intact : bool;
  Torn : bool;
  Err_ : option damage;
  ValidBytes : Z
}.

Definition Head (p : Parse) : Z * string :=
  match last (Entries p) with None => (0, "") | Some h => (Seq h, Hash h) end.
Definition LedgerID (p : Parse) : string := match Entries p with [] => "" | e :: _ => Ledger e end.

(** What repeated cutting at the next newline gives: the complete lines, and the
    fragment after the last of them. *)
Fixpoint lines (s : string) : list string * string :=
  match s with
  | EmptyString => ([], "")
  | String c s' =>
      let '(ls, t) := lines s' in
      if decide (c = newline) then ("" :: ls, t)
      else match ls with [] => ([], String c t) | l :: ls' => (String c l :: ls', t) end
  end.

(** The loop of [ParseChain] over the complete lines: entries, error, bytes of the
    valid prefix. *)
Fixpoint parse_lines (prev : option Entry) (lineNo : Z) (ls : list string) : list Entry * option damage * Z :=
  match ls with
  | [] => ([], None, 0)
  | line :: ls' =>
      match entry_decode line with
      | None => ([], Some (NotAnEntry lineNo), 0)
      | Some e =>
          match checkLink prev e with
          | Some why => ([], Some (BadLink lineNo why), 0)
          | None =>
              let '(es, err, n) := parse_lines (Some e) (lineNo + 1) ls' in
              (e :: es, err, len line + 1 + n)
          end
      end
  end.

Definition ParseChain (data : string) : Parse :=
  let '(ls, rest) := lines data in
  match parse_lines None 1 ls with
  | (es, Some d, n) => mkParse es false false (Some d) n
  | (es, None, n) => mkParse es (empty rest) (negb (empty rest)) None n
  end.

Fixpoint Encode (es : list Entry) : string :=
  match es with [] => "" | e :: es' => Line e +:+ Encode es' end.

Fixpoint linked (prev : option Entry) (next : list Entry) : option link_error :=
  match next with
  | [] => None
  | e :: next' => match checkLink prev e with Some why => Some why | None => linked (Some e) next' end
  end.

Definition Extends (headSeq : Z) (headHash : string) (next : list Entry) : option link_error :=
  linked (if 0 <? headSeq
          then Some (mkEntry (match next with [] => "" | e :: _ => Ledger e end) headSeq "" "" "" "" 0 "" headHash "")
          else None) next.

(** ** Authentication (mac.go) *)

Definition macDomain : string := "stayconnect-ledger-mac-v1".
Definition receiptDomain : string := "stayconnect-ledger-durable-v1".
Definition headDomain : string := "stayconnect-ledger-head-v1".
Definition KindSeal : string := "seal".

(** A key is its bytes; the empty key is the nil key, which disables authentication. *)
Definition mac (k domain msg : string) : string := hmac k (domain +:+ String unit_separator msg).
Definition EntryMAC (k hash : string) : string := mac k macDomain hash.
Definition Receipt (k hash : string) : string := mac k receiptDomain hash.
Definition EntryOK (k : string) (e : Entry) : bool :=
  negb (empty (Mac e)) && negb (empty (Hash e)) && bool_decide (Mac e = EntryMAC k (Hash e)).
Definition HeadMAC (k : string) (h : HeadInfo) : string :=
  mac k headDomain (Join unit_separator [hi_Ledger h; pretty (hi_Seq h); hi_Hash h; pretty (hi_Entries h); PlainSHA256 h;
                                         Object h; ObjectSHA256 h]).

(** How far a seal reaches, when it is one that counts. *)
Definition seal_covers (k : string) (entries : list Entry) (e : Entry) : option Z :=
  if bool_decide (Kind e ≠ KindSeal) || negb (EntryOK k e) then None
  else match seal_decode (Body e) with
       | None => None
       | Some (through, head) =>
           if (through <? 1) || (Z.of_nat (length entries) <? through) then None
           else match entries !! Z.to_nat (through - 1) with
                | None => None
                | Some a =>
                    if negb (Seq a =? through) || bool_decide (Hash a ≠ head) || (Seq e <=? through) then None
                    else Some through
                end
       end.

Definition SealedThrough (k : string) (entries : list Entry) : Z :=
  foldl (λ through e, match seal_covers k entries e with
                      | Some n => if through <? n then n else through
                      | None => through
                      end) 0 entries.

(** The sequence number of the first entry that nothing vouches for. *)
Fixpoint unauthentic (k : string) (sealed after : Z) (es : list Entry) : option Z :=
  match es with
  | [] => None
  | e :: es' =>
      if Seq e <=? after then unauthentic k sealed after es'
      else if negb (empty (Mac e)) then
        if EntryOK k e then unauthentic k sealed after es' else Some (Seq e)
      else if Seq e <=? sealed then unauthentic k sealed after es'
      else Some (Seq e)
  end.

Definition AuthenticateAfter (k : string) (entries : list Entry) (after : Z) : option Z :=
  if empty k then None else unauthentic k (SealedThrough k entries) after entries.
Definition Authenticate (k : string) (entries : list Entry) : option Z := AuthenticateAfter k entries 0.

Definition CheckPresent (k : string) (entries : list Entry) : option Z :=
  if empty k then None
  else (λ x, Seq x.2) <$> list_find (λ e, Mac e ≠ "" ∧ EntryOK k e = false) entries.

Definition Unsealed (k : string) (entries : list Entry) : Z :=
  Z.of_nat (length (filter (λ e, Mac e = "" ∧ SealedThrough k entries < Seq e) entries)).

(** ** Weighing the copies (assess.go) *)

Record Copy := mkCopy {
  cp_Name : string;
  Present : bool;
  Reach : bool;                 (* the storage could not be asked *)
  cp_Parse : option Parse
}.

Definition copy_Intact (c : Copy) : bool :=
  Present c && match cp_Parse c with Some p => bool_decide (Err_ p = None) | None => false end.

Record Witness := mkWitness { Source : string; w_Ledger : string; w_Seq : Z; w_Hash : string }.

Record Verdict := mkVerdict {
  Best : option Copy;
  Complete : bool;
  Heal : list string;
  Conflict : bool
}.

Definition noParse : Parse := mkParse [] false false None 0.
(** The parse of an intact copy. *)
Definition parse_of (c : Copy) : Parse := default noParse (cp_Parse c).
Definition headSeq (c : Copy) : Z := (Head (parse_of c)).1.
Definition entry_hash (p : Parse) (n : Z) : option string := Hash <$> Entries p !! Z.to_nat (n - 1).

(** The copies to heal and the intact ones. *)
Fixpoint sort_copies (copies : list Copy) : list string * list Copy :=
  match copies with
  | [] => ([], [])
  | c :: cs =>
      let '(heal, intact) := sort_copies cs in
      if Reach c then (heal, intact)
      else if negb (Present c) then (cp_Name c :: heal, intact)
      else if negb (copy_Intact c) then (cp_Name c :: heal, intact)
      else (heal, c :: intact)
  end.

(** The longest copy of those that agree; [None] is a fork. *)
Fixpoint longest (best : Copy) (heal : list string) (rest : list Copy) : list string * option Copy :=
  match rest with
  | [] => (heal, Some best)
  | c :: rest' =>
      let bs := headSeq best in
      let cs := headSeq c in
      let lo := Z.min bs cs in
      if (0 <? lo) && bool_decide (entry_hash (parse_of best) lo ≠ entry_hash (parse_of c) lo) then (heal, None)
      else if bs <? cs then longest c (heal ++ [cp_Name best])%list rest'
      else if cs <? bs then longest best (heal ++ [cp_Name c])%list rest'
      else longest best heal rest'
  end.

Inductive witness_result := Contradicted | FallsShort | Satisfied (n : nat).

Fixpoint check_witnesses (id : string) (p : Parse) (satisfied : nat) (ws : list Witness) : witness_result :=
  match ws with
  | [] => Satisfied satisfied
  | w :: ws' =>
      if w_Seq w <=? 0 then check_witnesses id p satisfied ws'
      else if negb (empty (w_Ledger w)) && bool_decide (w_Ledger w ≠ id) then Contradicted
      else if (Head p).1 <? w_Seq w then FallsShort
      else if negb (empty (w_Hash w)) && bool_decide (entry_hash p (w_Seq w) ≠ Some (w_Hash w)) then Contradicted
      else check_witnesses id p (S satisfied) ws'
  end.

Fixpoint drop_repeats (l : list string) : list string :=
  match l with
  | x :: (y :: _) as l' => if decide (x = y) then drop_repeats l' else x :: drop_repeats l'
  | _ => l
  end.
Definition uniq (l : list string) : list string := drop_repeats (sort_Strings l).

Definition Assess (copies : list Copy) (witnesses : list Witness) : Verdict :=
  let '(heal, intact) := sort_copies copies in
  match intact with
  | [] => mkVerdict None false heal false
  | first :: others =>
      let id := LedgerID (parse_of first) in
      if existsb (λ c, bool_decide (LedgerID (parse_of c) ≠ id)) others then mkVerdict None false heal true
      else match longest first heal others with
           | (heal, None) => mkVerdict None false heal true
           | (heal, Some best) =>
               match check_witnesses id (parse_of best) 0 witnesses with
               | Contradicted => mkVerdict None false heal true
               | FallsShort => mkVerdict None false heal false
               | Satisfied n =>
                   if (1 <? Z.of_nat (length intact)) || (0 <? Z.of_nat n) || (headSeq best =? 1)
                   then mkVerdict (Some best) true (uniq (heal ++ (cp_Name <$> filter (λ c, Reach c = true) copies))%list) false
                   else mkVerdict None false (uniq heal) false
               end
           end
  end.

(** ** A restore (ledger_restore.go, ledger_auth.go) *)

(** The longest intact ledger with more than one entry. *)
Fixpoint longest_ledger (id : string) (longest : nat) (copies : list Copy) : string :=
  match copies with
  | [] => id
  | c :: cs =>
      if copy_Intact c && (longest <? length (Entries (parse_of c)))%nat
      then longest_ledger (LedgerID (parse_of c)) (length (Entries (parse_of c))) cs
      else longest_ledger id longest cs
  end.

Definition settleFreshLedgers (copies : list Copy) (wit : list Witness) : list Copy * list Witness :=
  let id := longest_ledger "" 1 copies in
  if empty id then (copies, wit)
  else
    ((λ c, if copy_Intact c && (length (Entries (parse_of c)) =? 1)%nat && bool_decide (LedgerID (parse_of c) ≠ id)
           then mkCopy (cp_Name c) false false None else c) <$> copies,
     filter (λ x, ¬ (w_Seq x ≤ 1 ∧ w_Ledger x ≠ "" ∧ w_Ledger x ≠ id)) wit).

(** The keys at hand: the live database's (empty when it has none) and the sealed copy
    as far as it can be opened.  [None] is a refusal. *)
Definition restoreLedgerKey (live : string) (escrow : option string) (entries : list Entry) (after : Z) : option string :=
  let anyMAC := existsb (λ e, (after <? Seq e) && negb (empty (Mac e))) entries in
  let from_escrow := match escrow with
                     | Some k => if decide (AuthenticateAfter k entries after = None) then Some k else None
                     | None => None
                     end in
  if negb (empty live) then if decide (AuthenticateAfter live entries after = None) then Some live else from_escrow
  else if negb anyMAC then Some "" else from_escrow.

Record ledgerHeadInfo := mkLedgerHead { Has : bool; lh_Intact : bool; lh_Ledger : string; lh_Seq : Z; lh_Hash : string }.

(** What a restore reads, and what the staging database answers. *)
Record restore_inputs := mkRestoreInputs {
  backup_head : option ledgerHeadInfo;             (* None: could not be read *)
  live_head : option ledgerHeadInfo;
  backup_witnesses : list Witness;
  local_copy : Copy;
  external_copy : Copy;
  live_key : string;
  escrow_key : option string;
  install_key : string → bool;
  ledger_apply : list Entry → bool → bool;         (* applied, nothing failed, no conflict *)
  head_after : list Entry → option ledgerHeadInfo
}.

Definition head_witness (source : string) (h : ledgerHeadInfo) : Witness := mkWitness source (lh_Ledger h) (lh_Seq h) (lh_Hash h).

Definition restore_witnesses (i : restore_inputs) (sh : ledgerHeadInfo) : list Witness :=
  ((if Has sh then [head_witness "this backup" sh] else [])
   ++ (match live_head i with
       | Some lh => if Has lh && lh_Intact lh then [head_witness "the live database" lh] else []
       | None => []
       end)
   ++ backup_witnesses i)%list.

Inductive restore_result := Stopped | NothingToApply | Applied (feed : list Entry) (adopt : bool).

Definition restoreLedgerApply (i : restore_inputs) : restore_result :=
  match backup_head i with
  | None => Stopped
  | Some sh =>
      if Has sh && negb (lh_Intact sh) then Stopped
      else
        let '(copies, wit) := settleFreshLedgers [local_copy i; external_copy i] (restore_witnesses i sh) in
        let v := Assess copies wit in
        if Conflict v then Stopped
        else match Best v with
             | None => Stopped
             | Some best =>
                 if negb (Complete v) then Stopped
                 else
                   let entries := Entries (parse_of best) in
                   if negb (Has sh) then if (1 <? length entries)%nat then Stopped else NothingToApply
                   else
                     let adopt := (lh_Seq sh =? 1) && bool_decide (LedgerID (parse_of best) ≠ lh_Ledger sh) in
                     if negb adopt && (Z.of_nat (length entries) <? lh_Seq sh) then Stopped
                     else
                       let feed := if adopt then entries else drop (Z.to_nat (lh_Seq sh)) entries in
                       let applied :=
                         match feed with
                         | [] => true
                         | _ =>
                             match restoreLedgerKey (live_key i) (escrow_key i) entries (if adopt then 0 else lh_Seq sh) with
                             | None => false
                             | Some k => (empty k || install_key i k) && ledger_apply i feed adopt
                             end
                         end in
                       if negb applied then Stopped
                       else match head_after i feed with
                            | None => Stopped
                            | Some after =>
                                if bool_decide ((lh_Seq after, lh_Hash after) = Head (parse_of best)) then Applied feed adopt
                                else Stopped
                            end
             end
  end.

End ledger.
