(* ===== verification/ErasureProofs.v ===== *)
(** What the erasure ledger proves (ErasureLedger): a chain pins its past, a copy that
    authenticates is the appliance's own, an interrupted write is a prefix, and a
    restore redoes every erasure that anything records. *)
From stdpp Require Import pretty.
From S2P Require Import Prelude GoStrings GoText ErasureLedger.

Section ledger.
Context `{LedgerLib}.

(** ** Chains *)

Definition chain (es : list Entry) : Prop := linked None es = None.

Lemma checkLink_ok prev e :
  checkLink prev e = None →
  1 ≤ Seq e ∧ Ledger e ≠ "" ∧ Hash e = ComputeHash e ∧
  match prev with
  | None => Seq e = 1 ∧ Prev e = GenesisPrev
  | Some p => Seq e = wrap64 (Seq p + 1) ∧ Prev e = Hash p ∧ Ledger e = Ledger p
  end.
Proof.
  unfold checkLink. destruct (_ || _) eqn:E; [done|]. rewrite !orb_false_iff in E. destruct E as [[[E1 E2] E3] E4].
  apply Z.ltb_ge in E1. apply empty_false in E3.
  destruct prev as [p|].
  - destruct (negb _) eqn:En; [done|]. apply negb_false_iff, Z.eqb_eq in En.
    do 2 (case_decide; [done|]). case_decide; [done|]. intros _. split_and!; try done; by apply dec_stable.
  - destruct (negb _ || _) eqn:En; [done|]. apply orb_false_iff in En as [En Ep]. apply negb_false_iff, Z.eqb_eq in En.
    apply bool_decide_eq_false in Ep. case_decide; [done|]. intros _. split_and!; try done; by apply dec_stable.
Qed.

(** The link of an entry to the one before it. *)
Lemma linked_lookup prev es i e :
  linked prev es = None → es !! i = Some e →
  checkLink (match i with O => prev | S j => es !! j end) e = None.
Proof.
  revert prev i. induction es as [|x es IH]; intros prev i HL Hi; [done|]. cbn [linked] in HL.
  destruct (checkLink prev x) eqn:E; [done|]. destruct i as [|i]; [by injection Hi as ->|].
  specialize (IH (Some x) i HL Hi). by destruct i.
Qed.

Lemma chain_first es e : chain es → es !! 0%nat = Some e → checkLink None e = None.
Proof. intros HC Hi. exact (linked_lookup _ _ _ _ HC Hi). Qed.

Lemma chain_next es i e : chain es → es !! S i = Some e → ∃ p, es !! i = Some p ∧ checkLink (Some p) e = None.
Proof.
  intros HC Hi. pose proof (linked_lookup _ _ _ _ HC Hi) as HL. cbv iota in HL. destruct (es !! i) as [p|] eqn:E; [by exists p|].
  apply lookup_ge_None in E. apply lookup_lt_Some in Hi. lia.
Qed.

Lemma chain_Hash es i e : chain es → es !! i = Some e → Hash e = ComputeHash e.
Proof. intros HC Hi. by destruct (checkLink_ok _ _ (linked_lookup _ _ _ _ HC Hi)) as (_ & _ & ? & _). Qed.

Lemma linked_app prev es es' :
  linked prev (es ++ es')%list = None ↔ linked prev es = None ∧ linked (match last es with Some e => Some e | None => prev end) es' = None.
Proof.
  revert prev. induction es as [|x es IH]; intros prev; [naive_solver|]. cbn [linked app].
  destruct (checkLink prev x); [naive_solver|]. rewrite IH. by destruct es as [|y es]; [|rewrite last_cons_cons; destruct (last (y :: es)) eqn:E; [|by apply last_None in E]].
Qed.

Lemma linked_take prev es n : linked prev es = None → linked prev (take n es) = None.
Proof. rewrite <- (take_drop n es) at 1. rewrite linked_app. naive_solver. Qed.

(** An unbroken chain is numbered from one. *)
Lemma chain_Seq es i e : chain es → Forall typed es → es !! i = Some e → Seq e = Z.of_nat (S i).
Proof.
  intros HC HT. revert e. induction i as [|i IH]; intros e Hi.
  - apply chain_first, checkLink_ok in Hi as (_ & _ & _ & -> & _); done.
  - destruct (chain_next _ _ _ HC Hi) as (p & Ep & (H1 & _ & _ & HS & _ & _)%checkLink_ok).
    specialize (IH p Ep). pose proof (Forall_lookup_1 _ _ _ _ HT Ep) as [Hp _]. rewrite HS in H1 |- *.
    destruct (decide (Seq p + 1 < two63)); [rewrite wrap64_id; [lia|unfold in_int64 in *; lia]|].
    assert (Seq p = two63 - 1) as Hmax by (unfold in_int64 in Hp; lia). rewrite Hmax in H1. by vm_compute in H1.
Qed.

Lemma chain_ID es i e : chain es → es !! i = Some e → Ledger e = match es with [] => "" | x :: _ => Ledger x end.
Proof.
  intros HC. revert e. induction i as [|i IH]; intros e Hi; [by destruct es; [|injection Hi as ->]|].
  destruct (chain_next _ _ _ HC Hi) as (p & Ep & (_ & _ & _ & _ & _ & ->)%checkLink_ok). by apply IH.
Qed.

Lemma chain_head es : chain es → Forall typed es → Seq <$> last es = if decide (es = []) then None else Some (Z.of_nat (length es)).
Proof.
  intros HC HT. destruct es as [|x es _] using rev_ind; [done|]. rewrite last_snoc. case_decide as Hd; [by destruct es|].
  cbn. f_equal. rewrite (chain_Seq _ (length es) x HC HT).
  - rewrite length_app. cbn. f_equal. lia.
  - rewrite lookup_app_r, Nat.sub_diag by lia. done.
Qed.

(** ** What a hash pins *)

(** An entry without its code: what the hash covers, and the hash. *)
Definition content (e : Entry) : Entry :=
  mkEntry (Ledger e) (Seq e) (Prev e) (Kind e) (Tenant e) (Site e) (AtUS e) (Body e) (Hash e) "".

(** The fields an appliance writes hold no separator. *)
Definition clean (e : Entry) : Prop :=
  Forall (λ s, lacks unit_separator s = true) [Ledger e; Kind e; Tenant e; Site e; Body e].

(** Two entries, one of each chain, on which SHA-256 collides. *)
Definition collide (es es' : list Entry) : Prop :=
  ∃ e e', e ∈ es ∧ e' ∈ es' ∧ preimage e ≠ preimage e' ∧ sha256 (preimage e) = sha256 (preimage e').

Lemma pretty_no_separator (z : Z) : lacks unit_separator (pretty z) = true.
Proof.
  apply lacks_pretty_Z; [done|]. intros d. unfold pretty_N_char.
  by repeat (match goal with |- context [match ?x with _ => _ end] => destruct x end).
Qed.

Lemma prev_no_separator es i e : chain es → es !! i = Some e → lacks unit_separator (Prev e) = true.
Proof.
  intros HC Hi. destruct i as [|i].
  - apply chain_first, checkLink_ok in Hi as (_ & _ & _ & _ & ->); [|done]. by vm_compute.
  - destruct (chain_next _ _ _ HC Hi) as (p & Ep & (_ & _ & _ & _ & -> & _)%checkLink_ok).
    rewrite (chain_Hash _ _ _ HC Ep). apply sha256_hex.
Qed.

Lemma preimage_inj e e' :
  clean e → lacks unit_separator (Prev e) = true → preimage e = preimage e' → Hash e = Hash e' → content e = content e'.
Proof.
  intros HC HP HE HH. assert (HL : ∀ z : Z, lacks unit_separator (pretty z) = true) by apply pretty_no_separator.
  unfold clean in HC. rewrite !Forall_cons in HC. destruct HC as (H1 & H2 & H3 & H4 & H5 & _).
  unfold preimage in HE. apply Join_inj_length in HE; [|done|done|by repeat constructor].
  injection HE as HE1 HE2 HE3 HE4 HE5 HE6 HE7 HE8. unfold content.
  apply (inj pretty) in HE2, HE7. congruence.
Qed.

Lemma hash_pins hon es e e' :
  chain hon → Forall clean hon → chain es → e ∈ hon → e' ∈ es → Hash e = Hash e' → content e = content e' ∨ collide hon es.
Proof.
  intros HC HF HC' He He' HH. destruct (decide (preimage e = preimage e')) as [HP|HP].
  - left. rewrite Forall_forall in HF. pose proof (HF e He). apply list_elem_of_lookup in He as [i Hi].
    apply preimage_inj; try done. exact (prev_no_separator _ _ _ HC Hi).
  - right. exists e, e'. split_and!; [done..|]. apply list_elem_of_lookup in He as [i Hi], He' as [j Hj].
    change (ComputeHash e = ComputeHash e'). by rewrite <- (chain_Hash _ _ _ HC Hi), <- (chain_Hash _ _ _ HC' Hj).
Qed.

(** Equal hashes at one place: the same history up to there. *)
Lemma past_pinned hon es i e e' :
  chain hon → Forall clean hon → chain es → hon !! i = Some e → es !! i = Some e' → Hash e = Hash e' →
  content <$> take (S i) hon = content <$> take (S i) es ∨ collide hon es.
Proof.
  intros HC HF HC'. revert e e'. induction i as [|i IH]; intros e e' Hi Hi' HH;
    (destruct (hash_pins hon es e e') as [HE|]; [done|done|done|by eapply list_elem_of_lookup_2..|done| |by right]).
  - left. rewrite (take_S_r _ _ _ Hi), (take_S_r _ _ _ Hi'), !take_0. change ([content e] = [content e']). by rewrite HE.
  - destruct (chain_next _ _ _ HC Hi) as (p & Ep & (_ & _ & _ & _ & HP & _)%checkLink_ok).
    destruct (chain_next _ _ _ HC' Hi') as (p' & Ep' & (_ & _ & _ & _ & HP' & _)%checkLink_ok).
    destruct (IH p p' Ep Ep') as [HT|]; [|left|by right].
    + injection HE as _ _ HE _. congruence.
    + rewrite (take_S_r _ _ _ Hi), (take_S_r _ _ _ Hi'), !fmap_app, HT. f_equal. change ([content e] = [content e']). by rewrite HE.
Qed.

(** The same hash anywhere is the same place. *)
Lemma place_pinned hon es i e e0 :
  chain hon → Forall typed hon → Forall clean hon → chain es → Forall typed es → es !! i = Some e → e0 ∈ hon → Hash e0 = Hash e →
  content <$> take (S i) es = content <$> take (S i) hon ∨ collide hon es.
Proof.
  intros HC HT HF HC' HT' Hi He0 HH. destruct (hash_pins hon es e0 e) as [HE|]; try done; [by eapply list_elem_of_lookup_2| |by right].
  apply list_elem_of_lookup in He0 as [j Hj]. injection HE as _ HS _ _ _ _ _ _ _.
  rewrite (chain_Seq _ _ _ HC HT Hj), (chain_Seq _ _ _ HC' HT' Hi) in HS. assert (j = i) as -> by lia.
  by destruct (past_pinned hon es i e0 e) as [->|]; [..|left|right].
Qed.

(** ** Authentication *)

Lemma unauthentic_ok k sealed after es e :
  unauthentic k sealed after es = None → e ∈ es → after < Seq e → EntryOK k e = true ∨ (Mac e = "" ∧ Seq e ≤ sealed).
Proof.
  induction es as [|x es IH]; intros HU He Ha; [by apply elem_of_nil in He|]. cbn [unauthentic] in HU.
  apply elem_of_cons in He as [->|He].
  - destruct (Z.leb_spec (Seq x) after); [lia|]. destruct (empty (Mac x)) eqn:E; cbn in HU.
    + right. apply empty_true in E. destruct (Z.leb_spec (Seq x) sealed); done.
    + left. by destruct (EntryOK k x).
  - apply IH; try done. destruct (Seq x <=? after); [done|]. destruct (negb _); [by destruct (EntryOK k x)|].
    by destruct (Seq x <=? sealed).
Qed.

Lemma sealed_below k es : SealedThrough k es = 0 ∨ ∃ s, s ∈ es ∧ SealedThrough k es < Seq s.
Proof.
  unfold SealedThrough. assert (HG : ∀ l t, (∀ x, x ∈ l → x ∈ es) → (t = 0 ∨ ∃ s, s ∈ es ∧ t < Seq s) →
    let r := foldl (λ through e, match seal_covers k es e with Some n => if through <? n then n else through | None => through end) t l in
    r = 0 ∨ ∃ s, s ∈ es ∧ r < Seq s); [|by apply HG; [|left]].
  induction l as [|x l IH]; intros t Hl Ht; [done|]. cbn. apply IH; [intros y Hy; apply Hl; by right|].
  destruct (seal_covers k es x) as [n|] eqn:E; [|done]. destruct (t <? n); [|done]. right. exists x. split; [apply Hl; by left|].
  unfold seal_covers in E. destruct (_ || _); [done|]. destruct (seal_decode _) as [[th hd]|]; [|done].
  destruct (_ || _); [done|]. destruct (es !! _); [|done]. destruct (_ || _) eqn:Eo; [done|]. injection E as <-.
  rewrite !orb_false_iff in Eo. destruct Eo as [_ Eo]. by apply Z.leb_gt.
Qed.

(** Every code of the copy that checks was made by the appliance, for one of its entries. *)
Definition unforged (k : string) (hon es : list Entry) : Prop :=
  ∀ e, e ∈ es → EntryOK k e = true → ∃ e0, e0 ∈ hon ∧ Hash e0 = Hash e.

(** The entry with number [n] is the appliance's. *)
Definition anchored (n : Z) (hon es : list Entry) : Prop :=
  ∃ e e0, 0 < n ∧ es !! Z.to_nat (n - 1) = Some e ∧ hon !! Z.to_nat (n - 1) = Some e0 ∧ Hash e = Hash e0.

(** The copy holds the appliance's own entries, from the first one on. *)
Definition own_history (hon es : list Entry) : Prop := content <$> es = content <$> take (length es) hon.

Lemma authenticated_own k hon es after :
  chain hon → Forall typed hon → Forall clean hon → chain es → Forall typed es → k ≠ "" →
  unforged k hon es → after = 0 ∨ anchored after hon es → AuthenticateAfter k es after = None →
  own_history hon es ∨ collide hon es.
Proof.
  intros HC HT HF HC' HT' Hk HU HA HN. unfold AuthenticateAfter in HN. rewrite (proj2 (empty_false k) Hk) in HN.
  destruct (last es) as [e|] eqn:El; [|apply last_None in El as ->; by left].
  assert (Hlen : (0 < length es)%nat) by (destruct es; [done|cbn; lia]). pose proof El as Hi. rewrite last_lookup in Hi.
  pose proof (chain_Seq _ _ _ HC' HT' Hi) as HS. replace (S (pred (length es))) with (length es) in HS by lia.
  assert (HP : ∀ e0, e0 ∈ hon → Hash e0 = Hash e → own_history hon es ∨ collide hon es).
  { intros e0 He0 HH. destruct (place_pinned hon es _ e e0 HC HT HF HC' HT' Hi He0 HH) as [HE|]; [left|by right].
    replace (S (pred (length es))) with (length es) in HE by lia. by rewrite firstn_all in HE. }
  destruct (decide (after < Seq e)) as [Hlt|Hge].
  - destruct (unauthentic_ok _ _ _ _ _ HN (list_elem_of_lookup_2 _ _ _ Hi) Hlt) as [HOK|[_ Hse]].
    + destruct (HU e) as (e0 & He0 & HH); [by eapply list_elem_of_lookup_2|done|]. by apply (HP e0).
    + exfalso. destruct (sealed_below k es) as [H0|(s & Hs & Hlt')]; [lia|]. apply list_elem_of_lookup in Hs as [j Hj].
      pose proof (chain_Seq _ _ _ HC' HT' Hj). apply lookup_lt_Some in Hj. lia.
  - destruct HA as [->|(e1 & e0 & Hpos & He1 & He0 & HH)]; [lia|].
    assert (Z.to_nat (after - 1) = pred (length es)) as Hn by (apply lookup_lt_Some in He1; lia).
    rewrite Hn, Hi in He1. injection He1 as <-. apply (HP e0); [by eapply list_elem_of_lookup_2|done].
Qed.

(** ** Files *)

Lemma parse_lines_ok prev n ls es err b :
  parse_lines prev n ls = (es, err, b) → linked prev es = None ∧ Forall typed es.
Proof.
  revert prev n es err b. induction ls as [|l ls IH]; intros prev n es err b; cbn [parse_lines]; [by intros [= <- <- <-]|].
  destruct (entry_decode l) as [e|] eqn:Ed; [|by intros [= <- <- <-]]. destruct (checkLink prev e) eqn:Ec; [by intros [= <- <- <-]|].
  destruct (parse_lines (Some e) (n + 1) ls) as [[es' err'] b'] eqn:Ep. intros [= <- <- <-]. apply IH in Ep as [HL HT].
  split; [cbn [linked]; by rewrite Ec|]. constructor; [by eapply entry_decode_typed|done].
Qed.

(** Whatever a file holds, what is read from it is a chain. *)
Lemma ParseChain_chain data : chain (Entries (ParseChain data)) ∧ Forall typed (Entries (ParseChain data)).
Proof.
  unfold ParseChain. destruct (lines data) as [ls rest]. destruct (parse_lines None 1 ls) as [[es [d|]] b] eqn:E;
    by apply parse_lines_ok in E.
Qed.

Lemma lines_line l s : lacks newline l = true → lines (l +:+ String newline s) = (l :: (lines s).1, (lines s).2).
Proof.
  induction l as [|c l IH]; intros Hl.
  - change (lines (String newline s) = ("" :: (lines s).1, (lines s).2)). cbn [lines]. by destruct (lines s).
  - cbn [lacks] in Hl. apply andb_true_iff in Hl as [Hc%bool_decide_eq_true Hl]. specialize (IH Hl).
    change (lines (String c (l +:+ String newline s)) = (String c l :: (lines s).1, (lines s).2)). cbn [lines]. rewrite IH.
    by rewrite decide_False.
Qed.

Lemma lines_fragment t : lacks newline t = true → lines t = ([], t).
Proof.
  induction t as [|c t IH]; [done|]. cbn [lacks lines]. intros [Hc%bool_decide_eq_true Ht]%andb_true_iff.
  by rewrite (IH Ht), decide_False.
Qed.

Lemma lines_Encode es t : lacks newline t = true → lines (Encode es +:+ t) = (entry_json <$> es, t).
Proof.
  intros Ht. induction es as [|e es IH]; [by apply lines_fragment|].
  change (Encode (e :: es)) with ((entry_json e +:+ String newline "") +:+ Encode es). rewrite !append_assoc.
  change (String newline "" +:+ (Encode es +:+ t)) with (String newline (Encode es +:+ t)).
  rewrite lines_line by apply entry_json_line. by rewrite IH.
Qed.

Lemma parse_lines_Encode prev n es :
  linked prev es = None → Forall typed es → parse_lines prev n (entry_json <$> es) = (es, None, len (Encode es)).
Proof.
  revert prev n. induction es as [|e es IH]; intros prev n HL HT; [done|]. cbn [linked] in HL.
  apply Forall_cons in HT as [He HT]. destruct (checkLink prev e) eqn:Ec; [done|]. cbn [fmap list_fmap parse_lines].
  rewrite entry_decode_json, Ec by done. rewrite IH by done. f_equal. cbn [Encode]. unfold Line. rewrite !len_app.
  change (len (String newline "")) with 1. lia.
Qed.

Lemma ParseChain_Encode es t :
  chain es → Forall typed es → lacks newline t = true →
  ParseChain (Encode es +:+ t) = mkParse es (empty t) (negb (empty t)) None (len (Encode es)).
Proof. intros HC HT Ht. unfold ParseChain. by rewrite lines_Encode, parse_lines_Encode. Qed.

(** What is left of a line that was cut. *)
Lemma cut_line l s data rest :
  lacks newline l = true → data +:+ rest = l +:+ String newline s →
  lacks newline data = true ∨ ∃ data', data = l +:+ String newline data' ∧ data' +:+ rest = s.
Proof.
  revert data. induction l as [|c l IH]; intros data Hl HE.
  - destruct data as [|x data]; [by left|]. right. change (String x (data +:+ rest) = String newline s) in HE.
    injection HE as -> HE. by exists data.
  - destruct data as [|x data]; [by left|]. change (String x (data +:+ rest) = String c (l +:+ String newline s)) in HE.
    injection HE as -> HE. cbn [lacks] in Hl. apply andb_true_iff in Hl as [Hc Hl].
    destruct (IH data Hl HE) as [HL|(data' & -> & HE')]; [left; cbn [lacks]; by rewrite Hc|right; by exists data'].
Qed.

Lemma cut_Encode es data rest :
  data +:+ rest = Encode es → ∃ n t, (n ≤ length es)%nat ∧ data = Encode (take n es) +:+ t ∧ lacks newline t = true.
Proof.
  revert data. induction es as [|e es IH]; intros data HE.
  - exists 0%nat, "". destruct data; [done|]. discriminate HE.
  - change (Encode (e :: es)) with ((entry_json e +:+ String newline "") +:+ Encode es) in HE. rewrite append_assoc in HE.
    change (String newline "" +:+ Encode es) with (String newline (Encode es)) in HE.
    apply cut_line in HE as [Hd|(data' & -> & HE)]; [|apply IH in HE as (n & t & Hn & -> & Ht)|apply entry_json_line].
    + exists 0%nat, data. split_and!; [lia|done|done].
    + exists (S n), t. split_and!; [cbn; lia| |done]. cbn [take Encode]. unfold Line. by rewrite !append_assoc.
Qed.

(** An interrupted write never damages or invents.  Whatever beginning of a ledger
    file reached the disk, it parses without an error to the first entries of the
    ledger; only a fragment without its newline is left over, and it is reported as
    torn with the length of the good part; the whole file parses to the whole ledger. *)
Theorem torn_write_is_prefix (es : list Entry) (data rest : string) :
  chain es → Forall typed es → data +:+ rest = Encode es →
  ParseChain (Encode es) = mkParse es true false None (len (Encode es)) ∧
  ∃ n t, (n ≤ length es)%nat ∧ data = Encode (take n es) +:+ t ∧
    ParseChain data = mkParse (take n es) (empty t) (negb (empty t)) None (len (Encode (take n es))).
Proof.
  intros HC HT HE. split; [by rewrite <- (append_nil_r (Encode es)) at 1; rewrite ParseChain_Encode|].
  destruct (cut_Encode _ _ _ HE) as (n & t & Hn & -> & Ht). exists n, t. split_and!; [done..|].
  apply ParseChain_Encode; [by apply linked_take|by apply Forall_take|done].
Qed.

(** ** The verdict *)

(** A copy that answered and is a valid chain. *)
Definition usable (c : Copy) : bool := negb (Reach c) && copy_Intact c.

Lemma sort_copies_intact copies : (sort_copies copies).2 = filter (λ c, usable c = true) copies.
Proof.
  induction copies as [|c cs IH]; [done|]. cbn [sort_copies]. rewrite filter_cons. destruct (sort_copies cs) as [heal intact].
  cbn in IH. destruct (decide (usable c = true)) as [Hu|Hu]; unfold usable, copy_Intact in Hu |- *; destruct (Reach c), (Present c);
    cbn in *; try done; destruct (match cp_Parse c with Some _ => _ | None => _ end); cbn in *; try done; by rewrite IH.
Qed.

Lemma longest_in best heal rest heal' b : longest best heal rest = (heal', Some b) → b ∈ best :: rest.
Proof.
  revert best heal. induction rest as [|c rest IH]; intros best heal; cbn [longest]; [intros [= _ <-]; by left|].
  destruct (_ && _); [done|]. destruct (headSeq best <? headSeq c).
  - intros HL%IH. by right.
  - intros HL. assert (HL' : b ∈ best :: rest) by (destruct (headSeq c <? headSeq best); by apply IH in HL).
    apply elem_of_cons in HL' as [->|HL']; [by left|by do 2 right].
Qed.

(** What a witness asks of a ledger. *)
Definition witnessed (id : string) (p : Parse) (w : Witness) : Prop :=
  0 < w_Seq w → (w_Ledger w = "" ∨ w_Ledger w = id) ∧ w_Seq w ≤ (Head p).1 ∧
    (w_Hash w = "" ∨ entry_hash p (w_Seq w) = Some (w_Hash w)).

Lemma check_witnesses_exact id p ws n :
  (∀ m, check_witnesses id p n ws = Satisfied m → m = (n + length (filter (λ w, (0 < w_Seq w)%Z) ws))%nat) ∧
  ((∃ m, check_witnesses id p n ws = Satisfied m) ↔ Forall (witnessed id p) ws).
Proof.
  revert n. induction ws as [|w ws IH]; intros n; cbn [check_witnesses].
  { split; [intros m [= <-]; cbn; lia|]. split; [done|by eexists]. }
  rewrite filter_cons, Forall_cons. destruct (Z.leb_spec (w_Seq w) 0) as [Hle|Hgt].
  { rewrite decide_False by lia. destruct (IH n) as [H1 H2]. split; [done|]. rewrite H2. unfold witnessed at 2. naive_solver lia. }
  rewrite decide_True by lia. destruct (IH (S n)) as [H1 H2].
  destruct (negb (empty (w_Ledger w)) && bool_decide (w_Ledger w ≠ id)) eqn:E1.
  { split; [done|]. split; [by intros [? ?]|]. intros [HW _]. apply andb_true_iff in E1 as [E1%negb_true_iff%empty_false E2%bool_decide_eq_true].
    destruct (HW Hgt) as ([?|?] & _); done. }
  destruct (Z.ltb_spec (Head p).1 (w_Seq w)) as [Hlt|Hge].
  { split; [done|]. split; [by intros [? ?]|]. intros [HW _]. destruct (HW Hgt) as (_ & ? & _). lia. }
  destruct (negb (empty (w_Hash w)) && bool_decide (entry_hash p (w_Seq w) ≠ Some (w_Hash w))) eqn:E3.
  { split; [done|]. split; [by intros [? ?]|]. intros [HW _]. apply andb_true_iff in E3 as [E3%negb_true_iff%empty_false E4%bool_decide_eq_true].
    destruct (HW Hgt) as (_ & _ & [?|?]); done. }
  split; [intros m Hm%H1; cbn; lia|]. rewrite H2. split; [|naive_solver]. intros HW. split; [|done]. intros _. split_and!; [|lia|].
  - apply andb_false_iff in E1 as [E1%negb_false_iff%empty_true|E1%bool_decide_eq_false]; [by left|right; by apply dec_stable].
  - apply andb_false_iff in E3 as [E3%negb_false_iff%empty_true|E3%bool_decide_eq_false]; [by left|right; by apply dec_stable].
Qed.

(** The contract of [Assess] for a copy among two to be relied on. *)
Definition reliable (copies : list Copy) (ws : list Witness) (best : Copy) : Prop :=
  best ∈ copies ∧ usable best = true ∧
  (∀ c, head copies = Some c → usable c = true → best = c ∨ headSeq c < headSeq best) ∧
  (∀ c, c ∈ copies → usable c = true → LedgerID (parse_of c) = LedgerID (parse_of best) ∧ headSeq c ≤ headSeq best ∧
     (0 < headSeq c → entry_hash (parse_of best) (headSeq c) = entry_hash (parse_of c) (headSeq c))) ∧
  Forall (witnessed (LedgerID (parse_of best)) (parse_of best)) ws ∧
  ((1 < length (filter (λ c, usable c = true) copies))%nat ∨ (∃ w, w ∈ ws ∧ 0 < w_Seq w) ∨ headSeq best = 1).

Lemma positive_witness ws : (0 < length (filter (λ w, (0 < w_Seq w)%Z) ws))%nat ↔ ∃ w, w ∈ ws ∧ 0 < w_Seq w.
Proof.
  split.
  - destruct (filter _ ws) as [|w l] eqn:E; [cbn; lia|]. intros _. exists w.
    assert (Hw : w ∈ filter (λ w, (0 < w_Seq w)%Z) ws) by (rewrite E; by left). apply list_elem_of_filter in Hw as [? ?]. done.
  - intros (w & Hw & Hp). assert (Hin : w ∈ filter (λ w, (0 < w_Seq w)%Z) ws) by (by apply list_elem_of_filter).
    destruct (filter _ ws); [by apply elem_of_nil in Hin|cbn; lia].
Qed.

Lemma Assess_shape copies ws :
  (Complete (Assess copies ws) = true ∧ Conflict (Assess copies ws) = false ∧ is_Some (Best (Assess copies ws))) ∨
  (Complete (Assess copies ws) = false ∧ Best (Assess copies ws) = None).
Proof. unfold Assess. repeat (case_match; try by right). by left. Qed.

(** The last step of [Assess], once one copy is left. *)
Lemma Assess_last copies ws first others heal best :
  sort_copies copies = ((sort_copies copies).1, first :: others) →
  existsb (λ c, bool_decide (LedgerID (parse_of c) ≠ LedgerID (parse_of first))) others = false →
  longest first (sort_copies copies).1 others = (heal, Some best) →
  let id := LedgerID (parse_of first) in
  (Best (Assess copies ws) = Some best ∧ Complete (Assess copies ws) = true ∧ Forall (witnessed id (parse_of best)) ws ∧
     ((1 < length (first :: others))%nat ∨ (∃ w, w ∈ ws ∧ 0 < w_Seq w) ∨ headSeq best = 1)) ∨
  (Complete (Assess copies ws) = false ∧
     ¬ (Forall (witnessed id (parse_of best)) ws ∧
        ((1 < length (first :: others))%nat ∨ (∃ w, w ∈ ws ∧ 0 < w_Seq w) ∨ headSeq best = 1))).
Proof.
  intros HS HX HL id. unfold Assess. rewrite HS, HX, HL. fold id.
  destruct (check_witnesses_exact id (parse_of best) ws 0) as [HN HW].
  destruct (check_witnesses id (parse_of best) 0 ws) as [| |n] eqn:E.
  1-2: right; split; [done|]; intros [HF _]; apply HW in HF as [m ?]; done.
  pose proof (HN n eq_refl) as ->. assert (HF : Forall (witnessed id (parse_of best)) ws) by (apply HW; by eexists).
  destruct (_ || _) eqn:EB.
  - left. split_and!; try done. rewrite !orb_true_iff, !Z.ltb_lt, Z.eqb_eq in EB. rewrite <- positive_witness. destruct EB as [[?|?]|?]; [left|right;left|right;right]; lia.
  - right. split; [done|]. intros [_ HC]. rewrite <- positive_witness in HC. rewrite !orb_false_iff, !Z.ltb_ge, Z.eqb_neq in EB.
    destruct EB as [[? ?] ?]. destruct HC as [?|[?|?]]; lia.
Qed.

(** Two usable copies of one ledger: no fork, and then the longer one. *)
Definition agree (c1 c2 : Copy) : Prop :=
  let lo := Z.min (headSeq c1) (headSeq c2) in 0 < lo → entry_hash (parse_of c1) lo = entry_hash (parse_of c2) lo.

Lemma longest_two c1 c2 heal :
  (agree c1 c2 ∧ (longest c1 heal [c2]).2 = Some (if decide (headSeq c1 < headSeq c2) then c2 else c1)) ∨
  (¬ agree c1 c2 ∧ (longest c1 heal [c2]).2 = None).
Proof.
  cbn [longest]. unfold agree. cbv zeta. destruct (_ && _) eqn:E.
  - right. apply andb_true_iff in E as [E1%Z.ltb_lt E2%bool_decide_eq_true]. split; [|done]. intros HA. by apply E2, HA.
  - left. split.
    { intros Hp. apply andb_false_iff in E as [E%Z.ltb_ge|E%bool_decide_eq_false]; [lia|by apply dec_stable]. }
    clear E. destruct (Z.ltb_spec (headSeq c1) (headSeq c2)); [by rewrite decide_True|]. rewrite decide_False by lia.
    by destruct (Z.ltb_spec (headSeq c2) (headSeq c1)).
Qed.

Lemma reliable_one (c : Copy) copies ws best :
  filter (λ x, usable x = true) copies = [c] →
  reliable copies ws best ↔ best = c ∧ Forall (witnessed (LedgerID (parse_of c)) (parse_of c)) ws ∧
    ((1 < length [c])%nat ∨ (∃ w, w ∈ ws ∧ 0 < w_Seq w) ∨ headSeq c = 1).
Proof.
  intros HF. assert (Hin : ∀ x, x ∈ copies → usable x = true → x = c).
  { intros x Hx Hu. assert (x ∈ filter (λ x, usable x = true) copies) as Hf by (by apply list_elem_of_filter).
    rewrite HF in Hf. by apply list_elem_of_singleton in Hf. }
  assert (Hc : c ∈ copies ∧ usable c = true).
  { assert (c ∈ filter (λ x, usable x = true) copies) as Hf by (rewrite HF; by left). apply list_elem_of_filter in Hf as [? ?]. done. }
  unfold reliable. rewrite HF. split.
  - intros (Hb & Hu & _ & _ & HW & HX). apply (Hin best Hb) in Hu as ->. done.
  - intros (-> & HW & HX). split_and!; try apply Hc; try done.
    + intros x Hx Hu. left. symmetry. apply Hin; [|done]. destruct copies; [done|]. injection Hx as ->. by left.
    + by intros x Hx Hu%Hin; [subst|].
Qed.

Lemma reliable_two c1 c2 ws best :
  usable c1 = true → usable c2 = true →
  reliable [c1; c2] ws best ↔
    LedgerID (parse_of c2) = LedgerID (parse_of c1) ∧ agree c1 c2 ∧ best = (if decide (headSeq c1 < headSeq c2) then c2 else c1) ∧
    Forall (witnessed (LedgerID (parse_of c1)) (parse_of best)) ws.
Proof.
  intros U1 U2. unfold reliable, agree. cbv zeta. split.
  - intros (Hb & _ & Hf & HA & HW & _). pose proof (HA c1 ltac:(by left) U1) as (HI1 & HS1 & HE1).
    pose proof (HA c2 ltac:(right; by left) U2) as (HI2 & HS2 & HE2). split_and!; [congruence| | |by rewrite HI1].
    + intros Hp. assert (best = c1 ∨ best = c2) as [->| ->] by set_solver.
      * rewrite Z.min_r by lia. apply HE2. lia.
      * rewrite Z.min_l by lia. symmetry. apply HE1. lia.
    + destruct (Hf c1 eq_refl U1) as [->|Hlt]; [by rewrite decide_False by lia|].
      assert (best = c1 ∨ best = c2) as [->| ->] by set_solver; [lia|]. by rewrite decide_True.
  - intros (HI & HA & Hb & HW). assert (HX : LedgerID (parse_of best) = LedgerID (parse_of c1)) by (rewrite Hb; by case_decide).
    rewrite HX. split_and!; [rewrite Hb; case_decide; set_solver|rewrite Hb; by case_decide| | |done|].
    + intros c [= <-] _. rewrite Hb. case_decide; auto.
    + intros c Hc _. assert (c = c1 ∨ c = c2) as [->| ->] by set_solver; (split_and!; [done|rewrite Hb; case_decide; lia|]);
        intros Hp; rewrite Hb; case_decide; try done.
      * rewrite Z.min_l in HA by lia. by rewrite HA.
      * rewrite Z.min_r in HA by lia. by rewrite HA.
    + left. rewrite !filter_cons, filter_nil, !decide_True by done. cbn. lia.
Qed.

(** [Assess] on two copies: refused, or the copy its contract allows. *)
Lemma Assess_decided c1 c2 ws :
  (Complete (Assess [c1; c2] ws) = false ∧ Best (Assess [c1; c2] ws) = None ∧ ∀ best, ¬ reliable [c1; c2] ws best) ∨
  (∃ best, Complete (Assess [c1; c2] ws) = true ∧ Conflict (Assess [c1; c2] ws) = false ∧ Best (Assess [c1; c2] ws) = Some best ∧
     reliable [c1; c2] ws best).
Proof.
  pose proof (Assess_shape [c1; c2] ws) as HSh.
  pose proof (sort_copies_intact [c1; c2]) as HI. destruct (sort_copies [c1; c2]) as [heal intact] eqn:HS. cbn [snd] in HI.
  destruct intact as [|first [|second others]].
  - left. unfold Assess. rewrite HS. split_and!; try done. intros best (Hb & Hu & _).
    assert (best ∈ filter (λ c, usable c = true) [c1; c2]) as Hf by (by apply list_elem_of_filter). rewrite <- HI in Hf. by apply elem_of_nil in Hf.
  - destruct (Assess_last [c1; c2] ws first [] heal first) as [(H1 & H2 & H3)|(H1 & H2)]; try (by rewrite HS); try done.
    + right. exists first. destruct HSh as [(_ & HC & _)|[? _]]; [|congruence]. split_and!; try done.
      apply (reliable_one first); [done|]. by split.
    + left. destruct HSh as [(? & _)|[_ HN]]; [congruence|]. split_and!; try done.
      * intros best Hr. apply (reliable_one first) in Hr as (_ & Hr); [|done]. by apply H2.
  - assert (first = c1 ∧ second = c2 ∧ others = [] ∧ usable c1 = true ∧ usable c2 = true) as (-> & -> & -> & U1 & U2).
    { rewrite !filter_cons, filter_nil in HI. repeat case_decide; simplify_eq; done. }
    setoid_rewrite (reliable_two c1 c2 ws _ U1 U2).
    destruct (decide (LedgerID (parse_of c2) = LedgerID (parse_of c1))) as [Hid|Hid].
    2: { left. unfold Assess. rewrite HS. cbn [existsb]. rewrite (bool_decide_true _ Hid). split_and!; try done. naive_solver. }
    assert (HX : existsb (λ c, bool_decide (LedgerID (parse_of c) ≠ LedgerID (parse_of c1))) [c2] = false).
    { cbn [existsb]. rewrite bool_decide_false; [done|]. intros Hn. by apply Hn. }
    destruct (longest_two c1 c2 heal) as [[HA HL]|[HA HL]]; destruct (longest c1 heal [c2]) as [heal' o] eqn:EL; cbn in HL; subst o.
    2: { left. unfold Assess. rewrite HS, HX, EL. split_and!; try done. naive_solver. }
    set (b := if decide _ then c2 else c1) in *. clearbody b.
    destruct (Assess_last [c1; c2] ws c1 [c2] heal' b) as [(H1 & H2 & H3 & _)|(H1 & H2)]; try (by rewrite HS); try done.
    + right. exists b. destruct HSh as [(_ & HC & _)|[? _]]; [|congruence]. by split_and!.
    + left. destruct HSh as [(? & _)|[_ HN]]; [congruence|]. split_and!; try done.
      * intros best (_ & _ & -> & HW). apply H2. split; [done|]. left. cbn. lia.
Qed.

(** An intact copy has a first entry: it is more than the line of a write that was cut off. *)
Definition begun (c : Copy) : Prop := usable c = true → 0 < headSeq c.

(** C35. The verdict is exactly its contract.  Of two copies whose intact ones each hold at
    least one finished entry, one is declared complete just when it is an intact chain that
    answered, every other intact copy is the same ledger, no longer, and agrees with it
    where that copy ends, every independent record of how far the ledger had gone is met,
    and something besides the copy itself vouches for it, or it holds only its first entry.
    Nothing else is ever offered.  (An intact copy without a finished entry is left out: it
    has no ledger id, and is taken for a different ledger.) *)
Theorem assess_exact (c1 c2 : Copy) (ws : list Witness) :
  begun c1 → begun c2 →
  (Complete (Assess [c1; c2] ws) = true ↔ ∃ best, reliable [c1; c2] ws best) ∧
  (∀ best, Best (Assess [c1; c2] ws) = Some best →
     reliable [c1; c2] ws best ∧ Conflict (Assess [c1; c2] ws) = false ∧
     ∀ c, c ∈ [c1; c2] → usable c = true → entry_hash (parse_of best) (headSeq c) = entry_hash (parse_of c) (headSeq c)).
Proof.
  intros HB1 HB2. destruct (Assess_decided c1 c2 ws) as [(-> & -> & HN)|(best & -> & -> & -> & HR)].
  - split; [split; [done|intros [b Hb]; by destruct (HN b)]|done].
  - split; [split; [by exists best|done]|]. intros b [= <-]. split_and!; [done..|]. intros c Hc Hu. destruct HR as (_ & _ & _ & HA & _).
    apply (HA c Hc Hu). apply elem_of_cons in Hc as [->|Hc]; [by apply HB1|]. apply list_elem_of_singleton in Hc as ->. by apply HB2.
Qed.

(** ** Restores *)

(** A copy as the store reads it: a parsed chain, or nothing. *)
Definition as_read (c : Copy) : Prop :=
  chain (Entries (parse_of c)) ∧ Forall typed (Entries (parse_of c)) ∧ (Reach c = true → Present c = false).

Lemma headSeq_length c : as_read c → headSeq c = Z.of_nat (length (Entries (parse_of c))).
Proof.
  intros (HC & HT & _). unfold headSeq, Head. pose proof (chain_head _ HC HT) as HH.
  destruct (last _) as [e|] eqn:E; cbn in *.
  - case_decide; [done|]. by injection HH.
  - apply last_None in E. by rewrite E.
Qed.

Lemma longest_ledger_from id n cs :
  longest_ledger id n cs = id ∨
  ∃ c, c ∈ cs ∧ copy_Intact c = true ∧ (n < length (Entries (parse_of c)))%nat ∧ LedgerID (parse_of c) = longest_ledger id n cs.
Proof.
  revert id n. induction cs as [|c cs IH]; intros id n; cbn [longest_ledger]; [by left|].
  destruct (_ && _) eqn:E.
  - apply andb_true_iff in E as [E1 E2%Nat.ltb_lt]. destruct (IH (LedgerID (parse_of c)) (length (Entries (parse_of c)))) as [->|(c' & ? & ? & ? & ?)]; right.
    + exists c. split_and!; try done. by left.
    + exists c'. split_and!; try done; [by right|lia].
  - destruct (IH id n) as [->|(c' & ? & ? & ? & ?)]; [by left|right]. exists c'. split_and!; try done. by right.
Qed.

(** What settling drops: first entries of other ledgers. *)
Lemma settle_ok copies ws copies' ws' :
  settleFreshLedgers copies ws = (copies', ws') → Forall as_read copies →
  (length copies' = length copies ∧ ∀ c, c ∈ copies' → usable c = true → c ∈ copies) ∧
  (∀ w, w ∈ ws → 1 < w_Seq w → w ∈ ws') ∧
  (∀ w best, w ∈ ws → reliable copies' ws' best → w_Ledger w = LedgerID (parse_of best) → w ∈ ws').
Proof.
  unfold settleFreshLedgers. intros HS HR. destruct (empty (longest_ledger "" 1 copies)) eqn:E.
  { injection HS as <- <-. split_and!; auto. }
  apply empty_false in E. injection HS as <- <-. split_and!.
  - apply length_fmap.
  - intros c (c0 & -> & Hc0)%list_elem_of_fmap. destruct (_ && _) eqn:Ed; [done|]. done.
  - intros w Hw Hs. apply list_elem_of_filter. split; [|done]. lia.
  - intros w best Hw HB HL. apply list_elem_of_filter. split; [|done]. intros (_ & _ & Hne). apply Hne. rewrite HL.
    destruct (longest_ledger_from "" 1 copies) as [?|(c & Hc & Hi & Hn & <-)]; [done|]. symmetry.
    destruct HB as (_ & _ & _ & HA & _). apply HA.
    + apply list_elem_of_fmap. exists c. split; [|done]. rewrite Hi. rewrite (proj2 (Nat.eqb_neq _ _)) by lia. done.
    + unfold usable. rewrite Hi, andb_true_r. rewrite Forall_forall in HR. destruct (HR c Hc) as (_ & _ & HX).
      destruct (Reach c); [|done]. unfold copy_Intact in Hi. by rewrite HX in Hi.
Qed.

Lemma restoreLedgerKey_ok live escrow es after k :
  live ≠ "" → restoreLedgerKey live escrow es after = Some k →
  (k = live ∨ escrow = Some k) ∧ AuthenticateAfter k es after = None.
Proof.
  intros Hl. unfold restoreLedgerKey. rewrite (proj2 (empty_false live) Hl). cbn. case_decide.
  - intros [= <-]. auto.
  - destruct escrow as [x|]; [|done]. case_decide; [|done]. intros [= <-]. auto.
Qed.

(** The copy a restore went on with, and what it fed to the staging database. *)
Lemma restore_inv i sh feed adopt :
  backup_head i = Some sh → Has sh = true → restoreLedgerApply i = Applied feed adopt →
  ∃ copies ws best, settleFreshLedgers [local_copy i; external_copy i] (restore_witnesses i sh) = (copies, ws) ∧
    Best (Assess copies ws) = Some best ∧
    adopt = (lh_Seq sh =? 1) && bool_decide (LedgerID (parse_of best) ≠ lh_Ledger sh) ∧
    (adopt = false → lh_Seq sh ≤ Z.of_nat (length (Entries (parse_of best)))) ∧
    feed = (if adopt then Entries (parse_of best) else drop (Z.to_nat (lh_Seq sh)) (Entries (parse_of best))) ∧
    (feed = [] ∨ ∃ k, restoreLedgerKey (live_key i) (escrow_key i) (Entries (parse_of best)) (if adopt then 0 else lh_Seq sh) = Some k).
Proof.
  intros HB HH. unfold restoreLedgerApply. rewrite HB, HH. cbn [andb]. destruct (negb (lh_Intact sh)); [done|].
  destruct (settleFreshLedgers _ _) as [copies ws]. destruct (Conflict _); [done|]. destruct (Best _) as [best|] eqn:Eb; [|done].
  destruct (negb (Complete _)); [done|]. cbn [negb]. set (ad := (lh_Seq sh =? 1) && _).
  destruct (negb ad && _) eqn:El; [done|]. set (fd := if ad then _ else _). cbv zeta.
  set (ap := match fd with [] => true | _ => _ end). destruct ap eqn:Ea; cbn [negb]; [|done]. destruct (head_after i fd) as [after|]; [|done]. destruct (bool_decide (_ = Head _)); [|done].
  intros [= <- <-]. exists copies, ws, best. split_and!; try done.
  - intros Hf. rewrite Hf in El. cbn in El. apply Z.ltb_ge in El. lia.
  - unfold ap in Ea. destruct fd; [by left|]. right. destruct (restoreLedgerKey _ _ _ _) as [k|]; [by exists k|done].
Qed.

(** C5. A restore redoes every erasure that anything records, and only the appliance's
    own.  When a restore goes on, the entries it applied are the continuation, after
    those the backup already holds, of a beginning of the ledger this appliance wrote,
    and that beginning reaches every entry the backup, the live database and all other
    backups say was made.  It could only be otherwise if two entries of the copies and
    of the ledger were a collision of SHA-256. *)
Theorem restore_redoes_every_erasure (i : restore_inputs) (sh : ledgerHeadInfo) (hon feed : list Entry) (adopt : bool) :
  chain hon → Forall typed hon → Forall clean hon → live_key i ≠ "" → escrow_key i ≠ Some "" →
  (∀ c, c ∈ [local_copy i; external_copy i] → as_read c ∧
     ∀ k, k = live_key i ∨ escrow_key i = Some k → unforged k hon (Entries (parse_of c))) →
  backup_head i = Some sh → Has sh = true → 0 < lh_Seq sh → lh_Hash sh ≠ "" →
  (adopt = false → Hash <$> hon !! Z.to_nat (lh_Seq sh - 1) = Some (lh_Hash sh)) →
  restoreLedgerApply i = Applied feed adopt →
  (∃ es, own_history hon es ∧ feed = (if adopt then es else drop (Z.to_nat (lh_Seq sh)) es) ∧
     ∀ w, w ∈ restore_witnesses i sh → 1 < w_Seq w →
       w_Seq w ≤ Z.of_nat (length es) ∧ (w_Hash w = "" ∨ Hash <$> es !! Z.to_nat (w_Seq w - 1) = Some (w_Hash w))) ∨
  (∃ c, c ∈ [local_copy i; external_copy i] ∧ collide hon (Entries (parse_of c))).
Proof.
  intros HC HT HF Hlive Hesc Hcop HB HH Hpos Hhash Hanc HR.
  apply (restore_inv _ _ _ _ HB HH) in HR as (copies & ws & best & HS & Hbest & Had & Hlen & Hfeed & Hkey).
  destruct (settle_ok _ _ _ _ HS) as ((HL & Hin) & Hkeep & Hown).
  { rewrite Forall_forall. intros c Hc. by apply Hcop. }
  destruct copies as [|c1 [|c2 [|]]]; try done. destruct (Assess_decided c1 c2 ws) as [(_ & HN & _)|(b & _ & _ & Hb & Hrel)]; [congruence|].
  rewrite Hbest in Hb. injection Hb as <-. pose proof Hrel as (Hbin & Hbu & _ & _ & HW & _). apply (Hin _ Hbin) in Hbu as Hbo.
  destruct (Hcop best Hbo) as [Hrd Hun]. pose proof Hrd as (HC' & HT' & _). pose proof (headSeq_length best Hrd) as Hhs.
  assert (Hshw : head_witness "this backup" sh ∈ restore_witnesses i sh) by (unfold restore_witnesses; rewrite HH; by left).
  assert (HA : adopt = false → anchored (lh_Seq sh) hon (Entries (parse_of best))).
  { intros Hf. rewrite Hf in Had. symmetry in Had. apply andb_false_iff in Had.
    assert (Hw : head_witness "this backup" sh ∈ ws).
    { destruct (decide (1 < lh_Seq sh)) as [Hgt|Hle]; [by apply Hkeep|]. destruct Had as [Had%Z.eqb_neq|Had%bool_decide_eq_false]; [lia|].
      apply (Hown _ best); try done. cbn. symmetry. by apply dec_stable. }
    rewrite Forall_forall in HW. destruct (HW _ Hw Hpos) as (_ & _ & [?|Hhw]); [done|]. cbn in Hhw. unfold entry_hash in Hhw.
    specialize (Hanc Hf). destruct (Entries (parse_of best) !! _) as [e|] eqn:Ee; [|done]. destruct (hon !! _) as [e0|] eqn:E0; [|done].
    exists e, e0. cbn in *. split_and!; try done. congruence. }
  enough (own_history hon (Entries (parse_of best)) ∨ collide hon (Entries (parse_of best))) as [HO|HO]; [left|right; by exists best|].
  { exists (Entries (parse_of best)). split_and!; try done. intros w Hw Hgt. rewrite Forall_forall in HW.
    destruct (HW w (Hkeep w Hw Hgt) ltac:(lia)) as (_ & Hle & Hh). split; [|done]. change ((Head (parse_of best)).1) with (headSeq best) in Hle. lia. }
  destruct Hkey as [Hnil|(k & [Hk HAu]%restoreLedgerKey_ok)]; [|eapply (authenticated_own k); try done|done].
  - rewrite Hfeed in Hnil. destruct adopt.
    + left. by rewrite Hnil.
    + destruct (HA eq_refl) as (e & e0 & _ & He & He0 & Hee). apply (f_equal length) in Hnil. rewrite length_drop in Hnil. cbn in Hnil.
      destruct (place_pinned hon _ _ e e0 HC HT HF HC' HT' He) as [HE|]; [by eapply list_elem_of_lookup_2|done| |by right]. left.
      unfold own_history. pose proof (Hlen eq_refl).
      replace (S (Z.to_nat (lh_Seq sh - 1))) with (length (Entries (parse_of best))) in HE by lia. by rewrite firstn_all in HE.
  - by destruct Hk as [->|Hk]; [|intros ->].
  - by apply Hun.
  - destruct adopt; [by left|right; by apply HA].
Qed.
End ledger.
