(* ===== verification/ErasureStore.v ===== *)
(** The two copies of the erasure ledger (data-plane/internal/ledger/store.go) and the
    transaction that appends to it (cmd/edged/ledger_commit.go).

    The store appends to a file on the appliance, replaces an object and a note at a
    secondary storage, reads both back, and puts the file back when the second copy
    fails.  Every operation on the file or the storage takes its fate from a list, so
    the theorems hold for every combination of failures: an operation is refused,
    happens although it reports an error, stops half way, or (at the storage) puts
    something else in place.
    [failed] remembers which operations reported an error. *)
From S2P Require Import Prelude GoStrings GoText ErasureLedger.

(** ** Bytes *)

Fixpoint str_take (n : nat) (s : string) : string :=
  match n, s with S n', String c s' => String c (str_take n' s') | _, _ => "" end.
Fixpoint str_drop (n : nat) (s : string) : string :=
  match n, s with O, _ => s | S n', String _ s' => str_drop n' s' | _, EmptyString => "" end.

(** [WriteAt] inside a file that reaches at least to the offset. *)
Definition overlay (off : nat) (data file : string) : string :=
  str_take off file +:+ data +:+ str_drop (off + String.length data) file.

(** ** The file and the storage *)

Inductive fate := Good | Refused | Late | Short (n : nat) | Garbled (s : string).
#[export] Instance fate_eq_dec : EqDecision fate.
Proof. solve_decision. Defined.

Inductive op := OpRead | OpTruncate | OpMkdir | OpOpen | OpWrite | OpSync | OpClose | OpRename | OpGet | OpPut | OpRemove.
#[export] Instance op_eq_dec : EqDecision op.
Proof. solve_decision. Defined.

Record world := mkWorld {
  local : option string;                 (* the file, if it exists *)
  dest : option (gmap string string);    (* the objects of the secondary storage, if one is set up *)
  fates : list fate;
  failed : list op
}.

Inductive store_error :=
| ErrNotConfigured | ErrConflict | ErrLocalDamaged | ErrExternalAhead | ErrExternalFork | ErrUnauthentic
| ErrNotFound | ErrIO | ErrNotALedger | ErrCipher | ErrNotReadBack | ErrNote
| NilDereference                         (* a Go panic of the caller *)
| LocalError (e : store_error) | ExternalError (e : store_error).
#[export] Instance store_error_eq_dec : EqDecision store_error.
Proof. intros x. induction x; intros []; try (by left); try (right; congruence); destruct (IHx e); [left|right|left|right]; congruence. Defined.

Abbreviation IO := (ST world store_error).

Definition next (o : op) : IO fate := λ w,
  let f := default Good (head (fates w)) in
  (mkWorld (local w) (dest w) (tail (fates w)) (if decide (f = Good) then failed w else o :: failed w), Ok f).

Definition put_local (c : option string) : IO () := λ w, (mkWorld c (dest w) (fates w) (failed w), Ok ()).
Definition put_dest (m : gmap string string) : IO () := λ w, (mkWorld (local w) (Some m) (fates w) (failed w), Ok ()).

(** The result of an action, its error included. *)
Definition try {A} (m : IO A) : IO (res store_error A) := λ w, let '(w', r) := m w in (w', Ok r).
(** [_ = f()]. *)
Definition ignore {A} (m : IO A) : IO () := _ ← try m; mret ().
Definition on_error {A} (m : IO A) (h : store_error → IO A) : IO A :=
  r ← try m; match r with Ok a => mret a | Err e => h e end.

(** An operation that only succeeds or fails. *)
Definition plain_op (o : op) : IO () := f ← next o; if decide (f = Good) then mret () else fail ErrIO.

(** os.ReadFile; [None] when the file does not exist. *)
Definition readFile : IO (option string) := _ ← plain_op OpRead; gets local.

Definition Truncate (size : nat) : IO () :=
  f ← next OpTruncate;
  c ← gets local;
  match c with
  | None => fail ErrIO
  | Some s =>
      _ ← (match f with Good | Late => put_local (Some (str_take size s)) | _ => mret () end);
      if decide (f = Good) then mret () else fail ErrIO
  end.

(** os.OpenFile with O_CREATE. *)
Definition openFile : IO () :=
  f ← next OpOpen;
  c ← gets local;
  _ ← (match f with Good | Late => put_local (Some (default "" c)) | _ => mret () end);
  if decide (f = Good) then mret () else fail ErrIO.

(** os.Rename of a finished file onto this one. *)
Definition renameOver (data : string) : IO () :=
  f ← next OpRename;
  _ ← (match f with Good | Late => put_local (Some data) | _ => mret () end);
  if decide (f = Good) then mret () else fail ErrIO.

Definition writeAt (data : string) (off : nat) : IO () :=
  f ← next OpWrite;
  c ← gets (λ w, default "" (local w));
  _ ← (match f with
       | Good | Late => put_local (Some (overlay off data c))
       | Short n => put_local (Some (overlay off (str_take n data) c))
       | _ => mret ()
       end);
  if decide (f = Good) then mret () else fail ErrIO.

Definition the_dest : IO (gmap string string) :=
  d ← gets dest; match d with None => fail ErrNotConfigured | Some m => mret m end.

(** [Destination]: every write replaces the whole object. *)
Definition Put (name data : string) : IO () :=
  f ← next OpPut;
  m ← the_dest;
  _ ← (match f with
       | Good | Late => put_dest (<[name := data]> m)
       | Garbled s => put_dest (<[name := s]> m)
       | _ => mret ()
       end);
  match f with Good | Garbled _ => mret () | _ => fail ErrIO end.

Definition Get (name : string) : IO string :=
  _ ← plain_op OpGet;
  m ← the_dest;
  match m !! name with None => fail ErrNotFound | Some s => mret s end.

Definition Remove (name : string) : IO () :=
  f ← next OpRemove;
  m ← the_dest;
  _ ← (match f with Good | Late => put_dest (delete name m) | _ => mret () end);
  if decide (f = Good) then mret () else fail ErrIO.

(** ** The store *)

Definition ExternalObject : string := "erasure-ledger.jsonl".
Definition ExternalHead : string := "erasure-ledger.head.json".
Definition Suffix : string := ".age".

(** What Config.Cipher answers: an error, nobody to encrypt to, or an encryption. *)
Inductive cipher_answer := CipherError | NoCipher | WithCipher (encrypt : string → string) (fingerprint : string).

Record Config := mkConfig {
  MACKey : string;
  Cipher : cipher_answer;
  now_text : string                (* UpdatedAt *)
}.

Section store.
Context `{LedgerLib} (cfg : Config).

Definition checked (p : Parse) : Parse :=
  if empty (MACKey cfg) then p
  else match Err_ p with
       | Some _ => p
       | None => match CheckPresent (MACKey cfg) (Entries p) with
                 | Some n => mkParse (Entries p) false (Torn p) (Some (BadMac n)) (ValidBytes p)
                 | None => p
                 end
       end.

Definition ReadLocal : IO Copy :=
  r ← try readFile;
  mret (match r with
        | Err _ => mkCopy "local" false true None
        | Ok None => mkCopy "local" false false None
        | Ok (Some b) => if empty b then mkCopy "local" false false None
                         else mkCopy "local" true false (Some (checked (ParseChain b)))
        end).

Definition readExternalHead : IO (option (HeadInfo * bool)) :=
  r ← try (Get ExternalHead);
  match r with
  | Err ErrNotFound => mret None
  | Err e => fail e
  | Ok hb =>
      match head_decode hb with
      | None => fail ErrNote
      | Some h =>
          if empty (Object h) then fail ErrNote
          else if negb (empty (MACKey cfg)) && negb (empty (hi_Mac h)) && bool_decide (hi_Mac h ≠ HeadMAC (MACKey cfg) h) then fail ErrUnauthentic
          else
            o ← try (Get (Object h));
            match o with
            | Err ErrNotFound => mret (Some (h, false))
            | Err e => fail e
            | Ok obj => mret (Some (h, bool_decide (sha256 obj = ObjectSHA256 h)))
            end
      end
  end.

Definition with_mac (h : HeadInfo) : HeadInfo :=
  mkHeadInfo (hi_Ledger h) (hi_Seq h) (hi_Hash h) (hi_Entries h) (PlainSHA256 h) (Object h) (ObjectSHA256 h) (Encrypted h)
    (CipherFP h) (UpdatedAt h) (if empty (MACKey cfg) then hi_Mac h else HeadMAC (MACKey cfg) h).

(** The refusals of a push that is not forced. *)
Definition ahead_or_forked (p : Parse) (prev : HeadInfo) : option store_error :=
  let '(seq, hash) := Head p in
  if bool_decide (hi_Ledger prev = LedgerID p) && (seq <? hi_Seq prev) then Some ErrExternalAhead
  else if bool_decide (hi_Ledger prev = LedgerID p) && (hi_Seq prev =? seq) && bool_decide (hi_Hash prev ≠ hash) then Some ErrExternalFork
  else if bool_decide (hi_Ledger prev ≠ LedgerID p) && (0 <? hi_Seq prev) then Some ErrExternalFork
  else None.

Definition guard_external (p : Parse) : IO () :=
  prev ← try readExternalHead;
  match prev with
  | Ok (Some (h, _)) => match ahead_or_forked p h with Some e => fail e | None => mret () end
  | _ => mret ()
  end.

(** The object, its name and the note of a push. *)
Definition prepare_push (p : Parse) (plain : string) : IO (string * string * HeadInfo) :=
  let '(seq, hash) := Head p in
  let info obj name enc fp :=
    with_mac (mkHeadInfo (LedgerID p) seq hash (Z.of_nat (length (Entries p))) (sha256 plain) name (sha256 obj) enc fp (now_text cfg) "") in
  match Cipher cfg with
  | CipherError => fail ErrCipher
  | NoCipher => mret (plain, ExternalObject, info plain ExternalObject false "")
  | WithCipher enc fp => mret (enc plain, ExternalObject +:+ Suffix, info (enc plain) (ExternalObject +:+ Suffix) true fp)
  end.

Definition pushExternalLocked (force : bool) : IO () :=
  _ ← the_dest;
  c ← readFile;
  match c with
  | None => fail ErrIO
  | Some file =>
      let p := ParseChain file in
      match Err_ p, Entries p with
      | Some _, _ | _, [] => fail ErrNotALedger
      | None, _ =>
          let plain := if Torn p then str_take (Z.to_nat (ValidBytes p)) file else file in
          _ ← (if force then mret () else guard_external p);
          '(obj, name, info) ← prepare_push p plain;
          _ ← Put name obj;
          back ← Get name;
          if decide (sha256 back ≠ ObjectSHA256 info) then fail ErrNotReadBack
          else
            _ ← Put ExternalHead (head_json info);
            hback ← try (Get ExternalHead);
            if decide (hback ≠ Ok (head_json info)) then fail ErrNotReadBack
            else ignore (Remove (if decide (name = ExternalObject) then ExternalObject +:+ Suffix else ExternalObject))
      end
  end.

(** The file must parse to a ledger that ends with the last entry written. *)
Definition read_back (fresh : list Entry) (size : nat) : IO () :=
  back ← ReadLocal;
  if negb (copy_Intact back) || Torn (parse_of back) then _ ← ignore (Truncate size); fail ErrNotReadBack
  else if decide (Head (parse_of back) ≠ match last fresh with Some e => (Seq e, Hash e) | None => (0, "") end)
  then _ ← ignore (Truncate size); fail ErrNotReadBack
  else mret ().

Definition appendLocal (fresh : list Entry) (size : nat) : IO () :=
  _ ← plain_op OpMkdir;
  let data := Encode fresh in
  _ ← openFile;
  _ ← on_error (writeAt data size) (λ e, _ ← ignore (Truncate size); fail e);
  _ ← on_error (plain_op OpSync) (λ e, _ ← ignore (Truncate size); fail e);
  _ ← plain_op OpClose;
  read_back fresh size.

(** Entries that are not held yet; [None] when one differs from what is held. *)
Fixpoint fresh_entries (p : Parse) (entries : list Entry) : option (list Entry) :=
  match entries with
  | [] => Some []
  | e :: es =>
      if (1 <=? Seq e) && (Seq e <=? (Head p).1) then
        if decide (entry_hash p (Seq e) ≠ Some (Hash e)) then None else fresh_entries p es
      else cons e <$> fresh_entries p es
  end.

(** The steps of [Commit] after its checks of the entries: the file is extended, and put
    back when the secondary copy then fails. *)
Definition append_fresh (p : Parse) (fresh : list Entry) : IO () :=
  match fresh with
  | [] => mret ()
  | f :: _ =>
      if (0 <? (Head p).1) && bool_decide (Ledger f ≠ LedgerID p) then fail ErrConflict
      else match Extends (Head p).1 (Head p).2 fresh with
           | Some _ => fail ErrConflict
           | None => on_error (appendLocal fresh (Z.to_nat (ValidBytes p))) (λ e, fail (LocalError e))
           end
  end.

Definition push_or_undo (fresh : list Entry) (size : nat) : IO () :=
  on_error (pushExternalLocked false)
    (λ e, match fresh with
          | [] => fail (ExternalError e)
          | _ => _ ← ignore (Truncate size); fail (ExternalError e)
          end).

Definition Commit (entries : list Entry) : IO () :=
  _ ← the_dest;
  match entries with
  | [] => mret ()
  | _ =>
      cur ← ReadLocal;
      if Reach cur then fail (LocalError ErrIO)
      else
        let p := parse_of cur in
        match Err_ p with
        | Some _ => fail ErrLocalDamaged
        | None =>
            _ ← (if Torn p then on_error (Truncate (Z.to_nat (ValidBytes p))) (λ e, fail (LocalError e)) else mret ());
            match fresh_entries p entries with
            | None => fail ErrConflict
            | Some fresh =>
                if negb (empty (MACKey cfg)) && existsb (λ e, negb (EntryOK (MACKey cfg) e)) fresh then fail ErrUnauthentic
                else _ ← append_fresh p fresh; push_or_undo fresh (Z.to_nat (ValidBytes p))
            end
        end
  end.

Definition Abort (entries : list Entry) : IO () :=
  cur ← ReadLocal;
  let p := parse_of cur in
  let n := length (Entries p) in
  let k := length entries in
  if negb (Present cur) || bool_decide (Err_ p ≠ None) || bool_decide (entries = []) then mret ()
  else if (n <? k)%nat then mret ()
  else if decide (Hash <$> drop (n - k) (Entries p) ≠ Hash <$> entries) then mret ()
  else
    _ ← on_error (Truncate (String.length (Encode (take (n - k) (Entries p))))) (λ e, fail (LocalError e));
    d ← gets dest;
    match d with None => mret () | Some _ => ignore (pushExternalLocked true) end.

Definition PushExternal : IO () := pushExternalLocked false.
Definition ForceExternal : IO () := pushExternalLocked true.

(** The key of a backup key holder, as far as one was given: what it decrypts. *)
Definition ReadExternal (identity : option (string → option string)) : IO Copy :=
  r ← try readExternalHead;
  match r with
  | Err _ => mret (mkCopy "external" false true None)
  | Ok None => mret (mkCopy "external" false false None)
  | Ok (Some (info, _)) =>
      o ← try (Get (Object info));
      match o with
      | Err ErrNotFound => mret (mkCopy "external" false false None)
      | Err _ => mret (mkCopy "external" false true None)
      | Ok obj =>
          if decide (sha256 obj ≠ ObjectSHA256 info) then
            mret (mkCopy "external" true false (Some (mkParse [] false false (Some ObjectChanged) 0)))
          else
            match (if Encrypted info then identity ≫= λ open, open obj else Some obj) with
            | None => mret (mkCopy "external" false true None)
            | Some plain =>
                let p := checked (ParseChain plain) in
                mret (mkCopy "external" true false
                  (Some (if bool_decide (Err_ p = None) && bool_decide (sha256 plain ≠ PlainSHA256 info) && negb (Torn p)
                         then mkParse [] false false (Some NotAsDescribed) 0 else p)))
            end
      end
  end.

Definition RewriteLocal (entries : list Entry) : IO () :=
  match entries, Extends 0 "" entries with
  | _ :: _, Some _ => fail ErrConflict
  | _, _ =>
      on_error (_ ← plain_op OpMkdir; _ ← plain_op OpOpen; _ ← plain_op OpWrite; _ ← plain_op OpSync;
                renameOver (Encode entries))
        (λ e, fail (LocalError e))
  end.

Definition AppendLocal (entries : list Entry) : IO () :=
  cur ← ReadLocal;
  if Reach cur then fail (LocalError ErrIO)
  else
    let p := parse_of cur in
    match Err_ p with
    | Some _ => fail ErrLocalDamaged
    | None =>
        match entries with
        | [] => mret ()
        | _ => match Extends (Head p).1 (Head p).2 entries with
               | Some _ => fail ErrConflict
               | None => on_error (appendLocal entries (Z.to_nat (ValidBytes p))) (λ e, fail (LocalError e))
               end
        end
    end.

(** ** An erasure (edged/ledger_commit.go) *)

(** How the database transaction ends; in doubt, it committed and the answer was lost. *)
Inductive tx_end := TxCommitted | TxRefused | TxInDoubt.

(** What the transaction of an erasure meets: whether scd finds both copies in step,
    whether the statements succeed and which entries they leave pending, whether the
    answer of scd's commit arrives, whether the database takes the receipts. *)
Record erasure := mkErasure {
  prepared : bool;
  statements : option (list Entry);
  answered : bool;
  confirmed : bool;
  tx_ends : tx_end
}.

(** The entries committed in the database, and the result of the request. *)
Definition ledgerQueryAfter (x : erasure) (db : list Entry) (w : world) : world * list Entry * bool :=
  let abort es w db := ((Abort es w).1, db, false) in
  if negb (prepared x) then (w, db, false)
  else match statements x with
       | None => (w, db, false)
       | Some [] => (w, db, match tx_ends x with TxCommitted => true | _ => false end)
       | Some es =>
           match Commit es w with
           | (w1, Err _) => (w1, db, false)
           | (w1, Ok _) =>
               if negb (answered x) then (w1, db, false)
               else if negb (confirmed x) then abort es w1 db
               else match tx_ends x with
                    | TxCommitted => (w1, (db ++ es)%list, true)
                    | TxRefused => abort es w1 db
                    | TxInDoubt => abort es w1 (db ++ es)%list
                    end
           end
       end.
End store.
