(* ===== verification/ErasureStoreProofs.v ===== *)
(** The two copies of the erasure ledger under failures (ErasureStore): a commit that
    reports success is in both copies, one that reports an error left the appliance's
    ledger as it was, and a copy that is ahead is not set back. *)
From S2P Require Import Prelude GoStrings GoText ErasureLedger ErasureProofs ErasureStore.

(** ** Bytes *)

Lemma str_take_app s t : str_take (String.length s) (s +:+ t) = s.
Proof. induction s as [|c s IH]; [by destruct t|]. change (String c (str_take (String.length s) (s +:+ t)) = String c s). by rewrite IH. Qed.

Lemma str_drop_app s t : str_drop (String.length s) (s +:+ t) = t.
Proof. induction s as [|c s IH]; [done|]. exact IH. Qed.

Lemma str_drop_all n s : (String.length s ≤ n)%nat → str_drop n s = "".
Proof. revert n. induction s as [|c s IH]; intros [|n] Hn; cbn in *; [done|done|lia|]. apply IH. lia. Qed.

(** A file whose first bytes are [g] keeps them when something is written after them. *)
Definition starts (g s : string) : Prop := ∃ t, s = g +:+ t.

Lemma starts_take g s : starts g s → str_take (String.length g) s = g.
Proof. intros [t ->]. apply str_take_app. Qed.

Lemma starts_overlay g s data : starts g s → starts g (overlay (String.length g) data s).
Proof. intros Hs. unfold overlay. rewrite (starts_take _ _ Hs). by eexists. Qed.

Lemma overlay_end g data : overlay (String.length g) data g = g +:+ data.
Proof.
  unfold overlay. pose proof (str_take_app g "") as HT. rewrite append_nil_r in HT. rewrite HT.
  rewrite str_drop_all by lia. by rewrite append_nil_r.
Qed.

(** ** What operations leave alone *)

(** Failures are only added, fates only used up, and the file and the storage stay. *)
Definition logs (w w' : world) : Prop := failed w `suffix_of` failed w' ∧ fates w' `suffix_of` fates w.
Definition keeps_local (w w' : world) : Prop := local w' = local w ∧ logs w w'.
Definition keeps_dest (w w' : world) : Prop := dest w' = dest w ∧ logs w w'.

#[export] Instance logs_refl : Reflexive logs.
Proof. by intros w. Qed.
#[export] Instance logs_trans : Transitive logs.
Proof. intros x y z [? ?] [? ?]. split; by etrans. Qed.
#[export] Instance keeps_local_refl : Reflexive keeps_local.
Proof. done. Qed.
#[export] Instance keeps_local_trans : Transitive keeps_local.
Proof. intros x y z [H1 H2] [H3 H4]. split; [congruence|by etrans]. Qed.
#[export] Instance keeps_dest_refl : Reflexive keeps_dest.
Proof. done. Qed.
#[export] Instance keeps_dest_trans : Transitive keeps_dest.
Proof. intros x y z [H1 H2] [H3 H4]. split; [congruence|by etrans]. Qed.

Lemma preserves_try {A} R (m : IO A) : preserves R m → preserves R (try m).
Proof. intros Hm s s' r. unfold try. destruct (m s) as [s1 x] eqn:E. intros [= <- <-]. by eapply Hm. Qed.
Lemma preserves_gets {A} (R : world → world → Prop) `{!Reflexive R} (f : world → A) : preserves R (gets f : IO A).
Proof. by intros s s' r [= <- <-]. Qed.
Lemma preserves_on_error {A} R `{!Reflexive R, !Transitive R} (m : IO A) h :
  preserves R m → (∀ e, preserves R (h e)) → preserves R (on_error m h).
Proof. intros Hm Hh. apply preserves_bind; [done|by apply preserves_try|]. intros [a|e]; [by apply preserves_ret|apply Hh]. Qed.
Lemma preserves_ignore {A} R `{!Reflexive R, !Transitive R} (m : IO A) : preserves R m → preserves R (ignore m).
Proof. intros Hm. apply preserves_bind; [done|by apply preserves_try|]. intros ?. by apply preserves_ret. Qed.

Lemma next_keeps o w w' r : next o w = (w', r) → local w' = local w ∧ dest w' = dest w ∧ logs w w' ∧ ∃ f, r = Ok f ∧ (o ∉ failed w' → f = Good).
Proof.
  unfold next. intros [= <- <-]. cbn. split_and!; try done.
  - unfold logs. cbn. split; [case_decide; [done|]; by exists [o]|]. destruct (fates w) as [|f l]; [done|]. by exists [f].
  - eexists. split; [done|]. case_decide as Hd; [done|]. cbn. set_solver.
Qed.
Lemma next_keeps_local o : preserves keeps_local (next o).
Proof. intros w w' r (? & _ & ? & _)%next_keeps. done. Qed.
Lemma next_keeps_dest o : preserves keeps_dest (next o).
Proof. intros w w' r (_ & ? & ? & _)%next_keeps. done. Qed.
Lemma put_dest_keeps m : preserves keeps_local (put_dest m).
Proof. intros w w' r [= <- <-]. split; [done|]. unfold logs. done. Qed.
Lemma put_local_keeps c : preserves keeps_dest (put_local c).
Proof. intros w w' r [= <- <-]. split; [done|]. unfold logs. done. Qed.

#[local] Hint Resolve preserves_try preserves_gets preserves_on_error preserves_ignore next_keeps_local next_keeps_dest
  put_dest_keeps put_local_keeps : onegate.

Ltac keeps_tac :=
  repeat first
    [ progress intros
    | progress cbv zeta
    | solve [auto 1 with nocore]
    | apply preserves_bind; [apply _| |]
    | apply preserves_ret; apply _
    | apply preserves_fail; apply _
    | apply preserves_gets; apply _
    | apply preserves_try
    | apply preserves_on_error; [apply _|apply _| |]
    | apply preserves_ignore; [apply _|apply _|]
    | solve [eauto with onegate]
    | match goal with |- preserves _ (match ?x with _ => _ end) => destruct x end ].

Section store.
Context {L : LedgerLib} (cfg : Config).

Lemma plain_op_keeps_local o : preserves keeps_local (plain_op o).
Proof. unfold plain_op. keeps_tac. Qed.
Lemma plain_op_keeps_dest o : preserves keeps_dest (plain_op o).
Proof. unfold plain_op. keeps_tac. Qed.
#[local] Hint Resolve plain_op_keeps_local plain_op_keeps_dest : onegate.

Lemma readFile_keeps_local : preserves keeps_local readFile.
Proof. unfold readFile. keeps_tac. Qed.
Lemma readFile_keeps_dest : preserves keeps_dest readFile.
Proof. unfold readFile. keeps_tac. Qed.
Lemma Get_keeps_local name : preserves keeps_local (Get name).
Proof. unfold Get, the_dest. keeps_tac. Qed.
Lemma Get_keeps_dest name : preserves keeps_dest (Get name).
Proof. unfold Get, the_dest. keeps_tac. Qed.
Lemma Put_keeps_local name data : preserves keeps_local (Put name data).
Proof. unfold Put, the_dest. keeps_tac. Qed.
Lemma Remove_keeps_local name : preserves keeps_local (Remove name).
Proof. unfold Remove, the_dest. keeps_tac. Qed.
#[local] Hint Resolve readFile_keeps_local readFile_keeps_dest Get_keeps_local Get_keeps_dest Put_keeps_local Remove_keeps_local : onegate.

Lemma ReadLocal_keeps_local : preserves keeps_local (ReadLocal cfg).
Proof. unfold ReadLocal. keeps_tac. Qed.
Lemma ReadLocal_keeps_dest : preserves keeps_dest (ReadLocal cfg).
Proof. unfold ReadLocal. keeps_tac. Qed.
Lemma readExternalHead_keeps_local : preserves keeps_local (readExternalHead cfg).
Proof. unfold readExternalHead. keeps_tac. Qed.
Lemma readExternalHead_keeps_dest : preserves keeps_dest (readExternalHead cfg).
Proof. unfold readExternalHead. keeps_tac. Qed.
#[local] Hint Resolve ReadLocal_keeps_local ReadLocal_keeps_dest readExternalHead_keeps_local readExternalHead_keeps_dest : onegate.
Lemma guard_keeps_local p : preserves keeps_local (guard_external cfg p).
Proof. unfold guard_external. keeps_tac. Qed.
Lemma guard_keeps_dest p : preserves keeps_dest (guard_external cfg p).
Proof. unfold guard_external. keeps_tac. Qed.
Lemma prepare_keeps_local p plain : preserves keeps_local (prepare_push cfg p plain).
Proof. unfold prepare_push. keeps_tac. Qed.
#[local] Hint Resolve guard_keeps_local prepare_keeps_local : onegate.

Lemma Truncate_keeps_dest n : preserves keeps_dest (Truncate n).
Proof. unfold Truncate. keeps_tac. Qed.
Lemma openFile_keeps_dest : preserves keeps_dest openFile.
Proof. unfold openFile. keeps_tac. Qed.
Lemma writeAt_keeps_dest data off : preserves keeps_dest (writeAt data off).
Proof. unfold writeAt. keeps_tac. Qed.
#[local] Hint Resolve Truncate_keeps_dest openFile_keeps_dest writeAt_keeps_dest : onegate.
Lemma appendLocal_keeps_dest fresh size : preserves keeps_dest (appendLocal cfg fresh size).
Proof. unfold appendLocal, read_back. keeps_tac. Qed.
#[local] Hint Resolve appendLocal_keeps_dest : onegate.

(** Appending and rewriting are about the file alone. *)
Lemma append_fresh_keeps_dest p fresh : preserves keeps_dest (append_fresh cfg p fresh).
Proof. unfold append_fresh. keeps_tac. Qed.
Lemma AppendLocal_keeps_dest es : preserves keeps_dest (AppendLocal cfg es).
Proof. unfold AppendLocal. keeps_tac. Qed.
Lemma RewriteLocal_keeps_dest es : preserves keeps_dest (RewriteLocal es).
Proof. unfold RewriteLocal, renameOver. keeps_tac. Qed.

(** A push never touches the file. *)
Lemma push_keeps_local force : preserves keeps_local (pushExternalLocked cfg force).
Proof. unfold pushExternalLocked, the_dest. keeps_tac. Qed.

(** ** The file *)

Lemma ST_bind_inv {A B} (m : IO A) (f : A → IO B) w w' r :
  (m ≫= f) w = (w', r) → (∃ w1 a, m w = (w1, Ok a) ∧ f a w1 = (w', r)) ∨ (∃ e, m w = (w', Err e) ∧ r = Err e).
Proof. unfold mbind, ST_bind. destruct (m w) as [w1 [a|e]]; [left; by exists w1, a|]. intros [= <- <-]. right. by exists e. Qed.

Lemma try_bind_inv {A B} (m : IO A) (f : res store_error A → IO B) w w' r :
  (try m ≫= f) w = (w', r) → ∃ w1 x, m w = (w1, x) ∧ f x w1 = (w', r).
Proof. unfold try, mbind, ST_bind. destruct (m w) as [w1 x]. intros H. by exists w1, x. Qed.

Lemma on_error_inv {A} (m : IO A) h w w' r :
  on_error m h w = (w', r) → (∃ a, m w = (w', Ok a) ∧ r = Ok a) ∨ (∃ w1 e, m w = (w1, Err e) ∧ h e w1 = (w', r)).
Proof.
  unfold on_error, try, mbind, ST_bind. destruct (m w) as [w1 [a|e]]; [intros [= <- <-]; left; by exists a|right; by exists w1, e].
Qed.

Definition contents (w : world) : string := default "" (local w).

Lemma logs_notin w w' o : logs w w' → o ∉ failed w' → o ∉ failed w.
Proof. intros [[k ->] _]. set_solver. Qed.

Lemma plain_op_inv o w w' r : plain_op o w = (w', r) → local w' = local w ∧ dest w' = dest w ∧ logs w w' ∧ (o ∉ failed w' → r = Ok ()).
Proof.
  intros H. pose proof (plain_op_keeps_local o _ _ _ H) as [? ?]. pose proof (plain_op_keeps_dest o _ _ _ H) as [? ?]. split_and!; try done.
  intros Hn. unfold plain_op in H. apply ST_bind_inv in H as [(w1 & f & Hf & H)|(e & Hf & _)].
  - apply next_keeps in Hf as (_ & _ & _ & f' & [= <-] & Hg). case_decide as Hd; injection H as <- <-; [done|]. by destruct Hd, Hg.
  - by apply next_keeps in Hf as (_ & _ & _ & f' & ? & _).
Qed.

Lemma Truncate_inv n w w' r :
  Truncate n w = (w', r) → logs w w' ∧ dest w' = dest w ∧
  (OpTruncate ∉ failed w' → ∀ s, local w = Some s → r = Ok () ∧ local w' = Some (str_take n s)) ∧
  (r = Ok () → local w' = str_take n <$> local w).
Proof.
  unfold Truncate. intros H. apply ST_bind_inv in H as [(w1 & f & Hf & H)|(e & Hf & _)].
  2: { by apply next_keeps in Hf as (_ & _ & _ & f' & ? & _). }
  apply next_keeps in Hf as (HL & HD & HG & f' & [= <-] & Hg). unfold mbind, ST_bind, gets in H. rewrite HL in H.
  destruct (local w) as [s|] eqn:El; [|injection H as <- <-; split_and!; try done; by intros _ ? [=]].
  assert (HF : failed w' = failed w1 ∧ fates w' = fates w1 ∧ dest w' = dest w1) by (destruct f; cbn in H; repeat case_decide; by injection H as <- <-).
  destruct HF as (HF & HF' & HD'). unfold logs in *. rewrite HF, HF', HD'. split_and!; try apply HG; try done.
  - intros Hn s' [= <-]. rewrite (Hg Hn) in H. cbn in H. rewrite decide_True in H by done. injection H as <- <-. done.
  - intros ->. destruct f; cbn in H; case_decide; try done; by injection H as <-.
Qed.

Lemma openFile_inv w w' r :
  openFile w = (w', r) → logs w w' ∧ dest w' = dest w ∧ contents w' = contents w ∧ (r = Ok () → local w' = Some (contents w)).
Proof.
  unfold openFile. intros H. apply ST_bind_inv in H as [(w1 & f & Hf & H)|(e & Hf & _)].
  2: { by apply next_keeps in Hf as (_ & _ & _ & f' & ? & _). }
  apply next_keeps in Hf as (HL & HD & HG & f' & [= <-] & Hg). unfold contents, logs in *. unfold mbind, ST_bind, gets in H.
  destruct f; cbn in H; case_decide; try done; injection H as <- <-; cbn; rewrite ?HL; split_and!; try apply HG; try done; by destruct (local w).
Qed.

(** A write that starts after [g] leaves [g]. *)
Lemma writeAt_inv data g w w' r :
  writeAt data (String.length g) w = (w', r) → starts g (contents w) → local w ≠ None →
  logs w w' ∧ dest w' = dest w ∧ (∃ s, local w' = Some s ∧ starts g s) ∧
  (r = Ok () → local w' = Some (overlay (String.length g) data (contents w))).
Proof.
  unfold writeAt. intros H Hs Hn. apply ST_bind_inv in H as [(w1 & f & Hf & H)|(e & Hf & _)].
  2: { by apply next_keeps in Hf as (_ & _ & _ & f' & ? & _). }
  apply next_keeps in Hf as (HL & HD & HG & f' & [= <-] & Hg). unfold contents, logs in *. unfold mbind, ST_bind, gets in H.
  destruct (local w) as [s|] eqn:El; [|done]. cbn in Hs. rewrite HL in H.
  destruct f; cbn in H; case_decide; try done; injection H as <- <-; cbn; rewrite ?HL; split_and!; try apply HG; try done; eauto using starts_overlay.
Qed.

Lemma restored {A} g w w' (e : store_error) (r : res store_error A) :
  (_ ← ignore (Truncate (String.length g)); fail e) w = (w', r) → ∀ s, local w = Some s → starts g s →
  logs w w' ∧ dest w' = dest w ∧ r = Err e ∧ (OpTruncate ∉ failed w' → local w' = Some g).
Proof.
  unfold ignore, try, mbind, ST_bind, mret, ST_ret, fail. destruct (Truncate _ w) as [w1 x] eqn:E. intros [= <- <-] s Hs Hg.
  apply Truncate_inv in E as (HG & HD & HT & _). split_and!; try done. intros Hn. destruct (HT Hn s Hs) as [_ ->].
  by rewrite (starts_take _ _ Hg).
Qed.

(** The file still begins with [g]; or it is [g] again and an error is reported. *)
Definition begins (g : string) (w0 w : world) : Prop := logs w0 w ∧ dest w = dest w0 ∧ ∃ s, local w = Some s ∧ starts g s.
Definition undone (g : string) (w0 w : world) (r : res store_error ()) : Prop :=
  logs w0 w ∧ dest w = dest w0 ∧ (∃ e, r = Err e) ∧ (OpTruncate ∉ failed w → contents w = g).

Lemma begins_keeps g w0 w w' : begins g w0 w → local w' = local w → dest w' = dest w → logs w w' → begins g w0 w'.
Proof. intros (HG & HD & Hs) HL HD' HG'. split; [by etrans|]. rewrite HL. split; [congruence|done]. Qed.

Lemma undo_inv g w0 w w' (e : store_error) (r : res store_error ()) :
  (_ ← ignore (Truncate (String.length g)); fail e) w = (w', r) → begins g w0 w → undone g w0 w' r.
Proof.
  intros H (HG & HD & s & Hs & Hg). apply (restored g) with (s := s) in H as (HG2 & HD2 & -> & HT); [|done..].
  split; [by etrans|]. split_and!; [congruence|by eauto|]. intros Hn. unfold contents. by rewrite (HT Hn).
Qed.

(** A step that is undone when it fails. *)
Lemma guarded_step g (m : IO ()) w0 w w' r :
  on_error m (λ e, _ ← ignore (Truncate (String.length g)); fail e) w = (w', r) →
  (∀ w1 r1, m w = (w1, r1) → begins g w0 w1) → (r = Ok () ∧ m w = (w', Ok ())) ∨ undone g w0 w' r.
Proof. intros [([] & H & ->)|(w1 & e & H & H1)]%on_error_inv Hm; [by left|right]. eapply undo_inv; [exact H1|]. by eapply Hm. Qed.

Lemma read_back_inv fresh g w0 w w' r :
  read_back cfg fresh (String.length g) w = (w', r) → begins g w0 w →
  (r = Ok () ∧ local w' = local w ∧ begins g w0 w') ∨ undone g w0 w' r.
Proof.
  unfold read_back. intros H HB. apply ST_bind_inv in H as [(w1 & back & H1 & H)|(e & H1 & ->)].
  2: { unfold ReadLocal, try, mbind, ST_bind in H1. by destruct (readFile w). }
  pose proof (ReadLocal_keeps_local _ _ _ H1) as [L1 G1]. pose proof (ReadLocal_keeps_dest _ _ _ H1) as [D1 _].
  pose proof (begins_keeps _ _ _ _ HB L1 D1 G1) as HB1. destruct (negb _ || _); [right; by eapply undo_inv|].
  case_decide; [right; by eapply undo_inv|]. injection H as <- <-. by left.
Qed.

(** What [appendLocal] leaves when it fails, and when it succeeds. *)
Lemma appendLocal_inv fresh g w w' r :
  appendLocal cfg fresh (String.length g) w = (w', r) → starts g (contents w) →
  logs w w' ∧ dest w' = dest w ∧
  (r = Ok () → local w' = Some (overlay (String.length g) (Encode fresh) (contents w))) ∧
  ((∃ e, r = Err e) → OpTruncate ∉ failed w' → OpClose ∉ failed w' → contents w' = contents w ∨ contents w' = g).
Proof.
  unfold appendLocal. intros H Hs.
  apply ST_bind_inv in H as [(w1 & [] & H1 & H)|(e & H1 & ->)]; apply plain_op_inv in H1 as (L1 & D1 & G1 & _).
  2: { split; [done|]. split_and!; try done. intros _ _ _. left. unfold contents. by rewrite L1. }
  assert (C1 : contents w1 = contents w) by (unfold contents; by rewrite L1).
  apply ST_bind_inv in H as [(w2 & [] & H2 & H)|(e & H2 & ->)]; apply openFile_inv in H2 as (G2 & D2 & C2 & O2).
  2: { split; [by etrans|]. split_and!; [congruence|done|]. intros _ _ _. left. congruence. }
  specialize (O2 eq_refl). rewrite C1 in O2, C2. assert (S2 : starts g (contents w2)) by (by rewrite C2).
  assert (HU : undone g w w' r ∨ (r = Ok () ∧ begins g w w' ∧ local w' = Some (overlay (String.length g) (Encode fresh) (contents w))) ∨
    (∃ w4 e, r = Err e ∧ begins g w w4 ∧ plain_op OpClose w4 = (w', Err e))).
  { apply ST_bind_inv in H as [(w3 & [] & H3 & H)|(e & H3 & ->)]; apply (guarded_step g _ w) in H3 as [[? H3]|HX]; try done; try (by left);
      try (intros w4 r4 (G4 & D4 & S4 & _)%writeAt_inv; [split; [do 2 (etrans; [eassumption|]); done|split; [congruence|done]]|done|congruence]).
    2: { by destruct HX as (_ & _ & [? ?] & _). }
    apply writeAt_inv in H3 as (G3 & D3 & S3 & O3); [|done|congruence]. specialize (O3 eq_refl). rewrite C2 in O3.
    assert (B3 : begins g w w3) by (split; [do 2 (etrans; [eassumption|]); done|split; [congruence|done]]).
    apply ST_bind_inv in H as [(w4 & [] & H4 & H)|(e & H4 & ->)]; apply (guarded_step g _ w) in H4 as [[? H4]|HX]; try done; try (by left);
      try (intros w5 r5 (? & ? & ? & _)%plain_op_inv; by eapply begins_keeps).
    2: { by destruct HX as (_ & _ & [? ?] & _). }
    apply plain_op_inv in H4 as (L4 & D4 & G4 & _). pose proof (begins_keeps _ _ _ _ B3 L4 D4 G4) as B4.
    apply ST_bind_inv in H as [(w5 & [] & H5 & H)|(e & H5 & ->)]; [|right; right; by exists w4, e].
    apply plain_op_inv in H5 as (L5 & D5 & G5 & _). pose proof (begins_keeps _ _ _ _ B4 L5 D5 G5) as B5.
    apply (read_back_inv _ _ w) in H as [(-> & L6 & B6)|HX]; [right; left|by left|done]. split_and!; [done|apply B6..|congruence]. }
  destruct HU as [(HG & HD & [e ->] & HT)|[(-> & (HG & HD & _) & HL)|(w4 & e & -> & B4 & H5)]].
  - split; [done|]. split_and!; auto. done.
  - split; [done|]. split_and!; try done. by intros [? ?].
  - apply plain_op_inv in H5 as (L5 & D5 & G5 & OK5). destruct (begins_keeps _ _ _ _ B4 L5 D5 G5) as (HG & HD & _).
    split; [done|]. split_and!; try done. intros _ _ Hn. by specialize (OK5 Hn).
Qed.

(** ** The valid part of a file *)

Definition unlines (ls : list string) : string := foldr (λ l acc, l +:+ String newline acc) "" ls.

Lemma lines_unlines s ls t : lines s = (ls, t) → s = unlines ls +:+ t ∧ Forall (λ l, lacks newline l = true) ls ∧ lacks newline t = true.
Proof.
  revert ls t. induction s as [|c s IH]; intros ls t; cbn [lines]; [intros [= <- <-]; by split_and!; [|constructor|]|].
  destruct (lines s) as [ls0 t0]. destruct (IH ls0 t0 eq_refl) as (-> & Hls & Ht). case_decide as Hc.
  - intros [= <- <-]. subst c. split_and!; [done|by constructor|done].
  - destruct ls0 as [|l ls0]; intros [= <- <-].
    + split_and!; [done..|]. cbn [lacks]. by rewrite bool_decide_true.
    + apply Forall_cons in Hls as [Hl Hls]. split_and!; [done| |done]. constructor; [|done]. cbn [lacks]. by rewrite bool_decide_true.
Qed.

Lemma lines_of_unlines ls s : Forall (λ l, lacks newline l = true) ls → lines (unlines ls +:+ s) = ((ls ++ (lines s).1)%list, (lines s).2).
Proof.
  induction 1 as [|l ls Hl _ IH]; [exact (surjective_pairing (lines s))|]. cbn [unlines foldr]. fold (unlines ls). rewrite append_assoc.
  change (String newline (unlines ls) +:+ s) with (String newline (unlines ls +:+ s)). by rewrite lines_line, IH.
Qed.

Lemma len_unlines l ls : len (unlines (l :: ls)) = len l + 1 + len (unlines ls).
Proof.
  change (unlines (l :: ls)) with (l +:+ String newline "" +:+ unlines ls). rewrite !len_app.
  change (len (String newline "")) with 1. lia.
Qed.

Lemma parse_lines_app prev n ls ls' es b :
  parse_lines prev n ls = (es, None, b) →
  parse_lines prev n (ls ++ ls')%list =
    let '(es', err, b') := parse_lines (match last es with Some e => Some e | None => prev end) (n + Z.of_nat (length ls)) ls' in
    ((es ++ es')%list, err, b + b').
Proof.
  revert prev n es b. induction ls as [|l ls IH]; intros prev n es b; cbn [parse_lines app].
  - intros [= <- <-]. cbn. rewrite Z.add_0_r. by destruct (parse_lines prev n ls') as [[? ?] ?].
  - destruct (entry_decode l) as [e|]; [|done]. destruct (checkLink prev e); [done|].
    destruct (parse_lines (Some e) (n + 1) ls) as [[es0 [d|]] b0] eqn:E; [done|]. intros [= <- <-]. rewrite (IH _ _ _ _ E).
    replace (n + 1 + Z.of_nat (length ls)) with (n + Z.of_nat (length (l :: ls))) by (cbn [length]; lia).
    assert (HL : last (e :: es0) = Some (match last es0 with Some x => x | None => e end)).
    { destruct es0 as [|x es0]; [done|]. rewrite last_cons_cons. destruct (last (x :: es0)) eqn:El; [done|]. by apply last_None in El. }
    rewrite HL. replace (match last es0 with Some e0 => Some e0 | None => Some e end) with (Some (match last es0 with Some x => x | None => e end)) by (by destruct (last es0)).
    destruct (parse_lines _ _ ls') as [[es1 err1] b1]. f_equal. lia.
Qed.

Lemma parse_lines_bytes prev n ls es b : parse_lines prev n ls = (es, None, b) → b = len (unlines ls) ∧ length es = length ls.
Proof.
  revert prev n es b. induction ls as [|l ls IH]; intros prev n es b; cbn [parse_lines]; [by intros [= <- <-]|].
  destruct (entry_decode l) as [e|]; [|done]. destruct (checkLink prev e); [done|].
  destruct (parse_lines (Some e) (n + 1) ls) as [[es0 [d|]] b0] eqn:E; [done|]. intros [= <- <-]. apply IH in E as [-> HL].
  rewrite len_unlines. cbn. split; [done|lia].
Qed.

(** An undamaged file is its valid part and a fragment, and entries that continue it
    can be written right after the valid part. *)
Lemma valid_part file :
  Err_ (ParseChain file) = None →
  ∃ g t, file = g +:+ t ∧ String.length g = Z.to_nat (ValidBytes (ParseChain file)) ∧ lacks newline t = true ∧
    Torn (ParseChain file) = negb (empty t) ∧
    ∀ fresh r, linked (last (Entries (ParseChain file))) fresh = None → Forall typed fresh → lacks newline r = true →
      ParseChain (g +:+ Encode fresh +:+ r) =
        mkParse (Entries (ParseChain file) ++ fresh) (empty r) (negb (empty r)) None (ValidBytes (ParseChain file) + len (Encode fresh)).
Proof.
  unfold ParseChain at 1 2 3 4 6 7. destruct (lines file) as [ls t] eqn:El. apply lines_unlines in El as (-> & Hls & Ht).
  destruct (parse_lines None 1 ls) as [[es [d|]] b] eqn:Ep; [done|]. intros _. cbn [ValidBytes Torn Entries].
  destruct (parse_lines_bytes _ _ _ _ _ Ep) as [Hb _]. exists (unlines ls), t. split_and!; try done.
  - rewrite Hb. unfold len. lia.
  - intros fresh r HL HT Hr. unfold ParseChain. rewrite lines_of_unlines by done.
    rewrite lines_Encode by done. cbn [fst snd]. rewrite (parse_lines_app _ _ _ _ _ _ Ep).
    replace (match last es with Some e => Some e | None => None end) with (last es) by (by destruct (last es)).
    by rewrite parse_lines_Encode by done.
Qed.

(** Without a fragment after them. *)
Lemma valid_part_whole g file fresh :
  (∀ fresh r, linked (last (Entries (ParseChain file))) fresh = None → Forall typed fresh → lacks newline r = true →
      ParseChain (g +:+ Encode fresh +:+ r) =
        mkParse (Entries (ParseChain file) ++ fresh) (empty r) (negb (empty r)) None (ValidBytes (ParseChain file) + len (Encode fresh))) →
  linked (last (Entries (ParseChain file))) fresh = None → Forall typed fresh →
  ParseChain (g +:+ Encode fresh) =
    mkParse (Entries (ParseChain file) ++ fresh) true false None (ValidBytes (ParseChain file) + len (Encode fresh)).
Proof. intros HX HL HT. specialize (HX fresh "" HL HT eq_refl). by rewrite append_nil_r in HX. Qed.

(** ** Pushing *)

Lemma the_dest_inv w w' r : the_dest w = (w', r) → w' = w ∧ (∀ m, r = Ok m → dest w = Some m).
Proof. unfold the_dest, gets, mbind, ST_bind. destruct (dest w); intros [= <- <-]; split; congruence. Qed.

Lemma Get_inv name w w' s : Get name w = (w', Ok s) → ∃ m, dest w = Some m ∧ m !! name = Some s.
Proof.
  unfold Get. intros H. apply ST_bind_Ok in H as (w1 & [] & (_ & D1 & _ & _)%plain_op_inv & H).
  apply ST_bind_Ok in H as (w2 & m & [-> Hm]%the_dest_inv & H). exists m. rewrite <- D1. split; [by apply Hm|].
  destruct (m !! name); [|done]. by injection H as <- <-.
Qed.

Lemma Put_inv name data w w' : Put name data w = (w', Ok ()) → ∃ m s, dest w = Some m ∧ dest w' = Some (<[name := s]> m).
Proof.
  unfold Put. intros H. apply ST_bind_Ok in H as (w1 & f & (_ & D1 & _ & f' & [= <-] & _)%next_keeps & H).
  apply ST_bind_Ok in H as (w2 & m & [-> Hm]%the_dest_inv & H). specialize (Hm m eq_refl). rewrite D1 in Hm. exists m.
  destruct f; cbn in H; try done; injection H as <-; by eexists.
Qed.

Lemma Remove_inv name w w' r m : ignore (Remove name) w = (w', r) → dest w = Some m → r = Ok () ∧ (dest w' = Some m ∨ dest w' = Some (delete name m)).
Proof.
  unfold ignore, try, mbind, ST_bind, mret, ST_ret. destruct (Remove name w) as [w1 x] eqn:E. intros [= <- <-] Hd. split; [done|].
  unfold Remove in E. apply ST_bind_inv in E as [(w2 & f & (_ & D2 & _)%next_keeps & E)|(e & (_ & D2 & _)%next_keeps & ->)]; [|left; congruence].
  apply ST_bind_inv in E as [(w3 & m' & [-> Hm]%the_dest_inv & E)|(e & [-> _]%the_dest_inv & ->)]; [|left; congruence].
  specialize (Hm m' eq_refl). assert (m' = m) as -> by congruence.
  destruct f; cbn in E; repeat case_decide; try done; injection E as <- _; cbn; first [by right|by left].
Qed.

Definition sealed_bytes (plain : string) : string := match Cipher cfg with WithCipher enc _ => enc plain | _ => plain end.

(** The note says what the ledger is, and which object holds it. *)
Definition describes (info : HeadInfo) (p : Parse) (plain : string) : Prop :=
  hi_Ledger info = LedgerID p ∧ (hi_Seq info, hi_Hash info) = Head p ∧ PlainSHA256 info = sha256 plain ∧
  ObjectSHA256 info = sha256 (sealed_bytes plain) ∧ Object info ∈ [ExternalObject; ExternalObject +:+ Suffix].

Lemma prepare_inv p plain w w' obj name info :
  prepare_push cfg p plain w = (w', Ok (obj, name, info)) →
  w' = w ∧ obj = sealed_bytes plain ∧ name = Object info ∧ describes info p plain ∧ name ≠ ExternalHead.
Proof.
  unfold prepare_push, describes, sealed_bytes. destruct (Head p) as [seq hash]. destruct (Cipher cfg); [done|..]; intros [= <- <- <- <-];
    cbn; split_and!; try done; set_solver.
Qed.

(** A push that succeeds leaves the ledger of the file at the storage. *)
Lemma push_inv force w w' :
  pushExternalLocked cfg force w = (w', Ok ()) →
  ∃ file plain m info s, local w = Some file ∧ Err_ (ParseChain file) = None ∧
    plain = (if Torn (ParseChain file) then str_take (Z.to_nat (ValidBytes (ParseChain file))) file else file) ∧
    dest w' = Some m ∧ m !! ExternalHead = Some (head_json info) ∧ describes info (ParseChain file) plain ∧
    m !! Object info = Some s ∧ sha256 s = ObjectSHA256 info.
Proof.
  unfold pushExternalLocked. intros H. apply ST_bind_Ok in H as (w1 & m1 & [-> _]%the_dest_inv & H).
  apply ST_bind_Ok in H as (w2 & c & H2 & H). assert (HL : local w2 = local w ∧ c = local w).
  { unfold readFile in H2. apply ST_bind_Ok in H2 as (w3 & [] & (L3 & _)%plain_op_inv & [= <- <-]). by rewrite L3. }
  destruct HL as [L2 ->]. destruct (local w) as [file|]; [|done]. cbv zeta in H.
  destruct (Err_ (ParseChain file)) eqn:Ee; [done|]. destruct (Entries (ParseChain file)) eqn:Es; [done|].
  apply ST_bind_Ok in H as (w3 & [] & _ & H). apply ST_bind_Ok in H as (w4 & [[obj name] info] & H4 & H).
  apply prepare_inv in H4 as (-> & -> & -> & HD & HN).
  apply ST_bind_Ok in H as (w5 & [] & (m5 & s5 & D3 & D5)%Put_inv & H). apply ST_bind_Ok in H as (w6 & back & H6 & H).
  pose proof (Get_keeps_dest _ _ _ _ H6) as [D6 _]. apply Get_inv in H6 as (m6 & Hm6 & Hb). rewrite D5 in Hm6. injection Hm6 as <-.
  rewrite lookup_insert_eq in Hb. injection Hb as ->. case_decide as Hsum; [done|].
  apply ST_bind_Ok in H as (w7 & [] & (m7 & s7 & D6' & D7)%Put_inv & H). apply ST_bind_Ok in H as (w8 & hb & H8 & H).
  unfold try in H8. destruct (Get ExternalHead w7) as [w8' x] eqn:E8. injection H8 as <- <-.
  pose proof (Get_keeps_dest _ _ _ _ E8) as [D8 _]. case_decide as Hh; [done|]. subst x.
  apply Get_inv in E8 as (m8 & Hm8 & Hb8). rewrite D7 in Hm8. injection Hm8 as <-. rewrite lookup_insert_eq in Hb8. injection Hb8 as ->.
  apply Remove_inv with (m := <[ExternalHead := head_json info]> m7) in H as [_ H]; [|congruence].
  assert (m7 = <[Object info := back]> m5) as -> by congruence. exists file. eexists _. set (other := if decide _ then _ else _) in H.
  assert (HO : other ≠ ExternalHead ∧ other ≠ Object info).
  { unfold other. destruct HD as (_ & _ & _ & _ & HO). case_decide as Hc; [rewrite Hc; done|]. split; [done|congruence]. }
  assert (HX : ∀ m, dest w' = Some m → m !! ExternalHead = Some (head_json info) ∧ m !! Object info = Some back).
  { intros m Hm. destruct HO as [HO1 HO2]. destruct H as [H|H]; rewrite H in Hm; injection Hm as <-;
      rewrite ?lookup_delete_ne by done; rewrite lookup_insert_eq, lookup_insert_ne, lookup_insert_eq by congruence; done. }
  destruct H as [H|H]; destruct (HX _ H) as [Hn Ho]; (eexists _, info, back; split_and!; [done|done|reflexivity|exact H|done|done|done|done]).
Qed.
End store.
