(* ===== verification/ErasureCommit.v ===== *)
(** What a commit to the erasure ledger promises (ErasureStore): success means the
    entries are in both copies, an error means the appliance's ledger is as before, and
    the copy at the storage is never set back without force. *)
From S2P Require Import Prelude GoStrings GoText ErasureLedger ErasureProofs ErasureStore ErasureStoreProofs.

Lemma Forall_sub {A} (P : A → Prop) l k : l `sublist_of` k → Forall P k → Forall P l.
Proof. induction 1; rewrite ?Forall_cons; naive_solver. Qed.

Section commit.
Context {L : LedgerLib} (cfg : Config).

(** The ledger the appliance's file holds. *)
Definition held (w : world) : list Entry := Entries (ParseChain (contents w)).

Lemma held_ok w : chain (held w) ∧ Forall typed (held w).
Proof. apply ParseChain_chain. Qed.

(** What [Commit] goes on with is what the file holds. *)
Lemma ReadLocal_inv w w' c :
  ReadLocal cfg w = (w', Ok c) → Reach c = false → Err_ (parse_of c) = None →
  Entries (parse_of c) = held w ∧ Err_ (ParseChain (contents w)) = None ∧
  Torn (parse_of c) = Torn (ParseChain (contents w)) ∧ ValidBytes (parse_of c) = ValidBytes (ParseChain (contents w)).
Proof.
  unfold ReadLocal, try, mbind, ST_bind. destruct (readFile w) as [w1 r] eqn:E. intros [= <- <-].
  unfold readFile in E. apply ST_bind_inv in E as [(w2 & [] & (L2 & _)%plain_op_inv & [= <- <-])|(e & _ & ->)]; [|done].
  unfold held, contents. rewrite L2. destruct (local w) as [b|]; [|done]. cbn [default]. destruct (empty b) eqn:Eb.
  - apply empty_true in Eb as ->. done.
  - intros _. cbn. unfold checked. destruct (empty (MACKey cfg)); [done|]. destruct (Err_ (ParseChain b)) eqn:Ee; [cbn; by rewrite Ee|].
    destruct (CheckPresent _ _); [done|]. cbn. by rewrite Ee.
Qed.

(** A link only depends on the number, the hash and the ledger of the entry before. *)
Lemma linked_prev p q es : Seq p = Seq q → Hash p = Hash q → Ledger p = Ledger q → linked (Some p) es = linked (Some q) es.
Proof. intros HS HH HL. destruct es as [|e es]; [done|]. unfold linked, checkLink. by rewrite HS, HH, HL. Qed.

Lemma Extends_linked p fresh :
  chain (Entries p) → Extends (Head p).1 (Head p).2 fresh = None →
  (∀ f, head fresh = Some f → 0 < (Head p).1 → Ledger f = LedgerID p) → linked (last (Entries p)) fresh = None.
Proof.
  intros HC HE HF. unfold Extends, Head in *. destruct (last (Entries p)) as [h|] eqn:Eh; [|done].
  cbn [fst snd] in *. rewrite last_lookup in Eh.
  assert (HS : 0 < Seq h) by (eapply linked_lookup, checkLink_ok in Eh; [|exact HC]; lia).
  rewrite (proj2 (Z.ltb_lt _ _) HS) in HE. destruct fresh as [|f fresh]; [done|].
  erewrite linked_prev; [exact HE|done..|]. cbn. rewrite (HF f eq_refl HS). by eapply chain_ID in Eh.
Qed.

(** The entries that are written and those that are held already. *)
Lemma fresh_entries_inv p es fresh :
  fresh_entries p es = Some fresh →
  fresh `sublist_of` es ∧ ∀ e, e ∈ es → e ∈ fresh ∨ entry_hash p (Seq e) = Some (Hash e).
Proof.
  revert fresh. induction es as [|e es IH]; intros fresh; cbn [fresh_entries].
  { intros [= <-]. split; [done|]. by intros e ?%elem_of_nil. }
  destruct (_ && _) eqn:E.
  - case_decide as Hd; [done|]. intros [HS HI]%IH. split; [by constructor|]. intros x [->|Hx]%elem_of_cons; auto.
  - destruct (fresh_entries p es) as [f0|]; [|done]. intros [= <-]. destruct (IH f0 eq_refl) as [HS HI]. split; [by constructor|].
    intros x [->|Hx]%elem_of_cons; [left; by left|]. destruct (HI x Hx); [left; by right|by right].
Qed.

(** The two steps of a commit: the file is extended after its valid part [g], or is [g]
    again. *)
Lemma append_fresh_inv p fresh g w w' r :
  append_fresh cfg p fresh w = (w', r) → contents w = g → String.length g = Z.to_nat (ValidBytes p) → chain (Entries p) →
  logs w w' ∧ dest w' = dest w ∧
  (r = Ok () → contents w' = g +:+ Encode fresh ∧ linked (last (Entries p)) fresh = None ∧ (fresh ≠ [] → local w' ≠ None)) ∧
  (∀ e, r = Err e → OpTruncate ∉ failed w' → OpClose ∉ failed w' → contents w' = g).
Proof.
  unfold append_fresh. intros H Hg HV HC. destruct fresh as [|f fresh].
  { injection H as <- <-. cbn. rewrite append_nil_r. split_and!; by auto. }
  destruct (_ && _) eqn:EL; [by injection H as <- <-|]. destruct (Extends _ _ _) eqn:EX; [by injection H as <- <-|].
  rewrite <- HV in H. assert (HL : linked (last (Entries p)) (f :: fresh) = None).
  { apply Extends_linked; [done|done|]. intros x [= <-] Hp. rewrite (proj2 (Z.ltb_lt _ _) Hp) in EL. cbn in EL.
    apply bool_decide_eq_false in EL. by apply dec_stable. }
  assert (HS : starts g (contents w)) by (exists ""; by rewrite append_nil_r).
  apply on_error_inv in H as [([] & H & ->)|(w1 & e & H & [= <- <-])]; apply (appendLocal_inv cfg _ g) in H as (HG & HD & HO & HE); try done.
  - split_and!; try apply HG; try done. intros _. specialize (HO eq_refl). unfold contents at 1. rewrite HO, Hg, overlay_end. by split_and!.
  - split_and!; try apply HG; try done. intros e' _ HT HX. destruct (HE ltac:(eauto) HT HX); congruence.
Qed.

Lemma push_or_undo_inv fresh g w w' r :
  push_or_undo cfg fresh (String.length g) w = (w', r) → contents w = g +:+ Encode fresh → (fresh ≠ [] → local w ≠ None) →
  (r = Ok () ∧ pushExternalLocked cfg false w = (w', Ok ())) ∨
  ((∃ e, r = Err e) ∧ logs w w' ∧ (OpTruncate ∉ failed w' → contents w' = g)).
Proof.
  unfold push_or_undo. intros H Hc Hn. apply on_error_inv in H as [([] & H & ->)|(w1 & e & H1 & H)]; [by left|right].
  pose proof (push_keeps_local cfg false _ _ _ H1) as [HL HG]. destruct fresh as [|f fresh].
  - injection H as <- <-. cbn [Encode] in Hc. rewrite append_nil_r in Hc. unfold contents in *. rewrite HL. split_and!; try apply HG; by eauto.
  - destruct (local w) as [s|] eqn:El; [|by destruct Hn]. unfold contents in Hc. rewrite El in Hc. change (s = g +:+ Encode (f :: fresh)) in Hc.
    apply (restored g) with (s := s) in H as (HG2 & _ & -> & HT); [|done|rewrite Hc; by eexists].
    split_and!; [by eauto|by etrans|]. intros Hf. unfold contents. by rewrite (HT Hf).
Qed.

Lemma Commit_inv es w w' r :
  Commit cfg es w = (w', r) → es ≠ [] → Forall typed es →
  ((∃ e, r = Err e) ∧ (OpTruncate ∉ failed w' → OpClose ∉ failed w' → held w' = held w)) ∨
  (r = Ok () ∧ ∃ fresh w3 n, fresh `sublist_of` es ∧
     (∀ e, e ∈ es → e ∈ fresh ∨ Hash <$> held w !! Z.to_nat (Seq e - 1) = Some (Hash e)) ∧
     ParseChain (contents w3) = mkParse (held w ++ fresh) true false None n ∧
     dest w3 = dest w ∧ logs w w3 ∧ pushExternalLocked cfg false w3 = (w', Ok ())).
Proof.
  unfold Commit. intros H Hne HT.
  apply ST_bind_inv in H as [(w0 & m & [-> _]%the_dest_inv & H)|(e & [-> _]%the_dest_inv & ->)]; [|left; by eauto].
  destruct es as [|e0 es0]; [done|]. set (es := e0 :: es0) in *. clearbody es.
  apply ST_bind_inv in H as [(w1 & cur & H1 & H)|(e & H1 & ->)].
  2: { unfold ReadLocal, try, mbind, ST_bind in H1. by destruct (readFile w). }
  pose proof (ReadLocal_keeps_local cfg _ _ _ H1) as [L1 G1]. pose proof (ReadLocal_keeps_dest cfg _ _ _ H1) as [D1 _].
  assert (C1 : contents w1 = contents w) by (unfold contents; by rewrite L1).
  assert (HK : held w1 = held w) by (unfold held; by rewrite C1).
  destruct (Reach cur) eqn:ER; [injection H as <- <-; left; by eauto|].
  cbv zeta in H. destruct (Err_ (parse_of cur)) eqn:EE; [injection H as <- <-; left; by eauto|].
  destruct (ReadLocal_inv _ _ _ H1 ER EE) as (HEn & HErr & HTorn & HVal).
  destruct (valid_part (contents w) HErr) as (g & t & Hc & Hlen & Ht & Htorn & Hext). rewrite <- HVal in Hlen. rewrite <- HTorn in Htorn.
  assert (Hg : Entries (ParseChain g) = held w).
  { pose proof (valid_part_whole g _ [] Hext eq_refl (Forall_nil_2 _)) as HX. cbn [Encode] in HX. rewrite append_nil_r in HX. rewrite HX. cbn. by rewrite app_nil_r. }
  assert (HU : ∀ x, contents x = g → held x = held w) by (intros x Hx; unfold held; by rewrite Hx).
  apply ST_bind_inv in H as [(w2 & [] & H2 & H)|(e & H2 & ->)].
  2: { left. split; [by eauto|]. intros Hn _. destruct (Torn (parse_of cur)); [|done].
    apply on_error_inv in H2 as [(? & _ & ?)|(w2 & e2 & H2 & [= <- <-])]; [done|].
    apply Truncate_inv in H2 as (_ & _ & HX & _). specialize (HX Hn). unfold contents in C1, Hc. rewrite L1 in HX.
    destruct (local w) as [s|]; [by destruct (HX s eq_refl)|]. cbn in Hc. destruct g, t; try done. }
  assert (HC2 : contents w2 = g ∧ dest w2 = dest w ∧ logs w w2).
  { destruct (Torn (parse_of cur)).
    - apply on_error_inv in H2 as [([] & H2 & _)|(? & ? & _ & [=])]. apply Truncate_inv in H2 as (G2 & D2 & _ & HX).
      split_and!; [|congruence|by etrans..]. specialize (HX eq_refl). unfold contents in Hc |- *. rewrite HX, L1.
      rewrite <- Hlen. destruct (local w) as [s|]; [|by destruct g]. cbn in Hc |- *. rewrite Hc. apply str_take_app.
    - injection H2 as <-. symmetry in Htorn. apply negb_false_iff, empty_true in Htorn as ->. rewrite append_nil_r in Hc.
      split_and!; [congruence|congruence|apply G1..]. }
  destruct HC2 as (C2 & D2 & G2).
  destruct (fresh_entries (parse_of cur) es) as [fresh|] eqn:EF; [|injection H as <- <-; left; by eauto].
  apply fresh_entries_inv in EF as [HSub HIn]. destruct (_ && _); [injection H as <- <-; left; by eauto|].
  apply ST_bind_inv in H as [(w3 & [] & H3 & H)|(e & H3 & ->)]; apply (append_fresh_inv _ _ g) in H3 as (G3 & D3 & HO & HE); try done;
    try (rewrite HEn; apply held_ok).
  2: { left. split; [by eauto|]. intros. apply HU. by eapply HE. }
  destruct (HO eq_refl) as (C3 & HL3 & HN3). rewrite <- Hlen in H. apply push_or_undo_inv in H as [[-> H]|([e ->] & _ & HX)]; try done.
  - right. split; [done|]. eexists fresh, w3, _. split_and!; try done; [| |congruence|etrans; [exact G2|exact G3]..].
    + intros e He. destruct (HIn e He) as [?|Hh]; [by left|right]. unfold entry_hash in Hh. by rewrite HEn in Hh.
    + rewrite C3. apply (valid_part_whole _ _ _ Hext); [by rewrite HEn in HL3|]. by eapply Forall_sub.
  - left. split; [by eauto|]. intros Hn _. apply HU. by apply HX.
Qed.

(** The second copy is in step with the file: its note describes the ledger of the file,
    and the object it names has the bytes that were meant. *)
Definition in_step (w : world) : Prop :=
  ∃ m info s, dest w = Some m ∧ m !! ExternalHead = Some (head_json info) ∧
    describes cfg info (ParseChain (contents w)) (contents w) ∧ m !! Object info = Some s ∧ sha256 s = ObjectSHA256 info.

Lemma push_in_step force w w' :
  pushExternalLocked cfg force w = (w', Ok ()) → Torn (ParseChain (contents w)) = false → contents w' = contents w ∧ in_step w'.
Proof.
  intros H HT. pose proof (push_keeps_local cfg force _ _ _ H) as [HL _]. apply push_inv in H as (file & plain & m & info & s & Hf & _ & Hp & Hd & Hn & HD & Ho & HS).
  assert (HC : contents w' = contents w) by (unfold contents; by rewrite HL). split; [done|]. unfold in_step. rewrite HC.
  assert (HF : contents w = file) by (unfold contents; by rewrite Hf). rewrite HF in *. rewrite HT in Hp. subst plain. by exists m, info, s.
Qed.

(** Every entry is held under its number with its hash. *)
Definition recorded (es : list Entry) (w : world) : Prop :=
  ∀ e, e ∈ es → Hash <$> held w !! Z.to_nat (Seq e - 1) = Some (Hash e).

Lemma Commit_ok es w w' :
  Commit cfg es w = (w', Ok ()) → es ≠ [] → Forall typed es →
  (∃ fresh, fresh `sublist_of` es ∧ held w' = (held w ++ fresh)%list) ∧ recorded es w' ∧ in_step w'.
Proof.
  intros H Hne HT. destruct (Commit_inv _ _ _ _ H Hne HT) as [[[? [=]] _]|(_ & fresh & w3 & n & HS & HI & HP & _ & _ & HX)].
  apply push_in_step in HX as [HC HX]; [|by rewrite HP]. assert (HH : held w' = (held w ++ fresh)%list).
  { unfold held at 1. rewrite HC, HP. done. }
  split_and!; [by exists fresh| |done]. intros e He. destruct (HI e He) as [Hf|Hh].
  - assert (e ∈ held w') as [i Hi]%list_elem_of_lookup by (rewrite HH; apply elem_of_app; by right).
    destruct (held_ok w') as [HC' HT']. rewrite (chain_Seq _ _ _ HC' HT' Hi). replace (Z.to_nat (Z.of_nat (S i) - 1)) with i by lia. by rewrite Hi.
  - rewrite HH. destruct (held w !! _) as [x|] eqn:Ex; [|done]. by rewrite (lookup_app_l_Some _ _ _ _ Ex).
Qed.

(** A commit that reports success is durable in both places, whatever failed on the
    way.  The appliance's file parses to what it held before followed by the entries it
    did not hold yet, every committed entry is there under its number with its hash,
    and the secondary storage holds the object of exactly this file and a note that
    names the ledger, the last number and the last hash. *)
Theorem commit_durable (es : list Entry) (w w' : world) :
  Commit cfg es w = (w', Ok ()) → es ≠ [] → Forall typed es →
  (∃ fresh, fresh `sublist_of` es ∧ held w' = (held w ++ fresh)%list) ∧ recorded es w' ∧ in_step w'.
Proof. apply Commit_ok. Qed.

(** A commit that reports an error leaves the appliance's ledger as it was.  Whatever
    failed, the file parses to the entries it held before, also when it had been
    extended or held an unfinished line, provided that cutting the file and closing it
    were not themselves what failed. *)
Theorem failed_commit_undone (es : list Entry) (e : store_error) (w w' : world) :
  Commit cfg es w = (w', Err e) → Forall typed es → OpTruncate ∉ failed w' → OpClose ∉ failed w' → held w' = held w.
Proof.
  intros H HT Hn Hc. destruct (decide (es = [])) as [->|Hne].
  - unfold Commit in H. apply ST_bind_inv in H as [(w1 & m & _ & [=])|(e' & [-> _]%the_dest_inv & _)]. done.
  - destruct (Commit_inv _ _ _ _ H Hne HT) as [[_ HX]|([=] & _)]. by apply HX.
Qed.

(** C20. An erasure is reported only when it is recorded.  When the request that erases
    reports success, its transaction committed and every entry it wrote is in both
    copies of the ledger.  When it reports an error, nothing was committed, unless the
    database committed and its answer was lost. *)
Theorem erasure_reported_when_recorded (x : erasure) (db db' es : list Entry) (w w' : world) (ok : bool) :
  ledgerQueryAfter cfg x db w = (w', db', ok) → statements x = Some es → es ≠ [] → Forall typed es →
  if ok then db' = (db ++ es)%list ∧ recorded es w' ∧ in_step w' else db' = db ∨ tx_ends x = TxInDoubt.
Proof.
  unfold ledgerQueryAfter. intros H Hs Hne HT. destruct (prepared x); [|injection H as <- <- <-; by left]. rewrite Hs in H. cbn [negb] in H.
  destruct es as [|e0 es0]; [done|]. set (es := e0 :: es0) in *. clearbody es.
  destruct (Commit cfg es w) as [w1 [[]|e]] eqn:EC; [|injection H as <- <- <-; by left].
  destruct (answered x); [|injection H as <- <- <-; by left]. destruct (confirmed x); [|injection H as <- <- <-; by left]. cbn [negb] in H.
  destruct (tx_ends x); injection H as <- <- <-; [|by left|by right]. destruct (Commit_ok _ _ _ EC Hne HT) as (_ & HR & HI). done.
Qed.
End commit.
