(* ===== verification/ErasureNote.v ===== *)
(** The note at the secondary storage says how far the erasure ledger had gone.  Without
    force it only moves forward (ErasureStore). *)
From S2P Require Import Prelude GoStrings GoText ErasureLedger ErasureProofs ErasureStore ErasureStoreProofs.

(** No write to the storage puts something else in place. *)
Definition ungarbled (w : world) : Prop := Forall (λ f, match f with Garbled _ => False | _ => True end) (fates w).

Section note.
Context {L : LedgerLib} (cfg : Config).

(** A note that can be read and is not known to be someone else's. *)
Definition readable (h : HeadInfo) : Prop :=
  Object h ≠ "" ∧ (MACKey cfg = "" ∨ hi_Mac h = "" ∨ hi_Mac h = HeadMAC (MACKey cfg) h).
Definition noted (w : world) (h : HeadInfo) : Prop :=
  ∃ m hb, dest w = Some m ∧ m !! ExternalHead = Some hb ∧ head_decode hb = Some h ∧ readable h.

(** The same ledger, and at least as far. *)
Definition not_before (h h' : HeadInfo) : Prop :=
  hi_Ledger h' = hi_Ledger h ∧ hi_Seq h ≤ hi_Seq h' ∧ (hi_Seq h' = hi_Seq h → hi_Hash h' = hi_Hash h).

(** Where nothing failed to be read and nothing was garbled, the note moved forward. *)
Definition onward (w w' : world) : Prop :=
  logs w w' ∧ (ungarbled w → OpGet ∉ failed w' →
    ∀ h, noted w h → 0 < hi_Seq h → ∃ h', noted w' h' ∧ not_before h h').

#[local] Instance not_before_refl : Reflexive not_before.
Proof. by intros h. Qed.
#[local] Instance not_before_trans : Transitive not_before.
Proof.
  intros x y z (? & ? & H1) (? & ? & H2). split_and!; [congruence|lia|]. intros.
  assert (hi_Seq z = hi_Seq y ∧ hi_Seq y = hi_Seq x) as [?%H2 ?%H1] by lia. congruence.
Qed.

Lemma logs_ungarbled w w' : logs w w' → ungarbled w → ungarbled w'.
Proof. intros [_ [k Hk]]. unfold ungarbled. rewrite Hk, Forall_app. by intros [_ ?]. Qed.

#[local] Instance onward_refl : Reflexive onward.
Proof. intros w. split; [done|]. intros _ _ h Hh _. by exists h. Qed.
#[local] Instance onward_trans : Transitive onward.
Proof.
  intros x y z [G1 H1] [G2 H2]. split; [by etrans|]. intros Hu Hn h Hh Hp.
  destruct (H1 Hu (logs_notin _ _ _ G2 Hn) h Hh Hp) as (h1 & Hh1 & HB1).
  destruct (H2 (logs_ungarbled _ _ G1 Hu) Hn h1 Hh1) as (h2 & Hh2 & HB2); [destruct HB1 as (_ & ? & _); lia|].
  exists h2. split; [done|by etrans].
Qed.

Lemma keeps_dest_onward {A} (m : IO A) : preserves keeps_dest m → preserves onward m.
Proof.
  intros Hm w w' r [HD HG]%Hm. split; [done|]. intros _ _ h (m0 & hb & Hh) _. exists h. split; [|done]. exists m0, hb. by rewrite HD.
Qed.

Lemma Get_good name w w' r m :
  Get name w = (w', r) → dest w = Some m → OpGet ∉ failed w' → r = match m !! name with Some s => Ok s | None => Err ErrNotFound end.
Proof.
  unfold Get. intros H HD Hn.
  apply ST_bind_inv in H as [(w1 & [] & (_ & D1 & _)%plain_op_inv & H)|(e & (_ & D1 & _ & HO)%plain_op_inv & _)]; [|by specialize (HO Hn)].
  unfold the_dest, gets, mbind, ST_bind in H. rewrite D1, HD in H. cbn in H. by destruct (m !! name); injection H as <- <-.
Qed.

(** A note that can be read stops a push that would set it back. *)
Lemma guard_stops p w w' r h :
  guard_external cfg p w = (w', r) → noted w h → OpGet ∉ failed w' →
  r = match ahead_or_forked p h with Some e => Err e | None => Ok () end.
Proof.
  intros H (m & hb & HD & Hb & Hh & HO & HM) Hn. unfold guard_external in H. apply try_bind_inv in H as (w1 & x & E & H).
  assert (HF : failed w' = failed w1) by (destruct x as [[[? ?]|]|]; [destruct (ahead_or_forked p _)|..]; by injection H as <- _).
  rewrite HF in Hn. enough (∃ b, x = Ok (Some (h, b))) as [b ->] by (destruct (ahead_or_forked p h); by injection H as _ <-).
  clear H HF. unfold readExternalHead in E. apply try_bind_inv in E as (w2 & y & E2 & E).
  pose proof (Get_keeps_dest _ _ _ _ E2) as [D2 _].
  assert (Hy : y = Ok hb).
  { rewrite (Get_good _ _ _ _ _ E2 HD); [by rewrite Hb|]. destruct y as [hb'|[]]; try (by injection E as <- _).
    destruct (head_decode hb'); [|by injection E as <- _]. destruct (empty _); [by injection E as <- _|].
    destruct (_ && _); [by injection E as <- _|]. apply try_bind_inv in E as (w3 & o & [_ G3]%Get_keeps_dest & E).
    eapply logs_notin; [exact G3|]. destruct o as [|[]]; by injection E as <- _. }
  subst y. rewrite Hh in E. rewrite (proj2 (empty_false _) HO) in E.
  assert (HX : negb (empty (MACKey cfg)) && negb (empty (hi_Mac h)) && bool_decide (hi_Mac h ≠ HeadMAC (MACKey cfg) h) = false).
  { destruct HM as [->|[->|HM]]; [done|by rewrite andb_false_r|]. by rewrite (bool_decide_false (_ ≠ _)), andb_false_r by tauto. }
  rewrite HX in E. apply try_bind_inv in E as (w3 & o & E3 & E). assert (Hn3 : OpGet ∉ failed w3) by (destruct o as [|[]]; by injection E as <- _).
  rewrite (Get_good _ _ _ _ _ E3 ltac:(by rewrite D2) Hn3) in E. destruct (m !! Object h); injection E as _ <-; by eauto.
Qed.

Lemma ahead_or_forked_none p h : ahead_or_forked p h = None → 0 < hi_Seq h →
  LedgerID p = hi_Ledger h ∧ hi_Seq h ≤ (Head p).1 ∧ ((Head p).1 = hi_Seq h → (Head p).2 = hi_Hash h).
Proof.
  unfold ahead_or_forked. destruct (Head p) as [seq hash]. cbn. intros H Hp. destruct (decide (hi_Ledger h = LedgerID p)) as [HL|HL].
  - rewrite (bool_decide_true _ HL) in H. cbn in H. destruct (Z.ltb_spec seq (hi_Seq h)); [done|]. split_and!; [done|lia|]. intros ->.
    rewrite Z.eqb_refl in H. cbn in H. destruct (bool_decide_reflect (hi_Hash h ≠ hash)) as [|Hh]; [done|]. by apply dec_stable in Hh.
  - rewrite (bool_decide_false _ HL), (bool_decide_true (_ ≠ _) HL), (proj2 (Z.ltb_lt _ _) Hp) in H. done.
Qed.

(** The time and the fingerprint of the key holders are text. *)
Definition cfg_ok : Prop :=
  ValidString (now_text cfg) = true ∧ match Cipher cfg with WithCipher _ fp => ValidString fp = true | _ => True end.

Lemma note_typed file seq hash obj name enc fp plain :
  Head (ParseChain file) = (seq, hash) → ValidString name = true → ValidString fp = true → ValidString (now_text cfg) = true →
  typed_head (with_mac cfg (mkHeadInfo (LedgerID (ParseChain file)) seq hash (Z.of_nat (length (Entries (ParseChain file))))
    (sha256 plain) name (sha256 obj) enc fp (now_text cfg) "")).
Proof.
  intros HH Hn Hf Ht. destruct (ParseChain_chain file) as [HC HT]. unfold LedgerID, Head in *.
  pose proof (chain_head _ HC HT) as HL. assert (HS : ∀ x, ValidString (sha256 x) = true) by (intros; apply ascii_valid, sha256_ascii).
  assert (HM : ∀ k h, ValidString (HeadMAC k h) = true) by (intros; apply ascii_valid, hmac_ascii).
  destruct (last (Entries _)) as [e|] eqn:E.
  - destruct (Entries (ParseChain file)) as [|x es] eqn:Ee; [done|]. cbn in HL. injection HL as HL. injection HH as <- <-.
    assert (typed e ∧ typed x) as [He Hx].
    { rewrite Forall_forall in HT. split; apply HT; [by apply list_elem_of_lookup; eexists; rewrite <- last_lookup|by left]. }
    destruct He as (Hse & _ & He), Hx as (_ & _ & Hx). rewrite !Forall_cons in He, Hx. unfold typed_head. cbn.
    split_and!; [done|cbn in HL |- *; by rewrite <- HL|]. rewrite !Forall_cons. split_and!; try done; try apply HS; try apply He; try apply Hx.
    by destruct (empty (MACKey cfg)).
  - apply last_None in E. rewrite E in *. injection HH as <- <-. unfold typed_head. cbn. split_and!; [done..|].
    rewrite !Forall_cons. split_and!; try done; try apply HS. by destruct (empty (MACKey cfg)).
Qed.

Lemma with_mac_readable h : Object h ≠ "" → readable (with_mac cfg h).
Proof.
  intros HO. split; [done|]. cbn. destruct (empty (MACKey cfg)) eqn:E; [left; by apply empty_true|]. right; right. done.
Qed.

(** The note of a push can be read back. *)
Lemma prepare_note file plain w w' obj name info :
  cfg_ok → prepare_push cfg (ParseChain file) plain w = (w', Ok (obj, name, info)) → head_decode (head_json info) = Some info ∧ readable info.
Proof.
  intros [Ht Hf]. unfold prepare_push. destruct (Head _) as [seq hash] eqn:EH. destruct (Cipher cfg) as [| |enc fp]; [done|..]; intros [= <- <- <- <-];
    (split; [apply head_decode_json, note_typed; try done|by apply with_mac_readable]).
Qed.

(** The writes of one push: the note stays or becomes [info]. *)
Definition toward (info : HeadInfo) (w w' : world) : Prop :=
  logs w w' ∧ (ungarbled w → ∀ h, noted w h → ∃ h', noted w' h' ∧ (h' = h ∨ h' = info)).

#[local] Instance toward_refl info : Reflexive (toward info).
Proof. intros w. split; [done|]. intros _ h Hh. exists h. auto. Qed.
#[local] Instance toward_trans info : Transitive (toward info).
Proof.
  intros x y z [G1 H1] [G2 H2]. split; [by etrans|]. intros Hu h Hh. destruct (H1 Hu h Hh) as (h1 & Hh1 & HB1).
  destruct (H2 (logs_ungarbled _ _ G1 Hu) h1 Hh1) as (h2 & Hh2 & HB2). exists h2. naive_solver.
Qed.
Lemma keeps_dest_toward {A} info (m : IO A) : preserves keeps_dest m → preserves (toward info) m.
Proof.
  intros Hm w w' r [HD HG]%Hm. split; [done|]. intros _ h (m0 & hb & Hh). exists h. split; [|auto]. exists m0, hb. by rewrite HD.
Qed.

Lemma dest_toward info w w' (g : gmap string string → gmap string string) :
  logs w w' → (∀ m, dest w = Some m → dest w' = Some m ∨ dest w' = Some (g m)) →
  (∀ m, g m !! ExternalHead = m !! ExternalHead ∨
        (g m !! ExternalHead = Some (head_json info) ∧ head_decode (head_json info) = Some info ∧ readable info)) →
  toward info w w'.
Proof.
  intros HG HD Hg. split; [done|]. intros _ h (m & hb & Hm & Hb & Hh). destruct (HD m Hm) as [HD'|HD'].
  - exists h. split; [|auto]. by exists m, hb.
  - destruct (Hg m) as [HE|(HE & Hdec & HR)]; [exists h|exists info]; (split; [|auto]).
    + exists (g m), hb. by rewrite HE.
    + by exists (g m), (head_json info).
Qed.

Lemma Put_toward info name data :
  name ≠ ExternalHead ∨ (data = head_json info ∧ head_decode (head_json info) = Some info ∧ readable info) →
  preserves (toward info) (Put name data).
Proof.
  intros Hn w w' r H. unfold Put in H. destruct (next OpPut w) as [w1 x] eqn:E1. pose proof E1 as E1'.
  apply next_keeps in E1' as (_ & D1 & G1 & f & -> & _).
  assert (HU : ungarbled w → ∀ s, f ≠ Garbled s).
  { intros Hu s ->. unfold next in E1. injection E1 as _ E1. unfold ungarbled in Hu. destruct (fates w) as [|f0 fs]; [done|].
    cbn in E1. subst f0. by apply Forall_cons in Hu as [? _]. }
  unfold mbind, ST_bind in H. rewrite E1 in H. unfold the_dest, gets, mbind, ST_bind in H. destruct (dest w1) as [m|] eqn:Ed.
  - assert (HT : ungarbled w → toward info w w').
    { intros Hu. apply (dest_toward _ _ _ (λ m, <[name := data]> m)).
      - etrans; [exact G1|]. destruct f; cbn in H; injection H as <- _; done.
      - intros m' Hm'. assert (m' = m) as -> by congruence.
        destruct f; cbn in H; injection H as <- _; auto. by destruct (HU Hu s).
      - intros m'. destruct (decide (name = ExternalHead)) as [->|]; [|left; by rewrite lookup_insert_ne].
        destruct Hn as [|(-> & ? & ?)]; [done|]. right. by rewrite lookup_insert_eq. }
    split; [etrans; [exact G1|]; destruct f; cbn in H; injection H as <- _; done|]. intros Hu. by apply HT.
  - injection H as <- _. split; [done|]. intros _ h (m & hb & Hm & _). congruence.
Qed.

Lemma Remove_toward info name : name ≠ ExternalHead → preserves (toward info) (ignore (Remove name)).
Proof.
  intros Hn w w' r H. pose proof (preserves_ignore logs (Remove name) (λ _ _ _ H, proj2 (Remove_keeps_local name _ _ _ H)) _ _ _ H) as HG.
  apply (dest_toward _ _ _ (delete name)); [done| |].
  - intros m Hm. by apply (Remove_inv name _ _ _ m) in H as [_ H].
  - intros m. left. by rewrite lookup_delete_ne.
Qed.

Lemma push_onward : cfg_ok → preserves onward (pushExternalLocked cfg false).
Proof.
  intros Hok w w' r H. unfold pushExternalLocked in H.
  apply ST_bind_inv in H as [(w1 & m1 & [-> _]%the_dest_inv & H)|(e & [-> _]%the_dest_inv & _)]; [|reflexivity].
  apply ST_bind_inv in H as [(w2 & c & H2%(keeps_dest_onward _ readFile_keeps_dest) & H)|(e & H2%(keeps_dest_onward _ readFile_keeps_dest) & _)]; [|done].
  etrans; [exact H2|]. clear H2. destruct c as [file|]; [|by injection H as <- _]. cbv zeta in H.
  destruct (Err_ (ParseChain file)); [by injection H as <- _|]. destruct (Entries (ParseChain file)) as [|x0 xs]; [by injection H as <- _|].
  apply ST_bind_inv in H as [(w3 & [] & H3 & H)|(e & H3%(keeps_dest_onward _ (guard_keeps_dest cfg _)) & _)]; [|done].
  pose proof (guard_keeps_dest cfg _ _ _ _ H3) as [D3 G3].
  apply ST_bind_inv in H as [(w4 & [[obj name] info] & H4 & H)|(e & H4 & _)].
  2: { unfold prepare_push in H4. destruct (Head _), (Cipher cfg); try done. injection H4 as <- _. split; [done|]. intros _ _ h (m & hb & Hh) _.
       exists h. split; [|done]. exists m, hb. by rewrite D3. }
  destruct (prepare_note _ _ _ _ _ _ _ Hok H4) as [Hdec HR]. apply prepare_inv in H4 as (-> & -> & -> & (HL & HH & _ & _ & HO) & HN).
  assert (HT : toward info w3 w').
  { revert H. generalize r. apply preserves_bind; [apply _|apply Put_toward; by left|]. intros _.
    apply preserves_bind; [apply _|apply keeps_dest_toward, Get_keeps_dest|]. intros back. case_decide; [apply preserves_fail, _|].
    apply preserves_bind; [apply _|apply Put_toward; by right|]. intros _.
    apply preserves_bind; [apply _|apply preserves_try, keeps_dest_toward, Get_keeps_dest|]. intros hb. case_decide; [apply preserves_fail, _|].
    apply Remove_toward. by case_decide. }
  destruct HT as [G4 HT]. split; [by etrans|]. intros Hu Hn h Hh Hp.
  pose proof (guard_stops _ _ _ _ _ H3 Hh (logs_notin _ _ _ G4 Hn)) as HA. destruct (ahead_or_forked _ h) eqn:EA; [done|].
  destruct (ahead_or_forked_none _ _ EA Hp) as (A1 & A2 & A3). rewrite <- HH in A2, A3. cbn in A2, A3.
  destruct (HT (logs_ungarbled _ _ G3 Hu) h) as (h' & Hh' & [->| ->]).
  - destruct Hh as (m & hb & Hh). exists m, hb. by rewrite D3.
  - by exists h.
  - exists info. split; [done|]. split_and!; [congruence|done|done].
Qed.

(** What the appliance does with the ledger without force. *)
Inductive unforced := DoCommit (es : list Entry) | DoPush | DoAppend (es : list Entry) | DoRewrite (es : list Entry).
Definition run1 (o : unforced) : IO () :=
  match o with
  | DoCommit es => Commit cfg es
  | DoPush => PushExternal cfg
  | DoAppend es => AppendLocal cfg es
  | DoRewrite es => RewriteLocal es
  end.
Definition run (ops : list unforced) (w : world) : world := foldl (λ w o, (run1 o w).1) w ops.

Lemma Commit_onward es : cfg_ok → preserves onward (Commit cfg es).
Proof.
  intros Hok. pose proof (push_onward Hok). unfold Commit, push_or_undo, the_dest.
  pose proof (λ n, keeps_dest_onward _ (Truncate_keeps_dest n)). pose proof (keeps_dest_onward _ (ReadLocal_keeps_dest cfg)).
  pose proof (λ p f, keeps_dest_onward _ (append_fresh_keeps_dest cfg p f)). keeps_tac.
Qed.

Lemma run1_onward o : cfg_ok → preserves onward (run1 o).
Proof.
  intros Hok. destruct o; cbn [run1].
  - by apply Commit_onward.
  - by apply push_onward.
  - apply keeps_dest_onward, AppendLocal_keeps_dest.
  - apply keeps_dest_onward, RewriteLocal_keeps_dest.
Qed.

Lemma run_onward ops w : cfg_ok → onward w (run ops w).
Proof.
  intros Hok. revert w. induction ops as [|o ops IH]; intros w; [reflexivity|]. transitivity (run1 o w).1; [|apply IH].
  destruct (run1 o w) as [w1 r] eqn:E. by eapply run1_onward.
Qed.

(** C14. Without force the secondary copy is never set back.  Over any sequence of
    commits, pushes, appends and rewrites of the appliance's ledger, with any failures
    other than a read of the storage, a note that can be read and is this appliance's
    stays or is replaced by a note of the same ledger that reaches at least as far,
    with the same hash if it reaches exactly as far. *)
Theorem note_never_set_back (ops : list unforced) (w : world) (h : HeadInfo) :
  cfg_ok → ungarbled w → OpGet ∉ failed (run ops w) → noted w h → 0 < hi_Seq h →
  ∃ h', noted (run ops w) h' ∧ not_before h h'.
Proof. intros Hok Hu Hn Hh Hp. destruct (run_onward ops w Hok) as [_ HO]. by apply HO. Qed.
End note.
