(* ===== verification/ErasureSample.v ===== *)
(** Concrete ledgers for the theorems on the erasure ledger: an instance of [LedgerLib]
    that computes, a short ledger, its copies, a restore, and runs of the store. *)
From S2P Require Import Prelude GoStrings GoText ErasureLedger ErasureProofs ErasureStore ErasureStoreProofs ErasureCommit ErasureNote.

(** ** A small codec *)

Definition bit0 : Ascii.ascii := Ascii.ascii_of_nat 48.
Definition bit1 : Ascii.ascii := Ascii.ascii_of_nat 49.
Definition last_bit : Ascii.ascii := Ascii.ascii_of_nat 46.

Fixpoint bits (p : positive) : string :=
  match p with xH => String last_bit "" | xO p => String bit0 (bits p) | xI p => String bit1 (bits p) end.
Fixpoint unbits (s : string) : option positive :=
  match s with
  | EmptyString => None
  | String c s' => if decide (c = bit0) then xO <$> unbits s' else if decide (c = bit1) then xI <$> unbits s'
                   else if decide (c = last_bit) then if empty s' then Some xH else None else None
  end.

Lemma unbits_bits p : unbits (bits p) = Some p.
Proof. induction p as [p IH|p IH|]; cbn [bits unbits]; [by rewrite decide_False, decide_True, IH by done|by rewrite decide_True, IH by done|done]. Qed.
Lemma bits_ascii p : is_ascii (bits p) = true.
Proof. induction p as [p IH|p IH|]; [exact IH|exact IH|done]. Qed.
Lemma bits_lacks c p : c ≠ bit0 → c ≠ bit1 → c ≠ last_bit → lacks c (bits p) = true.
Proof. intros H0 H1 H2. induction p as [p IH|p IH|]; cbn [bits lacks]; rewrite ?IH, ?bool_decide_true by done; done. Qed.
Lemma bits_ne p : bits p ≠ "".
Proof. by destruct p. Qed.

(** A checksum in place of SHA-256. *)
Definition checksum (s : string) : positive :=
  N.succ_pos (foldl (λ h c, (h * 257 + Ascii.N_of_ascii c + 1) mod 1048573)%N 7%N (String.list_ascii_of_string s)).

#[local] Instance typed_dec e : Decision (typed e).
Proof. unfold typed, in_int64. apply _. Defined.

Definition to_positives (e : Entry) : list positive :=
  [encode (Ledger e); encode (Seq e); encode (Prev e); encode (Kind e); encode (Tenant e); encode (Site e); encode (AtUS e);
   encode (Body e); encode (Hash e); encode (Mac e)].
Definition of_positives (l : list positive) : option Entry :=
  match l with
  | [a; b; c; d; e; f; g; h; i; j] =>
      Ledger ← decode a; Seq ← decode b; Prev ← decode c; Kind ← decode d; Tenant ← decode e; Site ← decode f; AtUS ← decode g;
      Body ← decode h; Hash ← decode i; Mac ← decode j; Some (mkEntry Ledger Seq Prev Kind Tenant Site AtUS Body Hash Mac)
  | _ => None
  end.
Lemma of_to_positives e : of_positives (to_positives e) = Some e.
Proof. destruct e. cbn. by rewrite !decode_encode. Qed.

Definition head_positives (h : HeadInfo) : list positive :=
  [encode (hi_Ledger h); encode (hi_Seq h); encode (hi_Hash h); encode (hi_Entries h); encode (PlainSHA256 h); encode (Object h);
   encode (ObjectSHA256 h); encode (Encrypted h); encode (CipherFP h); encode (UpdatedAt h); encode (hi_Mac h)].
Definition of_head_positives (l : list positive) : option HeadInfo :=
  match l with
  | [a; b; c; d; e; f; g; h; i; j; k] =>
      Ledger ← decode a; Seq ← decode b; Hash ← decode c; Entries ← decode d; Plain ← decode e; Object ← decode f; Sum ← decode g;
      Enc ← decode h; FP ← decode i; At ← decode j; Mac ← decode k; Some (mkHeadInfo Ledger Seq Hash Entries Plain Object Sum Enc FP At Mac)
  | _ => None
  end.
Lemma of_head_positives_ok h : of_head_positives (head_positives h) = Some h.
Proof. destruct h. cbn. by rewrite !decode_encode. Qed.

Definition sample_entry_json (e : Entry) : string := bits (positives_flatten (to_positives e)).
Definition sample_entry_decode (s : string) : option Entry :=
  p ← unbits s; l ← positives_unflatten p; e ← of_positives l; if decide (typed e) then Some e else None.

Definition of_seal_positives (l : list positive) : option (Z * string) :=
  match l with [a; b] => n ← decode a; h ← decode b; Some (n, h) | _ => None end.

#[export] Instance sampleLib : LedgerLib.
Proof.
  refine {| sha256 m := bits (checksum m); hmac k m := bits (checksum (k +:+ m));
    entry_json := sample_entry_json; entry_decode := sample_entry_decode;
    head_json h := bits (positives_flatten (head_positives h));
    head_decode s := p ← unbits s; l ← positives_unflatten p; of_head_positives l;
    seal_decode s := p ← unbits s; l ← positives_unflatten p; of_seal_positives l |}; intros.
  - apply bits_ascii.
  - by apply bits_lacks.
  - apply bits_ne.
  - apply bits_ascii.
  - apply bits_ne.
  - by apply bits_lacks.
  - unfold sample_entry_decode in *. repeat (apply bind_Some in H as (? & ? & H)). case_decide; by simplify_eq.
  - unfold sample_entry_decode, sample_entry_json. rewrite unbits_bits. cbn [mbind option_bind].
    rewrite positives_unflatten_flatten. cbn [mbind option_bind]. rewrite of_to_positives. cbn [mbind option_bind]. by rewrite decide_True.
  - rewrite unbits_bits. cbn [mbind option_bind]. rewrite positives_unflatten_flatten. cbn [mbind option_bind]. apply of_head_positives_ok.
Defined.

(** ** A ledger of three erasures and its copies *)

Definition sample_key : string := "key".
Definition make_entry (seq : Z) (prev body : string) : Entry :=
  let bare := mkEntry "ledger-1" seq prev "erasure" "tenant" "site" 1700000000000000 body "" "" in
  mkEntry "ledger-1" seq prev "erasure" "tenant" "site" 1700000000000000 body (ComputeHash bare) (EntryMAC sample_key (ComputeHash bare)).
Definition e1 : Entry := Eval vm_compute in make_entry 1 GenesisPrev "guest 1".
Definition e2 : Entry := Eval vm_compute in make_entry 2 (Hash e1) "guest 2".
Definition e3 : Entry := Eval vm_compute in make_entry 3 (Hash e2) "guest 3".
Definition sample_ledger : list Entry := [e1; e2; e3].

Lemma sample_typed : Forall typed sample_ledger.
Proof. apply (bool_decide_unpack _). vm_compute. done. Qed.

Lemma sample_clean : Forall clean sample_ledger.
Proof. repeat constructor. Qed.

(** Cut in the middle of its third line. *)
Definition torn_file : string := Eval vm_compute in str_take (String.length (Encode [e1; e2]) + 40) (Encode sample_ledger).

Lemma torn_write_is_prefix_witness :
  chain sample_ledger ∧
  (∃ rest, torn_file +:+ rest = Encode sample_ledger) ∧
  ∃ n t, (n ≤ 3)%nat ∧ torn_file = Encode (take n sample_ledger) +:+ t ∧ Entries (ParseChain torn_file) = take n sample_ledger.
Proof.
  assert (HC : chain sample_ledger) by (vm_compute; reflexivity).
  pose (rest := str_drop (String.length torn_file) (Encode sample_ledger)).
  assert (HE : torn_file +:+ rest = Encode sample_ledger) by (vm_compute; reflexivity).
  split; [exact HC|]. split; [exists rest; exact HE|].
  destruct (torn_write_is_prefix sample_ledger torn_file rest HC sample_typed HE) as [_ (n & t & Hn & Hd & HP)].
  exists n, t. split; [exact Hn|]. split; [exact Hd|]. rewrite HP. reflexivity.
Defined.

(** The appliance's copy is complete, the other one ends one entry earlier; the backup
    holds the first entry and the live database knew of three. *)
Definition parsed (es : list Entry) : Parse := mkParse es true false None (len (Encode es)).
Definition sample_restore : restore_inputs :=
  mkRestoreInputs (Some (mkLedgerHead true true "ledger-1" 1 (Hash e1))) (Some (mkLedgerHead true true "ledger-1" 3 (Hash e3))) []
    (mkCopy "local" true false (Some (parsed sample_ledger))) (mkCopy "external" true false (Some (parsed [e1; e2])))
    sample_key None (λ _, true) (λ _ _, true) (λ _, Some (mkLedgerHead true true "ledger-1" 3 (Hash e3))).

(** Both copies are intact and agree, and the longer one is offered. *)
Lemma assess_exact_witness :
  let copies := [local_copy sample_restore; external_copy sample_restore] in
  Complete (Assess copies []) = true ∧ reliable copies [] (local_copy sample_restore) ∧
  entry_hash (parse_of (local_copy sample_restore)) 2 = Some (Hash e2).
Proof.
  destruct (assess_exact (local_copy sample_restore) (external_copy sample_restore) []) as [_ H].
  - intros _. vm_compute. reflexivity.
  - intros _. vm_compute. reflexivity.
  - destruct (H (local_copy sample_restore)) as (HR & _ & HE); [vm_compute; reflexivity|]. split; [vm_compute; reflexivity|]. split; [exact HR|].
    apply (HE (external_copy sample_restore)); [right; left|vm_compute; reflexivity].
Defined.

Lemma restore_redoes_every_erasure_witness :
  restoreLedgerApply sample_restore = Applied [e2; e3] false ∧
  ((∃ es, own_history sample_ledger es ∧ [e2; e3] = drop 1 es ∧
     ∀ w, w ∈ restore_witnesses sample_restore (mkLedgerHead true true "ledger-1" 1 (Hash e1)) → 1 < w_Seq w →
       w_Seq w ≤ Z.of_nat (length es) ∧ (w_Hash w = "" ∨ Hash <$> es !! Z.to_nat (w_Seq w - 1) = Some (w_Hash w))) ∨
   (∃ c, c ∈ [local_copy sample_restore; external_copy sample_restore] ∧ collide sample_ledger (Entries (parse_of c)))).
Proof.
  assert (HA : restoreLedgerApply sample_restore = Applied [e2; e3] false) by (vm_compute; reflexivity).
  split; [exact HA|].
  assert (Hcopies : ∀ c, c ∈ [local_copy sample_restore; external_copy sample_restore] → as_read c ∧
    ∀ k, k = live_key sample_restore ∨ escrow_key sample_restore = Some k → unforged k sample_ledger (Entries (parse_of c))).
  { intros c Hc.
    assert (HS : ∀ es, es ∈ [sample_ledger; [e1; e2]] → chain es ∧ Forall typed es ∧ ∀ e, e ∈ es → e ∈ sample_ledger).
    { intros es Hes. apply elem_of_cons in Hes as [->|Hes]; [|apply list_elem_of_singleton in Hes as ->].
      - split_and!; [vm_compute; reflexivity|exact sample_typed|done].
      - split_and!; [vm_compute; reflexivity|exact (Forall_take _ 2 _ sample_typed)|set_solver]. }
    assert (HX : Entries (parse_of c) ∈ [sample_ledger; [e1; e2]] ∧ Reach c = false).
    { apply elem_of_cons in Hc as [->|Hc]; [|apply list_elem_of_singleton in Hc as ->]; (split; [set_solver|reflexivity]). }
    destruct HX as [HX HR]. destruct (HS _ HX) as (H1 & H2 & H3). split; [split_and!; [done|done|by rewrite HR]|].
    intros k _ e He _. exists e. auto. }
  refine (restore_redoes_every_erasure sample_restore (mkLedgerHead true true "ledger-1" 1 (Hash e1)) sample_ledger [e2; e3] false
    _ sample_typed sample_clean _ _ Hcopies eq_refl eq_refl _ _ _ HA).
  - vm_compute. reflexivity.
  - done.
  - done.
  - done.
  - by vm_compute.
  - intros _. vm_compute. reflexivity.
Defined.

(** ** Runs of the store *)

Definition sample_cfg : Config := mkConfig sample_key NoCipher "2026-01-01T00:00:00Z".
(** The first entry is in both places; the file also holds the second and a fragment. *)
Definition pushed_first : world := Eval vm_compute in (PushExternal sample_cfg (mkWorld (Some (Encode [e1])) (Some ∅) [] [])).1.
Definition behind (fs : list fate) : world := mkWorld (Some torn_file) (dest pushed_first) fs [].

Lemma sample_pair_typed : Forall typed [e2; e3].
Proof. exact (Forall_drop _ 1 _ sample_typed). Qed.

Definition committed : world := Eval vm_compute in (Commit sample_cfg [e2; e3] (behind [])).1.
Lemma committed_ok : Commit sample_cfg [e2; e3] (behind []) = (committed, Ok ()).
Proof. vm_compute. reflexivity. Qed.

Lemma commit_durable_witness :
  recorded [e2; e3] committed ∧ in_step sample_cfg committed ∧ held committed = sample_ledger.
Proof.
  destruct (commit_durable sample_cfg [e2; e3] (behind []) committed committed_ok ltac:(done) sample_pair_typed) as (_ & HR & HI).
  split; [exact HR|]. split; [exact HI|]. vm_compute. reflexivity.
Defined.

Definition sample_erasure : erasure := mkErasure true (Some [e2; e3]) true true TxCommitted.

Lemma erasure_reported_when_recorded_witness :
  ledgerQueryAfter sample_cfg sample_erasure [e1] (behind []) = (committed, sample_ledger, true) ∧
  sample_ledger = ([e1] ++ [e2; e3])%list ∧ recorded [e2; e3] committed ∧ in_step sample_cfg committed.
Proof.
  assert (HQ : ledgerQueryAfter sample_cfg sample_erasure [e1] (behind []) = (committed, sample_ledger, true)) by (vm_compute; reflexivity).
  split; [exact HQ|].
  exact (erasure_reported_when_recorded sample_cfg sample_erasure [e1] sample_ledger [e2; e3] (behind []) committed true HQ eq_refl
    ltac:(done) sample_pair_typed).
Defined.

(** The storage refuses the object after the file was extended. *)
Definition refused : world := Eval vm_compute in (Commit sample_cfg [e2; e3] (behind (replicate 11 Good ++ [Refused]))).1.

Lemma failed_commit_undone_witness :
  Commit sample_cfg [e2; e3] (behind (replicate 11 Good ++ [Refused])) = (refused, Err (ExternalError ErrIO)) ∧
  held refused = held (behind (replicate 11 Good ++ [Refused])).
Proof.
  assert (HC : Commit sample_cfg [e2; e3] (behind (replicate 11 Good ++ [Refused])) = (refused, Err (ExternalError ErrIO)))
    by (vm_compute; reflexivity).
  split; [exact HC|].
  refine (failed_commit_undone sample_cfg [e2; e3] _ _ refused HC sample_pair_typed _ _); apply (bool_decide_unpack _); vm_compute; exact I.
Defined.

(** The note is written but cannot be read back: the commit fails and the file is put
    back, while the storage holds the new entries. *)
Definition unread : world := Eval vm_compute in (Commit sample_cfg [e2; e3] (behind (replicate 14 Good ++ [Refused]))).1.

Lemma failed_commit_leaves_storage_ahead :
  Commit sample_cfg [e2; e3] (behind (replicate 14 Good ++ [Refused])) = (unread, Err (ExternalError ErrNotReadBack)) ∧
  length (held unread) = 2%nat ∧ hi_Seq <$> (dest unread ≫= λ d, d !! ExternalHead ≫= head_decode) = Some 3.
Proof. vm_compute. done. Qed.

(** Three entries are committed, the file is then set back to the first and pushed. *)
Definition set_back : list unforced := [DoCommit [e2; e3]; DoRewrite [e1]; DoPush].
Definition first_note : HeadInfo := Eval vm_compute in
  default (mkHeadInfo "" 0 "" 0 "" "" "" false "" "" "") (dest pushed_first ≫= λ d, d !! ExternalHead ≫= head_decode).

Lemma note_never_set_back_witness :
  (length (held (run sample_cfg set_back pushed_first)) = 1%nat) ∧
  ∃ h', noted sample_cfg (run sample_cfg set_back pushed_first) h' ∧ not_before first_note h'.
Proof.
  split; [vm_compute; reflexivity|].
  refine (note_never_set_back sample_cfg set_back pushed_first first_note _ _ _ _ _).
  - split; [vm_compute; reflexivity|exact I].
  - constructor.
  - apply (bool_decide_unpack _). vm_compute. exact I.
  - eexists _, _. split; [reflexivity|]. split; [vm_compute; reflexivity|]. split; [vm_compute; reflexivity|]. split; [done|].
    right. right. vm_compute. reflexivity.
  - done.
Defined.
