(* ===== verification/ErasureDb.v ===== *)
(** The erasure ledger in the database: the tables erasure_ledger, ledger_meta and
    ledger_mac_key of the SQL baseline and the functions over them.

    Rows are kept in the order of their number, which is the order they are inserted in.
    Columns that are NULL only in [mac] are empty text there.  The checks on the shape
    of hashes and codes are left out: every hash and code that is inserted was computed
    by sha256 or hmac just before.  What an entry does to the guest tables is the
    parameter [replay].  Advisory locks order the transactions.  The setting of the
    secondary storage, which [ledger_reset] also clears, is left out. *)
From S2P Require Import Prelude GoStrings GoText ErasureLedger ErasureProofs.

(** What PostgreSQL does with the texts: the cast to uuid and back, the two members of
    the body of a seal, the text of such a body (which Go reads back). *)
Class LedgerSql {L : LedgerLib} : Type := {
  cast_uuid : string → option string;
  sql_seal : string → option (Z * string);
  seal_text : Z → string → string;
  guest_tables : Type;
  replay : Entry → guest_tables → option guest_tables;
  cast_uuid_ok s u : cast_uuid s = Some u → u ≠ "" ∧ ValidString u = true;
  sql_seal_text n h : sql_seal (seal_text n h) = Some (n, h);
  seal_decode_text n h : seal_decode (seal_text n h) = Some (n, h);
  seal_text_valid n h : ValidString h = true → ValidString (seal_text n h) = true
}.

Record LRow := mkLRow { lr_entry : Entry; lr_confirmed : bool }.
Record LedgerDB := mkLedgerDB { ledger_id : string; rows : list LRow; mac_key : option string }.

Inductive sql_error := UnknownKind | NoKey | ReceiptInvalid | StillPending | BadKey | OutOfRange | BadUuid.

Definition quote (s : string) : string := String (Ascii.ascii_of_nat 34) (s +:+ String (Ascii.ascii_of_nat 34) "").
Definition nil_uuid : string := "00000000-0000-0000-0000-000000000000".
Definition append_kinds : list string := ["erase"; "request_answered"; "assisted_closed"; "checkpoint"; "seal"].
Definition ledger_kind : list string := "genesis" :: append_kinds.

Section db.
Context {L : LedgerLib} {Q : LedgerSql}.

Definition entries_of (d : LedgerDB) : list Entry := lr_entry <$> rows d.
Definition confirmed_rows (d : LedgerDB) : list Entry := lr_entry <$> filter (λ r, lr_confirmed r = true) (rows d).

(** ** Keys and codes *)

Definition ledger_mac_key_ensure (random : string) (d : LedgerDB) : LedgerDB :=
  match mac_key d with Some _ => d | None => mkLedgerDB (ledger_id d) (rows d) (Some random) end.
Definition ledger_mac_key_get (random : string) (d : LedgerDB) : LedgerDB * string :=
  let d := ledger_mac_key_ensure random d in (d, default "" (mac_key d)).

Definition ledger_mac_of (d : LedgerDB) (hash : string) : option string := (λ k, EntryMAC k hash) <$> mac_key d.
Definition ledger_mac_ok (d : LedgerDB) (hash code : string) : bool :=
  negb (empty code) && bool_decide (ledger_mac_of d hash = Some code).
Definition ledger_receipt_of (d : LedgerDB) (hash : string) : option string := (λ k, Receipt k hash) <$> mac_key d.

(** A key is 32 bytes; another key is refused once an entry carries a code. *)
Definition ledger_mac_key_install (key : string) (d : LedgerDB) : res sql_error (LedgerDB * bool) :=
  if negb (len key =? 32) then Err BadKey
  else if decide (mac_key d = Some key) then Ok (d, true)
  else if existsb (λ e, negb (empty (Mac e))) (entries_of d) then Ok (d, false)
  else Ok (mkLedgerDB (ledger_id d) (rows d) (Some key), true).

(** ** Appending and confirming *)

Definition head_row (es : list Entry) : Z * string := match last es with Some e => (Seq e, Hash e) | None => (0, GenesisPrev) end.

Definition ledger_append (random : string) (now : Z) (tenant site kind body : string) (d : LedgerDB) : res sql_error (LedgerDB * Entry) :=
  if negb (bool_decide (kind ∈ append_kinds)) then Err UnknownKind
  else
    let d := ledger_mac_key_ensure random d in
    let '(seq, prev) := head_row (entries_of d) in
    if two63 <=? seq + 1 then Err OutOfRange
    else
      let bare := mkEntry (ledger_id d) (seq + 1) prev kind tenant site now body "" "" in
      let hash := ComputeHash bare in
      match ledger_mac_of d hash with
      | None => Err NoKey
      | Some code =>
          let e := mkEntry (ledger_id d) (seq + 1) prev kind tenant site now body hash code in
          Ok (mkLedgerDB (ledger_id d) (rows d ++ [mkLRow e false])%list (mac_key d), e)
      end.

Definition confirm_hash (hashes : list string) (r : LRow) : LRow :=
  if bool_decide (Hash (lr_entry r) ∈ hashes) then mkLRow (lr_entry r) true else r.
Definition newly (hashes : list string) (r : LRow) : bool := negb (lr_confirmed r) && bool_decide (Hash (lr_entry r) ∈ hashes).

Definition ledger_confirm (hashes : list string) (d : LedgerDB) : LedgerDB * Z :=
  (mkLedgerDB (ledger_id d) (confirm_hash hashes <$> rows d) (mac_key d), Z.of_nat (length (filter (λ r, newly hashes r = true) (rows d)))).

(** The loop over the hashes and their receipts. *)
Fixpoint confirm_loop (n : Z) (pairs : list (string * string)) (d : LedgerDB) : res sql_error (LedgerDB * Z) :=
  match pairs with
  | [] => Ok (d, n)
  | (h, receipt) :: pairs' =>
      if decide (ledger_receipt_of d h ≠ Some receipt) then Err ReceiptInvalid
      else let '(d', k) := ledger_confirm [h] d in confirm_loop (n + k) pairs' d'
  end.

Definition ledger_confirm_checked (hashes receipts : list string) (d : LedgerDB) : res sql_error LedgerDB :=
  if bool_decide (length hashes ≠ length receipts) || bool_decide (hashes = []) then Err ReceiptInvalid
  else
    '(d', n) ← confirm_loop 0 (zip hashes receipts) d;
    if n =? Z.of_nat (length hashes) then Ok d' else Err ReceiptInvalid.

Definition ledger_export (from : Z) (d : LedgerDB) : list Entry := filter (λ e, from < Seq e) (confirmed_rows d).
Definition ledger_pending (d : LedgerDB) : list Entry := lr_entry <$> filter (λ r, lr_confirmed r = false) (rows d).

Record ledger_head_doc := mkHeadDoc { hd_ledger : string; hd_seq : Z; hd_hash : string; hd_at_us : Z; hd_unconfirmed : Z }.
Definition ledger_head (d : LedgerDB) : ledger_head_doc :=
  let un := Z.of_nat (length (ledger_pending d)) in
  match last (confirmed_rows d) with
  | None => mkHeadDoc (ledger_id d) 0 "" 0 un
  | Some h => mkHeadDoc (ledger_id d) (Seq h) (Hash h) (AtUS h) un
  end.

(** Each confirmed row against the one before it. *)
Fixpoint rows_verify (before : option Entry) (es : list Entry) : bool :=
  match es with
  | [] => true
  | e :: es' =>
      bool_decide (ComputeHash e = Hash e)
      && (match before with
          | None => (Seq e =? 1) && bool_decide (Prev e = GenesisPrev)
          | Some p => (Seq e =? Seq p + 1) && bool_decide (Prev e = Hash p)
          end)
      && rows_verify (Some e) es'
  end.
Definition ledger_verify (d : LedgerDB) : bool * Z := (rows_verify None (confirmed_rows d), Z.of_nat (length (confirmed_rows d))).

(** ** Sealing and starting again *)

Definition ledger_seal_legacy (random : string) (now : Z) (tenant site : string) (d : LedgerDB) : res sql_error (LedgerDB * option Entry) :=
  match ledger_pending d with
  | _ :: _ => Err StillPending
  | [] =>
      match last (filter (λ e, Mac e = "") (entries_of d)) with
      | None => Ok (d, None)
      | Some a =>
          if existsb (λ e, bool_decide (Kind e = KindSeal) && ledger_mac_ok d (Hash e) (Mac e) &&
                           match sql_seal (Body e) with Some (n, _) => Seq a <=? n | None => false end) (entries_of d)
          then Ok (d, None)
          else '(d', e) ← ledger_append random now tenant site KindSeal (seal_text (Seq a) (Hash a)) d; Ok (d', Some e)
      end
  end.

Definition ledger_reset (id : string) (now : Z) (d : LedgerDB) : LedgerDB :=
  let body := "{" +:+ quote "note" +:+ ": " +:+ quote "ledger created" +:+ "}" in
  let bare := mkEntry id 1 GenesisPrev "genesis" nil_uuid nil_uuid now body "" "" in
  mkLedgerDB id [mkLRow (mkEntry id 1 GenesisPrev "genesis" nil_uuid nil_uuid now body (ComputeHash bare) "") true] (mac_key d).

(** ** Applying entries (public.ledger_apply) *)

Inductive conflict_why := AnotherLedger | EntryDiffers | DoesNotContinue | CodeWrong | NotCovered.
Record apply_answer := mkAnswer { applied : Z; already_known : Z; ap_failed : option Z; ap_conflict : option (Z * conflict_why) }.

Definition cast_entry (e : Entry) : option Entry :=
  l ← cast_uuid (Ledger e); t ← cast_uuid (Tenant e); s ← cast_uuid (Site e);
  Some (mkEntry l (Seq e) (Prev e) (Kind e) t s (AtUS e) (Body e) (Hash e) (Mac e)).

Definition seq_le (a b : Entry) : Prop := Seq a ≤ Seq b.
#[export] Instance seq_le_dec a b : Decision (seq_le a b) := decide (Seq a ≤ Seq b).

(** The database adopts another appliance's ledger when it holds nothing but its own
    first entry. *)
Definition adopt_ledger (first : option Entry) (d : LedgerDB) : LedgerDB :=
  match first with
  | Some f => if bool_decide (Seq f = 1) && bool_decide (Ledger f ≠ ledger_id d) && bool_decide (length (rows d) = 1%nat)
              then mkLedgerDB (Ledger f) [] (mac_key d) else d
  | None => d
  end.

(** The strongest seal that checks, of those given and those held. *)
Definition strongest_seal (d : LedgerDB) (es : list Entry) : option (Z * string) :=
  foldl (λ best e,
    if bool_decide (Kind e = KindSeal) && ledger_mac_ok d (Hash e) (Mac e) then
      match sql_seal (Body e), best with
      | Some (n, h), Some (m, _) => if m <? n then Some (n, h) else best
      | Some (n, h), None => Some (n, h)
      | None, _ => best
      end
    else best) None (es ++ entries_of d)%list.

Definition covered (leg : option (Z * string)) (e : Entry) : bool :=
  match leg with
  | Some (n, h) => (Seq e <=? n) && ((Seq e <? n) || bool_decide (Hash e = h))
  | None => false
  end.

Definition stored_hash (d : LedgerDB) (n : Z) : option string := Hash <$> head (filter (λ e, Seq e = n) (entries_of d)).

Definition replay_entry (e : Entry) (g : guest_tables) : option guest_tables :=
  if bool_decide (Kind e ∈ ["erase"; "request_answered"; "assisted_closed"]) then replay e g else Some g.

(** Replaying and inserting one entry; [None] when a statement fails. *)
Definition apply_one (e : Entry) (s : LedgerDB * guest_tables) : option (LedgerDB * guest_tables) :=
  g ← replay_entry e s.2;
  if bool_decide (Kind e ∈ ledger_kind) then Some (mkLedgerDB (ledger_id s.1) (rows s.1 ++ [mkLRow e true])%list (mac_key s.1), g) else None.

Definition entry_conflict (leg : option (Z * string)) (hs : Z) (hh : string) (d : LedgerDB) (e : Entry) : option conflict_why :=
  if decide (Seq e ≠ hs + 1 ∨ Prev e ≠ hh ∨ ComputeHash e ≠ Hash e) then Some DoesNotContinue
  else if negb (empty (Mac e)) then if ledger_mac_ok d (Hash e) (Mac e) then None else Some CodeWrong
  else if covered leg e then None else Some NotCovered.

Fixpoint apply_loop (leg : option (Z * string)) (es : list Entry) (hs : Z) (hh : string) (n known : Z) (s : LedgerDB * guest_tables) :
    LedgerDB * guest_tables * apply_answer :=
  match es with
  | [] => (s, mkAnswer n known None None)
  | e :: es' =>
      if decide (Ledger e ≠ ledger_id s.1) then (s, mkAnswer n known None (Some (Seq e, AnotherLedger)))
      else if Seq e <=? hs then
        if decide (stored_hash s.1 (Seq e) ≠ Some (Hash e)) then (s, mkAnswer n known None (Some (Seq e, EntryDiffers)))
        else apply_loop leg es' hs hh n (known + 1) s
      else match entry_conflict leg hs hh s.1 e with
           | Some why => (s, mkAnswer n known None (Some (Seq e, why)))
           | None =>
               match apply_one e s with
               | None => (s, mkAnswer n known (Some (Seq e)) None)
               | Some s' => apply_loop leg es' (Seq e) (Hash e) (n + 1) known s'
               end
           end
  end.

Definition ledger_apply (entries : list Entry) (adopt : bool) (s : LedgerDB * guest_tables) :
    res sql_error (LedgerDB * guest_tables * apply_answer) :=
  match mapM cast_entry entries with
  | None => Err BadUuid
  | Some es =>
      let es := merge_sort seq_le es in
      let d := if adopt then adopt_ledger (head es) s.1 else s.1 in
      let '(hs, hh) := head_row (entries_of d) in
      Ok (apply_loop (strongest_seal d es) es hs hh 0 0 (d, s.2))
  end.

(** ** Transactions on the ledger *)

Record append_args := mkAppend { ap_random : string; ap_now : Z; ap_tenant : string; ap_site : string; ap_kind : string; ap_body : string }.
Definition append_with (a : append_args) : LedgerDB → res sql_error (LedgerDB * Entry) :=
  ledger_append (ap_random a) (ap_now a) (ap_tenant a) (ap_site a) (ap_kind a) (ap_body a).
Fixpoint append_all (l : list append_args) (d : LedgerDB) : res sql_error LedgerDB :=
  match l with [] => Ok d | a :: l' => '(d', _) ← append_with a d; append_all l' d' end.

(** What may end in COMMIT: edged's erasures, which present scd's receipts; scd's own
    entry (the daily checkpoint) and seal; the replay of a copy; the start of a new
    ledger; the key of a restored ledger.  The receipts are whatever was presented. *)
Inductive ledger_tx :=
| TxErase (l : list append_args) (receipts : list string)
| TxOwn (a : append_args)
| TxSeal (a : append_args)
| TxApply (entries : list Entry) (adopt : bool)
| TxReset (id : string) (now : Z)
| TxInstall (key : string).

Definition confirm_own (d : LedgerDB) (e : Entry) : LedgerDB := (ledger_confirm [Hash e] d).1.

Definition tx_body (t : ledger_tx) (s : LedgerDB * guest_tables) : res sql_error (LedgerDB * guest_tables) :=
  match t with
  | TxErase l receipts =>
      d ← append_all l s.1;
      match ledger_pending d with
      | [] => Ok (d, s.2)
      | es => d' ← ledger_confirm_checked (Hash <$> es) receipts d; Ok (d', s.2)
      end
  | TxOwn a => '(d, e) ← append_with a s.1; Ok (confirm_own d e, s.2)
  | TxSeal a =>
      '(d, e) ← ledger_seal_legacy (ap_random a) (ap_now a) (ap_tenant a) (ap_site a) s.1;
      Ok (match e with Some e => confirm_own d e | None => d end, s.2)
  | TxApply entries adopt => '(s', _) ← ledger_apply entries adopt s; Ok s'
  | TxReset id now => Ok (ledger_reset id now s.1, s.2)
  | TxInstall key => '(d, _) ← ledger_mac_key_install key s.1; Ok (d, s.2)
  end.

(** An error rolls the transaction back. *)
Definition run_tx (s : LedgerDB * guest_tables) (t : ledger_tx) : LedgerDB * guest_tables :=
  match tx_body t s with Ok s' => s' | Err _ => s end.
End db.
