(* ===== verification/ErasureDbProofs.v ===== *)
(** The ledger in the database (ErasureDb) is a chain that only grows, every entry of it
    is authenticated, and the database's check is the appliance's. *)
From S2P Require Import Prelude GoStrings GoText ErasureLedger ErasureProofs ErasureDb.

Lemma sublist_elem {A} (l k : list A) x : l `sublist_of` k → x ∈ l → x ∈ k.
Proof. induction 1; set_solver. Qed.

Section dbproofs.
Context {L : LedgerLib} {Q : LedgerSql}.

(** ** Well-formed ledgers *)

Definition vouched (k : option string) (e : Entry) : Prop := Mac e = "" ∨ ∃ key, k = Some key ∧ Mac e = EntryMAC key (Hash e).

Record wf (d : LedgerDB) : Prop := {
  wf_chain : chain (entries_of d);
  wf_typed : Forall typed (entries_of d);
  wf_id : Forall (λ e, Ledger e = ledger_id d) (entries_of d);
  wf_name : ledger_id d ≠ "" ∧ ValidString (ledger_id d) = true;
  wf_vouched : Forall (vouched (mac_key d)) (entries_of d)
}.

Lemma entries_of_snoc d r : entries_of (mkLedgerDB (ledger_id d) (rows d ++ [r])%list (mac_key d)) = (entries_of d ++ [lr_entry r])%list.
Proof. unfold entries_of. cbn. by rewrite fmap_app. Qed.

Lemma chain_snoc es e : chain es → checkLink (last es) e = None → chain (es ++ [e])%list.
Proof.
  intros HC HE. unfold chain. rewrite linked_app. split; [done|].
  replace (match last es with Some x => Some x | None => None end) with (last es) by (by destruct (last es)). cbn. by rewrite HE.
Qed.

(** An entry that continues the head of a well-formed ledger can be added to it. *)
Lemma continues_link d e :
  wf d → typed e → Seq e = (head_row (entries_of d)).1 + 1 → Prev e = (head_row (entries_of d)).2 → ComputeHash e = Hash e →
  Ledger e = ledger_id d → Kind e ≠ "" → checkLink (last (entries_of d)) e = None.
Proof.
  intros [HC HT HI [HN _] _] HTe HS HP HH HL HK. unfold head_row in *.
  assert (Hpos : 1 ≤ Seq e).
  { destruct (last _) as [p|] eqn:E; [|cbn in HS; lia]. rewrite last_lookup in E. pose proof (chain_Seq _ _ _ HC HT E). cbn in HS. lia. }
  unfold checkLink. rewrite (proj2 (Z.ltb_ge _ _)) by lia.
  rewrite (proj2 (empty_false (Hash e))) by (rewrite <- HH; apply sha256_ne).
  rewrite (proj2 (empty_false (Ledger e))) by congruence. rewrite (proj2 (empty_false (Kind e))) by done. cbn [orb].
  destruct (last (entries_of d)) as [p|] eqn:E; cbn in HS, HP.
  - rewrite wrap64_id by (rewrite <- HS; apply HTe). rewrite HS, Z.eqb_refl. cbn [negb].
    assert (HLp : Ledger p = ledger_id d).
    { rewrite Forall_forall in HI. apply HI. rewrite last_lookup in E. by eapply list_elem_of_lookup_2. }
    rewrite !(decide_False (P := _ ≠ _)) by (intros HX; apply HX; congruence). done.
  - rewrite HS, HP, Z.eqb_refl, bool_decide_false by (intros HX; by apply HX). cbn. by rewrite decide_False by (intros HX; by apply HX).
Qed.

Lemma wf_snoc d e b :
  wf d → typed e → Seq e = (head_row (entries_of d)).1 + 1 → Prev e = (head_row (entries_of d)).2 → ComputeHash e = Hash e →
  Ledger e = ledger_id d → Kind e ≠ "" → vouched (mac_key d) e →
  wf (mkLedgerDB (ledger_id d) (rows d ++ [mkLRow e b])%list (mac_key d)).
Proof.
  intros HW HTe HS HP HH HL HK HV. pose proof (continues_link _ _ HW HTe HS HP HH HL HK). destruct HW.
  constructor; rewrite ?entries_of_snoc; cbn [lr_entry ledger_id mac_key]; try done; [by apply chain_snoc|..];
    apply Forall_app; (split; [done|by constructor]).
Qed.

Lemma ensure_id random d : ledger_id (ledger_mac_key_ensure random d) = ledger_id d ∧ rows (ledger_mac_key_ensure random d) = rows d.
Proof. unfold ledger_mac_key_ensure. by destruct (mac_key d). Qed.

Lemma wf_ensure random d : wf d → wf (ledger_mac_key_ensure random d).
Proof.
  unfold ledger_mac_key_ensure. destruct (mac_key d) eqn:E; [done|]. intros [HC HT HI HN HV]. constructor; try done.
  cbn. eapply Forall_impl; [exact HV|]. intros e [?|(k & Hk & _)]; [by left|congruence].
Qed.

(** ** Appending *)

Lemma kind_text k : k ∈ ledger_kind → k ≠ "" ∧ ValidString k = true.
Proof. revert k. apply Forall_forall. by repeat constructor. Qed.

Lemma entry_typed_hash e h : typed e → typed (mkEntry (Ledger e) (Seq e) (Prev e) (Kind e) (Tenant e) (Site e) (AtUS e) (Body e) (sha256 h) (Mac e)).
Proof.
  intros (? & ? & HF). split_and!; try done. rewrite !Forall_cons in *. cbn in *. split_and!; try apply HF. apply ascii_valid, sha256_ascii.
Qed.

Lemma head_row_typed es : chain es → Forall typed es → 0 ≤ (head_row es).1 < two63 ∧ ValidString (head_row es).2 = true.
Proof.
  intros HC HT. unfold head_row. destruct (last es) as [p|] eqn:E; [|done]. rewrite last_lookup in E.
  pose proof (chain_Seq _ _ _ HC HT E). rewrite Forall_lookup in HT. destruct (HT _ _ E) as (HS & _ & HF). unfold in_int64 in HS.
  rewrite !Forall_cons in HF. cbn. split; [lia|apply HF].
Qed.

Lemma append_inv random now tenant site kind body d d' e :
  ledger_append random now tenant site kind body d = Ok (d', e) → wf d →
  in_int64 now → Forall (λ s, ValidString s = true) [tenant; site; body] →
  wf d' ∧ rows d' = (rows d ++ [mkLRow e false])%list ∧ ledger_id d' = ledger_id d ∧ Kind e = kind ∧ Body e = body ∧
  ∃ k, mac_key d' = Some k ∧ (mac_key d = None ∨ mac_key d = Some k) ∧ EntryOK k e = true.
Proof.
  unfold ledger_append. destruct (bool_decide_reflect (kind ∈ append_kinds)) as [Hk|]; [|done]. cbn [negb].
  set (d1 := ledger_mac_key_ensure random d). intros H HW Hn HF. pose proof (wf_ensure random d HW) as HW1. fold d1 in HW1.
  destruct (ensure_id random d) as [Hid Hrows]. fold d1 in Hid, Hrows.
  pose proof (head_row_typed _ (wf_chain _ HW1) (wf_typed _ HW1)) as [Hs Hp].
  destruct (head_row (entries_of d1)) as [seq prev] eqn:EH. destruct (Z.leb_spec two63 (seq + 1)); [done|].
  assert (HM : ∃ k, mac_key d1 = Some k ∧ (mac_key d = None ∨ mac_key d = Some k)).
  { unfold d1, ledger_mac_key_ensure. destruct (mac_key d) as [k|] eqn:E; [exists k; rewrite E; auto|exists random; auto]. }
  destruct HM as (k & HM & HM'). unfold ledger_mac_of in H. rewrite HM in H. cbn [fmap option_fmap option_map] in H.
  cbn in Hs, Hp. injection H as <- <-. split_and!; try done; [|by cbn; rewrite Hrows|exists k; split_and!; try done].
  - rewrite <- HM. apply wf_snoc; cbn; rewrite ?EH; try done.
    + rewrite !Forall_cons in HF. split_and!; [split; cbn; unfold two63 in *; lia|done|]. rewrite !Forall_cons. cbn.
      split_and!; try apply HF; try done; [apply (wf_name _ HW1)|by apply kind_text; right|apply ascii_valid, sha256_ascii|apply ascii_valid, hmac_ascii].
    + by apply kind_text; right.
    + right. by exists k.
  - unfold EntryOK. cbn. rewrite !(proj2 (empty_false _)), bool_decide_true; [done|done|apply sha256_ne|apply hmac_ne].
Qed.

(** ** Applying *)

Lemma vouched_ok d e : vouched (mac_key d) e → Mac e ≠ "" → ledger_mac_ok d (Hash e) (Mac e) = true.
Proof.
  intros [?|(k & Hk & Hm)] Hne; [done|]. unfold ledger_mac_ok, ledger_mac_of. rewrite Hk, (proj2 (empty_false _) Hne). cbn.
  by rewrite bool_decide_true by (by rewrite Hm).
Qed.
Lemma ok_vouched d e : ledger_mac_ok d (Hash e) (Mac e) = true → vouched (mac_key d) e.
Proof.
  unfold ledger_mac_ok, ledger_mac_of. intros [_ HB%bool_decide_eq_true]%andb_true_iff. destruct (mac_key d) as [k|]; [|done].
  right. exists k. split; [done|]. by injection HB.
Qed.

Lemma apply_one_inv leg e s s' :
  apply_one e s = Some s' → wf s.1 → typed e → Ledger e = ledger_id s.1 →
  entry_conflict leg (head_row (entries_of s.1)).1 (head_row (entries_of s.1)).2 s.1 e = None →
  wf s'.1 ∧ rows s'.1 = (rows s.1 ++ [mkLRow e true])%list ∧ ledger_id s'.1 = ledger_id s.1 ∧ mac_key s'.1 = mac_key s.1.
Proof.
  unfold apply_one, entry_conflict. destruct (replay_entry e s.2) as [g|]; [|done]. cbn.
  destruct (bool_decide_reflect (Kind e ∈ ledger_kind)) as [Hk|]; [|done]. intros [= <-] HW HT HL HC. case_decide as Hd; [done|].
  assert (Seq e = (head_row (entries_of s.1)).1 + 1 ∧ Prev e = (head_row (entries_of s.1)).2 ∧ ComputeHash e = Hash e) as (H1 & H2 & H3).
  { split_and!; apply dec_stable; tauto. }
  cbn. split_and!; try done. apply wf_snoc; try done.
  - by apply kind_text.
  - destruct (empty (Mac e)) eqn:Em; [left; by apply empty_true|]. cbn in HC. destruct (ledger_mac_ok _ _ _) eqn:Eo; [|done]. by apply ok_vouched.
Qed.

(** The ledger has an entry of this number and hash. *)
Definition holds (d : LedgerDB) (e : Entry) : Prop := ∃ x, x ∈ entries_of d ∧ Seq x = Seq e ∧ Hash x = Hash e.

Lemma stored_holds d e : stored_hash d (Seq e) = Some (Hash e) → holds d e.
Proof.
  unfold stored_hash. intros H. apply fmap_Some in H as (x & Hx & Hh).
  assert (x ∈ filter (λ x, Seq x = Seq e) (entries_of d)) as [? ?]%list_elem_of_filter by (by destruct (filter _ _); [|injection Hx as ->; left]).
  by exists x.
Qed.

(** Rows are only added. *)
Definition grown (d d' : LedgerDB) (new : list Entry) : Prop :=
  rows d' = (rows d ++ ((λ e, mkLRow e true) <$> new))%list ∧ ledger_id d' = ledger_id d ∧ mac_key d' = mac_key d.

Lemma grown_entries d d' new : grown d d' new → entries_of d' = (entries_of d ++ new)%list.
Proof.
  intros (HR & _). unfold entries_of. rewrite HR, fmap_app. f_equal. rewrite <- list_fmap_compose. rewrite <- (list_fmap_id new) at 2. done.
Qed.
Lemma grown_holds d d' new e : grown d d' new → holds d e → holds d' e.
Proof. intros HG (x & Hx & ?). exists x. rewrite (grown_entries _ _ _ HG). split; [apply elem_of_app; by left|done]. Qed.
Lemma grown_refl d : grown d d [].
Proof. unfold grown. cbn. by rewrite app_nil_r. Qed.

Lemma apply_loop_inv leg es hs hh n known s s' a :
  apply_loop leg es hs hh n known s = (s', a) → wf s.1 → head_row (entries_of s.1) = (hs, hh) → Forall typed es →
  wf s'.1 ∧ ∃ new, grown s.1 s'.1 new ∧ new `sublist_of` es ∧
    (ap_failed a = None → ap_conflict a = None → ∀ e, e ∈ es → holds s'.1 e).
Proof.
  revert hs hh n known s. induction es as [|e es IH]; intros hs hh n known s H HW HH HT; cbn [apply_loop] in H.
  { injection H as <- <-. split; [done|]. exists []. split_and!; [apply grown_refl|done|]. by intros _ _ e ?%elem_of_nil. }
  assert (HN : ∀ r, (s, r) = (s', a) → (ap_failed r ≠ None ∨ ap_conflict r ≠ None) → wf s'.1 ∧ ∃ new, grown s.1 s'.1 new ∧
      new `sublist_of` e :: es ∧ (ap_failed a = None → ap_conflict a = None → ∀ x, x ∈ e :: es → holds s'.1 x)).
  { intros r [= <- <-] Hr. split; [done|]. exists []. split_and!; [apply grown_refl|apply sublist_nil_l|]. naive_solver. }
  apply Forall_cons in HT as [HTe HT]. case_decide as HL; [eapply HN; [exact H|cbn; auto]|]. apply dec_stable in HL || idtac.
  destruct (Z.leb_spec (Seq e) hs).
  - case_decide as Hst; [eapply HN; [exact H|cbn; auto]|].
    apply IH in H as (HW' & new & HG & HS & HA); try done. split; [done|]. exists new. split_and!; [done|by constructor|].
    intros Hf Hc x [->|Hx]%elem_of_cons; [|by apply HA]. eapply grown_holds; [exact HG|]. apply stored_holds.
    first [exact Hst|by apply dec_stable in Hst].
  - destruct (entry_conflict _ _ _ _ _) eqn:EC; [eapply HN; [exact H|cbn; auto]|].
    destruct (apply_one e s) as [s1|] eqn:E1; [|eapply HN; [exact H|cbn; auto]].
    apply (apply_one_inv leg) in E1 as (HW1 & HR1 & HI1 & HK1); try done; [|by rewrite HH].
    assert (HE1 : entries_of s1.1 = (entries_of s.1 ++ [e])%list) by (unfold entries_of; rewrite HR1, fmap_app; done).
    apply IH in H as (HW' & new & HG & HS & HA); [|done|by rewrite HE1; unfold head_row; rewrite last_snoc|done].
    split; [done|]. exists (e :: new). destruct HG as (HR & HI & HK).
    assert (HG : grown s.1 s'.1 (e :: new)).
    { split_and!; [|congruence|congruence]. rewrite HR, HR1, <- app_assoc. done. }
    split_and!; [done|by constructor|]. intros Hf Hc x [->|Hx]%elem_of_cons; [|by apply HA].
    exists e. split; [|done]. rewrite (grown_entries _ _ _ HG). apply elem_of_app. right. by left.
Qed.

Lemma cast_entry_inv e e' : cast_entry e = Some e' → typed e → typed e' ∧ Ledger e' ≠ "" ∧ Seq e' = Seq e ∧ Hash e' = Hash e ∧ Mac e' = Mac e.
Proof.
  unfold cast_entry. intros (l & Hl & H)%bind_Some (H1 & H2 & HF). apply bind_Some in H as (t & Ht & H). apply bind_Some in H as (u & Hu & [= <-]).
  apply cast_uuid_ok in Hl as [? ?], Ht as [_ ?], Hu as [_ ?]. rewrite !Forall_cons in HF. unfold typed. rewrite !Forall_cons. cbn.
  split_and!; try done; apply HF.
Qed.

(** What applying entries leaves: the same ledger, grown, or one adopted in place of a
    first entry. *)
Lemma apply_inv entries adopt s s' a :
  ledger_apply entries adopt s = Ok (s', a) → wf s.1 → Forall typed entries →
  wf s'.1 ∧ ∃ d new, (d = s.1 ∨ adopt = true ∧ length (rows s.1) = 1%nat ∧ rows d = []) ∧ grown d s'.1 new ∧ (∀ e, e ∈ new → ∃ e', e' ∈ entries ∧ Seq e' = Seq e) ∧
    (ap_failed a = None → ap_conflict a = None → ∀ e, e ∈ entries → holds s'.1 e).
Proof.
  unfold ledger_apply. destruct (mapM cast_entry entries) as [es|] eqn:EM; [|done]. intros H HW HT. cbv zeta in H.
  apply mapM_Some in EM. assert (HP := merge_sort_Permutation seq_le es). set (es' := merge_sort seq_le es) in *. clearbody es'.
  assert (HTs : Forall (λ e, typed e ∧ Ledger e ≠ "") es').
  { rewrite HP. rewrite Forall_forall. intros e' [i He']%list_elem_of_lookup.
    destruct (Forall2_lookup_r _ _ _ _ _ EM He') as (e & He & Hc). rewrite Forall_lookup in HT.
    destruct (cast_entry_inv _ _ Hc (HT _ _ He)) as (? & ? & _). done. }
  set (d := if adopt then _ else _) in H.
  assert (HD : wf d ∧ (d = s.1 ∨ adopt = true ∧ length (rows s.1) = 1%nat ∧ rows d = [])).
  { unfold d, adopt_ledger. destruct adopt; [|auto]. destruct es' as [|f es']; [auto|]. cbn [head].
    destruct (_ && _) eqn:E; [|auto]. rewrite !andb_true_iff in E. destruct E as [_ E%bool_decide_eq_true]. split; [|by right].
    apply Forall_cons in HTs as [[(_ & _ & HF) Hne] _]. rewrite Forall_cons in HF. constructor; try done; try (by constructor). cbn. split; [done|apply HF]. }
  destruct HD as [HWd HD]. destruct (head_row (entries_of d)) as [hs hh] eqn:EH. injection H as H.
  apply apply_loop_inv in H as (HW' & new & HG & HSub & HA); [|done|done|eapply Forall_impl; [exact HTs|naive_solver]].
  split; [done|]. exists d, new. split_and!; try done.
  { intros e He. assert (e ∈ es) as [i Hi]%list_elem_of_lookup by (rewrite <- HP; by eapply sublist_elem).
    destruct (Forall2_lookup_r _ _ _ _ _ EM Hi) as (e' & He' & Hce). rewrite Forall_lookup in HT.
    destruct (cast_entry_inv _ _ Hce (HT _ _ He')) as (_ & _ & HS & _). exists e'. split; [by eapply list_elem_of_lookup_2|done]. }
  intros Hf Hc e He.
  rewrite Forall_forall in HT. pose proof (HT e He) as HTe. apply list_elem_of_lookup in He as [i He].
  destruct (Forall2_lookup_l _ _ _ _ _ EM He) as (e' & He' & Hce).
  destruct (cast_entry_inv _ _ Hce HTe) as (_ & _ & HS & HH & _). destruct (HA Hf Hc e') as (x & ? & ? & ?); [rewrite HP; by eapply list_elem_of_lookup_2|]. exists x. split_and!; congruence.
Qed.

(** ** The check of the database *)

Lemma linked_kind prev es i e : linked prev es = None → es !! i = Some e → Kind e ≠ "".
Proof.
  intros HL Hi. pose proof (linked_lookup _ _ _ _ HL Hi) as HC. intros HK. unfold checkLink in HC. rewrite HK in HC. cbn in HC. by rewrite orb_true_r in HC.
Qed.

Lemma rows_verify_linked prev es :
  Forall typed es → Forall (λ e, 1 ≤ Seq e ∧ Kind e ≠ "" ∧ Ledger e ≠ "") es → (∀ p, prev = Some p → in_int64 (Seq p) ∧ 1 ≤ Seq p) →
  linked prev es = None ↔
  rows_verify prev es = true ∧ Forall (λ e, Ledger e = match prev with Some p => Ledger p | None => match es with [] => "" | x :: _ => Ledger x end end) es.
Proof.
  revert prev. induction es as [|e es IH]; intros prev HT HC HP; [cbn; naive_solver|].
  apply Forall_cons in HT as [HTe HT]. apply Forall_cons in HC as [(H1 & H2 & H3) HC]. cbn [linked rows_verify].
  assert (HE : checkLink prev e = None ↔ ComputeHash e = Hash e ∧
    match prev with None => Seq e = 1 ∧ Prev e = GenesisPrev | Some p => Seq e = Seq p + 1 ∧ Prev e = Hash p ∧ Ledger e = Ledger p end).
  { split.
    - intros (_ & _ & HH & HX)%checkLink_ok. split; [done|]. destruct prev as [p|]; [|done]. destruct HX as (HX & ? & ?). split_and!; try done.
      destruct (HP p eq_refl) as [Hp1 Hp2]. unfold in_int64 in *. destruct (decide (Seq p + 1 < two63)); [rewrite wrap64_id in HX; [done|unfold in_int64; lia]|].
      assert (Seq p = two63 - 1) as Hm by lia. rewrite Hm in HX.
      change (wrap64 (two63 - 1 + 1)) with (- two63) in HX. unfold two63 in HX. lia.
    - intros [HH HX]. unfold checkLink. rewrite (proj2 (Z.ltb_ge _ _)) by lia. rewrite (proj2 (empty_false (Hash e))) by (rewrite <- HH; apply sha256_ne).
      rewrite (proj2 (empty_false (Ledger e))), (proj2 (empty_false (Kind e))) by done. cbn [orb].
      destruct prev as [p|].
      + destruct HX as (HS & HPr & HL). rewrite wrap64_id by (rewrite <- HS; apply HTe). rewrite HS, Z.eqb_refl. cbn [negb].
        rewrite !(decide_False (P := _ ≠ _)) by (intros HX; by apply HX). done.
      + destruct HX as (HS & HPr). rewrite HS, HPr, Z.eqb_refl, bool_decide_false by (intros HX; by apply HX). cbn.
        by rewrite decide_False by (intros HX; by apply HX). }
  destruct (checkLink prev e) eqn:EL.
  - split; [done|]. intros [HV HF]. exfalso. enough (Some l = None) by done. apply HE.
    rewrite !andb_true_iff in HV. destruct HV as [[HH%bool_decide_eq_true HX] _]. split; [done|]. apply Forall_cons in HF as [HL _].
    destruct prev as [p|]; apply andb_true_iff in HX as [HX1%Z.eqb_eq HX2%bool_decide_eq_true]; done.
  - destruct (proj1 HE eq_refl) as [HH HX]. rewrite IH; [|done|done|intros p [= <-]; split; [apply HTe|done]]. rewrite Forall_cons.
    assert (HB : (bool_decide (ComputeHash e = Hash e) && match prev with
        | Some p => (Seq e =? Seq p + 1) && bool_decide (Prev e = Hash p)
        | None => (Seq e =? 1) && bool_decide (Prev e = GenesisPrev) end) = true).
    { rewrite bool_decide_true by done. destruct prev as [p|]; destruct HX as (-> & HX); rewrite Z.eqb_refl, bool_decide_true by naive_solver; done. }
    rewrite HB. cbn [andb]. destruct prev as [p|]; [destruct HX as (_ & _ & HX); rewrite HX|]; naive_solver.
Qed.

(** ** Confirming *)

Lemma confirm_keeps hashes d d' : rows d' = confirm_hash hashes <$> rows d → entries_of d' = entries_of d.
Proof.
  intros HR. unfold entries_of. rewrite HR, <- list_fmap_compose. apply list_fmap_ext. intros _ r _. cbn. unfold confirm_hash. by case_bool_decide.
Qed.

Lemma wf_same_entries d d' : wf d → entries_of d' = entries_of d → ledger_id d' = ledger_id d → mac_key d' = mac_key d → wf d'.
Proof. intros [? ? ? ? ?] HE HI HK. constructor; rewrite ?HE, ?HI, ?HK; done. Qed.

Lemma pending_nil d : ledger_pending d = [] ↔ Forall (λ r, lr_confirmed r = true) (rows d).
Proof.
  unfold ledger_pending. split.
  - intros H%fmap_nil_inv. rewrite Forall_forall. intros r Hr. destruct (lr_confirmed r) eqn:E; [done|].
    assert (r ∈ filter (λ r, lr_confirmed r = false) (rows d)) as HX by (by apply list_elem_of_filter). rewrite H in HX. by apply elem_of_nil in HX.
  - intros H. destruct (filter _ (rows d)) as [|r l] eqn:E; [done|]. assert (r ∈ filter (λ r, lr_confirmed r = false) (rows d)) as HX by (rewrite E; by left).
    apply list_elem_of_filter in HX as [Hf Hr]. rewrite Forall_forall in H. rewrite (H r Hr) in Hf. done.
Qed.

Lemma confirm_loop_inv n pairs d d' n' :
  confirm_loop n pairs d = Ok (d', n') →
  rows d' = confirm_hash (fst <$> pairs) <$> rows d ∧ ledger_id d' = ledger_id d ∧ mac_key d' = mac_key d ∧
  Forall (λ p, ledger_receipt_of d (fst p) = Some (snd p)) pairs.
Proof.
  revert n d. induction pairs as [|[h r] pairs IH]; intros n d; cbn [confirm_loop].
  - intros [= <- _]. split_and!; try done. rewrite <- (list_fmap_id (rows d)) at 1. apply list_fmap_ext. intros _ x _. unfold confirm_hash. by rewrite bool_decide_false by set_solver.
  - case_decide as Hr; [done|]. cbn. intros (HR & HI & HK & HF)%IH. cbn in *. split_and!; try done.
    + rewrite HR, <- list_fmap_compose. apply list_fmap_ext. intros _ x _. cbn. unfold confirm_hash.
      repeat case_bool_decide; cbn in *; try done; set_solver.
    + constructor; [first [exact Hr|by apply dec_stable in Hr]|]. eapply Forall_impl; [exact HF|]. intros p Hp. exact Hp.
Qed.

Lemma confirm_checked_inv hashes receipts d d' :
  ledger_confirm_checked hashes receipts d = Ok d' →
  rows d' = confirm_hash hashes <$> rows d ∧ ledger_id d' = ledger_id d ∧ mac_key d' = mac_key d ∧
  Forall2 (λ h r, ledger_receipt_of d h = Some r) hashes receipts.
Proof.
  unfold ledger_confirm_checked. destruct (bool_decide_reflect (length hashes ≠ length receipts)) as [|HL]; [done|].
  apply dec_stable in HL || idtac. destruct (bool_decide (hashes = [])); [done|]. cbn [orb]. intros H.
  apply res_bind_Ok in H as ([d1 n] & H & Hn). destruct (n =? _); [|done]. injection Hn as <-.
  apply confirm_loop_inv in H as (HR & HI & HK & HF). rewrite fst_zip in HR by lia. split_and!; try done.
  rewrite Forall2_same_length_lookup. split; [lia|]. intros i h r Hh Hr. rewrite Forall_lookup in HF.
  apply (HF i (h, r)). apply lookup_zip_with_Some. by exists h, r.
Qed.

(** Confirming every pending entry leaves none. *)
Lemma confirm_pending d d' hashes :
  rows d' = confirm_hash hashes <$> rows d → (∀ e, e ∈ ledger_pending d → Hash e ∈ hashes) → ledger_pending d' = [].
Proof.
  intros HR HH. apply pending_nil. rewrite HR, Forall_fmap, Forall_forall. intros r Hr. cbn. unfold confirm_hash.
  case_bool_decide as Hd; [done|]. destruct (lr_confirmed r) eqn:E; [done|]. destruct Hd. apply HH. unfold ledger_pending.
  apply list_elem_of_fmap. exists r. split; [done|]. by apply list_elem_of_filter.
Qed.

(** ** Transactions *)

(** What the callers pass: text, times of this era, a key that is not empty. *)
Definition args_ok (a : append_args) : Prop :=
  in_int64 (ap_now a) ∧ Forall (λ s, ValidString s = true) [ap_tenant a; ap_site a; ap_body a].
Definition tx_ok (t : ledger_tx) : Prop :=
  match t with
  | TxErase l _ => Forall args_ok l
  | TxOwn a | TxSeal a => args_ok a
  | TxApply entries _ => Forall typed entries
  | TxReset id now => id ≠ "" ∧ ValidString id = true ∧ in_int64 now
  | TxInstall _ => True
  end.

(** The ledger between transactions: well formed, nothing pending. *)
Definition good (d : LedgerDB) : Prop := wf d ∧ ledger_pending d = [].

Definition extended (d d' : LedgerDB) : Prop := entries_of d `prefix_of` entries_of d' ∧ ledger_id d' = ledger_id d.
#[local] Instance extended_refl : Reflexive extended.
Proof. by intros d. Qed.
#[local] Instance extended_trans : Transitive extended.
Proof. intros x y z [? ?] [? ?]. split; [by etrans|congruence]. Qed.

Lemma append_with_inv a d d' e :
  append_with a d = Ok (d', e) → wf d → args_ok a →
  wf d' ∧ rows d' = (rows d ++ [mkLRow e false])%list ∧ extended d d' ∧ Kind e = ap_kind a ∧ Body e = ap_body a ∧
  ∃ k, mac_key d' = Some k ∧ (mac_key d = None ∨ mac_key d = Some k) ∧ EntryOK k e = true.
Proof.
  intros H HW [Hn HF]. apply append_inv in H as (HW' & HR & HI & HK & HB & HM); try done. split_and!; try done.
  unfold extended, entries_of. rewrite HR, fmap_app. split; [by eexists|done].
Qed.

Lemma append_all_inv l d d' : append_all l d = Ok d' → wf d → Forall args_ok l → wf d' ∧ extended d d'.
Proof.
  revert d. induction l as [|a l IH]; intros d; cbn [append_all]; [intros [= <-]; done|].
  intros H HW [Ha Hl]%Forall_cons. apply res_bind_Ok in H as ([d1 e] & H1 & H). apply append_with_inv in H1 as (HW1 & _ & HX & _); try done.
  destruct (IH _ H HW1 Hl) as [HW' HX']. split; [done|]. by etrans.
Qed.

Lemma good_confirmed d d' hashes :
  wf d → rows d' = confirm_hash hashes <$> rows d → ledger_id d' = ledger_id d → mac_key d' = mac_key d →
  (∀ e, e ∈ ledger_pending d → Hash e ∈ hashes) → good d' ∧ extended d d'.
Proof.
  intros HW HR HI HK HP. pose proof (confirm_keeps _ _ _ HR) as HE. split; [split; [by eapply wf_same_entries|by eapply confirm_pending]|].
  split; [by rewrite HE|done].
Qed.

(** scd's own entry is confirmed in the transaction that appends it. *)
Lemma confirm_own_good a d d' e :
  append_with a d = Ok (d', e) → good d → args_ok a → good (confirm_own d' e) ∧ extended d (confirm_own d' e) ∧
  entries_of (confirm_own d' e) = (entries_of d ++ [e])%list ∧ mac_key (confirm_own d' e) = mac_key d' ∧ wf d'.
Proof.
  intros H [HW HP] Ha. apply append_with_inv in H as (HW' & HR & HX & _ & _ & _); try done.
  destruct (good_confirmed d' (confirm_own d' e) [Hash e]) as [HG HX']; try done.
  { intros x. unfold ledger_pending. rewrite HR, filter_app, fmap_app. unfold ledger_pending in HP. rewrite HP. cbn.
    intros ->%list_elem_of_singleton. by left. }
  split_and!; try done; [by etrans|]. rewrite (confirm_keeps [Hash e] d') by done. unfold entries_of. by rewrite HR, fmap_app.
Qed.

Lemma apply_good entries adopt s s' a :
  ledger_apply entries adopt s = Ok (s', a) → good s.1 → Forall typed entries → good s'.1.
Proof.
  intros H [HW HP] HT. apply apply_inv in H as (HW' & d & new & HD & (HR & _) & _); try done. split; [done|].
  apply pending_nil. rewrite HR, Forall_app. split; [|by rewrite Forall_fmap; apply Forall_true].
  destruct HD as [->|(_ & _ & ->)]; [by apply pending_nil|constructor].
Qed.

Lemma reset_wf id now d : id ≠ "" ∧ ValidString id = true ∧ in_int64 now → wf (ledger_reset id now d).
Proof.
  intros (Hne & Hv & Hn). unfold ledger_reset. set (body := "{" +:+ _). assert (Hb : ValidString body = true) by (vm_compute; reflexivity). clearbody body.
  constructor; cbn [entries_of rows ledger_id mac_key fmap list_fmap].
  - unfold chain, entries_of. cbn [fmap list_fmap rows lr_entry linked]. unfold checkLink. cbn -[ComputeHash GenesisPrev].
    rewrite (proj2 (empty_false id) Hne), (proj2 (empty_false (ComputeHash _))) by apply sha256_ne. cbn -[ComputeHash GenesisPrev].
    rewrite bool_decide_false by (intros HX; by apply HX). rewrite decide_False; [done|]. intros HX. by apply HX.
  - constructor; [|constructor]. unfold typed. rewrite !Forall_cons. cbn [Seq AtUS Ledger Prev Kind Tenant Site Body Hash Mac].
    split_and!; try done; try (vm_compute; reflexivity). apply ascii_valid, sha256_ascii.
  - by repeat constructor.
  - done.
  - constructor; [by left|constructor].
Qed.

Definition seal_args (a : append_args) (a0 : Entry) : append_args :=
  mkAppend (ap_random a) (ap_now a) (ap_tenant a) (ap_site a) KindSeal (seal_text (Seq a0) (Hash a0)).

Lemma seal_inv a d d' e :
  ledger_seal_legacy (ap_random a) (ap_now a) (ap_tenant a) (ap_site a) d = Ok (d', e) → good d → args_ok a →
  (d' = d ∧ e = None) ∨
  (∃ a0 e0, e = Some e0 ∧ last (filter (λ e, Mac e = "") (entries_of d)) = Some a0 ∧ append_with (seal_args a a0) d = Ok (d', e0) ∧ args_ok (seal_args a a0)).
Proof.
  unfold ledger_seal_legacy. intros H [HW HP] [Hn HF]. rewrite HP in H. destruct (last _) as [a0|] eqn:El; [|injection H as <- <-; by left].
  destruct (existsb _ _); [injection H as <- <-; by left|]. apply res_bind_Ok in H as ([d1 e1] & H & [= <- <-]). right. exists a0, e1. split_and!; try done.
  split; [done|]. rewrite !Forall_cons in HF |- *. cbn. split_and!; try apply HF. apply seal_text_valid.
  rewrite last_lookup in El. apply list_elem_of_lookup_2, list_elem_of_filter in El as [_ El]. pose proof (wf_typed _ HW) as HTy.
  rewrite Forall_forall in HTy. destruct (HTy _ El) as (_ & _ & HV). rewrite !Forall_cons in HV. apply HV.
Qed.

Lemma run_tx_good s t :
  good s.1 → tx_ok t → good (run_tx s t).1 ∧
  (match t with TxReset _ _ | TxApply _ true => False | _ => True end → extended s.1 (run_tx s t).1).
Proof.
  intros HG HT. unfold run_tx. destruct (tx_body t s) as [s'|e] eqn:E; [|by split]. pose proof HG as [HW HP].
  destruct t as [l receipts|a|a|entries adopt|id now|key]; cbn [tx_body tx_ok] in *.
  - apply res_bind_Ok in E as (d & H & E). destruct (append_all_inv _ _ _ H HW HT) as [HWd HX]. destruct (ledger_pending d) as [|x es] eqn:Ep.
    + injection E as <-. done.
    + apply res_bind_Ok in E as (d' & HC & [= <-]). apply confirm_checked_inv in HC as (HR & HI & HK & _).
      destruct (good_confirmed d d' (Hash <$> x :: es)) as [HG' HX']; try done.
      { intros y. rewrite Ep. intros Hy. apply list_elem_of_fmap. by exists y. }
      split; [done|]. intros _. cbn. by etrans.
  - apply res_bind_Ok in E as ([d e] & H & [= <-]). destruct (confirm_own_good _ _ _ _ H HG HT) as (? & ? & _). done.
  - apply res_bind_Ok in E as ([d e] & H & [= <-]). apply seal_inv in H as [[-> ->]|(a0 & e0 & -> & _ & H & Ha)]; [done| |done|done].
    destruct (confirm_own_good _ _ _ _ H HG Ha) as (? & ? & _). done.
  - apply res_bind_Ok in E as ([s1 an] & H & [= <-]). split; [by eapply apply_good|].
    apply apply_inv in H as (_ & d & new & HD & HGr & _ & _); try done.
    destruct adopt; [done|]. intros _. destruct HD as [->|[? _]]; [|done].
    split; [rewrite (grown_entries _ _ _ HGr); by eexists|apply HGr].
  - injection E as <-. split; [|done]. split; [by apply reset_wf|done].
  - unfold ledger_mac_key_install in E. destruct (negb _); [done|]. case_decide; [injection E as <-; done|]. destruct (existsb _ _) eqn:Ex; [injection E as <-; done|].
    injection E as <-. split; [|done]. split; [|done]. destruct HW as [? ? ? ? HV]. constructor; try done. cbn. rewrite Forall_forall in HV |- *.
    intros e He. left. destruct (empty (Mac e)) eqn:Em; [by apply empty_true|]. exfalso. apply not_true_iff_false in Ex. apply Ex.
    apply existsb_exists. exists e. split; [by apply list_elem_of_In|by rewrite Em].
Qed.

Lemma filter_everything {A} (P : A → Prop) `{!∀ x, Decision (P x)} l : Forall P l → filter P l = l.
Proof. induction 1 as [|x l Hx _ IH]; [done|]. by rewrite filter_cons_True, IH. Qed.

Lemma good_export d : good d → ledger_export 0 d = entries_of d ∧ confirmed_rows d = entries_of d.
Proof.
  intros [HW HP%pending_nil]. assert (HC : confirmed_rows d = entries_of d) by (unfold confirmed_rows, entries_of; by rewrite filter_everything).
  split; [|done]. unfold ledger_export. rewrite HC. apply filter_everything. rewrite Forall_lookup.
  intros i e Hi. rewrite (chain_Seq _ _ _ (wf_chain _ HW) (wf_typed _ HW) Hi). lia.
Qed.

(** What every row of the table is, whoever wrote it: the types, the check on the number,
    the check on the kind, an identifier for the ledger. *)
Definition table_row (e : Entry) : Prop := typed e ∧ 1 ≤ Seq e ∧ Kind e ≠ "" ∧ Ledger e ≠ "".

Lemma verify_exact d :
  Forall table_row (confirmed_rows d) →
  Extends 0 "" (ledger_export 0 d) = None ↔
  (ledger_verify d).1 = true ∧ ∀ e e', e ∈ confirmed_rows d → e' ∈ confirmed_rows d → Ledger e = Ledger e'.
Proof.
  intros HT. assert (HX : ledger_export 0 d = confirmed_rows d).
  { apply filter_everything. eapply Forall_impl; [exact HT|]. intros e (_ & ? & _). lia. }
  unfold Extends. rewrite HX. cbn [Z.ltb Z.compare]. rewrite rows_verify_linked; [|eapply Forall_impl; [exact HT|]; by intros e [? ?]..|done].
  unfold ledger_verify. cbn [fst]. apply and_iff_compat_l. rewrite Forall_forall. destruct (confirmed_rows d) as [|x es]; [set_solver|].
  split; [intros HL e e' He He'; by rewrite (HL e He), (HL e' He')|intros HL e He; apply HL; [done|by left]].
Qed.

(** The database and the appliance check the same thing.  For rows that satisfy the
    checks of the table, the chain check of the database succeeds and all rows name one
    ledger exactly when the appliance accepts the exported rows as a ledger from its
    first entry on. *)
Theorem database_check_agrees (d : LedgerDB) :
  Forall table_row (confirmed_rows d) →
  Extends 0 "" (ledger_export 0 d) = None ↔
  (ledger_verify d).1 = true ∧ ∀ e e', e ∈ confirmed_rows d → e' ∈ confirmed_rows d → Ledger e = Ledger e'.
Proof. apply verify_exact. Qed.

Lemma good_verifies d : good d → (ledger_verify d).1 = true.
Proof.
  intros HG. destruct (good_export d HG) as [HE HC]. destruct HG as [HW _]. apply verify_exact; [|by rewrite HE; apply (wf_chain _ HW)].
  rewrite HC, Forall_lookup. intros i e Hi. destruct (checkLink_ok _ _ (linked_lookup _ _ _ _ (wf_chain _ HW) Hi)) as (? & ? & _).
  pose proof (wf_typed _ HW) as HT. rewrite Forall_lookup in HT. split_and!; [by eapply HT|done|by apply (linked_kind _ _ _ _ (wf_chain _ HW) Hi)|done].
Qed.

(** C16. The ledger in the database is append-only and always intact.  Over any sequence
    of transactions, with any receipts presented and any entries applied, the table
    stays one authenticated chain with nothing pending, the check of the database and
    the check of the appliance accept it, and except where a new ledger is started or
    adopted the entries before are a beginning of the entries after. *)
Theorem database_ledger_only_grows (txs : list ledger_tx) (s : LedgerDB * guest_tables) :
  good s.1 → Forall tx_ok txs →
  let d := (foldl run_tx s txs).1 in
  good d ∧ (ledger_verify d).1 = true ∧ Extends 0 "" (ledger_export 0 d) = None ∧
  (Forall (λ t, match t with TxReset _ _ | TxApply _ true => False | _ => True end) txs →
     entries_of s.1 `prefix_of` ledger_export 0 d).
Proof.
  intros HG HT. cbv zeta. enough (HI : good (foldl run_tx s txs).1 ∧
    (Forall (λ t, match t with TxReset _ _ | TxApply _ true => False | _ => True end) txs → extended s.1 (foldl run_tx s txs).1)).
  { destruct HI as [HG' HX]. destruct (good_export _ HG') as [HE _]. split_and!; [done|by apply good_verifies|rewrite HE; apply (wf_chain _ (proj1 HG'))|].
    intros HF. rewrite HE. by destruct (HX HF). }
  revert s HG HT. induction txs as [|t txs IH]; intros s HG HT; [done|]. apply Forall_cons in HT as [Ht HT].
  destruct (run_tx_good s t HG Ht) as [HG1 HX1]. destruct (IH _ HG1 HT) as [HG2 HX2]. split; [done|].
  intros [Hk HF]%Forall_cons. cbn. etrans; [by apply HX1|by apply HX2].
Qed.

(** ** Sealing *)

Lemma sealed_reaches k es e n : e ∈ es → seal_covers k es e = Some n → n ≤ SealedThrough k es.
Proof.
  intros He Hc. unfold SealedThrough. set (f := λ _ _, _).
  assert (HG : ∀ l t, t ≤ foldl f t l ∧ (e ∈ l → n ≤ foldl f t l)).
  { induction l as [|x l IH]; intros t; [split; [done|by intros ?%elem_of_nil]|]. cbn. destruct (IH (f t x)) as [IH1 IH2].
    assert (t ≤ f t x) by (unfold f; destruct (seal_covers k es x) as [m|]; [destruct (Z.ltb_spec t m); lia|lia]).
    split; [lia|]. intros [<-|Hl]%elem_of_cons; [|by apply IH2]. etrans; [|exact IH1]. unfold f. rewrite Hc. destruct (Z.ltb_spec t n); lia. }
  by apply HG.
Qed.

Lemma unauthentic_none k sealed es :
  Forall (λ e, EntryOK k e = true ∨ (Mac e = "" ∧ Seq e ≤ sealed)) es → unauthentic k sealed 0 es = None.
Proof.
  induction 1 as [|e es He _ IH]; [done|]. cbn [unauthentic]. destruct (Seq e <=? 0); [done|]. destruct He as [HO|[HM HS]].
  - rewrite HO. destruct (empty (Mac e)) eqn:E; cbn; [|done]. unfold EntryOK in HO. by rewrite E in HO.
  - rewrite HM. cbn. by rewrite (proj2 (Z.leb_le _ _) HS).
Qed.

Lemma last_unsealed es a x :
  chain es → Forall typed es → last (filter (λ e, Mac e = "") es) = Some a → x ∈ es → Mac x = "" → Seq x ≤ Seq a.
Proof.
  intros HC HT (l1 & l2 & HE & HN)%last_filter_Some Hx Hm. apply list_elem_of_lookup in Hx as [i Hi].
  assert (Hj : es !! length l1 = Some a) by (rewrite HE, lookup_app_r, Nat.sub_diag by lia; done).
  rewrite (chain_Seq _ _ _ HC HT Hi), (chain_Seq _ _ _ HC HT Hj). destruct (decide (i ≤ length l1)%nat) as [|Hgt]; [lia|].
  rewrite HE, lookup_app_r in Hi by lia. destruct (i - length l1)%nat as [|n] eqn:En; [lia|]. cbn in Hi.
  rewrite Forall_lookup in HN. by destruct (HN _ _ Hi).
Qed.

Lemma code_ok k e es i : chain es → es !! i = Some e → Mac e = EntryMAC k (Hash e) → EntryOK k e = true.
Proof.
  intros HC Hi Hm. unfold EntryOK. rewrite Hm, (bool_decide_true (_ = _)) by done. rewrite (chain_Hash _ _ _ HC Hi).
  by rewrite !(proj2 (empty_false _)) by (apply sha256_ne || apply hmac_ne).
Qed.

(** A seal makes the entries written before there was a key usable.  When sealing
    writes an entry, the appliance accepts the whole exported ledger as authenticated
    under the key of the database: every entry carries a code that checks or lies
    before the entry the seal names. *)
Theorem seal_authenticates_history (a : append_args) (s : LedgerDB * guest_tables) (k : string) :
  good s.1 → args_ok a → mac_key s.1 = Some k → entries_of (run_tx s (TxSeal a)).1 ≠ entries_of s.1 →
  Authenticate k (ledger_export 0 (run_tx s (TxSeal a)).1) = None.
Proof.
  intros HG Ha Hk Hne. destruct (run_tx_good s (TxSeal a) HG Ha) as [HG' _]. destruct (good_export _ HG') as [HE _]. rewrite HE.
  unfold run_tx in *. destruct (tx_body (TxSeal a) s) as [s'|] eqn:E; [|done]. cbn [tx_body] in E.
  apply res_bind_Ok in E as ([d e] & H & [= <-]). cbn [fst] in *. apply seal_inv in H as [[-> ->]|(a0 & e0 & -> & El & H & Ha')]; [done| |done|done].
  destruct (confirm_own_good _ _ _ _ H HG Ha') as (_ & _ & HEn & HKn & _). destruct HG as [HW _].
  apply append_with_inv in H as (HWd & _ & _ & Hkind & Hbody & k' & Hk' & HKs & HOK); try done. assert (k' = k) as -> by (destruct HKs; congruence).
  rewrite HEn. unfold Authenticate, AuthenticateAfter. destruct (empty k); [done|]. apply unauthentic_none.
  assert (Hi : ∃ i, entries_of s.1 !! i = Some a0) by (rewrite last_lookup in El; apply list_elem_of_lookup_2, list_elem_of_filter in El as [_ El]; by apply list_elem_of_lookup).
  destruct Hi as [i Hi]. pose proof (chain_Seq _ _ _ (wf_chain _ HW) (wf_typed _ HW) Hi) as Hs. pose proof (lookup_lt_Some _ _ _ Hi) as Hlt.
  assert (Hc : seal_covers k (entries_of s.1 ++ [e0])%list e0 = Some (Seq a0)).
  { unfold seal_covers. rewrite Hkind, HOK, Hbody. cbn [seal_args ap_kind ap_body]. rewrite seal_decode_text. rewrite bool_decide_false by (intros HX; by apply HX). cbn [orb negb].
    rewrite length_app. cbn [length]. rewrite (proj2 (Z.ltb_ge (Seq a0) 1)), (proj2 (Z.ltb_ge _ (Seq a0))) by lia. cbn [orb].
    replace (Z.to_nat (Seq a0 - 1)) with i by lia. rewrite (lookup_app_l_Some _ _ _ _ Hi), Z.eqb_refl, bool_decide_false by (intros HX; by apply HX). cbn [orb negb].
    assert (Hse : Seq e0 = Z.of_nat (S (length (entries_of s.1)))).
    { pose proof (wf_chain _ (proj1 HG')) as HC'. pose proof (wf_typed _ (proj1 HG')) as HT'. rewrite HEn in HC', HT'.
      apply (chain_Seq _ (length (entries_of s.1)) e0 HC' HT'). rewrite lookup_app_r by lia. by rewrite Nat.sub_diag. }
    by rewrite (proj2 (Z.leb_gt _ _)) by lia. }
  pose proof (sealed_reaches k _ e0 _ ltac:(apply elem_of_app; right; by left) Hc) as HR.
  apply Forall_app. split; [|constructor; [by left|constructor]]. pose proof (wf_vouched _ HW) as HV. rewrite Forall_forall in HV |- *.
  intros x Hx. destruct (decide (Mac x = "")) as [Hm|Hm].
  - right. split; [done|]. etrans; [|exact HR]. by apply (last_unsealed _ _ _ (wf_chain _ HW) (wf_typed _ HW) El).
  - left. destruct (HV x Hx) as [?|(k' & Hk2 & Hmac)]; [done|]. assert (k' = k) as -> by congruence.
    apply list_elem_of_lookup in Hx as [j Hj]. by apply (code_ok k x _ j (wf_chain _ HW)).
Qed.
End dbproofs.
