(* ===== verification/ErasureService.v ===== *)
(** The erasure ledger's service in scd (cmd/scd/ledger_service.go, ledger_auth.go): the
    reconciliation of the database, the file and the secondary storage, the receipts,
    and scd's own entries.

    A transaction works on its own copy of the database's ledger, which is kept when it
    commits.  [db_answers] says which calls to the database fail.  Texts, logging and
    the columns that only report are left out. *)
From S2P Require Import Prelude GoStrings GoText ErasureLedger ErasureStore ErasureDb.

(** How the calls of one transaction end: BEGIN and the lock, the three reads, the call of
    ledger_apply, COMMIT. *)
Record db_answers := mkDbAnswers {
  begins_ok : bool;
  verify_ok : bool;
  head_ok : bool;
  export_ok : bool;
  apply_ok : bool;
  commit_end : tx_end
}.

Inductive ledger_state := OkState | NotConfigured | Attention | RecoveryNeeded | Blocked | Unavailable.
#[export] Instance ledger_state_eq_dec : EqDecision ledger_state.
Proof. solve_decision. Defined.

Inductive problem :=
| DbDamaged | NotRebuilt | FileDiffers (n : nat) | NotBroughtUp | NotApplied | ApplyConflict | ApplyFailed
| StorageUnread | EarlierAppliance | StorageAhead | NotPushed | NotStored | NotCommitted.

Record headProof := mkProof { hp_Ledger : string; hp_Seq : Z; hp_Hash : string; hp_Object : string }.

Record ledgerStatus := mkStatus {
  ErasureAvailable : bool;
  State : ledger_state;
  Problems : list problem;
  InSync : option headProof
}.

Definition stopped (st : ledger_state) (ps : list problem) : ledgerStatus := mkStatus false st ps None.

Section service.
Context {L : LedgerLib} {Q : LedgerSql} (cfg : Config).
Abbreviation db := (LedgerDB * guest_tables)%type.

(** What a pointer points to; Go panics on nil. *)
Definition deref (c : Copy) : IO Parse := match cp_Parse c with Some p => mret p | None => fail NilDereference end.

(** os.Rename of the file to a name of its own. *)
Definition setAside : IO () :=
  f ← next OpRename;
  _ ← (match f with Good | Late => put_local None | _ => mret () end);
  if decide (f = Good) then mret () else fail ErrIO.

Definition healLocal (dbE : list Entry) (c : Copy) : IO (option Copy) :=
  _ ← (if Present c then ignore setAside else mret ());
  r ← try (RewriteLocal dbE);
  match r with Err _ => mret None | Ok _ => c' ← ReadLocal cfg; mret (Some c') end.

(** The file before it is compared: rebuilt when it is missing, damaged, or the first
    entry of another ledger; cut when it ends in a fragment.  [None]: not rebuilt. *)
Definition settle_file (dbE : list Entry) (headLedger : string) (c : Copy) : IO (option Copy) :=
  c1 ← (if negb (Present c) || bool_decide (Err_ (parse_of c) ≠ None) then healLocal dbE c else mret (Some c));
  match c1 with
  | None => mret None
  | Some c1 =>
      p1 ← deref c1;
      c2 ← (if Torn p1 then r ← try (Truncate (Z.to_nat (ValidBytes p1))); match r with Ok _ => ReadLocal cfg | Err _ => mret c1 end
            else mret c1);
      if Present c2 && bool_decide (Err_ (parse_of c2) = None) && bool_decide (length (Entries (parse_of c2)) = 1%nat)
         && bool_decide (LedgerID (parse_of c2) ≠ headLedger)
      then healLocal dbE c2 else mret (Some c2)
  end.

(** The first position where both have an entry and the hashes differ. *)
Fixpoint first_difference (n : nat) (le dbE : list Entry) : option nat :=
  match le, dbE with
  | x :: le', y :: dbE' => if decide (Hash x ≠ Hash y) then Some n else first_difference (S n) le' dbE'
  | _, _ => None
  end.

(** Whether the database is to adopt the ledger of the file in place of its own. *)
Definition adopts (dbE : list Entry) (headLedger : string) (p : Parse) : bool :=
  bool_decide (length dbE = 1%nat) && bool_decide (LedgerID p ≠ headLedger).

(** The file and the database are brought to the same length.  [None]: a conflict; the
    flag says that the transaction can still commit. *)
Definition level (x : db_answers) (dbE : list Entry) (headLedger : string) (c : Copy) (p : Parse) (s : db) :
    IO (option (Copy * db * bool * list problem)) :=
  let le := Entries p in
  if (length le <? length dbE)%nat then
    r ← try (AppendLocal cfg (drop (length le) dbE));
    match r with
    | Err _ => mret (Some (c, s, true, [NotBroughtUp]))
    | Ok _ => c' ← ReadLocal cfg; _ ← deref c'; mret (Some (c', s, true, []))
    end
  else if (length dbE <? length le)%nat then
    let adopt := adopts dbE headLedger p in
    let doc := if adopt then le else drop (length dbE) le in
    match (if apply_ok x then ledger_apply doc adopt s else Err BadUuid) with
    | Err _ => mret (Some (c, s, false, [NotApplied]))
    | Ok (s', a) =>
        match ap_conflict a with
        | Some _ => mret None
        | None => mret (Some (c, s', true, match ap_failed a with Some _ => [ApplyFailed] | None => [] end))
        end
    end
  else mret (Some (c, s, true, [])).

Definition fingerprint : string := match Cipher cfg with WithCipher _ fp => fp | _ => "" end.
Definition proof_of (h : HeadInfo) : headProof := mkProof (hi_Ledger h) (hi_Seq h) (hi_Hash h) (Object h).

(** Whether the note describes the file.  Slicing the bytes of a file that could not be
    read panics. *)
Definition note_matches (p : Parse) (b : res store_error (option string)) (h : res store_error (option (HeadInfo * bool))) : IO bool :=
  match h with
  | Ok (Some (info, true)) =>
      if (hi_Seq info =? (Head p).1) && bool_decide (hi_Hash info = (Head p).2) then
        match b with
        | Ok (Some file) => mret (bool_decide (PlainSHA256 info = sha256 (str_take (Z.to_nat (ValidBytes p)) file))
                                  && bool_decide (CipherFP info = fingerprint))
        | _ => if 0 <? ValidBytes p then fail NilDereference
               else mret (bool_decide (PlainSHA256 info = sha256 "") && bool_decide (CipherFP info = fingerprint))
        end
      else mret false
  | _ => mret false
  end.

(** The secondary storage against the file: a state when one is decided, the problems, and
    the head the storage was read back at. *)
Definition check_storage (p : Parse) : IO (option ledger_state * list problem * option headProof) :=
  let '(lseq, lhash) := Head p in
  b ← try readFile;
  h ← try (readExternalHead cfg);
  inSync ← note_matches p b h;
  match h with
  | Err _ => mret (None, [StorageUnread], None)
  | Ok found =>
      let other := match found with
                   | Some (info, _) => bool_decide (hi_Ledger info ≠ LedgerID p) && (lseq =? 1) && (1 <? hi_Seq info)
                   | None => false
                   end in
      let ahead := match found with
                   | Some (info, _) => bool_decide (hi_Ledger info = LedgerID p) && (lseq <? hi_Seq info)
                   | None => false
                   end in
      if other then mret (Some RecoveryNeeded, [EarlierAppliance], None)
      else if ahead then mret (Some RecoveryNeeded, [StorageAhead], None)
      else if (inSync : bool) then mret (None, [], (λ x, proof_of x.1) <$> found)
      else
        r ← try (PushExternal cfg);
        h2 ← try (readExternalHead cfg);
        match r with
        | Err e => mret (if decide (e = ErrExternalAhead) then Some RecoveryNeeded else None, [NotPushed], None)
        | Ok _ =>
            match h2 with
            | Ok (Some (i2, true)) =>
                if (hi_Seq i2 =? lseq) && bool_decide (hi_Hash i2 = lhash) && bool_decide (hi_Ledger i2 = LedgerID p)
                then mret (None, [], Some (proof_of i2)) else mret (None, [NotStored], None)
            | _ => mret (None, [NotStored], None)
            end
        end
  end.

(** [ledgerReconcile] once the database's entries are known and the file was read: the
    status and what the database holds afterwards. *)
Definition reconcile_files (x : db_answers) (destErr : bool) (unconfirmed : Z) (dbE : list Entry) (headLedger : string) (c0 : Copy) (s : db) :
    IO (ledgerStatus * db) :=
  c1 ← settle_file dbE headLedger c0;
  match c1 with
  | None => mret (stopped Attention [NotRebuilt], s)
  | Some c1 =>
      p1 ← deref c1;
      match first_difference 1 (Entries p1) dbE with
      | Some n => mret (stopped Blocked [FileDiffers n], s)
      | None =>
          lv ← level x dbE headLedger c1 p1 s;
          match lv with
          | None => mret (stopped Blocked [ApplyConflict], s)
          | Some (c2, s2, open, ps1) =>
              p2 ← deref c2;
              d ← gets dest;
              '(st, ps2, proof) ← (match d with
                                  | None => mret (Some (if destErr then Attention else NotConfigured), [], None)
                                  | Some _ => check_storage p2
                                  end);
              let committed := match commit_end x with TxRefused => s | _ => if (open : bool) then s2 else s end in
              let ps3 := match commit_end x with TxCommitted => if (open : bool) then [] else [NotCommitted] | _ => [NotCommitted] end in
              let ps := (ps1 ++ ps2 ++ ps3)%list in
              let ok := match st, proof with
                        | None, Some _ => bool_decide (ps = []) && (unconfirmed =? 0)
                        | _, _ => false
                        end in
              mret (mkStatus ok (match st with Some st => st | None => if ok then OkState else Attention end) ps proof, committed)
          end
      end
  end.

Definition ledgerReconcile (x : db_answers) (destErr : bool) (s : db) : IO (ledgerStatus * db) :=
  if negb (begins_ok x) || negb (verify_ok x) then mret (stopped Unavailable [], s)
  else
    let '(headLedger, unconfirmed) := if head_ok x then (ledger_id s.1, hd_unconfirmed (ledger_head s.1)) else ("", 0) in
    if negb (ledger_verify s.1).1 then mret (stopped Blocked [DbDamaged], s)
    else
      let dbE := ledger_export 0 s.1 in
      if negb (export_ok x) || bool_decide (Extends 0 "" dbE ≠ None) then mret (stopped Blocked [], s)
      else
        c ← ReadLocal cfg;
        if Reach c then mret (stopped Attention [], s)
        else reconcile_files x destErr unconfirmed dbE headLedger c s.

(** ** Entries through scd *)

(** [ledgerCommit]: between one and a hundred entries, made durable in both copies; the
    receipts, when there is a key. *)
Definition ledgerCommit (es : list Entry) : IO (list string) :=
  if bool_decide (es = []) || (100 <? Z.of_nat (length es)) then fail ErrNotALedger
  else
    _ ← Commit cfg es;
    mret (if empty (MACKey cfg) then [] else (λ e, Receipt (MACKey cfg) (Hash e)) <$> es).

(** scd's own entry in its transaction: committed to both copies, confirmed, committed in
    the database; taken back when the database fails. *)
Definition commit_own (confirms : bool) (ends : tx_end) (d : LedgerDB) (e : Entry) (s : db) : IO (db * bool) :=
  r ← try (Commit cfg [e]);
  match r with
  | Err _ => mret (s, false)
  | Ok _ =>
      let after := (confirm_own d e, s.2) in
      if negb confirms then _ ← ignore (Abort cfg [e]); mret (s, false)
      else match ends with
           | TxCommitted => mret (after, true)
           | TxRefused => _ ← ignore (Abort cfg [e]); mret (s, false)
           | TxInDoubt => _ ← ignore (Abort cfg [e]); mret (after, false)
           end
  end.

(** The tenant and site of an entry of the appliance itself. *)
Definition own_scope (tenant site : string) : string * string :=
  if empty tenant || empty site then (nil_uuid, nil_uuid) else (tenant, site).

(** Whether the newest entry is younger than twenty hours. *)
Definition recent (now : Z) (d : LedgerDB) : bool := now - 20 * 3600 * 1000000 <? hd_at_us (ledger_head d).

Definition ledgerCheckpoint (begins confirms : bool) (ends : tx_end) (random : string) (now : Z) (tenant site : string) (s : db) : IO (db * bool) :=
  d ← gets dest;
  match d with
  | None => mret (s, true)
  | Some _ =>
      if negb begins then mret (s, false)
      else if recent now s.1 then mret (s, true)
      else
        let '(t, u) := own_scope tenant site in
        match ledger_append random now t u "checkpoint" "{}" s.1 with
        | Err _ => mret (s, false)
        | Ok (d', e) => commit_own confirms ends d' e s
        end
  end.

Definition ledgerSeal (begins confirms : bool) (ends : tx_end) (random : string) (now : Z) (tenant site : string) (s : db) : IO (db * bool) :=
  d ← gets dest;
  match d with
  | None => mret (s, true)
  | Some _ =>
      if empty (MACKey cfg) then mret (s, true)
      else if negb begins then mret (s, false)
      else
        let '(t, u) := own_scope tenant site in
        match ledger_seal_legacy random now t u s.1 with
        | Err _ => mret (s, false)
        | Ok (_, None) => mret (s, true)
        | Ok (d', Some e) => commit_own confirms ends d' e s
        end
  end.

(** The hourly run: the reconciliation, and scd's own entries when all is in step.  The
    answers are those of the transactions in turn. *)
Definition runLedger (x xs xc : db_answers) (destErr : bool) (random : string) (now : Z) (tenant site : string) (s : db) : IO db :=
  '(st, s1) ← ledgerReconcile x destErr s;
  if decide (State st = OkState) then
    '(s2, _) ← ledgerSeal (begins_ok xs) (apply_ok xs) (commit_end xs) random now tenant site s1;
    '(s3, _) ← ledgerCheckpoint (begins_ok xc) (apply_ok xc) (commit_end xc) random now tenant site s2;
    mret s3
  else mret s1.
End service.
