(* ===== verification/ErasureServiceProofs.v ===== *)
(** The reconciliation of the erasure ledger (ErasureService): "ok" means that the
    database, the file and the secondary storage hold the same ledger. *)
From S2P Require Import Prelude GoStrings GoText ErasureLedger ErasureProofs ErasureStore ErasureStoreProofs ErasureCommit.
From S2P Require Import ErasureDb ErasureDbProofs ErasureService.

Lemma lacks_drop c n s : lacks c s = true → lacks c (str_drop n s) = true.
Proof.
  revert n. induction s as [|x s IH]; intros [|n] H; [done..|]. cbn in H |- *. apply andb_true_iff in H as [_ H]. by apply IH.
Qed.

Lemma str_drop_app_ge s t n : str_drop (String.length s + n) (s +:+ t) = str_drop n t.
Proof. induction s as [|c s IH]; [done|]. exact IH. Qed.

Section serviceproofs.
Context {L : LedgerLib} {Q : LedgerSql} (cfg : Config).
Abbreviation db := (LedgerDB * guest_tables)%type.

(** ** Copies that are what the file holds *)

Definition tracks (w : world) (c : Copy) : Prop :=
  ∀ p, cp_Parse c = Some p → Entries p = held w ∧ Torn p = Torn (ParseChain (contents w)) ∧ ValidBytes p = ValidBytes (ParseChain (contents w)).

Lemma checked_fields p : Entries (checked cfg p) = Entries p ∧ Torn (checked cfg p) = Torn p ∧ ValidBytes (checked cfg p) = ValidBytes p.
Proof. unfold checked. destruct (empty _); [done|]. destruct (Err_ p); [done|]. by destruct (CheckPresent _ _). Qed.

Lemma tracks_local w w' c : local w' = local w → tracks w c → tracks w' c.
Proof. intros HL HT p Hp. unfold held, contents. rewrite HL. by apply HT. Qed.

Lemma ReadLocal_tracks w w' c : ReadLocal cfg w = (w', Ok c) → tracks w' c ∧ local w' = local w ∧ (Present c = true → ∃ p, cp_Parse c = Some p).
Proof.
  intros H. pose proof (ReadLocal_keeps_local cfg _ _ _ H) as [HL _]. split; [|split; [done|]].
  - apply (tracks_local w); [done|]. unfold ReadLocal in H. apply try_bind_inv in H as (w1 & x & H1 & [= <- <-]).
    unfold readFile in H1. apply ST_bind_inv in H1 as [(w2 & [] & (L2 & _)%plain_op_inv & [= <- <-])|(e & _ & ->)]; [|by intros p [=]].
    unfold tracks, held, contents. rewrite L2. destruct (local w) as [b|]; [|by intros p [=]]. destruct (empty b); [by intros p [=]|].
    intros p [= <-]. apply checked_fields.
  - unfold ReadLocal in H. apply try_bind_inv in H as (w1 & x & H1 & [= <- <-]). destruct x as [[b|]|]; try done. destruct (empty b); [done|]. by eexists.
Qed.

Lemma ReadLocal_never_fails w w' e : ReadLocal cfg w ≠ (w', Err e).
Proof. unfold ReadLocal, try, mbind, ST_bind. by destruct (readFile w). Qed.

Lemma healLocal_tracks dbE c w w' c' : healLocal cfg dbE c w = (w', Ok (Some c')) → tracks w' c'.
Proof.
  unfold healLocal. intros H. apply ST_bind_Ok in H as (w1 & [] & _ & H). apply try_bind_inv in H as (w2 & [[]|e] & _ & H); [|done].
  apply ST_bind_Ok in H as (w3 & c3 & H3 & [= <- <-]). by apply ReadLocal_tracks in H3 as [? _].
Qed.

Lemma cut_held w w' s :
  Torn (ParseChain s) = true → local w = Some s → local w' = Some s ∨ local w' = Some (str_take (Z.to_nat (ValidBytes (ParseChain s))) s) →
  held w' = held w.
Proof.
  intros HT HL HL'. assert (HE : Err_ (ParseChain s) = None).
  { unfold ParseChain in *. destruct (lines s) as [ls t]. by destruct (parse_lines None 1 ls) as [[es [d|]] b]. }
  destruct (valid_part s HE) as (g & t & Hs & Hlen & _ & _ & Hext). unfold held, contents. rewrite HL.
  destruct HL' as [->| ->]; [done|]. cbn [default]. rewrite <- Hlen. rewrite Hs at 1. rewrite str_take_app.
  pose proof (valid_part_whole g s [] Hext eq_refl (Forall_nil_2 _)) as HX. cbn [Encode] in HX. rewrite append_nil_r in HX.
  change (Entries (ParseChain g) = Entries (ParseChain s)). rewrite HX. cbn. by rewrite app_nil_r.
Qed.

Lemma Truncate_cases n w w' r : Truncate n w = (w', r) → local w' = local w ∨ local w' = str_take n <$> local w.
Proof.
  unfold Truncate. intros H. apply ST_bind_inv in H as [(w1 & f & Hf & H)|(e & Hf & _)]; apply next_keeps in Hf as (HL & _); [|by left].
  unfold mbind, ST_bind, gets in H. destruct (local w1) as [s|] eqn:El; [|injection H as <- _; left; congruence].
  rewrite <- HL. destruct f; cbn in H; repeat case_decide; try done; injection H as <- _; cbn; first [by right|left; congruence].
Qed.

(** The entries a copy shows are those of the file. *)
Definition shows (w : world) (c : Copy) : Prop := ∀ p, cp_Parse c = Some p → Entries p = held w.
Lemma tracks_shows w c : tracks w c → shows w c.
Proof. intros HT p Hp. by destruct (HT p Hp). Qed.

Lemma settle_file_shows dbE hl c w w' c' :
  settle_file cfg dbE hl c w = (w', Ok (Some c')) → tracks w c → shows w' c'.
Proof.
  unfold settle_file. intros H HT. apply ST_bind_Ok in H as (w1 & c1 & H1 & H).
  assert (HT1 : ∀ x, c1 = Some x → tracks w1 x).
  { intros x ->. destruct (_ || _); [by eapply healLocal_tracks|by injection H1 as <- <-]. }
  destruct c1 as [c1|]; [|done]. specialize (HT1 c1 eq_refl).
  apply ST_bind_Ok in H as (w2 & p1 & Hp & H). unfold deref in Hp. destruct (cp_Parse c1) as [p|] eqn:Ec; [|done]. injection Hp as <- <-.
  apply ST_bind_Ok in H as (w3 & c2 & H3 & H).
  assert (HS : shows w3 c2).
  { destruct (Torn p) eqn:Et; [|injection H3 as <- <-; by apply tracks_shows]. apply try_bind_inv in H3 as (w4 & r & H4 & H3).
    destruct (HT1 p Ec) as (HE & HTo & HV). rewrite Et in HTo. destruct r as [[]|e].
    - by apply ReadLocal_tracks in H3 as [? _]; apply tracks_shows.
    - injection H3 as <- <-. apply Truncate_cases in H4. intros q Hq. assert (q = p) as -> by congruence. rewrite HE. symmetry.
      destruct (local w1) as [s|] eqn:El.
      + assert (HC : contents w1 = s) by (unfold contents; by rewrite El). rewrite HC in HTo, HV. rewrite HV in H4. by apply (cut_held w1 w4 s).
      + unfold held, contents. rewrite El. by destruct H4 as [-> | ->]. }
  destruct (_ && _); [by eapply tracks_shows, healLocal_tracks|by injection H as <- <-].
Qed.

(** ** Appending what the database holds *)

Lemma parse_json_entries prev n es es' b : Forall typed es → parse_lines prev n (entry_json <$> es) = (es', None, b) → es' = es.
Proof.
  revert prev n es' b. induction es as [|e es IH]; intros prev n es' b HT; cbn [fmap list_fmap parse_lines]; [by intros [= <- _]|].
  apply Forall_cons in HT as [He HT]. rewrite entry_decode_json by done. destruct (checkLink prev e); [done|].
  destruct (parse_lines (Some e) (n + 1) (entry_json <$> es)) as [[es1 [d|]] b1] eqn:E; [done|]. intros [= <- _]. f_equal. by eapply IH.
Qed.

(** Whatever was there before: if the result parses, it is the old entries and the new. *)
Lemma written_after file g t fresh r :
  Err_ (ParseChain file) = None → file = g +:+ t → String.length g = Z.to_nat (ValidBytes (ParseChain file)) → lacks newline t = true →
  Forall typed fresh → lacks newline r = true → Err_ (ParseChain (g +:+ Encode fresh +:+ r)) = None →
  Entries (ParseChain (g +:+ Encode fresh +:+ r)) = (Entries (ParseChain file) ++ fresh)%list.
Proof.
  intros HE -> Hlen Ht HT Hr. revert HE Hlen. unfold ParseChain at 1 2 5. destruct (lines (g +:+ t)) as [ls u] eqn:El.
  apply lines_unlines in El as (Hg & Hls & Hu). destruct (parse_lines None 1 ls) as [[es [d|]] b] eqn:Ep; [done|]. intros _ Hlen. cbn [ValidBytes Entries] in *.
  destruct (parse_lines_bytes _ _ _ _ _ Ep) as [Hb _]. rewrite Hb in Hlen.
  assert (Hgg : g = unlines ls).
  { assert (HX : String.length g = String.length (unlines ls)) by (rewrite Hlen; unfold len; lia).
    transitivity (str_take (String.length g) (g +:+ t)); [symmetry; apply str_take_app|]. rewrite Hg, HX. apply str_take_app. }
  subst g. unfold ParseChain. rewrite lines_of_unlines, lines_Encode by done. cbn [fst snd]. rewrite (parse_lines_app _ _ _ _ _ _ Ep).
  destruct (parse_lines _ _ (entry_json <$> fresh)) as [[es' [d|]] b'] eqn:E2; [done|]. intros _. cbn. f_equal. by eapply parse_json_entries.
Qed.

Lemma appendLocal_parses fresh n w w' : appendLocal cfg fresh n w = (w', Ok ()) → Err_ (ParseChain (contents w')) = None.
Proof.
  unfold appendLocal. intros H. do 5 (apply ST_bind_Ok in H as (? & ? & _ & H)). unfold read_back in H.
  apply ST_bind_Ok in H as (w1 & back & H1 & H). destruct (negb _ || _) eqn:E; [apply ST_bind_Ok in H as (? & ? & _ & [=])|].
  case_decide; [apply ST_bind_Ok in H as (? & ? & _ & [=])|]. injection H as <-. apply orb_false_iff in E as [E _]. apply negb_false_iff in E.
  pose proof (ReadLocal_keeps_local cfg _ _ _ H1) as [HL _]. unfold copy_Intact in E. apply andb_true_iff in E as [EP EE].
  assert (HR : Reach back = false).
  { unfold ReadLocal in H1. apply try_bind_inv in H1 as (w2 & y & _ & [= _ <-]). destruct y as [[b|]|]; [destruct (empty b)|..]; done. }
  assert (HE : Err_ (parse_of back) = None).
  { unfold parse_of. destruct (cp_Parse back); [|done]. by apply bool_decide_eq_true in EE. }
  destruct (ReadLocal_inv cfg _ _ _ H1 HR HE) as (_ & HX & _). unfold contents in *. by rewrite HL.
Qed.

Lemma AppendLocal_held es w w' : AppendLocal cfg es w = (w', Ok ()) → es ≠ [] → Forall typed es → held w' = (held w ++ es)%list.
Proof.
  unfold AppendLocal. intros H Hne HT. apply ST_bind_Ok in H as (w1 & c & H1 & H).
  pose proof (ReadLocal_keeps_local cfg _ _ _ H1) as [L1 _]. destruct (Reach c) eqn:ER; [done|]. destruct (Err_ (parse_of c)) eqn:EE; [done|].
  destruct (ReadLocal_inv cfg _ _ _ H1 ER EE) as (_ & HErr & _ & HV). destruct es as [|e es]; [done|]. set (l := e :: es) in *.
  destruct (Extends _ _ _); [done|]. apply on_error_inv in H as [([] & H & _)|(? & ? & _ & [=])].
  destruct (valid_part (contents w) HErr) as (g & t & Hc & Hlen & Ht & _ & _). rewrite HV, <- Hlen in H.
  assert (C1 : contents w1 = contents w) by (unfold contents; by rewrite L1). pose proof (appendLocal_parses _ _ _ _ H) as HP.
  apply appendLocal_inv in H as (_ & _ & HO & _); [|rewrite C1, Hc; by eexists]. specialize (HO eq_refl). rewrite C1 in HO.
  assert (HC' : contents w' = g +:+ Encode l +:+ str_drop (String.length (Encode l)) t).
  { unfold contents at 1. rewrite HO. unfold overlay. rewrite Hc, str_take_app, str_drop_app_ge. done. }
  unfold held. rewrite HC' in HP |- *. by apply (written_after (contents w) g t); [..|apply lacks_drop|].
Qed.

(** ** Bringing the file and the database to the same length *)

Lemma first_difference_none n le dbE i x y :
  first_difference n le dbE = None → le !! i = Some x → dbE !! i = Some y → Hash x = Hash y.
Proof.
  revert n dbE i. induction le as [|a le IH]; intros n dbE i H Hx Hy; [done|]. destruct dbE as [|b dbE]; [done|]. cbn in H.
  case_decide as Hd; [done|]. destruct i as [|i]; [injection Hx as <-; injection Hy as <-; first [exact Hd|by apply dec_stable in Hd]|].
  by eapply IH.
Qed.

Lemma same_hashes es le :
  chain es → Forall typed es → chain le → Forall typed le → (length es ≤ length le)%nat →
  (∀ e, e ∈ le → ∃ x, x ∈ es ∧ Seq x = Seq e ∧ Hash x = Hash e) → Hash <$> es = Hash <$> le.
Proof.
  intros HC HT HC' HT' HL HH. apply list_eq. intros i. rewrite !list_lookup_fmap. destruct (le !! i) as [e|] eqn:Ee.
  - destruct (HH e ltac:(by eapply list_elem_of_lookup_2)) as (x & [j Hj]%list_elem_of_lookup & HS & HX).
    rewrite (chain_Seq _ _ _ HC HT Hj), (chain_Seq _ _ _ HC' HT' Ee) in HS. assert (j = i) as -> by lia. rewrite Hj. cbn. by rewrite HX.
  - apply lookup_ge_None in Ee. by rewrite lookup_ge_None_2 by lia.
Qed.

Lemma prefix_hashes n le dbE : first_difference n le dbE = None → (length le ≤ length dbE)%nat → Hash <$> take (length le) dbE = Hash <$> le.
Proof.
  intros HD HL. apply list_eq. intros i. rewrite !list_lookup_fmap. destruct (le !! i) as [y|] eqn:Ey.
  - pose proof (lookup_lt_Some _ _ _ Ey). rewrite lookup_take_lt by lia. destruct (dbE !! i) as [z|] eqn:Ez; [|apply lookup_ge_None in Ez; lia].
    cbn. f_equal. symmetry. by eapply first_difference_none.
  - apply lookup_ge_None in Ey. by rewrite lookup_take_ge by lia.
Qed.

(** The entries the database lacked are applied: it then holds what the file holds. *)
Lemma applied_level n (adopt : bool) le s s' a :
  ledger_apply (if adopt then le else drop (length (entries_of s.1)) le) adopt s = Ok (s', a) → ap_conflict a = None → ap_failed a = None →
  good s.1 → chain le → Forall typed le → first_difference n le (entries_of s.1) = None → (length (entries_of s.1) < length le)%nat →
  good s'.1 ∧ Hash <$> entries_of s'.1 = Hash <$> le.
Proof.
  intros EA Ec Ef HG HC HT HD Hlt. assert (HTdoc : Forall typed (if adopt then le else drop (length (entries_of s.1)) le)) by (destruct adopt; [done|by apply Forall_drop]).
  pose proof (apply_good _ _ _ _ _ EA HG HTdoc) as HG'. pose proof HG as [HW _].
  apply apply_inv in EA as (_ & d & new & HDd & HGr & HLn & HHo); try done. specialize (HHo Ef Ec). split; [done|]. destruct HG' as [HW' _].
  pose proof (grown_entries _ _ _ HGr) as HEn. apply same_hashes; [apply (wf_chain _ HW')|apply (wf_typed _ HW')|done|done|..].
  - destruct (last (entries_of s'.1)) as [e|] eqn:El; [|apply last_None in El; rewrite El; cbn; lia].
    destruct (decide (e ∈ new)) as [He|He].
    + apply HLn in He as (e' & He' & HS). assert (e' ∈ le) as [i Hi]%list_elem_of_lookup by (destruct adopt; [done|by eapply sublist_elem; [apply sublist_drop|]]).
      rewrite last_lookup in El. rewrite (chain_Seq _ _ _ (wf_chain _ HW') (wf_typed _ HW') El), (chain_Seq _ _ _ HC HT Hi) in HS.
      apply lookup_lt_Some in Hi. lia.
    + destruct new as [|n0 new]; [|exfalso; apply He; rewrite HEn, last_app_cons in El; apply last_Some in El as [? ->]; set_solver].
      rewrite HEn, app_nil_r. destruct HDd as [->|(_ & _ & Hr)]; [lia|unfold entries_of; rewrite Hr; cbn; lia].
  - intros e He. destruct adopt; [by apply HHo|]. destruct HDd as [->|[? _]]; [|done].
    apply list_elem_of_lookup in He as [i Hi]. destruct (entries_of s.1 !! i) as [y|] eqn:Ey.
    + exists y. rewrite HEn, elem_of_app. pose proof (first_difference_none _ _ _ _ _ _ HD Hi Ey) as HH.
      split_and!; [left; by eapply list_elem_of_lookup_2| |done]. by rewrite (chain_Seq _ _ _ (wf_chain _ HW) (wf_typed _ HW) Ey), (chain_Seq _ _ _ HC HT Hi).
    + apply HHo. apply list_elem_of_lookup. exists (i - length (entries_of s.1))%nat. apply lookup_ge_None in Ey. rewrite lookup_drop.
      by replace (length (entries_of s.1) + (i - length (entries_of s.1)))%nat with i by lia.
Qed.

Lemma level_inv x dbE hl c p s w w' c2 s2 open :
  level cfg x dbE hl c p s w = (w', Ok (Some (c2, s2, open, []))) → cp_Parse c = Some p → Entries p = held w →
  good s.1 → dbE = ledger_export 0 s.1 → first_difference 1 (Entries p) dbE = None →
  good s2.1 ∧ shows w' c2 ∧ Hash <$> entries_of s2.1 = Hash <$> held w'.
Proof.
  intros H Hc Hp HG HE HD. destruct (good_export _ HG) as [HX _]. rewrite HX in HE. pose proof HG as [HW _].
  unfold level in H. cbv zeta in H. rewrite Hp in H, HD.
  destruct (held_ok w) as [HCw HTw]. pose proof (wf_typed _ HW) as HTd. rewrite <- HE in HTd.
  destruct (Nat.ltb_spec (length (held w)) (length dbE)) as [Hlt|Hge].
  - apply try_bind_inv in H as (w1 & r & H1 & H). destruct r as [[]|e]; [|done]. apply ST_bind_Ok in H as (w2 & c' & H2 & H).
    apply ST_bind_Ok in H as (w3 & q & Hq & [= <- <- <- <-]). assert (w3 = w2) as -> by (unfold deref in Hq; destruct (cp_Parse c'); by injection Hq).
    apply ReadLocal_tracks in H2 as (HT2 & L2 & _). apply AppendLocal_held in H1; [|intros HN%(f_equal length); rewrite length_drop in HN; cbn in HN; lia|by apply Forall_drop].
    assert (HH : held w2 = (held w ++ drop (length (held w)) dbE)%list) by (rewrite <- H1; unfold held, contents; by rewrite L2).
    split_and!; [done|by apply tracks_shows|]. rewrite HH, <- HE. rewrite <- (take_drop (length (held w)) dbE) at 1. rewrite !fmap_app. f_equal.
    eapply prefix_hashes; [exact HD|lia].
  - destruct (Nat.ltb_spec (length dbE) (length (held w))) as [Hlt|Hge'].
    + destruct (if apply_ok x then _ else _) as [[s' a]|e] eqn:EA; [|done]. destruct (apply_ok x); [|done].
      destruct (ap_conflict a) eqn:Ec; [done|]. destruct (ap_failed a) eqn:Ef; [done|]. injection H as <- <- <- <-. rewrite HE in EA, HD, Hlt.
      destruct (applied_level _ _ _ _ _ _ EA Ec Ef HG HCw HTw HD Hlt) as [HG' HH]. split_and!; [done| |done]. intros q Hq. congruence.
    + injection H as <- <- <- <-. split_and!; [done|intros q Hq; congruence|]. rewrite <- HE. rewrite <- (prefix_hashes _ _ _ HD) by lia.
      by rewrite take_ge by lia.
Qed.

(** The path that lets a new appliance's database adopt the ledger in its file is
    never taken.  Before it, the file and the database are compared entry by entry from
    the first one on, and without a collision of SHA-256 two first entries of different
    ledgers do not pass the comparison. *)
Theorem adoption_is_unreachable (s : db) (p : Parse) :
  good s.1 → Forall clean (entries_of s.1) → chain (Entries p) → Entries p ≠ [] → ¬ collide (entries_of s.1) (Entries p) →
  first_difference 1 (Entries p) (ledger_export 0 s.1) = None → adopts (ledger_export 0 s.1) (ledger_id s.1) p = false.
Proof.
  intros HG HF HC Hne HX HD. destruct (good_export _ HG) as [HE _]. rewrite HE in HD |- *. destruct HG as [HW _].
  apply not_true_iff_false. intros [HL%bool_decide_eq_true HN%bool_decide_eq_true]%andb_true_iff.
  destruct (entries_of s.1) as [|y es] eqn:Ey; [done|]. unfold LedgerID in HN. destruct (Entries p) as [|z le]; [done|].
  pose proof (first_difference_none _ _ _ 0%nat z y HD eq_refl eq_refl) as HH.
  destruct (hash_pins (y :: es) (z :: le) y z) as [HEq|]; try done; [by rewrite <- Ey; apply (wf_chain _ HW)|by left|by left|].
  apply HN. injection HEq as HEq _. rewrite <- HEq. pose proof (wf_id _ HW) as HI. rewrite Ey, Forall_cons in HI. apply HI.
Qed.

(** ** The storage *)

(** The storage holds a note of this head and the object it names. *)
Definition stored_head (w : world) (head : Z * string) : Prop :=
  ∃ m hb info obj, dest w = Some m ∧ m !! ExternalHead = Some hb ∧ head_decode hb = Some info ∧ (hi_Seq info, hi_Hash info) = head ∧
    m !! Object info = Some obj ∧ sha256 obj = ObjectSHA256 info.

Lemma stored_head_dest w w' h : dest w' = dest w → stored_head w h → stored_head w' h.
Proof. intros HD (m & hb & info & obj & H). exists m, hb, info, obj. by rewrite HD. Qed.

Lemma readExternalHead_inv w w' info :
  readExternalHead cfg w = (w', Ok (Some (info, true))) → dest w' = dest w ∧ stored_head w (hi_Seq info, hi_Hash info).
Proof.
  intros H. pose proof (readExternalHead_keeps_dest cfg _ _ _ H) as [HD _]. split; [done|].
  unfold readExternalHead in H. apply try_bind_inv in H as (w1 & r & H1 & H). destruct r as [hb|[]]; try done.
  pose proof (Get_keeps_dest _ _ _ _ H1) as [D1 _]. apply Get_inv in H1 as (m & Hm & Hb).
  destruct (head_decode hb) as [h|] eqn:Eh; [|done]. destruct (empty _); [done|]. destruct (_ && _); [done|].
  apply try_bind_inv in H as (w2 & o & H2 & H). destruct o as [obj|[]]; try done. injection H as _ -> Hs. apply bool_decide_eq_true in Hs.
  apply Get_inv in H2 as (m' & Hm' & Ho). assert (m' = m) as -> by congruence. by exists m, hb, info, obj.
Qed.

Lemma note_matches_same p b h w w' r : note_matches cfg p b h w = (w', r) → w' = w ∧
  (r = Ok true → ∃ info, h = Ok (Some (info, true)) ∧ (hi_Seq info, hi_Hash info) = Head p).
Proof.
  unfold note_matches. destruct h as [[[info []]|]|]; try (by intros [= <- <-]).
  destruct (_ && _) eqn:E; [|by intros [= <- <-]]. apply andb_true_iff in E as [E1%Z.eqb_eq E2%bool_decide_eq_true]. intros H.
  assert (HX : (hi_Seq info, hi_Hash info) = Head p) by (rewrite E1, E2; by destruct (Head p)).
  destruct b as [[file|]|]; [|destruct (0 <? _)..]; injection H as <- <-; split; try done; intros _; by exists info.
Qed.

Lemma check_storage_keeps_local p : preserves keeps_local (check_storage cfg p).
Proof.
  pose proof readFile_keeps_local. pose proof (readExternalHead_keeps_local cfg). pose proof (push_keeps_local cfg false).
  assert (∀ b h, preserves keeps_local (note_matches cfg p b h)) as HN by (intros b h w w' r [-> _]%note_matches_same; done).
  unfold check_storage, PushExternal. destruct (Head p). keeps_tac.
Qed.

Lemma check_storage_inv p w w' st ps hp :
  check_storage cfg p w = (w', Ok (st, ps, Some hp)) → stored_head w' (Head p).
Proof.
  unfold check_storage. destruct (Head p) as [lseq lhash] eqn:EH. intros H. apply try_bind_inv in H as (w1 & b & _ & H).
  apply try_bind_inv in H as (w2 & h & H2 & H). apply ST_bind_Ok in H as (w3 & sync & H3 & H). apply note_matches_same in H3 as [-> HS].
  destruct h as [found|]; [|done]. destruct (match found with Some _ => _ | None => false end); [done|].
  destruct (match found with Some _ => _ | None => false end); [done|]. destruct sync.
  - injection H as <- _ _ Hf. destruct (HS eq_refl) as (info & [= ->] & HX). apply readExternalHead_inv in H2 as [HD HH].
    rewrite HX, EH in HH. by eapply stored_head_dest.
  - apply try_bind_inv in H as (w4 & r & _ & H). apply try_bind_inv in H as (w5 & h2 & H5 & H). destruct r as [[]|e]; [|done].
    destruct h2 as [[[i2 []]|]|]; try done. destruct (_ && _) eqn:E; [|done]. injection H as <- _ _ _.
    rewrite !andb_true_iff in E. destruct E as [[E1%Z.eqb_eq E2%bool_decide_eq_true] _]. apply readExternalHead_inv in H5 as [HD HH].
    rewrite E1, E2 in HH. by eapply stored_head_dest.
Qed.

(** C10. An erasure is admitted only when all three ledgers are the same.  When the
    reconciliation reports that erasures are available, whatever failed and was repaired
    on the way, the ledger the database committed and the ledger in the file are the
    same entries by their hashes, nothing is pending, and the secondary storage holds a
    note of exactly this head and the object the note names. *)
Theorem reconciled_is_in_step (x : db_answers) (destErr : bool) (s s' : db) (st : ledgerStatus) (w w' : world) :
  ledgerReconcile cfg x destErr s w = (w', Ok (st, s')) → good s.1 → ErasureAvailable st = true →
  Hash <$> ledger_export 0 s'.1 = Hash <$> held w' ∧ ledger_pending s'.1 = [] ∧ stored_head w' (Head (ParseChain (contents w'))).
Proof.
  intros H HG Hst.
  unfold ledgerReconcile in H. destruct (_ || _); [by injection H as _ <- <-|].
  destruct (if head_ok x then _ else _) as [hl un]. destruct (negb _); [by injection H as _ <- <-|].
  destruct (_ || _); [by injection H as _ <- <-|]. apply ST_bind_Ok in H as (w1 & c & H1 & H).
  apply ReadLocal_tracks in H1 as (HT & _ & _). destruct (Reach c); [by injection H as _ <- <-|].
  unfold reconcile_files in H. apply ST_bind_Ok in H as (w2 & c1 & H2 & H). destruct c1 as [c1|]; [|by injection H as _ <- <-].
  pose proof (settle_file_shows _ _ _ _ _ _ H2 HT) as HS1. apply ST_bind_Ok in H as (w3 & p1 & H3 & H).
  unfold deref in H3. destruct (cp_Parse c1) as [p|] eqn:Ep; [|done]. injection H3 as <- <-.
  destruct (first_difference 1 (Entries p) _) eqn:ED; [by injection H as _ <- <-|].
  apply ST_bind_Ok in H as (w4 & lv & H4 & H). destruct lv as [[[[c2 s2] open] ps1]|]; [|by injection H as _ <- <-].
  apply ST_bind_Ok in H as (w5 & p2 & H5 & H). unfold deref in H5. destruct (cp_Parse c2) as [q|] eqn:Eq; [|done]. injection H5 as <- <-.
  apply ST_bind_Ok in H as (w6 & d & [= <- <-] & H). apply ST_bind_Ok in H as (w7 & [[st0 ps2] hp] & H7 & H). injection H as <- <- <-. cbn [ErasureAvailable] in Hst.
  destruct st0 as [st0|]; [done|]. destruct hp as [hp|]; [|done]. apply andb_true_iff in Hst as [Hps%bool_decide_eq_true _].
  apply app_nil in Hps as [-> [_ Hps]%app_nil]. destruct (commit_end x); try done. destruct open; [|done].
  destruct (level_inv _ _ _ _ _ _ _ _ _ _ _ H4 Ep (HS1 _ Ep) HG eq_refl ED) as (HG2 & HS2 & HH). specialize (HS2 q Eq).
  destruct (dest w4); [|done]. pose proof (check_storage_keeps_local _ _ _ _ H7) as [L7 _]. apply check_storage_inv in H7.
  assert (HC : contents w7 = contents w4) by (unfold contents; by rewrite L7). destruct (good_export _ HG2) as [HE _]. cbn [fst].
  split_and!; [by rewrite HE, HH; unfold held; rewrite HC|apply HG2|]. unfold Head in H7 |- *. rewrite HS2 in H7. unfold held in H7. by rewrite HC.
Qed.

(** ** Receipts *)

Lemma hashes_distinct d : wf d → Forall clean (entries_of d) → NoDup (Hash <$> entries_of d) ∨ collide (entries_of d) (entries_of d).
Proof.
  intros HW HF. destruct (decide (NoDup (Hash <$> entries_of d))) as [|Hn]; [by left|right].
  pose proof (wf_chain _ HW) as HC. pose proof (wf_typed _ HW) as HT.
  enough (HX : ∃ i j e e', entries_of d !! i = Some e ∧ entries_of d !! j = Some e' ∧ i ≠ j ∧ Hash e = Hash e').
  { destruct HX as (i & j & e & e' & Hi & Hj & Hij & HH).
    destruct (hash_pins (entries_of d) (entries_of d) e e') as [HE|]; try done; [by eapply list_elem_of_lookup_2..|].
    injection HE as _ HE _. rewrite (chain_Seq _ _ _ HC HT Hi), (chain_Seq _ _ _ HC HT Hj) in HE. lia. }
  clear HC HT HF HW. revert Hn. generalize (entries_of d) as l. induction l as [|x l IH]; intros Hn; [destruct Hn; constructor|].
  cbn in Hn. destruct (decide (Hash x ∈ Hash <$> l)) as [Hin|Hin].
  - apply list_elem_of_fmap in Hin as (y & Hy & [j Hj]%list_elem_of_lookup). by exists 0%nat, (S j), x, y.
  - destruct IH as (i & j & e & e' & ? & ? & ? & ?); [intros HN; apply Hn; by constructor|]. exists (S i), (S j), e, e'. split_and!; auto.
Qed.

Lemma one_newly d r : NoDup (Hash <$> entries_of d) → r ∈ rows d → lr_confirmed r = false →
  length (filter (λ x, newly [Hash (lr_entry r)] x = true) (rows d)) = 1%nat.
Proof.
  unfold entries_of. induction (rows d) as [|x l IH]; intros HN Hr Hc; [by apply elem_of_nil in Hr|]. cbn in HN. apply NoDup_cons in HN as [Hx HN].
  assert (HM : ∀ y, y ∈ l → Hash (lr_entry y) ≠ Hash (lr_entry x)).
  { intros y Hy HE. apply Hx. rewrite <- HE. apply list_elem_of_fmap. exists (lr_entry y). split; [done|]. apply list_elem_of_fmap. by exists y. }
  apply elem_of_cons in Hr as [->|Hr].
  - rewrite filter_cons_True by (unfold newly; rewrite Hc, bool_decide_true by (by left); done). cbn. f_equal.
    destruct (filter _ l) as [|y l'] eqn:E; [done|]. assert (y ∈ filter (λ x0, newly [Hash (lr_entry x)] x0 = true) l) as Hy by (rewrite E; by left).
    apply list_elem_of_filter in Hy as [Hy1 Hy2]. unfold newly in Hy1. apply andb_true_iff in Hy1 as [_ Hy1%bool_decide_eq_true].
    apply list_elem_of_singleton in Hy1. by destruct (HM y Hy2).
  - rewrite filter_cons_False; [by apply IH|]. unfold newly. intros [_ HX%bool_decide_eq_true]%andb_true_iff. apply list_elem_of_singleton in HX.
    by destruct (HM r Hr).
Qed.

Lemma confirm_loop_ok n k es d :
  mac_key d = Some k → NoDup (Hash <$> es) → (∀ e, e ∈ es → length (filter (λ x, newly [Hash e] x = true) (rows d)) = 1%nat) →
  ∃ d', confirm_loop n (zip (Hash <$> es) ((λ e, Receipt k (Hash e)) <$> es)) d = Ok (d', n + Z.of_nat (length es)).
Proof.
  revert n d. induction es as [|e es IH]; intros n d Hk HN HC; [exists d; cbn; by rewrite Z.add_0_r|]. cbn [fmap list_fmap zip zip_with confirm_loop].
  apply NoDup_cons in HN as [He HN]. unfold ledger_receipt_of. rewrite Hk. cbn [fmap option_fmap option_map].
  rewrite decide_False by (intros HX; by apply HX). cbn [ledger_confirm]. rewrite (HC e) by (by left).
  destruct (IH (n + 1) (mkLedgerDB (ledger_id d) (confirm_hash [Hash e] <$> rows d) (mac_key d))) as [d' Hd]; try done.
  - intros y Hy. rewrite <- (HC y) by (by right). cbn [rows]. clear -He Hy. induction (rows d) as [|r l IH]; [done|]. cbn [fmap list_fmap].
    assert (HNE : Hash y ≠ Hash e) by (intros HX; apply He; rewrite <- HX; apply list_elem_of_fmap; by exists y).
    assert (HR : newly [Hash y] (confirm_hash [Hash e] r) = newly [Hash y] r).
    { unfold newly, confirm_hash. case_bool_decide as Hb; [|done]. apply list_elem_of_singleton in Hb. cbn. rewrite bool_decide_false; [by rewrite andb_false_r|].
      intros HX%list_elem_of_singleton. congruence. }
    rewrite !filter_cons, HR. case_decide; cbn; by rewrite IH.
  - exists d'. change (Z.of_nat 1) with 1. rewrite Hd. f_equal. f_equal. cbn [length]. lia.
Qed.

(** A receipt is always accepted, and only for what is durable.  When scd commits the
    entries a transaction left pending, they are in both copies, and the database, whose
    key scd holds, accepts the receipts and confirms exactly the pending entries; it
    could only be otherwise if two entries were a collision of SHA-256. *)
Theorem receipts_are_accepted (d : LedgerDB) (rs : list string) (w w' : world) :
  wf d → Forall clean (entries_of d) → MACKey cfg ≠ "" → mac_key d = Some (MACKey cfg) →
  ledgerCommit cfg (ledger_pending d) w = (w', Ok rs) →
  (recorded (ledger_pending d) w' ∧ in_step cfg w' ∧
   ∃ d', ledger_confirm_checked (Hash <$> ledger_pending d) rs d = Ok d' ∧ good d' ∧ entries_of d' = entries_of d) ∨
  collide (entries_of d) (entries_of d).
Proof.
  intros HW HF Hk Hkd H. destruct (hashes_distinct d HW HF) as [HN|]; [left|by right].
  assert (HIn : ∀ e, e ∈ ledger_pending d → ∃ r, r ∈ rows d ∧ lr_confirmed r = false ∧ lr_entry r = e).
  { intros e (r & -> & [? ?]%list_elem_of_filter)%list_elem_of_fmap. by exists r. }
  unfold ledgerCommit in H. destruct (bool_decide_reflect (ledger_pending d = [])) as [|Hne]; [done|]. destruct (_ <? _); [done|]. cbn [orb] in H.
  apply ST_bind_Ok in H as (w1 & [] & HC & [= <- <-]). rewrite (proj2 (empty_false _) Hk).
  assert (HT : Forall typed (ledger_pending d)).
  { rewrite Forall_forall. intros e (r & Hr & _ & <-)%HIn. pose proof (wf_typed _ HW) as HTy. rewrite Forall_forall in HTy. apply HTy. apply list_elem_of_fmap. by exists r. }
  destruct (Commit_ok _ _ _ _ HC Hne HT) as (_ & HR & HI). split_and!; try done.
  destruct (confirm_loop_ok 0 (MACKey cfg) (ledger_pending d) d Hkd) as [d' Hd].
  - unfold ledger_pending. eapply sublist_NoDup; [exact HN|]. unfold entries_of. apply fmap_sublist, fmap_sublist, sublist_filter.
  - intros e (r & Hr & Hc & <-)%HIn. by apply one_newly.
  - exists d'. assert (HX : ledger_confirm_checked (Hash <$> ledger_pending d) ((λ e, Receipt (MACKey cfg) (Hash e)) <$> ledger_pending d) d = Ok d').
    { unfold ledger_confirm_checked. rewrite !length_fmap, bool_decide_false by (intros HX; by apply HX).
      rewrite bool_decide_false by (by intros ?%fmap_nil_inv). cbn [orb]. rewrite Hd. cbn. by rewrite Z.eqb_refl. }
    split; [done|]. apply confirm_checked_inv in HX as (HRo & HId & HKe & _).
    destruct (good_confirmed d d' (Hash <$> ledger_pending d)) as [HG _]; try done; [intros y Hy; apply list_elem_of_fmap; by exists y|].
    split; [done|]. by eapply confirm_keeps.
Qed.

(** ** scd's own entries *)

Lemma commit_own_inv confirms ends d e s w w' s' :
  commit_own cfg confirms ends d e s w = (w', Ok (s', true)) → typed e → s' = (confirm_own d e, s.2) ∧ recorded [e] w' ∧ in_step cfg w'.
Proof.
  unfold commit_own. intros H HT. apply try_bind_inv in H as (w1 & r & HC & H). destruct r as [[]|]; [|done].
  destruct confirms; cbn [negb] in H; [|by apply ST_bind_Ok in H as (? & ? & _ & [=])].
  destruct ends; [|by apply ST_bind_Ok in H as (? & ? & _ & [=])..]. injection H as <- <-.
  destruct (Commit_ok _ _ _ _ HC ltac:(done) ltac:(by constructor)) as (_ & ? & ?). done.
Qed.

Lemma own_scope_text tenant site : ValidString tenant = true → ValidString site = true →
  ValidString (own_scope tenant site).1 = true ∧ ValidString (own_scope tenant site).2 = true.
Proof. intros Ht Hs. unfold own_scope. by destruct (_ || _). Qed.

(** An entry of scd's own, appended to a ledger with nothing pending. *)
Lemma own_entry_good a d e (s : db) :
  append_with a s.1 = Ok (d, e) → good s.1 → args_ok a →
  typed e ∧ good (confirm_own d e) ∧ entries_of (confirm_own d e) = (entries_of s.1 ++ [e])%list.
Proof.
  intros H HG Ha. destruct (confirm_own_good _ _ _ _ H HG Ha) as (HG' & _ & HE & _ & HW). split_and!; try done.
  destruct HG' as [HW' _]. pose proof (wf_typed _ HW') as HT. rewrite HE, Forall_app, Forall_cons in HT. apply HT.
Qed.

(** scd's own entries are durable before the database keeps them.  When the daily
    checkpoint or the seal of the entries from before the key succeeds, either there was
    nothing to do, or exactly one entry was added to the database, confirmed, and it is
    in both copies of the ledger. *)
Theorem own_entries_are_durable (begins confirms seal : bool) (ends : tx_end) (random tenant site : string) (now : Z) (s s' : db) (w w' : world) :
  (if seal then ledgerSeal cfg begins confirms ends random now tenant site s
   else ledgerCheckpoint cfg begins confirms ends random now tenant site s) w = (w', Ok (s', true)) →
  good s.1 → in_int64 now → ValidString tenant = true → ValidString site = true →
  s' = s ∨ ∃ e, good s'.1 ∧ entries_of s'.1 = (entries_of s.1 ++ [e])%list ∧ recorded [e] w' ∧ in_step cfg w'.
Proof.
  intros H HG Hn Ht Hu. pose proof (own_scope_text tenant site Ht Hu) as [Hs1 Hs2].
  assert (HOwn : ∀ a d e w1, append_with a s.1 = Ok (d, e) → args_ok a → commit_own cfg confirms ends d e s w1 = (w', Ok (s', true)) →
    ∃ e, good s'.1 ∧ entries_of s'.1 = (entries_of s.1 ++ [e])%list ∧ recorded [e] w' ∧ in_step cfg w').
  { intros a d e w1 HA Ha HC. destruct (own_entry_good _ _ _ _ HA HG Ha) as (HT & HG' & HE).
    apply commit_own_inv in HC as (-> & HR & HI); [|done]. by exists e. }
  assert (Ha : ∀ kind, args_ok (mkAppend random now (own_scope tenant site).1 (own_scope tenant site).2 kind "{}")).
  { intros kind. split; [done|]. rewrite !Forall_cons. cbn. by split_and!. }
  destruct seal; unfold ledgerSeal, ledgerCheckpoint in H; apply ST_bind_Ok in H as (w1 & d & [= <- <-] & H);
    (destruct (dest w); [|injection H as _ <-; by left]).
  - destruct (empty (MACKey cfg)); [injection H as _ <-; by left|]. destruct begins; [|done]. cbn [negb] in H.
    destruct (own_scope tenant site) as [t u]. destruct (ledger_seal_legacy random now t u s.1) as [[d [e|]]|] eqn:EL; [|injection H as _ <-; by left|done].
    apply (seal_inv (mkAppend random now t u "" "{}")) in EL as [[_ ?]|(a0 & e0 & [= ->] & _ & HA & Hok)]; [done| |done|apply Ha]. right. by eapply HOwn.
  - destruct begins; [|done]. cbn [negb] in H. destruct (recent now s.1); [injection H as _ <-; by left|].
    destruct (own_scope tenant site) as [t u]. destruct (ledger_append random now t u "checkpoint" "{}" s.1) as [[d e]|] eqn:EL; [|done].
    right. by eapply (HOwn (mkAppend random now t u "checkpoint" "{}")).
Qed.
End serviceproofs.
