(* ===== verification/ErasureServiceSample.v ===== *)
(** A database with its ledger, for the theorems on the database and on scd's service. *)
From S2P Require Import Prelude GoStrings GoText ErasureLedger ErasureProofs ErasureStore ErasureStoreProofs ErasureCommit ErasureNote.
From S2P Require Import ErasureSample ErasureDb ErasureDbProofs ErasureService ErasureServiceProofs.

(** ** PostgreSQL's part *)

Definition sample_seal_text (n : Z) (h : string) : string := bits (positives_flatten [encode n; encode h]).

Lemma sample_seal_read n h : seal_decode (sample_seal_text n h) = Some (n, h).
Proof.
  cbn [seal_decode sampleLib]. unfold sample_seal_text. rewrite unbits_bits. cbn [mbind option_bind]. rewrite positives_unflatten_flatten.
  cbn [mbind option_bind of_seal_positives]. by rewrite !decode_encode.
Qed.

#[export] Instance sampleSql : LedgerSql.
Proof.
  refine {| cast_uuid s := if negb (empty s) && ValidString s then Some s else None; sql_seal := seal_decode; seal_text := sample_seal_text;
    guest_tables := list Entry; replay e g := Some (e :: g) |}.
  - intros s u. destruct (empty s) eqn:E; [done|]. destruct (ValidString s) eqn:V; [|done]. intros [= <-]. by apply empty_false in E.
  - apply sample_seal_read.
  - apply sample_seal_read.
  - intros n h _. apply ascii_valid, bits_ascii.
Defined.

(** ** A ledger *)

Definition fresh_db : LedgerDB := Eval vm_compute in ledger_reset "ledger-1" 1700000000000000 (mkLedgerDB "none" [] (Some sample_key)).
Lemma fresh_good : good fresh_db.
Proof.
  split; [|reflexivity]. change fresh_db with (ledger_reset "ledger-1" 1700000000000000 (mkLedgerDB "none" [] (Some sample_key))).
  apply reset_wf. split_and!; done.
Qed.

Definition first_db : LedgerDB * guest_tables := (fresh_db, []).
Definition sample_append (now : Z) (body : string) : append_args := mkAppend "random" now "tenant" "site" "erase" body.

Lemma sample_args now body : (-9223372036854775808 <=? now) && (now <? 9223372036854775808) && ValidString body = true → args_ok (sample_append now body).
Proof.
  rewrite !andb_true_iff. intros [[H1%Z.leb_le H2%Z.ltb_lt] H3]. split; [split; cbn; unfold two63; lia|]. rewrite !Forall_cons. by split_and!.
Qed.

(** One erasure, confirmed with its receipt, and a checkpoint of scd's own. *)
Definition pending_db : LedgerDB := Eval vm_compute in
  match append_all [sample_append 1700000001000000 "guest 1"] fresh_db with Ok d => d | Err _ => fresh_db end.
Definition sample_receipts : list string := Eval vm_compute in (λ e, Receipt sample_key (Hash e)) <$> ledger_pending pending_db.
Definition sample_txs : list ledger_tx :=
  [TxErase [sample_append 1700000001000000 "guest 1"] sample_receipts; TxOwn (mkAppend "random" 1700000002000000 "tenant" "site" "checkpoint" "{}");
   TxErase [sample_append 1700000003000000 "guest 2"] []].

Lemma database_ledger_only_grows_witness :
  length (entries_of (foldl run_tx first_db sample_txs).1) = 3%nat ∧
  good (foldl run_tx first_db sample_txs).1 ∧ (ledger_verify (foldl run_tx first_db sample_txs).1).1 = true ∧
  Extends 0 "" (ledger_export 0 (foldl run_tx first_db sample_txs).1) = None ∧
  entries_of first_db.1 `prefix_of` ledger_export 0 (foldl run_tx first_db sample_txs).1.
Proof.
  split; [vm_compute; reflexivity|].
  destruct (database_ledger_only_grows sample_txs first_db fresh_good) as (H1 & H2 & H3 & H4).
  - repeat constructor; try done; apply sample_args; vm_compute; reflexivity.
  - split; [exact H1|]. split; [exact H2|]. split; [exact H3|]. apply H4. repeat constructor.
Defined.

Lemma database_check_agrees_witness :
  Forall table_row (confirmed_rows (foldl run_tx first_db sample_txs).1) ∧
  (Extends 0 "" (ledger_export 0 (foldl run_tx first_db sample_txs).1) = None ↔
   (ledger_verify (foldl run_tx first_db sample_txs).1).1 = true ∧
   ∀ e e', e ∈ confirmed_rows (foldl run_tx first_db sample_txs).1 → e' ∈ confirmed_rows (foldl run_tx first_db sample_txs).1 → Ledger e = Ledger e').
Proof.
  assert (HT : Forall table_row (confirmed_rows (foldl run_tx first_db sample_txs).1)).
  { unfold table_row. apply (bool_decide_unpack _). vm_compute. exact I. }
  split; [exact HT|]. exact (database_check_agrees (foldl run_tx first_db sample_txs).1 HT).
Defined.

Lemma seal_authenticates_history_witness :
  Authenticate sample_key (ledger_export 0 fresh_db) = Some 1 ∧
  Authenticate sample_key (ledger_export 0 (run_tx first_db (TxSeal (sample_append 1700000001000000 ""))).1) = None.
Proof.
  split; [vm_compute; reflexivity|].
  refine (seal_authenticates_history (sample_append 1700000001000000 "") first_db sample_key fresh_good _ eq_refl _).
  - apply sample_args. vm_compute. reflexivity.
  - vm_compute. congruence.
Defined.

(** ** scd's service *)

Definition good_answers : db_answers := mkDbAnswers true true true true true TxCommitted.
(** The file is missing and the storage empty. *)
Definition bare_world : world := mkWorld None (Some ∅) [] [].
Definition grown_db : LedgerDB * guest_tables := Eval vm_compute in foldl run_tx first_db sample_txs.
Definition settled_run := Eval vm_compute in ledgerReconcile sample_cfg good_answers false grown_db bare_world.

Lemma grown_good : good grown_db.1.
Proof.
  assert (HE : grown_db = foldl run_tx first_db sample_txs) by (vm_compute; reflexivity). rewrite HE.
  assert (HT : Forall tx_ok sample_txs) by (repeat constructor; try done; apply sample_args; vm_compute; reflexivity).
  revert HT. generalize sample_txs fresh_good. change fresh_db with first_db.1. generalize first_db. intros s l. revert s.
  induction l as [|t l IH]; intros s HG HT; [exact HG|]. apply Forall_cons in HT as [Ht HT]. apply IH; [by apply run_tx_good|exact HT].
Qed.

Lemma reconciled_is_in_step_witness :
  ∃ w' st s', ledgerReconcile sample_cfg good_answers false grown_db bare_world = (w', Ok (st, s')) ∧ ErasureAvailable st = true ∧ length (held w') = 3%nat ∧
    Hash <$> ledger_export 0 s'.1 = Hash <$> held w' ∧ ledger_pending s'.1 = [] ∧ stored_head w' (Head (ParseChain (contents w'))).
Proof.
  destruct settled_run as [w' [[st s']|e]] eqn:E; [|discriminate E]. exists w', st, s'.
  assert (HR : ledgerReconcile sample_cfg good_answers false grown_db bare_world = (w', Ok (st, s'))) by (rewrite <- E; vm_compute; reflexivity).
  injection E as Ew Est Es. assert (HA : ErasureAvailable st = true) by (rewrite <- Est; reflexivity).
  split; [exact HR|]. split; [exact HA|]. split; [rewrite <- Ew; vm_compute; reflexivity|].
  exact (reconciled_is_in_step sample_cfg good_answers false grown_db s' st bare_world w' HR grown_good HA).
Defined.

(** The database as it was before, and the file with all three entries. *)
Definition grown_parse : Parse := Eval vm_compute in ParseChain (Encode (ledger_export 0 grown_db.1)).

Lemma adoption_is_unreachable_witness :
  length (entries_of first_db.1) = 1%nat ∧ length (Entries grown_parse) = 3%nat ∧
  adopts (ledger_export 0 first_db.1) (ledger_id first_db.1) grown_parse = false.
Proof.
  split; [reflexivity|]. split; [reflexivity|].
  refine (adoption_is_unreachable first_db grown_parse fresh_good _ _ _ _ _).
  - apply (bool_decide_unpack _). vm_compute. exact I.
  - vm_compute. reflexivity.
  - discriminate.
  - assert (HB : forallb (λ e, forallb (λ e', bool_decide (preimage e = preimage e') || bool_decide (sha256 (preimage e) ≠ sha256 (preimage e')))
      (Entries grown_parse)) (entries_of first_db.1) = true) by (vm_compute; reflexivity).
    intros (e & e' & He%list_elem_of_In & He'%list_elem_of_In & Hne & Hs). rewrite forallb_forall in HB. specialize (HB _ He).
    rewrite forallb_forall in HB. specialize (HB _ He').
    apply orb_true_iff in HB as [HB%bool_decide_eq_true|HB%bool_decide_eq_true]; [exact (Hne HB)|exact (HB Hs)].
  - vm_compute. reflexivity.
Defined.

(** The file as the database without its pending entry has it. *)
Definition level_world : world := Eval vm_compute in mkWorld (Some (Encode (entries_of fresh_db))) (Some ∅) [] [].
Definition receipts_run := Eval vm_compute in ledgerCommit sample_cfg (ledger_pending pending_db) level_world.

Lemma pending_wf : wf pending_db.
Proof.
  assert (HA : append_all [sample_append 1700000001000000 "guest 1"] fresh_db = Ok pending_db) by (vm_compute; reflexivity).
  apply (append_all_inv _ _ _ HA (proj1 fresh_good)). repeat constructor; try done; vm_compute; reflexivity.
Qed.

Lemma receipts_are_accepted_witness :
  ∃ w' rs, ledgerCommit sample_cfg (ledger_pending pending_db) level_world = (w', Ok rs) ∧ length rs = 1%nat ∧
    ((recorded (ledger_pending pending_db) w' ∧ in_step sample_cfg w' ∧
      ∃ d', ledger_confirm_checked (Hash <$> ledger_pending pending_db) rs pending_db = Ok d' ∧ good d' ∧ entries_of d' = entries_of pending_db) ∨
     collide (entries_of pending_db) (entries_of pending_db)).
Proof.
  destruct receipts_run as [w' [rs|e]] eqn:E; [|discriminate E]. exists w', rs.
  assert (HR : ledgerCommit sample_cfg (ledger_pending pending_db) level_world = (w', Ok rs)) by (rewrite <- E; vm_compute; reflexivity).
  split; [exact HR|]. split; [injection E as _ <-; reflexivity|].
  refine (receipts_are_accepted sample_cfg pending_db rs level_world w' pending_wf _ _ eq_refl HR).
  - apply (bool_decide_unpack _). vm_compute. exact I.
  - discriminate.
Defined.

(** A day later. *)
Definition checkpoint_run := Eval vm_compute in ledgerCheckpoint sample_cfg true true TxCommitted "random" 1700086400000000 "tenant" "site" first_db level_world.

Lemma own_entries_are_durable_witness :
  ∃ w' s', ledgerCheckpoint sample_cfg true true TxCommitted "random" 1700086400000000 "tenant" "site" first_db level_world = (w', Ok (s', true)) ∧
    length (entries_of s'.1) = 2%nat ∧
    (s' = first_db ∨ ∃ e, good s'.1 ∧ entries_of s'.1 = (entries_of first_db.1 ++ [e])%list ∧ recorded [e] w' ∧ in_step sample_cfg w').
Proof.
  destruct checkpoint_run as [w' [[s' []]|e]] eqn:E; [|discriminate E|discriminate E]. exists w', s'.
  assert (HR : ledgerCheckpoint sample_cfg true true TxCommitted "random" 1700086400000000 "tenant" "site" first_db level_world = (w', Ok (s', true)))
    by (rewrite <- E; vm_compute; reflexivity).
  split; [exact HR|]. split; [injection E as _ <-; reflexivity|].
  refine (own_entries_are_durable sample_cfg true true false TxCommitted "random" "tenant" "site" 1700086400000000 first_db s' level_world w' HR fresh_good _ eq_refl eq_refl).
  split; unfold two63; lia.
Defined.
