(* ===== verification/ErasureRecover.v ===== *)
(** The erasure ledger and a change of its secondary storage (cmd/scd/ledger_service.go):
    the recovery of the ledger from the storage, the handover to another storage and the
    request that sets one.

    The key of a backup key holder is what it decrypts.  The objects of a storage that is
    not in use yet are a map of their own; the list of fates goes on over both. *)
From S2P Require Import Prelude GoStrings GoText ErasureLedger ErasureStore ErasureDb ErasureService.

(** Why a recovery is refused. *)
Inductive refusal :=
| NotSetUp | NotAKeyFile | CopyUnread | DbUnavailable | NotReliable | WrittenElsewhere | NotContinued | NotReplayed | FileNotWritten | TxFailed.

Section recover.
Context {L : LedgerLib} {Q : LedgerSql} (cfg : Config).
Abbreviation db := (LedgerDB * guest_tables)%type.

(** ** Recovery *)

Definition first_ledger (es : list Entry) : string := match es with e :: _ => Ledger e | [] => "" end.

(** The head of the database as a witness, unless it holds only its own first entry and
    the storage another ledger. *)
Definition recovery_witness (head : ledger_head_doc) (ext : Copy) : list Witness :=
  if (hd_seq head =? 1) && copy_Intact ext && bool_decide (LedgerID (parse_of ext) ≠ hd_ledger head) then []
  else [mkWitness "the database" (hd_ledger head) (hd_seq head) (hd_hash head)].

Definition choose_copy (head : ledger_head_doc) (ext loc : Copy) : option Copy :=
  let '(copies, wit) := settleFreshLedgers (ext :: if copy_Intact loc then [loc] else []) (recovery_witness head ext) in
  let v := Assess copies wit in
  match Best v with
  | None => None
  | Some best => if (negb (Complete v) && negb ((hd_seq head =? 1) && copy_Intact ext)) || Conflict v then None else Some best
  end.

Definition adopts_copy (head : ledger_head_doc) (entries : list Entry) : bool :=
  (hd_seq head =? 1) && bool_decide (first_ledger entries ≠ hd_ledger head).

Definition recovery_feed (head : ledger_head_doc) (entries : list Entry) : list Entry :=
  if negb (adopts_copy head entries) && (hd_seq head <=? Z.of_nat (length entries)) then drop (Z.to_nat (hd_seq head)) entries else entries.

(** What the database lacks, applied in the transaction. *)
Definition apply_feed (x : db_answers) (feed : list Entry) (adopt : bool) (s : db) : res refusal db :=
  match feed with
  | [] => Ok s
  | _ =>
      match (if apply_ok x then ledger_apply feed adopt s else Err BadUuid) with
      | Err _ => Err DbUnavailable
      | Ok (s', a) =>
          match ap_conflict a, ap_failed a with
          | Some _, _ => Err NotContinued
          | None, Some _ => Err NotReplayed
          | None, None => Ok s'
          end
      end
  end.

(** From the chosen entries on; the first of none cannot be read. *)
Definition recover_entries (x : db_answers) (head : ledger_head_doc) (entries : list Entry) (s : db) : IO (db * option refusal) :=
  if (hd_seq head =? 1) && bool_decide (entries = []) then fail NilDereference
  else
    let adopt := adopts_copy head entries in
    if negb (empty (MACKey cfg)) && bool_decide (AuthenticateAfter (MACKey cfg) entries (if adopt then 0 else hd_seq head) ≠ None)
    then mret (s, Some WrittenElsewhere)
    else match apply_feed x (recovery_feed head entries) adopt s with
         | Err e => mret (s, Some e)
         | Ok s1 =>
             r ← try (RewriteLocal entries);
             match r, commit_end x with
             | Err _, _ => mret (s, Some FileNotWritten)
             | Ok _, TxCommitted => mret (s1, None)
             | Ok _, TxRefused => mret (s, Some TxFailed)
             | Ok _, TxInDoubt => mret (s1, Some TxFailed)
             end
         end.

(** The text of the key holder's key: none, not a key, or a key. *)
Definition ledgerRecoverFromExternal (x : db_answers) (identity : option (option (string → option string))) (s : db) : IO (db * option refusal) :=
  d ← gets dest;
  match d, identity with
  | None, _ => mret (s, Some NotSetUp)
  | Some _, Some None => mret (s, Some NotAKeyFile)
  | Some _, _ =>
      ext ← ReadExternal cfg (mjoin identity);
      if Reach ext then mret (s, Some CopyUnread)
      else if negb (begins_ok x) || negb (head_ok x) then mret (s, Some DbUnavailable)
      else
        let head := ledger_head s.1 in
        loc ← ReadLocal cfg;
        match choose_copy head ext loc with
        | None => mret (s, Some NotReliable)
        | Some best => recover_entries x head (Entries (parse_of best)) s
        end
  end.

(** ** Handover to another storage *)

(** An operation of a store on the same file and on the other storage. *)
Definition on_storage {A} (new : gmap string string) (m : IO A) : IO (res store_error A * gmap string string) := λ w,
  let '(w1, r) := m (mkWorld (local w) (Some new) (fates w) (failed w)) in
  (mkWorld (local w1) (dest w) (fates w1) (failed w1), Ok (r, default new (dest w1))).

Inductive handover_error := NoDatabase | LedgerUnread | FileNotInStep | FileDisagrees | PushFailed | NotReadBack | NotSaved.

(** The push to the other storage and its read-back. *)
Definition copy_to (new : gmap string string) (p : Parse) : IO (gmap string string * option handover_error) :=
  '(r, new1) ← on_storage new (PushExternal cfg);
  match r with
  | Err _ => mret (new1, Some PushFailed)
  | Ok _ =>
      '(h, new2) ← on_storage new1 (readExternalHead cfg);
      match h with
      | Ok (Some (i, true)) =>
          if (hi_Seq i =? (Head p).1) && bool_decide (hi_Hash i = (Head p).2) && bool_decide (hi_Ledger i = LedgerID p)
          then mret (new2, None) else mret (new2, Some NotReadBack)
      | _ => mret (new2, Some NotReadBack)
      end
  end.

(** The file, once it is in step with the database, written to the other storage. *)
Definition first_copy (x : db_answers) (new : gmap string string) (s : db) : IO (gmap string string * option handover_error) :=
  if negb (export_ok x) then mret (new, Some LedgerUnread)
  else
    let dbE := ledger_export 0 s.1 in
    c ← ReadLocal cfg;
    match cp_Parse c with
    | None => mret (new, Some FileNotInStep)
    | Some p =>
        if negb (Present c) || bool_decide (Err_ p ≠ None) || bool_decide (length (Entries p) ≠ length dbE)
        then mret (new, Some FileNotInStep)
        else if match last dbE with Some e => bool_decide (Hash e ≠ (Head p).2) || negb (Seq e =? (Head p).1) | None => false end
        then mret (new, Some FileDisagrees)
        else copy_to new p
    end.

(** [saves]: whether the statement that saves the setting succeeds. *)
Definition ledgerHandover (x : db_answers) (saves aheadOfUs : bool) (new : gmap string string) (s : db) :
    IO (gmap string string * option handover_error) :=
  if negb (begins_ok x) then mret (new, Some NoDatabase)
  else
    '(new1, e) ← (if aheadOfUs then mret (new, None) else first_copy x new s);
    match e with
    | Some e => mret (new1, Some e)
    | None => mret (new1, if negb saves then Some NotSaved else match commit_end x with TxCommitted => None | _ => Some NotSaved end)
    end.

(** ** Setting a storage *)

Inductive put_answer :=
| StorageUnusable | BelongsToAnother | ConnectivityTested | CredentialsNotSealed | InitialCopyFailed | Saved (st : ledgerStatus).

(** What the request meets: whether the storage passes its check, the head can be asked,
    the credentials can be sealed and the setting is saved; the answers to the two
    reconciliations and the handover. *)
Record put_inputs := mkPutInputs {
  check_ok : bool;
  asks_head : bool;
  TestOnly : bool;
  seals : bool;
  saves_ok : bool;
  before : db_answers;
  during : db_answers;
  after : db_answers;
  old_destErr : bool
}.

Definition our_head (i : put_inputs) (s : db) : string * Z :=
  if asks_head i then (hd_ledger (ledger_head s.1), hd_seq (ledger_head s.1)) else ("", 0).

Definition use_storage (new : gmap string string) : IO () := λ w, (mkWorld (local w) (Some new) (fates w) (failed w), Ok ()).

Definition ledgerDestinationPut (i : put_inputs) (new : gmap string string) (s : db) : IO (db * gmap string string * put_answer) :=
  if negb (check_ok i) then mret (s, new, StorageUnusable)
  else
    '(h, _) ← on_storage new (readExternalHead cfg);
    match h with
    | Err _ => mret (s, new, StorageUnusable)
    | Ok found =>
        let '(ourID, ourEntries) := our_head i s in
        if match found with Some (info, _) => bool_decide (hi_Ledger info ≠ ourID) && (1 <? ourEntries) | None => false end
        then mret (s, new, BelongsToAnother)
        else if TestOnly i then mret (s, new, ConnectivityTested)
        else if negb (seals i) then mret (s, new, CredentialsNotSealed)
        else
          let aheadOfUs := match found with
                           | Some (info, _) => bool_decide (hi_Ledger info = ourID) && (ourEntries <? hi_Seq info)
                           | None => false
                           end in
          '(_, s1) ← ledgerReconcile cfg (before i) (old_destErr i) s;
          '(new1, e) ← ledgerHandover (during i) (saves_ok i) aheadOfUs new s1;
          match e with
          | Some _ => mret (s1, new1, InitialCopyFailed)
          | None =>
              _ ← use_storage new1;
              '(st, s2) ← ledgerReconcile cfg (after i) false s1;
              d ← gets dest;
              mret (s2, default new1 d, Saved st)
          end
    end.

(** Whether the request answers that all is well. *)
Definition put_ok (a : put_answer) : bool :=
  match a with
  | Saved st => negb (bool_decide (State st = RecoveryNeeded)) && bool_decide (is_Some (InSync st))
  | _ => false
  end.
End recover.
