(* ===== verification/ErasureRecoverProofs.v ===== *)
(** The recovery of the erasure ledger from its secondary storage, and the change to
    another storage (ErasureRecover). *)
From S2P Require Import Prelude GoStrings GoText ErasureLedger ErasureProofs ErasureStore ErasureStoreProofs ErasureCommit.
From S2P Require Import ErasureDb ErasureDbProofs ErasureService ErasureServiceProofs ErasureRecover.

Section recoverproofs.
Context {L : LedgerLib} {Q : LedgerSql} (cfg : Config).
Abbreviation db := (LedgerDB * guest_tables)%type.

(** ** What the copies are *)

Lemma checked_as_read name b : as_read (mkCopy name true false (Some (checked cfg (ParseChain b)))).
Proof. unfold as_read. change (parse_of _) with (checked cfg (ParseChain b)). destruct (checked_fields cfg (ParseChain b)) as [-> _]. split_and!; [apply ParseChain_chain..|done]. Qed.

Lemma no_entries_as_read c : Entries (parse_of c) = [] → (Reach c = true → Present c = false) → as_read c.
Proof. intros HE HR. unfold as_read. rewrite HE. split_and!; [done|constructor|done]. Qed.

Lemma ReadLocal_as_read w w' c : ReadLocal cfg w = (w', Ok c) → as_read c.
Proof.
  unfold ReadLocal. intros H. apply try_bind_inv in H as (w1 & r & _ & [= <- <-]).
  destruct r as [[b|]|e]; [destruct (empty b); [|apply checked_as_read]|..]; by apply no_entries_as_read.
Qed.

Lemma ReadExternal_as_read open w w' c : ReadExternal cfg open w = (w', Ok c) → as_read c.
Proof.
  unfold ReadExternal. intros H. apply try_bind_inv in H as (w1 & r & _ & H).
  destruct r as [[[info ok]|]|e]; [|injection H as _ <-; by apply no_entries_as_read..].
  apply try_bind_inv in H as (w2 & o & _ & H). destruct o as [obj|[]]; try (injection H as _ <-; by apply no_entries_as_read).
  case_decide; [injection H as _ <-; by apply no_entries_as_read|]. destruct (if Encrypted info then _ else _) as [plain|]; injection H as _ <-; [|by apply no_entries_as_read].
  destruct (_ && _); [by apply no_entries_as_read|apply checked_as_read].
Qed.

Lemma RewriteLocal_held es w w' : RewriteLocal es w = (w', Ok ()) → chain es → Forall typed es → held w' = es.
Proof.
  unfold RewriteLocal. intros H HC HT. assert (HR : local w' = Some (Encode es)).
  { assert (HO : on_error (_ ← plain_op OpMkdir; _ ← plain_op OpOpen; _ ← plain_op OpWrite; _ ← plain_op OpSync; renameOver (Encode es))
      (λ e, fail (LocalError e)) w = (w', Ok ())) by (destruct es as [|e es]; [done|destruct (Extends 0 "" (e :: es)); done]).
    apply on_error_inv in HO as [([] & HO & _)|(? & ? & _ & [=])]. do 4 (apply ST_bind_Ok in HO as (? & [] & _ & HO)).
    unfold renameOver in HO. apply ST_bind_Ok in HO as (w1 & f & _ & HO). apply ST_bind_Ok in HO as (w2 & [] & HP & HO).
    case_decide as Hf; [|done]. injection HO as <-. rewrite Hf in HP. by injection HP as <-. }
  unfold held, contents. rewrite HR. change (Entries (ParseChain (Encode es)) = es). pose proof (ParseChain_Encode es "" HC HT eq_refl) as HP. rewrite append_nil_r in HP. by rewrite HP.
Qed.

(** ** The choice *)

Lemma Assess_one c ws best : Best (Assess [c] ws) = Some best → reliable [c] ws best.
Proof.
  intros HB. destruct (usable c) eqn:Eu.
  - assert (HI : (sort_copies [c]).2 = [c]) by (rewrite sort_copies_intact; by rewrite filter_cons_True).
    assert (HS : sort_copies [c] = ((sort_copies [c]).1, [c])) by (rewrite <- HI at 3; by destruct (sort_copies [c])).
    apply (reliable_one c [c] ws best); [by rewrite filter_cons_True|].
    pose proof (Assess_last [c] ws c [] (sort_copies [c]).1 c HS eq_refl eq_refl) as HL. cbv zeta in HL.
    destruct HL as [(HB' & _ & HF & HX)|[HL _]]; [|destruct (Assess_shape [c] ws) as [[HC _]|[_ HC]]; congruence]. rewrite HB' in HB. injection HB as <-. done.
  - exfalso. unfold Assess in HB. pose proof (sort_copies_intact [c]) as HI. rewrite filter_cons_False in HI by (by rewrite Eu).
    destruct (sort_copies [c]) as [heal intact]. cbn in HI. subst. done.
Qed.

Lemma choose_copy_ok head ext loc best :
  choose_copy head ext loc = Some best → as_read ext → as_read loc →
  ∃ copies ws, settleFreshLedgers (ext :: if copy_Intact loc then [loc] else []) (recovery_witness head ext) = (copies, ws) ∧
    reliable copies ws best ∧ (best = ext ∨ best = loc).
Proof.
  unfold choose_copy. intros H HE HL. destruct (settleFreshLedgers _ _) as [copies ws] eqn:ES. exists copies, ws. split; [done|].
  destruct (Best (Assess copies ws)) as [b|] eqn:EB; [|done]. destruct (_ || _); [done|]. injection H as ->.
  destruct (settle_ok _ _ _ _ ES) as ((HN & HI) & _); [by constructor; [|destruct (copy_Intact loc); [constructor|]]|].
  assert (HR : reliable copies ws best).
  { destruct (copy_Intact loc); cbn in HN.
    - destruct copies as [|c1 [|c2 [|]]]; try done. destruct (Assess_decided c1 c2 ws) as [(_ & HX & _)|(b & _ & _ & HX & HR)]; congruence.
    - destruct copies as [|c [|]]; try done. by apply Assess_one. }
  split; [done|]. destruct HR as (Hb & Hu & _). specialize (HI _ Hb Hu). apply elem_of_cons in HI as [->|HI]; [by left|right].
  destruct (copy_Intact loc); [by apply list_elem_of_singleton in HI|by apply elem_of_nil in HI].
Qed.

(** ** What the database then holds *)

Lemma last_pinned es es' e e' :
  chain es → Forall typed es → Forall clean es → chain es' → Forall typed es' → last es = Some e → e' ∈ es' → Seq e' = Seq e → Hash e' = Hash e →
  content <$> es = content <$> take (length es) es' ∨ collide es es'.
Proof.
  intros HC HT HF HC' HT' Hl [j Hj]%list_elem_of_lookup HS HH. rewrite last_lookup in Hl. pose proof (lookup_lt_Some _ _ _ Hl) as Hlt.
  rewrite (chain_Seq _ _ _ HC' HT' Hj), (chain_Seq _ _ _ HC HT Hl) in HS. assert (j = pred (length es)) as -> by lia.
  destruct (past_pinned es es' _ e e' HC HF HC' Hl Hj) as [HE|]; [done| |by right]. left.
  replace (S (pred (length es))) with (length es) in HE by lia. by rewrite take_ge in HE by done.
Qed.

Lemma content_hashes (es es' : list Entry) : content <$> es = content <$> es' → Hash <$> es = Hash <$> es'.
Proof. intros HE. apply (f_equal (fmap Hash)) in HE. by rewrite <- !list_fmap_compose in HE. Qed.

Lemma good_head d : good d → hd_seq (ledger_head d) = Z.of_nat (length (entries_of d)) ∧ hd_ledger (ledger_head d) = ledger_id d ∧
  ∀ e, last (entries_of d) = Some e → hd_hash (ledger_head d) = Hash e.
Proof.
  intros HG. destruct (good_export _ HG) as [_ HC]. destruct HG as [HW _]. unfold ledger_head. rewrite HC.
  pose proof (chain_head _ (wf_chain _ HW) (wf_typed _ HW)) as HH. destruct (last (entries_of d)) as [e|] eqn:El; cbn in *.
  - case_decide; [done|]. injection HH as ->. split_and!; try done. by intros e' [= ->].
  - apply last_None in El. by rewrite El.
Qed.

(** Applying what the database lacks leaves it with the copy's ledger. *)
Lemma apply_feed_level x es s s1 :
  let head := ledger_head s.1 in
  apply_feed x (recovery_feed head es) (adopts_copy head es) s = Ok s1 → recovery_feed head es ≠ [] →
  good s.1 → chain es → Forall typed es → Forall clean es → hd_seq head ≤ Z.of_nat (length es) →
  good s1.1 ∧ (adopts_copy head es = false → entries_of s.1 `prefix_of` entries_of s1.1) ∧
  (Hash <$> entries_of s1.1 = Hash <$> es ∨ collide es (entries_of s1.1)).
Proof.
  cbv zeta. set (head := ledger_head s.1). intros H Hne HG HC HT HF Hle. destruct (good_head _ HG) as (HS & _). fold head in HS.
  assert (HFd : ∃ n, recovery_feed head es = drop n es).
  { unfold recovery_feed. destruct (_ && _); [by eexists|by exists 0%nat]. }
  destruct HFd as [n HFd]. unfold apply_feed in H. rewrite HFd in H, Hne. destruct (drop n es) as [|f0 fs] eqn:Ed; [done|].
  destruct (if apply_ok x then _ else _) as [[s' a]|] eqn:EA; [|done]. destruct (apply_ok x); [|done].
  destruct (ap_conflict a) eqn:Ec; [done|]. destruct (ap_failed a) eqn:Ef; [done|]. injection H as ->. rewrite <- Ed in EA.
  assert (HTf : Forall typed (drop n es)) by (by apply Forall_drop). pose proof (apply_good _ _ _ _ _ EA HG HTf) as HG'.
  pose proof HG as [HW _]. pose proof HG' as [HW' _].
  apply apply_inv in EA as (_ & d & new & HDd & HGr & HLn & HHo); try done. specialize (HHo Ef Ec). pose proof (grown_entries _ _ _ HGr) as HEn.
  split; [done|]. split; [intros Ha; destruct HDd as [->|[Ha' _]]; [rewrite HEn; by eexists|congruence]|].
  destruct (last es) as [e|] eqn:El; [|apply last_None in El; subst; by rewrite drop_nil in Ed].
  assert (He : e ∈ drop n es).
  { apply (f_equal length) in Ed. rewrite length_drop in Ed. cbn in Ed. rewrite last_lookup in El. apply list_elem_of_lookup.
    exists (pred (length es) - n)%nat. rewrite lookup_drop. by replace (n + (pred (length es) - n))%nat with (pred (length es)) by lia. }
  destruct (HHo e He) as (y & Hy & HSy & HHy).
  destruct (last_pinned es (entries_of s1.1) e y HC HT HF (wf_chain _ HW') (wf_typed _ HW') El Hy HSy HHy) as [HE|]; [left|by right].
  rewrite (content_hashes _ _ HE), take_ge; [done|]. destruct (last new) as [z|] eqn:Ez.
  - assert (z ∈ new) as (e' & He' & HSz)%HLn by (apply last_Some in Ez as [l ->]; apply elem_of_app; right; by left).
    assert (e' ∈ es) as [i Hi]%list_elem_of_lookup by (by eapply sublist_elem; [apply sublist_drop|]).
    assert (HZ : last (entries_of s1.1) = Some z) by (rewrite HEn; apply last_app_Some; by left). rewrite last_lookup in HZ.
    rewrite (chain_Seq _ _ _ (wf_chain _ HW') (wf_typed _ HW') HZ), (chain_Seq _ _ _ HC HT Hi) in HSz. apply lookup_lt_Some in Hi. lia.
  - apply last_None in Ez. subst new. rewrite HEn, app_nil_r. destruct HDd as [->|(_ & _ & Hr)]; [lia|unfold entries_of; rewrite Hr; cbn; lia].
Qed.

(** ** What the chosen copy is *)

Lemma read_intact c : as_read c → copy_Intact c = true → usable c = true.
Proof.
  intros (_ & _ & HR) HI. unfold usable. rewrite HI, andb_true_r. destruct (Reach c); [|done]. specialize (HR eq_refl).
  unfold copy_Intact in HI. by rewrite HR in HI.
Qed.

(** The copy in the storage takes part, unless it is a first entry beside a longer ledger. *)
Lemma storage_kept ext rest wit copies ws best :
  settleFreshLedgers (ext :: rest) wit = (copies, ws) → Forall as_read (ext :: rest) → copy_Intact ext = true → reliable copies ws best → as_read best →
  ext ∈ copies ∨ (length (Entries (parse_of ext)) = 1%nat ∧ (1 < length (Entries (parse_of best)))%nat).
Proof.
  intros HS HR HI HB Hb. unfold settleFreshLedgers in HS. set (id := longest_ledger "" 1 (ext :: rest)) in HS.
  destruct (empty id) eqn:Ei; [injection HS as <- <-; left; by left|]. apply pair_eq in HS as [<- <-].
  destruct (copy_Intact ext && (length (Entries (parse_of ext)) =? 1)%nat && bool_decide (LedgerID (parse_of ext) ≠ id)) eqn:Ec.
  2: { left. apply list_elem_of_fmap. exists ext. rewrite Ec. split; [done|by left]. }
  right. rewrite !andb_true_iff in Ec. destruct Ec as [[_ Hl%Nat.eqb_eq] _]. split; [done|].
  destruct (longest_ledger_from "" 1 (ext :: rest)) as [HX|(c & Hc & HIc & Hlc & _)]; [fold id in HX; by rewrite HX in Ei|].
  rewrite Forall_forall in HR. destruct HB as (_ & _ & _ & HA & _). destruct (HA c) as (_ & Hle & _).
  - apply list_elem_of_fmap. exists c. split; [|done]. rewrite (proj2 (Nat.eqb_neq (length (Entries (parse_of c))) 1)) by lia. by rewrite andb_false_r.
  - apply read_intact; [by apply HR|done].
  - rewrite (headSeq_length c), (headSeq_length best) in Hle by (first [exact Hb|by apply HR]). lia.
Qed.

Lemma pinned_prefix es es' n :
  chain es → Forall typed es → Forall clean es → chain es' → Forall typed es' → length es' = n → (0 < n)%nat →
  Hash <$> es !! pred n = Hash <$> es' !! pred n → Hash <$> es' = Hash <$> take n es ∨ collide es es'.
Proof.
  intros HC HT HF HC' HT' Hn Hp HH. destruct (lookup_lt_is_Some_2 es' (pred n)) as [y Hy]; [lia|]. rewrite Hy in HH.
  destruct (es !! pred n) as [x|] eqn:Ex; [|done]. cbn in HH. injection HH as HH.
  destruct (past_pinned es es' _ x y HC HF HC' Ex Hy HH) as [HE|]; [left|by right].
  replace (S (pred n)) with n in HE by lia. rewrite (take_ge es') in HE by lia. symmetry. by apply content_hashes.
Qed.

Lemma storage_pinned ext copies ws best :
  reliable copies ws best → ext ∈ copies → copy_Intact ext = true → as_read ext → as_read best → Forall clean (Entries (parse_of best)) →
  Hash <$> Entries (parse_of ext) `prefix_of` Hash <$> Entries (parse_of best) ∨ collide (Entries (parse_of best)) (Entries (parse_of ext)).
Proof.
  intros (_ & _ & _ & HA & _) Hin HI HE HB HF. destruct (HA ext Hin (read_intact _ HE HI)) as (_ & _ & HH). rewrite (headSeq_length ext) in HH by done.
  destruct (Entries (parse_of ext)) as [|e l] eqn:EL; [left; apply prefix_nil|]. rewrite <- EL in HH |- *.
  assert (Hp : (0 < length (Entries (parse_of ext)))%nat) by (rewrite EL; cbn; lia). unfold entry_hash in HH.
  replace (Z.to_nat (Z.of_nat (length (Entries (parse_of ext))) - 1)) with (pred (length (Entries (parse_of ext)))) in HH by lia.
  destruct HE as (HCe & HTe & _). destruct HB as (HCb & HTb & _).
  destruct (pinned_prefix _ _ _ HCb HTb HF HCe HTe eq_refl Hp) as [HX|]; [apply HH; lia| |by right]. left. rewrite HX, fmap_take. apply prefix_take.
Qed.

(** The head of the database is among the witnesses that were checked. *)
Lemma database_witnessed (s : db) ext loc best copies ws :
  let head := ledger_head s.1 in
  settleFreshLedgers (ext :: if copy_Intact loc then [loc] else []) (recovery_witness head ext) = (copies, ws) →
  reliable copies ws best → as_read ext → as_read loc → as_read best → good s.1 →
  1 < hd_seq head ∨ (hd_seq head = 1 ∧ length (Entries (parse_of best)) = 1%nat ∧ LedgerID (parse_of best) = hd_ledger head) →
  mkWitness "the database" (hd_ledger head) (hd_seq head) (hd_hash head) ∈ ws.
Proof.
  cbv zeta. set (head := ledger_head s.1). intros HS HR HE HL HB HG HC. assert (HF : Forall as_read (ext :: if copy_Intact loc then [loc] else [])).
  { constructor; [done|]. destruct (copy_Intact loc); [by constructor|constructor]. }
  destruct (settle_ok _ _ _ _ HS HF) as (_ & H2 & H3).
  assert (HW : recovery_witness head ext = [mkWitness "the database" (hd_ledger head) (hd_seq head) (hd_hash head)] ∨
    (hd_seq head = 1 ∧ copy_Intact ext = true ∧ LedgerID (parse_of ext) ≠ hd_ledger head)).
  { unfold recovery_witness. destruct (_ && _) eqn:E; [right|by left]. rewrite !andb_true_iff in E.
    destruct E as [[?%Z.eqb_eq ?] ?%bool_decide_eq_true]. done. }
  destruct HW as [HW|(H1 & HI & HN)].
  - destruct HC as [Hgt|(_ & _ & Hid)]; [apply H2; [rewrite HW; by left|done]|]. apply (H3 _ best); [rewrite HW; by left|done|done].
  - exfalso. destruct HC as [|(_ & Hl & Hid)]; [lia|]. destruct (storage_kept _ _ _ _ _ _ HS HF HI HR HB) as [Hin|[_ ?]]; [|lia].
    destruct HR as (_ & _ & _ & HA & _). destruct (HA _ Hin (read_intact _ HE HI)) as [HX _]. congruence.
Qed.

Lemma chosen_reaches (s : db) ext loc best copies ws :
  let head := ledger_head s.1 in let es := Entries (parse_of best) in
  settleFreshLedgers (ext :: if copy_Intact loc then [loc] else []) (recovery_witness head ext) = (copies, ws) →
  reliable copies ws best → as_read ext → as_read loc → as_read best → good s.1 → Forall clean es → (hd_seq head = 1 → es ≠ []) →
  hd_seq head ≤ Z.of_nat (length es) ∧
  (recovery_feed head es = [] → Hash <$> entries_of s.1 = Hash <$> es ∨ collide es (entries_of s.1)).
Proof.
  cbv zeta. set (head := ledger_head s.1). set (es := Entries (parse_of best)). intros HS HR HE HL HB HG HF H1.
  pose proof (database_witnessed s ext loc best copies ws HS HR HE HL HB HG) as HW. fold head es in HW.
  destruct (good_head _ HG) as (HSq & HId & HHd). fold head in HSq, HId, HHd.
  assert (HX : mkWitness "the database" (hd_ledger head) (hd_seq head) (hd_hash head) ∈ ws → 0 < hd_seq head →
    hd_seq head ≤ Z.of_nat (length es) ∧ (hd_hash head = "" ∨ entry_hash (parse_of best) (hd_seq head) = Some (hd_hash head))).
  { intros Hin Hp. destruct HR as (_ & _ & _ & _ & HFw & _). rewrite Forall_forall in HFw. destruct (HFw _ Hin Hp) as (_ & Hle & Hh).
    cbn in Hle, Hh. split; [|done]. pose proof (headSeq_length best HB) as HLen. unfold headSeq in HLen. by rewrite HLen in Hle. }
  assert (Hle : hd_seq head ≤ Z.of_nat (length es)).
  { destruct (decide (1 < hd_seq head)) as [Hg|Hg]; [apply HX; [by apply HW; left|lia]|].
    destruct (decide (hd_seq head = 1)) as [He|]; [|lia]. specialize (H1 He). destruct es; [done|]. cbn. lia. }
  split; [done|]. intros Hn. unfold recovery_feed in Hn. rewrite (proj2 (Z.leb_le _ _) Hle), andb_true_r in Hn.
  destruct (decide (hd_seq head = 0)) as [Hz|Hz].
  { assert (entries_of s.1 = []) as -> by (apply nil_length_inv; lia). left. assert (es = []) as ->; [|done].
    unfold adopts_copy in Hn. rewrite Hz in Hn. cbn in Hn. by rewrite drop_0 in Hn. }
  destruct (adopts_copy head es) eqn:Ea; cbn [negb] in Hn; [unfold adopts_copy in Ea; apply andb_true_iff in Ea as [Ea%Z.eqb_eq _]; by destruct (H1 Ea)|].
  assert (HLn : length es = length (entries_of s.1)).
  { apply (f_equal length) in Hn. rewrite length_drop in Hn. cbn in Hn. lia. }
  destruct (HX) as [_ Hh]; [|lia|].
  { apply HW. destruct (decide (1 < hd_seq head)); [by left|right]. split_and!; [lia|lia|]. unfold adopts_copy in Ea.
    rewrite (proj2 (Z.eqb_eq (hd_seq head) 1)) in Ea by lia. apply bool_decide_eq_false, dec_stable in Ea. done. }
  destruct HG as [HWf _]. destruct HB as (HCb & HTb & _). destruct (last (entries_of s.1)) as [y|] eqn:Ey; [|apply last_None in Ey; rewrite Ey in HSq; cbn in HSq; lia].
  rewrite (HHd _ eq_refl) in Hh. rewrite last_lookup in Ey. pose proof (chain_Hash _ _ _ (wf_chain _ HWf) Ey) as HCh.
  destruct Hh as [Hh|Hh]; [rewrite HCh in Hh; by apply sha256_ne in Hh|]. unfold entry_hash in Hh.
  destruct (pinned_prefix es (entries_of s.1) (length es) HCb HTb HF (wf_chain _ HWf) (wf_typed _ HWf)) as [HP|]; [lia|lia| |left|by right].
  - rewrite HLn, Ey. replace (pred (length (entries_of s.1))) with (Z.to_nat (hd_seq head - 1)) by lia. exact Hh.
  - by rewrite take_ge in HP by lia.
Qed.

(** What the database holds once the chosen copy's entries are applied. *)
Lemma applied_in_step x (s s1 : db) ext loc best copies ws :
  let head := ledger_head s.1 in let es := Entries (parse_of best) in
  settleFreshLedgers (ext :: if copy_Intact loc then [loc] else []) (recovery_witness head ext) = (copies, ws) →
  reliable copies ws best → as_read ext → as_read loc → as_read best → good s.1 → Forall clean es → (hd_seq head = 1 → es ≠ []) →
  apply_feed x (recovery_feed head es) (adopts_copy head es) s = Ok s1 →
  good s1.1 ∧ (adopts_copy head es = false → entries_of s.1 `prefix_of` entries_of s1.1) ∧
  (Hash <$> entries_of s1.1 = Hash <$> es ∨ collide es (entries_of s1.1)).
Proof.
  cbv zeta. intros HS HR HE HL HB HG HF H1 HA. destruct (chosen_reaches _ _ _ _ _ _ HS HR HE HL HB HG HF H1) as [Hle Hnil].
  destruct (decide (recovery_feed (ledger_head s.1) (Entries (parse_of best)) = [])) as [Hn|Hn].
  - specialize (Hnil Hn). rewrite Hn in HA. injection HA as <-. done.
  - destruct HB as (HC & HT & _). by apply (apply_feed_level x).
Qed.

Lemma recover_entries_ok x head es s s' w w' :
  recover_entries cfg x head es s w = (w', Ok (s', None)) → chain es → Forall typed es →
  (hd_seq head = 1 → es ≠ []) ∧ apply_feed x (recovery_feed head es) (adopts_copy head es) s = Ok s' ∧ held w' = es ∧ dest w' = dest w.
Proof.
  unfold recover_entries. intros H HC HT. destruct (_ && _) eqn:E1; [done|].
  assert (H1 : hd_seq head = 1 → es ≠ []).
  { intros He ->. rewrite He in E1. done. }
  cbv zeta in H. destruct (negb (empty (MACKey cfg)) && _); [done|]. destruct (apply_feed _ _ _ _) as [s1|e]; [|done]. apply try_bind_inv in H as (w1 & r & HW & H).
  destruct r as [[]|e]; [|done]. destruct (commit_end x); try done. injection H as -> ->. pose proof (RewriteLocal_keeps_dest es _ _ _ HW) as [HD _].
  split_and!; try done. by eapply RewriteLocal_held.
Qed.

Lemma ReadExternal_keeps_dest open : preserves keeps_dest (ReadExternal cfg open).
Proof. pose proof (readExternalHead_keeps_dest cfg). pose proof Get_keeps_dest. unfold ReadExternal. keeps_tac. Qed.

(** C21. A recovery loses nothing.  When the recovery from the secondary storage succeeds,
    the database and the file hold the same ledger, authenticated as a whole by the
    database; every entry the copy in the storage holds is in it, and every entry the
    database held before, at its place; a single first entry, of the storage or of the
    database, may be dropped in favour of a longer ledger.  The storage was only read.
    It could only be otherwise if two entries were a collision of SHA-256. *)
Theorem recovery_restores_ledger (x : db_answers) (identity : option (option (string → option string))) (s s' : db) (w w' w1 : world) (ext : Copy) :
  ReadExternal cfg (mjoin identity) w = (w1, Ok ext) → ledgerRecoverFromExternal cfg x identity s w = (w', Ok (s', None)) →
  good s.1 → Forall clean (held w') →
  (good s'.1 ∧ dest w' = dest w ∧ Hash <$> ledger_export 0 s'.1 = Hash <$> held w' ∧
   (copy_Intact ext = true → length (Entries (parse_of ext)) ≠ 1%nat → Hash <$> Entries (parse_of ext) `prefix_of` Hash <$> held w') ∧
   (length (entries_of s.1) ≠ 1%nat → Hash <$> entries_of s.1 `prefix_of` Hash <$> held w')) ∨
  collide (held w') (entries_of s'.1) ∨ collide (held w') (Entries (parse_of ext)).
Proof.
  intros HX H HG HF. unfold ledgerRecoverFromExternal in H. apply ST_bind_Ok in H as (w0 & d & [= <- <-] & H). destruct (dest w) as [m|] eqn:Ed; [|done].
  assert (HR : (ext ← ReadExternal cfg (mjoin identity); if Reach ext then mret (s, Some CopyUnread)
      else if negb (begins_ok x) || negb (head_ok x) then mret (s, Some DbUnavailable)
      else loc ← ReadLocal cfg; match choose_copy (ledger_head s.1) ext loc with None => mret (s, Some NotReliable)
           | Some best => recover_entries cfg x (ledger_head s.1) (Entries (parse_of best)) s end) w = (w', Ok (s', None))) by (by destruct identity as [[|]|]).
  clear H. apply ST_bind_Ok in HR as (w2 & ext' & H1 & H). rewrite HX in H1. injection H1 as <- <-. pose proof (ReadExternal_as_read _ _ _ _ HX) as HE.
  apply ReadExternal_keeps_dest in HX as [HD1 _]. destruct (Reach ext); [done|]. destruct (_ || _); [done|].
  apply ST_bind_Ok in H as (w3 & loc & HLo & H). pose proof (ReadLocal_as_read _ _ _ HLo) as HL. apply ReadLocal_keeps_dest in HLo as [HD2 _].
  destruct (choose_copy _ _ _) as [best|] eqn:EC; [|done]. destruct (choose_copy_ok _ _ _ _ EC HE HL) as (copies & ws & HS & HR & HBo).
  assert (HB : as_read best) by (destruct HBo as [->| ->]; done). pose proof HB as (HC & HT & _).
  apply recover_entries_ok in H as (H1 & HA & HH & HD3); [|done..]. rewrite HH in HF |- *.
  destruct (applied_in_step _ _ _ _ _ _ _ _ HS HR HE HL HB HG HF H1 HA) as (HG' & HP & HQ). destruct HQ as [HQ|]; [|by right; left].
  destruct (good_export _ HG') as [HEx _]. rewrite HEx.
  assert (HSt : copy_Intact ext = true → length (Entries (parse_of ext)) ≠ 1%nat →
    Hash <$> Entries (parse_of ext) `prefix_of` Hash <$> Entries (parse_of best) ∨ collide (Entries (parse_of best)) (Entries (parse_of ext))).
  { intros HI Hl. assert (HFr : Forall as_read (ext :: if copy_Intact loc then [loc] else [])).
    { constructor; [done|]. destruct (copy_Intact loc); [by constructor|constructor]. }
    destruct (storage_kept _ _ _ _ _ _ HS HFr HI HR HB) as [Hin|[? _]]; [|done]. by eapply storage_pinned. }
  assert (HDb : length (entries_of s.1) ≠ 1%nat → Hash <$> entries_of s.1 `prefix_of` Hash <$> Entries (parse_of best)).
  { intros Hl. destruct (good_head _ HG) as (HSq & _). rewrite <- HQ. destruct HP as [l ->]; [|rewrite fmap_app; by eexists].
    unfold adopts_copy. rewrite (proj2 (Z.eqb_neq _ _)); [done|lia]. }
  destruct (copy_Intact ext) eqn:EI; [|left; split_and!; try done; congruence].
  destruct (decide (length (Entries (parse_of ext)) = 1%nat)) as [Hl|Hl]; [left; split_and!; try done; congruence|].
  destruct (HSt eq_refl Hl) as [HO|]; [|by right; right]. left. split_and!; try done. congruence.
Qed.

(** ** Another storage *)

Lemma on_storage_keeps {A} new (m : IO A) w w' r new' :
  on_storage new m w = (w', Ok (r, new')) → preserves keeps_local m →
  local w' = local w ∧ dest w' = dest w ∧
  ∃ w1, m (mkWorld (local w) (Some new) (fates w) (failed w)) = (w1, r) ∧ new' = default new (dest w1) ∧ fates w' = fates w1 ∧ failed w' = failed w1.
Proof.
  unfold on_storage. intros H HK. destruct (m _) as [w1 r1] eqn:E. injection H as <- <- <-. apply HK in E as HL. destruct HL as [HL _].
  cbn. split_and!; try done. by exists w1.
Qed.

(** The world as a store on the storage sees it. *)
Definition seen (new : gmap string string) (w : world) : world := mkWorld (local w) (Some new) (fates w) (failed w).

Lemma copy_to_ok new p w w' new' e :
  copy_to cfg new p w = (w', Ok (new', e)) → local w' = local w ∧ dest w' = dest w ∧ (e = None → stored_head (seen new' w') (Head p)).
Proof.
  unfold copy_to. intros H. apply ST_bind_Ok in H as (w1 & [r new1] & H1 & H). apply on_storage_keeps in H1 as (L1 & D1 & _); [|apply push_keeps_local].
  destruct r as [[]|e1]; [|injection H as <- <- <-; done]. apply ST_bind_Ok in H as (w2 & [h new2] & H2 & H).
  apply on_storage_keeps in H2 as (L2 & D2 & w3 & H3 & HN & _); [|apply readExternalHead_keeps_local]. rewrite L1 in L2. rewrite D1 in D2.
  destruct h as [[[info []]|]|]; try (injection H as <- <- <-; done).
  apply readExternalHead_inv in H3 as [HD HS]. cbn in HD. rewrite HD in HN. cbn in HN. subst new2.
  destruct (_ && _) eqn:E; injection H as <- <- <-; [|done]. split_and!; try done. intros _.
  rewrite !andb_true_iff in E. destruct E as [[E1%Z.eqb_eq E2%bool_decide_eq_true] _]. rewrite E1, E2 in HS. destruct (Head p). by eapply stored_head_dest; [|exact HS].
Qed.

Lemma first_copy_ok x new (s : db) w w' new' e :
  first_copy cfg x new s w = (w', Ok (new', e)) → local w' = local w ∧ dest w' = dest w ∧
  (e = None → ledger_export 0 s.1 ≠ [] → stored_head (seen new' w') (head_row (ledger_export 0 s.1))).
Proof.
  unfold first_copy. intros H. destruct (negb _); [by injection H as <- <- <-|]. cbv zeta in H. apply ST_bind_Ok in H as (w1 & c & H1 & H).
  pose proof (ReadLocal_keeps_local cfg _ _ _ H1) as [L1 _]. apply ReadLocal_keeps_dest in H1 as [D1 _].
  destruct (cp_Parse c) as [p|]; [|by injection H as <- <- <-]. destruct (_ || _); [by injection H as <- <- <-|].
  destruct (match last _ with Some _ => _ | None => _ end) eqn:E; [by injection H as <- <- <-|].
  apply copy_to_ok in H as (L2 & D2 & HS). split_and!; [congruence..|]. intros He Hne. specialize (HS He). unfold head_row.
  destruct (last (ledger_export 0 s.1)) as [y|] eqn:El; [|by apply last_None in El]. apply orb_false_iff in E as [E1%bool_decide_eq_false%dec_stable E2%negb_false_iff%Z.eqb_eq].
  rewrite E1, E2. by destruct (Head p).
Qed.

Lemma handover_ok x saves ahead new (s : db) w w' new' e :
  ledgerHandover cfg x saves ahead new s w = (w', Ok (new', e)) → local w' = local w ∧ dest w' = dest w ∧
  (if ahead then new' = new else e = None → ledger_export 0 s.1 ≠ [] → stored_head (seen new' w') (head_row (ledger_export 0 s.1))).
Proof.
  unfold ledgerHandover. intros H. destruct (negb (begins_ok x)); [injection H as <- <- <-; by destruct ahead|].
  apply ST_bind_Ok in H as (w1 & [new1 e1] & H1 & H). destruct ahead.
  - injection H1 as <- <- <-. by injection H as <- <- _.
  - apply first_copy_ok in H1 as (L1 & D1 & HS). destruct e1 as [e1|]; injection H as <- <- <-; [done|]. split_and!; try done. intros _. by apply HS.
Qed.

Lemma readExternalHead_found w w' found m note info :
  readExternalHead cfg w = (w', Ok found) → dest w = Some m → m !! ExternalHead = Some note → head_decode note = Some info → ∃ ok, found = Some (info, ok).
Proof.
  unfold readExternalHead. intros H Hm Hn Hd. apply try_bind_inv in H as (w1 & r & H1 & H). destruct r as [hb|e].
  - apply Get_inv in H1 as (m' & Hm' & Hb). assert (hb = note) as -> by congruence. rewrite Hd in H. destruct (empty _); [done|]. destruct (_ && _); [done|].
    apply try_bind_inv in H as (w2 & o & _ & H). destruct o as [obj|[]]; try done; injection H as _ <-; by eexists.
  - destruct e; try done. exfalso. unfold Get in H1. apply ST_bind_inv in H1 as [(w2 & [] & (_ & HD & _)%plain_op_inv & H1)|(e & H1 & [= <-])].
    + unfold the_dest, mbind, ST_bind, gets in H1. rewrite HD, Hm in H1. cbn in H1. by rewrite Hn in H1.
    + unfold plain_op in H1. apply ST_bind_inv in H1 as [(w2 & f & _ & H1)|(e & Hf & _)]; [by case_decide|by apply next_keeps in Hf as (_ & _ & _ & f & ? & _)].
Qed.

(** A change of the storage is safe.  A storage that is refused or only tested, and
    one that holds the ledger of another appliance, is not written to, and nothing else
    changes.  When the first copy fails, the storage in use, the file and the database
    are as the reconciliation before it left them.  When the request saves, the new
    storage, at the moment it is taken into use, holds a note of exactly the database's
    head and the object the note names, or it already held this ledger further and was
    not written to; the reconciliation that gives the answer runs on it. *)
Theorem storage_change_is_safe (i : put_inputs) (new new' : gmap string string) (s s' : db) (a : put_answer) (w w' : world) :
  ledgerDestinationPut cfg i new s w = (w', Ok (s', new', a)) →
  match a with
  | Saved st => ∃ w0 w1 w2 st1 s1 new1,
      ledgerReconcile cfg (before i) (old_destErr i) s w0 = (w1, Ok (st1, s1)) ∧
      ((new1 = new ∧ ∃ w3 info ok, readExternalHead cfg (seen new w) = (w3, Ok (Some (info, ok))) ∧
          hi_Ledger info = (our_head i s).1 ∧ (our_head i s).2 < hi_Seq info) ∨
       (ledger_export 0 s1.1 ≠ [] → stored_head (seen new1 w2) (head_row (ledger_export 0 s1.1)))) ∧
      ledgerReconcile cfg (after i) false s1 (seen new1 w2) = (w', Ok (st, s'))
  | InitialCopyFailed => ∃ w0 w1 st1, ledgerReconcile cfg (before i) (old_destErr i) s w0 = (w1, Ok (st1, s')) ∧ dest w' = dest w1 ∧ local w' = local w1
  | _ => s' = s ∧ new' = new ∧ dest w' = dest w ∧ local w' = local w
  end ∧
  (∀ note info, asks_head i = true → good s.1 → (1 < length (entries_of s.1))%nat → new !! ExternalHead = Some note → head_decode note = Some info →
     hi_Ledger info ≠ ledger_id s.1 → s' = s ∧ new' = new ∧ dest w' = dest w ∧ local w' = local w).
Proof.
  unfold ledgerDestinationPut. intros H. destruct (negb (check_ok i)); [injection H as <- <- <- <-; done|].
  apply ST_bind_Ok in H as (w1 & [h new0] & H1 & H). apply on_storage_keeps in H1 as (L1 & D1 & w2 & H2 & _); [|apply readExternalHead_keeps_local].
  destruct h as [found|e]; [|injection H as <- <- <- <-; done].
  destruct (our_head i s) as [ourID ourEntries] eqn:Eo.
  destruct (match found with Some _ => _ | None => false end) eqn:Eb; [injection H as <- <- <- <-; done|].
  assert (HF : ∀ note info, asks_head i = true → good s.1 → (1 < length (entries_of s.1))%nat → new !! ExternalHead = Some note →
    head_decode note = Some info → hi_Ledger info = ledger_id s.1).
  { intros note info Ha HG Hl Hn Hd. destruct (readExternalHead_found _ _ _ new note info H2 eq_refl Hn Hd) as [ok ->].
    unfold our_head in Eo. rewrite Ha in Eo. destruct (good_head _ HG) as (HS & HI & _). injection Eo as <- <-. rewrite HS, HI in Eb.
    apply andb_false_iff in Eb as [Eb%bool_decide_eq_false%dec_stable|Eb%Z.ltb_ge]; [done|lia]. }
  split; [|intros note info Ha HG Hl Hn Hd Hx; by destruct Hx; apply (HF note)]. clear HF.
  destruct (TestOnly i); [injection H as <- <- <- <-; done|]. destruct (negb (seals i)); [injection H as <- <- <- <-; done|].
  cbv zeta in H. set (ahead := match found with Some _ => _ | None => _ end) in H.
  apply ST_bind_Ok in H as (w3 & [st1 s1] & HR & H). apply ST_bind_Ok in H as (w4 & [new1 e] & HH & H). apply handover_ok in HH as (L4 & D4 & HS).
  destruct e as [e|]; [injection H as <- <- <- <-; by exists w1, w3, st1|].
  apply ST_bind_Ok in H as (w5 & [] & [= <-] & H). apply ST_bind_Ok in H as (w6 & [st s2] & HR2 & H). apply ST_bind_Ok in H as (w7 & d & [= <- <-] & [= <- <- <- <-]).
  exists w1, w3, w4, st1, s1, new1. split_and!; [done| |done]. destruct ahead eqn:Ea; [left|right; by apply HS].
  split; [done|]. destruct found as [[info ok]|]; [|done]. apply andb_true_iff in Ea as [Ea%bool_decide_eq_true Eb'%Z.ltb_lt]. by exists w2, info, ok.
Qed.
End recoverproofs.
