(* ===== verification/ErasureRecoverSample.v ===== *)
(** Runs of the recovery from the secondary storage and of a change of it. *)
From S2P Require Import Prelude GoStrings GoText ErasureLedger ErasureProofs ErasureStore ErasureStoreProofs ErasureCommit.
From S2P Require Import ErasureSample ErasureDb ErasureDbProofs ErasureService ErasureServiceProofs ErasureServiceSample ErasureRecover ErasureRecoverProofs.

(** The storage is two entries ahead of the database and the file, as after a restore. *)
Definition ahead_world : world := Eval vm_compute in mkWorld (local level_world) (dest settled_run.1) [] [].
Definition recover_run := Eval vm_compute in ledgerRecoverFromExternal sample_cfg good_answers None first_db ahead_world.
Definition read_run := Eval vm_compute in ReadExternal sample_cfg None ahead_world.

Lemma recovery_restores_ledger_witness :
  ∃ w1 ext w' s', ReadExternal sample_cfg None ahead_world = (w1, Ok ext) ∧
    ledgerRecoverFromExternal sample_cfg good_answers None first_db ahead_world = (w', Ok (s', None)) ∧
    length (held w') = 3%nat ∧ length (Entries (parse_of ext)) = 3%nat ∧ copy_Intact ext = true ∧
    ((good s'.1 ∧ dest w' = dest ahead_world ∧ Hash <$> ledger_export 0 s'.1 = Hash <$> held w' ∧
      (copy_Intact ext = true → length (Entries (parse_of ext)) ≠ 1%nat → Hash <$> Entries (parse_of ext) `prefix_of` Hash <$> held w') ∧
      (length (entries_of first_db.1) ≠ 1%nat → Hash <$> entries_of first_db.1 `prefix_of` Hash <$> held w')) ∨
     collide (held w') (entries_of s'.1) ∨ collide (held w') (Entries (parse_of ext))).
Proof.
  destruct read_run as [w1 [ext|e]] eqn:E1; [|discriminate E1]. destruct recover_run as [w' [[s' [e|]]|e]] eqn:E2; [discriminate E2| |discriminate E2].
  assert (H1 : ReadExternal sample_cfg (mjoin None) ahead_world = (w1, Ok ext)) by (rewrite <- E1; vm_compute; reflexivity).
  assert (H2 : ledgerRecoverFromExternal sample_cfg good_answers None first_db ahead_world = (w', Ok (s', None))) by (rewrite <- E2; vm_compute; reflexivity).
  exists w1, ext, w', s'. split; [exact H1|]. split; [exact H2|]. injection E1 as _ E1. injection E2 as E2 _.
  split; [rewrite <- E2; vm_compute; reflexivity|]. split; [rewrite <- E1; reflexivity|]. split; [rewrite <- E1; vm_compute; reflexivity|].
  apply (recovery_restores_ledger sample_cfg good_answers None first_db s' ahead_world w' w1 ext H1 H2 fresh_good).
  rewrite <- E2. apply (bool_decide_unpack _). vm_compute. exact I.
Defined.

(** A new, empty storage for an appliance that is in step. *)
Definition sample_put : put_inputs := mkPutInputs true true false true true good_answers good_answers good_answers false.
Definition put_run := Eval vm_compute in ledgerDestinationPut sample_cfg sample_put ∅ grown_db settled_run.1.

Lemma storage_change_is_safe_witness :
  ∃ w' s' new' st, ledgerDestinationPut sample_cfg sample_put ∅ grown_db settled_run.1 = (w', Ok (s', new', Saved st)) ∧ put_ok (Saved st) = true ∧
    ∃ w0 w1 w2 st1 s1 new1,
      ledgerReconcile sample_cfg good_answers false grown_db w0 = (w1, Ok (st1, s1)) ∧
      ((new1 = ∅ ∧ ∃ w3 info ok, readExternalHead sample_cfg (seen ∅ settled_run.1) = (w3, Ok (Some (info, ok))) ∧
          hi_Ledger info = (our_head sample_put grown_db).1 ∧ (our_head sample_put grown_db).2 < hi_Seq info) ∨
       (ledger_export 0 s1.1 ≠ [] → stored_head (seen new1 w2) (head_row (ledger_export 0 s1.1)))) ∧
      ledgerReconcile sample_cfg good_answers false s1 (seen new1 w2) = (w', Ok (st, s')).
Proof.
  destruct put_run as [w' [[[s' new'] a]|e]] eqn:E; [|discriminate E]. destruct a as [| | | | |st]; try discriminate E.
  assert (H : ledgerDestinationPut sample_cfg sample_put ∅ grown_db settled_run.1 = (w', Ok (s', new', Saved st))) by (rewrite <- E; vm_compute; reflexivity).
  exists w', s', new', st. split; [exact H|]. split; [injection E as _ _ _ <-; reflexivity|].
  exact (proj1 (storage_change_is_safe sample_cfg sample_put ∅ new' grown_db s' (Saved st) settled_run.1 w' H)).
Defined.
