(* ===== verification/GoNet.v ===== *)
(** Addresses of package net: [ParseIP], [To4], [ParseCIDR], [IPNet.Contains],
    [IP.String] of IPv4, [ParseMAC], the runes of a string and decoded JSON.

    An [IP] is the number its 16 bytes write; IPv4 is the block [::ffff:0:0/96].  A
    zone ("%eth0") is refused by both parsers, so a text with a percent sign is. *)
From stdpp Require Import pretty.
From S2P Require Import Prelude GoStrings GoText.

(** ** Bytes and digits *)

Definition of_be : list Z → Z := foldl (λ a b, a * 256 + b) 0.

Definition hex_val (c : Z) : option Z :=
  if in_range 48 57 c then Some (c - 48) else if in_range 97 102 c then Some (c - 87) else if in_range 65 70 c then Some (c - 55) else None.

(** ** Addresses *)

(** netip's parseIPv4Fields. *)
Fixpoint ipv4_fields (prev : option Z) (val digLen : Z) (fields : list Z) (s : list Z) : option (list Z) :=
  match s with
  | [] => if (length fields <? 3)%nat then None else Some (fields ++ [val])%list
  | c :: s' =>
      if in_range 48 57 c then
        if (digLen =? 1) && (val =? 0) then None
        else
          let val := val * 10 + (c - 48) in
          if 255 <? val then None else ipv4_fields (Some c) val (digLen + 1) fields s'
      else if c =? 46 then
        if bool_decide (prev = None) || bool_decide (s' = []) || bool_decide (prev = Some 46) then None
        else if (length fields =? 3)%nat then None
        else ipv4_fields (Some c) 0 0 (fields ++ [val])%list s'
      else None
  end.

(** The hexadecimal digits in front, at most four: their value, their number, the rest. *)
Fixpoint hex_group (off acc : Z) (s : list Z) : option (Z * Z * list Z) :=
  match s with
  | [] => Some (acc, off, [])
  | c :: s' =>
      match hex_val c with
      | None => Some (acc, off, s)
      | Some d =>
          let acc := Z.shiftl acc 4 + d in
          if 3 <? off then None else if 65535 <? acc then None else hex_group (off + 1) acc s'
      end
  end.

(** The loop of parseIPv6 from the bytes so far; eight groups at most. *)
Fixpoint ipv6_loop (groups : nat) (ip : list Z) (ellipsis : option nat) (s : list Z) : option (list Z * option nat * list Z) :=
  match groups with
  | O => Some (ip, ellipsis, s)
  | S groups' =>
      match hex_group 0 0 s with
      | None => None
      | Some (acc, off, rest) =>
          let ip2 := (ip ++ [Z.shiftr acc 8; Z.land acc 255])%list in
          if off =? 0 then None
          else match rest with
               | [] => Some (ip2, ellipsis, [])
               | c :: more =>
                   if c =? 46 then
                     if bool_decide (ellipsis = None) && negb (length ip =? 12)%nat then None
                     else if (16 <? length ip + 4)%nat then None
                     else (λ f, ((ip ++ f)%list, ellipsis, [])) <$> ipv4_fields None 0 0 [] s
                   else if negb (c =? 58) then None
                   else match more with
                        | [] => None
                        | d :: more' =>
                            if d =? 58 then
                              if bool_decide (ellipsis ≠ None) then None
                              else match more' with
                                   | [] => Some (ip2, Some (length ip2), [])
                                   | _ => ipv6_loop groups' ip2 (Some (length ip2)) more'
                                   end
                            else ipv6_loop groups' ip2 ellipsis more
                        end
               end
      end
  end.

Definition parse_ipv6 (s : list Z) : option (list Z) :=
  let '(ellipsis, s) := match s with c :: d :: s' => if (c =? 58) && (d =? 58) then (Some 0%nat, s') else (None, s) | _ => (None, s) end in
  match ellipsis, s with
  | Some _, [] => Some (replicate 16 0)
  | _, _ =>
      '(ip, ellipsis, rest) ← ipv6_loop 8 [] ellipsis s;
      if bool_decide (rest ≠ []) then None
      else if (length ip <? 16)%nat then
        (λ e, (take e ip ++ replicate (16 - length ip) 0 ++ drop e ip)%list) <$> ellipsis
      else match ellipsis with Some _ => None | None => Some ip end
  end.

(** [netip.ParseAddr], as far as an address without a zone results. *)
Inductive Addr := V4 (n : Z) | V6 (n : Z).

Definition ParseAddr (s : string) : option Addr :=
  let b := bytes_of s in
  if bool_decide (37 ∈ b) then None
  else match list_find (λ c, c = 46 ∨ c = 58) b with
       | None => None
       | Some (_, c) => if c =? 46 then (λ f, V4 (of_be f)) <$> ipv4_fields None 0 0 [] b else (λ ip, V6 (of_be ip)) <$> parse_ipv6 b
       end.

Definition v4_block : Z := Z.shiftl 65535 32.
Definition As16 (a : Addr) : Z := match a with V4 n => v4_block + n | V6 n => n end.
Definition BitLen (a : Addr) : Z := match a with V4 _ => 32 | V6 _ => 128 end.

Definition ParseIP (s : string) : option Z := As16 <$> ParseAddr s.
Definition To4 (ip : Z) : option Z := if Z.shiftr ip 32 =? 65535 then Some (Z.land ip (Z.ones 32)) else None.

(** ** Networks *)

Record IPNet := mkIPNet { net_IP : Z; net_ones : Z; net_bits : Z }.

(** [CIDRMask]. *)
Definition CIDRMask (ones bits : Z) : Z := Z.shiftl (Z.ones ones) (bits - ones).

Fixpoint cut_at (c : Ascii.ascii) (s : string) : option (string * string) :=
  match s with
  | EmptyString => None
  | String x s' => if decide (x = c) then Some ("", s') else (λ p, (String x p.1, p.2)) <$> cut_at c s'
  end.

Definition slash : Ascii.ascii := Ascii.ascii_of_nat 47.

Definition ParseCIDR (s : string) : option (Z * IPNet) :=
  '(addr, mask) ← cut_at slash s;
  a ← ParseAddr addr;
  let n := digits_value mask in
  if negb (empty mask) && all_digits mask && (n <=? BitLen a) then
    let masked := match a with V4 x => V4 (Z.land x (CIDRMask n 32)) | V6 x => V6 (Z.land x (CIDRMask n 128)) end in
    Some (As16 a, mkIPNet (As16 masked) n (BitLen a))
  else None.

(** The mask for a network written in four bytes: the last four of a long one. *)
Definition mask4 (n : IPNet) : Z := Z.land (CIDRMask (net_ones n) (net_bits n)) (Z.ones 32).

Definition Contains (n : IPNet) (ip : Z) : bool :=
  match To4 (net_IP n), To4 ip with
  | Some a, Some x => Z.land a (mask4 n) =? Z.land x (mask4 n)
  | None, None => Z.land (net_IP n) (CIDRMask (net_ones n) 128) =? Z.land ip (CIDRMask (net_ones n) 128)
  | _, _ => false
  end.

(** Four numbers and dots. *)
Definition dotted (n : Z) : string :=
  pretty (Z.shiftr n 24) +:+ "." +:+ pretty (Z.land (Z.shiftr n 16) 255) +:+ "." +:+ pretty (Z.land (Z.shiftr n 8) 255) +:+ "." +:+ pretty (Z.land n 255).
(** [IPNet.String] of a network whose address is the IPv4 address [a]. *)
Definition String4 (n : IPNet) (a : Z) : string := dotted a +:+ "/" +:+ pretty (net_ones n - (net_bits n - 32)).

(** ** Hardware addresses *)

(** Groups of [n] hexadecimal digits, each but the last followed by [sep]. *)
Fixpoint hex_run (n : nat) (s : list Z) : option (list Z) :=
  match n, s with
  | O, _ => Some s
  | S n', c :: s' => if bool_decide (hex_val c = None) then None else hex_run n' s'
  | S _, [] => None
  end.
Fixpoint mac_groups (k n : nat) (sep : Z) (s : list Z) : bool :=
  match k with
  | O => bool_decide (s = [])
  | S k' =>
      match hex_run n s with
      | None => false
      | Some [] => bool_decide (k' = O)
      | Some (c :: s') => (c =? sep) && negb (bool_decide (k' = O)) && mac_groups k' n sep s'
      end
  end.

(** Whether [net.ParseMAC] accepts: pairs with ':' or '-', or fours with '.', for 6, 8 or
    20 bytes. *)
Definition ParseMAC_ok (s : string) : bool :=
  let b := bytes_of s in
  if len s <? 14 then false
  else match b !! 2%nat, b !! 4%nat with
       | Some c, Some d =>
           if (c =? 58) || (c =? 45) then existsb (λ k, mac_groups k 2 c b) [6; 8; 20]%nat
           else (d =? 46) && existsb (λ k, mac_groups k 4 d b) [3; 4; 10]%nat
       | _, _ => false
       end.

(** ** Runes *)

(** [for _, r := range s]: an invalid byte is U+FFFD. *)
Fixpoint runes_of (fuel : nat) (b : list Z) : list Z :=
  match fuel, b with
  | O, _ | _, [] => []
  | S f, b0 :: l0 =>
      let bad := 65533 :: runes_of f l0 in
      if b0 <? 128 then b0 :: runes_of f l0
      else match l0 with
      | b1 :: l1 =>
          if in_range 194 223 b0 && cont b1 then Z.lor (Z.shiftl (b0 - 192) 6) (b1 - 128) :: runes_of f l1
          else match l1 with
          | b2 :: l2 =>
              if in_range 224 239 b0 && (if b0 =? 224 then in_range 160 191 b1 else if b0 =? 237 then in_range 128 159 b1 else cont b1) && cont b2
              then Z.lor (Z.shiftl (b0 - 224) 12) (Z.lor (Z.shiftl (b1 - 128) 6) (b2 - 128)) :: runes_of f l2
              else match l2 with
              | b3 :: l3 =>
                  if in_range 240 244 b0 && (if b0 =? 240 then in_range 144 191 b1 else if b0 =? 244 then in_range 128 143 b1 else cont b1)
                     && cont b2 && cont b3
                  then Z.lor (Z.shiftl (b0 - 240) 18) (Z.lor (Z.shiftl (b1 - 128) 12) (Z.lor (Z.shiftl (b2 - 128) 6) (b3 - 128))) :: runes_of f l3
                  else bad
              | [] => bad
              end
          | [] => bad
          end
      | [] => bad
      end
  end.
Definition runes (s : string) : list Z := runes_of (String.length s) (bytes_of s).

(** [Builder.WriteRune]: the bytes of a rune; a surrogate or a number out of range is
    written as U+FFFD. *)
Definition rune_bytes (r : Z) : list Z :=
  let r := if (r <? 0) || (1114111 <? r) || in_range 55296 57343 r then 65533 else r in
  if r <? 128 then [r]
  else if r <? 2048 then [192 + Z.shiftr r 6; 128 + Z.land r 63]
  else if r <? 65536 then [224 + Z.shiftr r 12; 128 + Z.land (Z.shiftr r 6) 63; 128 + Z.land r 63]
  else [240 + Z.shiftr r 18; 128 + Z.land (Z.shiftr r 12) 63; 128 + Z.land (Z.shiftr r 6) 63; 128 + Z.land r 63].
Definition of_runes (l : list Z) : string := of_bytes (Z.to_nat <$> mjoin (rune_bytes <$> l)).

(** ** Decoded JSON *)

#[warnings="-register-all"] Inductive json := JNull | JBool (b : bool) | JNum (n : Z) | JStr (s : string) | JArr (l : list json) | JObj (l : list (string * json)).
Definition obj := list (string * json).
(** A field of an object; of two with one name the last counts. *)
Definition jget (k : string) (o : obj) : option json := snd <$> last (filter (λ f, f.1 = k) o).

(** ** IPv4 arithmetic *)

Lemma of_be_4 a b c d : of_be [a; b; c; d] = ((a * 256 + b) * 256 + c) * 256 + d.
Proof. done. Qed.

Lemma ipv4_fields_ok prev val digLen fields s f :
  ipv4_fields prev val digLen fields s = Some f → 0 ≤ val ≤ 255 → (length fields ≤ 3)%nat → Forall (λ x, 0 ≤ x ≤ 255) fields →
  length f = 4%nat ∧ Forall (λ x, 0 ≤ x ≤ 255) f.
Proof.
  revert prev val digLen fields. induction s as [|c s IH]; intros prev val digLen fields; cbn [ipv4_fields].
  - destruct (Nat.ltb_spec (length fields) 3); [done|]. intros [= <-] Hv Hl HF. rewrite length_app. cbn. split; [lia|]. apply Forall_app. split; [done|]. constructor; [done|constructor].
  - intros H Hv Hl HF. destruct (in_range 48 57 c) eqn:Ec.
    + destruct (_ && _); [done|]. destruct (Z.ltb_spec 255 (val * 10 + (c - 48))); [done|]. apply (IH _ _ _ _ H); try done.
      unfold in_range in Ec. apply andb_true_iff in Ec as [?%Z.leb_le ?%Z.leb_le]. lia.
    + destruct (c =? 46); [|done]. destruct (_ || _); [done|]. destruct (Nat.eqb_spec (length fields) 3); [done|].
      apply (IH _ _ _ _ H); [lia|rewrite length_app; cbn; lia|]. apply Forall_app. split; [done|]. constructor; [done|constructor].
Qed.

Lemma ParseAddr_v4 s n : ParseAddr s = Some (V4 n) → 0 ≤ n < 2 ^ 32.
Proof.
  unfold ParseAddr. case_bool_decide; [done|]. destruct (list_find _ _) as [[i c]|]; [|done]. destruct (c =? 46); [|by destruct (parse_ipv6 _)].
  destruct (ipv4_fields _ _ _ _ _) as [f|] eqn:E; [|done]. cbn. intros [= <-]. apply ipv4_fields_ok in E as [HL HF]; [|done|cbn; lia|constructor].
  destruct f as [|a [|b [|c' [|d [|]]]]]; try done. rewrite of_be_4. rewrite !Forall_cons in HF. lia.
Qed.

Lemma To4_v4 n : 0 ≤ n < 2 ^ 32 → To4 (v4_block + n) = Some n.
Proof.
  intros Hn. unfold To4, v4_block. rewrite Z.shiftr_div_pow2, Z.shiftl_mul_pow2, Z.land_ones by lia.
  rewrite Z.div_add_l, (Z.div_small n) by lia. rewrite Z.add_0_r. cbn [Z.eqb Pos.eqb]. rewrite Z.add_comm, Z.mod_add, Z.mod_small by lia. done.
Qed.

Lemma To4_range ip x : To4 ip = Some x → 0 ≤ x < 2 ^ 32.
Proof. unfold To4. destruct (_ =? _); [|done]. intros [= <-]. rewrite Z.land_ones by lia. apply Z.mod_pos_bound. lia. Qed.

Lemma To4_inv ip x : To4 ip = Some x → ip = v4_block + x.
Proof.
  unfold To4, v4_block. destruct (Z.eqb_spec (Z.shiftr ip 32) 65535) as [HE|]; [|done]. intros [= <-]. rewrite Z.shiftr_div_pow2 in HE by lia.
  rewrite Z.shiftl_mul_pow2, Z.land_ones by lia. rewrite <- HE, Z.mul_comm. apply Z.div_mod. lia.
Qed.

(** A mask keeps the multiple of the block. *)
Lemma land_mask x ones : 0 ≤ ones ≤ 32 → 0 ≤ x < 2 ^ 32 → Z.land x (CIDRMask ones 32) = x - x mod 2 ^ (32 - ones).
Proof.
  intros Ho Hx. unfold CIDRMask. set (k := 32 - ones).
  assert (HX : Z.land x (Z.shiftl (Z.ones ones) k) = Z.shiftl (Z.land (Z.shiftr x k) (Z.ones ones)) k).
  { apply Z.bits_inj'. intros n Hn. rewrite Z.land_spec, !Z.shiftl_spec by lia. destruct (decide (k ≤ n)) as [Hk|Hk].
    - rewrite Z.land_spec, Z.shiftr_spec by lia. by replace (n - k + k) with n by lia.
    - rewrite !(Z.testbit_neg_r _ (n - k)) by lia. by rewrite andb_false_r. }
  assert (0 < 2 ^ k) by (apply Z.pow_pos_nonneg; lia).
  rewrite HX, Z.land_ones, Z.shiftr_div_pow2, Z.shiftl_mul_pow2 by lia. rewrite Z.mod_small.
  - rewrite (Z.div_mod x (2 ^ k)) at 2 by lia. lia.
  - split; [apply Z.div_pos; lia|]. apply Z.div_lt_upper_bound; [lia|]. unfold k. rewrite <- Z.pow_add_r by lia. replace (32 - ones + ones) with 32 by lia. lia.
Qed.

(** A network of [2 ^ (32 - ones)] addresses from [a] on. *)
Definition v4net (n : IPNet) (a : Z) : Prop :=
  net_bits n = 32 ∧ 0 ≤ net_ones n ≤ 32 ∧ net_IP n = v4_block + a ∧ 0 ≤ a < 2 ^ 32 ∧ a mod 2 ^ (32 - net_ones n) = 0.

Lemma digits_value_nonneg s : all_digits s = true → 0 ≤ digits_value s.
Proof.
  intros HD. unfold digits_value. assert (HG : ∀ l acc, Forall (λ b, 48 ≤ b) l → 0 ≤ acc → 0 ≤ foldl (λ acc b, 10 * acc + (b - 48)) acc l).
  { induction l as [|b l IH]; intros acc HB H0; [done|]. apply Forall_cons in HB as [Hb HB]. cbn. apply IH; [done|lia]. }
  apply HG; [|done]. unfold all_digits in HD. induction s as [|c m IH]; [constructor|]. cbn in HD. apply andb_true_iff in HD as [Hc HD].
  unfold in_range in Hc. apply andb_true_iff in Hc as [?%Z.leb_le _]. constructor; [done|by apply IH].
Qed.

Lemma ParseCIDR_v4 s ip n : ParseCIDR s = Some (ip, n) → net_bits n = 32 → ∃ a, v4net n a.
Proof.
  unfold ParseCIDR. destruct (cut_at slash s) as [[addr mask]|]; [|done]. cbn. destruct (ParseAddr addr) as [[x|x]|] eqn:EA; [|cbn; destruct (_ && _); [intros [= _ <-]; cbn; intros ?; lia|done]|done].
  cbn. destruct (_ && _) eqn:E; [|done]. intros [= <- <-] _. apply andb_true_iff in E as [E1 E2%Z.leb_le]. apply andb_true_iff in E1 as [_ HD].
  pose proof (ParseAddr_v4 _ _ EA) as Hx. pose proof (digits_value_nonneg _ HD) as Hn.
  assert (HM : 0 < 2 ^ (32 - digits_value mask)) by (apply Z.pow_pos_nonneg; lia). pose proof (Z.mod_pos_bound x _ HM) as Hb.
  pose proof (Z.mod_le x _ (proj1 Hx) HM). rewrite land_mask by lia. exists (x - x mod 2 ^ (32 - digits_value mask)). split_and!; try done; cbn; try lia.
  rewrite Zminus_mod_idemp_r, Z.sub_diag. done.
Qed.

Lemma mask4_v4 n a : v4net n a → mask4 n = CIDRMask (net_ones n) 32.
Proof.
  intros (Hb & Ho & _). unfold mask4. rewrite Hb, Z.land_ones by lia. apply Z.mod_small. unfold CIDRMask. rewrite Z.shiftl_mul_pow2, Z.ones_equiv by lia.
  assert (0 < 2 ^ net_ones n) by (apply Z.pow_pos_nonneg; lia). assert (0 < 2 ^ (32 - net_ones n)) by (apply Z.pow_pos_nonneg; lia).
  assert (HP : 2 ^ net_ones n * 2 ^ (32 - net_ones n) = 2 ^ 32) by (rewrite <- Z.pow_add_r by lia; f_equal; lia). split; nia.
Qed.

Lemma Contains_v4 n a ip :
  v4net n a → Contains n ip = true ↔ ∃ x, To4 ip = Some x ∧ a ≤ x < a + 2 ^ (32 - net_ones n).
Proof.
  intros HV. pose proof (mask4_v4 n a HV) as HM. destruct HV as (Hb & Ho & HI & Ha & Hm). unfold Contains. rewrite HI, To4_v4, HM by done.
  destruct (To4 ip) as [x|] eqn:E; [|split; [done|by intros (? & ? & _)]]. pose proof (To4_range _ _ E) as Hx.
  rewrite !land_mask, Hm, Z.sub_0_r, Z.eqb_eq by lia. assert (HK : 0 < 2 ^ (32 - net_ones n)) by (apply Z.pow_pos_nonneg; lia).
  pose proof (Z.mod_pos_bound x _ HK). split.
  - intros HE. exists x. split; [done|]. lia.
  - intros (y & [= <-] & Hy). apply Z.mod_divide in Hm as [q Hq]; [|lia]. pose proof (Z.div_mod x (2 ^ (32 - net_ones n)) ltac:(lia)) as HD.
    set (K := 2 ^ (32 - net_ones n)) in *. set (r := x mod K) in *. assert (x / K = q) by nia. nia.
Qed.
