(* ===== verification/NetCfg.v ===== *)
(** Guest networks (data-plane/internal/netcfg): the model, the checks of names and of a
    set of networks, the portal address, the exceptions to the private-network rule and
    the identifiers derived from a network.

    An issue keeps its field and code; its message is left out.  [sort.Slice] may order
    equal elements as it likes; here they keep their order.  The tables of package
    unicode are the class [UnicodeTables]. *)
From stdpp Require Import pretty.
From S2P Require Import Prelude GoStrings GoText GoNet.

(** The classes of runes the names may use, and their ASCII part. *)
Class UnicodeTables : Type := {
  IsLetter : Z → bool;
  IsDigit : Z → bool;
  IsMark : Z → bool;
  letter_ascii r : 0 ≤ r < 128 → IsLetter r = in_range 65 90 r || in_range 97 122 r;
  digit_ascii r : 0 ≤ r < 128 → IsDigit r = in_range 48 57 r;
  mark_ascii r : 0 ≤ r < 128 → IsMark r = false
}.

(** ** The model (model.go, private_reach.go) *)

Record Pool := mkPool { StartIP : string; EndIP : string }.
Record Reservation := mkReservation { MAC : string; ReservedIP : string; Hostname : string; res_Enabled : bool }.

Definition DHCPLocal : string := "local".
Definition DHCPRelay : string := "relay".

Record GuestNetwork := mkGuestNetwork {
  ID : string;
  Name : string;
  SSIDLabel : string;
  Enabled : bool;
  NetworkType : string;
  ParentInterface : string;
  VLANID : Z;
  BridgeName : string;
  GatewayIP : string;
  SubnetCIDR : string;
  PrefixLen : Z;
  DHCPMode : string;
  DNSMode : string;
  DNSServers : list string;
  DomainName : string;
  LeaseDefault : Z;
  LeaseMin : Z;
  LeaseMax : Z;
  RelayTargets : list string;
  CaptiveEnabled : bool;
  InternetEnabled : bool;
  NATEnabled : bool;
  ClientIsolation : bool;
  Pools : list Pool;
  Reservations : list Reservation
}.

Record PortalTLS := mkPortalTLS {
  HTTPSActive : bool;
  CanonicalHostname : string;
  OneGateHostname : string;
  CustomDomain : string;
  SharedHostname : string
}.

Record PrivateReach := mkPrivateReach { Deny : bool; Allow : list string }.

Record Topology := mkTopology {
  WANInterface : string;
  MgmtInterface : string;
  MgmtAddr : string;
  MgmtCIDRs : list string;
  PortalHTTPPort : Z;
  topo_PrivateReach : PrivateReach;
  MACBinding : bool;
  PortalTLSPort : Z;
  PortalVIP : string;
  topo_PortalTLS : PortalTLS
}.

Definition DefaultTopology : Topology := {|
  WANInterface := "ens160"; MgmtInterface := "ens160"; MgmtAddr := ""; MgmtCIDRs := ["172.16.0.0/12"; "192.168.0.0/16"]; PortalHTTPPort := 8380;
  topo_PrivateReach := mkPrivateReach false []; MACBinding := false; PortalTLSPort := 0; PortalVIP := ""; topo_PortalTLS := mkPortalTLS false "" "" "" "" |}.

Record HostAddr := mkHostAddr { Iface : string; CIDR : string }.
Definition PortalIface : string := "ogportal0".

Record Issue := mkIssue { Field : string; Code : string }.
#[export] Instance issue_eq_dec : EqDecision Issue.
Proof. solve_decision. Defined.

Definition when (b : bool) (field code : string) : list Issue := if b then [mkIssue field code] else [].

(** Enabled networks by VLAN, then by name. *)
Definition net_le (a b : GuestNetwork) : Prop := VLANID a < VLANID b ∨ (VLANID a = VLANID b ∧ string_le (Name a) (Name b)).
#[export] Instance net_le_dec a b : Decision (net_le a b).
Proof. unfold net_le. apply _. Defined.
Definition sortEnabled (nets : list GuestNetwork) : list GuestNetwork := merge_sort net_le (filter (λ n, Enabled n = true) nets).

Definition ipToUint32 (ip : Z) : Z := default 0 (To4 ip).

(** The first four bytes of a mask. *)
Definition mask_head (n : IPNet) : Z :=
  if net_bits n =? 32 then CIDRMask (net_ones n) 32 else Z.shiftr (CIDRMask (net_ones n) 128) 96.

Definition networkAndBroadcast (cidr : string) : option (Z * Z * IPNet) :=
  '(_, n) ← ParseCIDR cidr;
  a ← To4 (net_IP n);
  Some (a, Z.lor a (Z.lxor (Z.ones 32) (mask_head n)), n).

(** FNV-1a of 32 bits. *)
Definition fnv32a (s : string) : Z := foldl (λ h b, (Z.lxor h b * 16777619) mod 2 ^ 32) 2166136261 (bytes_of s).

Definition hex_char (d : Z) : Ascii.ascii := Ascii.ascii_of_nat (Z.to_nat (if d <? 10 then 48 + d else 87 + d)).
(** [%08x] of a 32-bit number. *)
Definition hex8 (h : Z) : string := foldr (λ i, String (hex_char (Z.land (Z.shiftr h (4 * i)) 15))) "" [7; 6; 5; 4; 3; 2; 1; 0].

Definition BridgeNameFor (networkType : string) (vlanID : Z) (id : string) : string :=
  if bool_decide (networkType = "vlan") && (0 <? vlanID) then "br-g" +:+ pretty vlanID else "br-g-" +:+ hex8 (fnv32a id).

Fixpoint str_first (n : nat) (s : string) : string :=
  match n, s with S n', String c s' => String c (str_first n' s') | _, _ => "" end.

Definition VLANIfaceName (parent : string) (vlanID : Z) : string :=
  let suffix := "." +:+ pretty vlanID in
  let max := 15 - len suffix in
  (if max <? len parent then str_first (Z.to_nat max) parent else parent) +:+ suffix.

(** ** Names (fields.go) *)

Inductive name_fault := NameRequired | NameNotText | NameTooLong | NameRune (r : Z) | NameSyntax.

Definition alnum (b : Z) : bool := in_range 65 90 b || in_range 97 122 b || in_range 48 57 b.
Definition iface_byte (b : Z) : bool := alnum b || (b =? 46) || (b =? 95) || (b =? 45).
Definition networkNamePunct : string := "-_.,()+&/:'".

(** ifaceNameRE and, for one part of a name, domainRE. *)
Definition ifaceNameRE (s : string) : bool :=
  match bytes_of s with c :: _ => alnum c && all_bytes iface_byte s | [] => false end.
Definition domainRE (s : string) : bool :=
  match bytes_of s with
  | c :: _ => alnum c && all_bytes (λ b, alnum b || (b =? 45)) s && match last (bytes_of s) with Some d => alnum d | None => false end
  | [] => false
  end.

Section names.
Context {T : UnicodeTables}.

Definition name_rune (r : Z) : bool :=
  IsLetter r || IsDigit r || IsMark r || (r =? 32) || bool_decide (r ∈ bytes_of networkNamePunct).

Definition CheckNetworkName (name : string) : option name_fault :=
  if empty (TrimSpace name) then Some NameRequired
  else if negb (ValidString name) then Some NameNotText
  else if 64 <? Z.of_nat (length (runes name)) then Some NameTooLong
  else NameRune ∘ snd <$> list_find (λ r, name_rune r = false) (runes name).

Definition SafeText (s : string) : string := of_runes ((λ r, if name_rune r then r else 95) <$> runes s).
End names.

Definition CheckIfaceName (name : string) : option name_fault :=
  if empty name then Some NameRequired
  else if 15 <? len name then Some NameTooLong
  else if negb (ifaceNameRE name) then Some NameSyntax
  else None.

Definition TrimSuffix (s suffix : string) : string :=
  if HasSuffix s suffix then str_first (String.length s - String.length suffix) s else s.
Definition dot : Ascii.ascii := Ascii.ascii_of_nat 46.

Definition CheckDomainName (s : string) : option name_fault :=
  if empty s then None
  else if 253 <? len s then Some NameTooLong
  else if existsb (λ l, empty l || (63 <? len l) || negb (domainRE l)) (split_on dot (TrimSuffix s ".")) then Some NameSyntax
  else None.

Definition SafeIface (s : string) : string := map_bytes (λ b, if iface_byte b then b else 95) s.

(** ** The portal address and its names (portal.go) *)

Definition rfc1918 : list IPNet := [mkIPNet (v4_block + 167772160) 8 32; mkIPNet (v4_block + 2886729728) 12 32; mkIPNet (v4_block + 3232235520) 16 32].

Definition ParsePortalIP (s : string) : option Z :=
  let s := TrimSpace s in
  if negb (lacks slash s) then
    '(ip, n) ← ParseCIDR s;
    if (net_ones n =? 32) && (net_bits n =? 32) then To4 ip else None
  else ip ← ParseIP s; To4 ip.

(** The issues of one network or address, as a list over all of them. *)
Definition ValidatePortalIP (vip : string) (nets : list GuestNetwork) (host : list HostAddr) : list Issue :=
  let vip := TrimSpace vip in
  if empty vip then []
  else match ParsePortalIP vip with
       | None => [mkIssue "portal_ip" "portal_ip_invalid"]
       | Some a =>
           let ip := v4_block + a in
           if negb (existsb (λ b, Contains b ip) rfc1918) then [mkIssue "portal_ip" "portal_ip_not_private"]
           else
             (when ((Z.land a 255 =? 0) || (Z.land a 255 =? 255)) "portal_ip" "portal_ip_invalid"
              ++ (n ← nets; match ParseCIDR (SubnetCIDR n) with
                            | Some (_, sub) => when (Contains sub ip) "portal_ip" "portal_ip_overlap"
                            | None => []
                            end)
              ++ (h ← host; if bool_decide (Iface h = PortalIface) then []
                            else match ParseCIDR (CIDR h) with
                                 | Some (hip, sub) => when (bool_decide (is_Some (To4 hip)) && Contains sub ip) "portal_ip" "portal_ip_overlap"
                                 | None => []
                                 end))%list
       end.

Definition lower_alnum (b : Z) : bool := in_range 97 122 b || in_range 48 57 b.
Definition host_label (s : string) : bool :=
  match bytes_of s with
  | c :: _ => (len s <=? 63) && lower_alnum c && all_bytes (λ b, lower_alnum b || (b =? 45)) s
              && match last (bytes_of s) with Some d => lower_alnum d | None => false end
  | [] => false
  end.
(** hostnameRE: two labels at least, the last one of two characters or more and with a
    letter in front. *)
Definition hostnameRE (s : string) : bool :=
  let labels := split_on dot s in
  (1 <? Z.of_nat (length labels)) && forallb host_label labels
  && match last labels with
     | Some t => (2 <=? len t) && match bytes_of t with c :: _ => in_range 97 122 c | [] => false end
     | None => false
     end.
Definition ValidHostname (s : string) : bool := (4 <=? len s) && (len s <=? 253) && hostnameRE s.

Definition captiveAPIURL (topo : Topology) : option string :=
  let p := topo_PortalTLS topo in
  if negb (HTTPSActive p) || negb (ValidHostname (CanonicalHostname p)) || bool_decide (ParsePortalIP (PortalVIP topo) = None) then None
  else Some ("https://" +:+ CanonicalHostname p +:+ "/captive-portal/api").
Definition CaptivePortalURL (gatewayIP : string) (topo : Topology) : string := default "" (captiveAPIURL topo).

Definition PortalURLFor (gatewayIP : string) (httpPort : Z) : string := "http://" +:+ gatewayIP +:+ ":" +:+ pretty httpPort +:+ "/".

Definition portalHTTPPort (topo : Topology) : Z := if 0 <? PortalHTTPPort topo then PortalHTTPPort topo else 8380.

Definition PortalHostnames `{Unicode} (p : PortalTLS) : list string :=
  foldl (λ out h, let h := TrimSuffix (ToLower (TrimSpace h)) "." in
                  if negb (ValidHostname h) || bool_decide (h ∈ out) then out else (out ++ [h])%list)
    [] [SharedHostname p; OneGateHostname p; CustomDomain p].

(** ** Exceptions to the private-network rule (private_reach.go) *)

Definition allowed_net (raw : string) : option string :=
  let raw := TrimSpace raw in
  if empty raw then None
  else
    '(a, n) ← (if negb (lacks slash raw) then '(_, n) ← ParseCIDR raw; a ← To4 (net_IP n); Some (a, n)
               else ip ← ParseIP raw; a ← To4 ip; Some (a, mkIPNet (v4_block + a) 32 32));
    if net_ones n =? 0 then None else Some (String4 n a).
Definition add_new (out : list string) (k : string) : list string := if bool_decide (k ∈ out) then out else (out ++ [k])%list.
Definition NormalizeAllow (l : list string) : list string := sort_Strings (foldl add_new [] (omap allowed_net l)).

(** ** Kea's subnet numbers (render_kea.go) *)

Definition kea_ids : Z := 2147483646.
Definition first_id (id : string) : Z := Z.land (fnv32a id) 2147483647 mod kea_ids + 1.
(** The next number that is not used; a round of all of them suffices. *)
Fixpoint free_id (fuel : nat) (used : gset Z) (v : Z) : Z :=
  match fuel with
  | O => v
  | S f => if bool_decide (v ∈ used) then free_id f used (v mod kea_ids + 1) else v
  end.
Definition assign_id (st : gset Z * gmap string Z) (id : string) : gset Z * gmap string Z :=
  let v := free_id (S (size st.1)) st.1 (first_id id) in ({[v]} ∪ st.1, <[id := v]> st.2).
Definition StableSubnetIDs (nets : list GuestNetwork) : gmap string Z := (foldl assign_id (∅, ∅) (sort_Strings (ID <$> nets))).2.
