(* ===== verification/NetValidate.v ===== *)
(** The checks a set of guest networks passes before it is applied
    (data-plane/internal/netcfg/validate.go). *)
From stdpp Require Import pretty.
From S2P Require Import Prelude GoStrings GoText GoNet NetCfg.

Definition MinSubnetPrefix : Z := 19.
Definition MaxSubnetPrefix : Z := 30.
Definition MinLeaseSeconds : Z := 60.
Definition MaxLeaseSeconds : Z := 7 * 24 * 3600.

Definition at_index (prefix field : string) (i : nat) (rest : string) : string :=
  prefix +:+ field +:+ "[" +:+ pretty (Z.of_nat i) +:+ "]" +:+ rest.
Definition of_network (name rest : string) : string := "networks[" +:+ name +:+ "]" +:+ rest.

(** ** One network *)

Definition is_v4 (s : string) : bool := match ParseIP s with Some ip => bool_decide (is_Some (To4 ip)) | None => false end.

Section one.
Context {T : UnicodeTables}.

Definition bad {A} (fault : option A) : bool := bool_decide (is_Some fault).

(** The texts that reach generated files; only an enabled network is rendered. *)
Definition name_issues (n : GuestNetwork) (prefix : string) : list Issue :=
  (when (empty (TrimSpace (Name n))) (prefix +:+ "name") "required"
   ++ if negb (Enabled n) then []
      else when (negb (empty (Name n)) && negb (empty (TrimSpace (Name n))) && bad (CheckNetworkName (Name n))) (prefix +:+ "name") "invalid_name"
           ++ when (negb (empty (BridgeName n)) && bad (CheckIfaceName (BridgeName n))) (prefix +:+ "bridge_name") "invalid_bridge_name"
           ++ when (negb (empty (ParentInterface n)) && bad (CheckIfaceName (ParentInterface n))) (prefix +:+ "parent_interface") "invalid_interface_name"
           ++ when (bad (CheckDomainName (DomainName n))) (prefix +:+ "domain_name") "invalid_domain"
           ++ mjoin (imap (λ i r, when (bad (CheckDomainName (Hostname r))) (at_index prefix "reservations" i ".hostname") "invalid_hostname") (Reservations n)))%list.
End one.

(** The interfaces there are, and those ever recorded; [None] when not known. *)
Definition interface_issues (n : GuestNetwork) (topo : Topology) (avail known : option (gset string)) (prefix : string) : list Issue :=
  let p := ParentInterface n in
  let f := prefix +:+ "parent_interface" in
  ((if empty p then [mkIssue f "required"]
    else if Enabled n && match avail with Some s => negb (bool_decide (p ∈ s)) | None => false end then
      [mkIssue f (if match known with Some s => bool_decide (p ∈ s) | None => false end then "interface_not_present" else "interface_not_found")]
    else [])
   ++ when (negb (empty p) && (bool_decide (p = MgmtInterface topo) || bool_decide (p = WANInterface topo))) f "protected_interface")%list.

Definition type_issues (n : GuestNetwork) (prefix : string) : list Issue :=
  if bool_decide (NetworkType n = "vlan") then when ((VLANID n <? 1) || (4094 <? VLANID n)) (prefix +:+ "vlan_id") "vlan_out_of_range"
  else if bool_decide (NetworkType n = "untagged") then when (negb (VLANID n =? 0)) (prefix +:+ "vlan_id") "vlan_on_untagged"
  else [mkIssue (prefix +:+ "network_type") "bad_network_type"].

Definition CheckClientSubnetMask (n : IPNet) : list Issue :=
  (when ((net_bits n =? 32) && (MaxSubnetPrefix <? net_ones n)) "subnet_cidr" "subnet_too_small"
   ++ when ((net_bits n =? 32) && (net_ones n <? MinSubnetPrefix)) "subnet_cidr" "subnet_too_large")%list.

Definition CheckClientSubnet (cidr : string) : list Issue :=
  match networkAndBroadcast cidr with
  | None => [mkIssue "subnet_cidr" "bad_subnet"]
  | Some (_, _, n) => CheckClientSubnetMask n
  end.

Definition SubnetHosts (prefix : Z) : Z := if (prefix <? 0) || (30 <? prefix) then 0 else Z.shiftl 1 (32 - prefix) - 2.

Definition subnet_issues (n : GuestNetwork) (prefix : string) : list Issue :=
  let g := prefix +:+ "gateway_ip" in
  (when (negb (is_v4 (GatewayIP n))) g "bad_gateway"
   ++ match networkAndBroadcast (SubnetCIDR n) with
      | None => [mkIssue (prefix +:+ "subnet_cidr") "bad_subnet"]
      | Some (network, broadcast, ipnet) =>
          match ParseIP (GatewayIP n) with
          | Some gw => when (negb (Contains ipnet gw)) g "gateway_outside_subnet"
                       ++ when (bool_decide (To4 gw = Some network)) g "gateway_is_network"
                       ++ when (bool_decide (To4 gw = Some broadcast)) g "gateway_is_broadcast"
          | None => []
          end
          ++ ((λ i, mkIssue (prefix +:+ "subnet_cidr") (Code i)) <$> CheckClientSubnetMask ipnet)
      end)%list.

Definition lease_issues (n : GuestNetwork) (prefix : string) : list Issue :=
  let out v := negb (v =? 0) && ((v <? MinLeaseSeconds) || (MaxLeaseSeconds <? v)) in
  (when (out (LeaseDefault n)) (prefix +:+ "lease_default_seconds") "lease_out_of_range"
   ++ when (out (LeaseMin n)) (prefix +:+ "lease_min_seconds") "lease_out_of_range"
   ++ when (out (LeaseMax n)) (prefix +:+ "lease_max_seconds") "lease_out_of_range"
   ++ when ((0 <? LeaseMin n) && (0 <? LeaseDefault n) && (LeaseDefault n <? LeaseMin n)) (prefix +:+ "lease_min_seconds") "bad_lease_timers"
   ++ when ((0 <? LeaseMax n) && (0 <? LeaseDefault n) && (LeaseMax n <? LeaseDefault n)) (prefix +:+ "lease_max_seconds") "bad_lease_timers")%list.

(** The addresses of a list that are not IPv4, and an empty list. *)
Definition address_issues (field required wrong : string) (l : list string) (prefix : string) : list Issue :=
  (when (bool_decide (l = [])) (prefix +:+ field) required
   ++ mjoin (imap (λ i a, when (negb (is_v4 a)) (at_index prefix field i "") wrong) l))%list.

Definition service_issues (n : GuestNetwork) (topo : Topology) (prefix : string) : list Issue :=
  ((if bool_decide (DNSMode n = "custom") then address_issues "dns_servers" "dns_required" "bad_dns" (DNSServers n) prefix else [])
   ++ (let url := CaptivePortalURL (GatewayIP n) topo in
       when (bool_decide (DHCPMode n = DHCPLocal) && CaptiveEnabled n && bool_decide (is_Some (ParseIP (GatewayIP n)))
             && negb (empty url) && HasPrefix url "https://" && negb (bool_decide (captiveAPIURL topo = Some url)))
         (prefix +:+ "portal_url") "portal_https")
   ++ (if bool_decide (DHCPMode n = DHCPRelay) then address_issues "relay_targets" "relay_required" "bad_relay_target" (RelayTargets n) prefix else []))%list.

(** ** Pools and reservations *)

Abbreviation range := (Z * Z)%type.
Definition in_rng (r : range) (x : Z) : bool := (r.1 <=? x) && (x <=? r.2).

Fixpoint pool_loop (net : option (Z * Z * IPNet)) (gw : option Z) (prefix : string) (i : nat) (ranges : list range) (pools : list Pool) : list Issue :=
  match pools with
  | [] => []
  | p :: pools' =>
      let fp := at_index prefix "pools" i in
      let go := pool_loop net gw prefix (S i) in
      match ParseIP (StartIP p) ≫= To4, ParseIP (EndIP p) ≫= To4 with
      | None, _ => mkIssue (fp ".start_ip") "bad_ip" :: go ranges pools'
      | _, None => mkIssue (fp ".end_ip") "bad_ip" :: go ranges pools'
      | Some su, Some eu =>
          if eu <? su then mkIssue (fp "") "pool_reversed" :: go ranges pools'
          else if match net with Some (_, _, n) => negb (Contains n (v4_block + su)) || negb (Contains n (v4_block + eu)) | None => false end
          then mkIssue (fp "") "pool_outside_subnet" :: go ranges pools'
          else
            (match net with
             | Some (nu, bu, _) => when (in_rng (su, eu) nu) (fp "") "pool_contains_network" ++ when (in_rng (su, eu) bu) (fp "") "pool_contains_broadcast"
             | None => []
             end
             ++ (match gw with Some g => when (in_rng (su, eu) (ipToUint32 g)) (fp "") "pool_contains_gateway" | None => [] end)
             ++ when (existsb (λ o, (su <=? o.2) && (o.1 <=? eu)) ranges) (fp "") "pool_overlap"
             ++ go (ranges ++ [(su, eu)]) pools')%list
      end
  end.

Definition validatePools (n : GuestNetwork) (prefix : string) : list Issue :=
  match Pools n with
  | [] => [mkIssue (prefix +:+ "pools") "no_pool"]
  | ps => pool_loop (networkAndBroadcast (SubnetCIDR n)) (ParseIP (GatewayIP n)) prefix 0 [] ps
  end.

Definition pool_ranges (ps : list Pool) : list range :=
  omap (λ p, match ParseIP (StartIP p), ParseIP (EndIP p) with Some s, Some e => Some (ipToUint32 s, ipToUint32 e) | _, _ => None end) ps.

Fixpoint reservation_loop (net : option (Z * Z * IPNet)) (pools : list range) (prefix : string) (i : nat) (seenMAC seenIP : gset string) (rs : list Reservation) :
    list Issue :=
  match rs with
  | [] => []
  | r :: rs' =>
      let fp := at_index prefix "reservations" i in
      if negb (res_Enabled r) then reservation_loop net pools prefix (S i) seenMAC seenIP rs'
      else
        let mac := ascii_lower (MAC r) in
        let macOK := ParseMAC_ok (MAC r) in
        let seenMAC' := if macOK then {[mac]} ∪ seenMAC else seenMAC in
        (when (negb macOK) (fp ".mac") "bad_mac"
         ++ when (macOK && bool_decide (mac ∈ seenMAC)) (fp ".mac") "dup_reservation_mac"
         ++ match ParseIP (ReservedIP r) ≫= To4 with
            | None => mkIssue (fp ".reserved_ip") "bad_ip" :: reservation_loop net pools prefix (S i) seenMAC' seenIP rs'
            | Some a =>
                when (bool_decide (ReservedIP r ∈ seenIP)) (fp ".reserved_ip") "dup_reservation_ip"
                ++ when (match net with Some (_, _, n) => negb (Contains n (v4_block + a)) | None => false end) (fp ".reserved_ip") "reservation_outside_subnet"
                ++ when (existsb (λ p, in_rng p a) pools) (fp ".reserved_ip") "reservation_in_pool"
                ++ reservation_loop net pools prefix (S i) seenMAC' ({[ReservedIP r]} ∪ seenIP) rs'
            end)%list
  end.

Definition validateReservations (n : GuestNetwork) (prefix : string) : list Issue :=
  reservation_loop (networkAndBroadcast (SubnetCIDR n)) (pool_ranges (Pools n)) prefix 0 ∅ ∅ (Reservations n).

(** ** The set *)

Section set.
Context {T : UnicodeTables}.

Definition ValidateOne (n : GuestNetwork) (topo : Topology) (avail known : option (gset string)) (prefix : string) : list Issue :=
  (name_issues n prefix ++ interface_issues n topo avail known prefix ++ type_issues n prefix ++ subnet_issues n prefix
   ++ lease_issues n prefix ++ service_issues n topo prefix
   ++ if bool_decide (DHCPMode n = DHCPLocal) then validatePools n prefix ++ validateReservations n prefix else [])%list.

Definition vlan_key (n : GuestNetwork) : string := ParentInterface n +:+ "/" +:+ pretty (VLANID n).

Fixpoint names_loop (seenVLAN seenBridge : gset string) (nets : list GuestNetwork) : list Issue :=
  match nets with
  | [] => []
  | n :: nets' =>
      let v := 0 <? VLANID n in
      let b := negb (empty (BridgeName n)) in
      (when (v && bool_decide (vlan_key n ∈ seenVLAN)) (of_network (Name n) "") "duplicate_vlan"
       ++ when (b && bool_decide (BridgeName n ∈ seenBridge)) (of_network (Name n) "") "duplicate_bridge"
       ++ names_loop (if v then {[vlan_key n]} ∪ seenVLAN else seenVLAN) (if b then {[BridgeName n]} ∪ seenBridge else seenBridge) nets')%list
  end.

Fixpoint overlap_loop (ents : list range) (nets : list GuestNetwork) : list Issue :=
  match nets with
  | [] => []
  | n :: nets' =>
      match networkAndBroadcast (SubnetCIDR n) with
      | None => overlap_loop ents nets'
      | Some (lo, hi, _) =>
          (((λ _, mkIssue (of_network (Name n) ".subnet_cidr") "subnet_overlap") <$> filter (λ e, lo ≤ e.2 ∧ e.1 ≤ hi) ents)
           ++ overlap_loop (ents ++ [(lo, hi)]) nets')%list
      end
  end.

(** The issues; the set is accepted when there is none. *)
Definition ValidateSet (nets : list GuestNetwork) (topo : Topology) (avail known : option (gset string)) : list Issue :=
  (mjoin (imap (λ i n, ValidateOne n topo avail known (at_index "" "networks" i ".")) nets)
   ++ names_loop ∅ ∅ (sortEnabled nets) ++ overlap_loop [] (sortEnabled nets))%list.
End set.

Definition host_overlaps (n : IPNet) (topo : Topology) (h : HostAddr) : bool :=
  negb (empty (Iface h)) && (bool_decide (Iface h = WANInterface topo) || bool_decide (Iface h = MgmtInterface topo))
  && match ParseCIDR (CIDR h) with
     | Some (_, hsub) => bool_decide (is_Some (To4 (net_IP hsub))) && (Contains hsub (net_IP n) || Contains n (net_IP hsub))
     | None => false
     end.

Definition ValidateHostOverlap (nets : list GuestNetwork) (topo : Topology) (host : list HostAddr) : list Issue :=
  n ← sortEnabled nets;
  match networkAndBroadcast (SubnetCIDR n) with
  | None => []
  | Some (_, _, ipnet) => when (existsb (host_overlaps ipnet topo) host) (of_network (Name n) ".subnet_cidr") "subnet_overlaps_host"
  end.
