(* ===== verification/NetProofs.v ===== *)
(** A set of guest networks that passes the checks (NetValidate): every network has its
    own addresses, gateway, pools and names. *)
From stdpp Require Import pretty.
From S2P Require Import Prelude GoStrings GoText GoNet NetCfg NetValidate.

(** ** Lists *)

Fixpoint pairwise {A} (R : A → A → Prop) (l : list A) : Prop :=
  match l with [] => True | x :: l' => Forall (R x) l' ∧ pairwise R l' end.

Lemma pairwise_perm {A} (R : A → A → Prop) l l' : (∀ x y, R x y → R y x) → l ≡ₚ l' → pairwise R l → pairwise R l'.
Proof.
  intros HS. induction 1 as [|x l l' HP IH|x y l|l1 l2 l3 _ IH1 _ IH2]; cbn; try done.
  - intros [HF HW]. split; [by rewrite <- HP|by apply IH].
  - intros [[Hyx HFy]%Forall_cons [HFx HW]]. rewrite !Forall_cons. split_and!; try done. by apply HS.
  - intros HW. by apply IH2, IH1.
Qed.

Lemma pairwise_filter {A} (P : A → Prop) `{!∀ x, Decision (P x)} (R : A → A → Prop) l :
  pairwise R (filter P l) → pairwise (λ x y, P x → P y → R x y) l.
Proof.
  induction l as [|x l IH]; [done|]. rewrite filter_cons. case_decide as Hx; cbn.
  - intros [HF HW]. split; [|by apply IH]. rewrite Forall_forall in HF |- *. intros y Hy _ HPy. apply HF. by apply list_elem_of_filter.
  - intros HW. split; [|by apply IH]. apply Forall_true. done.
Qed.

Lemma pairwise_snoc {A} (R : A → A → Prop) l x : pairwise R l → Forall (λ y, R y x) l → pairwise R (l ++ [x])%list.
Proof.
  induction l as [|y l IH]; cbn; [done|]. intros [HF HW] [Hy HX]%Forall_cons. split; [|by apply IH].
  apply Forall_app. split; [done|]. constructor; [done|constructor].
Qed.

Lemma pairwise_both {A} (R S' S : A → A → Prop) l :
  (∀ x y, x ∈ l → y ∈ l → R x y → S' x y → S x y) → pairwise R l → pairwise S' l → pairwise S l.
Proof.
  induction l as [|x l IH]; [done|]. cbn. intros HI [HR HRl] [HS HSl]. split.
  - rewrite Forall_forall in HR, HS |- *. intros y Hy. apply HI; [set_solver..|by apply HR|by apply HS].
  - apply IH; try done. intros y z Hy Hz. apply HI; set_solver.
Qed.

Lemma when_nil b f c : when b f c = [] ↔ b = false.
Proof. destruct b; [done|done]. Qed.

Lemma mjoin_imap_nil {A} (f : nat → A → list Issue) l : mjoin (imap f l) = [] → ∀ x, x ∈ l → ∃ i, f i x = [].
Proof.
  revert f. induction l as [|y l IH]; intros f H x Hx; [by apply elem_of_nil in Hx|]. cbn in H. apply app_nil in H as [H1 H2].
  apply elem_of_cons in Hx as [->|Hx]; [by exists 0%nat|]. destruct (IH _ H2 x Hx) as [i Hi]. by exists (S i).
Qed.

(** Splits the issues of a check that found none. *)
Ltac no_issue :=
  repeat match goal with
  | H : (_ ++ _)%list = [] |- _ => apply app_nil in H as [? ?]
  | H : when _ _ _ = [] |- _ => apply when_nil in H
  | H : _ || _ = false |- _ => apply orb_false_iff in H as [? ?]
  | H : negb _ = false |- _ => apply negb_false_iff in H
  end.

(** ** Subnets *)

Definition colon : Ascii.ascii := Ascii.ascii_of_nat 58.

(** The text is plain IPv4: no colon, so no IPv6 notation. *)
Definition plain (n : GuestNetwork) : Prop := lacks colon (SubnetCIDR n) = true.

(** The IPv4 address with number [x] belongs to the network. *)
Definition subnet (n : GuestNetwork) (x : Z) : Prop :=
  ∃ ip net, ParseCIDR (SubnetCIDR n) = Some (ip, net) ∧ Contains net (v4_block + x) = true.

Lemma lacks_bytes c s : lacks c s = true → byte_of c ∉ bytes_of s.
Proof.
  induction s as [|x s IH]; cbn; [intros _; set_solver|]. intros [Hx%bool_decide_eq_true Hs]%andb_true_iff. apply not_elem_of_cons. split; [|by apply IH].
  unfold byte_of. intros HE. apply Hx. apply Nat2Z.inj in HE. apply (f_equal Ascii.ascii_of_nat) in HE. by rewrite !Ascii.ascii_nat_embedding in HE.
Qed.

Lemma cut_at_lacks c d s a b : cut_at c s = Some (a, b) → lacks d s = true → lacks d a = true.
Proof.
  revert a b. induction s as [|x s IH]; intros a b; cbn; [done|]. case_decide as Hx; [by intros [= <- <-]|].
  destruct (cut_at c s) as [[a' b']|] eqn:E; [|done]. cbn. intros [= <- <-] [Hd Hs]%andb_true_iff. cbn. by rewrite Hd, (IH _ _ eq_refl Hs).
Qed.

Lemma plain_bits s ip n : ParseCIDR s = Some (ip, n) → lacks colon s = true → net_bits n = 32.
Proof.
  unfold ParseCIDR. intros H HL. destruct (cut_at slash s) as [[addr mask]|] eqn:EC; [|done]. cbn in H. pose proof (cut_at_lacks _ _ _ _ _ EC HL) as HA.
  destruct (ParseAddr addr) as [[x|x]|] eqn:EA; [|exfalso|done].
  - cbn in H. destruct (_ && _); [|done]. by injection H as <- <-.
  - unfold ParseAddr in EA. case_bool_decide; [done|]. destruct (list_find _ _) as [[i c]|] eqn:EF; [|done].
    apply list_find_Some in EF as (Hi & [-> | ->] & _); cbn in EA; [by destruct (ipv4_fields _ _ _ _ _)|].
    apply list_elem_of_lookup_2 in Hi. by apply lacks_bytes in HA.
Qed.

(** A subnet is a block of addresses, from [a], of [2 ^ k]. *)
Definition block (n : GuestNetwork) (a k : Z) : Prop :=
  0 ≤ a ∧ 0 ≤ k ≤ 32 ∧ a + 2 ^ k ≤ 2 ^ 32 ∧ ∀ x, 0 ≤ x < 2 ^ 32 → subnet n x ↔ a ≤ x < a + 2 ^ k.

Lemma v4net_end n a : v4net n a → a + 2 ^ (32 - net_ones n) ≤ 2 ^ 32.
Proof.
  intros (_ & Ho & _ & Ha & Hm). apply Z.mod_divide in Hm as [q Hq]; [|apply Z.pow_nonzero; lia].
  assert (HP : 2 ^ net_ones n * 2 ^ (32 - net_ones n) = 2 ^ 32) by (rewrite <- Z.pow_add_r by lia; f_equal; lia).
  assert (0 < 2 ^ (32 - net_ones n)) by (apply Z.pow_pos_nonneg; lia). set (K := 2 ^ (32 - net_ones n)) in *. set (M := 2 ^ net_ones n) in *.
  assert (q < M) by (apply (Z.mul_lt_mono_pos_r K); lia). assert ((q + 1) * K ≤ M * K) by (apply Z.mul_le_mono_nonneg_r; lia). lia.
Qed.

Lemma broadcast_value n a : v4net n a → Z.lor a (Z.lxor (Z.ones 32) (mask_head n)) = a + 2 ^ (32 - net_ones n) - 1.
Proof.
  intros (Hb & Ho & _ & Ha & Hm). unfold mask_head. rewrite Hb. cbn [Z.eqb Pos.eqb]. set (k := 32 - net_ones n) in *.
  assert (HX : Z.lxor (Z.ones 32) (CIDRMask (net_ones n) 32) = Z.ones k).
  { unfold CIDRMask. fold k. apply Z.bits_inj'. intros i Hi. rewrite Z.lxor_spec, Z.shiftl_spec by lia. destruct (decide (i < k)) as [Hk|Hk].
    - rewrite (Z.testbit_neg_r _ (i - k)) by lia. rewrite !Z.ones_spec_low by lia. done.
    - destruct (decide (i < 32)) as [H3|H3].
      + rewrite (Z.ones_spec_low 32), (Z.ones_spec_low (net_ones n)), (Z.ones_spec_high k) by lia. done.
      + rewrite (Z.ones_spec_high 32), (Z.ones_spec_high (net_ones n)), (Z.ones_spec_high k) by lia. done. }
  rewrite HX. rewrite <- Z.lxor_lor, <- Z.add_nocarry_lxor; [rewrite Z.ones_equiv; lia|..]; rewrite Z.land_ones by lia; done.
Qed.

Lemma plain_block n net bc ipnet :
  plain n → networkAndBroadcast (SubnetCIDR n) = Some (net, bc, ipnet) →
  v4net ipnet net ∧ bc = net + 2 ^ (32 - net_ones ipnet) - 1 ∧ block n net (32 - net_ones ipnet) ∧
  ∀ x, 0 ≤ x < 2 ^ 32 → Contains ipnet (v4_block + x) = true ↔ net ≤ x < net + 2 ^ (32 - net_ones ipnet).
Proof.
  intros HP H. unfold networkAndBroadcast in H. destruct (ParseCIDR (SubnetCIDR n)) as [[ip m]|] eqn:EC; [|done]. cbn in H.
  pose proof (plain_bits _ _ _ EC HP) as Hb. destruct (ParseCIDR_v4 _ _ _ EC Hb) as [a HV]. pose proof HV as (_ & Ho & HI & Ha & _).
  rewrite HI, To4_v4 in H by done. cbn in H. injection H as <- <- <-.
  assert (HC : ∀ x, 0 ≤ x < 2 ^ 32 → Contains m (v4_block + x) = true ↔ a ≤ x < a + 2 ^ (32 - net_ones m)).
  { intros x Hx. rewrite (Contains_v4 m a _ HV). rewrite To4_v4 by done. split; [by intros (? & [= <-] & ?)|intros ?; by exists x]. }
  split_and!; try done; [by apply broadcast_value|]. split_and!; try lia; [by apply v4net_end|]. intros x Hx. rewrite <- HC by done. unfold subnet. rewrite EC.
  split; [by intros (? & ? & [= <- <-] & ?)|intros ?; by exists ip, m].
Qed.

(** ** Pools and reservations *)

Definition range_of (p : Pool) : option range :=
  match ParseIP (StartIP p) ≫= To4, ParseIP (EndIP p) ≫= To4 with Some s, Some e => Some (s, e) | _, _ => None end.
Definition apart (r r' : range) : Prop := r.2 < r'.1 ∨ r'.2 < r.1.

Definition pool_fits (nu bu g : Z) (ipn : IPNet) (p : Pool) : Prop :=
  ∃ r, range_of p = Some r ∧ r.1 ≤ r.2 ∧ Contains ipn (v4_block + r.1) = true ∧ Contains ipn (v4_block + r.2) = true ∧
    in_rng r nu = false ∧ in_rng r bu = false ∧ in_rng r g = false.

Lemma pool_loop_ok nu bu ipn gw prefix i ranges ps :
  pool_loop (Some (nu, bu, ipn)) (Some gw) prefix i ranges ps = [] → pairwise apart ranges →
  Forall (pool_fits nu bu (ipToUint32 gw) ipn) ps ∧ pairwise apart (ranges ++ omap range_of ps)%list.
Proof.
  revert i ranges. induction ps as [|p ps IH]; intros i ranges H HW; [cbn; by rewrite app_nil_r|]. cbn [pool_loop] in H.
  destruct (ParseIP (StartIP p) ≫= To4) as [su|] eqn:Es; [|done]. destruct (ParseIP (EndIP p) ≫= To4) as [eu|] eqn:Ee; [|done].
  destruct (Z.ltb_spec eu su); [done|]. destruct (_ || _) eqn:EC; [done|].
  apply app_nil in H as [Hnet H]. apply app_nil in H as [Hgw H]. apply app_nil in H as [Hov H]. no_issue.
  assert (HR : range_of p = Some (su, eu)) by (unfold range_of; by rewrite Es, Ee).
  destruct (IH _ _ H) as [HF HW'].
  { apply pairwise_snoc; [done|]. rewrite Forall_forall. intros o Ho. apply not_true_iff_false in Hov. unfold apart. cbn.
    destruct (decide (o.2 < su ∨ eu < o.1)) as [|Hn]; [done|]. exfalso. apply Hov. apply existsb_exists. exists o. split; [by apply list_elem_of_In|].
    apply andb_true_iff. rewrite !Z.leb_le. lia. }
  split.
  - constructor; [|done]. exists (su, eu). by split_and!.
  - cbn. rewrite HR. by rewrite <- app_assoc in HW'.
Qed.

Definition reservation_fits (ipn : IPNet) (pools : list range) (r : Reservation) : Prop :=
  res_Enabled r = true → ParseMAC_ok (MAC r) = true ∧
  ∃ a, (ParseIP (ReservedIP r) ≫= To4) = Some a ∧ Contains ipn (v4_block + a) = true ∧ Forall (λ p, in_rng p a = false) pools.

Definition other_reservation (r r' : Reservation) : Prop :=
  res_Enabled r = true → res_Enabled r' = true → ascii_lower (MAC r) ≠ ascii_lower (MAC r') ∧ ReservedIP r ≠ ReservedIP r'.

Lemma reservation_loop_ok nu bu ipn pools prefix i macs ips rs :
  reservation_loop (Some (nu, bu, ipn)) pools prefix i macs ips rs = [] →
  Forall (λ r, reservation_fits ipn pools r ∧ (res_Enabled r = true → (ascii_lower (MAC r) ∉ macs) ∧ ReservedIP r ∉ ips)) rs ∧ pairwise other_reservation rs.
Proof.
  revert i macs ips. induction rs as [|r rs IH]; intros i macs ips H; [by split|]. cbn [reservation_loop] in H.
  destruct (res_Enabled r) eqn:Er; cbn [negb] in H.
  - apply app_nil in H as [Hmac H]. apply app_nil in H as [Hdup H]. apply when_nil, negb_false_iff in Hmac. apply when_nil in Hdup.
    destruct (ParseIP (ReservedIP r) ≫= To4) as [a|] eqn:Ea; [|done]. apply app_nil in H as [Hip H]. apply app_nil in H as [Hout H].
    apply app_nil in H as [Hin H]. apply when_nil, bool_decide_eq_false in Hip. apply when_nil, negb_false_iff in Hout. apply when_nil, not_true_iff_false in Hin.
    rewrite Hmac in Hdup, H. apply bool_decide_eq_false in Hdup. destruct (IH _ _ _ H) as [HF HW].
    split; [constructor|split]; [split; [|done]|..|done].
    + intros _. split; [done|]. exists a. split_and!; try done. rewrite Forall_forall. intros p Hp. apply not_true_iff_false. intros Hx.
      apply Hin. apply existsb_exists. exists p. split; [by apply list_elem_of_In|done].
    + eapply Forall_impl; [exact HF|]. intros x [Hx Hs]. split; [done|]. intros Hx'. destruct (Hs Hx') as [? ?]. set_solver.
    + eapply Forall_impl; [exact HF|]. intros x [Hx Hs] _ Hx'. destruct (Hs Hx') as [? ?]. set_solver.
  - destruct (IH _ _ _ H) as [HF HW]. split; [constructor; [|done]|].
    + split; [by intros ?; congruence|by intros ?; congruence].
    + split; [|done]. apply Forall_true. intros x Hr. congruence.
Qed.

(** ** Names and overlaps over the set *)

Definition other_names (n m : GuestNetwork) : Prop :=
  (0 < VLANID n → ParentInterface n = ParentInterface m → VLANID n ≠ VLANID m) ∧ (BridgeName n ≠ "" → BridgeName n ≠ BridgeName m).

Lemma other_names_sym n m : other_names n m → other_names m n.
Proof. intros [H1 H2]. split; [intros Hv Hp He; apply H1; congruence|intros Hb He; apply H2; congruence]. Qed.

Lemma names_loop_ok vlans bridges nets :
  names_loop vlans bridges nets = [] →
  Forall (λ n, (0 < VLANID n → vlan_key n ∉ vlans) ∧ (BridgeName n ≠ "" → BridgeName n ∉ bridges)) nets ∧ pairwise other_names nets.
Proof.
  revert vlans bridges. induction nets as [|n nets IH]; intros vlans bridges H; [by split|]. cbn [names_loop] in H.
  apply app_nil in H as [Hv H]. apply app_nil in H as [Hb H]. apply when_nil in Hv, Hb. destruct (IH _ _ H) as [HF HW].
  assert (HN : (0 < VLANID n → vlan_key n ∉ vlans) ∧ (BridgeName n ≠ "" → BridgeName n ∉ bridges)).
  { split.
    - intros Hp. rewrite (proj2 (Z.ltb_lt _ _) Hp) in Hv. by apply bool_decide_eq_false in Hv.
    - intros Hp. rewrite (proj2 (empty_false _) Hp) in Hb. by apply bool_decide_eq_false in Hb. }
  split; [constructor; [done|]|split; [|done]]; (eapply Forall_impl; [exact HF|]); intros m [Hm1 Hm2]; split.
  - intros Hp. specialize (Hm1 Hp). destruct (0 <? VLANID n); set_solver.
  - intros Hp. specialize (Hm2 Hp). destruct (negb _); set_solver.
  - intros Hp HP HV. assert (0 < VLANID m) as Hpm by lia. specialize (Hm1 Hpm). rewrite (proj2 (Z.ltb_lt _ _) Hp) in Hm1. apply Hm1.
    unfold vlan_key. rewrite HP, HV. set_solver.
  - intros Hp HE. assert (Hm : BridgeName m ≠ "") by congruence. specialize (Hm2 Hm). rewrite (proj2 (empty_false _) Hp) in Hm2. rewrite HE in Hm2. set_solver.
Qed.

Definition net_range (n : GuestNetwork) : option range := (λ x, (x.1.1, x.1.2)) <$> networkAndBroadcast (SubnetCIDR n).

Lemma overlap_loop_ok ents nets :
  overlap_loop ents nets = [] → Forall (λ n, ∀ r, net_range n = Some r → Forall (λ e, apart e r) ents) nets ∧
  pairwise (λ n m, ∀ r r', net_range n = Some r → net_range m = Some r' → apart r r') nets.
Proof.
  revert ents. induction nets as [|n nets IH]; intros ents H; [by split|]. cbn [overlap_loop] in H. unfold net_range at 1.
  destruct (networkAndBroadcast (SubnetCIDR n)) as [[[lo hi] ipn]|] eqn:EN.
  - apply app_nil in H as [HO%fmap_nil_inv H]. destruct (IH _ H) as [HF HW].
    split; [constructor|split; [|done]].
    + intros r. rewrite EN. intros [= <-]. rewrite Forall_forall. intros e He. unfold apart. cbn.
      destruct (decide (e.2 < lo ∨ hi < e.1)) as [|Hn]; [done|]. exfalso.
      assert (e ∈ filter (λ e, lo ≤ e.2 ∧ e.1 ≤ hi) ents) as Hin by (apply list_elem_of_filter; split; [lia|done]). rewrite HO in Hin. by apply elem_of_nil in Hin.
    + eapply Forall_impl; [exact HF|]. intros m Hm r Hr. specialize (Hm r Hr). by apply Forall_app in Hm as [? _].
    + eapply Forall_impl; [exact HF|]. intros m Hm r r' Hr Hr'. unfold net_range in Hr. rewrite EN in Hr. injection Hr as <-.
      specialize (Hm r' Hr'). apply Forall_app in Hm as [_ Hm]. by apply Forall_cons in Hm as [? _].
  - destruct (IH _ H) as [HF HW]. split; [constructor; [by rewrite EN|done]|split; [|done]]. apply Forall_true. intros m r r' Hr. unfold net_range in Hr. by rewrite EN in Hr.
Qed.

(** ** A checked network *)

(** The network has the addresses from [a] to [a + 2 ^ k - 1] and the gateway [g]; what
    is handed out lies between its first and last address, and apart from the gateway. *)
Record served (n : GuestNetwork) (a k g : Z) : Prop := {
  served_block : block n a k;
  served_width : 2 ≤ k ≤ 13;
  served_gateway : ParseIP (GatewayIP n) = Some (v4_block + g) ∧ a < g < a + 2 ^ k - 1;
  served_pools : DHCPMode n = DHCPLocal → Pools n ≠ [] ∧ pairwise apart (omap range_of (Pools n)) ∧
    Forall (λ p, ∃ r, range_of p = Some r ∧ a < r.1 ∧ r.1 ≤ r.2 ∧ r.2 < a + 2 ^ k - 1 ∧ ¬ (r.1 ≤ g ≤ r.2)) (Pools n);
  served_reservations : DHCPMode n = DHCPLocal → pairwise other_reservation (Reservations n) ∧
    Forall (λ r, res_Enabled r = true → ∃ x, ParseIP (ReservedIP r) = Some (v4_block + x) ∧ a ≤ x < a + 2 ^ k ∧
      Forall (λ p, ∀ q, range_of p = Some q → ¬ (q.1 ≤ x ≤ q.2)) (Pools n)) (Reservations n)
}.

Lemma in_rng_false r x : in_rng r x = false → ¬ (r.1 ≤ x ≤ r.2).
Proof. unfold in_rng. intros H [H1%Z.leb_le H2%Z.leb_le]. by rewrite H1, H2 in H. Qed.

Lemma pool_ranges_in p ps q : p ∈ ps → range_of p = Some q → q ∈ pool_ranges ps.
Proof.
  intros Hp Hq. unfold pool_ranges. apply list_elem_of_omap. exists p. split; [done|]. unfold range_of in Hq.
  destruct (ParseIP (StartIP p)) as [s|]; [|done]. destruct (ParseIP (EndIP p)) as [e|]; [|by destruct (Some s ≫= To4)]. cbn in Hq. unfold ipToUint32.
  destruct (To4 s); [|done]. by destruct (To4 e).
Qed.

Lemma parse_v4 s x : (ParseIP s ≫= To4) = Some x → ParseIP s = Some (v4_block + x) ∧ 0 ≤ x < 2 ^ 32.
Proof. destruct (ParseIP s) as [ip|]; [|done]. cbn. intros H. rewrite (To4_inv _ _ H). split; [done|by eapply To4_range]. Qed.

Lemma range_of_bounds p r : range_of p = Some r → 0 ≤ r.1 < 2 ^ 32 ∧ 0 ≤ r.2 < 2 ^ 32.
Proof.
  unfold range_of. destruct (ParseIP (StartIP p) ≫= To4) as [s|] eqn:Es; [|done]. destruct (ParseIP (EndIP p) ≫= To4) as [e|] eqn:Ee; [|done].
  intros [= <-]. apply parse_v4 in Es as [_ ?]. apply parse_v4 in Ee as [_ ?]. done.
Qed.

Lemma subnet_issues_ok n prefix :
  subnet_issues n prefix = [] → plain n → ∃ a g ipn, networkAndBroadcast (SubnetCIDR n) = Some (a, a + 2 ^ (32 - net_ones ipn) - 1, ipn) ∧
    block n a (32 - net_ones ipn) ∧ 2 ≤ 32 - net_ones ipn ≤ 13 ∧ ParseIP (GatewayIP n) = Some (v4_block + g) ∧ a < g < a + 2 ^ (32 - net_ones ipn) - 1 ∧
    ∀ x, 0 ≤ x < 2 ^ 32 → Contains ipn (v4_block + x) = true ↔ a ≤ x < a + 2 ^ (32 - net_ones ipn).
Proof.
  unfold subnet_issues. cbv zeta. intros H HP. apply app_nil in H as [Hg H]. apply when_nil, negb_false_iff in Hg.
  destruct (networkAndBroadcast (SubnetCIDR n)) as [[[a bc] ipn]|] eqn:EN; [|done]. apply app_nil in H as [Hgw Hm%fmap_nil_inv].
  destruct (plain_block n a bc ipn HP EN) as ((Hb & _) & -> & HB & HC).
  unfold is_v4 in Hg. destruct (ParseIP (GatewayIP n)) as [ip|] eqn:EP; [|done]. apply bool_decide_eq_true in Hg as [g Hg]. pose proof (To4_inv _ _ Hg) as ->.
  pose proof (To4_range _ _ Hg) as Hr. rewrite Hg in Hgw. apply app_nil in Hgw as [H1 H2]. apply app_nil in H2 as [H2 H3].
  apply when_nil, negb_false_iff, HC in H1; [|done]. apply when_nil, bool_decide_eq_false in H2, H3.
  unfold CheckClientSubnetMask, MaxSubnetPrefix, MinSubnetPrefix in Hm. rewrite Hb in Hm. cbn [Z.eqb Pos.eqb andb] in Hm. apply app_nil in Hm as [Hm1 Hm2].
  apply when_nil, Z.ltb_ge in Hm1, Hm2. exists a, g, ipn. split_and!; try done; try lia; [destruct (decide (a = g)); [congruence|lia]|].
  destruct (decide (g = a + 2 ^ (32 - net_ones ipn) - 1)); [congruence|lia].
Qed.

Section proofs.
Context {T : UnicodeTables}.

Lemma validated_one n topo avail known prefix :
  ValidateOne n topo avail known prefix = [] → plain n → ∃ a k g, served n a k g ∧ net_range n = Some (a, a + 2 ^ k - 1).
Proof.
  unfold ValidateOne. intros H HP. do 3 (apply app_nil in H as [_ H]). apply app_nil in H as [HS H]. do 2 (apply app_nil in H as [_ H]).
  destruct (subnet_issues_ok _ _ HS HP) as (a & g & ipn & EN & HB & Hw & HG & Hg & HC). exists a, (32 - net_ones ipn), g.
  split; [|unfold net_range; by rewrite EN].
  assert (Hgi : ipToUint32 (v4_block + g) = g) by (unfold ipToUint32; rewrite To4_v4 by (destruct HB as (? & ? & ? & _); lia); done).
  assert (HL : DHCPMode n = DHCPLocal → validatePools n prefix = [] ∧ validateReservations n prefix = []).
  { intros HD. rewrite (bool_decide_true _ HD) in H. by apply app_nil in H. }
  constructor; try done.
  - intros [HPo _]%HL. unfold validatePools in HPo. destruct (Pools n) as [|p ps]; [done|]. rewrite EN, HG in HPo. apply pool_loop_ok in HPo as [HF HW]; [|done].
    split_and!; try done. rewrite Hgi in HF. eapply Forall_impl; [exact HF|]. intros q (r & Hr & Hle & H1 & H2 & Hn%in_rng_false & Hb%in_rng_false & Hx%in_rng_false).
    destruct (range_of_bounds _ _ Hr) as [B1 B2]. apply HC in H1, H2; try done. exists r. split_and!; try done; lia.
  - intros [_ HRe]%HL. unfold validateReservations in HRe. rewrite EN in HRe. apply reservation_loop_ok in HRe as [HF HW]. split; [done|].
    eapply Forall_impl; [exact HF|]. intros r [Hr _] He. destruct (Hr He) as (_ & x & Hx & Hc & Hp). apply parse_v4 in Hx as [Hx Hb].
    exists x. split_and!; try done; [by apply HC in Hc; try done; lia..|]. rewrite Forall_forall. intros p Hpp q Hq.
    apply in_rng_false. rewrite Forall_forall in Hp. apply Hp. by eapply pool_ranges_in.
Qed.

Lemma block_range n a k g x : served n a k g → 0 ≤ x < 2 ^ 32 → subnet n x ↔ a ≤ x < a + 2 ^ k.
Proof. intros HS Hx. by apply (served_block n a k g HS). Qed.

Lemma interface_ok n topo avail known prefix :
  interface_issues n topo avail known prefix = [] →
  ParentInterface n ≠ "" ∧ ParentInterface n ≠ MgmtInterface topo ∧ ParentInterface n ≠ WANInterface topo ∧
  (Enabled n = true → match avail with Some s => ParentInterface n ∈ s | None => True end).
Proof.
  unfold interface_issues. cbv zeta. intros H. apply app_nil in H as [H1 H2]. apply when_nil in H2. destruct (empty (ParentInterface n)) eqn:EE; [done|].
  cbn [negb andb] in H2. apply orb_false_iff in H2 as [HM%bool_decide_eq_false HW%bool_decide_eq_false].
  split_and!; try done; [intros HE; by rewrite HE in EE|]. intros He. rewrite He in H1. destruct avail as [s|]; [|done]. cbn [andb] in H1.
  by case_bool_decide.
Qed.

(** What holds of two networks of the set that are in use. *)
Definition separate (n m : GuestNetwork) : Prop :=
  (∀ x, 0 ≤ x < 2 ^ 32 → subnet n x → ¬ subnet m x) ∧ other_names n m.

(** C9. A set of networks whose subnets are plain IPv4 (none is written as an IPv6 or an
    IPv4-mapped block) and that has no issue has: a parent interface for each network, never the
    uplink or the management interface and, if the network is enabled and the interfaces
    are known, one that is there; a block of addresses for each, with a gateway inside
    it, pools that are disjoint and hand out neither the gateway nor the network and
    broadcast address, and reservations outside the pools whose hardware addresses differ
    as texts in lower case; and any two enabled networks share no address, no VLAN of an interface and no bridge. *)
Theorem validated_networks nets topo avail known :
  ValidateSet nets topo avail known = [] → Forall plain nets →
  Forall (λ n, (∃ a k g, served n a k g) ∧ ParentInterface n ≠ "" ∧ ParentInterface n ≠ MgmtInterface topo ∧ ParentInterface n ≠ WANInterface topo ∧
               (Enabled n = true → match avail with Some s => ParentInterface n ∈ s | None => True end)) nets ∧
  pairwise (λ n m, Enabled n = true → Enabled m = true → separate n m) nets.
Proof.
  unfold ValidateSet. intros H HP. apply app_nil in H as [H1 H]. apply app_nil in H as [H2 H3]. rewrite Forall_forall in HP.
  assert (HO : ∀ n, n ∈ nets → ∃ i, ValidateOne n topo avail known i = []).
  { intros n Hn. destruct (mjoin_imap_nil _ _ H1 n Hn) as [i Hi]. by eexists. }
  split.
  - rewrite Forall_forall. intros n Hn. destruct (HO n Hn) as [i Hi]. split.
    + destruct (validated_one _ _ _ _ _ Hi (HP n Hn)) as (a & k & g & HS & _). by exists a, k, g.
    + unfold ValidateOne in Hi. apply app_nil in Hi as [_ Hi]. apply app_nil in Hi as [Hi _]. by apply interface_ok in Hi.
  - apply names_loop_ok in H2 as [_ HN]. apply overlap_loop_ok in H3 as [_ HV].
    unfold sortEnabled in HN, HV. eapply pairwise_perm in HN; [|apply other_names_sym|apply merge_sort_Permutation].
    eapply pairwise_perm in HV; [| |apply merge_sort_Permutation].
    2:{ intros x y HA r r' Hr Hr'. destruct (HA r' r Hr' Hr) as [?|?]; [by right|by left]. }
    apply pairwise_filter in HN, HV. revert HN HV. apply pairwise_both. intros n m Hn Hm HN HV En Em.
    split; [|by apply HN]. specialize (HV En Em). intros x Hx Sn Sm.
    destruct (HO n Hn) as [i Hi], (HO m Hm) as [j Hj].
    destruct (validated_one _ _ _ _ _ Hi (HP n Hn)) as (a & k & g & HS & HR), (validated_one _ _ _ _ _ Hj (HP m Hm)) as (b & l & h & HS' & HR').
    rewrite (block_range _ _ _ _ _ HS Hx) in Sn. rewrite (block_range _ _ _ _ _ HS' Hx) in Sm. destruct (HV _ _ HR HR') as [Hc|Hc]; cbn in Hc; lia.
Qed.
End proofs.
