(* ===== verification/NetNames.v ===== *)
(** What is derived from a checked network: Kea's subnet numbers, bridge names, names in
    generated text and the portal address (NetCfg). *)
From stdpp Require Import pretty.
From S2P Require Import Prelude GoStrings GoText GoNet NetCfg NetValidate NetProofs.

(** ** Kea's subnet numbers *)

Lemma string_le_trans a b c : string_le a b → string_le b c → string_le a c.
Proof.
  unfold string_le, String.leb. revert b c. induction a as [|x a IH]; intros [|y b] [|z c]; cbn; try done.
  specialize (IH b c). unfold Ascii.compare.
  destruct (N.compare_spec (Ascii.N_of_ascii x) (Ascii.N_of_ascii y)), (N.compare_spec (Ascii.N_of_ascii y) (Ascii.N_of_ascii z)),
    (N.compare_spec (Ascii.N_of_ascii x) (Ascii.N_of_ascii z)); try done; try lia; by apply IH.
Qed.
#[export] Instance string_le_order : Transitive string_le := string_le_trans.
#[export] Instance string_le_antisym : AntiSymm (=) string_le.
Proof. intros a b. apply String.leb_antisym. Qed.
#[export] Instance string_le_total : Total string_le.
Proof. intros a b. apply String.leb_total. Qed.

Lemma sort_Strings_eq l l' : l ≡ₚ l' → sort_Strings l = sort_Strings l'.
Proof.
  intros HP. apply (StronglySorted_unique string_le); [apply StronglySorted_merge_sort; apply _..|]. change (sort_Strings l ≡ₚ sort_Strings l'). by rewrite !sort_Strings_perm.
Qed.

Definition next_id (v : Z) : Z := v mod kea_ids + 1.

Lemma next_ids v i : 1 ≤ v ≤ kea_ids → Nat.iter i next_id v = (v - 1 + Z.of_nat i) mod kea_ids + 1.
Proof.
  intros Hv. induction i as [|i IH]; [cbn; unfold kea_ids in *; rewrite Z.mod_small; lia|]. rewrite Nat.iter_succ, IH. unfold next_id.
  rewrite Z.add_mod_idemp_l by done. do 2 f_equal. lia.
Qed.

Lemma free_id_used fuel used v : free_id fuel used v ∈ used → ∀ i, (i < S fuel)%nat → Nat.iter i next_id v ∈ used.
Proof.
  revert v. induction fuel as [|f IH]; intros v; cbn [free_id].
  - intros Hv i Hi. by replace i with 0%nat by lia.
  - case_bool_decide as Hu; [|done]. intros HF [|i] Hi; [done|]. rewrite Nat.iter_succ_r. apply (IH _ HF). lia.
Qed.

Lemma free_id_range fuel used v : 1 ≤ v ≤ kea_ids → 1 ≤ free_id fuel used v ≤ kea_ids.
Proof.
  revert v. induction fuel as [|f IH]; intros v Hv; cbn [free_id]; [done|]. case_bool_decide; [|done]. apply IH.
  pose proof (Z.mod_pos_bound v kea_ids eq_refl). lia.
Qed.

(** One round of all numbers finds a free one. *)
Lemma free_id_free used v : 1 ≤ v ≤ kea_ids → Z.of_nat (size used) < kea_ids → free_id (S (size used)) used v ∉ used.
Proof.
  intros Hv HS Hu. pose proof (free_id_used _ _ _ Hu) as HU. set (l := (λ i, Nat.iter i next_id v) <$> seq 0 (S (size used))).
  assert (HN : NoDup l).
  { apply NoDup_fmap_2_strong; [|apply NoDup_seq]. intros i j Hi%elem_of_seq Hj%elem_of_seq. rewrite !next_ids by done. intros HE.
    assert (HM : (v - 1 + Z.of_nat i) mod kea_ids = (v - 1 + Z.of_nat j) mod kea_ids) by lia.
    assert (HD : (Z.of_nat i - Z.of_nat j) mod kea_ids = 0).
    { replace (Z.of_nat i - Z.of_nat j) with ((v - 1 + Z.of_nat i) - (v - 1 + Z.of_nat j)) by lia. by rewrite Zminus_mod, HM, Z.sub_diag. }
    apply Z.mod_divide in HD as [q Hq]; [|done]. unfold kea_ids in *. lia. }
  assert (HL : (list_to_set l : gset Z) ⊆ used).
  { intros x Hx%elem_of_list_to_set. apply list_elem_of_fmap in Hx as (i & -> & Hi%elem_of_seq). apply HU. lia. }
  apply subseteq_size in HL. rewrite size_list_to_set in HL by done. unfold l in HL. rewrite length_fmap, length_seq in HL. lia.
Qed.

Lemma first_id_range id : 1 ≤ first_id id ≤ kea_ids.
Proof. unfold first_id. pose proof (Z.mod_pos_bound (Z.land (fnv32a id) 2147483647) kea_ids eq_refl). lia. Qed.

(** The numbers are in range, and each has one holder. *)
Definition numbering (m : gmap string Z) : Prop :=
  (∀ i v, m !! i = Some v → 1 ≤ v ≤ kea_ids) ∧ ∀ i j v, m !! i = Some v → m !! j = Some v → i = j.
Definition ids_ok (st : gset Z * gmap string Z) : Prop := (∀ i v, st.2 !! i = Some v → v ∈ st.1) ∧ numbering st.2.

Lemma assign_id_ok st id : Z.of_nat (size st.1) < kea_ids → ids_ok st → ids_ok (assign_id st id).
Proof.
  intros HS (HU & HR & HI). unfold assign_id. pose proof (free_id_free st.1 (first_id id) (first_id_range id) HS) as HF.
  pose proof (free_id_range (S (size st.1)) st.1 _ (first_id_range id)) as HB. set (v := free_id _ _ _) in *. unfold ids_ok, numbering. split_and!; cbn.
  - intros i w [[<- <-]|[Hi Hw]]%lookup_insert_Some; [set_solver|]. apply HU in Hw. set_solver.
  - intros i w [[<- <-]|[Hi Hw]]%lookup_insert_Some; [done|]. by eapply HR.
  - intros i j w [[<- <-]|[Hi Hw]]%lookup_insert_Some [[<- HE]|[Hj Hw']]%lookup_insert_Some; [done|by apply HU in Hw'|subst w; by apply HU in Hw|by eapply HI].
Qed.

Lemma assign_id_size st id : (size (assign_id st id).1 ≤ S (size st.1))%nat.
Proof. cbn [assign_id fst]. rewrite size_union_alt, size_singleton. pose proof (subseteq_size (st.1 ∖ {[free_id (S (size st.1)) st.1 (first_id id)]}) st.1 ltac:(set_solver)). lia. Qed.

Lemma assign_ids_ok ids st :
  Z.of_nat (size st.1) + Z.of_nat (length ids) ≤ kea_ids → ids_ok st →
  ids_ok (foldl assign_id st ids) ∧ dom (foldl assign_id st ids).2 = dom st.2 ∪ list_to_set ids.
Proof.
  revert st. induction ids as [|id ids IH]; intros st HL HO; cbn [foldl]; [split; [done|set_solver]|]. cbn [length] in HL.
  pose proof (assign_id_size st id). destruct (IH (assign_id st id)) as [H1 H2]; [lia|by apply assign_id_ok; [lia|]|]. split; [done|].
  rewrite H2. cbn. set_solver.
Qed.

(** Kea's subnet numbers: every network gets one, from 1 to 2147483646, no two networks
    share one, and they depend on the set of networks alone, not on the order they are
    listed in. *)
Theorem subnet_ids_are_stable nets nets' :
  Z.of_nat (length nets) ≤ kea_ids → nets ≡ₚ nets' →
  numbering (StableSubnetIDs nets) ∧ dom (StableSubnetIDs nets) = list_to_set (ID <$> nets) ∧ StableSubnetIDs nets' = StableSubnetIDs nets.
Proof.
  intros HL HP. unfold StableSubnetIDs. pose proof (sort_Strings_perm (ID <$> nets)) as HS.
  destruct (assign_ids_ok (sort_Strings (ID <$> nets)) (∅, ∅)) as [[_ HN] HD].
  - cbn. rewrite HS, length_fmap, size_empty. lia.
  - unfold ids_ok, numbering. split_and!; cbn; [intros i v Hv|intros i v Hv|intros i j v Hv]; by rewrite lookup_empty in Hv.
  - split_and!; [done|rewrite HD; cbn; rewrite HS; set_solver|by rewrite (sort_Strings_eq (ID <$> nets') (ID <$> nets)) by by rewrite HP].
Qed.
