(* ===== verification/NetNft.v ===== *)
(** The firewall of the client networks (data-plane/internal/netcfg/render_nft.go): the
    rules of each chain as data, and the text that netd loads.

    In the literals a backquote stands for a double quote.  The digest of package
    crypto/sha256 is the class [Sha256]. *)
From stdpp Require Import pretty.
From S2P Require Import Prelude GoStrings GoText GoNet NetCfg.

(** ** Text *)

Definition newline : string := String (Ascii.ascii_of_nat 10) "".
Definition tab : string := String (Ascii.ascii_of_nat 9) "".
Definition quote : string := String (Ascii.ascii_of_nat 34) "".
Definition q : string → string := map_bytes (λ b, if b =? 96 then 34 else b).
Definition quoted (s : string) : string := quote +:+ s +:+ quote.

(** [strings.Join]. *)
Definition JoinStr (sep : string) (l : list string) : string :=
  match l with [] => "" | x :: l' => x +:+ foldr (λ y acc, sep +:+ y +:+ acc) "" l' end.
Definition concat_text (l : list string) : string := foldr String.append "" l.

(** [strings.ReplaceAll] with a text that is not empty. *)
Fixpoint replace_all (fuel : nat) (old new s : string) : string :=
  match fuel, s with
  | O, _ | _, EmptyString => s
  | S f, String c s' =>
      match strip_prefix old s with
      | Some rest => new +:+ replace_all f old new rest
      | None => String c (replace_all f old new s')
      end
  end.
Definition ReplaceAll (s old new : string) : string := replace_all (String.length s) old new s.

(** ** Rules *)

(** What a rule asks of a packet; the last ones keep a count or a space. *)
Inductive match_ :=
| IifLo | Iif (name : string) | IifGuest | IifNotGuest | Oif (name : string) | OifGuest
| Ipv6
| Saddr (a : string) | Daddr (a : string) | DaddrIn (l : list string) | DaddrSet (set : string) | DaddrNotSet (set : string)
| DaddrTcp (set : string) | DaddrUdp (set : string)
| TcpUdp | ThDport (p : Z) | TcpDport (p : Z) | TcpDports (l : list Z) | UdpDport (p : Z) | UdpDports (l : list Z) | EchoRequest
| CtKnown | CtInvalid | CtNew
| NotAuth | NotPhase3 | NotPhase3Mac | Phase3 | Phase3Mac
| DnsOver | ConnOver (n : Z) | CounterName (name : string) | Space.

Inductive Verdict := Accept | Drop | Dnat (addr : string) (port : Z) | Masquerade.

Record rule := mkRule { matches : list match_; action : Verdict; note : string }.
Inductive item := Rule (r : rule) | Remark (s : string).
Definition rules_of : list item → list rule := omap (λ i, match i with Rule r => Some r | Remark _ => None end).

Definition ports_text (l : list Z) : string := JoinStr ", " (pretty <$> l).

Definition match_text (m : match_) : string :=
  match m with
  | IifLo => q "iif `lo`"
  | Iif n => "iifname " +:+ quoted n
  | IifGuest => "iifname @guest_interfaces"
  | IifNotGuest => "iifname != @guest_interfaces"
  | Oif n => "oifname " +:+ quoted n
  | OifGuest => "oifname @guest_interfaces"
  | Ipv6 => "meta nfproto ipv6"
  | Saddr a => "ip saddr " +:+ a
  | Daddr a => "ip daddr " +:+ a
  | DaddrIn l => "ip daddr { " +:+ JoinStr ", " l +:+ " }"
  | DaddrSet s => "ip daddr @" +:+ s
  | DaddrNotSet s => "ip daddr != @" +:+ s
  | DaddrTcp s => "ip daddr . tcp dport @" +:+ s
  | DaddrUdp s => "ip daddr . udp dport @" +:+ s
  | TcpUdp => "meta l4proto { tcp, udp }"
  | ThDport p => "th dport " +:+ pretty p
  | TcpDport p => "tcp dport " +:+ pretty p
  | TcpDports l => "tcp dport { " +:+ ports_text l +:+ " }"
  | UdpDport p => "udp dport " +:+ pretty p
  | UdpDports l => "udp dport { " +:+ ports_text l +:+ " }"
  | EchoRequest => "icmp type echo-request"
  | CtKnown => "ct state established,related"
  | CtInvalid => "ct state invalid"
  | CtNew => "ct state new"
  | NotAuth => "iifname . ip saddr != @auth_ipv4"
  | NotPhase3 => "iifname . ip saddr != @phase3_auth_ipv4"
  | NotPhase3Mac => "iifname . ip saddr . ether saddr != @phase3_auth_mac_ipv4"
  | Phase3 => "iifname . ip saddr @phase3_auth_ipv4"
  | Phase3Mac => "iifname . ip saddr . ether saddr @phase3_auth_mac_ipv4"
  | DnsOver => "update @dns_preauth_rl { ip saddr limit rate over 20/second burst 40 packets }"
  | ConnOver n => "add @portal_conn_per_src { ip saddr ct count over " +:+ pretty n +:+ " }"
  | CounterName n => "counter name " +:+ quoted n
  | Space => ""
  end.

Definition verdict_text (v : Verdict) : string :=
  match v with
  | Accept => "accept"
  | Drop => "drop"
  | Dnat a p => "dnat ip to " +:+ a +:+ ":" +:+ pretty p
  | Masquerade => "masquerade"
  end.

Definition rule_text (r : rule) : string :=
  concat_text ((λ m, match_text m +:+ " ") <$> matches r) +:+ verdict_text (action r)
  +:+ (if empty (note r) then "" else " comment " +:+ quoted (note r)).
Definition item_text (i : item) : string :=
  tab +:+ tab +:+ match i with Rule r => rule_text r | Remark s => "# " +:+ s end +:+ newline.

(** ** Helpers of the renderer *)

Definition PrivateRanges : list string := ["10.0.0.0/8"; "172.16.0.0/12"; "192.168.0.0/16"; "100.64.0.0/10"; "169.254.0.0/16"].
Definition PortalAddressTLSPort : Z := 8343.
Definition PortalConnLimitPerSource : Z := 256.
Definition BaselineResolvers : list string := ["1.1.1.1"; "8.8.8.8"; "8.8.4.4"].
Definition BaselineResolverPort : Z := 53.
Definition baselinePairs : string := JoinStr ", " ((λ ip, ip +:+ " . " +:+ pretty BaselineResolverPort) <$> BaselineResolvers).

Definition renderPortalVIP (topo : Topology) : string := match ParsePortalIP (PortalVIP topo) with Some a => dotted a | None => "" end.

Definition add_addr (out : list Z) (d : string) : list Z :=
  match ParseIP (TrimSpace d) ≫= To4 with
  | Some a => if (a =? 0) || bool_decide (a ∈ out) then out else (out ++ [a])%list
  | None => out
  end.
Definition custom_dns (n : GuestNetwork) : list Z := if bool_decide (DNSMode n = "custom") then foldl add_addr [] (DNSServers n) else [].
Definition customDNSServers (n : GuestNetwork) : list string := dotted <$> custom_dns n.

Definition bridge (n : GuestNetwork) : string := SafeIface (BridgeName n).
Definition joinBridges (nets : list GuestNetwork) : string := JoinStr ", " ((λ n, quoted (bridge n)) <$> nets).
Definition joinSubnets (nets : list GuestNetwork) : string := JoinStr ", " (SubnetCIDR <$> nets).

Definition add_port (out : list Z) (p : Z) : list Z := if (0 <? p) && negb (bool_decide (p ∈ out)) then (out ++ [p])%list else out.
Definition portalPorts (topo : Topology) : list Z :=
  let ports := add_port (add_port [] (portalHTTPPort topo)) (PortalTLSPort topo) in
  merge_sort Z.le (if empty (renderPortalVIP topo) then ports else add_port ports PortalAddressTLSPort).

(** ** The chains *)

Definition on (ms : list match_) (v : Verdict) (note : string) : item := Rule (mkRule ms v note).
Definition only (b : bool) (l : list item) : list item := if b then l else [].

Section chains.
Context {T : UnicodeTables} (mac : bool) (nets : list GuestNetwork) (topo : Topology).

(** Not signed in, to the set that decides. *)
Definition not_phase3 : match_ := if mac then NotPhase3Mac else NotPhase3.

Definition dns_limit (where_ : list match_) : item :=
  on (where_ ++ [TcpUdp; ThDport 53; NotAuth; not_phase3; DnsOver; CounterName "dns_preauth_limited"])%list Drop "pre-auth DNS rate limit".

Definition vip_rules (f : string → list item) : list item := let vip := renderPortalVIP topo in only (negb (empty vip)) (f vip).

(** What a client network may ask of the appliance: its own gateway. *)
Definition network_input (n : GuestNetwork) : list item :=
  let br := bridge n in
  let gw := GatewayIP n in
  on [Iif br; Ipv6; CounterName "guest_ipv6_dropped"] Drop "no IPv6 guest services"
  :: (if empty gw then [Remark (br +:+ " has no gateway address: no guest services are opened on it")]
      else [on [Iif br; DaddrIn [gw; "255.255.255.255"]; UdpDports [67; 68]] Accept "DHCP (own gateway or broadcast)";
            on [Iif br; Daddr gw; UdpDport 53] Accept "DNS (own gateway)";
            on [Iif br; Daddr gw; TcpDport 53] Accept "DNS (own gateway)";
            on [Iif br; Daddr gw; if 0 <? PortalTLSPort topo then TcpDports [PortalHTTPPort topo; PortalTLSPort topo] else TcpDport (PortalHTTPPort topo)]
              Accept "portal (own gateway)";
            on [Iif br; Daddr gw; EchoRequest] Accept "ping own gateway"]).

Definition input_items : list item :=
  ([on [IifLo] Accept ""; dns_limit [IifGuest]; on [CtKnown] Accept ""; on [CtInvalid] Drop ""]
   ++ vip_rules (λ vip, [on [IifNotGuest; Daddr vip] Drop "portal address: guest networks only"])
   ++ only (negb (bool_decide (portalPorts topo = [])))
        [on [IifGuest; TcpDports (portalPorts topo); CtNew; ConnOver PortalConnLimitPerSource; CounterName "portal_conn_limited"] Drop
           "portal: per-device connection cap"]
   ++ [on [Iif (MgmtInterface topo); TcpDport 22] Accept "";
       if negb (empty (MgmtAddr topo)) then on [Iif (MgmtInterface topo); Daddr (MgmtAddr topo); TcpDport 443] Accept "Caddy TLS (admin, mgmt IP only)"
       else on [Iif (MgmtInterface topo); TcpDport 443] Accept "Caddy TLS (admin)";
       on [Iif (MgmtInterface topo); EchoRequest] Accept ""]
   ++ (n ← sortEnabled nets; network_input n)
   ++ vip_rules (λ vip, [on [IifGuest; Daddr vip; TcpDports [PortalAddressTLSPort; portalHTTPPort topo]] Accept "portal address (TLS and HTTP portal)"])
   ++ [on [IifGuest] Drop "guest input is limited to its own gateway"])%list.

Definition internetDisabled : list item :=
  n ← sortEnabled nets;
  only (negb (InternetEnabled n)) [on [Iif (bridge n); Oif (WANInterface topo)] Drop ("internet disabled for " +:+ SafeText (Name n))].

Definition gardenAccepts : list item :=
  [on [IifGuest; Oif (WANInterface topo); DaddrSet "walled_garden_ip"] Accept "";
   on [IifGuest; Oif (WANInterface topo); DaddrTcp "walled_garden_tcp"] Accept "";
   on [IifGuest; Oif (WANInterface topo); DaddrUdp "walled_garden_udp"] Accept ""].

Definition inter_guest : item := on [IifGuest; DaddrSet "guest_subnets"] Drop "inter-guest isolation".

(** The destinations that are refused, and around them the garden. *)
Definition reach_rules : list item :=
  (if Deny (topo_PrivateReach topo) then
     internetDisabled ++ gardenAccepts
     ++ ((λ cidr, on [IifGuest; Daddr cidr; DaddrNotSet "guest_private_allow"] Drop "guest -> mgmt blocked") <$> MgmtCIDRs topo)
     ++ [inter_guest;
         on [IifGuest; DaddrSet "guest_private_ranges"; DaddrNotSet "guest_private_allow"; CounterName "guest_private_dropped"] Drop
           "private networks are not reachable from a client network unless allowed"]
   else ((λ cidr, on [IifGuest; Daddr cidr] Drop "guest -> mgmt blocked") <$> MgmtCIDRs topo) ++ [inter_guest] ++ internetDisabled)%list.

Definition guard_rules : list item :=
  ([on [IifGuest; Ipv6; CounterName "guest_ipv6_dropped"] Drop "IPv6 guest bypass guard";
    on [OifGuest; Ipv6; CounterName "guest_ipv6_dropped"] Drop "IPv6 guest bypass guard (return path)"]
   ++ vip_rules (λ vip, [on [Daddr vip] Drop "portal address is never routed"; on [Saddr vip] Drop "portal address is never routed (source)"])
   ++ [dns_limit [IifGuest; Oif (WANInterface topo)]]
   ++ (n ← sortEnabled nets; only (ClientIsolation n) [on [Iif (bridge n); Oif (bridge n)] Drop "client isolation"]))%list.

Definition dns_rules : list item :=
  n ← sortEnabled nets;
  only (negb (bool_decide (customDNSServers n = []))) [on [Iif (bridge n); DaddrIn (customDNSServers n); TcpUdp; ThDport 53] Accept "custom DNS (pre-auth)"].

Definition signed_in : item :=
  if MACBinding topo then on [Oif (WANInterface topo); Phase3Mac] Accept "phase-3 authorized guests (MAC-bound)"
  else on [Oif (WANInterface topo); Phase3] Accept "phase-3 authorized guests".

Definition forward_items : list item :=
  (guard_rules ++ [on [CtKnown] Accept ""; on [CtInvalid] Drop ""] ++ dns_rules ++ reach_rules ++ [signed_in]
   ++ only (negb (Deny (topo_PrivateReach topo))) gardenAccepts
   ++ only (PortalTLSPort topo =? 0)
        [on [IifGuest; Oif (WANInterface topo); TcpDport 443] Drop "no TLS portal: unanswered, so browsers run their captive check"])%list.

Definition captive (n : GuestNetwork) (ports : list match_) (port : Z) : item :=
  on ([Iif (bridge n); NotAuth; not_phase3; DaddrNotSet "walled_garden_ip"] ++ ports)%list (Dnat (GatewayIP n) port) "".

Definition prerouting_items : list item :=
  (vip_rules (λ vip, [on [IifGuest; Daddr vip; TcpDport 443] (Dnat vip PortalAddressTLSPort) "portal address: TLS portal";
                      on [IifGuest; Daddr vip; TcpDport 80] (Dnat vip (portalHTTPPort topo)) "portal address: HTTP portal"])
   ++ [on [IifGuest; DaddrTcp "walled_garden_tcp"] Accept "port-restricted garden: no captive redirect"]
   ++ (n ← sortEnabled nets;
       only (CaptiveEnabled n)
         (captive n [TcpDport 80; Space] (PortalHTTPPort topo)
          :: only (0 <? PortalTLSPort topo) [captive n [TcpDport 443] (PortalTLSPort topo)])))%list.

Definition postrouting_items : list item :=
  n ← sortEnabled nets; only (NATEnabled n) [on [Saddr (SubnetCIDR n); Oif (WANInterface topo)] Masquerade ""].

(** ** The text *)

Definition decl (kind name : string) (body : list string) : string :=
  tab +:+ kind +:+ " " +:+ name +:+ " {" +:+ newline +:+ concat_text ((λ l, tab +:+ tab +:+ l +:+ newline) <$> body) +:+ tab +:+ "}" +:+ newline +:+ newline.
Definition elements_of (s : string) : string := "elements = { " +:+ s +:+ " }".
Definition if_any (s : string) : list string := if empty s then [] else [elements_of s].

Definition sets_text : string :=
  let enabled := sortEnabled nets in
  decl "set" "auth_ipv4" ["type ifname . ipv4_addr"; "flags timeout"; q "comment `Authenticated guests: (ingress bridge, IP)`"]
  +:+ decl "set" "phase3_auth_mac_ipv4" ["type ifname . ipv4_addr . ether_addr"; "flags timeout";
        q "comment `Phase-3 authorized guests bound to the device MAC (netd-owned): (ingress bridge, IP, MAC)`"]
  +:+ decl "set" "phase3_auth_ipv4" ["type ifname . ipv4_addr"; "flags timeout"; q "comment `Phase-3 authorized guests (netd-owned): (ingress bridge, IP)`"]
  +:+ decl "set" "walled_garden_ip" ["type ipv4_addr"; "flags interval"; "auto-merge"]
  +:+ decl "set" "walled_garden_tcp" ["type ipv4_addr . inet_service"; "flags interval"; q "comment `pre-auth (address, TCP port) pairs; scd reconciles`"; elements_of baselinePairs]
  +:+ decl "set" "walled_garden_udp" ["type ipv4_addr . inet_service"; "flags interval"; q "comment `pre-auth (address, UDP port) pairs; scd reconciles`"; elements_of baselinePairs]
  +:+ decl "set" "dns_preauth_rl" ["type ipv4_addr"; "size 65535"; "flags dynamic,timeout"; "timeout 1m"]
  +:+ decl "counter" "dns_preauth_limited" [q "comment `pre-auth DNS packets refused by the per-device rate limit`"]
  +:+ decl "set" "portal_conn_per_src" ["type ipv4_addr"; "size 65535"; "flags dynamic"]
  +:+ decl "counter" "portal_conn_limited" [q "comment `new portal connections refused by the per-device connection cap`"]
  +:+ decl "counter" "guest_ipv6_dropped" [q "comment `IPv6 to or from a client network, refused`"]
  +:+ decl "set" "guest_interfaces" ("type ifname" :: (if bool_decide (enabled = []) then [] else [elements_of (joinBridges enabled)]))
  +:+ decl "set" "guest_subnets" ("type ipv4_addr" :: "flags interval" :: if_any (joinSubnets enabled))
  +:+ if Deny (topo_PrivateReach topo) then
        decl "set" "guest_private_ranges" ["type ipv4_addr"; "flags interval";
          q "comment `RFC 1918, 100.64.0.0/10, 169.254.0.0/16: not reachable from a client network`"; elements_of (JoinStr ", " PrivateRanges)]
        +:+ decl "set" "guest_private_allow" (["type ipv4_addr"; "flags interval"; "auto-merge";
              q "comment `private destinations a client network may still reach (audited setting + the appliance's own upstream)`"]
              ++ if bool_decide (NormalizeAllow (Allow (topo_PrivateReach topo)) = []) then []
                 else [elements_of (JoinStr ", " (NormalizeAllow (Allow (topo_PrivateReach topo))))])%list
        +:+ decl "counter" "guest_private_dropped" [q "comment `client traffic to a private network that is not allowed, refused`"]
      else "".

Definition chain_text (name kind : string) (items : list item) : string :=
  tab +:+ "chain " +:+ name +:+ " {" +:+ newline +:+ tab +:+ tab +:+ kind +:+ newline +:+ concat_text (item_text <$> items) +:+ tab +:+ "}" +:+ newline.

Definition table_open : string := "table inet stayconnect {" +:+ newline.

Definition plain_body : string :=
  "#!/usr/sbin/nft -f" +:+ newline
  +:+ "# StayConnect generated ruleset — multi guest-network. Do not edit by hand." +:+ newline
  +:+ "table inet stayconnect" +:+ newline
  +:+ "delete table inet stayconnect" +:+ newline +:+ newline
  +:+ table_open
  +:+ sets_text
  +:+ chain_text "input" "type filter hook input priority filter; policy drop;" input_items +:+ newline
  +:+ chain_text "forward" "type filter hook forward priority filter; policy drop;" forward_items +:+ newline
  +:+ chain_text "prerouting_nat" "type nat hook prerouting priority dstnat; policy accept;" prerouting_items +:+ newline
  +:+ chain_text "postrouting_nat" "type nat hook postrouting priority srcnat; policy accept;" postrouting_items
  +:+ "}" +:+ newline.
End chains.

Section render.
Context {T : UnicodeTables}.

(** With the MAC binding on, the conditions are rewritten in the finished text. *)
Definition renderNftBody (nets : list GuestNetwork) (topo : Topology) : string :=
  let b := plain_body false nets topo in
  if MACBinding topo then ReplaceAll b "iifname . ip saddr != @phase3_auth_ipv4" "iifname . ip saddr . ether saddr != @phase3_auth_mac_ipv4" else b.
End render.

(** ** The fingerprint *)

Class Sha256 : Type := {
  sha256 : string → list Z;
  sha256_bytes s : length (sha256 s) = 32%nat ∧ Forall (λ b, 0 ≤ b < 256) (sha256 s)
}.

Definition hex_byte (b : Z) : string := String (hex_char (Z.shiftr b 4)) (String (hex_char (Z.land b 15)) "").
Definition fingerprintOf `{Sha256} (body : string) : string := concat_text (hex_byte <$> take 16 (sha256 body)).

Definition RenderMarkerSet : string := "sc_render_fp".
Definition renderMarkerPrefix : string := "netd-render-fp=".

(** The text up to the first byte of [cs]. *)
Fixpoint until_any (cs : list Z) (s : string) : string :=
  match s with
  | EmptyString => ""
  | String c s' => if bool_decide (byte_of c ∈ cs) then "" else String c (until_any cs s')
  end.

Definition FingerprintFromSetComment (comment : string) : string :=
  match after_tag renderMarkerPrefix comment with
  | None => ""
  | Some fp =>
      let fp := until_any [32; 59; 34] fp in
      if negb (len fp =? 32) then "" else if all_bytes (λ b, in_range 48 57 b || in_range 97 102 b) fp then fp else ""
  end.

Section nftables.
Context {T : UnicodeTables} {H256 : Sha256}.

Definition RenderFingerprint (nets : list GuestNetwork) (topo : Topology) : string := fingerprintOf (renderNftBody nets topo).

Definition marker_comment (fp : string) : string := renderMarkerPrefix +:+ fp.
Definition marker_text (fp : string) : string :=
  decl "set" RenderMarkerSet ["type ipv4_addr"; "comment " +:+ quoted (marker_comment fp)].

(** The text before the last occurrence of [tag], and that after it. *)
Fixpoint last_cut (tag s : string) : option (string * string) :=
  match s with
  | EmptyString => None
  | String c s' =>
      match last_cut tag s' with
      | Some (a, b) => Some (String c a, b)
      | None => (λ rest, ("", rest)) <$> strip_prefix tag s
      end
  end.

Definition RenderNftables (nets : list GuestNetwork) (topo : Topology) : string :=
  let body := renderNftBody nets topo in
  match last_cut table_open body with
  | Some (a, b) => a +:+ table_open +:+ marker_text (fingerprintOf body) +:+ b
  | None => body
  end.
End nftables.
