(* ===== verification/NetFirewall.v ===== *)
(** What the firewall of NetNft lets through.

    The kernel's evaluation of a chain is the class [Nft]: what a match of a rule asks of
    a packet, and that the first rule all of whose matches hold decides, the policy of
    the chain otherwise (nft(8)).  A match on an IPv4 field holds for IPv4 packets only.
    The rate limit and the connection count are left open. *)
From stdpp Require Import pretty.
From S2P Require Import Prelude GoStrings GoText GoNet NetCfg NetNft.

(** ** Packets and sets *)

Inductive ct_state := CtStNew | CtStEstablished | CtStRelated | CtStInvalid | CtStUntracked.
#[export] Instance ct_state_eq_dec : EqDecision ct_state.
Proof. solve_decision. Defined.

Record packet := mkPacket {
  iif : string;
  oif : string;
  v6 : bool;
  saddr : Z;
  daddr : Z;
  smac : string;
  proto : string;
  dport : Z;
  echo : bool;
  ct : ct_state
}.

(** The sets of the table: the client interfaces, the named sets of addresses and of
    services, and who is signed in. *)
Record tables := mkTables {
  guest_interfaces : list string;
  addresses : string → Z → bool;
  services : string → Z → Z → bool;
  in_auth : string → Z → bool;
  in_phase3 : string → Z → bool;
  in_phase3_mac : string → Z → string → bool
}.

(** An address, or a network, as nft reads it. *)
Definition text_has (a : Z) (s : string) : bool :=
  match ParseIP s ≫= To4 with
  | Some x => x =? a
  | None => match ParseCIDR s with Some (_, n) => Contains n (v4_block + a) | None => false end
  end.

Definition is_tcp (p : packet) : bool := bool_decide (proto p = "tcp").
Definition is_udp (p : packet) : bool := bool_decide (proto p = "udp").
Definition known (p : packet) : bool := bool_decide (ct p = CtStEstablished) || bool_decide (ct p = CtStRelated).
Definition at_port (p : packet) (l : list Z) : bool := bool_decide (dport p ∈ l).

(** The documented meaning of the matches, except the two that count. *)
Definition meaning (t : tables) (m : match_) (p : packet) : option bool :=
  let v4 := negb (v6 p) in
  match m with
  | IifLo => Some (bool_decide (iif p = "lo"))
  | Iif n => Some (bool_decide (iif p = n))
  | IifGuest => Some (bool_decide (iif p ∈ guest_interfaces t))
  | IifNotGuest => Some (negb (bool_decide (iif p ∈ guest_interfaces t)))
  | Oif n => Some (bool_decide (oif p = n))
  | OifGuest => Some (bool_decide (oif p ∈ guest_interfaces t))
  | Ipv6 => Some (v6 p)
  | Saddr a => Some (v4 && text_has (saddr p) a)
  | Daddr a => Some (v4 && text_has (daddr p) a)
  | DaddrIn l => Some (v4 && existsb (text_has (daddr p)) l)
  | DaddrSet s => Some (v4 && addresses t s (daddr p))
  | DaddrNotSet s => Some (v4 && negb (addresses t s (daddr p)))
  | DaddrTcp s => Some (v4 && is_tcp p && services t s (daddr p) (dport p))
  | DaddrUdp s => Some (v4 && is_udp p && services t s (daddr p) (dport p))
  | TcpUdp => Some (is_tcp p || is_udp p)
  | ThDport x => Some (at_port p [x])
  | TcpDport x => Some (is_tcp p && at_port p [x])
  | TcpDports l => Some (is_tcp p && at_port p l)
  | UdpDport x => Some (is_udp p && at_port p [x])
  | UdpDports l => Some (is_udp p && at_port p l)
  | EchoRequest => Some (v4 && echo p)
  | CtKnown => Some (known p)
  | NetNft.CtInvalid => Some (bool_decide (ct p = CtStInvalid))
  | NetNft.CtNew => Some (bool_decide (ct p = CtStNew))
  | NotAuth => Some (v4 && negb (in_auth t (iif p) (saddr p)))
  | NotPhase3 => Some (v4 && negb (in_phase3 t (iif p) (saddr p)))
  | NotPhase3Mac => Some (v4 && negb (in_phase3_mac t (iif p) (saddr p) (smac p)))
  | Phase3 => Some (v4 && in_phase3 t (iif p) (saddr p))
  | Phase3Mac => Some (v4 && in_phase3_mac t (iif p) (saddr p) (smac p))
  | DnsOver | ConnOver _ => None
  | CounterName _ | Space => Some true
  end.

Class Nft : Type := {
  holds : tables → match_ → packet → bool;
  holds_meaning t m p b : meaning t m p = Some b → holds t m p = b;
  verdict : tables → Verdict → list rule → packet → Verdict;
  verdict_nil t policy p : verdict t policy [] p = policy;
  verdict_cons t policy r rs p :
    verdict t policy (r :: rs) p = if forallb (λ m, holds t m p) (matches r) then action r else verdict t policy rs p
}.

(** The sets the ruleset declares with their elements have those. *)
Record loaded (nets : list GuestNetwork) (topo : Topology) (t : tables) : Prop := {
  loaded_interfaces : guest_interfaces t = bridge <$> sortEnabled nets;
  loaded_subnets a : addresses t "guest_subnets" a = existsb (text_has a) (SubnetCIDR <$> sortEnabled nets);
  loaded_ranges a : Deny (topo_PrivateReach topo) = true → addresses t "guest_private_ranges" a = existsb (text_has a) PrivateRanges;
  loaded_allow a : Deny (topo_PrivateReach topo) = true →
    addresses t "guest_private_allow" a = existsb (text_has a) (NormalizeAllow (Allow (topo_PrivateReach topo)))
}.

(** ** The text of an address *)

Lemma octet_text b : 0 ≤ b < 256 →
  ∃ c k, c ≠ 46 ∧ ∀ prev fields rest, ipv4_fields prev 0 0 fields (bytes_of (pretty b) ++ rest)%list = ipv4_fields (Some c) b k fields rest.
Proof.
  intros Hb. assert (HI : b ∈ seqZ 0 256) by (apply elem_of_seqZ; lia). revert b Hb HI.
  cut (Forall (λ b, ∃ c k, c ≠ 46 ∧ ∀ prev fields rest, ipv4_fields prev 0 0 fields (bytes_of (pretty b) ++ rest)%list = ipv4_fields (Some c) b k fields rest) (seqZ 0 256)).
  { intros HF b _ HI. rewrite Forall_forall in HF. by apply HF. }
  replace (seqZ 0 256) with (Z.of_nat <$> seq 0 256) by (vm_compute; reflexivity). cbn [seq fmap list_fmap].
  repeat (constructor; [eexists _, _; split; [|intros prev fields rest; vm_compute bytes_of; cbn; reflexivity]; done|]). constructor.
Qed.

Lemma bytes_of_append s t : bytes_of (s +:+ t) = (bytes_of s ++ bytes_of t)%list.
Proof. induction s as [|c s IH]; [done|]. change (byte_of c :: bytes_of (s +:+ t) = byte_of c :: (bytes_of s ++ bytes_of t)%list). by rewrite IH. Qed.

Lemma octet_digits b : 0 ≤ b < 256 → ∃ x l, bytes_of (pretty b) = x :: l ∧ Forall (λ y, 48 ≤ y ≤ 57) (x :: l).
Proof.
  intros Hb. assert (HI : b ∈ seqZ 0 256) by (apply elem_of_seqZ; lia). revert b Hb HI.
  cut (Forall (λ b, match bytes_of (pretty b) with [] => false | l => forallb (in_range 48 57) l end = true) (seqZ 0 256)).
  { intros HF b _ HI. rewrite Forall_forall in HF. specialize (HF b HI). cbn beta in HF. destruct (bytes_of (pretty b)) as [|x l]; [done|].
    exists x, l. split; [done|]. rewrite Forall_forall. intros y Hy%list_elem_of_In. apply (proj1 (forallb_forall _ _) HF) in Hy.
    unfold in_range in Hy. apply andb_true_iff in Hy as [?%Z.leb_le ?%Z.leb_le]. done. }
  apply (bool_decide_unpack _). vm_compute. done.
Qed.

Lemma octets a : 0 ≤ a < 2 ^ 32 →
  0 ≤ Z.shiftr a 24 < 256 ∧ 0 ≤ Z.land (Z.shiftr a 16) 255 < 256 ∧ 0 ≤ Z.land (Z.shiftr a 8) 255 < 256 ∧ 0 ≤ Z.land a 255 < 256 ∧
  of_be [Z.shiftr a 24; Z.land (Z.shiftr a 16) 255; Z.land (Z.shiftr a 8) 255; Z.land a 255] = a.
Proof.
  intros Ha. change 255 with (Z.ones 8). rewrite !Z.land_ones, !Z.shiftr_div_pow2 by lia. rewrite of_be_4.
  change (2 ^ 24) with (256 * (256 * 256)). change (2 ^ 16) with (256 * 256). change (2 ^ 8) with 256. rewrite <- !Z.div_div by lia.
  pose proof (Z.div_mod a 256 ltac:(lia)). pose proof (Z.mod_pos_bound a 256 ltac:(lia)).
  pose proof (Z.div_mod (a / 256) 256 ltac:(lia)). pose proof (Z.mod_pos_bound (a / 256) 256 ltac:(lia)).
  pose proof (Z.div_mod (a / 256 / 256) 256 ltac:(lia)). pose proof (Z.mod_pos_bound (a / 256 / 256) 256 ltac:(lia)). lia.
Qed.

Lemma ParseAddr_dotted a : 0 ≤ a < 2 ^ 32 → ParseAddr (dotted a) = Some (V4 a).
Proof.
  intros Ha. destruct (octets a Ha) as (H1 & H2 & H3 & H4 & HE). unfold dotted.
  set (w := Z.shiftr a 24) in *. set (x := Z.land (Z.shiftr a 16) 255) in *. set (y := Z.land (Z.shiftr a 8) 255) in *. set (z := Z.land a 255) in *.
  set (s := pretty w +:+ _). assert (HB : bytes_of s = (bytes_of (pretty w) ++ 46 :: bytes_of (pretty x) ++ 46 :: bytes_of (pretty y) ++ 46 :: bytes_of (pretty z))%list).
  { unfold s. by rewrite !bytes_of_append. }
  destruct (octet_digits w H1) as (xw & lw & Ew & Fw), (octet_digits x H2) as (xx & lx & Ex & Fx), (octet_digits y H3) as (xy & ly & Ey & Fy), (octet_digits z H4) as (xz & lz & Ez & Fz).
  assert (HF : Forall (λ c, 48 ≤ c ≤ 57 ∨ c = 46) (bytes_of s)).
  { rewrite HB, Ew, Ex, Ey, Ez. assert (HW : ∀ l, Forall (λ y, 48 ≤ y ≤ 57) l → Forall (λ c, 48 ≤ c ≤ 57 ∨ c = 46) l) by (intros l Hl; eapply Forall_impl; [exact Hl|]; intros; by left).
    apply HW in Fw, Fx, Fy, Fz. repeat (apply Forall_app; split; [done|]; apply Forall_cons; split; [by right|]). done. }
  rewrite Forall_forall in HF. unfold ParseAddr. rewrite bool_decide_false by (intros Hin; apply HF in Hin; lia).
  destruct (list_find _ _) as [[i c]|] eqn:EF.
  - apply list_find_Some in EF as (Hi & HC & _). apply list_elem_of_lookup_2, HF in Hi. assert (c = 46) as -> by lia. cbn [Z.eqb Pos.eqb].
    rewrite HB. destruct (octet_text w H1) as (cw & kw & Nw & ->), (octet_text x H2) as (cx & kx & Nx & Qx), (octet_text y H3) as (cy & ky & Ny & Qy), (octet_text z H4) as (cz & kz & Nz & Qz).
    assert (HD : ∀ c v k f l, c ≠ 46 → l ≠ [] → (length f < 3)%nat → ipv4_fields (Some c) v k f (46 :: l) = ipv4_fields (Some 46) 0 0 (f ++ [v])%list l).
    { intros c v k f l Hc Hl Hf. cbn [ipv4_fields]. change (in_range 48 57 46) with false. cbn [Z.eqb Pos.eqb]. rewrite !bool_decide_false by (done || congruence).
      cbn [orb]. by rewrite (proj2 (Nat.eqb_neq _ _)) by lia. }
    assert (HZ : bytes_of (pretty z) = (bytes_of (pretty z) ++ [])%list) by by rewrite app_nil_r.
    rewrite HD; [|done|by rewrite Ex|cbn; lia]. rewrite Qx, HD; [|done|by rewrite Ey|cbn; lia]. rewrite Qy, HD; [|done|by rewrite Ez|cbn; lia].
    rewrite HZ, Qz. cbn [ipv4_fields length app Nat.ltb Nat.leb fmap option_fmap option_map]. by rewrite HE.
  - exfalso. apply list_find_None in EF. rewrite Forall_forall in EF. apply (EF 46); [|by left]. rewrite HB. apply elem_of_app. right. left.
Qed.

Lemma text_has_dotted a b : 0 ≤ b < 2 ^ 32 → text_has a (dotted b) = true ↔ a = b.
Proof. intros Hb. unfold text_has, ParseIP. rewrite ParseAddr_dotted by done. cbn. rewrite To4_v4, Z.eqb_eq by done. naive_solver. Qed.

(** ** The first rule that matches *)

Section firewall.
Context {T : UnicodeTables} {N : Nft} (t : tables).

Definition fires (r : rule) (p : packet) : bool := forallb (λ m, holds t m p) (matches r).

Fixpoint hit (rs : list rule) (p : packet) : option Verdict :=
  match rs with [] => None | r :: rs' => if fires r p then Some (action r) else hit rs' p end.

Lemma verdict_hit policy rs p : verdict t policy rs p = default policy (hit rs p).
Proof. induction rs as [|r rs IH]; [apply verdict_nil|]. rewrite verdict_cons. cbn [hit]. unfold fires. by destruct (forallb _ _). Qed.

Definition hits (l : list item) : packet → option Verdict := hit (rules_of l).

Lemma hits_app l k p : hits (l ++ k)%list p = match hits l p with Some v => Some v | None => hits k p end.
Proof.
  unfold hits, rules_of. rewrite omap_app. set (a := omap _ l). set (b := omap _ k). clearbody a b.
  induction a as [|r a IH]; [done|]. cbn [app hit]. by destruct (fires r p).
Qed.

(** The items that decide. *)
Definition meets (l : list item) (v : Verdict) (p : packet) : Prop := ∃ r, Rule r ∈ l ∧ action r = v ∧ fires r p = true.

Lemma hits_Some l p v : hits l p = Some v → meets l v p.
Proof.
  induction l as [|[r|s] l IH]; cbn; [done| |].
  - unfold hits. cbn. destruct (fires r p) eqn:E; [intros [= <-]; exists r; split; [left|done]|]. intros H. destruct (IH H) as (r' & ? & ?). exists r'. split; [by right|done].
  - intros H. destruct (IH H) as (r' & ? & ?). exists r'. split; [by right|done].
Qed.

Lemma hits_None l p r : hits l p = None → Rule r ∈ l → fires r p = false.
Proof.
  induction l as [|i l IH]; [by intros _ ?%elem_of_nil|]. intros H [HE|Hin]%elem_of_cons.
  - subst i. unfold hits in H. cbn in H. by destruct (fires r p).
  - apply IH; [|done]. destruct i as [r'|s]; [|done]. unfold hits in H. cbn in H. by destruct (fires r' p).
Qed.

Lemma hits_none l p : (∀ r, Rule r ∈ l → fires r p = false) → hits l p = None.
Proof.
  induction l as [|[r|s] l IH]; [done| |]; intros H.
  - unfold hits. cbn. rewrite (H r) by left. apply IH. intros. apply H. by right.
  - apply IH. intros. apply H. by right.
Qed.

Lemma fires_on ms v n p : fires (mkRule ms v n) p = true ↔ Forall (λ m, holds t m p = true) ms.
Proof. unfold fires. cbn. rewrite forallb_forall, Forall_forall. setoid_rewrite list_elem_of_In. done. Qed.

Lemma holds_true m p b : meaning t m p = Some b → holds t m p = true → b = true.
Proof. intros H <-. symmetry. by apply holds_meaning. Qed.

Lemma holds_is m p : meaning t m p = Some true → holds t m p = true.
Proof. apply holds_meaning. Qed.

(** The members of a list of items built by the combinators of NetNft. *)
Lemma on_only b l r : Rule r ∈ only b l → b = true ∧ Rule r ∈ l.
Proof. destruct b; [done|]. by intros ?%elem_of_nil. Qed.

Lemma in_networks (f : GuestNetwork → list item) nets r : Rule r ∈ (n ← nets; f n) → ∃ n, n ∈ nets ∧ Rule r ∈ f n.
Proof. rewrite list_elem_of_bind. naive_solver. Qed.

Lemma networks_in (f : GuestNetwork → list item) nets r n : n ∈ nets → Rule r ∈ f n → Rule r ∈ (n ← nets; f n).
Proof. rewrite list_elem_of_bind. naive_solver. Qed.

Lemma in_vip topo f r : Rule r ∈ vip_rules topo f → ∃ a, ParsePortalIP (PortalVIP topo) = Some a ∧ Rule r ∈ f (dotted a).
Proof. unfold vip_rules, renderPortalVIP. cbv zeta. intros [HE HI]%on_only. destruct (ParsePortalIP (PortalVIP topo)) as [a|]; [by exists a|done]. Qed.
End firewall.
