(* ===== verification/NetFirewallProofs.v ===== *)
(** The guarantees of the firewall: which packets of a client network are forwarded, which
    the appliance itself answers, and where a browser is sent (NetNft, NetFirewall). *)
From stdpp Require Import pretty.
From S2P Require Import Prelude GoStrings GoText GoNet NetCfg NetNft NetFirewall.

Section guarantees.
Context {T : UnicodeTables} {N : Nft} (nets : list GuestNetwork) (topo : Topology) (t : tables).

(** ** What the rules decide about *)

Definition any_has (a : Z) (l : list string) : bool := existsb (text_has a) l.

Definition in_garden (p : packet) : bool :=
  addresses t "walled_garden_ip" (daddr p) || (is_tcp p && services t "walled_garden_tcp" (daddr p) (dport p))
  || (is_udp p && services t "walled_garden_udp" (daddr p) (dport p)).

(** Signed in, by address and, if bound, by hardware address. *)
Definition authorised (p : packet) : bool :=
  if MACBinding topo then in_phase3_mac t (iif p) (saddr p) (smac p) else in_phase3 t (iif p) (saddr p).

(** A destination that is refused even to a signed-in client. *)
Definition blocked (a : Z) : bool :=
  any_has a (SubnetCIDR <$> sortEnabled nets)
  || if Deny (topo_PrivateReach topo) then
       (any_has a (MgmtCIDRs topo) || any_has a PrivateRanges) && negb (any_has a (NormalizeAllow (Allow (topo_PrivateReach topo))))
     else any_has a (MgmtCIDRs topo).

Definition from (n : GuestNetwork) (p : packet) : Prop := n ∈ sortEnabled nets ∧ iif p = bridge n.

(** The client's network has its own resolvers and asks one of them. *)
Definition asks_own_dns (p : packet) : Prop :=
  ∃ n, from n p ∧ daddr p ∈ custom_dns n ∧ (is_tcp p || is_udp p) = true ∧ dport p = 53.

Definition offline (p : packet) : Prop := ∃ n, from n p ∧ InternetEnabled n = false.
Definition at_vip (a : Z) : Prop := ParsePortalIP (PortalVIP topo) = Some a.

Abbreviation forward := (rules_of (forward_items (MACBinding topo) nets topo)).
Abbreviation input := (rules_of (input_items (MACBinding topo) nets topo)).
Abbreviation prerouting := (rules_of (prerouting_items (MACBinding topo) nets topo)).

(** ** Taking the rules apart *)

Ltac in_items H :=
  unfold on in H; repeat (apply elem_of_cons in H as [H|H]); try (by apply elem_of_nil in H); try (injection H as ->).

Ltac matched H :=
  apply fires_on in H; rewrite ?Forall_cons in H;
  repeat match type of H with _ ∧ _ => let H1 := fresh "M" in destruct H as [H1 H]; first [eapply holds_true in H1; [|reflexivity]|idtac] end;
  clear H; unfold at_port in *; repeat match goal with
  | H : bool_decide _ = true |- _ => apply bool_decide_eq_true in H
  | H : _ && _ = true |- _ => apply andb_true_iff in H as [? ?]
  | H : negb _ = true |- _ => apply negb_true_iff in H
  | H : true = true |- _ => clear H
  | H : _ ∈ [_] |- _ => apply list_elem_of_singleton in H
  end.

Lemma vip_range a : at_vip a → 0 ≤ a < 2 ^ 32.
Proof.
  unfold at_vip, ParsePortalIP. destruct (negb _).
  - destruct (ParseCIDR _) as [[ip n]|]; [|done]. cbn. destruct (_ && _); [|done]. apply To4_range.
  - destruct (ParseIP _) as [ip|]; [|done]. apply To4_range.
Qed.

Lemma custom_dns_range n a : a ∈ custom_dns n → 0 ≤ a < 2 ^ 32.
Proof.
  unfold custom_dns. case_bool_decide; [|by intros ?%elem_of_nil]. assert (HG : ∀ l out, (∀ x, x ∈ out → 0 ≤ x < 2 ^ 32) → ∀ x, x ∈ foldl add_addr out l → 0 ≤ x < 2 ^ 32).
  { induction l as [|d l IH]; intros out HO; [done|]. cbn [foldl]. apply IH. unfold add_addr. destruct (ParseIP (TrimSpace d) ≫= To4) as [b|] eqn:E; [|done].
    destruct (_ || _); [done|]. intros x [Hx|Hx]%elem_of_app; [by apply HO|]. apply list_elem_of_singleton in Hx as ->.
    destruct (ParseIP (TrimSpace d)) as [ip|]; [|done]. by eapply To4_range. }
  apply HG. by intros x ?%elem_of_nil.
Qed.

Lemma dotted_in a l : (∀ x, x ∈ l → 0 ≤ x < 2 ^ 32) → existsb (text_has a) (dotted <$> l) = true → a ∈ l.
Proof.
  intros HR (s & Hs%list_elem_of_In & HT)%existsb_exists. apply list_elem_of_fmap in Hs as (b & -> & Hb). apply text_has_dotted in HT as ->; [done|by apply HR].
Qed.

(** ** Forwarding *)

Lemma guard_drops p : hits t (guard_rules (MACBinding topo) nets topo) p ≠ Some Accept.
Proof.
  intros (r & Hr & HA & _)%hits_Some. unfold guard_rules in Hr. rewrite !elem_of_app in Hr. destruct Hr as [Hr|[Hr|[Hr|Hr]]].
  - in_items Hr; done.
  - apply in_vip in Hr as (a & _ & Hr). in_items Hr; done.
  - unfold dns_limit in Hr. in_items Hr; done.
  - apply in_networks in Hr as (n & _ & Hr). apply on_only in Hr as [_ Hr]. in_items Hr; done.
Qed.

(** What the guards leave. *)
Definition guarded (p : packet) : Prop :=
  v6 p = false ∧ (∀ n, from n p → ClientIsolation n = true → oif p ≠ bridge n) ∧ ∀ a, at_vip a → daddr p ≠ a ∧ saddr p ≠ a.

Lemma fires_rule ms v n p : Forall (λ m, holds t m p = true) ms → fires t (mkRule ms v n) p = true.
Proof. apply fires_on. Qed.

Lemma vip_text a : at_vip a → renderPortalVIP topo = dotted a ∧ empty (renderPortalVIP topo) = false.
Proof.
  intros HA. assert (HE : renderPortalVIP topo = dotted a) by (unfold renderPortalVIP; by rewrite HA). split; [done|]. rewrite HE.
  destruct (empty (dotted a)) eqn:E; [|done]. apply bool_decide_eq_true in E. pose proof (ParseAddr_dotted a (vip_range a HA)) as HP. by rewrite E in HP.
Qed.

Lemma vip_in f r a : at_vip a → Rule r ∈ f (dotted a) → Rule r ∈ vip_rules topo f.
Proof. intros HA HR. destruct (vip_text a HA) as [HE HN]. unfold vip_rules. cbv zeta. by rewrite HN, HE. Qed.

Ltac holds_all :=
  apply fires_rule; repeat (apply Forall_cons; split); try (by apply Forall_nil);
  try (apply holds_is; cbn [meaning]; f_equal).

Lemma guard_passed p :
  loaded nets topo t → iif p ∈ guest_interfaces t → hits t (guard_rules (MACBinding topo) nets topo) p = None → guarded p.
Proof.
  intros HL HI HN. assert (HG : ∀ r, Rule r ∈ guard_rules (MACBinding topo) nets topo → fires t r p = true → False).
  { intros r Hr HF. by rewrite (hits_None t _ _ _ HN Hr) in HF. }
  clear HN. unfold guard_rules in HG. setoid_rewrite elem_of_app in HG.
  assert (H6 : v6 p = false).
  { destruct (v6 p) eqn:E; [|done]. exfalso. apply (HG (mkRule [IifGuest; Ipv6; CounterName "guest_ipv6_dropped"] Drop "IPv6 guest bypass guard")).
    - left. by left.
    - holds_all; [by apply bool_decide_eq_true|done]. }
  setoid_rewrite elem_of_app in HG. setoid_rewrite elem_of_app in HG. split_and!; [done|..].
  - intros n [Hn HB] HC HO. apply (HG (mkRule [Iif (bridge n); Oif (bridge n)] Drop "client isolation")).
    + right. right. right. eapply networks_in; [done|]. rewrite HC. by left.
    + holds_all; by apply bool_decide_eq_true.
  - intros a HA. pose proof (vip_range a HA) as HR. split; intros HE.
    + apply (HG (mkRule [Daddr (dotted a)] Drop "portal address is never routed")).
      * right. left. eapply vip_in; [done|]. by left.
      * holds_all. rewrite H6, HE. by apply text_has_dotted.
    + apply (HG (mkRule [Saddr (dotted a)] Drop "portal address is never routed (source)")).
      * right. left. eapply vip_in; [done|]. right. by left.
      * holds_all. rewrite H6, HE. by apply text_has_dotted.
Qed.

Lemma dns_accepts p v : hits t (dns_rules nets) p = Some v → asks_own_dns p.
Proof.
  intros (r & Hr & _ & HF)%hits_Some. unfold dns_rules in Hr. apply in_networks in Hr as (n & Hn & Hr). apply on_only in Hr as [_ Hr]. in_items Hr. matched HF.
  exists n. split; [by split|]. split_and!; try done.
  apply dotted_in; [apply custom_dns_range|done].
Qed.

Lemma disabled_drops p : hits t (internetDisabled nets topo) p ≠ Some Accept.
Proof. intros (r & Hr & HA & _)%hits_Some. apply in_networks in Hr as (n & _ & Hr). apply on_only in Hr as [_ Hr]. in_items Hr. done. Qed.

Lemma disabled_passed p : hits t (internetDisabled nets topo) p = None → oif p = WANInterface topo → ¬ offline p.
Proof.
  intros HN HO (n & [Hn HB] & HI). pose proof (hits_None t _ _ (mkRule [Iif (bridge n); Oif (WANInterface topo)] Drop ("internet disabled for " +:+ SafeText (Name n))) HN) as HF.
  rewrite (fires_rule [_; _]) in HF; [|repeat (apply Forall_cons; split); try (by apply Forall_nil); apply holds_is; cbn [meaning]; f_equal; by apply bool_decide_eq_true].
  discriminate HF. eapply networks_in; [done|]. rewrite HI. by left.
Qed.

Lemma garden_accepts p v : hits t (gardenAccepts topo) p = Some v → v = Accept ∧ oif p = WANInterface topo ∧ in_garden p = true.
Proof.
  intros (r & Hr & <- & HF)%hits_Some. unfold gardenAccepts in Hr. unfold in_garden. in_items Hr; matched HF; split_and!; try done.
  all: repeat match goal with H : ?b = true |- context [?b] => rewrite H end; by rewrite ?orb_true_r.
Qed.

Lemma mgmt_drops f p : (∀ c, ∃ ms n, f c = on ms Drop n) → hits t (f <$> MgmtCIDRs topo) p ≠ Some Accept.
Proof.
  intros Hf (r & Hr & HA & _)%hits_Some. apply list_elem_of_fmap in Hr as (c & HE & _). destruct (Hf c) as (ms & n & Hfc). rewrite Hfc in HE. injection HE as ->. done.
Qed.

Lemma reach_accepts p :
  hits t (reach_rules nets topo) p = Some Accept → Deny (topo_PrivateReach topo) = true ∧ oif p = WANInterface topo ∧ ¬ offline p ∧ in_garden p = true.
Proof.
  unfold reach_rules. destruct (Deny _).
  - rewrite !hits_app. destruct (hits t (internetDisabled nets topo) p) as [v|] eqn:E1; [intros [= ->]; by apply disabled_drops in E1|].
    destruct (hits t (gardenAccepts topo) p) as [v|] eqn:E2.
    + intros _. apply garden_accepts in E2 as (_ & HO & HG). split_and!; try done. by apply disabled_passed.
    + destruct (hits t (_ <$> _) p) as [v|] eqn:E3; [intros [= ->]; apply mgmt_drops in E3; [done|intros c; by eexists _, _]|].
      intros (r & Hr & HA & _)%hits_Some. unfold inter_guest in Hr. in_items Hr; done.
  - rewrite !hits_app. destruct (hits t (_ <$> _) p) as [v|] eqn:E3; [intros [= ->]; apply mgmt_drops in E3; [done|intros c; by eexists _, _]|].
    destruct (hits t [inter_guest] p) as [v|] eqn:E4; [|intros H; by apply disabled_drops in H].
    intros [= ->]. apply hits_Some in E4 as (r & Hr & HA & _). unfold inter_guest in Hr. in_items Hr; done.
Qed.

(** A rule whose matches all have a meaning fires when they all hold. *)
Definition asks (p : packet) (m : match_) : bool := match meaning t m p with Some b => b | None => true end.
Definition plain_match (p : packet) (m : match_) : bool := match meaning t m p with Some _ => true | None => false end.

Lemma fires_eq r p : forallb (plain_match p) (matches r) = true → fires t r p = forallb (asks p) (matches r).
Proof.
  unfold fires, asks, plain_match. induction (matches r) as [|m ms IH]; [done|]. cbn [forallb]. intros [Hb HM]%andb_true_iff.
  rewrite IH by done. f_equal. destruct (meaning t m p) eqn:E; [|done]. by apply holds_meaning.
Qed.

Lemma passed l p ms v n : hits t l p = None → on ms v n ∈ l → forallb (plain_match p) ms = true → forallb (asks p) ms = false.
Proof. intros HN HI HM. rewrite <- (fires_eq (mkRule ms v n)) by done. by eapply hits_None. Qed.

Lemma disabled_ok p : oif p = WANInterface topo → hits t (internetDisabled nets topo) p = None ↔ ¬ offline p.
Proof.
  intros HO. split; [intros HN; by apply disabled_passed|]. intros HF. apply hits_none. intros r Hr. apply not_true_iff_false. intros HX.
  apply in_networks in Hr as (n & Hn & Hr). apply on_only in Hr as [HI%negb_true_iff Hr]. in_items Hr. matched HX. apply HF. by exists n.
Qed.

Lemma passed_all (l : list string) f p ms v n :
  hits t (f <$> l) p = None → (∀ c, f c = on (ms c) v n) → (∀ c, forallb (plain_match p) (ms c) = true) → ∀ c, c ∈ l → forallb (asks p) (ms c) = false.
Proof. intros HN HE HM c Hc. eapply passed; [done| |done]. rewrite <- HE. by apply list_elem_of_fmap_2. Qed.

(** What is blocked, as the rules ask for it. *)
Lemma blocked_as p : loaded nets topo t →
  blocked (daddr p) = addresses t "guest_subnets" (daddr p)
    || existsb (λ c, text_has (daddr p) c && (negb (Deny (topo_PrivateReach topo)) || negb (addresses t "guest_private_allow" (daddr p)))) (MgmtCIDRs topo)
    || (Deny (topo_PrivateReach topo) && addresses t "guest_private_ranges" (daddr p) && negb (addresses t "guest_private_allow" (daddr p))).
Proof.
  intros HL. unfold blocked, any_has. rewrite (loaded_subnets _ _ _ HL). destruct (existsb _ (SubnetCIDR <$> _)); [done|]. cbn [orb].
  assert (HE : ∀ b (l : list string), existsb (λ c, text_has (daddr p) c && b) l = existsb (text_has (daddr p)) l && b).
  { intros b l. induction l as [|c l IH]; [done|]. cbn [existsb]. rewrite IH. symmetry. apply andb_orb_distrib_l. }
  rewrite HE. destruct (Deny _) eqn:ED; cbn [negb orb andb]; [|by rewrite andb_true_r, orb_false_r].
  rewrite (loaded_ranges _ _ _ HL _ ED), (loaded_allow _ _ _ HL _ ED). apply andb_orb_distrib_l.
Qed.

Lemma reach_passed p :
  loaded nets topo t → iif p ∈ guest_interfaces t → v6 p = false → oif p = WANInterface topo → hits t (reach_rules nets topo) p = None →
  ¬ offline p ∧ blocked (daddr p) = false.
Proof.
  intros HL HI H6 HO. rewrite (blocked_as p HL). unfold reach_rules. assert (HIb : bool_decide (iif p ∈ guest_interfaces t) = true) by by apply bool_decide_eq_true.
  destruct (Deny _) eqn:ED; rewrite !hits_app.
  - destruct (hits t (internetDisabled nets topo) p) eqn:E1; [done|]. destruct (hits t (gardenAccepts topo) p) eqn:E2; [done|].
    destruct (hits t (_ <$> _) p) eqn:E3; [done|]. intros E4. split; [by apply disabled_passed|].
    pose proof (passed _ _ _ _ _ E4 ltac:(left) eq_refl) as P1. pose proof (passed _ _ _ _ _ E4 ltac:(right; left) eq_refl) as P2.
    pose proof (passed_all _ _ _ _ _ _ E3 (λ c, eq_refl) (λ c, eq_refl)) as P3. cbn [forallb asks meaning] in P1, P2, P3. rewrite HIb, H6 in P1, P2. cbn [negb andb] in P1, P2.
    rewrite !andb_true_r in P1, P2. rewrite P1. cbn [orb andb]. rewrite P2, orb_false_r. apply not_true_iff_false. intros (c & Hc%list_elem_of_In & HT)%existsb_exists.
    specialize (P3 c Hc). rewrite HIb, H6 in P3. cbn [negb andb orb] in P3, HT. by rewrite andb_true_r, HT in P3.
  - destruct (hits t (_ <$> _) p) eqn:E3; [done|]. destruct (hits t [inter_guest] p) eqn:E4; [done|]. intros E1. split; [by apply disabled_passed|].
    pose proof (passed _ _ _ _ _ E4 ltac:(left) eq_refl) as P1. pose proof (passed_all _ _ _ _ _ _ E3 (λ c, eq_refl) (λ c, eq_refl)) as P3.
    cbn [forallb asks meaning] in P1, P3. rewrite HIb, H6 in P1. cbn [negb andb] in P1. rewrite andb_true_r in P1. rewrite P1. cbn [orb andb]. rewrite orb_false_r.
    apply not_true_iff_false. intros (c & Hc%list_elem_of_In & HT)%existsb_exists. specialize (P3 c Hc). rewrite HIb, H6 in P3. cbn [negb andb orb] in P3, HT.
    by rewrite andb_true_r in HT, P3; rewrite HT in P3.
Qed.

Lemma signed_in_hit p v : hits t [signed_in topo] p = Some v → v = Accept ∧ oif p = WANInterface topo ∧ authorised p = true.
Proof.
  intros (r & Hr & <- & HF)%hits_Some. unfold signed_in in Hr. unfold authorised. destruct (MACBinding topo); in_items Hr; matched HF; done.
Qed.

Lemma accepted_hit l p : verdict t Drop (rules_of l) p = Accept → hits t l p = Some Accept.
Proof. rewrite (verdict_hit t). unfold hits. destruct (hit t (rules_of l) p) as [v|]; [by intros [= ->]|done]. Qed.

(** C4. A packet from a client network that is forwarded is IPv4, does not return into a
    network with client isolation and neither comes from nor goes to the portal address;
    it belongs to a connection let through before, asks a resolver that its network
    configures, or leaves by the uplink from a network with internet access: for the
    walled garden, or by a signed-in client (bound to its hardware address if so set) to
    a destination that is not another client network, the management or, where refused,
    a private network. *)
Theorem guest_forwarding p :
  loaded nets topo t → iif p ∈ guest_interfaces t → verdict t Drop forward p = Accept →
  guarded p ∧
  (known p = true ∨ asks_own_dns p ∨
   (oif p = WANInterface topo ∧ ¬ offline p ∧
    ((Deny (topo_PrivateReach topo) = true ∧ in_garden p = true) ∨ (blocked (daddr p) = false ∧ (authorised p || in_garden p) = true)))).
Proof.
  intros HL HI HV%accepted_hit. unfold forward_items in HV. rewrite hits_app in HV.
  destruct (hits t (guard_rules _ _ _) p) as [v|] eqn:EG; [injection HV as ->; by apply guard_drops in EG|]. apply guard_passed in EG; [|done..].
  split; [done|]. destruct EG as (H6 & _). rewrite hits_app in HV. destruct (hits t [_; _] p) as [v|] eqn:EC.
  { injection HV as ->. apply hits_Some in EC as (r & Hr & HA & HF). in_items Hr; [|done]. matched HF. by left. }
  right. rewrite hits_app in HV. destruct (hits t (dns_rules nets) p) as [v|] eqn:ED; [left; by eapply dns_accepts|]. right.
  rewrite hits_app in HV. destruct (hits t (reach_rules nets topo) p) as [v|] eqn:ER.
  { injection HV as ->. apply reach_accepts in ER as (? & ? & ? & ?). split_and!; try done. by left. }
  assert (HW : oif p = WANInterface topo → ¬ offline p ∧ blocked (daddr p) = false) by (intros; by apply reach_passed).
  rewrite hits_app in HV. destruct (hits t [signed_in topo] p) as [v|] eqn:ES.
  { apply signed_in_hit in ES as (_ & HO & HS). destruct (HW HO). split_and!; try done. right. by rewrite HS. }
  rewrite hits_app in HV. destruct (hits t (only _ (gardenAccepts topo)) p) as [v|] eqn:EA.
  { destruct (Deny _); [done|]. apply garden_accepts in EA as (_ & HO & HG). destruct (HW HO). split_and!; try done. right. by rewrite HG, orb_true_r. }
  apply hits_Some in HV as (r & Hr & HA & _). apply on_only in Hr as [_ Hr]. in_items Hr. done.
Qed.

(** No rule of the list refuses the packet. *)
Definition lenient (l : list item) (p : packet) : Prop := ∀ r, Rule r ∈ l → fires t r p = true → action r = Accept.

Lemma lenient_app l k p : lenient l p → lenient k p → lenient (l ++ k)%list p.
Proof. intros H1 H2 r [Hr|Hr]%elem_of_app; [by apply H1|by apply H2]. Qed.

Lemma lenient_hits l k p : lenient l p → hits t k p = Some Accept → hits t (l ++ k)%list p = Some Accept.
Proof. intros HL HK. rewrite hits_app. destruct (hits t l p) as [v|] eqn:E; [|done]. apply hits_Some in E as (r & Hr & <- & HF). f_equal. by apply HL. Qed.

Lemma not_phase3_off p : authorised p = true → holds t (not_phase3 (MACBinding topo)) p = false.
Proof.
  unfold authorised, not_phase3. intros HA. apply holds_meaning. destruct (MACBinding topo); cbn [meaning]; by rewrite HA, andb_false_r.
Qed.

Lemma dns_limit_off w p : authorised p = true → lenient [dns_limit (MACBinding topo) w] p.
Proof.
  intros HA r Hr HF. unfold dns_limit in Hr. in_items Hr. apply fires_on in HF. rewrite Forall_forall in HF.
  specialize (HF (not_phase3 (MACBinding topo))). rewrite (not_phase3_off p HA) in HF. discriminate HF. set_solver.
Qed.

Lemma guards_lenient p :
  guarded p → WANInterface topo ∉ guest_interfaces t → loaded nets topo t → oif p = WANInterface topo → authorised p = true →
  lenient (guard_rules (MACBinding topo) nets topo) p.
Proof.
  intros (H6 & _ & HP) HW HL HO HA. unfold guard_rules. repeat apply lenient_app.
  - intros r Hr HF. in_items Hr; matched HF; congruence.
  - intros r Hr HF. apply in_vip in Hr as (a & HV & Hr). destruct (HP a HV). pose proof (vip_range a HV).
    in_items Hr; matched HF; exfalso; match goal with H : text_has _ _ = true |- _ => by apply text_has_dotted in H end.
  - by apply dns_limit_off.
  - intros r Hr HF. apply in_networks in Hr as (n & Hn & Hr). apply on_only in Hr as [_ Hr]. in_items Hr. matched HF. exfalso. apply HW.
    rewrite (loaded_interfaces _ _ _ HL), <- HO. apply list_elem_of_fmap. by exists n.
Qed.

Lemma reach_lenient p : loaded nets topo t → ¬ offline p → blocked (daddr p) = false → lenient (reach_rules nets topo) p.
Proof.
  intros HL HF HB. rewrite (blocked_as p HL) in HB. apply orb_false_iff in HB as [HB H3]. apply orb_false_iff in HB as [H1 H2]. apply not_true_iff_false in H2.
  assert (HD : lenient (internetDisabled nets topo) p).
  { intros r Hr HX. apply in_networks in Hr as (n & Hn & Hr). apply on_only in Hr as [HI%negb_true_iff Hr]. in_items Hr. matched HX. destruct HF. by exists n. }
  assert (HG : lenient [inter_guest] p) by (intros r Hr HX; unfold inter_guest in Hr; in_items Hr; matched HX; congruence).
  unfold reach_rules. destruct (Deny _) eqn:ED; repeat apply lenient_app; try done.
  - intros r Hr HX. unfold gardenAccepts in Hr. in_items Hr; done.
  - intros r Hr HX. apply list_elem_of_fmap in Hr as (c & Hr & Hc). injection Hr as ->. matched HX. destruct H2. apply existsb_exists. exists c.
    split; [by apply list_elem_of_In|]. by repeat match goal with H : _ = true |- _ => rewrite H | H : _ = false |- _ => rewrite H end.
  - intros r Hr HX. unfold inter_guest in Hr. in_items Hr; matched HX; [congruence|].
    repeat match goal with H : addresses _ _ _ = _ |- _ => rewrite H in H3; clear H end. done.
  - intros r Hr HX. apply list_elem_of_fmap in Hr as (c & Hr & Hc). injection Hr as ->. matched HX. destruct H2. apply existsb_exists. exists c.
    split; [by apply list_elem_of_In|]. by repeat match goal with H : _ = true |- _ => rewrite H end.
Qed.

(** C22. A signed-in client is online: its IPv4 packets to the uplink are forwarded unless
    its network has no internet access, the destination is blocked, an address is the
    portal's or the connection is invalid. *)
Theorem signed_in_is_forwarded p :
  loaded nets topo t → iif p ∈ guest_interfaces t → guarded p → WANInterface topo ∉ guest_interfaces t → oif p = WANInterface topo →
  ct p ≠ CtStInvalid → ¬ offline p → blocked (daddr p) = false → authorised p = true → verdict t Drop forward p = Accept.
Proof.
  intros HL HI HG HW HO HC HF HB HA. rewrite (verdict_hit t). fold (hits t (forward_items (MACBinding topo) nets topo) p). unfold forward_items.
  rewrite (lenient_hits _ _ p (guards_lenient p HG HW HL HO HA)); [done|]. apply lenient_hits; [|apply lenient_hits; [|apply lenient_hits; [by apply reach_lenient|]]].
  - intros r Hr HX. in_items Hr; [done|]. by matched HX.
  - intros r Hr _. apply in_networks in Hr as (n & Hn & Hr). apply on_only in Hr as [_ Hr]. in_items Hr. done.
  - rewrite hits_app. destruct (hits t [signed_in topo] p) as [v|] eqn:E; [by apply signed_in_hit in E as (-> & _)|]. exfalso. destruct HG as (H6 & _).
    unfold signed_in, authorised in *. destruct (MACBinding topo); pose proof (passed _ _ _ _ _ E ltac:(left) eq_refl) as P; cbn [forallb asks meaning] in P;
      rewrite bool_decide_true, H6, HA in P by done; done.
Qed.

(** ** The appliance itself *)

(** A service the appliance offers a network on the network's own gateway. *)
Definition own_service (n : GuestNetwork) (p : packet) : Prop :=
  (text_has (daddr p) (GatewayIP n) = true ∧
   ((is_udp p = true ∧ dport p ∈ [67; 68; 53]) ∨ (is_tcp p = true ∧ dport p ∈ [53; PortalHTTPPort topo; PortalTLSPort topo]) ∨ echo p = true))
  ∨ (text_has (daddr p) "255.255.255.255" = true ∧ is_udp p = true ∧ dport p ∈ [67; 68]).

Definition own_portal (p : packet) : Prop :=
  at_vip (daddr p) ∧ is_tcp p = true ∧ dport p ∈ [PortalAddressTLSPort; portalHTTPPort topo].

Lemma network_input_ok n p v :
  n ∈ sortEnabled nets → meets t (network_input topo n) v p → v = Accept → from n p ∧ v6 p = false ∧ own_service n p.
Proof.
  intros Hn (r & Hr & HA & HF) ->. unfold network_input in Hr. cbv zeta in Hr. apply elem_of_cons in Hr as [Hr|Hr]; [injection Hr as ->; done|].
  destruct (empty (GatewayIP n)); [by in_items Hr|]. unfold from, own_service. in_items Hr; cbn [matches] in HF.
  - matched HF. split_and!; try done. match goal with H : existsb _ _ = true |- _ => cbn [existsb] in H; rewrite orb_false_r in H; apply orb_true_iff in H as [H|H] end;
      [left|right]; split_and!; try done. left. split; [done|]. set_solver.
  - matched HF. split_and!; try done. left. split; [done|]. left. set_solver.
  - matched HF. split_and!; try done. left. split; [done|]. right. left. set_solver.
  - destruct (0 <? PortalTLSPort topo); matched HF; split_and!; try done; left; split; try done; right; left; set_solver.
  - matched HF. split_and!; try done. left. split; [done|]. right. by right.
Qed.

(** C15. A packet from a client network that the appliance itself takes belongs to a known
    connection, or is IPv4 and asks for DHCP, DNS, the portal or an echo on the network's
    own gateway (DHCP also by broadcast), or for one of the two portal ports of the
    portal address: no management service and no other network's gateway. *)
Theorem guest_input p :
  loaded nets topo t → iif p ∈ guest_interfaces t → MgmtInterface topo ∉ guest_interfaces t → "lo" ∉ guest_interfaces t →
  verdict t Drop input p = Accept →
  known p = true ∨ (v6 p = false ∧ ((∃ n, from n p ∧ own_service n p) ∨ own_portal p)).
Proof.
  intros HL HI HM Hlo HV%accepted_hit. apply hits_Some in HV as (r & Hr & HA & HF). unfold input_items in Hr. rewrite !elem_of_app in Hr.
  destruct Hr as [Hr|[Hr|[Hr|[Hr|[Hr|[Hr|Hr]]]]]].
  - unfold dns_limit in Hr. in_items Hr; try done; matched HF; [congruence|by left].
  - apply in_vip in Hr as (a & _ & Hr). by in_items Hr.
  - apply on_only in Hr as [_ Hr]. by in_items Hr.
  - destruct (negb (empty (MgmtAddr topo))); in_items Hr; matched HF; congruence.
  - apply in_networks in Hr as (n & Hn & Hr). right. destruct (network_input_ok n p Accept Hn) as (? & ? & ?); [by exists r|done|]. split; [done|]. left. by exists n.
  - apply in_vip in Hr as (a & HV & Hr). in_items Hr. matched HF. right. split; [done|]. right. unfold own_portal.
    match goal with H : text_has _ _ = true |- _ => apply text_has_dotted in H as ->; [done|by apply vip_range] end.
  - by in_items Hr.
Qed.

(** The portal address belongs to the client networks: no packet to it is forwarded, and
    a packet that reaches the appliance from any other interface is dropped unless its
    connection is known, before the rules that open management services. *)
Theorem portal_address_is_local p :
  at_vip (daddr p) → v6 p = false →
  verdict t Drop forward p = Drop ∧
  (iif p ∉ guest_interfaces t → iif p ≠ "lo" → known p = false → verdict t Drop input p = Drop).
Proof.
  intros HV H6. pose proof (vip_range _ HV) as HR. split.
  - rewrite (verdict_hit t). fold (hits t (forward_items (MACBinding topo) nets topo) p). unfold forward_items. rewrite hits_app.
    destruct (hits t (guard_rules _ _ _) p) as [v|] eqn:EG.
    + apply hits_Some in EG as (r & Hr & <- & _). unfold guard_rules in Hr. rewrite !elem_of_app in Hr. destruct Hr as [Hr|[Hr|[Hr|Hr]]].
      * by in_items Hr.
      * apply in_vip in Hr as (a & _ & Hr). by in_items Hr.
      * unfold dns_limit in Hr. by in_items Hr.
      * apply in_networks in Hr as (n & _ & Hr). apply on_only in Hr as [_ Hr]. by in_items Hr.
    + exfalso. apply (hits_None t _ _ (mkRule [Daddr (dotted (daddr p))] Drop "portal address is never routed")) in EG.
      * rewrite fires_eq in EG by done. cbn [forallb matches asks meaning] in EG. rewrite H6, andb_true_r in EG. cbn [negb andb] in EG.
        apply not_true_iff_false in EG. apply EG. by apply text_has_dotted.
      * unfold guard_rules. rewrite !elem_of_app. right. left. eapply vip_in; [done|]. by left.
  - intros HI Hlo HK. rewrite (verdict_hit t). fold (hits t (input_items (MACBinding topo) nets topo) p). unfold input_items. rewrite hits_app.
    destruct (hits t [_; _; _; _] p) as [v|] eqn:E4.
    + apply hits_Some in E4 as (r & Hr & <- & HF). unfold dns_limit in Hr. in_items Hr; try done; matched HF; congruence.
    + rewrite hits_app. destruct (hits t (vip_rules _ _) p) as [v|] eqn:EV.
      * apply hits_Some in EV as (r & Hr & <- & _). apply in_vip in Hr as (a & _ & Hr). by in_items Hr.
      * exfalso. apply (hits_None t _ _ (mkRule [IifNotGuest; Daddr (dotted (daddr p))] Drop "portal address: guest networks only")) in EV.
        -- rewrite fires_eq in EV by done. cbn [forallb matches asks meaning] in EV. rewrite (bool_decide_false _ HI), H6, andb_true_r in EV. cbn [negb andb] in EV.
           apply not_true_iff_false in EV. apply EV. by apply text_has_dotted.
        -- eapply vip_in; [done|]. by left.
Qed.

(** ** The captive redirect *)

Lemma hits_of_network (f : GuestNetwork → list item) n l p :
  (∀ m, m ∈ l → iif p = bridge m → m = n) → (∀ m r, Rule r ∈ f m → fires t r p = true → iif p = bridge m) →
  hits t (m ← l; f m) p = hits t (f n) p ∨ (hits t (m ← l; f m) p = None ∧ ∀ m, m ∈ l → iif p ≠ bridge m).
Proof.
  intros HU HF. induction l as [|m l IH]; [right; split; [done|by intros m ?%elem_of_nil]|].
  change (m ← m :: l; f m) with (f m ++ (m ← l; f m))%list. rewrite hits_app. assert (HU' : ∀ m, m ∈ l → iif p = bridge m → m = n) by (intros; apply HU; [by right|done]).
  destruct (decide (iif p = bridge m)) as [HE|HE].
  - rewrite (HU m) by (left || done). left. destruct (hits t (f n) p) eqn:E; [done|]. by destruct (IH HU') as [->|[-> _]].
  - rewrite (hits_none t (f m)). 2:{ intros r Hr. apply not_true_iff_false. intros Hx. by apply HE, (HF m r). }
    destruct (IH HU') as [->|[-> Hn]]; [by left|]. right. split; [done|]. intros m' [->|Hm]%elem_of_cons; [done|by apply Hn].
Qed.

(** Where the packet of a client of network [n] is sent. *)
Definition redirect (n : GuestNetwork) (p : packet) : Verdict :=
  let vip := bool_decide (ParsePortalIP (PortalVIP topo) = Some (daddr p)) in
  let signed := in_auth t (iif p) (saddr p) || authorised p || addresses t "walled_garden_ip" (daddr p) in
  if negb (is_tcp p) then Accept
  else if vip && (dport p =? 443) then Dnat (dotted (daddr p)) PortalAddressTLSPort
  else if vip && (dport p =? 80) then Dnat (dotted (daddr p)) (portalHTTPPort topo)
  else if services t "walled_garden_tcp" (daddr p) (dport p) || negb (CaptiveEnabled n) || signed then Accept
  else if dport p =? 80 then Dnat (GatewayIP n) (PortalHTTPPort topo)
  else if (dport p =? 443) && (0 <? PortalTLSPort topo) then Dnat (GatewayIP n) (PortalTLSPort topo)
  else Accept.

Lemma hits_on ms v n l p :
  forallb (plain_match p) ms = true → hits t (on ms v n :: l) p = if forallb (asks p) ms then Some v else hits t l p.
Proof. intros HM. unfold hits. cbn [rules_of omap list_omap on hit]. rewrite fires_eq by done. done. Qed.

Lemma at_one p x : at_port p [x] = (dport p =? x).
Proof. unfold at_port. destruct (Z.eqb_spec (dport p) x) as [->|HE]; [by apply bool_decide_eq_true; left|]. apply bool_decide_eq_false. by rewrite list_elem_of_singleton. Qed.

Lemma vip_redirect p : iif p ∈ guest_interfaces t → v6 p = false →
  hits t (vip_rules topo (λ vip, [on [IifGuest; Daddr vip; TcpDport 443] (Dnat vip PortalAddressTLSPort) "portal address: TLS portal";
                                  on [IifGuest; Daddr vip; TcpDport 80] (Dnat vip (portalHTTPPort topo)) "portal address: HTTP portal"])) p =
  if is_tcp p && bool_decide (ParsePortalIP (PortalVIP topo) = Some (daddr p)) && (dport p =? 443) then Some (Dnat (dotted (daddr p)) PortalAddressTLSPort)
  else if is_tcp p && bool_decide (ParsePortalIP (PortalVIP topo) = Some (daddr p)) && (dport p =? 80) then Some (Dnat (dotted (daddr p)) (portalHTTPPort topo))
  else None.
Proof.
  intros HI H6. destruct (ParsePortalIP (PortalVIP topo)) as [a|] eqn:EV.
  - pose proof (vip_range a EV) as HR. destruct (vip_text a EV) as [HE HN]. unfold vip_rules. cbv zeta. rewrite HN, HE. cbn [negb only]. rewrite !hits_on by done.
    cbn [forallb asks meaning]. rewrite (bool_decide_true _ HI), H6, !at_one, !andb_true_r. cbn [negb andb].
    assert (HT : text_has (daddr p) (dotted a) = bool_decide (Some a = Some (daddr p))).
    { destruct (text_has (daddr p) (dotted a)) eqn:E; symmetry; [apply bool_decide_eq_true|apply bool_decide_eq_false].
      - apply text_has_dotted in E; [congruence|done].
      - intros [= HE']. apply not_true_iff_false in E. apply E. by apply text_has_dotted. }
    rewrite HT. case_bool_decide as HB; [|by rewrite !andb_false_r]. injection HB as ->. cbn [andb]. by rewrite !andb_true_r.
  - unfold vip_rules, renderPortalVIP. rewrite EV. cbn. by rewrite !andb_false_r.
Qed.

Lemma captive_on n p ports port : v6 p = false → iif p = bridge n → forallb (plain_match p) ports = true →
  ∀ l, hits t (captive (MACBinding topo) n ports port :: l) p =
  if negb (in_auth t (iif p) (saddr p) || authorised p || addresses t "walled_garden_ip" (daddr p)) && forallb (asks p) ports
  then Some (Dnat (GatewayIP n) port) else hits t l p.
Proof.
  intros H6 HI HM l. unfold captive, not_phase3, authorised. rewrite hits_on by (destruct (MACBinding topo); done).
  cbn [app forallb asks meaning]. unfold asks at 1. destruct (MACBinding topo); cbn [meaning]; rewrite (bool_decide_true _ HI), H6; cbn [negb andb];
    rewrite !negb_orb, <- !andb_assoc; done.
Qed.

Lemma network_redirect n p : from n p → (∀ m, from m p → m = n) → v6 p = false →
  hits t (n ← sortEnabled nets;
          only (CaptiveEnabled n) (captive (MACBinding topo) n [TcpDport 80; Space] (PortalHTTPPort topo)
            :: only (0 <? PortalTLSPort topo) [captive (MACBinding topo) n [TcpDport 443] (PortalTLSPort topo)])) p =
  if is_tcp p && CaptiveEnabled n && negb (in_auth t (iif p) (saddr p) || authorised p || addresses t "walled_garden_ip" (daddr p)) then
    if dport p =? 80 then Some (Dnat (GatewayIP n) (PortalHTTPPort topo))
    else if (dport p =? 443) && (0 <? PortalTLSPort topo) then Some (Dnat (GatewayIP n) (PortalTLSPort topo)) else None
  else None.
Proof.
  intros HN HU H6. set (f := λ n, only (CaptiveEnabled n) _). destruct (hits_of_network f n (sortEnabled nets) p) as [HE|[_ HX]].
  - intros m Hm HB. apply HU. by split.
  - intros m r Hr HF. unfold f in Hr. apply on_only in Hr as [_ Hr]. apply elem_of_cons in Hr as [Hr|Hr]; [|apply on_only in Hr as [_ Hr]; apply list_elem_of_singleton in Hr].
    all: injection Hr as ->; apply fires_on in HF; apply Forall_cons in HF as [HF _]; eapply holds_true in HF; [|reflexivity]; by apply bool_decide_eq_true in HF.
  - etransitivity; [exact HE|]. unfold f. destruct HN as [Hn HB]. destruct (CaptiveEnabled n); [|by rewrite andb_false_r].
    set (out := negb (_ || _ || _)). destruct (0 <? PortalTLSPort topo); cbn [only]; rewrite !captive_on by done; fold out; cbn [forallb asks meaning];
      rewrite !at_one, ?andb_true_r, ?andb_false_r; by destruct (is_tcp p), (dport p =? 80), (dport p =? 443), out.
  - destruct HN as [Hn HB]. by destruct (HX n Hn).
Qed.

(** C18. The port rules as a function: the packet of a client goes to the portal address's
    listener if sent to its ports 443 or 80; otherwise, if the client is not signed in,
    the network is captive and the destination is not in the garden, port 80 (and 443
    if there is a TLS portal) is answered by the portal on the network's own gateway;
    everything else is left alone. *)
Theorem captive_redirect n p :
  loaded nets topo t → from n p → (∀ m, from m p → m = n) → v6 p = false → verdict t Accept prerouting p = redirect n p.
Proof.
  intros HL HN HU H6. assert (HI : iif p ∈ guest_interfaces t) by (rewrite (loaded_interfaces _ _ _ HL); apply list_elem_of_fmap; exists n; by destruct HN).
  rewrite (verdict_hit t). fold (hits t (prerouting_items (MACBinding topo) nets topo) p). unfold prerouting_items, redirect.
  rewrite hits_app, vip_redirect by done. cbn [app]. rewrite hits_on by done. cbn [forallb asks meaning]. rewrite (bool_decide_true _ HI), H6. cbn [negb andb].
  rewrite andb_true_r. rewrite (network_redirect n p) by done. destruct (is_tcp p); cbn [negb andb]; [|done].
  destruct (bool_decide _ && (dport p =? 443)); [done|]. destruct (bool_decide _ && (dport p =? 80)); [done|].
  destruct (services t _ _ _); [done|]. cbn [orb]. destruct (CaptiveEnabled n); [|done]. cbn [negb orb andb]. destruct (_ || _); [done|]. cbn [negb andb].
  destruct (dport p =? 80); [done|]. by destruct (_ && _).
Qed.
End guarantees.
