(* ===== verification/NetText.v ===== *)
(** The text of the firewall: the rewriting for the MAC binding touches the conditions it
    means and nothing else, and the fingerprint of a ruleset is read back from it
    (NetNft). *)
From stdpp Require Import pretty.
From S2P Require Import Prelude GoStrings GoText GoNet NetCfg NetNft.

(** ** Replacing *)

Section replace.
Context (old new : string).

(** The two texts differ at a place that both have. *)
Fixpoint mismatch (u o : string) : bool :=
  match u, o with String a u', String b o' => if decide (a = b) then mismatch u' o' else true | _, _ => false end.
(** No place of the text begins the old one, whatever follows. *)
Fixpoint clearb (u : string) : bool := match u with EmptyString => true | String _ u' => mismatch u old && clearb u' end.
Definition clear (u : string) : Prop := clearb u = true.

Lemma mismatch_app u v o : mismatch u o = true → mismatch (u +:+ v) o = true.
Proof.
  revert o. induction u as [|a u IH]; intros [|b o]; try done.
  change (mismatch (String a u +:+ v) (String b o)) with (if decide (a = b) then mismatch (u +:+ v) o else true). cbn. case_decide; [apply IH|done].
Qed.

Lemma mismatch_strip u o : mismatch u o = true → strip_prefix o u = None.
Proof. revert o. induction u as [|a u IH]; intros [|b o]; cbn; try done. case_decide as HE; [rewrite decide_True by done; apply IH|by rewrite decide_False by congruence]. Qed.

Lemma clear_app u v : clear u → clear v → clear (u +:+ v).
Proof.
  unfold clear. induction u as [|a u IH]; [done|]. cbn [clearb]. intros [HM HC]%andb_true_iff Hv.
  change (mismatch (String a u +:+ v) old && clearb (u +:+ v) = true). by rewrite mismatch_app, IH.
Qed.

Lemma strip_length o s r : strip_prefix o s = Some r → (String.length s = String.length o + String.length r)%nat.
Proof. revert s. induction o as [|a o IH]; intros s; cbn; [by intros [= ->]|]. destruct s as [|b s]; [done|]. case_decide; [|done]. cbn. intros HL%IH. lia. Qed.

Lemma replace_enough f g s : old ≠ "" → (String.length s ≤ f)%nat → (String.length s ≤ g)%nat → replace_all f old new s = replace_all g old new s.
Proof.
  intros HO. revert g s. induction f as [|f IH]; intros g s Hf Hg; [destruct s; [by destruct g|cbn in Hf; lia]|]. destruct g as [|g]; [destruct s; [done|cbn in Hg; lia]|].
  destruct s as [|c s]; [done|]. cbn [replace_all]. destruct (strip_prefix old (String c s)) as [r|] eqn:E.
  - apply strip_length in E. destruct old as [|a o]; [done|]. cbn in E, Hf, Hg. f_equal. apply IH; lia.
  - cbn in Hf, Hg. f_equal. apply IH; lia.
Qed.

(** [a] is rewritten to [b], wherever it stands. *)
Definition becomes (a b : string) : Prop := ∀ s, ReplaceAll (a +:+ s) old new = b +:+ ReplaceAll s old new.

Lemma becomes_app a b c d : becomes a b → becomes c d → becomes (a +:+ c) (b +:+ d).
Proof. intros H1 H2 s. by rewrite append_assoc, H1, H2, append_assoc. Qed.

Lemma becomes_clear u : clear u → becomes u u.
Proof.
  unfold clear. induction u as [|a u IH]; [by intros _ s|]. cbn [clearb]. intros [HM HC]%andb_true_iff s.
  change (ReplaceAll (String a (u +:+ s)) old new = String a (u +:+ ReplaceAll s old new)). unfold ReplaceAll at 1. cbn [String.length replace_all].
  rewrite mismatch_strip by (by apply (mismatch_app (String a u) s)). f_equal. apply (IH HC s).
Qed.

Lemma becomes_old : old ≠ "" → becomes old new.
Proof.
  intros HO s. pose proof (strip_prefix_app old s) as HS. unfold ReplaceAll at 1. destruct old as [|a o] eqn:EO; [done|].
  change (replace_all (S (String.length (o +:+ s))) (String a o) new (String a (o +:+ s)) = new +:+ ReplaceAll s (String a o) new). cbn [replace_all].
  change (String a (o +:+ s)) with (String a o +:+ s). rewrite HS. f_equal. rewrite <- EO. apply replace_enough; [by rewrite EO| |done].
  pose proof (strip_length _ _ _ HS) as HL. change (String.length (String a o +:+ s)) with (S (String.length (o +:+ s))) in HL. cbn in HL. lia.
Qed.

Lemma becomes_all a b : becomes a b → ReplaceAll a old new = b.
Proof. intros H. specialize (H ""). unfold ReplaceAll at 2 in H. cbn in H. by rewrite !append_nil_r in H. Qed.

Lemma becomes_concat l k : Forall2 becomes l k → becomes (concat_text l) (concat_text k).
Proof. induction 1; [by intros s|]. by apply becomes_app. Qed.

Lemma clear_concat l : Forall clear l → clear (concat_text l).
Proof. induction 1; [done|]. by apply clear_app. Qed.

Lemma clear_join sep l : clear sep → Forall clear l → clear (JoinStr sep l).
Proof.
  intros HS HL. destruct HL as [|x l Hx HL]; [done|]. apply clear_app; [done|]. induction HL; [done|]. cbn. apply clear_app; [done|]. by apply clear_app.
Qed.

(** Text without the first byte of the old one. *)
Lemma clear_lacks c o s : old = String c o → lacks c s = true → clear s.
Proof.
  intros HO. unfold clear. induction s as [|x s IH]; [done|]. cbn [lacks clearb]. intros [HX%bool_decide_eq_true HL]%andb_true_iff. rewrite IH, andb_true_r by done.
  rewrite HO. cbn. by rewrite decide_False.
Qed.

(** Text that lacks a byte of the old one, and then a byte the old one lacks. *)
Lemma mismatch_stop x c e o : lacks c x = true → lacks c o = false → lacks e o = true → mismatch (x +:+ String e "") o = true.
Proof.
  revert o. induction x as [|a x IH]; intros [|b o]; try done.
  - change ("" +:+ String e "") with (String e ""). cbn. intros _ _ [HE%bool_decide_eq_true _]%andb_true_iff. by rewrite decide_False by congruence.
  - change (mismatch (String a x +:+ String e "") (String b o)) with (if decide (a = b) then mismatch (x +:+ String e "") o else true). cbn [lacks].
    intros [HA%bool_decide_eq_true HX]%andb_true_iff HO [HB HE]%andb_true_iff. destruct (decide (a = b)) as [HD|HD]; [|done]. subst b.
    rewrite bool_decide_true in HO by done. by apply IH.
Qed.

Lemma clear_stop x c e : lacks c x = true → lacks c old = false → lacks e old = true → clear (x +:+ String e "").
Proof.
  intros HX HO HE. unfold clear. induction x as [|a x IH].
  - change (mismatch ("" +:+ String e "") old && true = true). by rewrite (mismatch_stop "" c).
  - change (mismatch (String a x +:+ String e "") old && clearb (x +:+ String e "") = true). rewrite (mismatch_stop _ c) by done. cbn in HX.
    apply andb_true_iff in HX as [_ HX]. by apply IH.
Qed.
End replace.

(** ** The conditions of the MAC binding *)

Definition ip_only : string := "iifname . ip saddr != @phase3_auth_ipv4".
Definition mac_bound : string := "iifname . ip saddr . ether saddr != @phase3_auth_mac_ipv4".
Definition bang : Ascii.ascii := Ascii.ascii_of_nat 33.
Definition letter_i : Ascii.ascii := Ascii.ascii_of_nat 105.

Abbreviation safe := (clear ip_only).
Abbreviation turns := (becomes ip_only mac_bound).

(** What is written between quotes lacks an exclamation mark; addresses lack an i. *)
Record plain_texts (nets : list GuestNetwork) (topo : Topology) : Prop := {
  plain_wan : lacks bang (WANInterface topo) = true;
  plain_mgmt : lacks bang (MgmtInterface topo) = true;
  plain_mgmt_addr : lacks letter_i (MgmtAddr topo) = true;
  plain_mgmt_cidrs : Forall (λ c, lacks letter_i c = true) (MgmtCIDRs topo);
  plain_networks : Forall (λ n, GatewayIP n ≠ "" ∧ lacks letter_i (GatewayIP n) = true ∧ lacks letter_i (SubnetCIDR n) = true) (sortEnabled nets)
}.

Lemma safe_quoted s : lacks bang s = true → safe (quoted s).
Proof. intros HS. unfold quoted. apply clear_app; [done|]. by apply (clear_stop _ _ bang). Qed.

Lemma safe_address s : lacks letter_i s = true → safe s.
Proof. by apply (clear_lacks _ letter_i "ifname . ip saddr != @phase3_auth_ipv4"). Qed.

Lemma pretty_no_i (z : Z) : lacks letter_i (pretty z) = true.
Proof. apply lacks_pretty_Z; [done|]. intros d. unfold pretty_N_char. by repeat case_match. Qed.

Lemma dotted_no_i a : lacks letter_i (dotted a) = true.
Proof. unfold dotted. rewrite !lacks_app, !pretty_no_i. done. Qed.

Lemma map_bytes_lacks f c s : (∀ b, 0 ≤ b < 256 → 0 ≤ f b < 256 ∧ f b ≠ byte_of c) → lacks c (map_bytes f s) = true.
Proof.
  intros HF. induction s as [|x s IH]; [done|]. cbn. rewrite IH, andb_true_r. apply bool_decide_eq_true. intros HE.
  assert (HB : 0 ≤ byte_of x < 256) by (unfold byte_of; pose proof (Ascii.nat_ascii_bounded x); lia). destruct (HF _ HB) as [HR HN]. apply HN. rewrite <- HE. unfold byte_of at 2.
  rewrite Ascii.nat_ascii_embedding by lia. lia.
Qed.

Lemma bridge_plain n : lacks bang (bridge n) = true.
Proof.
  apply map_bytes_lacks. intros b Hb. destruct (iface_byte b) eqn:E; [|done]. split; [done|]. intros ->. by vm_compute in E.
Qed.

Lemma add_new_in s k out : s ∈ foldl add_new out k → s ∈ out ∨ s ∈ k.
Proof.
  revert out. induction k as [|x k IH]; intros out; [by left|]. cbn [foldl]. intros [Hs|Hs]%IH; [|by right; right]. unfold add_new in Hs. case_bool_decide; [by left|].
  apply elem_of_app in Hs as [Hs|Hs]; [by left|]. apply list_elem_of_singleton in Hs as ->. right. left.
Qed.

Section plain.
Context {T : UnicodeTables}.

Lemma name_rune_ascii r : 0 ≤ r < 128 → name_rune r = true → r ≠ 33.
Proof. intros Hr HN ->. unfold name_rune in HN. rewrite letter_ascii, digit_ascii, mark_ascii in HN by lia. by vm_compute in HN. Qed.

Lemma rune_plain r : (0 ≤ r < 128 → r ≠ 33) → Forall (λ b, 0 ≤ b < 256 ∧ b ≠ 33) (rune_bytes r).
Proof.
  intros HR. unfold rune_bytes. cbv zeta. set (r' := if _ || _ || _ then 65533 else r).
  assert (HB : 0 ≤ r' ≤ 1114111 ∧ (r' < 128 → r' = r)).
  { unfold r'. destruct (_ || _ || _) eqn:E; [lia|]. apply orb_false_iff in E as [[?%Z.ltb_ge ?%Z.ltb_ge]%orb_false_iff _]. lia. }
  assert (HM : ∀ x, 128 ≤ 128 + Z.land x 63 < 192) by (intros x; change 63 with (Z.ones 6); rewrite Z.land_ones by lia; pose proof (Z.mod_pos_bound x (2 ^ 6)); lia).
  assert (HD : ∀ k lo hi, 0 ≤ k → lo * 2 ^ k ≤ r' < hi * 2 ^ k → lo ≤ Z.shiftr r' k < hi).
  { intros k lo hi Hk [H1 H2]. rewrite Z.shiftr_div_pow2 by done. assert (0 < 2 ^ k) by (apply Z.pow_pos_nonneg; lia).
    split; [apply Z.div_le_lower_bound; lia|apply Z.div_lt_upper_bound; lia]. }
  destruct (Z.ltb_spec r' 128); [|destruct (Z.ltb_spec r' 2048); [|destruct (Z.ltb_spec r' 65536)]].
  - repeat constructor; [lia..|]. destruct HB as [? HE]. rewrite HE by done. apply HR. lia.
  - pose proof (HD 6 0 32 ltac:(lia) ltac:(lia)). pose proof (HM r'). repeat constructor; lia.
  - pose proof (HD 12 0 16 ltac:(lia) ltac:(lia)). pose proof (HM r'). pose proof (HM (Z.shiftr r' 6)). repeat constructor; lia.
  - pose proof (HD 18 0 5 ltac:(lia) ltac:(lia)). pose proof (HM r'). pose proof (HM (Z.shiftr r' 6)). pose proof (HM (Z.shiftr r' 12)). repeat constructor; lia.
Qed.

Lemma of_bytes_plain l : Forall (λ b, 0 ≤ b < 256 ∧ b ≠ 33) l → lacks bang (of_bytes (Z.to_nat <$> l)) = true.
Proof.
  induction 1 as [|b l [Hb Hn] _ IH]; [done|]. cbn [fmap list_fmap of_bytes lacks]. rewrite IH, andb_true_r. apply bool_decide_eq_true. intros HE.
  apply (f_equal Ascii.nat_of_ascii) in HE. unfold bang in HE. rewrite !Ascii.nat_ascii_embedding in HE by lia. lia.
Qed.

Lemma SafeText_plain s : lacks bang (SafeText s) = true.
Proof.
  unfold SafeText, of_runes. apply of_bytes_plain. rewrite Forall_forall. intros b Hb. apply list_elem_of_join in Hb as (bs & Hb & Hbs).
  apply list_elem_of_fmap in Hbs as (r & -> & Hr). apply list_elem_of_fmap in Hr as (x & -> & _). revert b Hb. apply Forall_forall, rune_plain.
  destruct (name_rune x) eqn:E; [|done]. intros HR. by apply name_rune_ascii.
Qed.

(** ** The body *)

Context (nets : list GuestNetwork) (topo : Topology).

(** An item with the binding off, and the same item with it on. *)
Definition bound_item (i j : item) : Prop := turns (item_text i) (item_text j).

Lemma bound_same i : safe (item_text i) → bound_item i i.
Proof. apply becomes_clear. Qed.

Definition match_ok (m : match_) : Prop :=
  match m with
  | Iif n | Oif n | CounterName n => lacks bang n = true
  | Saddr a | Daddr a => lacks letter_i a = true
  | DaddrIn l => Forall (λ a, lacks letter_i a = true) l
  | DaddrSet s | DaddrNotSet s | DaddrTcp s | DaddrUdp s => safe (s +:+ " ")
  | NotPhase3 => False
  | _ => True
  end.

Lemma safe_pretty (z : Z) : safe (pretty z).
Proof. apply safe_address, pretty_no_i. Qed.

Lemma safe_ports l : safe (ports_text l).
Proof. apply clear_join; [done|]. apply Forall_fmap, Forall_true. intros x. apply safe_pretty. Qed.

Lemma safe_iif n : lacks bang n = true → safe ("iifname " +:+ quoted n +:+ " ").
Proof.
  intros HN. unfold quoted. rewrite !append_assoc, <- (append_assoc "iifname " quote). apply clear_app; [done|]. rewrite <- append_assoc.
  apply clear_app; [by apply (clear_stop _ _ bang)|done].
Qed.

Lemma match_safe m : match_ok m → safe (match_text m +:+ " ").
Proof.
  destruct m as [|n| | | | | | | | | | | | | | | | | | | | | | | | | | | | | | |]; cbn [match_ok match_text]; [|rewrite append_assoc; apply safe_iif|..].
  all: intros HM; try done; rewrite ?append_assoc; (apply clear_app; [done|]); try done; try (apply clear_app; [|done]);
    auto using safe_quoted, safe_address, safe_pretty, safe_ports.
  apply clear_join; [done|]. eapply Forall_impl; [exact HM|]. apply safe_address.
Qed.

Definition item_ok (i : item) : Prop :=
  match i with
  | Rule r => Forall match_ok (matches r) ∧ match action r with Dnat a _ => lacks letter_i a = true | _ => True end ∧ lacks bang (note r) = true
  | Remark _ => False
  end.

Lemma verdict_safe v : match v with Dnat a _ => lacks letter_i a = true | _ => True end → safe (verdict_text v).
Proof.
  destruct v as [| |a port|]; try done. intros HA. cbn [verdict_text]. apply clear_app; [done|]. apply clear_app; [by apply safe_address|]. apply clear_app; [done|apply safe_pretty].
Qed.

Lemma note_safe n : lacks bang n = true → safe ((if empty n then "" else " comment " +:+ quoted n) +:+ newline).
Proof. intros HN. apply clear_app; [|done]. destruct (empty n); [done|]. apply clear_app; [done|]. by apply safe_quoted. Qed.

Lemma item_bound i : item_ok i → bound_item i i.
Proof.
  destruct i as [r|s]; [|done]. intros (HM & HV & HN). apply becomes_clear. unfold item_text, rule_text. rewrite !append_assoc. do 2 (apply clear_app; [done|]).
  apply clear_app; [apply clear_concat, Forall_fmap; eapply Forall_impl; [exact HM|]; apply match_safe|]. apply clear_app; [by apply verdict_safe|by apply note_safe].
Qed.

Lemma items_bound l : Forall item_ok l → Forall2 bound_item l l.
Proof. induction 1; constructor; [by apply item_bound|done]. Qed.

(** A rule that asks whether the client is signed in. *)
Lemma asking_bound a b v n :
  Forall match_ok a → Forall match_ok b → match v with Dnat x _ => lacks letter_i x = true | _ => True end → lacks bang n = true →
  bound_item (on (a ++ not_phase3 false :: b) v n) (on (a ++ not_phase3 true :: b) v n).
Proof.
  intros HA HB HV HN. unfold bound_item, item_text, on, rule_text. cbn [matches action note not_phase3]. rewrite !append_assoc.
  do 2 (apply becomes_app; [by apply becomes_clear|]). apply becomes_app.
  - apply becomes_concat. rewrite !fmap_app, !fmap_cons. apply Forall2_app; [|constructor].
    + rewrite Forall2_fmap. apply Forall_Forall2_diag. eapply Forall_impl; [exact HA|]. intros m Hm. by apply becomes_clear, match_safe.
    + apply becomes_app; [by apply becomes_old|by apply becomes_clear].
    + rewrite Forall2_fmap. apply Forall_Forall2_diag. eapply Forall_impl; [exact HB|]. intros m Hm. by apply becomes_clear, match_safe.
  - apply becomes_clear. apply clear_app; [by apply verdict_safe|by apply note_safe].
Qed.

Lemma items_app (l k l' k' : list item) : Forall2 bound_item l l' → Forall2 bound_item k k' → Forall2 bound_item (l ++ k) (l' ++ k').
Proof. apply Forall2_app. Qed.

Lemma items_networks (P : GuestNetwork → Prop) f g l : Forall P l → (∀ n, P n → Forall2 bound_item (f n) (g n)) → Forall2 bound_item (n ← l; f n) (n ← l; g n).
Proof. intros HP HF. induction HP; [constructor|]. cbn. apply Forall2_app; [by apply HF|done]. Qed.

Lemma only_bound b l l' : Forall2 bound_item l l' → Forall2 bound_item (only b l) (only b l').
Proof. destruct b; [done|constructor]. Qed.

Lemma vip_bound f : (∀ a, Forall item_ok (f (dotted a))) → Forall2 bound_item (vip_rules topo f) (vip_rules topo f).
Proof. intros HF. unfold vip_rules, renderPortalVIP. cbv zeta. destruct (ParsePortalIP _) as [a|]; [|constructor]. apply only_bound. by apply items_bound. Qed.

Lemma ok_rule ms v n :
  Forall match_ok ms → match v with Dnat a _ => lacks letter_i a = true | _ => True end → lacks bang n = true → item_ok (on ms v n).
Proof. intros HM HV HN. exact (conj HM (conj HV HN)). Qed.

Ltac all_ok :=
  repeat match goal with
  | |- Forall _ _ => first [assumption | constructor]
  | |- item_ok (on _ _ _) => apply ok_rule
  | |- match_ok _ => cbn [match_ok]
  end; try done; auto using bridge_plain, dotted_no_i.

Lemma dns_limit_bound w : Forall match_ok w → bound_item (dns_limit false w) (dns_limit true w).
Proof.
  intros HW. unfold dns_limit. change (w ++ [TcpUdp; ThDport 53; NotAuth; ?x; DnsOver; CounterName "dns_preauth_limited"])%list with (w ++ [TcpUdp; ThDport 53; NotAuth] ++ x :: [DnsOver; CounterName "dns_preauth_limited"])%list.
  rewrite !app_assoc. apply asking_bound; [apply Forall_app; split; [done|]|..]; all_ok.
Qed.

Lemma captive_bound n ports port :
  lacks letter_i (GatewayIP n) = true → Forall match_ok ports → bound_item (captive false n ports port) (captive true n ports port).
Proof.
  intros HG HP. unfold captive. apply (asking_bound [Iif (bridge n); NotAuth] (DaddrNotSet "walled_garden_ip" :: ports)); all_ok.
Qed.

Context (HP : plain_texts nets topo).

Lemma input_bound : Forall2 bound_item (input_items false nets topo) (input_items true nets topo).
Proof.
  destruct HP as [HW HM HA HC HN]. unfold input_items. repeat apply items_app.
  - repeat constructor; try (apply item_bound; all_ok). apply dns_limit_bound; all_ok.
  - apply vip_bound. intros a. all_ok.
  - apply only_bound, items_bound. all_ok.
  - apply items_bound. destruct (negb _); all_ok.
  - eapply items_networks; [exact HN|]. intros n (HE & HG & _). apply items_bound. unfold network_input. cbv zeta. rewrite (proj2 (empty_false _) HE).
    destruct (0 <? PortalTLSPort topo); all_ok.
  - apply vip_bound. intros a. all_ok.
  - apply items_bound. all_ok.
Qed.

Lemma disabled_bound : Forall2 bound_item (internetDisabled nets topo) (internetDisabled nets topo).
Proof.
  destruct HP as [HW HM HA HC HN]. eapply items_networks; [exact HN|]. intros n _. apply only_bound, items_bound. all_ok. rewrite lacks_app, SafeText_plain. done.
Qed.

Lemma garden_bound : Forall2 bound_item (gardenAccepts topo) (gardenAccepts topo).
Proof. destruct HP as [HW HM HA HC HN]. apply items_bound. unfold gardenAccepts. all_ok. Qed.

Lemma reach_bound : Forall2 bound_item (reach_rules nets topo) (reach_rules nets topo).
Proof.
  destruct HP as [HW HM HA HC HN]. unfold reach_rules. destruct (Deny _); repeat apply items_app; auto using disabled_bound, garden_bound; apply items_bound; unfold inter_guest; all_ok.
  all: apply Forall_fmap; (eapply Forall_impl; [exact HC|]); intros c Hc; apply ok_rule; all_ok.
Qed.

Lemma forward_bound : Forall2 bound_item (forward_items false nets topo) (forward_items true nets topo).
Proof.
  destruct HP as [HW HM HA HC HN]. unfold forward_items, guard_rules. repeat apply items_app; auto using reach_bound, only_bound, garden_bound.
  - apply items_bound. all_ok.
  - apply vip_bound. intros a. all_ok.
  - constructor; [|constructor]. apply dns_limit_bound. all_ok.
  - eapply items_networks; [exact HN|]. intros n _. apply only_bound, items_bound. all_ok.
  - apply items_bound. all_ok.
  - eapply items_networks; [exact HN|]. intros n _. apply only_bound, items_bound. all_ok. apply Forall_fmap, Forall_true. intros a. apply dotted_no_i.
  - apply items_bound. unfold signed_in. destruct (MACBinding topo); all_ok.
  - apply only_bound, items_bound. all_ok.
Qed.

Lemma prerouting_bound : Forall2 bound_item (prerouting_items false nets topo) (prerouting_items true nets topo).
Proof.
  destruct HP as [HW HM HA HC HN]. unfold prerouting_items. repeat apply items_app.
  - apply vip_bound. intros a. all_ok.
  - apply items_bound. all_ok.
  - eapply items_networks; [exact HN|]. intros n (_ & HG & _). apply only_bound. constructor; [apply captive_bound; all_ok|]. apply only_bound.
    constructor; [apply captive_bound; all_ok|constructor].
Qed.

Lemma postrouting_bound : Forall2 bound_item (postrouting_items nets topo) (postrouting_items nets topo).
Proof.
  destruct HP as [HW HM HA HC HN]. eapply items_networks; [exact HN|]. intros n (_ & _ & HS). apply only_bound, items_bound. all_ok.
Qed.

Lemma safe_decl kind name body : safe (tab +:+ kind +:+ " " +:+ name +:+ " {" +:+ newline) → Forall safe body → safe (decl kind name body).
Proof.
  intros HK HB. unfold decl.
  replace (tab +:+ kind +:+ " " +:+ name +:+ " {" +:+ newline +:+ concat_text ((λ l, tab +:+ tab +:+ l +:+ newline) <$> body) +:+ tab +:+ "}" +:+ newline +:+ newline)
    with ((tab +:+ kind +:+ " " +:+ name +:+ " {" +:+ newline) +:+ concat_text ((λ l, tab +:+ tab +:+ l +:+ newline) <$> body) +:+ tab +:+ "}" +:+ newline +:+ newline)
    by by rewrite !append_assoc.
  apply clear_app; [done|]. apply clear_app; [|done]. apply clear_concat, Forall_fmap. eapply Forall_impl; [exact HB|].
  intros l Hl. do 2 (apply clear_app; [done|]). by apply clear_app.
Qed.

Lemma safe_elements s : safe s → safe (elements_of s).
Proof. intros HS. apply clear_app; [done|]. by apply clear_app. Qed.

Lemma allowed_no_i l : Forall (λ s, lacks letter_i s = true) (NormalizeAllow l).
Proof.
  unfold NormalizeAllow. rewrite sort_Strings_perm. rewrite Forall_forall. intros s Hs. assert (HI : s ∈ omap allowed_net l).
  { apply add_new_in in Hs as [Hs|Hs]; [by apply elem_of_nil in Hs|done]. }
  apply list_elem_of_omap in HI as (raw & _ & HE). unfold allowed_net in HE. destruct (empty _); [done|].
  assert (HX : ∀ a n, lacks letter_i (String4 n a) = true) by (intros; unfold String4; by rewrite !lacks_app, dotted_no_i, pretty_no_i).
  match type of HE with mbind _ ?o = _ => destruct o as [[a n]|]; [|done] end. cbn in HE. destruct (net_ones n =? 0); [done|]. injection HE as <-. apply HX.
Qed.

Lemma sets_safe : safe (sets_text nets topo).
Proof.
  destruct HP as [HW HM HA HC HN]. unfold sets_text. cbv zeta. do 11 (apply clear_app; [vm_compute; reflexivity|]). apply clear_app; [|apply clear_app].
  - apply safe_decl; [done|]. constructor; [done|]. case_bool_decide; [done|]. constructor; [|done]. apply safe_elements, clear_join; [done|].
    apply Forall_fmap, Forall_true. intros n. apply safe_quoted, bridge_plain.
  - apply safe_decl; [done|]. do 2 (constructor; [done|]). unfold if_any. destruct (empty _); [done|]. constructor; [|done]. apply safe_elements, clear_join; [done|].
    apply Forall_fmap. eapply Forall_impl; [exact HN|]. intros n (_ & _ & HS). by apply safe_address.
  - destruct (Deny _); [|done]. apply clear_app; [vm_compute; reflexivity|]. apply clear_app; [|vm_compute; reflexivity]. apply safe_decl; [done|].
    apply Forall_app. split; [repeat constructor|]. case_bool_decide; [done|]. constructor; [|done]. apply safe_elements, clear_join; [done|].
    eapply Forall_impl; [apply allowed_no_i|]. apply safe_address.
Qed.

Lemma chain_bound name kind l k :
  safe (tab +:+ "chain " +:+ name +:+ " {" +:+ newline +:+ tab +:+ tab +:+ kind +:+ newline) → Forall2 bound_item l k → turns (chain_text name kind l) (chain_text name kind k).
Proof.
  intros HK HL. unfold chain_text.
  assert (HE : ∀ x, tab +:+ "chain " +:+ name +:+ " {" +:+ newline +:+ tab +:+ tab +:+ kind +:+ newline +:+ x
                   = (tab +:+ "chain " +:+ name +:+ " {" +:+ newline +:+ tab +:+ tab +:+ kind +:+ newline) +:+ x) by (intros; by rewrite !append_assoc).
  rewrite !HE. apply becomes_app; [by apply becomes_clear|]. apply becomes_app; [|by apply becomes_clear]. apply becomes_concat. by rewrite Forall2_fmap.
Qed.

(** C26. With the MAC binding on, the text that is loaded is that of the same rules with every
    condition "not signed in" asking for the hardware address too: the rewriting of the
    finished text changes no name, address or comment. *)
Theorem mac_binding_text : MACBinding topo = true → renderNftBody nets topo = plain_body true nets topo.
Proof.
  intros HB. unfold renderNftBody. cbv zeta. rewrite HB. apply becomes_all. unfold plain_body.
  assert (HC : ∀ u, clearb ip_only u = true → turns u u) by (intros u; apply becomes_clear).
  do 10 (apply becomes_app; [apply HC; vm_compute; reflexivity|]). apply becomes_app; [apply becomes_clear, sets_safe|].
  apply becomes_app; [apply chain_bound; [done|apply input_bound]|]. apply becomes_app; [apply HC; vm_compute; reflexivity|].
  apply becomes_app; [apply chain_bound; [done|apply forward_bound]|]. apply becomes_app; [apply HC; vm_compute; reflexivity|].
  apply becomes_app; [apply chain_bound; [done|apply prerouting_bound]|]. apply becomes_app; [apply HC; vm_compute; reflexivity|].
  apply becomes_app; [apply chain_bound; [done|apply postrouting_bound]|]. apply HC. vm_compute. reflexivity.
Qed.
End plain.

(** ** The fingerprint *)

Section fingerprint.
Context {T : UnicodeTables} {H256 : Sha256}.

Definition hex_text (s : string) : bool := all_bytes (λ b, in_range 48 57 b || in_range 97 102 b) s.

Lemma hex_char_ok d : 0 ≤ d < 16 → hex_text (String (hex_char d) "") = true.
Proof. intros Hd. assert (HI : d ∈ seqZ 0 16) by (apply elem_of_seqZ; lia). clear Hd. revert d HI. apply Forall_forall, (bool_decide_unpack _). vm_compute. done. Qed.

Lemma hex_app s t : hex_text (s +:+ t) = hex_text s && hex_text t.
Proof. apply all_bytes_app. Qed.

Lemma hex_byte_ok b : 0 ≤ b < 256 → hex_text (hex_byte b) = true ∧ String.length (hex_byte b) = 2%nat.
Proof.
  intros Hb. split; [|done]. change (hex_byte b) with (String (hex_char (Z.shiftr b 4)) "" +:+ String (hex_char (Z.land b 15)) "").
  change 15 with (Z.ones 4). rewrite hex_app, Z.land_ones, Z.shiftr_div_pow2 by lia. rewrite !hex_char_ok; [done|apply Z.mod_pos_bound; lia|].
  split; [apply Z.div_pos; lia|apply Z.div_lt_upper_bound; lia].
Qed.

Lemma fingerprint_ok body : hex_text (fingerprintOf body) = true ∧ String.length (fingerprintOf body) = 32%nat.
Proof.
  unfold fingerprintOf. destruct (sha256_bytes body) as [HL HB]. assert (HT : length (take 16 (sha256 body)) = 16%nat) by (rewrite length_take; lia).
  apply (Forall_take _ 16%nat) in HB. replace 32%nat with (2 * length (take 16 (sha256 body)))%nat by lia. clear HT. induction HB as [|b l Hb HB [IH1 IH2]]; [done|].
  destruct (hex_byte_ok b Hb) as [H1 H2]. change (concat_text (hex_byte <$> b :: l)) with (hex_byte b +:+ concat_text (hex_byte <$> l)).
  rewrite hex_app, length_append, IH1, IH2, H1, H2. cbn. split; [done|lia].
Qed.

Lemma until_any_all cs s : all_bytes (λ b, negb (bool_decide (b ∈ cs))) s = true → until_any cs s = s.
Proof.
  induction s as [|c s IH]; [done|]. cbn. intros [HC HS]%andb_true_iff. apply negb_true_iff in HC. by rewrite HC, IH.
Qed.

Lemma strip_prefix_eq tag s r : strip_prefix tag s = Some r → s = tag +:+ r.
Proof.
  revert s. induction tag as [|c tag IH]; intros s; [by intros [= ->]|]. destruct s as [|x s]; [done|]. cbn [strip_prefix]. destruct (decide (c = x)) as [->|]; [|done].
  intros HE%IH. by rewrite HE.
Qed.

Lemma last_cut_some tag s a b : last_cut tag s = Some (a, b) → s = a +:+ tag +:+ b.
Proof.
  revert a. induction s as [|c s IH]; intros a; [done|]. cbn [last_cut]. destruct (last_cut tag s) as [[a' b']|] eqn:E.
  - intros [= <- <-]. by rewrite (IH a' eq_refl).
  - destruct (strip_prefix tag (String c s)) as [r|] eqn:ES; [|done]. intros [= <- <-]. by apply strip_prefix_eq in ES.
Qed.

Lemma last_cut_is tag s t : tag ≠ "" → is_Some (last_cut tag (s +:+ tag +:+ t)).
Proof.
  intros HT. induction s as [|c s IH].
  - destruct tag as [|c tg]; [done|]. change (is_Some (last_cut (String c tg) (String c (tg +:+ t)))). cbn [last_cut].
    destruct (last_cut (String c tg) (tg +:+ t)) as [[? ?]|]; [by eexists|]. change (String c (tg +:+ t)) with (String c tg +:+ t). rewrite strip_prefix_app. by eexists.
  - change (is_Some (last_cut tag (String c (s +:+ tag +:+ t)))). cbn [last_cut]. destruct IH as [[a b] ->]. by eexists.
Qed.

Definition head : string :=
  "#!/usr/sbin/nft -f" +:+ newline +:+ "# StayConnect generated ruleset — multi guest-network. Do not edit by hand." +:+ newline
  +:+ "table inet stayconnect" +:+ newline +:+ "delete table inet stayconnect" +:+ newline +:+ newline.

Lemma nine_parts a b c d e f g h i r : a +:+ b +:+ c +:+ d +:+ e +:+ f +:+ g +:+ h +:+ i +:+ r = (a +:+ b +:+ c +:+ d +:+ e +:+ f +:+ g +:+ h +:+ i) +:+ r.
Proof. by rewrite !append_assoc. Qed.

Lemma plain_body_opens nets topo : ∃ b, plain_body false nets topo = head +:+ table_open +:+ b.
Proof. eexists. unfold plain_body. rewrite nine_parts. reflexivity. Qed.

Lemma body_opens nets topo : ∃ a b, renderNftBody nets topo = a +:+ table_open +:+ b.
Proof.
  destruct (plain_body_opens nets topo) as [b HB]. unfold renderNftBody. cbv zeta. rewrite HB. destruct (MACBinding topo); [|by exists head, b].
  exists head, (ReplaceAll b ip_only mac_bound). assert (HC : ∀ u s, clearb ip_only u = true → ReplaceAll (u +:+ s) ip_only mac_bound = u +:+ ReplaceAll s ip_only mac_bound)
    by (intros u s HU; by apply (becomes_clear ip_only mac_bound u HU)).
  rewrite <- (HC table_open b) by (vm_compute; reflexivity). apply HC. vm_compute. reflexivity.
Qed.

(** C34. The fingerprint is carried by the ruleset it describes: what is loaded is the body with
    one set more, and from the comment of that set the fingerprint of the body is read
    back. *)
Theorem fingerprint_roundtrip nets topo :
  ∃ a b, renderNftBody nets topo = a +:+ b ∧ RenderNftables nets topo = a +:+ marker_text (RenderFingerprint nets topo) +:+ b ∧
    FingerprintFromSetComment (marker_comment (RenderFingerprint nets topo)) = RenderFingerprint nets topo.
Proof.
  destruct (body_opens nets topo) as (x & y & HB). destruct (last_cut_is table_open x y ltac:(done)) as [[a b] HC]. rewrite <- HB in HC.
  exists (a +:+ table_open), b. split_and!.
  - rewrite append_assoc. by apply last_cut_some.
  - unfold RenderNftables. cbv zeta. rewrite HC. by rewrite append_assoc.
  - unfold FingerprintFromSetComment, marker_comment. destruct (fingerprint_ok (renderNftBody nets topo)) as [HX HL]. fold (RenderFingerprint nets topo) in HX, HL.
    set (fp := RenderFingerprint nets topo) in *. assert (HA : after_tag renderMarkerPrefix (renderMarkerPrefix +:+ fp) = Some fp) by done.
    rewrite HA. cbv zeta. rewrite until_any_all.
    + unfold len. rewrite HL. cbn [Z.of_nat Z.eqb Pos.eqb negb]. unfold hex_text in HX. by rewrite HX.
    + eapply all_bytes_impl; [|exact HX]. intros c Hc. apply negb_true_iff, bool_decide_eq_false. intros Hin. unfold in_range in Hc.
      apply orb_true_iff in Hc as [[?%Z.leb_le ?%Z.leb_le]%andb_true_iff|[?%Z.leb_le ?%Z.leb_le]%andb_true_iff]; rewrite !elem_of_cons, elem_of_nil in Hin; lia.
Qed.
End fingerprint.
