(* ===== verification/NetGarden.v ===== *)
(** The walled garden (data-plane/internal/nft/garden.go): which addresses may be open before
    sign-in, and the script that replaces the three sets. *)
From stdpp Require Import pretty.
From S2P Require Import Prelude GoStrings GoText GoNet NetCfg NetNft NetFirewall.

(** ** Addresses of package net *)

Definition octet1 (a : Z) : Z := Z.shiftr a 24.
Definition IsUnspecified4 (a : Z) : bool := a =? 0.
Definition IsLoopback4 (a : Z) : bool := octet1 a =? 127.
Definition IsMulticast4 (a : Z) : bool := Z.land (octet1 a) 240 =? 224.
Definition IPv4bcast : Z := 4294967295.
Definition block_of (base ones : Z) : IPNet := mkIPNet (v4_block + base) ones 32.
Definition in4 (base ones a : Z) : bool := Contains (block_of base ones) (v4_block + a).
Definition IsPrivate4 (a : Z) : bool := in4 167772160 8 a || in4 2886729728 12 a || in4 3232235520 16 a.
Definition IsLinkLocalUnicast4 (a : Z) : bool := in4 2851995648 16 a.

(** ** The rules *)

Definition GardenFloorPrefix : Z := 8.

Definition gardenAddrUsable (a : Z) : bool := negb (IsUnspecified4 a) && negb (IsLoopback4 a) && negb (IsMulticast4 a) && negb (a =? IPv4bcast).

Definition ValidGardenElem (s : string) : bool :=
  match ParseIP s with
  | Some ip => match To4 ip with Some a => gardenAddrUsable a | None => false end
  | None =>
      match ParseCIDR s with
      | Some (_, n) =>
          match To4 (net_IP n) with
          | Some a => (net_bits n =? 32) && (GardenFloorPrefix <=? net_ones n) && gardenAddrUsable a
          | None => false
          end
      | None => false
      end
  end.

Inductive garden_refusal := NotStart | NotIPv4 | TooWide | NotReachable | NotPublic.

Definition GardenTargetRefusal (value : string) (widest : Z) : option garden_refusal :=
  let judge (ip : option Z) (ones : Z) :=
    match ip with
    | None => Some NotIPv4
    | Some a =>
        if (ones <? widest) || (ones <? GardenFloorPrefix) then Some TooWide
        else if IsUnspecified4 a || IsLoopback4 a || IsMulticast4 a || (a =? IPv4bcast) then Some NotReachable
        else if IsPrivate4 a || IsLinkLocalUnicast4 a || in4 1681915904 10 a || in4 4026531840 4 a || in4 0 8 a then Some NotPublic
        else None
    end in
  match ParseIP value with
  | Some p => judge (To4 p) 32
  | None =>
      match ParseCIDR value with
      | Some (_, n) =>
          match To4 (net_IP n) with
          | Some a =>
              (** the address as it is written, before the slash *)
              let written := '(addr, _) ← cut_at slash value; ip ← ParseIP addr; To4 ip in
              if bool_decide (written = Some a) then judge (Some a) (net_ones n) else Some NotStart
          | None => judge None (net_ones n)
          end
      | None => judge None 32
      end
  end.

Definition GardenPortElem (addr : string) (port : Z) : string :=
  if negb (ValidGardenElem addr) || (port <? 1) || (65535 <? port) then "" else addr +:+ " . " +:+ pretty port.

(** ** The script *)

Record GardenPlan := mkGardenPlan { plan_IP : list string; plan_TCP : list string; plan_UDP : list string }.
Definition GardenV4 : string := "walled_garden_ip".
Definition GardenTCP : string := "walled_garden_tcp".
Definition GardenUDP : string := "walled_garden_udp".

Definition garden_set (have : gset string) (set : string) (elems : list string) : string :=
  if bool_decide (set ∈ have) then
    "flush set inet stayconnect " +:+ set +:+ newline
    +:+ (if bool_decide (elems = []) then "" else "add element inet stayconnect " +:+ set +:+ " { " +:+ JoinStr ", " elems +:+ " }" +:+ newline)
  else "".
Definition gardenScript (plan : GardenPlan) (have : gset string) : string :=
  garden_set have GardenV4 (plan_IP plan) +:+ garden_set have GardenTCP (plan_TCP plan) +:+ garden_set have GardenUDP (plan_UDP plan).

(** ** What an accepted entry opens *)

(** The element is a block of at most [2 ^ k] addresses, aligned to it. *)
Lemma element_block s : ValidGardenElem s = true →
  ∃ a ones, 8 ≤ ones ≤ 32 ∧ 0 ≤ a < 2 ^ 32 ∧ a mod 2 ^ (32 - ones) = 0 ∧ gardenAddrUsable a = true ∧
    (∀ x, 0 ≤ x < 2 ^ 32 → text_has x s = true → a ≤ x < a + 2 ^ (32 - ones)) ∧
    match ParseIP s with Some ip => To4 ip = Some a ∧ ones = 32 | None => ∃ ip n, ParseCIDR s = Some (ip, n) ∧ To4 (net_IP n) = Some a ∧ net_ones n = ones end.
Proof.
  unfold ValidGardenElem, text_has. destruct (ParseIP s) as [ip|] eqn:EP; cbn [mbind option_bind].
  - destruct (To4 ip) as [a|] eqn:E4; [|done]. intros HU. pose proof (To4_range _ _ E4). exists a, 32. split_and!; try done; try lia; try (by rewrite Z.mod_1_r).
  - destruct (ParseCIDR s) as [[ip n]|] eqn:EC; [|done]. destruct (To4 (net_IP n)) as [a|] eqn:E4; [|done]. intros [[Hb%Z.eqb_eq Ho%Z.leb_le]%andb_true_iff HU]%andb_true_iff.
    destruct (ParseCIDR_v4 _ _ _ EC Hb) as [a' HV]. pose proof HV as (_ & HO & HI & Ha & Hm). pose proof E4 as E4'. rewrite HI, To4_v4 in E4' by done. injection E4' as ->.
    unfold GardenFloorPrefix in Ho. exists a, (net_ones n). split_and!; try done; try lia; try (by exists ip, n).
    intros x Hx HT. apply (Contains_v4 _ _ _ HV) in HT as (y & Hy & HR). rewrite To4_v4 in Hy by done. by injection Hy as <-.
Qed.

Lemma same_block a x ones r : 0 ≤ r ≤ ones → ones ≤ 32 → a mod 2 ^ (32 - ones) = 0 → a ≤ x < a + 2 ^ (32 - ones) → x / 2 ^ (32 - r) = a / 2 ^ (32 - r).
Proof.
  intros Hr Ho Hm Hx. assert (HP : 2 ^ (32 - r) = 2 ^ (32 - ones) * 2 ^ (ones - r)) by (rewrite <- Z.pow_add_r by lia; f_equal; lia).
  assert (0 < 2 ^ (32 - ones)) by (apply Z.pow_pos_nonneg; lia). assert (0 < 2 ^ (ones - r)) by (apply Z.pow_pos_nonneg; lia).
  rewrite HP, <- !Z.div_div by lia. f_equal. apply Z.mod_divide in Hm as [c Hc]; [|lia]. subst a. rewrite Z.div_mul by lia.
  symmetry. apply (Z.div_unique _ _ _ (x - c * 2 ^ (32 - ones))); lia.
Qed.

Lemma in4_same base a x ones r : 0 ≤ base < 2 ^ 32 → 0 ≤ a < 2 ^ 32 → 0 ≤ x < 2 ^ 32 → 0 ≤ r ≤ ones → ones ≤ 32 →
  a mod 2 ^ (32 - ones) = 0 → a ≤ x < a + 2 ^ (32 - ones) → in4 base r x = in4 base r a.
Proof.
  intros Hb Ha Hx Hr Ho Hm HR. pose proof (same_block a x ones r Hr Ho Hm HR) as HS. unfold in4, Contains, block_of, mask4. cbn [net_IP net_ones net_bits].
  rewrite !To4_v4 by done. f_equal. assert (HK : 0 < 2 ^ (32 - r)) by (apply Z.pow_pos_nonneg; lia).
  assert (HM : Z.land (CIDRMask r 32) (Z.ones 32) = CIDRMask r 32).
  { change (mask4 (mkIPNet v4_block r 32) = CIDRMask (net_ones (mkIPNet v4_block r 32)) 32). apply (mask4_v4 _ 0). split_and!; cbn; try lia. by rewrite Z.mod_0_l by lia. }
  rewrite HM, !land_mask by lia. rewrite (Z.div_mod x (2 ^ (32 - r))) at 1 by lia. rewrite (Z.div_mod a (2 ^ (32 - r))) at 1 by lia. rewrite HS. lia.
Qed.

Lemma octet1_same a x ones : 8 ≤ ones ≤ 32 → a mod 2 ^ (32 - ones) = 0 → a ≤ x < a + 2 ^ (32 - ones) → octet1 x = octet1 a.
Proof. intros Ho Hm Hx. unfold octet1. rewrite !Z.shiftr_div_pow2 by lia. by apply (same_block a x ones 8); try lia. Qed.

Lemma usable_same a x ones : 8 ≤ ones ≤ 32 → a mod 2 ^ (32 - ones) = 0 → a ≤ x < a + 2 ^ (32 - ones) → gardenAddrUsable a = true →
  IsLoopback4 x = false ∧ IsMulticast4 x = false.
Proof.
  intros Ho Hm HR HU. unfold gardenAddrUsable in HU. rewrite !andb_true_iff, !negb_true_iff in HU. destruct HU as (((_ & HL) & HM) & _).
  unfold IsLoopback4, IsMulticast4 in *. by rewrite (octet1_same a x ones).
Qed.

(** The floor of the garden: whatever a rule says, an element never opens 0.0.0.0, a
    loopback or a multicast address, and never more than a /8. *)
Theorem garden_floor s x :
  ValidGardenElem s = true → text_has x s = true → 0 ≤ x < 2 ^ 32 →
  x ≠ 0 ∧ IsLoopback4 x = false ∧ IsMulticast4 x = false ∧
  ∃ a, 0 ≤ a ≤ x ∧ ∀ y, 0 ≤ y < 2 ^ 32 → text_has y s = true → a ≤ y < a + 2 ^ 24.
Proof.
  intros HV HT Hx. destruct (element_block s HV) as (a & ones & Ho & Ha & Hm & HU & HC & _). pose proof (HC x Hx HT) as HR. pose proof (usable_same a x ones Ho Hm HR HU) as (H1 & H2).
  assert (HP : 2 ^ (32 - ones) ≤ 2 ^ 24) by (apply Z.pow_le_mono_r; lia). split_and!; try done.
  - intros ->. assert (a = 0) as -> by lia. done.
  - exists a. split; [lia|]. intros y Hy HY. specialize (HC y Hy HY). lia.
Qed.

(** What the settings accept as an address or a network is public: with the widest network a
    site may allow (/16), none of its addresses is private, link-local, shared, reserved,
    loopback or multicast. *)
Lemma accepted_is_public s widest x :
  16 ≤ widest → GardenTargetRefusal s widest = None → ValidGardenElem s = true → text_has x s = true → 0 ≤ x < 2 ^ 32 →
  IsPrivate4 x = false ∧ IsLinkLocalUnicast4 x = false ∧ in4 1681915904 10 x = false ∧ in4 4026531840 4 x = false ∧ in4 0 8 x = false ∧
  IsLoopback4 x = false ∧ IsMulticast4 x = false.
Proof.
  intros HW HR HV HT Hx. destruct (element_block s HV) as (a & ones & Ho & Ha & Hm & HU & HC & HS). pose proof (HC x Hx HT) as HB.
  destruct (usable_same a x ones Ho Hm HB HU) as [H1 H2].
  assert (HJ : 16 ≤ ones ∧ IsPrivate4 a || IsLinkLocalUnicast4 a || in4 1681915904 10 a || in4 4026531840 4 a || in4 0 8 a = false).
  { unfold GardenTargetRefusal in HR. cbv zeta in HR. destruct (ParseIP s) as [ip|].
    - destruct HS as [HS ->]. rewrite HS in HR. split; [lia|]. destruct (_ || _); [done|]. destruct (_ || _ || _ || _); [done|]. by destruct (_ || _ || _ || _ || _).
    - destruct HS as (ip & n & EC & H4 & <-). rewrite EC, H4 in HR. destruct (bool_decide _); [|done]. destruct (_ || _) eqn:EW; [done|].
      apply orb_false_iff in EW as [?%Z.ltb_ge _]. split; [lia|]. destruct (_ || _ || _ || _); [done|]. by destruct (_ || _ || _ || _ || _). }
  destruct HJ as [H16 HN]. rewrite !orb_false_iff in HN. destruct HN as ((((HPr & HL) & HS1) & HS2) & HS3). unfold IsPrivate4, IsLinkLocalUnicast4 in *.
  rewrite !(in4_same _ a x ones) by (done || lia). by split_and!.
Qed.
