(* ===== verification/NetGardenPlan.v ===== *)
(** What the walled garden opens: the check of a rule where it is written
    (data-plane/cmd/edged/resources_site.go) and the plan made of the rules and the sign-in
    hosts (data-plane/cmd/scd/edge.go, planGarden).

    The answers of the resolver are the argument [resolve]. *)
From stdpp Require Import pretty.
From S2P Require Import Prelude GoStrings GoText GoAny GoNet NetCfg NetNft NetFirewall NetGarden.

(** ** Accepting a rule (edged) *)

Record wgInput := mkInput { in_Kind : string; in_Value : string; in_Ports : list Z }.

Definition validWGRule (kind value : string) : bool :=
  if bool_decide (kind = "ip") then match ParseIP value with Some ip => bool_decide (is_Some (To4 ip)) | None => false end
  else if bool_decide (kind = "cidr") then match ParseCIDR value with Some (_, n) => bool_decide (is_Some (To4 (net_IP n))) | None => false end
  else if bool_decide (kind = "domain") then
    let v := TrimSpace value in negb (empty v) && negb (contains_any [32; 47; 58] v) && contains_any [46] v
  else false.

Inductive rule_refusal := BadShape | BadPort | BadTarget (why : garden_refusal).

Definition wgWidestMin : Z := 16.

(** The rule as it is kept, and the refusal. *)
Definition check (i : wgInput) (widest : Z) : wgInput * option rule_refusal :=
  let i := mkInput (TrimSpace (in_Kind i)) (TrimSpace (in_Value i)) (in_Ports i) in
  (i, if negb (validWGRule (in_Kind i) (in_Value i)) then Some BadShape
      else if existsb (λ p, (p <? 1) || (65535 <? p)) (in_Ports i) then Some BadPort
      else if bool_decide (in_Kind i = "ip") || bool_decide (in_Kind i = "cidr") then BadTarget <$> GardenTargetRefusal (in_Value i) widest
      else None).

(** ** The plan (scd) *)

Definition gardenBaselineDNS : list string := ["1.1.1.1"; "8.8.8.8"; "8.8.4.4"].

Record gardenRule := mkGardenRule { gr_Kind : string; gr_Value : string; gr_Ports : list Z }.
Record gardenSources := mkSources { src_Rules : list gardenRule; src_Payment : list string; src_Social : list string }.

(** The three maps while the plan is made. *)
Record opening := mkOpening { op_ip : gset string; op_tcp : gset string; op_udp : gset string }.
Definition pair_in (set : gset string) (addr : string) (port : Z) : gset string :=
  let e := GardenPortElem addr port in if empty e then set else {[e]} ∪ set.
Definition pair_tcp (addr : string) (port : Z) (g : opening) : opening := mkOpening (op_ip g) (pair_in (op_tcp g) addr port) (op_udp g).
Definition pair_udp (addr : string) (port : Z) (g : opening) : opening := mkOpening (op_ip g) (op_tcp g) (pair_in (op_udp g) addr port).
Definition add_ip (addr : string) (g : opening) : opening := mkOpening ({[addr]} ∪ op_ip g) (op_tcp g) (op_udp g).

Definition addrsOf (resolve : string → list string) (r : gardenRule) : list string :=
  if bool_decide (gr_Kind r = "ip") || bool_decide (gr_Kind r = "cidr") then if ValidGardenElem (gr_Value r) then [gr_Value r] else []
  else if bool_decide (gr_Kind r = "domain") then resolve (gr_Value r)
  else [].

Definition open_addr (ports : list Z) (g : opening) (a : string) : opening :=
  match ports with
  | [] => if ValidGardenElem a then add_ip a g else g
  | _ => foldl (λ g p, pair_udp a p (pair_tcp a p g)) g ports
  end.
Definition open_rule (resolve : string → list string) (g : opening) (r : gardenRule) : opening :=
  foldl (open_addr (gr_Ports r)) g (addrsOf resolve r).
Definition open_host (resolve : string → list string) (g : opening) (d : string) : opening :=
  foldl (λ g a, pair_tcp a 443 g) g (resolve d).

Definition planGarden (src : gardenSources) (resolve : string → list string) : GardenPlan :=
  let g := foldl (λ g b, pair_udp b 53 (pair_tcp b 53 g)) (mkOpening ∅ ∅ ∅) gardenBaselineDNS in
  let g := foldl (open_rule resolve) g (src_Rules src) in
  let g := foldl (open_host resolve) g (src_Payment src ++ src_Social src)%list in
  mkGardenPlan (sort_Strings (elements (op_ip g))) (sort_Strings (elements (op_tcp g))) (sort_Strings (elements (op_udp g))).

(** ** What a plan opens *)

Inductive service := EveryPort | OnTCP (port : Z) | OnUDP (port : Z).

(** The sources ask that this address be open for this service. *)
Inductive asked (src : gardenSources) (resolve : string → list string) : service → string → Prop :=
| asked_resolver a s : a ∈ gardenBaselineDNS → s ∈ [OnTCP 53; OnUDP 53] → asked src resolve s a
| asked_whole r a : r ∈ src_Rules src → a ∈ addrsOf resolve r → gr_Ports r = [] → asked src resolve EveryPort a
| asked_ports r a p s : r ∈ src_Rules src → a ∈ addrsOf resolve r → p ∈ gr_Ports r → s ∈ [OnTCP p; OnUDP p] → asked src resolve s a
| asked_host d a : d ∈ (src_Payment src ++ src_Social src)%list → a ∈ resolve d → asked src resolve (OnTCP 443) a.

(** An element of a plan: the set it goes to, and its text. *)
Definition element_of (s : service) (a : string) : string :=
  match s with EveryPort => a | OnTCP p | OnUDP p => a +:+ " . " +:+ pretty p end.
Definition set_of (s : service) (plan : GardenPlan) : list string :=
  match s with EveryPort => plan_IP plan | OnTCP _ => plan_TCP plan | OnUDP _ => plan_UDP plan end.
Definition port_ok (s : service) : Prop := match s with EveryPort => True | OnTCP p | OnUDP p => 1 ≤ p ≤ 65535 end.

(** No address of the text is private, link-local, shared, reserved, loopback or multicast. *)
Definition public (s : string) : Prop :=
  ∀ x, 0 ≤ x < 2 ^ 32 → text_has x s = true →
    IsPrivate4 x = false ∧ IsLinkLocalUnicast4 x = false ∧ in4 1681915904 10 x = false ∧ in4 4026531840 4 x = false ∧ in4 0 8 x = false ∧
    IsLoopback4 x = false ∧ IsMulticast4 x = false.

(** A rule that was accepted where rules are written, under a limit the site may set. *)
Definition accepted (r : gardenRule) : Prop :=
  ∃ i widest, wgWidestMin ≤ widest ∧ check i widest = (mkInput (gr_Kind r) (gr_Value r) (gr_Ports r), None).

Section plan.
Context (resolve : string → list string) (src : gardenSources).

(** The three maps, and what a step adds to one of them. *)
Definition part (s : service) (g : opening) : gset string := match s with EveryPort => op_ip g | OnTCP _ => op_tcp g | OnUDP _ => op_udp g end.

Lemma fold_adds {A} (k : service) (e : string) (f : opening → A → opening) (P : A → Prop) l g :
  (∀ g a, e ∈ part k (f g a) ↔ e ∈ part k g ∨ P a) → e ∈ part k (foldl f g l) ↔ e ∈ part k g ∨ ∃ a, a ∈ l ∧ P a.
Proof.
  intros HF. revert g. induction l as [|a l IH]; intros g; cbn; [set_solver|]. rewrite IH, HF. set_solver.
Qed.

(** The pair of an address and a port, when both are usable. *)
Definition is_pair (e a : string) (p : Z) : Prop := e = a +:+ " . " +:+ pretty p ∧ ValidGardenElem a = true ∧ 1 ≤ p ≤ 65535.

Lemma in_pair X a p e : e ∈ pair_in X a p ↔ e ∈ X ∨ is_pair e a p.
Proof.
  unfold pair_in, GardenPortElem, is_pair. destruct (ValidGardenElem a) eqn:EV; cbn [negb orb]; [|set_solver].
  destruct (Z.ltb_spec p 1), (Z.ltb_spec 65535 p); cbn [orb]; try (split; [by left|intros [?|(_ & _ & ?)]; [done|lia]]).
  destruct (empty (a +:+ " . " +:+ pretty p)) eqn:E; [|rewrite elem_of_union, elem_of_singleton; intuition lia].
  apply bool_decide_eq_true in E. exfalso. destruct a; discriminate E.
Qed.

(** What one address of a rule adds. *)
Definition adds (k : service) (ports : list Z) (e a : string) : Prop :=
  match k with
  | EveryPort => ports = [] ∧ e = a ∧ ValidGardenElem a = true
  | _ => ∃ p, p ∈ ports ∧ is_pair e a p
  end.

Lemma open_addr_adds k ports e g a : e ∈ part k (open_addr ports g a) ↔ e ∈ part k g ∨ adds k ports e a.
Proof.
  unfold open_addr. destruct ports as [|p0 ports].
  - assert (HN : ¬ ∃ p, p ∈ [] ∧ is_pair e a p) by (intros (p & ?%elem_of_nil & _); done).
    destruct k; cbn [adds].
    + destruct (ValidGardenElem a); [cbn; rewrite elem_of_union, elem_of_singleton; tauto|]. split; [by left|]. by intros [?|(_ & _ & ?)].
    + transitivity (e ∈ op_tcp g); [by destruct (ValidGardenElem a)|]. cbn. tauto.
    + transitivity (e ∈ op_udp g); [by destruct (ValidGardenElem a)|]. cbn. tauto.
  - rewrite (fold_adds k e _ (λ p, match k with EveryPort => False | _ => is_pair e a p end)).
    + destruct k; cbn; naive_solver.
    + intros g' p. destruct k; cbn; rewrite ?in_pair; naive_solver.
Qed.

Lemma open_rule_adds k e g r : e ∈ part k (open_rule resolve g r) ↔ e ∈ part k g ∨ ∃ a, a ∈ addrsOf resolve r ∧ adds k (gr_Ports r) e a.
Proof. apply fold_adds. intros. apply open_addr_adds. Qed.

Lemma open_host_adds k e g d :
  e ∈ part k (open_host resolve g d) ↔ e ∈ part k g ∨ ∃ a, a ∈ resolve d ∧ match k with OnTCP _ => is_pair e a 443 | _ => False end.
Proof. apply fold_adds. intros g' a. destruct k; cbn; rewrite ?in_pair; naive_solver. Qed.

Lemma in_set k e : e ∈ set_of k (planGarden src resolve) ↔
  (∃ a, a ∈ gardenBaselineDNS ∧ match k with EveryPort => False | _ => is_pair e a 53 end) ∨
  (∃ r, r ∈ src_Rules src ∧ ∃ a, a ∈ addrsOf resolve r ∧ adds k (gr_Ports r) e a) ∨
  (∃ d, d ∈ (src_Payment src ++ src_Social src)%list ∧ ∃ a, a ∈ resolve d ∧ match k with OnTCP _ => is_pair e a 443 | _ => False end).
Proof.
  unfold planGarden. set (g0 := foldl _ _ gardenBaselineDNS). set (g1 := foldl _ g0 _). set (g2 := foldl _ g1 _).
  transitivity (e ∈ part k g2); [destruct k; cbn [set_of plan_IP plan_TCP plan_UDP part]; by rewrite sort_Strings_perm, elem_of_elements|].
  unfold g2. rewrite (fold_adds k e _ _ _ _ (λ g d, open_host_adds k e g d)). unfold g1. rewrite (fold_adds k e _ _ _ _ (λ g r, open_rule_adds k e g r)).
  unfold g0. rewrite (fold_adds k e _ (λ a, match k with EveryPort => False | _ => is_pair e a 53 end)).
  - destruct k; cbn; set_solver.
  - intros g b. destruct k; cbn; rewrite ?in_pair; naive_solver.
Qed.

Lemma rule_shape k r a e : r ∈ src_Rules src → a ∈ addrsOf resolve r → adds k (gr_Ports r) e a →
  ∃ s, set_of s = set_of k ∧ e = element_of s a ∧ ValidGardenElem a = true ∧ port_ok s ∧ asked src resolve s a.
Proof.
  intros Hr Ha HA. destruct k; cbn in HA.
  - destruct HA as (HP & -> & HV). exists EveryPort. split_and!; try done. by apply (asked_whole _ _ r).
  - destruct HA as (p & Hp & -> & HV & HR). exists (OnTCP p). split_and!; try done. apply (asked_ports _ _ r a p); [done..|left].
  - destruct HA as (p & Hp & -> & HV & HR). exists (OnUDP p). split_and!; try done. apply (asked_ports _ _ r a p); [done..|right; left].
Qed.

Lemma plan_sound k e : e ∈ set_of k (planGarden src resolve) →
  ∃ s a, set_of s = set_of k ∧ e = element_of s a ∧ ValidGardenElem a = true ∧ port_ok s ∧ asked src resolve s a.
Proof.
  rewrite in_set. intros [(a & Ha & HP)|[(r & Hr & a & Ha & HA)|(d & Hd & a & Ha & HP)]].
  - destruct k; [done|..]; destruct HP as (-> & HV & HR); [exists (OnTCP 53), a|exists (OnUDP 53), a]; split_and!; try done; apply asked_resolver; set_solver.
  - destruct (rule_shape k r a e Hr Ha HA) as (s & HS). by exists s, a.
  - destruct k; try done. destruct HP as (-> & HV & HR). exists (OnTCP 443), a. split_and!; try done. by apply (asked_host _ _ d).
Qed.

Lemma plan_complete s a : asked src resolve s a → ValidGardenElem a = true → port_ok s → element_of s a ∈ set_of s (planGarden src resolve).
Proof.
  intros HA HV HP. rewrite in_set. destruct HA as [a s Ha Hs|r a Hr Ha HE|r a p s Hr Ha Hp Hs|d a Hd Ha].
  - left. exists a. set_unfold in Hs. destruct Hs as [->|[->|[]]]; by split_and!.
  - right. left. exists r. split; [done|]. by exists a.
  - right. left. exists r. split; [done|]. exists a. split; [done|]. set_unfold in Hs. destruct Hs as [->|[->|[]]]; by exists p.
  - right. right. exists d. split; [done|]. exists a. by split_and!.
Qed.
End plan.

(** An accepted rule for an address or a network names a public one. *)
Lemma accepted_public resolve r a : accepted r → gr_Kind r ≠ "domain" → a ∈ addrsOf resolve r → a = gr_Value r ∧ public a.
Proof.
  intros (i & widest & HW & HC) HD Ha. unfold addrsOf in Ha. rewrite (bool_decide_false _ HD) in Ha. destruct (_ || _) eqn:EK; [|set_solver].
  destruct (ValidGardenElem (gr_Value r)) eqn:EV; [|set_solver]. apply list_elem_of_singleton in Ha as ->. split; [done|].
  unfold check in HC. cbv zeta in HC. injection HC as HK HV HP HN. cbn [in_Kind in_Value in_Ports] in HN. rewrite HK, HV, HP in HN.
  destruct (negb _); [done|]. destruct (existsb _ _); [done|]. rewrite EK in HN. destruct (GardenTargetRefusal _ _) eqn:ER; [done|].
  intros x Hx HT. by apply (accepted_is_public (gr_Value r) widest).
Qed.

(** C32. What the garden opens before sign-in.  An element is in one of the three sets exactly
    when a source asks for it (a baseline resolver on port 53; a rule, on its ports or on
    all when it names none; a payment or sign-in host on TCP 443), its address passes the
    floor and its port is one.  And when every rule was accepted where rules are written,
    under any limit a site may set, no address that an ip or cidr rule opens is private,
    link-local, shared, reserved, loopback or multicast.  (Addresses that come from
    resolving a name, of a domain rule or of a host, are held to the floor only.) *)
Theorem garden_targets_are_public src resolve :
  Forall accepted (src_Rules src) →
  (∀ k e, e ∈ set_of k (planGarden src resolve) →
     ∃ s a, set_of s = set_of k ∧ e = element_of s a ∧ ValidGardenElem a = true ∧ port_ok s ∧ asked src resolve s a) ∧
  (∀ s a, asked src resolve s a → ValidGardenElem a = true → port_ok s → element_of s a ∈ set_of s (planGarden src resolve)) ∧
  (∀ s a, asked src resolve s a →
     a ∈ gardenBaselineDNS ∨
     (∃ r, r ∈ src_Rules src ∧ gr_Kind r ≠ "domain" ∧ a = gr_Value r ∧ public a) ∨
     (∃ r, r ∈ src_Rules src ∧ gr_Kind r = "domain" ∧ a ∈ resolve (gr_Value r)) ∨
     (∃ d, d ∈ (src_Payment src ++ src_Social src)%list ∧ a ∈ resolve d)).
Proof.
  intros HA. rewrite Forall_forall in HA.
  assert (HR : ∀ r a, r ∈ src_Rules src → a ∈ addrsOf resolve r →
    (∃ r, r ∈ src_Rules src ∧ gr_Kind r ≠ "domain" ∧ a = gr_Value r ∧ public a) ∨
    (∃ r, r ∈ src_Rules src ∧ gr_Kind r = "domain" ∧ a ∈ resolve (gr_Value r))).
  { intros r a Hr Ha. destruct (decide (gr_Kind r = "domain")) as [HD|HD]; [right|left; destruct (accepted_public resolve r a (HA r Hr) HD Ha); by exists r].
    exists r. split_and!; try done. unfold addrsOf in Ha. by rewrite HD in Ha. }
  split_and!.
  - intros k e. apply plan_sound.
  - intros s a. apply plan_complete.
  - intros s a [b t Hb _|r b Hr Hb _|r b p t Hr Hb _ _|d b Hd Hb]; [by left|right..].
    + destruct (HR r b Hr Hb); auto.
    + destruct (HR r b Hr Hb); auto.
    + right. right. by exists d.
Qed.
