(* ===== verification/NetConverge.v ===== *)
(** Making the live ruleset match the render (data-plane/internal/nftconverge/converge.go), with
    the parser of set listings (data-plane/internal/nft/parse.go).

    The commands of nft are the record [Readings]: what a listing gave, after the JSON was
    decoded, or [None] when it failed or could not be decoded.  nft writes whole numbers. *)
From stdpp Require Import pretty.
From S2P Require Import Prelude GoStrings GoText GoNet NetCfg NetNft NetFirewall NetGarden NetText.

(** ** Set listings (parse.go) *)

Record Element := mkElement { el_Iface : string; el_IP : option Z; el_MAC : string; el_Port : Z; el_Timeout : Z; el_Expires : Z }.
Definition no_element : Element := mkElement "" None "" 0 0 0.
Definition Second : Z := 1000000000.

(** [HardwareAddr.String] of a six-byte address: its digits in pairs, lower case. *)
Definition is_mac6 (s : string) : bool :=
  ParseMAC_ok s && (Z.of_nat (length (filter (λ b, hex_val b ≠ None) (bytes_of s))) =? 12).
Fixpoint pairs_text (l : list Z) : list string :=
  match l with
  | a :: b :: l' => of_bytes [Z.to_nat a; Z.to_nat b] :: pairs_text l'
  | _ => []
  end.
Definition mac_text (s : string) : string := JoinStr ":" (pairs_text (lower_byte <$> filter (λ b, hex_val b ≠ None) (bytes_of s))).

(** One part of a concatenation. *)
Definition add_part (el : Element) (p : json) : Element :=
  match p with
  | JNum n =>
      if (0 <? n) && (n <=? 65535) then mkElement (el_Iface el) (el_IP el) (el_MAC el) n (el_Timeout el) (el_Expires el) else el
  | JStr s =>
      match ParseIP s with
      | Some ip => mkElement (el_Iface el) (Some ip) (el_MAC el) (el_Port el) (el_Timeout el) (el_Expires el)
      | None =>
          if is_mac6 s then mkElement (el_Iface el) (el_IP el) (mac_text s) (el_Port el) (el_Timeout el) (el_Expires el)
          else if negb (empty s) then mkElement s (el_IP el) (el_MAC el) (el_Port el) (el_Timeout el) (el_Expires el)
          else el
      end
  | _ => el
  end.

Definition parse_elem (e : json) : option Element :=
  match e with
  | JStr v => (λ ip, mkElement "" (Some ip) "" 0 0 0) <$> ParseIP v
  | JObj v =>
      let inner := match jget "elem" v with Some (JObj i) => i | _ => v end in
      let value := match jget "val" inner with Some x => x | None => JObj inner end in
      let el := match value with
                | JStr s => mkElement "" (ParseIP s) "" 0 0 0
                | JObj o => match jget "concat" o with Some (JArr parts) => foldl add_part no_element parts | _ => no_element end
                | _ => no_element
                end in
      let secs k := match jget k inner with Some (JNum n) => n * Second | _ => 0 end in
      let el := mkElement (el_Iface el) (el_IP el) (el_MAC el) (el_Port el) (secs "timeout") (secs "expires") in
      match el_IP el with Some _ => Some el | None => None end
  | _ => None
  end.

(** parseJSON, from the objects the text decodes to. *)
Definition parse_set (objs : list obj) : list Element :=
  o ← objs;
  match jget "set" o with
  | Some (JObj s) => match jget "elem" s with Some (JArr elems) => omap parse_elem elems | _ => [] end
  | _ => []
  end.

(** ** Carrying elements over *)

(** The formats of package fmt that are not written out: [%q], and an IPv6 address. *)
Class GoFormat : Type := {
  Quote : string → string;
  v6_text : Z → string
}.

Section carry.
Context {F : GoFormat}.

Definition ip_text (ip : Z) : string := match To4 ip with Some a => dotted a | None => v6_text ip end.

Definition element_key (e : Element) (ip : Z) : string :=
  if negb (empty (el_Iface e)) && negb (empty (el_MAC e)) then Quote (el_Iface e) +:+ " . " +:+ ip_text ip +:+ " . " +:+ el_MAC e
  else if negb (empty (el_Iface e)) then Quote (el_Iface e) +:+ " . " +:+ ip_text ip
  else if 0 <? el_Port e then ip_text ip +:+ " . " +:+ pretty (el_Port e)
  else ip_text ip.

(** What is left of an element: nothing, for ever, or a number of seconds. *)
Inductive lease := Lapsed | Permanent | Remaining (secs : Z).
Definition lease_of (e : Element) : lease :=
  if 0 <? el_Expires e then let secs := el_Expires e ÷ Second in if secs <? 1 then Lapsed else Remaining secs
  else if 0 <? el_Timeout e then Lapsed else Permanent.

Definition add_command (set key : string) (l : lease) : option string :=
  match l with
  | Lapsed => None
  | Permanent => Some ("add element inet stayconnect " +:+ set +:+ " { " +:+ key +:+ " }")
  | Remaining secs => Some ("add element inet stayconnect " +:+ set +:+ " { " +:+ key +:+ " timeout " +:+ pretty secs +:+ "s }")
  end.

Definition carry_command (set : string) (e : Element) : option string :=
  ip ← el_IP e;
  if ip =? v4_block then None else add_command set (element_key e ip) (lease_of e).
Definition CarryOverCommands (set : string) (els : list Element) : list string := omap (carry_command set) els.

Definition rendered (set : string) (e : Element) : bool :=
  (bool_decide (set = GardenTCP) || bool_decide (set = GardenUDP))
  && (el_Port e =? BaselineResolverPort)
  && match el_IP e with Some ip => bool_decide (ip_text ip ∈ BaselineResolvers) | None => false end.
Definition withoutRendered (set : string) (els : list Element) : list Element := filter (λ e, rendered set e = false) els.
End carry.

(** ** The reconciliation *)

Definition AuthSets : list string := ["auth_ipv4"; "phase3_auth_ipv4"; "phase3_auth_mac_ipv4"; GardenV4; GardenTCP; GardenUDP].
Definition tableName : string := "stayconnect".

Record Readings := mkReadings {
  list_tables : option (list (string * string));
  list_table : option (list (string * string));
  list_set : string → option (list obj)
}.

Record LiveState := mkLiveState { TableExists : bool; Fingerprint : string; live_Sets : gset string }.

Definition ReadLive (r : Readings) : option LiveState :=
  ts ← list_tables r;
  if existsb (λ x, bool_decide (x.2 = tableName) && (empty x.1 || bool_decide (x.1 = "inet"))) ts then
    sets ← list_table r;
    Some (mkLiveState true
            (foldl (λ fp x, if bool_decide (x.1 = RenderMarkerSet) then FingerprintFromSetComment x.2 else fp) "" sets)
            (list_to_set sets.*1))
  else Some (mkLiveState false "" ∅).

Definition LiveFingerprint (r : Readings) : string * bool := match ReadLive r with Some st => (Fingerprint st, TableExists st) | None => ("", false) end.

Definition readSet (r : Readings) (set : string) : option (list Element) := parse_set <$> list_set r set.

Inductive converge_error := LiveStateUntrusted | DirectoryFailed | FileFailed | NftFailed | FingerprintDiffers.
Record Outcome := mkOutcome { Changed : bool; DesiredFP : string; LiveFP : string; Carried : Z; TableWas : bool }.

Section ensure.
Context {F : GoFormat} {T : UnicodeTables} {H256 : Sha256}.

(** The commands for the sets the table lists, or [None] when one cannot be read. *)
Fixpoint carry_sets (r : Readings) (live : LiveState) (sets : list string) : option (list string) :=
  match sets with
  | [] => Some []
  | s :: sets' =>
      if bool_decide (s ∈ live_Sets live) then
        els ← readSet r s;
        rest ← carry_sets r live sets';
        Some (CarryOverCommands s (withoutRendered s els) ++ rest)%list
      else carry_sets r live sets'
  end.

Definition converge_script (nets : list GuestNetwork) (topo : Topology) (carried : list string) : string :=
  RenderNftables nets topo
  +:+ (if bool_decide (carried = []) then ""
       else newline +:+ "# authorization carried across the structural replace, in the SAME nft transaction" +:+ newline +:+ JoinStr newline carried +:+ newline).

(** The outcome, the error and the scripts that nft was given; [dir], [file] and [nft] say
    whether making the directory, writing the file and loading it work. *)
Definition Ensure (nets : list GuestNetwork) (topo : Topology) (r : Readings) (dir file nft : bool) (after : Readings) :
    Outcome * option converge_error * list string :=
  let want := RenderFingerprint nets topo in
  match ReadLive r with
  | None => (mkOutcome false want "" 0 false, Some LiveStateUntrusted, [])
  | Some live =>
      let out changed n := mkOutcome changed want (Fingerprint live) n (TableExists live) in
      if TableExists live && bool_decide (Fingerprint live = want) then (out false 0, None, [])
      else
        match (if TableExists live then carry_sets r live AuthSets else Some []) with
        | None => (out false 0, Some LiveStateUntrusted, [])
        | Some carried =>
            let n := Z.of_nat (length carried) in
            let script := converge_script nets topo carried in
            if negb dir then (out false n, Some DirectoryFailed, [])
            else if negb file then (out false n, Some FileFailed, [])
            else if negb nft then (out false n, Some NftFailed, [script])
            else
              let '(got, ok) := LiveFingerprint after in
              (out true n, if negb ok || negb (bool_decide (got = want)) then Some FingerprintDiffers else None, [script])
        end
  end.
End ensure.

(** ** What a reconciliation does *)

Section proofs.
Context {F : GoFormat} {T : UnicodeTables} {H256 : Sha256}.

(** The command carries an element of a set the live table lists. *)
Definition carries (r : Readings) (live : LiveState) (sets : list string) (c : string) : Prop :=
  ∃ set objs e ip, set ∈ sets ∧ set ∈ live_Sets live ∧ list_set r set = Some objs ∧ e ∈ parse_set objs ∧ rendered set e = false ∧
    el_IP e = Some ip ∧ ip ≠ v4_block ∧ add_command set (element_key e ip) (lease_of e) = Some c.

Lemma carry_commands set els c :
  c ∈ CarryOverCommands set (withoutRendered set els) ↔
  ∃ e ip, e ∈ els ∧ rendered set e = false ∧ el_IP e = Some ip ∧ ip ≠ v4_block ∧ add_command set (element_key e ip) (lease_of e) = Some c.
Proof.
  unfold CarryOverCommands, withoutRendered. rewrite list_elem_of_omap. unfold carry_command. split.
  - intros (e & [HR He]%list_elem_of_filter & HC). destruct (el_IP e) as [ip|] eqn:EI; [|done]. cbn in HC. destruct (Z.eqb_spec ip v4_block); [done|]. by exists e, ip.
  - intros (e & ip & He & HR & HI & HZ & HC). exists e. split; [by apply list_elem_of_filter|]. rewrite HI. cbn. by destruct (Z.eqb_spec ip v4_block).
Qed.

Lemma carry_sets_ok r live sets l : carry_sets r live sets = Some l →
  (∀ c, c ∈ l ↔ carries r live sets c) ∧ ∀ set, set ∈ sets → set ∈ live_Sets live → is_Some (list_set r set).
Proof.
  revert l. induction sets as [|s sets IH]; intros l; cbn [carry_sets].
  - intros [= <-]. split; [|by intros ? ?%elem_of_nil]. intros c. split; [by intros ?%elem_of_nil|]. by intros (? & ? & ? & ? & ?%elem_of_nil & _).
  - case_bool_decide as HS.
    + unfold readSet. destruct (list_set r s) as [objs|] eqn:EL; [|done]. cbn. destruct (carry_sets r live sets) as [rest|] eqn:ER; [|done]. cbn. intros [= <-].
      destruct (IH rest eq_refl) as [H1 H2]. split.
      * intros c. rewrite elem_of_app, carry_commands, H1. split.
        -- intros [(e & ip & ? & ? & ? & ? & ?)|(s' & o & e & ip & Hs & ?)]; [exists s, objs, e, ip; split; [left|done]|exists s', o, e, ip; split; [by right|done]].
        -- intros (s' & o & e & ip & [->|Hs]%elem_of_cons & HL & HO & He & ?); [left; exists e, ip; split; [congruence|done]|right; by exists s', o, e, ip].
      * intros set [->|Hs]%elem_of_cons HL; [by rewrite EL|by apply H2].
    + intros HC. destruct (IH l HC) as [H1 H2]. split.
      * intros c. rewrite H1. split; intros (s' & o & e & ip & Hs & HL & HR); exists s', o, e, ip; split; try done; [by right|by apply elem_of_cons in Hs as [->|?]].
      * intros set [->|Hs]%elem_of_cons HL; [done|by apply H2].
Qed.

Lemma lease_bounds e s : lease_of e = Remaining s → 0 < s ∧ s * Second ≤ el_Expires e < (s + 1) * Second.
Proof.
  unfold lease_of. destruct (Z.ltb_spec 0 (el_Expires e)); [|by destruct (0 <? el_Timeout e)]. cbv zeta. rewrite Z.quot_div_nonneg by (unfold Second; lia).
  destruct (Z.ltb_spec (el_Expires e / Second) 1); [done|]. intros [= <-]. pose proof (Z.div_mod (el_Expires e) Second ltac:(done)).
  pose proof (Z.mod_pos_bound (el_Expires e) Second eq_refl). lia.
Qed.

(** *** What nft lists

    An element of a live set, stated without the parser: an IPv4 address alone, with a port,
    with the interface it came in on, or with that and a hardware address; for ever, or with
    the seconds it was given and the seconds that are left.  [listed] is the JSON nft writes for
    it: bare when it has no attributes, otherwise wrapped.  Intervals, which nft writes as
    [prefix] or [range] objects, are not among them: the parser passes over those. *)

Inductive live_key :=
| KAddr (a : Z)
| KPort (a port : Z)
| KIface (ifc : string) (a : Z)
| KMac (ifc : string) (a : Z) (mac : string).

Definition key_json (k : live_key) : json :=
  let concat l := JObj [("concat", JArr l)] in
  match k with
  | KAddr a => JStr (dotted a)
  | KPort a port => concat [JStr (dotted a); JNum port]
  | KIface ifc a => concat [JStr ifc; JStr (dotted a)]
  | KMac ifc a mac => concat [JStr ifc; JStr (dotted a); JStr mac]
  end.

Definition listed (k : live_key) (left : option (Z * Z)) : json :=
  match left with
  | None => key_json k
  | Some (given, secs) => JObj [("elem", JObj [("val", key_json k); ("timeout", JNum given); ("expires", JNum secs)])]
  end.

Definition lists_element (r : Readings) (set : string) (k : live_key) (left : option (Z * Z)) : Prop :=
  ∃ objs o s elems, list_set r set = Some objs ∧ o ∈ objs ∧ jget "set" o = Some (JObj s) ∧ jget "elem" s = Some (JArr elems) ∧ listed k left ∈ elems.

(** The address is one and not 0.0.0.0, an interface is not the text of an address, and a
    hardware address is six bytes in lower case. *)
Definition key_ok (k : live_key) : Prop :=
  let addr a := 0 < a < 2 ^ 32 in
  let name i := i ≠ "" ∧ ParseIP i = None ∧ is_mac6 i = false in
  match k with
  | KAddr a => addr a
  | KPort a port => addr a ∧ 0 < port ≤ 65535
  | KIface ifc a => addr a ∧ name ifc
  | KMac ifc a mac => addr a ∧ name ifc ∧ mac ≠ "" ∧ ParseIP mac = None ∧ is_mac6 mac = true ∧ mac_text mac = mac
  end.

(** The resolvers the render declares itself. *)
Definition baseline (set : string) (k : live_key) : Prop :=
  match k with KPort a port => set ∈ [GardenTCP; GardenUDP] ∧ port = BaselineResolverPort ∧ dotted a ∈ BaselineResolvers | _ => False end.

Definition key_text (k : live_key) : string :=
  match k with
  | KAddr a => dotted a
  | KPort a port => dotted a +:+ " . " +:+ pretty port
  | KIface ifc a => Quote ifc +:+ " . " +:+ dotted a
  | KMac ifc a mac => Quote ifc +:+ " . " +:+ dotted a +:+ " . " +:+ mac
  end.

(** The command that adds the element again, for what is left. *)
Definition again (set : string) (k : live_key) (left : option (Z * Z)) : string :=
  "add element inet stayconnect " +:+ set +:+ " { " +:+ key_text k
  +:+ match left with None => "" | Some (_, secs) => " timeout " +:+ pretty secs +:+ "s" end +:+ " }".

Definition in_force (left : option (Z * Z)) : Prop := match left with None => True | Some (_, secs) => 1 ≤ secs end.

(** The element the parser has to make of it. *)
Definition key_element (k : live_key) (left : option (Z * Z)) : Element :=
  let make i a m p := mkElement i (Some (v4_block + a)) m p (from_option (λ x, x.1 * Second) 0 left) (from_option (λ x, x.2 * Second) 0 left) in
  match k with
  | KAddr a => make "" a "" 0
  | KPort a port => make "" a "" port
  | KIface ifc a => make ifc a "" 0
  | KMac ifc a mac => make ifc a mac 0
  end.

Lemma ParseIP_dotted a : 0 < a < 2 ^ 32 → ParseIP (dotted a) = Some (v4_block + a).
Proof. intros Ha. unfold ParseIP. by rewrite ParseAddr_dotted by lia. Qed.

Lemma add_addr_part el a : 0 < a < 2 ^ 32 →
  add_part el (JStr (dotted a)) = mkElement (el_Iface el) (Some (v4_block + a)) (el_MAC el) (el_Port el) (el_Timeout el) (el_Expires el).
Proof. intros Ha. cbn [add_part]. by rewrite ParseIP_dotted. Qed.

Lemma add_port_part el p : 0 < p ≤ 65535 → add_part el (JNum p) = mkElement (el_Iface el) (el_IP el) (el_MAC el) p (el_Timeout el) (el_Expires el).
Proof. intros Hp. cbn [add_part]. destruct (Z.ltb_spec 0 p), (Z.leb_spec p 65535); (done || lia). Qed.

Lemma add_name_part el i : i ≠ "" → ParseIP i = None → is_mac6 i = false →
  add_part el (JStr i) = mkElement i (el_IP el) (el_MAC el) (el_Port el) (el_Timeout el) (el_Expires el).
Proof. intros Hn HI HM. cbn [add_part]. rewrite HI, HM. destruct (empty i) eqn:E; [by apply bool_decide_eq_true in E|done]. Qed.

Lemma add_mac_part el m : ParseIP m = None → is_mac6 m = true → mac_text m = m →
  add_part el (JStr m) = mkElement (el_Iface el) (el_IP el) m (el_Port el) (el_Timeout el) (el_Expires el).
Proof. intros HI HM HT. cbn [add_part]. by rewrite HI, HM, HT. Qed.

Lemma key_parts k : key_ok k →
  match key_json k with
  | JStr s => mkElement "" (ParseIP s) "" 0 0 0
  | JObj o => match jget "concat" o with Some (JArr parts) => foldl add_part no_element parts | _ => no_element end
  | _ => no_element
  end = key_element k None.
Proof.
  assert (HC : ∀ x, jget "concat" [("concat", x)] = Some x) by done.
  intros HK. destruct k; cbn in HK; destruct_and?; cbn [key_json]; rewrite ?HC; cbn [foldl].
  - by rewrite ParseIP_dotted.
  - by rewrite add_addr_part, add_port_part.
  - by rewrite (add_name_part _ ifc), add_addr_part.
  - by rewrite (add_name_part _ ifc), add_addr_part, add_mac_part.
Qed.

Lemma key_element_left k l : key_element k l =
  mkElement (el_Iface (key_element k None)) (el_IP (key_element k None)) (el_MAC (key_element k None)) (el_Port (key_element k None))
    (from_option (λ x, x.1 * Second) 0 l) (from_option (λ x, x.2 * Second) 0 l).
Proof. by destruct k. Qed.

Lemma key_element_addr k l : key_ok k → ∃ a, el_IP (key_element k l) = Some (v4_block + a) ∧ 0 < a < 2 ^ 32.
Proof. destruct k; cbn; intros HK; destruct_and?; by eexists. Qed.

Lemma bare_elem x : jget "elem" [("concat", x)] = None.
Proof. done. Qed.
Lemma bare_val x : jget "val" [("concat", x)] = None.
Proof. done. Qed.
Lemma bare_timeout x : jget "timeout" [("concat", x)] = None.
Proof. done. Qed.
Lemma bare_expires x : jget "expires" [("concat", x)] = None.
Proof. done. Qed.

Lemma parse_listed k left : key_ok k → parse_elem (listed k left) = Some (key_element k left).
Proof.
  intros HK. pose proof (key_parts k HK) as HP. destruct (key_element_addr k None HK) as (a & HA & _). rewrite key_element_left. destruct left as [[given secs]|].
  - set (v := key_json k) in *. unfold listed, parse_elem. fold v.
    change (jget "elem" [("elem", ?x)]) with (Some x). cbv iota beta.
    change (jget "val" [("val", v); ("timeout", JNum given); ("expires", JNum secs)]) with (Some v).
    change (jget "timeout" [("val", v); ("timeout", JNum given); ("expires", JNum secs)]) with (Some (JNum given)).
    change (jget "expires" [("val", v); ("timeout", JNum given); ("expires", JNum secs)]) with (Some (JNum secs)).
    cbv iota beta zeta. rewrite HP, HA. by cbn [el_IP].
  - unfold listed. destruct k as [b| | |]; [cbn; by rewrite ParseIP_dotted|..]; cbn [key_json] in *; unfold parse_elem;
      cbv iota beta zeta; rewrite !bare_elem; cbv iota beta zeta; rewrite !bare_val, bare_timeout, bare_expires, HP, HA; by cbn [el_IP].
Qed.

Lemma listed_is_parsed r set k left : lists_element r set k left → key_ok k → ∃ objs, list_set r set = Some objs ∧ key_element k left ∈ parse_set objs.
Proof.
  intros (objs & o & s & elems & HL & HO & HS & HE & HK) Hok. exists objs. split; [done|]. unfold parse_set. apply list_elem_of_bind. exists o. split; [|done].
  rewrite HS, HE. apply list_elem_of_omap. exists (listed k left). split; [done|by apply parse_listed].
Qed.

Lemma key_written k left a : key_ok k → el_IP (key_element k left) = Some (v4_block + a) → element_key (key_element k left) (v4_block + a) = key_text k.
Proof.
  assert (HT : ∀ b, 0 < b < 2 ^ 32 → ip_text (v4_block + b) = dotted b) by (intros b Hb; unfold ip_text; by rewrite To4_v4 by lia).
  assert (HE : ∀ s, s ≠ "" → empty s = false) by (intros s Hs; by apply bool_decide_eq_false).
  unfold element_key. destruct k; cbn; intros HK [= Ha]; assert (a0 = a) as -> by lia; destruct_and?; rewrite HT by done; try done;
    rewrite ?HE by done; cbn; [|done..]. by destruct (Z.ltb_spec 0 port); [|lia].
Qed.

Lemma left_lease k left : in_force left →
  lease_of (key_element k left) = match left with None => Permanent | Some (_, secs) => Remaining secs end.
Proof.
  intros HL. rewrite key_element_left. unfold lease_of. cbn [el_Expires el_Timeout]. destruct left as [[given secs]|]; [|done]. cbn in *.
  destruct (Z.ltb_spec 0 (secs * Second)); [|unfold Second in *; lia]. rewrite Z.quot_mul by done. by destruct (Z.ltb_spec secs 1); [lia|].
Qed.

(** What nft lists in one of these shapes, and is in force, is carried. *)
Lemma listed_is_carried r live sets set k left :
  set ∈ sets → set ∈ live_Sets live → lists_element r set k left → key_ok k → in_force left → ¬ baseline set k → carries r live sets (again set k left).
Proof.
  intros HS HL HH HK HF HB. destruct (listed_is_parsed _ _ _ _ HH HK) as (objs & HO & HE). destruct (key_element_addr k left HK) as (a & HA & Ha).
  exists set, objs, (key_element k left), (v4_block + a). split_and!; try done.
  - unfold rendered. rewrite HA. unfold ip_text. rewrite To4_v4 by lia.
    destruct (_ || _) eqn:EG; [|done]. destruct (Z.eqb_spec (el_Port (key_element k left)) BaselineResolverPort) as [HP|]; [|done]. apply bool_decide_eq_false. intros HR.
    apply HB. destruct k; cbn in HP; try done. cbn. cbn in HA. injection HA as HA. assert (a0 = a) as -> by lia. split_and!; [|done..].
    apply orb_true_iff in EG as [->%bool_decide_eq_true| ->%bool_decide_eq_true]; set_solver.
  - lia.
  - rewrite key_written, left_lease by done. unfold again. destruct left as [[given secs]|]; cbn [add_command]; by rewrite ?append_assoc.
Qed.

End proofs.
