(* ===== verification/NetRender.v ===== *)
(** The files netd writes for the other daemons (data-plane/internal/netcfg): netplan
    (render_netplan.go), Unbound (render_unbound.go, RenderUnboundPortal of portal.go), Kea
    (render_kea.go), and the prepared network (factory.go).

    A file is the list of its lines; the configuration of Kea is the decoded JSON. *)
From stdpp Require Import pretty.
From S2P Require Import Prelude GoStrings GoText GoNet NetCfg NetNft.

Definition lines_text (l : list string) : string := concat_text ((λ s, s +:+ newline) <$> l).

(** ** The prepared network (factory.go) *)

Definition Factory (parentInterface : string) : GuestNetwork := {|
  ID := ""; Name := "Client Wi-Fi"; SSIDLabel := ""; Enabled := true; NetworkType := "untagged"; ParentInterface := parentInterface; VLANID := 0; BridgeName := "";
  GatewayIP := "10.20.0.1"; SubnetCIDR := "10.20.0.0/19"; PrefixLen := 19; DHCPMode := DHCPLocal; DNSMode := "appliance"; DNSServers := []; DomainName := "guest.local";
  LeaseDefault := 3600; LeaseMin := 900; LeaseMax := 7200; RelayTargets := []; CaptiveEnabled := true; InternetEnabled := true; NATEnabled := true; ClientIsolation := true;
  Pools := [mkPool "10.20.0.10" "10.20.31.254"]; Reservations := [] |}.

(** ** netplan *)

(** macRe: six pairs of lower-case hexadecimal digits. *)
Definition macRe (m : string) : bool :=
  (len m =? 17) && forallb (λ p, (len p =? 2) && all_bytes (λ b, in_range 48 57 b || in_range 97 102 b) p) (split_on (Ascii.ascii_of_nat 58) m).
Definition usableMAC (m : string) : bool :=
  macRe m && negb (bool_decide (m = "00:00:00:00:00:00"))
  && match bytes_of m with
     | a :: b :: _ => match hex_val b with Some d => Z.land d 1 =? 0 | None => false end
     | _ => false
     end.

Definition gatewayCIDR (n : GuestNetwork) : string :=
  if 0 <? PrefixLen n then GatewayIP n +:+ "/" +:+ pretty (PrefixLen n)
  else match cut_at slash (SubnetCIDR n) with
       | Some (_, m) => GatewayIP n +:+ "/" +:+ m
       | None => GatewayIP n +:+ "/24"
       end.

Definition parent_names (enabled : list GuestNetwork) : list string :=
  sort_Strings (foldl add_new [] (filter (λ p, p ≠ "") (ParentInterface <$> enabled))).

Definition is_vlan (n : GuestNetwork) : bool := bool_decide (NetworkType n = "vlan").
Definition member (n : GuestNetwork) : string := if is_vlan n then VLANIfaceName (ParentInterface n) (VLANID n) else ParentInterface n.
Definition titled (title : string) (l : list string) : list string := match l with [] => [] | _ => title :: l end.

Section netplan.
Context {U : Unicode} (parentMAC : option (string → string)).

Definition mac_line (n : GuestNetwork) : list string :=
  match parentMAC with
  | Some f => let m := ToLower (TrimSpace (f (ParentInterface n))) in if is_vlan n && usableMAC m then ["      macaddress: " +:+ m] else []
  | None => []
  end.

Definition RenderNetplanWith (nets : list GuestNetwork) : list string :=
  let enabled := sortEnabled nets in
  (["# StayConnect generated — guest network L2/L3. Do not edit by hand."; "network:"; "  version: 2"; "  renderer: networkd"]
   ++ titled "  ethernets:" (p ← parent_names enabled; ["    " +:+ p +:+ ":"; "      dhcp4: no"; "      dhcp6: no"; "      optional: true"])
   ++ titled "  vlans:" (n ← filter (λ n, is_vlan n = true) enabled;
                         ["    " +:+ VLANIfaceName (ParentInterface n) (VLANID n) +:+ ":"; "      id: " +:+ pretty (VLANID n);
                          "      link: " +:+ ParentInterface n; "      dhcp4: no"; "      dhcp6: no"])
   ++ titled "  bridges:" (n ← enabled;
                           (["    " +:+ BridgeName n +:+ ":"; "      interfaces: [" +:+ member n +:+ "]"] ++ mac_line n
                            ++ ["      addresses:"; "        - " +:+ gatewayCIDR n; "      dhcp4: no"; "      dhcp6: no";
                                "      parameters:"; "        stp: false"; "        forward-delay: 0"])))%list.
End netplan.

(** ** Unbound *)

Definition view_rune (r : Z) : bool := in_range 97 122 r || in_range 65 90 r || in_range 48 57 r || (r =? 45) || (r =? 95).
Definition unboundViewName (n : GuestNetwork) : string := "sc-" +:+ of_runes ((λ r, if view_rune r then r else 95) <$> runes (BridgeName n)).

Definition unbound_options : list string :=
  ["# StayConnect generated — guest DNS. Do not edit by hand."; "server:";
   "    do-ip4: yes"; "    do-ip6: no"; "    do-udp: yes"; "    do-tcp: yes";
   "    num-threads: 2"; "    prefetch: yes"; "    cache-min-ttl: 30"; "    cache-max-ttl: 86400";
   "    hide-identity: yes"; "    hide-version: yes"; "    harden-glue: yes"; "    harden-dnssec-stripped: yes";
   "    ip-ratelimit: 100"; "    ratelimit: 1000"; "    deny-any: yes"; "    interface: 127.0.0.1"].
Definition local_zone : string := q "    local-zone: `stayconnect.local.` static".

Definition RenderUnbound (nets : list GuestNetwork) : list string :=
  let enabled := sortEnabled nets in
  (unbound_options ++ ((λ n, "    interface: " +:+ GatewayIP n) <$> enabled)
   ++ ["    access-control: 127.0.0.0/8 allow"] ++ ((λ n, "    access-control: " +:+ SubnetCIDR n +:+ " allow") <$> enabled)
   ++ ["    access-control: 0.0.0.0/0 refuse"; local_zone]
   ++ ((λ n, "    access-control-view: " +:+ SubnetCIDR n +:+ " " +:+ unboundViewName n) <$> enabled)
   ++ (n ← enabled;
       ["view:"; "    name: " +:+ quoted (unboundViewName n); "    view-first: yes"; local_zone;
        "    local-data: " +:+ quoted ("portal.stayconnect.local. IN A " +:+ GatewayIP n);
        "    local-data: " +:+ quoted ("captive.stayconnect.local. IN A " +:+ GatewayIP n);
        "    local-data: " +:+ quoted ("gw.stayconnect.local. IN A " +:+ GatewayIP n)]))%list.

Definition RenderUnboundPortal `{Unicode} (vip : string) (p : PortalTLS) : list string :=
  "# StayConnect generated -- portal hostnames -> portal address. Do not edit by hand."
  :: match ParsePortalIP vip, PortalHostnames p with
     | Some ip, (_ :: _) as names =>
         "server:" :: (n ← names; ["    local-zone: " +:+ quoted (n +:+ ".") +:+ " static"; "    local-data: " +:+ quoted (n +:+ ". IN A " +:+ dotted ip)])
     | _, _ => []
     end.

(** ** Kea *)

Definition option_data (n : GuestNetwork) (topo : Topology) : json :=
  let dns := if bool_decide (DNSMode n = "custom") && negb (bool_decide (DNSServers n = [])) then JoinStr ", " (DNSServers n) else GatewayIP n in
  let url := CaptivePortalURL (GatewayIP n) topo in
  JArr ([JObj [("name", JStr "routers"); ("data", JStr (GatewayIP n))];
         JObj [("name", JStr "domain-name-servers"); ("data", JStr dns)];
         JObj [("name", JStr "domain-name"); ("data", JStr (DomainName n))]]
        ++ if CaptiveEnabled n && negb (empty url) then [JObj [("code", JNum 114); ("space", JStr "dhcp4"); ("data", JStr url)]] else [])%list.

Definition kea_reservation (r : Reservation) : json :=
  JObj ([("hw-address", JStr (MAC r)); ("ip-address", JStr (ReservedIP r))] ++ if empty (Hostname r) then [] else [("hostname", JStr (Hostname r))])%list.

Definition kea_subnet (ids : gmap string Z) (topo : Topology) (n : GuestNetwork) : json :=
  JObj [("id", JNum (default 0 (ids !! ID n))); ("subnet", JStr (SubnetCIDR n)); ("interface", JStr (BridgeName n));
        ("pools", JArr ((λ p, JObj [("pool", JStr (StartIP p +:+ " - " +:+ EndIP p))]) <$> Pools n));
        ("option-data", option_data n topo);
        ("valid-lifetime", JNum (LeaseDefault n)); ("min-valid-lifetime", JNum (LeaseMin n)); ("max-valid-lifetime", JNum (LeaseMax n));
        ("reservations", JArr (kea_reservation <$> filter (λ r, res_Enabled r = true) (Reservations n)));
        ("authoritative", JBool true);
        ("user-context", JObj [("guest_network_id", JStr (ID n)); ("vlan_id", JNum (VLANID n))])].

Definition local_networks (nets : list GuestNetwork) : list GuestNetwork := filter (λ n, DHCPMode n = DHCPLocal) (sortEnabled nets).

(** [hook] is the path of the lease_cmds library. *)
Definition RenderKeaDhcp4 (nets : list GuestNetwork) (topo : Topology) (leaseCSVPath ctrlSocket hook : string) : json :=
  let local := local_networks nets in
  JObj [("interfaces-config", JObj [("interfaces", JArr ((λ n, JStr (BridgeName n +:+ "/" +:+ GatewayIP n)) <$> local)); ("dhcp-socket-type", JStr "raw")]);
        ("control-socket", JObj [("socket-type", JStr "unix"); ("socket-name", JStr ctrlSocket)]);
        ("hooks-libraries", JArr [JObj [("library", JStr hook)]]);
        ("lease-database", JObj [("type", JStr "memfile"); ("persist", JBool true); ("name", JStr leaseCSVPath); ("lfc-interval", JNum 3600)]);
        ("expired-leases-processing", JObj [("reclaim-timer-wait-time", JNum 10); ("flush-reclaimed-timer-wait-time", JNum 25); ("hold-reclaimed-time", JNum 3600);
                                            ("max-reclaim-leases", JNum 100); ("max-reclaim-time", JNum 250)]);
        ("subnet4", JArr (kea_subnet (StableSubnetIDs local) topo <$> local));
        ("loggers", JArr [JObj [("name", JStr "kea-dhcp4");
                                ("output_options", JArr [JObj [("output", JStr "/var/log/kea/kea-dhcp4.log"); ("flush", JBool true)]]);
                                ("severity", JStr "INFO")]])].
Definition RenderKeaFile (nets : list GuestNetwork) (topo : Topology) (leaseCSVPath ctrlSocket hook : string) : json :=
  JObj [("Dhcp4", RenderKeaDhcp4 nets topo leaseCSVPath ctrlSocket hook)].
