(* ===== verification/NetRenderProofs.v ===== *)
(** The generated files hold the lines the renderer wrote and no others, whatever the names and
    addresses of a checked set of networks; the prepared network passes the checks. *)
From stdpp Require Import pretty.
From S2P Require Import Prelude GoStrings GoText GoNet NetCfg NetValidate NetProofs NetNft NetFirewall NetText NetRender.

(** ** The text of an address *)

Definition addr_byte (b : Z) : bool := bool_decide (hex_val b ≠ None) || (b =? 46) || (b =? 58) || (b =? 47).

Lemma digit_addr c : in_range 48 57 c = true → addr_byte c = true.
Proof. intros Hc. unfold addr_byte, hex_val. by rewrite Hc. Qed.

Lemma ipv4_fields_bytes prev val k f s r : ipv4_fields prev val k f s = Some r → Forall (λ b, addr_byte b = true) s.
Proof.
  revert prev val k f. induction s as [|c s IH]; intros prev val k f; [constructor|]. cbn [ipv4_fields]. destruct (in_range 48 57 c) eqn:Ec.
  - destruct (_ && _); [done|]. destruct (255 <? _); [done|]. intros H. constructor; [by apply digit_addr|by eapply IH].
  - destruct (Z.eqb_spec c 46) as [->|]; [|done]. destruct (_ || _); [done|]. destruct (_ =? _)%nat; [done|]. intros H. constructor; [done|by eapply IH].
Qed.

Lemma hex_group_bytes off acc s a o rest : hex_group off acc s = Some (a, o, rest) → ∃ pre, s = (pre ++ rest)%list ∧ Forall (λ b, addr_byte b = true) pre.
Proof.
  revert off acc. induction s as [|c s IH]; intros off acc; cbn [hex_group]; [intros [= <- <- <-]; by exists []|].
  destruct (hex_val c) as [d|] eqn:Ed; [|intros [= <- <- <-]; by exists []]. cbv zeta. destruct (3 <? off); [done|]. destruct (65535 <? _); [done|].
  intros H. destruct (IH _ _ H) as (pre & -> & HF). exists (c :: pre). split; [done|]. constructor; [|done]. unfold addr_byte. by rewrite Ed.
Qed.

Lemma ipv6_loop_bytes g ip e s ip' e' rest :
  ipv6_loop g ip e s = Some (ip', e', rest) → ∃ pre, s = (pre ++ rest)%list ∧ Forall (λ b, addr_byte b = true) pre.
Proof.
  revert ip e s. induction g as [|g IH]; intros ip e s; cbn [ipv6_loop]; [intros [= <- <- <-]; by exists []|].
  destruct (hex_group 0 0 s) as [[[acc off] r]|] eqn:EH; [|done]. destruct (hex_group_bytes _ _ _ _ _ _ EH) as (pre & HS & HF). cbv zeta. destruct (off =? 0); [done|].
  destruct r as [|c more]; [intros [= <- <- <-]; exists pre; split; [done|done]|]. destruct (Z.eqb_spec c 46) as [->|].
  { destruct (_ && _); [done|]. destruct (_ <? _)%nat; [done|]. destruct (ipv4_fields _ _ _ _ _) as [f|] eqn:E4; [|done]. intros [= <- <- <-]. exists s.
    rewrite app_nil_r. split; [done|]. by eapply ipv4_fields_bytes. }
  destruct (Z.eqb_spec c 58) as [->|]; [|done]. cbn [negb]. destruct more as [|d more']; [done|]. destruct (Z.eqb_spec d 58) as [->|].
  - destruct (bool_decide _); [done|]. destruct more' as [|x m]; [intros [= <- <- <-]; exists s; rewrite app_nil_r; split; [done|]; rewrite HS; apply Forall_app; split; [done|by repeat constructor]|].
    intros H. destruct (IH _ _ _ H) as (pre' & HE & HF'). exists (pre ++ 58 :: 58 :: pre')%list. rewrite HS, HE. split; [by rewrite <- app_assoc|].
    apply Forall_app. split; [done|]. by repeat constructor.
  - intros H. destruct (IH _ _ _ H) as (pre' & HE & HF'). exists (pre ++ 58 :: pre')%list. rewrite HS, HE. split; [by rewrite <- app_assoc|].
    apply Forall_app. split; [done|]. by constructor.
Qed.

Lemma parse_ipv6_bytes s r : parse_ipv6 s = Some r → Forall (λ b, addr_byte b = true) s.
Proof.
  unfold parse_ipv6. assert (HL : ∀ e s', (('(ip, ellipsis, rest) ← ipv6_loop 8 [] e s';
      if bool_decide (rest ≠ []) then None
      else if (length ip <? 16)%nat then (λ e, (take e ip ++ replicate (16 - length ip) 0 ++ drop e ip)%list) <$> ellipsis
      else match ellipsis with Some _ => None | None => Some ip end) : option (list Z)) = Some r → Forall (λ b, addr_byte b = true) s').
  { intros e s' H. destruct (ipv6_loop 8 [] e s') as [[[ip el] rest]|] eqn:EL; [|done]. cbn in H. destruct (ipv6_loop_bytes _ _ _ _ _ _ _ EL) as (pre & -> & HF).
    case_bool_decide as HR; [done|]. subst rest. by rewrite app_nil_r. }
  destruct s as [|c [|d s]]; [by apply HL|by apply HL|].
  destruct (Z.eqb_spec c 58) as [->|]; cbn [andb]; [|apply (HL None (c :: d :: s))]. destruct (Z.eqb_spec d 58) as [->|]; [|apply (HL None (58 :: d :: s))].
  destruct s as [|x s]; [intros _; by repeat constructor|]. intros H. apply (HL (Some 0%nat) (x :: s)) in H. constructor; [done|]. by constructor.
Qed.

Lemma all_bytes_Forall p s : all_bytes p s = true ↔ Forall (λ b, p b = true) (bytes_of s).
Proof. induction s as [|c s IH]; [done|]. cbn. by rewrite andb_true_iff, Forall_cons, IH. Qed.

Lemma ParseAddr_bytes s a : ParseAddr s = Some a → all_bytes addr_byte s = true.
Proof.
  rewrite all_bytes_Forall. unfold ParseAddr. case_bool_decide; [done|]. destruct (list_find _ _) as [[i c]|]; [|done]. destruct (c =? 46).
  - destruct (ipv4_fields _ _ _ _ _) as [f|] eqn:E; [|done]. intros _. by eapply ipv4_fields_bytes.
  - destruct (parse_ipv6 _) as [r|] eqn:E; [|done]. intros _. by eapply parse_ipv6_bytes.
Qed.

Lemma ParseIP_bytes s ip : ParseIP s = Some ip → all_bytes addr_byte s = true.
Proof. unfold ParseIP. destruct (ParseAddr s) eqn:E; [|done]. intros _. by eapply ParseAddr_bytes. Qed.

Lemma cut_at_eq c s a b : cut_at c s = Some (a, b) → s = a +:+ String c b.
Proof.
  revert a. induction s as [|x s IH]; intros a; [done|]. cbn [cut_at]. destruct (decide (x = c)) as [->|]; [by intros [= <- <-]|].
  destruct (cut_at c s) as [[a' b']|]; [|done]. cbn. intros [= <- <-]. by rewrite (IH a' eq_refl).
Qed.

Lemma ParseCIDR_bytes s x : ParseCIDR s = Some x → all_bytes addr_byte s = true.
Proof.
  unfold ParseCIDR. destruct (cut_at slash s) as [[a m]|] eqn:EC; [|done]. cbn. destruct (ParseAddr a) as [ad|] eqn:EA; [|done]. cbn.
  destruct (_ && _) eqn:E; [|done]. intros _. apply andb_true_iff in E as [[_ HD]%andb_true_iff _]. rewrite (cut_at_eq _ _ _ _ EC).
  change (a +:+ String slash m) with (a +:+ (String slash "" +:+ m)). rewrite !all_bytes_app. rewrite (ParseAddr_bytes _ _ EA). cbn [andb].
  change (all_bytes addr_byte (String slash "")) with true. cbn [andb]. eapply all_bytes_impl; [|exact HD]. apply digit_addr.
Qed.

(** ** Lines *)

Definition LF : Ascii.ascii := Ascii.ascii_of_nat 10.

Lemma split_lines l : Forall (λ s, lacks LF s = true) l → split_on LF (lines_text l) = (l ++ [""])%list.
Proof.
  unfold lines_text. induction 1 as [|s l Hs Hl IH]; [done|]. cbn [fmap list_fmap app]. change (concat_text ((s +:+ newline) :: ?x)) with ((s +:+ newline) +:+ concat_text x).
  rewrite append_assoc. clear Hl. induction s as [|c s IHs].
  - change ("" +:+ newline +:+ ?x) with (String LF x). cbn [split_on]. rewrite decide_True by done. by rewrite IH.
  - cbn in Hs. apply andb_true_iff in Hs as [Hc%bool_decide_eq_true Hs]. change (String c s +:+ ?x) with (String c (s +:+ x)). cbn [split_on]. rewrite decide_False by done.
    by rewrite (IHs Hs).
Qed.

(** A network whose names and addresses have no special characters. *)
Record clean (n : GuestNetwork) : Prop := {
  clean_parent : all_bytes iface_byte (ParentInterface n) = true;
  clean_bridge : all_bytes iface_byte (BridgeName n) = true;
  clean_gateway : all_bytes addr_byte (GatewayIP n) = true;
  clean_subnet : all_bytes addr_byte (SubnetCIDR n) = true
}.

Section proofs.
Context {T : UnicodeTables} {U : Unicode}.

Lemma CheckIfaceName_bytes s : CheckIfaceName s = None → all_bytes iface_byte s = true.
Proof.
  unfold CheckIfaceName, ifaceNameRE. destruct (empty s); [done|]. destruct (15 <? len s); [done|]. destruct (bytes_of s); [done|]. destruct (_ && _) eqn:E; [|done].
  intros _. by apply andb_true_iff in E as [_ E].
Qed.

Lemma checked_clean n topo avail known prefix : Enabled n = true → ValidateOne n topo avail known prefix = [] → clean n.
Proof.
  intros HE H. unfold ValidateOne in H. apply app_nil in H as [HN H]. do 2 (apply app_nil in H as [_ H]). apply app_nil in H as [HS _].
  unfold name_issues in HN. rewrite HE in HN. cbn [negb] in HN. apply app_nil in HN as [_ HN]. apply app_nil in HN as [_ HN]. apply app_nil in HN as [HB HN]. apply app_nil in HN as [HP _].
  assert (HI : ∀ s f c, when (negb (empty s) && bad (CheckIfaceName s)) f c = [] → all_bytes iface_byte s = true).
  { intros s f c HW. apply when_nil in HW. destruct (empty s) eqn:Es; [by apply bool_decide_eq_true in Es as ->|]. cbn in HW. unfold bad in HW. apply bool_decide_eq_false in HW.
    apply CheckIfaceName_bytes. destruct (CheckIfaceName s); [|done]. destruct HW. by eexists. }
  unfold subnet_issues in HS. cbv zeta in HS. apply app_nil in HS as [HG HS]. apply when_nil, negb_false_iff in HG. unfold is_v4 in HG.
  split; [by eapply HI|by eapply HI|..].
  - destruct (ParseIP (GatewayIP n)) eqn:EP; [|done]. by eapply ParseIP_bytes.
  - unfold networkAndBroadcast in HS. destruct (ParseCIDR (SubnetCIDR n)) as [x|] eqn:EC; [|done]. by eapply ParseCIDR_bytes.
Qed.

(** ** No value adds a line *)

Lemma iface_line s : all_bytes iface_byte s = true → lacks LF s = true.
Proof. by apply all_bytes_lacks. Qed.
Lemma addr_line s : all_bytes addr_byte s = true → lacks LF s = true.
Proof. by apply all_bytes_lacks. Qed.
Lemma pretty_line (z : Z) : lacks LF (pretty z) = true.
Proof. apply lacks_pretty_Z; [done|]. intros d. unfold pretty_N_char. by repeat case_match. Qed.

Lemma first_line k s : lacks LF s = true → lacks LF (str_first k s) = true.
Proof. revert s. induction k as [|k IH]; intros [|c s]; cbn; try done. intros [-> Hs]%andb_true_iff. cbn. by apply IH. Qed.

Lemma split_line c s : c ≠ LF → Forall (λ p, lacks LF p = true) (split_on c s) → lacks LF s = true.
Proof.
  intros Hc. induction s as [|x s IH]; [done|]. cbn [split_on lacks]. destruct (decide (x = c)) as [->|].
  - intros [_ HF]%Forall_cons. rewrite IH by done. by rewrite bool_decide_true.
  - destruct (split_on c s) as [|y l]; rewrite Forall_cons; cbn [lacks]; intros [[Hx HY]%andb_true_iff HF]; rewrite Hx, IH by (by constructor); done.
Qed.

Lemma usable_line m : usableMAC m = true → lacks LF m = true.
Proof.
  unfold usableMAC, macRe. intros [[[_ HF]%andb_true_iff _]%andb_true_iff _]%andb_true_iff. apply (split_line (Ascii.ascii_of_nat 58)); [done|].
  rewrite Forall_forall. intros p Hp%list_elem_of_In. apply (proj1 (forallb_forall _ _) HF) in Hp. apply andb_true_iff in Hp as [_ Hp]. by eapply all_bytes_lacks; [|exact Hp].
Qed.

Lemma view_line n : lacks LF (unboundViewName n) = true.
Proof.
  unfold unboundViewName, of_runes. rewrite lacks_app. cbn [andb]. change (lacks LF "sc-") with true. cbn [andb].
  set (l := mjoin _). assert (HL : Forall (λ b, 32 ≤ b < 128) l).
  { unfold l. rewrite Forall_forall. intros b Hb. apply list_elem_of_join in Hb as (bs & Hb & Hbs). apply list_elem_of_fmap in Hbs as (r & -> & Hr).
    apply list_elem_of_fmap in Hr as (x & -> & _). assert (HX : ∀ y, 32 ≤ y < 128 → rune_bytes y = [y]).
    { intros y Hy. unfold rune_bytes. cbv zeta. rewrite (proj2 (Z.ltb_ge y 0)), (proj2 (Z.ltb_ge 1114111 y)) by lia. unfold in_range. rewrite (proj2 (Z.leb_gt 55296 y)) by lia.
      cbn [orb andb]. by rewrite (proj2 (Z.ltb_lt y 128)) by lia. }
    destruct (view_rune x) eqn:EV; [|rewrite HX in Hb by done; apply list_elem_of_singleton in Hb as ->; done].
    unfold view_rune, in_range in EV. rewrite !orb_true_iff, !andb_true_iff, !Z.leb_le, !Z.eqb_eq in EV. rewrite HX in Hb by lia. apply list_elem_of_singleton in Hb as ->. lia. }
  clearbody l. induction HL as [|b l Hb HL IH]; [done|]. cbn [fmap list_fmap of_bytes lacks]. rewrite IH, andb_true_r. apply bool_decide_eq_true. intros HE.
  apply (f_equal Ascii.nat_of_ascii) in HE. unfold LF in HE. rewrite !Ascii.nat_ascii_embedding in HE by lia. lia.
Qed.

Lemma gateway_line n : clean n → lacks LF (gatewayCIDR n) = true.
Proof.
  intros [_ _ HG HS]. apply addr_line in HG, HS. unfold gatewayCIDR. destruct (0 <? PrefixLen n); [by rewrite !lacks_app, HG, pretty_line|].
  destruct (cut_at slash (SubnetCIDR n)) as [[a m]|] eqn:EC; [|by rewrite lacks_app, HG]. rewrite (cut_at_eq _ _ _ _ EC), lacks_app in HS.
  apply andb_true_iff in HS as [_ HS]. cbn [lacks] in HS. apply andb_true_iff in HS as [_ HS]. by rewrite !lacks_app, HG, HS.
Qed.

Lemma vlan_line n : clean n → lacks LF (VLANIfaceName (ParentInterface n) (VLANID n)) = true.
Proof.
  intros HC. pose proof (iface_line _ (clean_parent n HC)) as HP. unfold VLANIfaceName. cbv zeta. destruct (_ <? _); rewrite !lacks_app, pretty_line; [by rewrite first_line|by rewrite HP].
Qed.

Lemma titled_lines t l : lacks LF t = true → Forall (λ s, lacks LF s = true) l → Forall (λ s, lacks LF s = true) (titled t l).
Proof. intros HT [|x l' Hx HL]; [constructor|]. constructor; [done|]. by constructor. Qed.

Ltac line := rewrite ?lacks_app; repeat (apply andb_true_iff; split); try done.

Lemma netplan_lines mac nets : Forall clean (sortEnabled nets) → Forall (λ s, lacks LF s = true) (RenderNetplanWith mac nets).
Proof.
  intros HC. unfold RenderNetplanWith. cbv zeta. apply Forall_app. split; [repeat constructor|]. apply Forall_app. split; [|apply Forall_app; split].
  - apply titled_lines; [done|]. apply Forall_bind. unfold compose. rewrite Forall_forall. intros p Hp. assert (HL : lacks LF p = true).
    { unfold parent_names in Hp. rewrite sort_Strings_perm in Hp. apply add_new_in in Hp as [Hp|Hp]; [by apply elem_of_nil in Hp|]. apply list_elem_of_filter in Hp as [_ Hp].
      apply list_elem_of_fmap in Hp as (n & -> & Hn). rewrite Forall_forall in HC. by apply iface_line, (clean_parent n), HC. }
    repeat constructor. line.
  - apply titled_lines; [done|]. apply Forall_bind. unfold compose. rewrite Forall_forall in HC |- *. intros n [_ Hn]%list_elem_of_filter. apply HC in Hn.
    repeat constructor; line; auto using vlan_line, pretty_line, iface_line, clean_parent.
  - apply titled_lines; [done|]. apply Forall_bind. unfold compose. eapply Forall_impl; [exact HC|]. intros n Hn. cbn beta. apply Forall_cons; split; [|apply Forall_cons; split].
    + line. by apply iface_line, clean_bridge.
    + line. unfold member. destruct (is_vlan n); [by apply vlan_line|by apply iface_line, clean_parent].
    + apply Forall_app. split; [|repeat constructor; line; by apply gateway_line]. unfold mac_line. destruct mac as [f|]; [|constructor]. cbv zeta.
      destruct (is_vlan n && _) eqn:EM; [|constructor]. apply andb_true_iff in EM as [_ EM]. repeat constructor. line. by apply usable_line.
Qed.

Lemma unbound_lines nets : Forall clean (sortEnabled nets) → Forall (λ s, lacks LF s = true) (RenderUnbound nets).
Proof.
  intros HC. unfold RenderUnbound. cbv zeta. apply Forall_app. split; [repeat constructor|].
  repeat (apply Forall_app; split); try (repeat constructor; done).
  - apply Forall_fmap. eapply Forall_impl; [exact HC|]. intros n Hn. cbn beta. unfold compose. line. by apply addr_line, clean_gateway.
  - apply Forall_fmap. eapply Forall_impl; [exact HC|]. intros n Hn. unfold compose. line. by apply addr_line, clean_subnet.
  - apply Forall_fmap. eapply Forall_impl; [exact HC|]. intros n Hn. unfold compose. line; [by apply addr_line, clean_subnet|apply view_line].
  - apply Forall_bind. unfold compose. eapply Forall_impl; [exact HC|]. intros n Hn. cbn beta. unfold quoted.
    pose proof (view_line n) as HV. set (v := unboundViewName n) in *. clearbody v. repeat constructor; line; auto using addr_line, clean_gateway.
Qed.

(** ** The prepared network *)

Lemma factory_name : CheckNetworkName "Client Wi-Fi" = None.
Proof.
  unfold CheckNetworkName. change (empty (TrimSpace "Client Wi-Fi")) with false. change (negb (ValidString "Client Wi-Fi")) with false.
  change (64 <? Z.of_nat (length (runes "Client Wi-Fi"))) with false. cbv iota. replace (list_find _ _) with (@None (nat * Z)); [done|]. symmetry. apply list_find_None.
  change (runes "Client Wi-Fi") with [67; 108; 105; 101; 110; 116; 32; 87; 105; 45; 70; 105].
  repeat (constructor; [unfold name_rune; rewrite letter_ascii by lia; by rewrite ?orb_true_r|]). constructor.
Qed.

(** The prepared network passes every check on any usable port: an interface name that is
    well formed, present and neither the uplink nor the management interface. *)
Theorem factory_is_valid port topo avail known prefix :
  CheckIfaceName port = None → port ≠ MgmtInterface topo → port ≠ WANInterface topo → match avail with Some s => port ∈ s | None => True end →
  ValidateOne (Factory port) topo avail known prefix = [].
Proof.
  intros HC HM HW HA. assert (HE : empty port = false) by (unfold CheckIfaceName in HC; by destruct (empty port)). unfold ValidateOne.
  assert (H1 : name_issues (Factory port) prefix = []).
  { unfold name_issues, bad. cbn [Enabled Factory negb Name BridgeName ParentInterface DomainName Reservations imap mjoin list_join]. by rewrite factory_name, HC, HE. }
  assert (H2 : interface_issues (Factory port) topo avail known prefix = []).
  { unfold interface_issues. cbv zeta. cbn [ParentInterface Factory Enabled]. rewrite HE, !(bool_decide_false (port = _)) by done. cbn [negb andb orb when].
    destruct avail as [s|]; [|done]. by rewrite bool_decide_true. }
  assert (H3 : service_issues (Factory port) topo prefix = []).
  { unfold service_issues. cbv zeta. cbn [DNSMode DHCPMode CaptiveEnabled GatewayIP Factory]. unfold CaptivePortalURL. destruct (captiveAPIURL topo) as [u|]; [|by vm_compute].
    cbn [default]. rewrite (bool_decide_true (Some u = Some u)) by done. cbn [negb]. by rewrite !andb_false_r. }
  rewrite H1, H2, H3. by vm_compute.
Qed.

(** C29. No name or address of a checked set can add a line to a generated file: the names of
    enabled networks consist of letters, digits, dots, underscores and hyphens, their
    addresses of digits and separators, and the netplan and Unbound files split into
    exactly the lines the renderers wrote. *)
Theorem generated_lines mac nets topo avail known :
  ValidateSet nets topo avail known = [] →
  Forall clean (sortEnabled nets) ∧
  split_on LF (lines_text (RenderNetplanWith mac nets)) = (RenderNetplanWith mac nets ++ [""])%list ∧
  split_on LF (lines_text (RenderUnbound nets)) = (RenderUnbound nets ++ [""])%list.
Proof.
  unfold ValidateSet. intros H. apply app_nil in H as [H _]. assert (HC : Forall clean (sortEnabled nets)).
  { unfold sortEnabled. rewrite merge_sort_Permutation. rewrite Forall_forall. intros n [HE Hn]%list_elem_of_filter.
    destruct (mjoin_imap_nil _ _ H n Hn) as [i Hi]. by eapply checked_clean. }
  split_and!; [done|apply split_lines; by apply netplan_lines|apply split_lines; by apply unbound_lines].
Qed.
End proofs.
