(* ===== verification/NetSample.v ===== *)
(** Two client networks and the theorems on them: a captive network on a VLAN with a signed-in
    client, and an untagged one without internet access. *)
From stdpp Require Import pretty.
From S2P Require Import Prelude GoStrings GoText GoNet NetCfg NetValidate NetProofs NetNames NetNft NetFirewall NetFirewallProofs NetText NetGarden NetGardenPlan NetConverge.
From S2P Require Import NetRender NetRenderProofs.

(** ** The parameters *)

#[export, refine] Instance ascii_tables : UnicodeTables :=
  {| IsLetter r := in_range 65 90 r || in_range 97 122 r; IsDigit r := in_range 48 57 r; IsMark r := false |}.
Proof. all: done. Defined.

#[export, refine] Instance sum_digest : Sha256 := {| sha256 s := replicate 32 (foldl (λ a b, (a * 31 + b) mod 256) 7 (bytes_of s) mod 256) |}.
Proof. intros s. split; [apply length_replicate|]. apply Forall_replicate. apply Z.mod_pos_bound. done. Defined.

(** The kernel as documented; the rate limit and the connection count are never exceeded. *)
Fixpoint reference_verdict (t : tables) (policy : Verdict) (rs : list rule) (p : packet) : Verdict :=
  match rs with
  | [] => policy
  | r :: rs' => if forallb (λ m, default false (meaning t m p)) (matches r) then action r else reference_verdict t policy rs' p
  end.
#[export, refine] Instance reference_nft : Nft := {| holds t m p := default false (meaning t m p); verdict := reference_verdict |}.
Proof. all: try done. by intros t m p b ->. Defined.

(** ** The networks *)

Definition guest_vlan : GuestNetwork := {|
  ID := "11111111-1111-4111-8111-111111111111"; Name := "Guest Wi-Fi"; SSIDLabel := "Guest"; Enabled := true; NetworkType := "vlan"; ParentInterface := "eth1"; VLANID := 10;
  BridgeName := BridgeNameFor "vlan" 10 "11111111-1111-4111-8111-111111111111"; GatewayIP := "10.10.0.1"; SubnetCIDR := "10.10.0.0/19"; PrefixLen := 19;
  DHCPMode := "local"; DNSMode := "custom"; DNSServers := ["9.9.9.9"]; DomainName := "guest.local"; LeaseDefault := 3600; LeaseMin := 900; LeaseMax := 7200;
  RelayTargets := []; CaptiveEnabled := true; InternetEnabled := true; NATEnabled := true; ClientIsolation := true;
  Pools := [mkPool "10.10.0.10" "10.10.15.255"; mkPool "10.10.16.0" "10.10.31.254"];
  Reservations := [mkReservation "aa:bb:cc:dd:ee:01" "10.10.0.5" "printer" true] |}.

Definition staff_lan : GuestNetwork := {|
  ID := "22222222-2222-4222-8222-222222222222"; Name := "Staff"; SSIDLabel := ""; Enabled := true; NetworkType := "untagged"; ParentInterface := "eth2"; VLANID := 0;
  BridgeName := BridgeNameFor "untagged" 0 "22222222-2222-4222-8222-222222222222"; GatewayIP := "10.20.0.1"; SubnetCIDR := "10.20.0.0/24"; PrefixLen := 24;
  DHCPMode := "local"; DNSMode := "appliance"; DNSServers := []; DomainName := "staff.local"; LeaseDefault := 3600; LeaseMin := 900; LeaseMax := 7200;
  RelayTargets := []; CaptiveEnabled := false; InternetEnabled := false; NATEnabled := true; ClientIsolation := false;
  Pools := [mkPool "10.20.0.10" "10.20.0.200"]; Reservations := [] |}.

Definition site : list GuestNetwork := [staff_lan; guest_vlan].

Definition site_topo : Topology := {|
  WANInterface := "eth0"; MgmtInterface := "eth0"; MgmtAddr := "192.168.1.5"; MgmtCIDRs := ["192.168.1.0/24"]; PortalHTTPPort := 8380;
  topo_PrivateReach := mkPrivateReach true ["10.1.0.0/16"]; MACBinding := true; PortalTLSPort := 0; PortalVIP := "10.255.255.1";
  topo_PortalTLS := mkPortalTLS false "" "" "" "" |}.

Lemma validated_networks_witness :
  ValidateSet site site_topo (Some {["eth1"; "eth2"]}) None = [] ∧ (∃ a k g, served guest_vlan a k g) ∧ separate staff_lan guest_vlan.
Proof.
  assert (HV : ValidateSet site site_topo (Some {["eth1"; "eth2"]}) None = []) by (vm_compute; reflexivity).
  split; [exact HV|]. destruct (validated_networks site site_topo (Some {["eth1"; "eth2"]}) None HV) as [HF [HP _]]; [repeat constructor|].
  unfold site in HF, HP. rewrite !Forall_cons in HF. rewrite Forall_cons in HP. split; [apply HF|]. by apply HP.
Defined.

Lemma subnet_ids_witness : numbering (StableSubnetIDs site) ∧ StableSubnetIDs [guest_vlan; staff_lan] = StableSubnetIDs site.
Proof. destruct (subnet_ids_are_stable site [guest_vlan; staff_lan]) as (H1 & _ & H2); [vm_compute; discriminate|apply Permutation_swap|]. by split. Defined.

(** ** Packets *)

(** A client of the VLAN is signed in, with its hardware address. *)
Definition site_tables : tables := {|
  guest_interfaces := bridge <$> sortEnabled site;
  addresses s a := if bool_decide (s = "guest_subnets") then existsb (text_has a) (SubnetCIDR <$> sortEnabled site)
                   else if bool_decide (s = "guest_private_ranges") then existsb (text_has a) PrivateRanges
                   else if bool_decide (s = "guest_private_allow") then existsb (text_has a) (NormalizeAllow ["10.1.0.0/16"]) else false;
  services s a p := (p =? 53) && existsb (text_has a) BaselineResolvers;
  in_auth _ _ := false;
  in_phase3 i a := bool_decide (i = "br-g10") && (a =? 168427621);
  in_phase3_mac i a m := bool_decide (i = "br-g10") && (a =? 168427621) && bool_decide (m = "aa:bb:cc:dd:ee:02")
|}.

Lemma site_loaded : loaded site site_topo site_tables.
Proof. by split. Qed.

(** From 10.10.0.101 to 93.184.216.34. *)
Definition web_request (port : Z) (mac : string) : packet := mkPacket "br-g10" "eth0" false 168427621 1572395042 mac "tcp" port false CtStNew.

Lemma guest_forwarding_witness :
  verdict site_tables Drop (rules_of (forward_items true site site_topo)) (web_request 443 "aa:bb:cc:dd:ee:02") = Accept ∧
  authorised site_topo site_tables (web_request 443 "aa:bb:cc:dd:ee:02") = true.
Proof.
  assert (HV : verdict site_tables Drop (rules_of (forward_items (MACBinding site_topo) site site_topo)) (web_request 443 "aa:bb:cc:dd:ee:02") = Accept) by (vm_compute; reflexivity).
  assert (HI : "br-g10" ∈ guest_interfaces site_tables) by (apply (bool_decide_unpack _); vm_compute; exact I).
  split; [exact HV|].
  destruct (guest_forwarding site site_topo site_tables (web_request 443 "aa:bb:cc:dd:ee:02") site_loaded HI HV)
    as [_ [HK|[(n & _ & _ & _ & HD)|(_ & _ & [[_ HG]|[_ HA]])]]]; [discriminate HK|discriminate HD|vm_compute in HG; discriminate HG|]. vm_compute. reflexivity.
Defined.

Lemma site_enabled n : n ∈ sortEnabled site → n = staff_lan ∨ n = guest_vlan.
Proof. replace (sortEnabled site) with [staff_lan; guest_vlan] by (vm_compute; reflexivity). rewrite !elem_of_cons, elem_of_nil. tauto. Qed.

Lemma site_guarded port mac : guarded site site_topo (web_request port mac).
Proof.
  split_and!; [done|..].
  - intros n [Hn _] _. apply site_enabled in Hn as [-> | ->]; vm_compute; discriminate.
  - intros a Ha. vm_compute in Ha. injection Ha as <-. by vm_compute.
Qed.

Lemma site_online port mac : ¬ offline site (web_request port mac).
Proof. intros (n & [Hn HB] & HI). apply site_enabled in Hn as [-> | ->]; [vm_compute in HB|vm_compute in HI]; discriminate. Qed.

Lemma signed_in_witness :
  authorised site_topo site_tables (web_request 443 "aa:bb:cc:dd:ee:02") = true ∧
  verdict site_tables Drop (rules_of (forward_items true site site_topo)) (web_request 443 "aa:bb:cc:dd:ee:02") = Accept.
Proof.
  split; [vm_compute; reflexivity|]. apply (signed_in_is_forwarded site site_topo site_tables (web_request 443 "aa:bb:cc:dd:ee:02")).
  - exact site_loaded.
  - apply (bool_decide_unpack _). vm_compute. exact I.
  - exact (site_guarded _ _).
  - apply (bool_decide_unpack _). vm_compute. exact I.
  - reflexivity.
  - discriminate.
  - exact (site_online _ _).
  - vm_compute. reflexivity.
  - vm_compute. reflexivity.
Defined.

(** A query to the resolver of the own gateway. *)
Definition dns_query : packet := mkPacket "br-g10" "" false 168427621 168427521 "aa:bb:cc:dd:ee:03" "udp" 53 false CtStNew.

Lemma guest_input_witness :
  verdict site_tables Drop (rules_of (input_items true site site_topo)) dns_query = Accept ∧
  ((∃ n, from site n dns_query ∧ own_service site_topo n dns_query) ∨ own_portal site_topo dns_query).
Proof.
  assert (HV : verdict site_tables Drop (rules_of (input_items (MACBinding site_topo) site site_topo)) dns_query = Accept) by (vm_compute; reflexivity).
  split; [exact HV|]. destruct (guest_input site site_topo site_tables dns_query) as [HK|[_ HS]].
  - exact site_loaded.
  - apply (bool_decide_unpack _). vm_compute. exact I.
  - apply (bool_decide_unpack _). vm_compute. exact I.
  - apply (bool_decide_unpack _). vm_compute. exact I.
  - exact HV.
  - discriminate HK.
  - exact HS.
Defined.

(** A connection from the uplink to port 22 of the portal address. *)
Definition portal_ssh : packet := mkPacket "eth0" "" false 16909060 184549121 "" "tcp" 22 false CtStNew.

Lemma portal_address_witness :
  verdict site_tables Drop (rules_of (forward_items true site site_topo)) portal_ssh = Drop ∧
  verdict site_tables Drop (rules_of (input_items true site site_topo)) portal_ssh = Drop.
Proof.
  destruct (portal_address_is_local site site_topo site_tables portal_ssh) as [HF HI]; [vm_compute; reflexivity|reflexivity|].
  split; [exact HF|]. apply HI; [apply (bool_decide_unpack _); vm_compute; exact I|discriminate|reflexivity].
Defined.

Lemma captive_redirect_witness :
  verdict site_tables Accept (rules_of (prerouting_items true site site_topo)) (web_request 80 "aa:bb:cc:dd:ee:03") = Dnat "10.10.0.1" 8380.
Proof.
  etransitivity; [apply (captive_redirect site site_topo site_tables guest_vlan (web_request 80 "aa:bb:cc:dd:ee:03"))|vm_compute; reflexivity].
  - exact site_loaded.
  - split; [replace (sortEnabled site) with [staff_lan; guest_vlan] by (vm_compute; reflexivity); right; left|vm_compute; reflexivity].
  - intros m [Hm HB]. apply site_enabled in Hm as [-> | ->]; [vm_compute in HB; discriminate HB|reflexivity].
  - reflexivity.
Defined.

Lemma mac_binding_text_witness : MACBinding site_topo = true ∧ renderNftBody site site_topo = plain_body true site site_topo.
Proof.
  split; [reflexivity|]. apply (mac_binding_text site site_topo); [|reflexivity].
  split; try (vm_compute; reflexivity); [repeat constructor|]. replace (sortEnabled site) with [staff_lan; guest_vlan] by (vm_compute; reflexivity). repeat constructor; discriminate.
Defined.

(** ** The garden *)

Lemma garden_floor_witness : ValidGardenElem "8.8.0.0/16" = true ∧ text_has 134744072 "8.8.0.0/16" = true ∧ IsLoopback4 134744072 = false.
Proof. split_and!; [vm_compute; reflexivity..|]. apply (garden_floor "8.8.0.0/16" 134744072); [vm_compute; reflexivity..|lia]. Defined.

(** A network on one port, a name that resolves to two addresses, and one sign-in host. *)
Definition garden_names (name : string) : list string := if bool_decide (name = "pay.example") then ["52.84.1.2"; "52.84.1.3"] else ["93.184.216.34"].
Definition garden_sources : gardenSources :=
  mkSources [mkGardenRule "cidr" "8.8.0.0/16" [443]; mkGardenRule "domain" "pay.example" []] [] ["login.example"].

Lemma garden_targets_witness :
  plan_IP (planGarden garden_sources garden_names) = ["52.84.1.2"; "52.84.1.3"] ∧
  "8.8.0.0/16 . 443" ∈ plan_TCP (planGarden garden_sources garden_names) ∧ "93.184.216.34 . 443" ∈ plan_TCP (planGarden garden_sources garden_names) ∧
  public "8.8.0.0/16".
Proof.
  destruct (garden_targets_are_public garden_sources garden_names) as (_ & H1 & H2).
  - constructor; [|constructor; [|constructor]].
    + exists (mkInput " cidr" "8.8.0.0/16 " [443]), 16. split; [discriminate|vm_compute; reflexivity].
    + exists (mkInput "domain" "pay.example" []), 24. split; [discriminate|vm_compute; reflexivity].
  - assert (HR : asked garden_sources garden_names (OnTCP 443) "8.8.0.0/16").
    { apply (asked_ports _ _ (mkGardenRule "cidr" "8.8.0.0/16" [443]) _ 443); [left|vm_compute; left|left|left]. }
    split; [vm_compute; reflexivity|]. split; [|split].
    + apply (H1 (OnTCP 443) "8.8.0.0/16" HR); [vm_compute; reflexivity|split; discriminate].
    + apply (H1 (OnTCP 443) "93.184.216.34"); [|vm_compute; reflexivity|split; discriminate].
      apply (asked_host _ _ "login.example"); [left|vm_compute; left].
    + destruct (H2 _ _ HR) as [HB|[(r & _ & _ & _ & HP)|[(r & Hr & Hk & Ha)|(d & Hd & Ha)]]]; [|exact HP|..]; exfalso.
      * repeat (apply elem_of_cons in HB as [HB|HB]; [discriminate HB|]). exact (not_elem_of_nil _ HB).
      * apply elem_of_cons in Hr as [->|Hr]; [discriminate Hk|]. apply list_elem_of_singleton in Hr as ->.
        repeat (apply elem_of_cons in Ha as [Ha|Ha]; [discriminate Ha|]). exact (not_elem_of_nil _ Ha).
      * apply list_elem_of_singleton in Hd as ->. apply list_elem_of_singleton in Ha. discriminate Ha.
Defined.

(** ** Reconciling *)

#[export] Instance plain_format : GoFormat := {| Quote s := quoted s; v6_text ip := pretty ip |}.

(** A table of an older render, with one client that is signed in for 47 more seconds. *)
Definition old_table : Readings := {|
  list_tables := Some [("inet", "stayconnect")];
  list_table := Some [("phase3_auth_ipv4", ""); ("sc_render_fp", "netd-render-fp=0123456789abcdef0123456789abcdef")];
  list_set s := Some [[("set", JObj [("elem", JArr [JObj [("elem", JObj [("val", JObj [("concat", JArr [JStr "br-g10"; JStr "10.10.0.101"])]);
                                                                        ("timeout", JNum 90); ("expires", JNum 47)])]])])]]
|}.

Definition kept_command : string := q "add element inet stayconnect phase3_auth_ipv4 { `br-g10` . 10.10.0.101 timeout 47s }".
Definition sample_outcome : Outcome := mkOutcome true (RenderFingerprint site site_topo) "0123456789abcdef0123456789abcdef" 1 true.

Lemma sample_run :
  Ensure site site_topo old_table true true true old_table = (sample_outcome, Some FingerprintDiffers, [converge_script site site_topo [kept_command]]).
Proof. vm_compute. reflexivity. Qed.


(** ** The generated files *)

Lemma site_checked : ValidateSet site site_topo None None = [].
Proof. vm_compute. reflexivity. Qed.

Lemma generated_lines_witness :
  split_on LF (lines_text (RenderNetplanWith (U := ascii_unicode) (Some (λ _, "02:00:00:00:00:01")) site)) =
  (RenderNetplanWith (U := ascii_unicode) (Some (λ _, "02:00:00:00:00:01")) site ++ [""])%list.
Proof. apply (generated_lines (U := ascii_unicode) (Some (λ _, "02:00:00:00:00:01")) site site_topo None None site_checked). Defined.

Lemma factory_witness : ValidateOne (Factory "enp3s0") site_topo (Some {["enp3s0"]}) None "networks[0]." = [].
Proof. apply (factory_is_valid "enp3s0"); [vm_compute; reflexivity|discriminate|discriminate|apply elem_of_singleton; reflexivity]. Defined.
